(* ===== verification/_CoqProject ===== *)
-Q . S2P
Prelude.v
Interfaces.v
KString.v
Utf8.v
Parser.v
Ring.v
Vnode.v
Pipe.v
Mqueue.v
Fs.v
Ramfs.v
Klog.v
Physmem.v
Mmap.v
Paging.v
UserDir.v
Elf.v
AddrSpace.v
Process.v
Task.v
Sched.v
TaskInv.v
TaskOps.v
TaskSys.v
TaskFair.v
TaskCalls.v
Vfs.v
VfsInv.v
VfsSys.v
VfsCalls.v
Shm.v
Slab.v
Heap.v
Net.v
Arp.v
Ipv4.v
Tcp.v
Udp.v
Dns.v
Dhcp.v
NetStack.v
