(* ===== verification/Prelude.v ===== *)
(** * Lyth: a verification development of the kernel

    Lyth is a hobby operating system for x86_64 written in C.  This library
    models the parts of its kernel that keep data structures and decide things,
    as executable definitions translated function by function from the source,
    and proves what makes them correct.  A definition has the name of the C
    function or type it models; a [w]-bit integer is a [Z] with its wrap-around
    written out ([u8] to [u64] below); a pointer is an address; an error return
    is the value the code returns.

    ** The program and its models

    Memory.  [Physmem] is the bitmap of page frames with the boot memory map and
    the copy-on-write reference counts ([kernel/mem/physmem.c]).  [Paging] is
    the four-level page tables in physical memory, with user directories, the
    checks of user pointers, and the copy-on-write clone, release and resolution
    ([kernel/mem/paging.c]); [UserDir] relates its operations to the set of
    mapped pages of a directory.  [AddrSpace] and [Process] compose them into
    address spaces of processes: creation from an executable with its error paths
    ([kernel/usermode.c], with the loader of [Elf]), fork and exit
    ([kernel/task/task.c]), and page faults ([kernel/interrupts.c]).  [Heap] and
    [Slab] are the kernel's allocators, [Mmap] the anonymous mappings of a
    process, [Shm] the shared segments ([kernel/mem]).

    Tasks.  [Task] is [kernel/task/task.c]: the table of 16 tasks, the ready
    queues linked through it, signals, creation, fork, exec, exit and wait,
    timers, identities and limits.  [Sched] shows that the linked queues are
    lists, [TaskInv] states the invariant of the table and proves it for the end
    of a task, [TaskOps] for the other operations, and [TaskSys] puts calls and
    interrupts together; [TaskFair] shows that the ready queues are fair over any
    run, and [TaskCalls] has the properties of the system calls.

    Communication.  [Pipe] ([fs/pipe.c], with the node record of [Vnode]) and
    [Mqueue] ([kernel/mqueue.c]) are bounded buffers over the rings of [Ring];
    [Klog] is the kernel log.

    Files.  [Fs] is the flat store of files ([fs/fs.c]), [Ramfs] the directories
    over it ([fs/ramfs.c]), and [Vfs] the virtual file system ([fs/vfs.c]): mounts,
    path resolution with its two caches, permissions by path, descriptor tables of
    all contexts, and renaming.  [VfsInv] states the invariant of nodes, reference
    counts, descriptors and caches and proves it for each operation, [VfsSys] for
    opening, inheritance, renaming and every sequence of calls; [VfsCalls] has what
    reads and writes do.

    Network.  [Net] ([net/netif.c], [net/ethernet.c]), [Arp], [Ipv4], [Tcp],
    [Udp] (with ICMP) and [NetStack], which composes them with the socket layer
    ([net/socket.c]) and runs two hosts against each other; [Dns] and [Dhcp] are the
    resolver and the configuration client over them ([net/dns.c], [net/dhcp.c]).

    Text.  [KString] is [lib/string.c], [Utf8] the UTF-8 decoder and the glyph
    table ([lib/utf8.c]), [Parser] the parser of shell lines
    ([userland/shell/parser.c]).

    Programs.  [Elf] is the ELF parser ([kernel/elf.c]) and the loader of segments
    ([kernel/usermode.c]).

    [Prelude] (this file) has the integers, arrays, bounded loops, searches and
    record updates the others share.  [Interfaces] has the classes by which one
    component uses another: page frames ([FrameAllocator], proved for [Physmem])
    and heap blocks ([KAllocator]); the clients ([Slab], [Shm], [Pipe],
    [Mqueue], [Fs], [Ramfs], [Vfs]) are proved against the interface.

    ** What the theorems show

    - Isolation: no step of a process changes what another reads; reference
      counts cover all page tables; a new process reads the segments of its
      executable, and a failed creation gives back every frame ([Process]).
    - The task table: in every state reachable by calls and interrupts the
      queues hold exactly the ready tasks, one task runs, the idle task is alive
      and [SIGKILL] cannot be avoided ([TaskSys]); dispatch takes the head of
      the best queue, and a woken task joins the end of its own; a ready task runs
      within 2n + 2 timer interrupts, n tasks being before it, in any run in which
      no better task is dispatched and nobody kills or re-prioritises it
      ([TaskFair]); [waitpid] after an exit hands over the status wherever the code
      can write it ([TaskCalls]).
    - Allocators: the frame bitmap, counter and reference counts agree in every
      reachable state; a client of the heap's initial region gets disjoint blocks, and
      frees in any order restore one free block; slabs hand out disjoint objects.
    - Communication: pipes and message queues are FIFO and refine bounded lists;
      shared segments are never released while mapped.
    - Files: the flat store refines a map of at most 32 files whatever the heap
      grants, listings enumerate the children of a directory (a built-in file that
      was written stands in them twice), every descriptor refers to an allocated node whose
      reference count is exact and no node is lost, whatever is called
      ([VfsSys]); what is written is read back when the heap grants the
      blocks, and a refused write empties the file ([VfsCalls]).
    - Network: packets and datagrams round-trip through the whole stack; a TCP
      stream is delivered in order, once; a segment changes at most one socket; name
      server responses are read inside their datagrams, and only a response with the
      pending identifier completes a query ([Dns]).
    - Parsing: quoting round-trips through the shell parser; the UTF-8 decoder accepts
      exactly the shortest encodings ([Utf8]); the ELF parser accepts
      exactly the files whose tables and segments are inside, and the loaded
      memory is that of the segments ([Elf]).
    - Where the code does not do what it means to, a theorem of kind error or
      bounds proves what it does instead, with the inputs that show it.

    ** Bounds and fuel

    Loops over fixed tables are [for_loop] with the table's size.  Loops on
    linked data take fuel, and every theorem about them shows that the fuel is
    enough: 17 steps for a ready queue of at most 16 tasks, the number of blocks
    for the heap list, three folds for the carry of a checksum, 1026 pages for a
    user buffer, one step per byte of a text or a path, one per name of a listing.
    The copy loop of a renaming gets one step per byte of the file and one more; the
    invariant of [VfsSys] holds for any number of its steps.  A queue walk or assertion that
    would not end sets [stuck], which the invariant of [TaskSys] excludes.  The
    scans of the frame allocator are bounded by its number of frames.

    ** What is not modelled

    Interrupt flags and spin locks: an operation of a component is one step, and
    interrupts happen between steps.  Task identifiers do not wrap at 2^31.
    A call is made by the running task; only [task_sleep] is also made by a task
    that is already asleep, as the loops of pipes and queues do.  The heap of the
    file systems may refuse any request; it is assumed to refuse those from 1 GiB
    to 0xFFFFFFF0 bytes ([SmallBlocks]).  An executable whose headers make the
    loader read outside the file has no behaviour in [Process], and a refused load
    is taken to leave zeros in the region it frees.
    Accesses through the identity map are accesses of physical memory, and TLB
    flushes are only recorded.  Blocking operations are loops whose sleeps let
    the environment act.  The calls of [Task] on the heap, descriptors, shared
    memory and page tables are recorded in a log rather than executed; their
    memory effects are those of [AddrSpace] and [Process], where shared-memory
    mappings are left out.  Time that passes in busy waits and the re-entrance
    of the network code during an address resolution are arguments.  In [Vfs] the
    nodes of back ends other than the RAM file system have no operations, and their
    hooks for opening and closing do nothing; static nodes count as allocated.
    Device drivers, the graphical interface, the shell's commands, the FAT and
    device file systems, system-call dispatch and the boot code are not modelled:
    they are hardware access, drawing, or glue over the parts above. *)
From Stdlib Require Import ZArith Lia.
From stdpp Require Import base numbers list gmap.

Open Scope Z_scope.

(** * Machine integers

    A [w]-bit unsigned value is a [Z] in [0, 2^w); every C operation that can
    wrap is followed by one of these truncations. *)
Definition u8 (z : Z) : Z := z mod 256.
Definition u16 (z : Z) : Z := z mod 65536.
Definition u32 (z : Z) : Z := z mod 4294967296.
Definition u64 (z : Z) : Z := z mod 18446744073709551616.

(** [~m] on 32 bits. *)
Definition not32 (m : Z) : Z := u32 (Z.lnot m).

(** Conversion of a 32-bit value to [int]. *)
Definition s32 (z : Z) : Z := if u32 z <? 2147483648 then u32 z else u32 z - 4294967296.

(** C truth value of a comparison result. *)
Definition b2z (b : bool) : Z := if b then 1 else 0.

(** * Arrays

    A C array is a list read and written at a [Z] index.  Outside the bounds
    (undefined behaviour in C) a read gives the inhabitant of the element type
    and a write has no effect; the bounds theorems of the components show that
    their indexes stay inside. *)
Definition aget {A} `{Inhabited A} (l : list A) (i : Z) : A := l !!! Z.to_nat i.
Definition aset {A} (l : list A) (i : Z) (x : A) : list A := <[Z.to_nat i := x]> l.

Declare Scope lyth_scope.
Delimit Scope lyth_scope with lyth.
Notation "a .[ i ]" := (aget a i)
  (at level 1, i at level 200, left associativity, format "a .[ i ]") : lyth_scope.
Notation "a .[ i <- x ]" := (aset a i x)
  (at level 1, i at level 200, x at level 200, left associativity,
   format "a .[ i  <-  x ]") : lyth_scope.
Open Scope lyth_scope.

(** * Record update

    [r <| f := v |>] is the record [r] with its field [f] set to [v].  A record
    type declares its fields once, as an instance of [Fields] that rebuilds a
    value from its projections; the setter of a field is that function with the
    projection replaced. *)
Class Fields (R : Type) := rebuild : R -> R.
Class Setter {R T : Type} (proj : R -> T) := update : (T -> T) -> R -> R.
Arguments update {R T} proj {_} f r.

Ltac infer_setter :=
  match goal with
  | |- @Setter ?R ?T ?proj =>
      let mk := eval cbv beta delta [rebuild] in (rebuild (R := R)) in
      let mk := eval hnf in mk in
      lazymatch (eval pattern proj in mk) with
      | ?f _ =>
          let g := eval cbv beta in (fun (h : T -> T) => f (fun r : R => h (proj r))) in
          exact g
      end
  end.
#[export] Hint Extern 1 (Setter _) => infer_setter : typeclass_instances.

Notation "r <| p := v |>" := (update p (fun _ => v) r)
  (at level 12, left associativity, p at level 99, format "r <| p  :=  v |>") : lyth_scope.

(** * Sparse arrays

    Large static arrays (one cell per physical frame) are a default value and
    the finite map of the cells written since the last fill. *)
Record sarr (A : Type) := SArr { sdef : A; scells : gmap Z A }.
Arguments SArr {A} _ _.
Arguments sdef {A} _.
Arguments scells {A} _.

Definition sfill {A} (v : A) : sarr A := SArr v ∅.
Definition sget {A} (a : sarr A) (i : Z) : A := default (sdef a) (scells a !! i).
Definition sset {A} (a : sarr A) (i : Z) (v : A) : sarr A :=
  SArr (sdef a) (<[i := v]> (scells a)).

(** * Loops *)

(** [for (i = lo; i < lo + n; i++) s = body(i, s)] *)
Fixpoint for_loop {S : Type} (body : Z -> S -> S) (n : nat) (lo : Z) (s : S) : S :=
  match n with
  | O => s
  | S n' => for_loop body n' (lo + 1) (body lo s)
  end.

(** First index of [lo, lo + n) that satisfies a test: a search loop that
    breaks at the first hit. *)
Fixpoint find_first (P : Z -> bool) (n : nat) (lo : Z) : option Z :=
  match n with
  | O => None
  | S n' => if P lo then Some lo else find_first P n' (lo + 1)
  end.

(** Number of indexes of [0, n) that satisfy a test. *)
Fixpoint countb (P : Z -> bool) (n : nat) : Z :=
  match n with
  | O => 0
  | S n' => countb P n' + b2z (P (Z.of_nat n'))
  end.

(** The [n] cells from [off], and a byte-by-byte copy into an array. *)
Definition slice {A} `{Inhabited A} (l : list A) (off n : Z) : list A :=
  (fun i => aget l (off + i)) <$> seqZ 0 n.

Definition blit {A} (f : Z -> A) (off n : Z) (l : list A) : list A :=
  for_loop (fun i t => aset t (off + i) (f i)) (Z.to_nat n) 0 l.

(** * Tactics and hints *)

(** [lia] with the quotient and remainder equations of constant divisors. *)
Ltac zlia := Z.to_euclidean_division_equations; lia.

(** Boolean guards of the code turned into propositions. *)
Ltac bool_to_prop :=
  repeat match goal with
  | H : (_ && _)%bool = true |- _ => apply andb_prop in H as [? ?]
  | H : (_ || _)%bool = false |- _ => apply orb_false_elim in H as [? ?]
  | H : (_ || _)%bool = true |- _ => apply orb_prop in H
  | H : negb _ = true |- _ => apply negb_true_iff in H
  | H : negb _ = false |- _ => apply negb_false_iff in H
  | H : (_ =? _) = true |- _ => apply Z.eqb_eq in H
  | H : (_ =? _) = false |- _ => apply Z.eqb_neq in H
  | H : (_ <? _) = true |- _ => apply Z.ltb_lt in H
  | H : (_ <? _) = false |- _ => apply Z.ltb_ge in H
  | H : (_ <=? _) = true |- _ => apply Z.leb_le in H
  | H : (_ <=? _) = false |- _ => apply Z.leb_gt in H
  | H : (_ >=? _) = _ |- _ => rewrite Z.geb_leb in H
  | H : (_ >? _) = _ |- _ => rewrite Z.gtb_ltb in H
  end.

(** Case split on the guard of an [if] in the goal, as propositions. *)
Ltac case_if :=
  match goal with
  | |- context [if ?b then _ else _] =>
      lazymatch type of b with
      | bool => let E := fresh "Hif" in destruct b eqn:E; bool_to_prop
      end
  end.

Ltac case_if_in H :=
  match type of H with
  | context [if ?b then _ else _] =>
      lazymatch type of b with
      | bool => let E := fresh "Hif" in destruct b eqn:E; bool_to_prop
      end
  end.

Create HintDb lyth discriminated.

(** * Lemmas *)

Lemma u8_bound z : 0 <= u8 z < 256.
Proof. unfold u8. zlia. Qed.

Lemma u16_bound z : 0 <= u16 z < 65536.
Proof. unfold u16. zlia. Qed.

Lemma u32_bound z : 0 <= u32 z < 4294967296.
Proof. unfold u32. zlia. Qed.

Lemma u64_bound z : 0 <= u64 z < 18446744073709551616.
Proof. unfold u64. zlia. Qed.

Lemma u8_small z : 0 <= z < 256 -> u8 z = z.
Proof. apply Z.mod_small. Qed.

Lemma u16_small z : 0 <= z < 65536 -> u16 z = z.
Proof. apply Z.mod_small. Qed.

Lemma u32_small z : 0 <= z < 4294967296 -> u32 z = z.
Proof. apply Z.mod_small. Qed.

Lemma u64_small z : 0 <= z < 18446744073709551616 -> u64 z = z.
Proof. apply Z.mod_small. Qed.
Lemma s32_small z : 0 <= z < 2147483648 -> s32 z = z.
Proof. intros. unfold s32. rewrite u32_small by lia. by rewrite (proj2 (Z.ltb_lt _ _)) by lia. Qed.

#[export] Hint Resolve u8_bound u16_bound u32_bound u64_bound : lyth.

Lemma land_not32_pow2 x k :
  0 <= x < 4294967296 -> 0 <= k ->
  Z.land x (not32 (2 ^ k - 1)) = 2 ^ k * (x / 2 ^ k).
Proof.
  intros Hx Hk. unfold not32, u32.
  change 4294967296 with (2 ^ 32) in *.
  rewrite <- (Z.land_ones (Z.lnot _)) by lia.
  rewrite Z.land_comm, <- Z.land_assoc, (Z.land_comm (Z.ones 32)), Z.land_ones by lia.
  rewrite (Z.mod_small x) by lia.
  rewrite Z.land_comm, Z.sub_1_r, <- Z.ones_equiv.
  change (Z.land x (Z.lnot (Z.ones k))) with (Z.land x (Z.lnot (Z.ones k))).
  rewrite <- Z.ldiff_land, Z.ldiff_ones_r by lia.
  rewrite Z.shiftl_mul_pow2, Z.shiftr_div_pow2 by lia. lia.
Qed.

Lemma lor_add a b k : 0 <= a < 2 ^ k -> Z.lor a (b * 2 ^ k) = a + b * 2 ^ k.
Proof.
  intros Ha. assert (0 <= k) by (destruct (decide (0 <= k)); [done|]; rewrite Z.pow_neg_r in Ha; lia).
  rewrite <- Z.shiftl_mul_pow2 by done.
  assert (Z.land a (Z.shiftl b k) = 0) as Hd.
  { apply Z.bits_inj'. intros n Hn. rewrite Z.land_spec, Z.bits_0, Z.shiftl_spec by done.
    destruct (decide (n < k)).
    - rewrite (Z.testbit_neg_r b) by lia. apply andb_false_r.
    - rewrite <- (Z.mod_small a (2 ^ k)), Z.mod_pow2_bits_high by lia. done. }
  by rewrite <- Z.lxor_lor, Z.add_nocarry_lxor by done.
Qed.

Section arrays.
Context {A : Type} `{Inhabited A}.
Implicit Types (l : list A) (i j : Z) (x : A).

Lemma aset_length l i x : length (aset l i x) = length l.
Proof. apply length_insert. Qed.

Lemma aget_aset_eq l i x : 0 <= i < Z.of_nat (length l) -> (aset l i x).[i] = x.
Proof.
  intros Hi. unfold aget, aset. apply list_lookup_total_insert_eq. lia.
Qed.

Lemma aget_aset_ne l i j x : 0 <= i -> 0 <= j -> i <> j -> (aset l i x).[j] = l.[j].
Proof.
  intros Hi Hj Hne. unfold aget, aset. apply list_lookup_total_insert_ne. lia.
Qed.

Lemma aset_outside l i x : Z.of_nat (length l) <= i -> aset l i x = l.
Proof. intros. unfold aset. apply list_insert_ge. lia. Qed.

Lemma aget_lookup l i :
  0 <= i < Z.of_nat (length l) -> l !! Z.to_nat i = Some l.[i].
Proof. intros. unfold aget. apply list_lookup_lookup_total_lt. lia. Qed.

Lemma aget_elem l i : 0 <= i < Z.of_nat (length l) -> l.[i] ∈ l.
Proof. intros. eapply list_elem_of_lookup_2. by apply aget_lookup. Qed.

Lemma lookup_aget l (n : nat) x : l !! n = Some x -> l.[Z.of_nat n] = x.
Proof.
  intros Hn. unfold aget. rewrite Nat2Z.id. by apply list_lookup_total_correct.
Qed.

End arrays.

Section sparse.
Context {A : Type}.
Implicit Types (a : sarr A).

Lemma sget_sset_eq a i v : sget (sset a i v) i = v.
Proof. unfold sget, sset; simpl. by rewrite lookup_insert_eq. Qed.

Lemma sget_sset_ne a i j v : i <> j -> sget (sset a i v) j = sget a j.
Proof. intros. unfold sget, sset; simpl. by rewrite lookup_insert_ne. Qed.

Lemma sget_sset a i j v :
  sget (sset a i v) j = if decide (i = j) then v else sget a j.
Proof.
  case_decide; subst; [apply sget_sset_eq | by apply sget_sset_ne].
Qed.

Lemma sget_sfill (v : A) i : sget (sfill v) i = v.
Proof. reflexivity. Qed.

End sparse.

Lemma for_loop_ind {S} (I : Z -> S -> Prop) (body : Z -> S -> S) n lo s :
  I lo s ->
  (forall j t, lo <= j < lo + Z.of_nat n -> I j t -> I (j + 1) (body j t)) ->
  I (lo + Z.of_nat n) (for_loop body n lo s).
Proof.
  revert lo s. induction n as [|n IH]; intros lo s H0 Hstep; simpl.
  - by rewrite Z.add_0_r.
  - replace (lo + Z.of_nat (Datatypes.S n)) with ((lo + 1) + Z.of_nat n) by lia.
    apply IH; [apply Hstep; [lia | done] |].
    intros j t Hj. apply Hstep. lia.
Qed.

Lemma for_loop_app {S} (body : Z -> S -> S) n m lo s :
  for_loop body (n + m) lo s = for_loop body m (lo + Z.of_nat n) (for_loop body n lo s).
Proof.
  revert lo s. induction n as [|n IH]; intros lo s; simpl.
  - by rewrite Z.add_0_r.
  - rewrite IH. f_equal. lia.
Qed.

Lemma for_loop_ext_range {S} (f g : Z -> S -> S) n lo s :
  (forall i t, lo <= i < lo + Z.of_nat n -> f i t = g i t) ->
  for_loop f n lo s = for_loop g n lo s.
Proof.
  revert lo s. induction n as [|n IH]; intros lo s E; simpl; [done|].
  rewrite E by lia. apply IH. intros. apply E. lia.
Qed.

Lemma find_first_Some P n lo k :
  find_first P n lo = Some k ->
  lo <= k < lo + Z.of_nat n /\ P k = true /\ forall j, lo <= j < k -> P j = false.
Proof.
  revert lo. induction n as [|n IH]; intros lo; simpl; [done|].
  destruct (P lo) eqn:E.
  - intros [= <-]. split_and!; [lia..|done|intros; lia].
  - intros Hf. destruct (IH _ Hf) as (? & ? & Hmin). split_and!; [lia..|done|].
    intros j Hj. destruct (decide (j = lo)) as [->|]; [done|]. apply Hmin. lia.
Qed.

Lemma find_first_None P n lo :
  find_first P n lo = None <-> forall j, lo <= j < lo + Z.of_nat n -> P j = false.
Proof.
  revert lo. induction n as [|n IH]; intros lo; simpl.
  - split; [intros; lia | done].
  - destruct (P lo) eqn:E.
    + split; [done|]. intros Hall. rewrite Hall in E by lia. done.
    + rewrite IH. split; intros Hall j Hj.
      * destruct (decide (j = lo)) as [->|]; [done|]. apply Hall. lia.
      * apply Hall. lia.
Qed.

Lemma find_first_intro P n lo k :
  lo <= k < lo + Z.of_nat n -> P k = true -> (forall j, lo <= j < k -> P j = false) ->
  find_first P n lo = Some k.
Proof.
  intros Hk HP Hmin. destruct (find_first P n lo) as [k'|] eqn:E.
  - apply find_first_Some in E as (Hr & HP' & Hmin'). f_equal.
    destruct (Z.lt_trichotomy k k') as [Hlt|[->|Hlt]]; [|done|].
    + rewrite Hmin' in HP by lia. done.
    + rewrite Hmin in HP' by lia. done.
  - rewrite find_first_None in E. rewrite E in HP by lia. done.
Qed.

Lemma find_first_exists P n lo j :
  lo <= j < lo + Z.of_nat n -> P j = true ->
  exists k, find_first P n lo = Some k /\ k <= j.
Proof.
  intros Hj HP. destruct (find_first P n lo) as [k|] eqn:E.
  - exists k. split; [done|]. apply find_first_Some in E as (_ & _ & Hmin).
    destruct (decide (k <= j)); [done|]. rewrite Hmin in HP by lia. done.
  - rewrite find_first_None in E. rewrite E in HP by lia. done.
Qed.

Lemma find_first_ext P Q n lo :
  (forall j, lo <= j < lo + Z.of_nat n -> P j = Q j) ->
  find_first P n lo = find_first Q n lo.
Proof.
  revert lo. induction n as [|n IH]; intros lo HPQ; simpl; [done|].
  rewrite (HPQ lo) by lia. destruct (Q lo); [done|]. apply IH. intros. apply HPQ. lia.
Qed.

Lemma b2z_bound b : 0 <= b2z b <= 1.
Proof. destruct b; simpl; lia. Qed.

Lemma countb_bound P n : 0 <= countb P n <= Z.of_nat n.
Proof. induction n as [|n IH]; simpl; [lia|]. pose proof (b2z_bound (P (Z.of_nat n))). lia. Qed.

Lemma countb_ext P Q n :
  (forall i, 0 <= i < Z.of_nat n -> P i = Q i) -> countb P n = countb Q n.
Proof.
  induction n as [|n IH]; intros E; simpl; [done|].
  rewrite E by lia. rewrite IH; [done|]. intros. apply E. lia.
Qed.

Lemma countb_app P n m :
  countb P (n + m) = countb P n + countb (fun i => P (Z.of_nat n + i)) m.
Proof.
  induction m as [|m IH]; [rewrite Nat.add_0_r; simpl; lia|].
  rewrite Nat.add_succ_r. simpl. rewrite IH, Nat2Z.inj_add. lia.
Qed.

Lemma countb_le P Q n :
  (forall i, 0 <= i < Z.of_nat n -> P i = true -> Q i = true) -> countb P n <= countb Q n.
Proof.
  induction n as [|n IH]; intros E; simpl; [lia|].
  assert (countb P n <= countb Q n) by (apply IH; intros; apply E; [lia|done]).
  pose proof (E (Z.of_nat n)) as En. destruct (P (Z.of_nat n)), (Q (Z.of_nat n)); simpl; lia.
Qed.

Lemma countb_mono P n m : (n <= m)%nat -> countb P n <= countb P m.
Proof.
  intros Hle. replace m with (n + (m - n))%nat by lia. rewrite countb_app.
  pose proof (countb_bound (fun i => P (Z.of_nat n + i)) (m - n)). lia.
Qed.

(** Changing a test at one index. *)
Lemma countb_update P Q n j :
  0 <= j < Z.of_nat n -> (forall i, 0 <= i < Z.of_nat n -> i <> j -> Q i = P i) ->
  countb Q n = countb P n - b2z (P j) + b2z (Q j).
Proof.
  induction n as [|n IH]; intros Hj E; [lia|]. simpl. destruct (decide (j = Z.of_nat n)) as [->|Hne].
  - rewrite (countb_ext Q P); [lia|]. intros. apply E; lia.
  - rewrite IH, (E (Z.of_nat n)) by (lia || (intros; apply E; lia)). lia.
Qed.

Lemma countb_pos P n j : 0 <= j < Z.of_nat n -> P j = true -> 0 < countb P n.
Proof.
  intros Hj HP. set (Q := fun i => if decide (i = j) then false else P i).
  pose proof (countb_bound Q n) as Hb. rewrite (countb_update P Q n j) in Hb; [|done|].
  - unfold Q in Hb. rewrite decide_True, HP in Hb by done. simpl in Hb. lia.
  - intros i _ Hne. unfold Q. by rewrite decide_False.
Qed.

Lemma countb_none P n : (forall i, 0 <= i < Z.of_nat n -> P i = false) -> countb P n = 0.
Proof.
  induction n as [|n IH]; intros E; simpl; [done|]. rewrite IH, E; [done|lia|]. intros. apply E. lia.
Qed.

Lemma countb_le_one P n j :
  countb P n <= 1 -> 0 <= j < Z.of_nat n -> P j = true ->
  forall i, 0 <= i < Z.of_nat n -> P i = true -> i = j.
Proof.
  intros Hle Hj HPj i Hi HPi. destruct (decide (i = j)); [done|]. exfalso.
  pose proof (countb_update P (fun k => if decide (k = j) then false else P k) n j Hj) as E.
  pose proof (countb_pos (fun k => if decide (k = j) then false else P k) n i Hi) as Hp.
  cbv beta in *. rewrite decide_True, HPj in E by done. simpl b2z in E.
  rewrite decide_False in Hp by done. specialize (Hp HPi).
  rewrite E in Hp; [lia|]. intros. by rewrite decide_False.
Qed.

Lemma countb_two P n i j :
  0 <= i < Z.of_nat n -> 0 <= j < Z.of_nat n -> i <> j -> P i = true -> P j = true ->
  2 <= countb P n.
Proof.
  intros Hi Hj Hne HPi HPj. destruct (decide (countb P n <= 1)); [|lia].
  destruct Hne. by apply (countb_le_one P n j).
Qed.

Lemma countb_sum_le P Q R n :
  (forall i, 0 <= i < Z.of_nat n -> b2z (P i) <= b2z (Q i) + b2z (R i)) ->
  countb P n <= countb Q n + countb R n.
Proof.
  induction n as [|n IH]; intros E; simpl; [lia|].
  assert (countb P n <= countb Q n + countb R n) by (apply IH; intros; apply E; lia).
  pose proof (E (Z.of_nat n)). lia.
Qed.

Lemma countb_sum P Q R n :
  (forall i, 0 <= i < Z.of_nat n -> b2z (P i) + b2z (Q i) = b2z (R i)) ->
  countb R n = countb P n + countb Q n.
Proof.
  induction n as [|n IH]; intros E; simpl; [lia|].
  rewrite IH by (intros; apply E; lia). pose proof (E (Z.of_nat n)). lia.
Qed.

Lemma countb_trunc P n m :
  (n <= m)%nat -> countb (fun i => P i && (i <? Z.of_nat n)) m = countb P n.
Proof.
  intros Hle. replace m with (n + (m - n))%nat by lia. rewrite countb_app.
  rewrite (countb_ext _ P n), (countb_none (fun i => _) (m - n)); [lia| |].
  - intros i Hi. rewrite (proj2 (Z.ltb_ge _ _)) by lia. apply andb_false_r.
  - intros i Hi. rewrite (proj2 (Z.ltb_lt _ _)) by lia. apply andb_true_r.
Qed.

(** A test that holds at one index only. *)
Lemma countb_single P n j :
  0 <= j < Z.of_nat n -> (forall i, 0 <= i < Z.of_nat n -> P i = true <-> i = j) -> countb P n = 1.
Proof.
  intros Hj E. rewrite (countb_update (fun _ => false) P n j Hj).
  - rewrite countb_none by done. rewrite (proj2 (E j Hj)) by done. done.
  - intros i Hi Hne. destruct (P i) eqn:EP; [|done]. apply E in EP; [done|lia].
Qed.

Section slices.
Context {A : Type} `{Inhabited A}.
Implicit Types (l : list A) (f : Z -> A).

Lemma slice_length l off n : 0 <= n -> Z.of_nat (length (slice l off n)) = n.
Proof. intros. unfold slice. rewrite length_fmap, length_seqZ. lia. Qed.

Lemma slice_lookup l off n i :
  0 <= i < n -> slice l off n !! Z.to_nat i = Some l.[off + i].
Proof.
  intros. unfold slice. rewrite list_lookup_fmap, lookup_seqZ_lt by lia. simpl.
  do 3 f_equal. lia.
Qed.

Lemma slice_ext l l' off off' n :
  (forall i, 0 <= i < n -> l.[off + i] = l'.[off' + i]) -> slice l off n = slice l' off' n.
Proof.
  intros Hext. apply list_fmap_ext. intros k x Hx. apply lookup_seqZ in Hx as [-> Hk].
  apply Hext. lia.
Qed.

Lemma slice_all l : slice l 0 (Z.of_nat (length l)) = l.
Proof.
  apply list_eq. intros i. destruct (decide (i < length l)%nat) as [Hi|Hi].
  - rewrite <- (Nat2Z.id i), slice_lookup by lia. symmetry. apply aget_lookup. lia.
  - rewrite !lookup_ge_None_2; [done|lia|]. unfold slice. rewrite length_fmap, length_seqZ. lia.
Qed.

Lemma blit_length f off n l : length (blit f off n l) = length l.
Proof.
  unfold blit. apply (for_loop_ind (fun _ t => length t = length l)); [done|].
  intros j t _ <-. apply aset_length.
Qed.

(** A copy changes the cells of its range and no others. *)
Lemma blit_get f off n l j :
  0 <= off -> 0 <= n -> off + n <= Z.of_nat (length l) -> 0 <= j ->
  (blit f off n l).[j] = if decide (off <= j < off + n) then f (j - off) else l.[j].
Proof.
  intros Ho Hn Hl Hj. unfold blit.
  pose (I := fun (k : Z) (t : list A) => length t = length l /\
    t.[j] = if decide (off <= j < off + k) then f (j - off) else l.[j]).
  enough (I (0 + Z.of_nat (Z.to_nat n)) (for_loop (fun i t => aset t (off + i) (f i)) (Z.to_nat n) 0 l))
    as [_ HI] by (by replace (0 + Z.of_nat (Z.to_nat n)) with n in HI by lia).
  apply (for_loop_ind I); unfold I.
  - split; [done|]. by rewrite decide_False by lia.
  - intros k t Hk [Hlen Ht]. split; [by rewrite aset_length|].
    destruct (decide (j = off + k)) as [->|Hne].
    + rewrite aget_aset_eq by lia. rewrite decide_True by lia. f_equal. lia.
    + rewrite aget_aset_ne by lia. rewrite Ht. repeat case_decide; try done; lia.
Qed.

End slices.

(** An invariant of every step holds along a run. *)
Lemma rtc_invariant {S} (R : relation S) (I : S -> Prop) x y :
  (forall a b, R a b -> I a -> I b) -> rtc R x y -> I x -> I y.
Proof. intros Hstep Hrun. induction Hrun; eauto. Qed.
