(* ===== verification/Interfaces.v ===== *)
(** Interfaces between the components.

    The slab allocator and the shared-memory segments take page frames from
    the frame allocator, and the pipes and message queues take blocks from the
    kernel heap.  The classes below state what the provider promises; the
    clients are proved against them. *)
From S2P Require Import Prelude.
From Stdlib Require Import ZArith Lia.
From stdpp Require Import base numbers list gmap.

Open Scope Z_scope.

(** Page frames: [physmem_alloc_frame] and [physmem_free_frame]. *)
Class FrameAllocator (S : Type) := {
  fa_alloc : S -> S * Z;
  fa_free : S -> Z -> S;
  fa_inv : S -> Prop;
  fa_held : S -> Z -> Prop;
}.

Class FrameAllocatorLaws (S : Type) `{FrameAllocator S} := {
  fa_alloc_inv s : fa_inv s -> fa_inv (fa_alloc s).1;
  fa_free_inv s a : fa_inv s -> 0 <= a < 4294967296 -> fa_inv (fa_free s a);
  (** A frame that is handed out is page aligned, above the first megabyte
      and was not held by anyone. *)
  fa_alloc_fresh s s' a : fa_inv s -> fa_alloc s = (s', a) -> a <> 0 ->
    a mod 4096 = 0 /\ 1048576 <= a /\ a + 4096 <= 4294967296 /\ ~ fa_held s a /\
    (forall b, fa_held s' b <-> b = a \/ fa_held s b);
  fa_alloc_none s s' : fa_inv s -> fa_alloc s = (s', 0) -> s' = s;
  fa_held_range s a : fa_inv s -> fa_held s a -> 0 < a < 4294967296;
  fa_free_held s a : fa_inv s -> fa_held s a ->
    forall b, fa_held (fa_free s a) b <-> b <> a /\ fa_held s b;
}.

(** Kernel heap: [kmalloc] and [kfree].  [ka_live] is the set of blocks in
    use. *)
Class KAllocator (S : Type) := {
  ka_malloc : S -> Z -> S * Z;
  ka_free : S -> Z -> S;
  ka_live : S -> gset Z;
}.

Class KAllocatorLaws (S : Type) `{KAllocator S} := {
  ka_malloc_fail s n s' : ka_malloc s n = (s', 0) -> ka_live s' = ka_live s;
  ka_malloc_fresh s n s' p : ka_malloc s n = (s', p) -> p <> 0 ->
    p ∉ ka_live s /\ ka_live s' = {[p]} ∪ ka_live s;
  ka_free_live s p : p ∈ ka_live s -> ka_live (ka_free s p) = ka_live s ∖ {[p]};
}.

(** A pool that hands out fresh addresses while its budget lasts; it satisfies
    the heap laws and serves as the concrete heap of the examples. *)
Record pool := Pool { pool_next : Z; pool_budget : nat; pool_live : gset Z }.

Definition pool_malloc (s : pool) (n : Z) : pool * Z :=
  match pool_budget s with
  | O => (s, 0)
  | S b =>
      let p := pool_next s in
      if bool_decide (p ∈ pool_live s) || (p =? 0) then (s, 0)
      else (Pool (p + n) b ({[p]} ∪ pool_live s), p)
  end.

Definition pool_free (s : pool) (p : Z) : pool :=
  Pool (pool_next s) (pool_budget s) (pool_live s ∖ {[p]}).

#[export] Instance pool_alloc : KAllocator pool := {
  ka_malloc := pool_malloc; ka_free := pool_free; ka_live := pool_live }.

#[export] Instance pool_alloc_laws : KAllocatorLaws pool.
Proof.
  constructor; simpl.
  - intros s n s'. unfold pool_malloc. destruct (pool_budget s); [by intros [= <-]|].
    simpl. case_if; [by intros [= <-]|]. bool_to_prop. intros [= _ Hp]. done.
  - intros s n s' p. unfold pool_malloc. destruct (pool_budget s); [by intros [= <- <-]|].
    simpl. case_if; [by intros [= <- <-]|]. intros [= <- <-] _.
    destruct (bool_decide_reflect (pool_next s ∈ pool_live s)); [done|]. done.
  - done.
Qed.

(** Frames handed out in increasing order: the concrete frame allocator of the
    examples. *)
Record frame_pool := FramePool { fp_next : Z; fp_held : gset Z }.

Definition fp_alloc (s : frame_pool) : frame_pool * Z :=
  if (fp_next s <? 256) || (1048576 <=? fp_next s) || bool_decide (4096 * fp_next s ∈ fp_held s)
  then (s, 0)
  else (FramePool (fp_next s + 1) ({[4096 * fp_next s]} ∪ fp_held s), 4096 * fp_next s).

Definition fp_free (s : frame_pool) (a : Z) : frame_pool :=
  FramePool (fp_next s) (fp_held s ∖ {[a]}).

#[export] Instance frame_pool_alloc : FrameAllocator frame_pool := {
  fa_alloc := fp_alloc; fa_free := fp_free;
  fa_inv s := forall a, a ∈ fp_held s -> 0 < a < 4294967296;
  fa_held s a := a ∈ fp_held s }.

#[export] Instance frame_pool_laws : FrameAllocatorLaws frame_pool.
Proof.
  constructor; simpl.
  - intros s Hs. unfold fp_alloc. case_if; [done|]. simpl. bool_to_prop.
    intros a [->%elem_of_singleton|Ha]%elem_of_union; [lia|by apply Hs].
  - intros s a Hs _ b [Hb _]%elem_of_difference. by apply Hs.
  - intros s s' a Hs. unfold fp_alloc. case_if; [by intros [= <- <-]|]. bool_to_prop.
    intros [= <- <-] _. simpl.
    match goal with Hb : bool_decide _ = false |- _ => apply bool_decide_eq_false in Hb end.
    split_and!; [zlia|lia|lia|done|]. intros b. rewrite elem_of_union, elem_of_singleton. done.
  - intros s s' Hs. unfold fp_alloc. case_if; [by intros [= <-]|]. bool_to_prop.
    intros [= _ E]. lia.
  - intros s a Hs Ha. by apply Hs.
  - intros s a Hs Ha b. unfold fp_free; simpl. rewrite elem_of_difference, elem_of_singleton. tauto.
Qed.
