(* ===== verification/KString.v ===== *)
(** Byte and string routines: [lib/string.c].

    Memory is a list of bytes and a pointer an index into it.  A [char*] is the
    list of the bytes from the pointer on; the byte after the list is the
    terminator, and [cstr] is the text up to the first NUL. *)
From S2P Require Import Prelude.
From Stdlib Require Import ZArith Lia.
From stdpp Require Import base numbers list.

Open Scope Z_scope.
Open Scope lyth_scope.

(** * Block operations *)

(** [rep movsb] upwards and, with the direction flag set, downwards. *)
Definition movsb_up (m : list Z) (d s n : Z) : list Z :=
  for_loop (fun i m => m.[d + i <- m.[s + i]]) (Z.to_nat n) 0 m.

Definition movsb_down (m : list Z) (d s n : Z) : list Z :=
  for_loop (fun i m => m.[d - i <- m.[s - i]]) (Z.to_nat n) 0 m.

Definition memcpy (m : list Z) (dest src n : Z) : list Z := movsb_up m dest src n.

Definition memmove (m : list Z) (dest src n : Z) : list Z :=
  if (dest <? src) || (src + n <=? dest) then movsb_up m dest src n
  else movsb_down m (dest + n - 1) (src + n - 1) n.

(** One [stosq]: the eight bytes of [v], low byte first. *)
Definition stosq (v p : Z) (m : list Z) : list Z :=
  for_loop (fun k m => m.[p + k <- u8 (Z.shiftr v (8 * k))]) 8 0 m.

Definition memset (m : list Z) (s c n : Z) : list Z :=
  let val8 := u8 c in
  let val8 := u64 (Z.lor val8 (Z.shiftl val8 8)) in
  let val8 := u64 (Z.lor val8 (Z.shiftl val8 16)) in
  let val8 := u64 (Z.lor val8 (Z.shiftl val8 32)) in
  let qwords := Z.shiftr n 3 in
  let tail := Z.land n 7 in
  let m := for_loop (fun i m => stosq val8 (s + 8 * i) m) (Z.to_nat qwords) 0 m in
  for_loop (fun i m => m.[s + 8 * qwords + i <- u8 val8]) (Z.to_nat tail) 0 m.

(** [memset32] on an array of 32-bit words. *)
Definition memset32 (m : list Z) (dest val count : Z) : list Z :=
  for_loop (fun i m => m.[dest + i <- u32 val]) (Z.to_nat count) 0 m.

Fixpoint memcmp_loop (fuel : nat) (a b : list Z) (i : Z) : Z :=
  match fuel with
  | O => 0
  | S f => if negb (a.[i] =? b.[i]) then a.[i] - b.[i] else memcmp_loop f a b (i + 1)
  end.
Definition memcmp (a b : list Z) (n : Z) : Z := memcmp_loop (Z.to_nat n) a b 0.

(** * Strings *)

(** [s[i]] *)
Definition rd (s : list Z) (i : Z) : Z := default 0 (s !! Z.to_nat i).

Fixpoint cstr (s : list Z) : list Z :=
  match s with
  | [] => []
  | c :: s' => if c =? 0 then [] else c :: cstr s'
  end.

(** Reading stops at the latest one byte after the list. *)
Definition str_fuel (s : list Z) : nat := S (length s).

Fixpoint strcmp_loop (fuel : nat) (a b : list Z) (i : Z) : Z :=
  match fuel with
  | O => 0
  | S f =>
      if negb (rd a i =? 0) && (rd a i =? rd b i) then strcmp_loop f a b (i + 1)
      else u8 (rd a i) - u8 (rd b i)
  end.
Definition strcmp (a b : list Z) : Z := strcmp_loop (str_fuel a) a b 0.
Definition str_compare (a b : list Z) : Z := strcmp a b.

Fixpoint strlen_loop (fuel : nat) (s : list Z) (len : Z) : Z :=
  match fuel with
  | O => len
  | S f => if rd s len =? 0 then len else strlen_loop f s (len + 1)
  end.
Definition strlen (s : list Z) : Z := strlen_loop (str_fuel s) s 0.
Definition str_length (s : list Z) : Z := u32 (strlen s).

Definition to_lower_ascii (c : Z) : Z :=
  if (65 <=? c) && (c <=? 90) then c + (97 - 65) else c.

Fixpoint str_equals_loop (f : Z -> Z) (fuel : nat) (a b : list Z) (i : Z) : bool :=
  match fuel with
  | O => false
  | S n =>
      if negb (rd a i =? 0) && negb (rd b i =? 0) then
        if negb (f (rd a i) =? f (rd b i)) then false else str_equals_loop f n a b (i + 1)
      else (rd a i =? 0) && (rd b i =? 0)
  end.
Definition str_equals (a b : list Z) : bool :=
  str_equals_loop (fun c => c) (str_fuel a) a b 0.
Definition str_equals_ignore_case (a b : list Z) : bool :=
  str_equals_loop to_lower_ascii (str_fuel a) a b 0.

Fixpoint str_starts_loop (f : Z -> Z) (fuel : nat) (str prefix : list Z) (i : Z) : bool :=
  match fuel with
  | O => false
  | S n =>
      if rd prefix i =? 0 then true
      else if negb (f (rd str i) =? f (rd prefix i)) then false
      else str_starts_loop f n str prefix (i + 1)
  end.
Definition str_starts_with (str prefix : list Z) : bool :=
  str_starts_loop (fun c => c) (str_fuel prefix) str prefix 0.
Definition str_starts_with_ignore_case (str prefix : list Z) : bool :=
  str_starts_loop to_lower_ascii (str_fuel prefix) str prefix 0.

Definition str_after_prefix (str prefix : list Z) : list Z :=
  drop (Z.to_nat (strlen prefix)) str.

(** [while (i < lim && src[i]) { dst[off + i] = src[i]; i++; }], the loop of
    [str_copy], [str_append] and the log's text copy; [lim] is fuel enough. *)
Fixpoint copy_str (fuel : nat) (dst : list Z) (off : Z) (src : list Z) (lim i : Z)
    : list Z * Z :=
  match fuel with
  | O => (dst, i)
  | S f =>
      if (i <? lim) && negb (rd src i =? 0)
      then copy_str f dst.[off + i <- rd src i] off src lim (i + 1)
      else (dst, i)
  end.

Definition str_copy (dst src : list Z) (dst_size : Z) : list Z :=
  if dst_size <=? 0 then dst
  else
    let '(dst, i) := copy_str (Z.to_nat dst_size) dst 0 src (dst_size - 1) 0 in
    dst.[i <- 0].

Fixpoint append_start (fuel : nat) (dst : list Z) (dst_size dlen : Z) : Z :=
  match fuel with
  | O => dlen
  | S f =>
      if (dlen <? dst_size) && negb (rd dst dlen =? 0)
      then append_start f dst dst_size (dlen + 1) else dlen
  end.

Definition str_append (dst src : list Z) (dst_size : Z) : list Z :=
  let dlen := append_start (Z.to_nat dst_size) dst dst_size 0 in
  let '(dst, i) := copy_str (Z.to_nat dst_size) dst dlen src (dst_size - 1 - dlen) 0 in
  if dlen + i <? dst_size then dst.[dlen + i <- 0] else dst.

(** The digit loop of [uint_to_str] on [tmp], low digit first; ten rounds
    exhaust 32 bits. *)
Fixpoint digits_loop (fuel : nat) (val : Z) : list Z :=
  match fuel with
  | O => []
  | S f => if val =? 0 then [] else 48 + val mod 10 :: digits_loop f (val / 10)
  end.

Definition uint_to_str (val : Z) (buf : list Z) (buf_size : Z) : list Z :=
  if buf_size <=? 0 then buf
  else
    let tmp := if val =? 0 then [48] else digits_loop 10 val in
    let len := Z.of_nat (length tmp) in
    let n := Z.min len (buf_size - 1) in
    let buf := for_loop (fun i buf => buf.[i <- tmp.[len - 1 - i]]) (Z.to_nat n) 0 buf in
    buf.[Z.max 0 n <- 0].

(** * Block operations: what they leave in memory *)

(** The memory a copy of [n] bytes from a snapshot should give. *)
Definition copied (m : list Z) (d s n : Z) (j : Z) : Z :=
  if decide (d <= j < d + n) then m.[s + (j - d)] else m.[j].

Lemma movsb_up_spec m d s n j :
  0 <= d -> 0 <= s -> 0 <= n -> d + n <= Z.of_nat (length m) -> 0 <= j ->
  d <= s \/ s + n <= d -> (movsb_up m d s n).[j] = copied m d s n j.
Proof.
  intros Hd Hs Hn Hl Hj Hov. unfold movsb_up.
  pose (I := fun (k : Z) (t : list Z) => length t = length m /\
    forall j, 0 <= j -> t.[j] = if decide (d <= j < d + k) then m.[s + (j - d)] else m.[j]).
  enough (I (0 + Z.of_nat (Z.to_nat n))
    (for_loop (fun i m => m.[d + i <- m.[s + i]]) (Z.to_nat n) 0 m)) as [_ HI].
  { rewrite (HI j Hj). unfold copied. repeat case_decide; done || lia. }
  apply (for_loop_ind I); unfold I.
  - split; [done|]. intros i Hi. by rewrite decide_False by lia.
  - intros k t Hk [Hlen Ht]. split; [by rewrite aset_length|]. intros i Hi.
    destruct (decide (i = d + k)) as [->|Hne].
    + rewrite aget_aset_eq by lia. rewrite decide_True by lia. rewrite Ht by lia.
      rewrite decide_False by lia. f_equal. lia.
    + rewrite aget_aset_ne by lia. rewrite Ht by done. repeat case_decide; done || lia.
Qed.

Lemma movsb_down_spec m d s n j :
  0 <= d -> 0 <= s -> 0 <= n -> d + n <= Z.of_nat (length m) -> 0 <= j -> s <= d ->
  (movsb_down m (d + n - 1) (s + n - 1) n).[j] = copied m d s n j.
Proof.
  intros Hd Hs Hn Hl Hj Hov. unfold movsb_down.
  pose (I := fun (k : Z) (t : list Z) => length t = length m /\
    forall j, 0 <= j -> t.[j] =
      if decide (d + n - k <= j < d + n) then m.[s + (j - d)] else m.[j]).
  enough (I (0 + Z.of_nat (Z.to_nat n))
    (for_loop (fun i m => m.[d + n - 1 - i <- m.[s + n - 1 - i]]) (Z.to_nat n) 0 m)) as [_ HI].
  { rewrite (HI j Hj). unfold copied. repeat case_decide; done || lia. }
  apply (for_loop_ind I); unfold I.
  - split; [done|]. intros i Hi. by rewrite decide_False by lia.
  - intros k t Hk [Hlen Ht]. split; [by rewrite aset_length|]. intros i Hi.
    destruct (decide (i = d + n - 1 - k)) as [->|Hne].
    + rewrite aget_aset_eq by lia. rewrite decide_True by lia. rewrite Ht by lia.
      rewrite decide_False by lia. f_equal. lia.
    + rewrite aget_aset_ne by lia. rewrite Ht by done. repeat case_decide; done || lia.
Qed.

(** [memmove] is correct for every overlap of source and destination: the
    destination ends up with the bytes the source had before the call and no
    other byte changes. *)
Theorem memmove_correct m dest src n j :
  0 <= dest -> 0 <= src -> 0 <= n -> dest + n <= Z.of_nat (length m) -> 0 <= j ->
  (memmove m dest src n).[j] = copied m dest src n j.
Proof.
  intros Hd Hs Hn Hl Hj. unfold memmove. case_if.
  - apply movsb_up_spec; try done. destruct Hif; bool_to_prop; lia.
  - apply movsb_down_spec; done || lia.
Qed.

Lemma memmove_correct_witness :
  (memmove [1; 2; 3; 4; 5] 1 0 4).[4] = 4 /\ memcpy [1; 2; 3; 4; 5] 1 0 4 = [1; 1; 1; 1; 1].
Proof.
  split; [|reflexivity].
  rewrite (memmove_correct [1; 2; 3; 4; 5] 1 0 4 4); [reflexivity|simpl; lia..].
Defined.

Lemma memmove_length m dest src n : length (memmove m dest src n) = length m.
Proof.
  unfold memmove. case_if; unfold movsb_up, movsb_down;
    apply (for_loop_ind (fun _ t => length t = length m)); try done;
    intros j u _ <-; apply aset_length.
Qed.

(** The doubling shifts of [memset] copy the byte into all eight positions. *)
Definition rep8 (c : Z) : Z := u8 c * 72340172838076673.

Lemma lor_shiftl_add a k : 0 <= a < 2 ^ k -> Z.lor a (Z.shiftl a k) = a * (2 ^ k + 1).
Proof.
  intros Ha. assert (0 <= k) by (destruct (Z_lt_le_dec k 0); [rewrite Z.pow_neg_r in Ha by lia|]; lia).
  destruct (decide (a = 0)) as [->|]; [by rewrite Z.shiftl_0_l|].
  assert (Z.land a (Z.shiftl a k) = 0) as Hd.
  { apply Z.bits_inj'. intros i Hi. rewrite Z.land_spec, Z.bits_0, Z.shiftl_spec by lia.
    destruct (Z_lt_le_dec i k).
    - rewrite (Z.testbit_neg_r a (i - k)) by lia. apply andb_false_r.
    - rewrite Z.bits_above_log2; [done|lia|].
      apply Z.log2_lt_pow2; [lia|]. eapply Z.lt_le_trans; [apply Ha|].
      apply Z.pow_le_mono_r; lia. }
  rewrite <- Z.lxor_lor, <- Z.add_nocarry_lxor by done. rewrite Z.shiftl_mul_pow2 by lia. lia.
Qed.

Lemma memset_val8 c :
  let v := u8 c in
  let v := u64 (Z.lor v (Z.shiftl v 8)) in
  let v := u64 (Z.lor v (Z.shiftl v 16)) in
  u64 (Z.lor v (Z.shiftl v 32)) = rep8 c.
Proof.
  cbv zeta. unfold rep8. pose proof (u8_bound c). set (b := u8 c) in *.
  rewrite (lor_shiftl_add b 8) by (change (2 ^ 8) with 256; lia).
  change (2 ^ 8 + 1) with 257. rewrite (u64_small (b * 257)) by lia.
  rewrite (lor_shiftl_add _ 16) by (change (2 ^ 16) with 65536; lia).
  change (2 ^ 16 + 1) with 65537. rewrite (u64_small (b * 257 * 65537)) by lia.
  rewrite (lor_shiftl_add _ 32) by (change (2 ^ 32) with 4294967296; lia).
  change (2 ^ 32 + 1) with 4294967297. rewrite u64_small by lia. lia.
Qed.

Lemma rep8_byte c k : 0 <= k < 8 -> u8 (Z.shiftr (rep8 c) (8 * k)) = u8 c.
Proof.
  intros Hk. unfold rep8. pose proof (u8_bound c). set (b := u8 c) in *.
  rewrite Z.shiftr_div_pow2 by lia. unfold u8.
  assert (k = 0 \/ k = 1 \/ k = 2 \/ k = 3 \/ k = 4 \/ k = 5 \/ k = 6 \/ k = 7) as Hc by lia.
  destruct Hc as [->|[->|[->|[->|[->|[->|[->| ->]]]]]]];
    match goal with |- context [2 ^ ?e] => let v := eval vm_compute in (2 ^ e) in
      change (2 ^ e) with v end; zlia.
Qed.

Lemma stosq_fill c p m j :
  0 <= p -> p + 8 <= Z.of_nat (length m) -> 0 <= j ->
  (stosq (rep8 c) p m).[j] = if decide (p <= j < p + 8) then u8 c else m.[j].
Proof.
  intros Hp Hl Hj. change (stosq (rep8 c) p m) with
    (blit (fun k => u8 (Z.shiftr (rep8 c) (8 * k))) p 8 m).
  rewrite blit_get by lia. case_decide; [|done]. apply rep8_byte. lia.
Qed.

Lemma stosq_length v p m : length (stosq v p m) = length m.
Proof. apply (blit_length (fun k => u8 (Z.shiftr v (8 * k))) p 8). Qed.

(** [memset], which stores eight bytes at a time and then the remainder,
    sets exactly the [n] bytes from [s] to the low byte of [c]. *)
Theorem memset_correct m s c n j :
  0 <= s -> 0 <= n -> s + n <= Z.of_nat (length m) -> 0 <= j ->
  (memset m s c n).[j] = if decide (s <= j < s + n) then u8 c else m.[j].
Proof.
  intros Hs Hn Hl Hj. unfold memset. pose proof (memset_val8 c) as Hv. cbv zeta in *.
  rewrite Hv. clear Hv. change 7 with (Z.ones 3).
  rewrite Z.land_ones, Z.shiftr_div_pow2 by lia. change (2 ^ 3) with 8.
  set (q := n / 8). assert (0 <= q /\ n = 8 * q + n mod 8 /\ 0 <= n mod 8 < 8) as (Hq & Hnq & Hr)
    by (unfold q; zlia).
  pose (I := fun (k : Z) (t : list Z) => length t = length m /\
    forall j, 0 <= j -> t.[j] = if decide (s <= j < s + 8 * k) then u8 c else m.[j]).
  assert (I (0 + Z.of_nat (Z.to_nat q))
    (for_loop (fun i m => stosq (rep8 c) (s + 8 * i) m) (Z.to_nat q) 0 m)) as [Hlen HI].
  { apply (for_loop_ind I); unfold I.
    - split; [done|]. intros i Hi. by rewrite decide_False by lia.
    - intros k t Hk [Hlt Ht]. split; [by rewrite stosq_length|]. intros i Hi.
      rewrite stosq_fill, Ht by lia. repeat case_decide; done || lia. }
  set (t := for_loop _ (Z.to_nat q) 0 m) in *.
  change (for_loop _ (Z.to_nat (n mod 8)) 0 t) with
    (blit (fun _ => u8 (rep8 c)) (s + 8 * q) (n mod 8) t).
  rewrite blit_get by lia.
  assert (u8 (rep8 c) = u8 c) as -> by (rewrite <- (rep8_byte c 0) by lia; f_equal).
  rewrite HI by done. repeat case_decide; done || lia.
Qed.

Lemma memset_correct_witness : (memset (repeat 7 20) 3 258 13).[15] = 2.
Proof.
  rewrite (memset_correct (repeat 7 20) 3 258 13 15); [reflexivity|simpl; lia..].
Defined.

(** * Strings: relation to the text [cstr] *)

Lemma cstr_nonzero s : Forall (fun c => c <> 0) (cstr s).
Proof. induction s as [|c s IH]; simpl; [done|]. case_if; by constructor. Qed.

Lemma cstr_length s : (length (cstr s) <= length s)%nat.
Proof. induction s as [|c s IH]; simpl; [lia|]. case_if; simpl; lia. Qed.

Lemma cstr_drop_step s i :
  0 <= i ->
  cstr (drop (Z.to_nat i) s)
  = if rd s i =? 0 then [] else rd s i :: cstr (drop (Z.to_nat (i + 1)) s).
Proof.
  intros Hi. unfold rd. replace (Z.to_nat (i + 1)) with (S (Z.to_nat i)) by lia.
  destruct (s !! Z.to_nat i) as [c|] eqn:E; simpl.
  - by rewrite (drop_S _ c).
  - apply lookup_ge_None_1 in E. by rewrite drop_ge by lia.
Qed.

Lemma rd_outside s i : Z.of_nat (length s) <= i -> rd s i = 0.
Proof. intros. unfold rd. by rewrite lookup_ge_None_2 by lia. Qed.

(** Up to the terminator [rd] reads the text. *)
Lemma rd_cstr s i :
  0 <= i < Z.of_nat (length (cstr s)) -> cstr s !! Z.to_nat i = Some (rd s i).
Proof.
  unfold rd. intros Hi. replace i with (Z.of_nat (Z.to_nat i)) in Hi by lia.
  revert Hi. generalize (Z.to_nat i). clear i. intros n. revert n.
  induction s as [|c s IH]; intros n; simpl; [lia|]. case_if; simpl; [lia|].
  destruct n as [|n]; [done|]. simpl. intros. apply IH. lia.
Qed.

Lemma rd_cstr_end s : rd s (Z.of_nat (length (cstr s))) = 0.
Proof.
  unfold rd. rewrite Nat2Z.id. induction s as [|c s IH]; simpl; [done|]. by case_if.
Qed.

Lemma rd_zero_iff s i :
  0 <= i <= Z.of_nat (length (cstr s)) -> rd s i = 0 <-> i = Z.of_nat (length (cstr s)).
Proof.
  intros Hi. split; [|intros ->; apply rd_cstr_end].
  intros Hz. destruct (decide (i = Z.of_nat (length (cstr s)))) as [|Hne]; [done|].
  assert (cstr s !! Z.to_nat i = Some (rd s i)) as E by (apply rd_cstr; lia).
  rewrite Hz in E. by eapply Forall_lookup_1 in E; [|apply cstr_nonzero].
Qed.

(** The text of a buffer is determined by the bytes up to its terminator. *)
Lemma cstr_intro s t :
  Forall (fun c => c <> 0) t ->
  (forall i, 0 <= i < Z.of_nat (length t) -> t !! Z.to_nat i = Some (rd s i)) ->
  rd s (Z.of_nat (length t)) = 0 -> cstr s = t.
Proof.
  revert s. induction t as [|c t IH]; intros s Hnz Hget Hend.
  - destruct s as [|c s]; [done|]. unfold rd in Hend. simpl in *. by rewrite Hend.
  - apply Forall_cons in Hnz as [Hc Hnz].
    pose proof (Hget 0 ltac:(simpl; lia)) as H0. unfold rd in H0. simpl in H0.
    destruct s as [|c' s]; simpl in H0; simplify_eq.
    simpl. rewrite (proj2 (Z.eqb_neq _ 0)) by done. f_equal. apply IH; [done| |].
    + intros i Hi. pose proof (Hget (i + 1) ltac:(simpl; lia)) as Hi1. unfold rd in *.
      replace (Z.to_nat (i + 1)) with (S (Z.to_nat i)) in Hi1 by lia. exact Hi1.
    + unfold rd in *. rewrite Nat2Z.id in *. exact Hend.
Qed.

Lemma cstr_id s : Forall (fun c => c <> 0) s -> cstr s = s.
Proof.
  induction 1 as [|c s Hc _ IH]; simpl; [done|].
  rewrite (proj2 (Z.eqb_neq c 0)) by done. by rewrite IH.
Qed.

Lemma rd_aget s i : 0 <= i < Z.of_nat (length s) -> rd s i = s.[i].
Proof. intros. unfold rd. by rewrite aget_lookup. Qed.

Lemma strlen_spec s : strlen s = Z.of_nat (length (cstr s)).
Proof.
  unfold strlen, str_fuel.
  enough (forall f i, (length s < f + Z.to_nat i)%nat -> 0 <= i <= Z.of_nat (length (cstr s)) ->
    strlen_loop f s i = Z.of_nat (length (cstr s))) as Hg by (apply Hg; lia).
  induction f as [|f IH]; intros i Hf Hi.
  - pose proof (cstr_length s). lia.
  - simpl. case_if; [apply rd_zero_iff; done|]. apply IH; [lia|].
    assert (i <> Z.of_nat (length (cstr s))); [|lia].
    intros ->. by rewrite rd_cstr_end in *.
Qed.

Lemma rd_inside s i : rd s i <> 0 -> (Z.to_nat i < length s)%nat.
Proof.
  unfold rd. intros Hr. destruct (s !! Z.to_nat i) eqn:E; [|done]. by apply lookup_lt_Some in E.
Qed.

Lemma str_equals_loop_spec f n a b i :
  0 <= i -> (Z.to_nat i <= length a < n + Z.to_nat i)%nat ->
  str_equals_loop f n a b i = true <->
  f <$> cstr (drop (Z.to_nat i) a) = f <$> cstr (drop (Z.to_nat i) b).
Proof.
  revert i. induction n as [|n IH]; intros i Hi Hn; simpl; [lia|].
  rewrite !(cstr_drop_step _ i) by done.
  destruct (rd a i =? 0) eqn:Ea, (rd b i =? 0) eqn:Eb; simpl; try done.
  bool_to_prop. apply rd_inside in Ea. case_if; simpl.
  - split; [done|]. intros [= E _]. congruence.
  - rewrite IH by lia. split; [intros E; f_equal; [done|exact E]|]. by intros [= _ ?].
Qed.

Lemma str_starts_loop_spec f n str prefix i :
  (forall c, f c = f 0 -> c = 0) ->
  0 <= i -> (Z.to_nat i <= length prefix < n + Z.to_nat i)%nat ->
  str_starts_loop f n str prefix i = true <->
  f <$> cstr (drop (Z.to_nat i) prefix) `prefix_of` f <$> cstr (drop (Z.to_nat i) str).
Proof.
  intros Hf0. revert i. induction n as [|n IH]; intros i Hi Hn; simpl; [lia|].
  rewrite !(cstr_drop_step _ i) by done.
  destruct (rd prefix i =? 0) eqn:Ep; simpl; bool_to_prop.
  { split; [intros _; apply prefix_nil|done]. }
  pose proof (rd_inside _ _ Ep). destruct (rd str i =? 0) eqn:Es; bool_to_prop; simpl.
  - rewrite Es, (proj2 (Z.eqb_neq _ _)) by (intros E; symmetry in E; by apply Hf0 in E).
    simpl. split; [done|]. by intros ?%prefix_nil_not.
  - case_if; simpl.
    + split; [done|]. intros ?%prefix_cons_inv_1. congruence.
    + rewrite IH by lia. split.
      * intros. rewrite Hif. by apply prefix_cons.
      * by intros ?%prefix_cons_inv_2.
Qed.

Lemma to_lower_zero c : to_lower_ascii c = to_lower_ascii 0 -> c = 0.
Proof. unfold to_lower_ascii. simpl. case_if; lia. Qed.

(** The comparison routines decide what their names say, on texts up to the
    terminator: [str_equals] equality, [str_equals_ignore_case] equality after
    lowering ASCII letters, and [str_starts_with] and its case-insensitive
    variant the prefix relation. *)
Theorem str_predicates_correct a b :
  (str_equals a b = true <-> cstr a = cstr b) /\
  (str_equals_ignore_case a b = true <-> to_lower_ascii <$> cstr a = to_lower_ascii <$> cstr b) /\
  (str_starts_with a b = true <-> cstr b `prefix_of` cstr a) /\
  (str_starts_with_ignore_case a b = true <->
   to_lower_ascii <$> cstr b `prefix_of` to_lower_ascii <$> cstr a).
Proof.
  assert (forall s, (fun c : Z => c) <$> cstr s = cstr s) as E by (intros; apply list_fmap_id).
  unfold str_equals, str_equals_ignore_case, str_starts_with, str_starts_with_ignore_case, str_fuel.
  split_and!.
  - rewrite str_equals_loop_spec by (simpl; lia). by rewrite !E.
  - rewrite str_equals_loop_spec by (simpl; lia). done.
  - rewrite str_starts_loop_spec by (done || simpl; lia). by rewrite !E.
  - rewrite str_starts_loop_spec by (apply to_lower_zero || simpl; lia). done.
Qed.

Lemma strcmp_zero a b :
  Forall (fun c => 0 <= c < 256) a -> Forall (fun c => 0 <= c < 256) b ->
  strcmp a b = 0 <-> cstr a = cstr b.
Proof.
  intros Ha Hb. unfold strcmp, str_fuel.
  assert (forall s i, Forall (fun c => 0 <= c < 256) s -> u8 (rd s i) = rd s i) as Hu.
  { intros s i Hs. apply u8_small. unfold rd. destruct (s !! Z.to_nat i) eqn:E; simpl; [|lia].
    exact (Forall_lookup_1 _ _ _ _ Hs E). }
  enough (forall f i, 0 <= i -> (Z.to_nat i <= length a < f + Z.to_nat i)%nat ->
    strcmp_loop f a b i = 0 <-> cstr (drop (Z.to_nat i) a) = cstr (drop (Z.to_nat i) b)) as Hg
    by (apply (Hg _ 0); simpl; lia).
  induction f as [|f IH]; intros i Hi Hn; simpl; [lia|].
  rewrite !(cstr_drop_step _ i), !Hu by done.
  destruct (rd a i =? 0) eqn:Ea, (rd b i =? 0) eqn:Eb; simpl; bool_to_prop.
  - split; [done|lia].
  - split; [lia|done].
  - rewrite (proj2 (Z.eqb_neq _ _)) by lia. split; [lia|done].
  - pose proof (rd_inside _ _ Ea). case_if.
    + rewrite IH by lia. rewrite Hif. split; [congruence|]. by intros [= ].
    + split; [lia|]. intros [= ]. lia.
Qed.

(** * Bounded copies *)

Lemma copy_str_loop f dst off src lim i :
  0 <= i <= Z.min lim (Z.of_nat (length (cstr src))) -> lim <= Z.of_nat f + i ->
  copy_str f dst off src lim i
  = (for_loop (fun j t => t.[off + j <- rd src j])
       (Z.to_nat (Z.min lim (Z.of_nat (length (cstr src))) - i)) i dst,
     Z.min lim (Z.of_nat (length (cstr src)))).
Proof.
  set (k := Z.min lim _). revert dst i. induction f as [|f IH]; intros dst i Hi Hf; simpl.
  - replace (k - i) with 0 by (unfold k in *; lia). simpl. f_equal. unfold k in *; lia.
  - destruct (decide (i = k)) as [->|Hne].
    + rewrite Z.sub_diag. simpl.
      replace (((k <? lim) && negb (rd src k =? 0))%bool) with false; [done|].
      symmetry. apply andb_false_iff. destruct (decide (k < lim)).
      * right. replace k with (Z.of_nat (length (cstr src))) by (unfold k in *; lia).
        by rewrite rd_cstr_end.
      * left. apply Z.ltb_ge. lia.
    + rewrite (proj2 (Z.ltb_lt i lim)) by (unfold k in *; lia).
      rewrite (proj2 (Z.eqb_neq (rd src i) 0))
        by (rewrite rd_zero_iff; unfold k in *; lia).
      simpl. rewrite IH by lia.
      by replace (Z.to_nat (k - i)) with (S (Z.to_nat (k - (i + 1)))) by lia.
Qed.

(** The copy loop is a [blit] of the text that fits. *)
Lemma copy_str_blit f dst off src lim :
  0 <= lim <= Z.of_nat f ->
  copy_str f dst off src lim 0
  = (blit (rd src) off (Z.min lim (Z.of_nat (length (cstr src)))) dst,
     Z.min lim (Z.of_nat (length (cstr src)))).
Proof. intros. rewrite copy_str_loop by lia. by rewrite Z.sub_0_r. Qed.

(** Writing a text and its terminator after a text makes their concatenation. *)
Lemma cstr_write pre src k dst :
  Forall (fun c => c <> 0) pre ->
  (forall i, 0 <= i < Z.of_nat (length pre) -> pre !! Z.to_nat i = Some (rd dst i)) ->
  0 <= k <= Z.of_nat (length (cstr src)) ->
  Z.of_nat (length pre) + k < Z.of_nat (length dst) ->
  cstr (blit (rd src) (Z.of_nat (length pre)) k dst).[Z.of_nat (length pre) + k <- 0]
  = pre ++ take (Z.to_nat k) (cstr src).
Proof.
  intros Hnz Hpre Hk Hl. set (off := Z.of_nat (length pre)) in *.
  assert (length (take (Z.to_nat k) (cstr src)) = Z.to_nat k) as Htk
    by (rewrite length_take; lia).
  assert (forall j, 0 <= j < Z.of_nat (length dst) ->
    rd (blit (rd src) off k dst).[off + k <- 0] j
    = if decide (j = off + k) then 0
      else if decide (off <= j < off + k) then rd src (j - off) else rd dst j) as Hrd.
  { intros j Hj. rewrite rd_aget by (rewrite aset_length, blit_length; lia).
    destruct (decide (j = off + k)) as [->|].
    - apply aget_aset_eq. rewrite blit_length. lia.
    - rewrite aget_aset_ne by lia. rewrite blit_get by lia. case_decide; [done|].
      symmetry. apply rd_aget. lia. }
  apply cstr_intro.
  - apply Forall_app. split; [done|]. apply Forall_take, cstr_nonzero.
  - intros i Hi. rewrite length_app, Htk in Hi. rewrite Hrd by lia.
    rewrite decide_False by lia. case_decide.
    + rewrite lookup_app_r by lia. rewrite lookup_take_lt by lia.
      replace (Z.to_nat i - length pre)%nat with (Z.to_nat (i - off)) by lia.
      apply rd_cstr. lia.
    + rewrite lookup_app_l by lia. apply Hpre. lia.
  - rewrite length_app, Htk. rewrite Hrd by lia. by rewrite decide_True by lia.
Qed.

Lemma cstr_write0 src k dst :
  0 <= k <= Z.of_nat (length (cstr src)) -> k < Z.of_nat (length dst) ->
  cstr (blit (rd src) 0 k dst).[k <- 0] = take (Z.to_nat k) (cstr src).
Proof.
  intros. apply (cstr_write [] src k dst); [done| |done|simpl; lia].
  intros i Hi. simpl in Hi. lia.
Qed.

(** [str_copy] leaves in a buffer of [dst_size] bytes the longest prefix of
    the source text that fits with its terminator, and writes nothing past
    [dst_size]. *)
Theorem str_copy_correct dst src n :
  0 < n <= Z.of_nat (length dst) ->
  cstr (str_copy dst src n) = take (Z.to_nat (n - 1)) (cstr src) /\
  length (str_copy dst src n) = length dst /\
  (forall j, n <= j -> (str_copy dst src n).[j] = dst.[j]).
Proof.
  intros Hn. unfold str_copy. rewrite (proj2 (Z.leb_gt _ _)) by lia.
  rewrite copy_str_blit by lia.
  set (k := Z.min (n - 1) (Z.of_nat (length (cstr src)))). split_and!.
  - rewrite cstr_write0 by lia. unfold k. destruct (decide (n - 1 <= Z.of_nat (length (cstr src)))).
    + by rewrite Z.min_l by lia.
    + rewrite Z.min_r by lia. rewrite !take_ge by lia. done.
  - by rewrite aset_length, blit_length.
  - intros j Hj. rewrite aget_aset_ne by lia. rewrite blit_get by lia.
    by rewrite decide_False by lia.
Qed.

Lemma str_copy_correct_witness :
  cstr (str_copy (repeat 9 4) [104; 101; 108; 108; 111] 4) = [104; 101; 108].
Proof.
  rewrite (proj1 (str_copy_correct (repeat 9 4) [104; 101; 108; 108; 111] 4 ltac:(simpl; lia))).
  reflexivity.
Defined.

Lemma append_start_spec f dst n i :
  0 <= i <= Z.min n (Z.of_nat (length (cstr dst))) -> n <= Z.of_nat f + i ->
  append_start f dst n i = Z.min n (Z.of_nat (length (cstr dst))).
Proof.
  revert i. induction f as [|f IH]; intros i Hi Hf; simpl; [lia|].
  destruct (decide (i = Z.min n (Z.of_nat (length (cstr dst))))) as [E|Hne].
  - case_if; [|lia]. bool_to_prop. rewrite rd_zero_iff in * by lia. lia.
  - rewrite (proj2 (Z.ltb_lt i n)) by lia.
    rewrite (proj2 (Z.eqb_neq (rd dst i) 0)) by (rewrite rd_zero_iff; lia).
    simpl. apply IH; lia.
Qed.

(** [str_append] on a buffer that holds a terminated text. *)
Lemma str_append_correct dst src n :
  n <= Z.of_nat (length dst) -> Z.of_nat (length (cstr dst)) < n ->
  cstr (str_append dst src n)
  = cstr dst ++ take (Z.to_nat (n - 1 - Z.of_nat (length (cstr dst)))) (cstr src).
Proof.
  intros Hn Hd. unfold str_append. rewrite append_start_spec by lia.
  rewrite Z.min_r by lia. set (d := Z.of_nat (length (cstr dst))) in *.
  rewrite copy_str_blit by lia.
  set (k := Z.min (n - 1 - d) (Z.of_nat (length (cstr src)))).
  rewrite (proj2 (Z.ltb_lt _ _)) by lia.
  pose proof (cstr_write (cstr dst) src k dst) as W. fold d in W. rewrite W.
  - f_equal. unfold k. destruct (decide (n - 1 - d <= Z.of_nat (length (cstr src)))).
    + by rewrite Z.min_l by lia.
    + rewrite Z.min_r by lia. rewrite !take_ge by lia. done.
  - apply cstr_nonzero.
  - intros i Hi. by apply rd_cstr.
  - lia.
  - lia.
Qed.

(** * Decimal printing *)

(** Value of a digit string, high digit first. *)
Definition dec_value (ds : list Z) : Z := foldl (fun v c => v * 10 + (c - 48)) 0 ds.

Definition is_digit (c : Z) : Prop := 48 <= c <= 57.

Lemma dec_value_snoc ds c : dec_value (ds ++ [c]) = dec_value ds * 10 + (c - 48).
Proof. unfold dec_value. by rewrite foldl_app. Qed.

Lemma digits_loop_spec f v :
  0 <= v < 10 ^ Z.of_nat f ->
  dec_value (reverse (digits_loop f v)) = v /\ Forall is_digit (digits_loop f v).
Proof.
  revert v. induction f as [|f IH]; intros v Hv; simpl.
  - change (10 ^ Z.of_nat 0) with 1 in Hv. split; [unfold dec_value; simpl; lia|done].
  - rewrite Nat2Z.inj_succ, Z.pow_succ_r in Hv by lia. case_if; [by subst|].
    destruct (IH (v / 10)) as [IHv IHd]; [zlia|].
    rewrite reverse_cons, dec_value_snoc, IHv. split; [zlia|].
    constructor; [unfold is_digit; zlia|done].
Qed.

Lemma digits_loop_length f v : (length (digits_loop f v) <= f)%nat.
Proof. revert v. induction f as [|f IH]; intros v; simpl; [lia|]. case_if; simpl; [lia|]. specialize (IH (v / 10)). lia. Qed.

Definition decimal (val : Z) : list Z :=
  reverse (if val =? 0 then [48] else digits_loop 10 val).

Lemma decimal_length val : 1 <= Z.of_nat (length (decimal val)) <= 10.
Proof.
  unfold decimal. rewrite length_reverse. case_if; [simpl; lia|].
  pose proof (digits_loop_length 10 val) as Hl.
  assert (length (digits_loop 10 val) <> 0%nat); [|lia].
  cbn [digits_loop]. rewrite (proj2 (Z.eqb_neq val 0)) by done. done.
Qed.

Lemma decimal_spec val :
  0 <= val < 4294967296 -> dec_value (decimal val) = val /\ Forall is_digit (decimal val).
Proof.
  intros Hv. unfold decimal. case_if.
  - subst. split; [reflexivity|]. constructor; [unfold is_digit; lia|constructor].
  - destruct (digits_loop_spec 10 val) as [Hval Hd].
    + change (10 ^ Z.of_nat 10) with 10000000000. lia.
    + split; [done|]. by apply Forall_reverse.
Qed.

Lemma uint_to_str_cut val buf n :
  0 <= val < 4294967296 -> 0 < n <= Z.of_nat (length buf) ->
  cstr (uint_to_str val buf n) = take (Z.to_nat (n - 1)) (decimal val).
Proof.
  intros Hv Hn. pose proof (decimal_length val) as Hlen.
  destruct (decimal_spec val Hv) as [Hval Hdig].
  unfold uint_to_str. rewrite (proj2 (Z.leb_gt n 0)) by lia.
  set (tmp := if val =? 0 then [48] else digits_loop 10 val).
  assert (decimal val = reverse tmp) as Ed by done.
  assert (length (decimal val) = length tmp) as El by (rewrite Ed; apply length_reverse).
  set (k := Z.min (Z.of_nat (length tmp)) (n - 1)).
  rewrite Z.max_r by lia.
  set (src := decimal val).
  assert (cstr src = src) as Hsrc.
  { apply cstr_id. eapply Forall_impl; [apply Hdig|]. unfold is_digit. simpl. lia. }
  replace (for_loop _ (Z.to_nat k) 0 buf) with (blit (rd src) 0 k buf).
  - rewrite cstr_write0 by (rewrite ?Hsrc; unfold src; lia).
    rewrite Hsrc. unfold k. destruct (decide (n - 1 <= Z.of_nat (length tmp))).
    + by rewrite Z.min_r by lia.
    + rewrite Z.min_l by lia. unfold src. rewrite !take_ge by lia. done.
  - unfold blit. apply for_loop_ext_range. intros i t Hi. simpl. f_equal.
    rewrite rd_aget by (unfold src; lia). unfold src. rewrite Ed. unfold aget.
    rewrite !list_lookup_total_alt, reverse_lookup by lia. do 3 f_equal. lia.
Qed.

Lemma uint_to_str_text val buf n :
  0 <= val < 4294967296 -> 11 <= n <= Z.of_nat (length buf) ->
  cstr (uint_to_str val buf n) = decimal val /\
  dec_value (decimal val) = val /\ Forall is_digit (decimal val).
Proof.
  intros Hv Hn. rewrite uint_to_str_cut by lia. split; [|by apply decimal_spec].
  pose proof (decimal_length val). apply take_ge. lia.
Qed.

(** [uint_to_str] prints every 32-bit value as its decimal digits, high
    digit first and terminated, in any buffer of at least 11 bytes; a shorter
    buffer gets the leading digits that fit and its terminator. *)
Theorem uint_to_str_correct val buf n :
  0 <= val < 4294967296 -> 0 < n <= Z.of_nat (length buf) ->
  cstr (uint_to_str val buf n) = take (Z.to_nat (n - 1)) (decimal val) /\
  dec_value (decimal val) = val /\ Forall is_digit (decimal val) /\
  (11 <= n -> cstr (uint_to_str val buf n) = decimal val).
Proof.
  intros Hv Hn. destruct (decimal_spec val Hv) as [Hval Hdig].
  split_and!; [by apply uint_to_str_cut|done|done|]. intros. apply uint_to_str_text; lia.
Qed.

Lemma uint_to_str_correct_witness : cstr (uint_to_str 4096 (repeat 0 12) 12) = [52; 48; 57; 54].
Proof.
  rewrite (proj2 (proj2 (proj2 (uint_to_str_correct 4096 (repeat 0 12) 12 ltac:(lia)
    ltac:(simpl; lia)))) ltac:(lia)). reflexivity.
Defined.
