(* ===== verification/Utf8.v ===== *)
(** Text encodings ([lib/utf8.c]): the UTF-8 decoder and the table that maps code
    points to the glyphs of code page 437.

    A text is the list of its bytes; its terminator is the 0 that [rd] reads past
    the end. *)
From S2P Require Import Prelude.
From S2P Require Import KString.
From Stdlib Require Import ZArith Lia.
From stdpp Require Import base numbers list.

Open Scope Z_scope.
Open Scope lyth_scope.

(** The replacement character of a malformed sequence. *)
Definition INVALID : Z := 65533.

Definition continuation (b : Z) : bool := Z.land b 192 =? 128.

(** The result and the code point. *)
Definition utf8_decode_one (s : list Z) : Z * Z :=
  let b0 := rd s 0 in
  let b1 := rd s 1 in
  let b2 := rd s 2 in
  let b3 := rd s 3 in
  if b0 =? 0 then (0, 0)
  else if b0 <? 128 then (1, b0)
  else if b0 <? 192 then (-1, INVALID)
  else if b0 <? 224 then
    if negb (continuation b1) then (-1, INVALID)
    else
      let cp := Z.lor (Z.shiftl (Z.land b0 31) 6) (Z.land b1 63) in
      if cp <? 128 then (-1, INVALID) else (2, cp)
  else if b0 <? 240 then
    if negb (continuation b1) || negb (continuation b2) then (-1, INVALID)
    else
      let cp := Z.lor (Z.lor (Z.shiftl (Z.land b0 15) 12) (Z.shiftl (Z.land b1 63) 6)) (Z.land b2 63) in
      if cp <? 2048 then (-1, INVALID) else (3, cp)
  else if b0 <? 248 then
    if negb (continuation b1) || negb (continuation b2) || negb (continuation b3) then (-1, INVALID)
    else
      let cp := Z.lor (Z.lor (Z.lor (Z.shiftl (Z.land b0 7) 18) (Z.shiftl (Z.land b1 63) 12))
                        (Z.shiftl (Z.land b2 63) 6)) (Z.land b3 63) in
      if cp <? 65536 then (-1, INVALID) else (4, cp)
  else (-1, INVALID).

(** * Code page 437 *)

(** Code point and glyph, in the order of the source. *)
Definition cp437_table : list (Z * Z) :=
  [
   (160, 255); (161, 173); (162, 155); (163, 156); (165, 157); (167, 21); (170, 166); (171, 174);
   (172, 170); (176, 248); (177, 241); (178, 253); (181, 230); (182, 20); (183, 250); (186, 167);
   (187, 175); (188, 172); (189, 171); (191, 168); (196, 142); (197, 143); (198, 146); (199, 128);
   (201, 144); (209, 165); (214, 153); (220, 154); (223, 225); (224, 133); (225, 160); (226, 131);
   (228, 132); (229, 134); (230, 145); (231, 135); (232, 138); (233, 130); (234, 136); (235, 137);
   (236, 141); (237, 161); (238, 140); (239, 139); (241, 164); (242, 149); (243, 162); (244, 147);
   (246, 148); (247, 246); (249, 151); (250, 163); (251, 150); (252, 129); (255, 152); (402, 159);
   (915, 226); (920, 233); (931, 228); (934, 232); (937, 234); (945, 224); (948, 235); (949, 238);
   (951, 231); (960, 227); (963, 229); (964, 231); (966, 237); (8319, 252); (8359, 158); (8217, 39);
   (8220, 34); (8221, 34); (8226, 7); (8252, 19); (8592, 27); (8593, 24); (8594, 26); (8595, 25);
   (8596, 29); (8597, 18); (8616, 23); (8678, 27); (8679, 24); (8680, 26); (8681, 25); (8658, 26);
   (8729, 249); (8730, 251); (8734, 236); (8735, 28); (8745, 239); (8776, 247); (8801, 240); (8804, 243);
   (8805, 242); (8976, 169); (8992, 244); (8993, 245); (9472, 196); (9474, 179); (9484, 218); (9488, 191);
   (9492, 192); (9496, 217); (9500, 195); (9508, 180); (9516, 194); (9524, 193); (9532, 197); (9552, 205);
   (9553, 186); (9554, 213); (9555, 214); (9556, 201); (9557, 184); (9558, 183); (9559, 187); (9560, 212);
   (9561, 211); (9562, 200); (9563, 190); (9564, 189); (9565, 188); (9566, 198); (9567, 199); (9568, 204);
   (9569, 181); (9570, 182); (9571, 185); (9572, 209); (9573, 210); (9574, 203); (9575, 207); (9576, 208);
   (9577, 202); (9578, 216); (9579, 215); (9580, 206); (9600, 223); (9604, 220); (9608, 219); (9612, 221);
   (9616, 222); (9617, 176); (9618, 177); (9619, 178); (9632, 254); (9644, 22); (9650, 30); (9658, 16);
   (9660, 31); (9668, 17); (9675, 9); (9688, 8); (9689, 10); (9733, 4); (9792, 12); (9794, 11);
   (9824, 6); (9827, 5); (9829, 3); (9830, 4); (9834, 13); (9835, 14); (9786, 1); (9787, 2);
   (9788, 15)].

Definition CP437_TABLE_SIZE : Z := Z.of_nat (length cp437_table).

(** The loop of the search; [None] when the fuel does not suffice. *)
Fixpoint cp437_search (fuel : nat) (cp lo hi : Z) : option Z :=
  match fuel with
  | O => None
  | S fuel' =>
      if hi <? lo then Some 63
      else
        let mid := (lo + hi) / 2 in
        let '(c, g) := cp437_table.[mid] in
        if c =? cp then Some g
        else if cp <? c then cp437_search fuel' cp lo (mid - 1) else cp437_search fuel' cp (mid + 1) hi
  end.

Definition unicode_to_cp437 (cp : Z) : option Z :=
  if cp <? 128 then Some cp else cp437_search 9 cp 0 (CP437_TABLE_SIZE - 1).

(** * The decoder *)

(** The encoding of a code point: the shortest of the four forms. *)
Definition utf8_encode (cp : Z) : list Z :=
  if cp <? 128 then [cp]
  else if cp <? 2048 then [192 + cp / 64; 128 + cp mod 64]
  else if cp <? 65536 then [224 + cp / 4096; 128 + cp / 64 mod 64; 128 + cp mod 64]
  else [240 + cp / 262144; 128 + cp / 4096 mod 64; 128 + cp / 64 mod 64; 128 + cp mod 64].

Definition octet (b : Z) : Prop := 0 <= b < 256.

Lemma octet_all (P : Z -> bool) : forallb P (seqZ 0 256) = true -> forall b, octet b -> P b = true.
Proof. rewrite forallb_forall. intros Hall b Hb. apply Hall, list_elem_of_In, elem_of_seqZ. unfold octet in Hb. lia. Qed.

Lemma continuation_spec b : octet b -> continuation b = (128 <=? b) && (b <? 192).
Proof.
  intros Hb. apply eqb_prop. revert b Hb. apply (octet_all (fun b => Bool.eqb (continuation b) ((128 <=? b) && (b <? 192)))).
  by vm_compute.
Qed.

Lemma rd_octet s i : Forall octet s -> octet (rd s i).
Proof.
  intros Hs. unfold rd. destruct (s !! Z.to_nat i) as [b|] eqn:E; [|split; cbn; lia].
  rewrite Forall_lookup in Hs. by apply (Hs (Z.to_nat i)).
Qed.

Lemma land_mod b k : 0 <= k -> Z.land b (2 ^ k - 1) = b mod 2 ^ k.
Proof. intros Hk. rewrite <- Z.land_ones by done. by rewrite Z.ones_equiv, Z.sub_1_r. Qed.

Lemma land63 b : Z.land b 63 = b mod 64.
Proof. exact (land_mod b 6 ltac:(lia)). Qed.

Lemma shift_or a b k : 0 <= b < 2 ^ k -> Z.lor (Z.shiftl a k) b = a * 2 ^ k + b.
Proof.
  intros Hb. assert (0 <= k) by (destruct (decide (0 <= k)); [done|]; rewrite Z.pow_neg_r in Hb; lia).
  rewrite Z.shiftl_mul_pow2, Z.lor_comm, lor_add by done. lia.
Qed.

(** The three longer forms as numbers. *)
Lemma join2 b0 b1 : Z.lor (Z.shiftl (Z.land b0 31) 6) (Z.land b1 63) = b0 mod 32 * 64 + b1 mod 64.
Proof.
  rewrite land63. change (Z.land b0 31) with (Z.land b0 (2 ^ 5 - 1)). rewrite land_mod by lia. change (2 ^ 5) with 32.
  rewrite shift_or; change (2 ^ 6) with 64; [done|]. apply Z.mod_pos_bound. lia.
Qed.

Lemma join3 a b1 b2 :
  Z.lor (Z.lor (Z.shiftl a 12) (Z.shiftl (Z.land b1 63) 6)) (Z.land b2 63) = a * 4096 + b1 mod 64 * 64 + b2 mod 64.
Proof.
  rewrite !land63.
  pose proof (Z.mod_pos_bound b1 64 ltac:(lia)). pose proof (Z.mod_pos_bound b2 64 ltac:(lia)).
  rewrite <- Z.lor_assoc, (shift_or (b1 mod 64) (b2 mod 64) 6) by (change (2 ^ 6) with 64; lia).
  change (2 ^ 6) with 64. rewrite shift_or; change (2 ^ 12) with 4096; lia.
Qed.

Lemma join4 a b1 b2 b3 :
  Z.lor (Z.lor (Z.lor (Z.shiftl a 18) (Z.shiftl (Z.land b1 63) 12)) (Z.shiftl (Z.land b2 63) 6)) (Z.land b3 63) =
  a * 262144 + b1 mod 64 * 4096 + b2 mod 64 * 64 + b3 mod 64.
Proof.
  rewrite <- (Z.lor_assoc (Z.shiftl a 18)), <- (Z.lor_assoc (Z.shiftl a 18)), join3.
  rewrite land63.
  pose proof (Z.mod_pos_bound b1 64 ltac:(lia)). pose proof (Z.mod_pos_bound b2 64 ltac:(lia)).
  pose proof (Z.mod_pos_bound b3 64 ltac:(lia)). rewrite shift_or; change (2 ^ 18) with 262144; lia.
Qed.

(** The decoder as arithmetic. *)
Lemma decode_spec s : Forall octet s ->
  utf8_decode_one s =
  let b0 := rd s 0 in let b1 := rd s 1 in let b2 := rd s 2 in let b3 := rd s 3 in
  let cont b := (128 <=? b) && (b <? 192) in
  if b0 =? 0 then (0, 0)
  else if b0 <? 128 then (1, b0)
  else if b0 <? 192 then (-1, INVALID)
  else if b0 <? 224 then
    if negb (cont b1) then (-1, INVALID)
    else let cp := (b0 - 192) * 64 + (b1 - 128) in if cp <? 128 then (-1, INVALID) else (2, cp)
  else if b0 <? 240 then
    if negb (cont b1) || negb (cont b2) then (-1, INVALID)
    else let cp := (b0 - 224) * 4096 + (b1 - 128) * 64 + (b2 - 128) in if cp <? 2048 then (-1, INVALID) else (3, cp)
  else if b0 <? 248 then
    if negb (cont b1) || negb (cont b2) || negb (cont b3) then (-1, INVALID)
    else let cp := (b0 - 240) * 262144 + (b1 - 128) * 4096 + (b2 - 128) * 64 + (b3 - 128) in
         if cp <? 65536 then (-1, INVALID) else (4, cp)
  else (-1, INVALID).
Proof.
  intros Hs. unfold utf8_decode_one. cbv zeta. rewrite !continuation_spec, join2, join3, join4 by (by apply rd_octet).
  change (Z.land (rd s 0) 15) with (Z.land (rd s 0) (2 ^ 4 - 1)). change (Z.land (rd s 0) 7) with (Z.land (rd s 0) (2 ^ 3 - 1)).
  rewrite !land_mod by lia. change (2 ^ 4) with 16. change (2 ^ 3) with 8.
  pose proof (rd_octet s 0 Hs) as H0. unfold octet in H0.
  assert (forall b, (128 <=? b) && (b <? 192) = true -> b mod 64 = b - 128) as Hm by (intros; bool_to_prop; zlia).
  destruct (_ =? 0); [done|]. destruct (_ <? 128); [done|]. destruct (_ <? 192) eqn:E0; [done|].
  destruct (_ <? 224) eqn:E1.
  { destruct ((128 <=? rd s 1) && _) eqn:C1; [|done]. cbn [negb]. rewrite (Hm _ C1).
    replace (rd s 0 mod 32) with (rd s 0 - 192) by (bool_to_prop; zlia). done. }
  destruct (_ <? 240) eqn:E2.
  { destruct ((128 <=? rd s 1) && _) eqn:C1; [|done]. destruct ((128 <=? rd s 2) && _) eqn:C2; [|done]. cbn [negb orb].
    rewrite (Hm _ C1), (Hm _ C2). replace (rd s 0 mod 16) with (rd s 0 - 224) by (bool_to_prop; zlia). done. }
  destruct (_ <? 248) eqn:E3; [|done].
  destruct ((128 <=? rd s 1) && _) eqn:C1; [|done]. destruct ((128 <=? rd s 2) && _) eqn:C2; [|done].
  destruct ((128 <=? rd s 3) && _) eqn:C3; [|done]. cbn [negb orb].
  rewrite (Hm _ C1), (Hm _ C2), (Hm _ C3). replace (rd s 0 mod 8) with (rd s 0 - 240) by (bool_to_prop; zlia). done.
Qed.

Lemma encode_octets cp : 0 < cp < 2097152 -> Forall octet (utf8_encode cp).
Proof.
  intros Hcp. unfold utf8_encode. repeat case_match; bool_to_prop; repeat constructor; unfold octet; zlia.
Qed.

Lemma if_true {A} (b : bool) (x y : A) : b = true -> (if b then x else y) = x.
Proof. by intros ->. Qed.

Lemma if_false {A} (b : bool) (x y : A) : b = false -> (if b then x else y) = y.
Proof. by intros ->. Qed.

Lemma cont_ok b : 0 <= b < 64 -> (128 <=? 128 + b) && (128 + b <? 192) = true.
Proof. intros. apply andb_true_intro; split; bool_to_prop; lia. Qed.

Lemma rd_cons a l : rd (a :: l) 0 = a.
Proof. done. Qed.

Lemma rd_second a b l : rd (a :: b :: l) 1 = b.
Proof. done. Qed.

Lemma rd_third a b c l : rd (a :: b :: c :: l) 2 = c.
Proof. done. Qed.

Lemma rd_fourth a b c d l : rd (a :: b :: c :: d :: l) 3 = d.
Proof. done. Qed.

Lemma decode_encode cp rest :
  0 < cp < 2097152 -> Forall octet rest ->
  utf8_decode_one (utf8_encode cp ++ rest) = (Z.of_nat (length (utf8_encode cp)), cp).
Proof.
  intros Hcp Hr. rewrite decode_spec by (apply Forall_app; split; [by apply encode_octets|done]).
  pose proof (Z.mod_pos_bound cp 64 ltac:(lia)). pose proof (Z.mod_pos_bound (cp / 64) 64 ltac:(lia)).
  pose proof (Z.mod_pos_bound (cp / 4096) 64 ltac:(lia)).
  unfold utf8_encode. destruct (cp <? 128) eqn:E1; [|destruct (cp <? 2048) eqn:E2; [|destruct (cp <? 65536) eqn:E3]];
    bool_to_prop; cbn [app length]; cbv zeta; rewrite ?rd_cons, ?rd_second, ?rd_third, ?rd_fourth; rewrite ?cont_ok by done; cbn [negb orb].
  - rewrite if_false, if_true by (bool_to_prop; lia). done.
  - do 3 rewrite if_false by (bool_to_prop; zlia). rewrite if_true, if_false by (bool_to_prop; zlia). f_equal. zlia.
  - do 4 rewrite if_false by (bool_to_prop; zlia). rewrite if_true, if_false by (bool_to_prop; zlia). f_equal. zlia.
  - do 5 rewrite if_false by (bool_to_prop; zlia). rewrite if_true, if_false by (bool_to_prop; zlia). f_equal. zlia.
Qed.

(** A text of which the first bytes are not 0 is at least so long. *)
Lemma rd_take s (n : nat) : (forall i, 0 <= i < Z.of_nat n -> rd s i <> 0) ->
  take n s = (fun i => rd s (Z.of_nat i)) <$> seq 0 n.
Proof.
  intros Hn. apply list_eq. intros i. rewrite list_lookup_fmap. destruct (decide (i < n)%nat) as [Hi|Hi].
  - rewrite lookup_take_lt, lookup_seq_lt by done. cbn. specialize (Hn (Z.of_nat i) ltac:(lia)). unfold rd in *. rewrite Nat2Z.id in *.
    by destruct (s !! i).
  - rewrite lookup_take_ge by lia. by rewrite lookup_seq_ge by lia.
Qed.

Lemma decode_canonical s n cp : Forall octet s -> utf8_decode_one s = (n, cp) -> 0 < n ->
  0 < cp < 2097152 /\ take (Z.to_nat n) s = utf8_encode cp.
Proof.
  intros Hs Hd Hn. rewrite decode_spec in Hd by done. pose proof (rd_octet s 0 Hs) as H0. unfold octet in H0. cbv zeta in Hd.
  destruct (rd s 0 =? 0) eqn:E0; [by simplify_eq|]. destruct (rd s 0 <? 128) eqn:E1.
  { injection Hd as <- <-. bool_to_prop. split; [lia|]. rewrite rd_take.
    - unfold utf8_encode. by rewrite if_true by (bool_to_prop; lia).
    - intros i Hi. replace i with 0 by lia. done. }
  destruct (rd s 0 <? 192) eqn:E2; [by simplify_eq|]. destruct (rd s 0 <? 224) eqn:E3.
  { destruct ((128 <=? rd s 1) && _) eqn:C1; [|cbn [negb orb] in Hd; by simplify_eq]. cbn [negb] in Hd.
    match type of Hd with (if ?b then _ else _) = _ => destruct b eqn:E4 end; injection Hd as <- <-; [lia|]. bool_to_prop. split; [lia|]. rewrite rd_take.
    - unfold utf8_encode. do 1 rewrite if_false by (bool_to_prop; lia). rewrite if_true by (bool_to_prop; lia).
      change (_ <$> seq 0 (Z.to_nat 2)) with [rd s 0; rd s 1]. do 1 (f_equal; [zlia|]). f_equal. zlia.
    - intros i Hi. assert (i = 0 \/ i = 1) as [->| ->] by lia; lia. }
  destruct (rd s 0 <? 240) eqn:E4.
  { destruct ((128 <=? rd s 1) && _) eqn:C1; [|cbn [negb orb] in Hd; by simplify_eq].
    destruct ((128 <=? rd s 2) && _) eqn:C2; [|cbn [negb orb] in Hd; by simplify_eq]. cbn [negb orb] in Hd.
    match type of Hd with (if ?b then _ else _) = _ => destruct b eqn:E5 end; injection Hd as <- <-; [lia|]. bool_to_prop. split; [lia|]. rewrite rd_take.
    - unfold utf8_encode. do 2 rewrite if_false by (bool_to_prop; lia). rewrite if_true by (bool_to_prop; lia).
      change (_ <$> seq 0 (Z.to_nat 3)) with [rd s 0; rd s 1; rd s 2]. do 2 (f_equal; [zlia|]). f_equal. zlia.
    - intros i Hi. assert (i = 0 \/ i = 1 \/ i = 2) as [->|[->| ->]] by lia; lia. }
  destruct (rd s 0 <? 248) eqn:E5; [|cbn [negb orb] in Hd; by simplify_eq].
  destruct ((128 <=? rd s 1) && _) eqn:C1; [|cbn [negb orb] in Hd; by simplify_eq].
  destruct ((128 <=? rd s 2) && _) eqn:C2; [|cbn [negb orb] in Hd; by simplify_eq].
  destruct ((128 <=? rd s 3) && _) eqn:C3; [|cbn [negb orb] in Hd; by simplify_eq]. cbn [negb orb] in Hd.
  match type of Hd with (if ?b then _ else _) = _ => destruct b eqn:E6 end; injection Hd as <- <-; [lia|]. bool_to_prop. split; [lia|]. rewrite rd_take.
  - unfold utf8_encode. do 3 rewrite if_false by (bool_to_prop; lia). change (_ <$> seq 0 (Z.to_nat 4)) with [rd s 0; rd s 1; rd s 2; rd s 3]. do 3 (f_equal; [zlia|]). f_equal. zlia.
  - intros i Hi. assert (i = 0 \/ i = 1 \/ i = 2 \/ i = 3) as [->|[->|[->| ->]]] by lia; lia.
Qed.

(** C34: the decoder accepts exactly the shortest encodings of the code points from
    1 to 2^21 - 1.  It decodes the encoding of each, whatever follows, to that code
    point and its length; and whenever it returns a length, the text starts with the
    encoding of the code point it returns.  Otherwise the text is empty (0), or the
    result is -1 with the replacement character. *)
Theorem utf8_decode_roundtrip :
  (forall cp rest, 0 < cp < 2097152 -> Forall octet rest ->
     utf8_decode_one (utf8_encode cp ++ rest) = (Z.of_nat (length (utf8_encode cp)), cp)) /\
  (forall s n cp, Forall octet s -> utf8_decode_one s = (n, cp) ->
     0 < n /\ 0 < cp < 2097152 /\ take (Z.to_nat n) s = utf8_encode cp \/
     n = 0 /\ cp = 0 /\ rd s 0 = 0 \/
     n = -1 /\ cp = INVALID).
Proof.
  split; [exact decode_encode|]. intros s n cp Hs Hd. destruct (decide (0 < n)) as [Hn|Hn].
  { left. split; [done|]. by apply decode_canonical. }
  right. unfold utf8_decode_one in Hd. cbv zeta in Hd. destruct (rd s 0 =? 0) eqn:E0.
  - left. injection Hd as <- <-. bool_to_prop. done.
  - right. repeat (match type of Hd with (if ?b then _ else _) = _ => destruct b end); injection Hd as <- <-; done || lia.
Qed.

(** The three bytes of the euro sign, and a surrogate, which is accepted. *)
Lemma utf8_decode_roundtrip_witness :
  utf8_decode_one ([226; 130; 172] ++ [65]) = (3, 8364) /\ utf8_encode 8364 = [226; 130; 172] /\
  utf8_decode_one [237; 160; 128] = (3, 55296).
Proof.
  destruct utf8_decode_roundtrip as [Hd _]. split; [|split; reflexivity].
  apply (Hd 8364 [65]); [lia|repeat constructor; unfold octet; lia].
Defined.

(** * The table *)

Definition cp437_lookup (cp : Z) : Z := default 63 (snd <$> (list_find (fun e => e.1 = cp) cp437_table ≫= fun r => Some r.2)).

(** The code points the search does not find, since the table is not sorted. *)
Definition cp437_lost : list Z := [8319; 8359; 8217; 8220; 8658; 9834; 9835; 9786; 9787; 9788].

Definition cp437_spec (cp : Z) : Z :=
  if cp <? 128 then cp else if bool_decide (cp ∈ cp437_lost) then 63 else cp437_lookup cp.

Lemma cp437_absent fuel cp : Forall (fun e => e.1 <> cp) cp437_table -> forall lo hi,
  0 <= lo -> hi < 169 -> hi - lo + 1 < 2 ^ Z.of_nat fuel -> cp437_search (S fuel) cp lo hi = Some 63.
Proof.
  intros Hab. induction fuel as [|fuel IH]; intros lo hi Hlo Hhi Hf.
  - change (2 ^ Z.of_nat 0) with 1 in Hf. cbn [cp437_search]. by rewrite if_true by (bool_to_prop; lia).
  - rewrite Nat2Z.inj_succ, Z.pow_succ_r in Hf by lia. set (f := S fuel) in *. cbn [cp437_search].
    destruct (hi <? lo) eqn:E; [done|]. bool_to_prop. cbv zeta. set (mid := (lo + hi) / 2).
    assert (lo <= mid <= hi /\ mid - lo <= hi - mid + 0 /\ hi - mid <= mid - lo + 1) as Hm by (unfold mid; zlia).
    destruct (cp437_table.[mid]) as [c g] eqn:Et.
    assert (c <> cp) as Hc.
    { rewrite Forall_lookup in Hab. apply (Hab (Z.to_nat mid) (c, g)). rewrite <- Et. apply aget_lookup.
      change (Z.of_nat (length cp437_table)) with 169. lia. }
    rewrite (proj2 (Z.eqb_neq c cp)) by done. destruct (cp <? c); apply IH; lia.
Qed.

(** [unicode_to_cp437] returns after at most nine steps for every code point,
    and is the linear lookup of the table (with a question mark for what it lacks)
    except for ten of its entries, which the binary search misses because the table
    is not sorted. *)
Theorem unicode_to_cp437_lookup cp : unicode_to_cp437 cp = Some (cp437_spec cp).
Proof.
  unfold unicode_to_cp437, cp437_spec. destruct (cp <? 128) eqn:E; [done|].
  destruct (decide (Forall (fun e => e.1 <> cp) cp437_table)) as [Hab|Hin].
  - change (CP437_TABLE_SIZE - 1) with 168. rewrite (cp437_absent 8 cp Hab) by (done || lia).
    rewrite bool_decide_false.
    + unfold cp437_lookup. assert (list_find (fun e => e.1 = cp) cp437_table = None) as ->; [|done].
      by apply list_find_None.
    + intros Hl. rewrite Forall_forall in Hab.
      assert (Forall (fun c => Exists (fun e => e.1 = c) cp437_table) cp437_lost) as Hall by (apply (bool_decide_unpack _); by vm_compute).
      rewrite Forall_forall in Hall. apply Hall, Exists_exists in Hl as (e & He & Ee). by apply (Hab e).
  - apply not_Forall_Exists in Hin; [|apply _]. apply Exists_exists in Hin as (e & He & Ee). apply dec_stable in Ee. subst cp.
    assert (Forall (fun e => cp437_search 9 e.1 0 (CP437_TABLE_SIZE - 1) =
      Some (if bool_decide (e.1 ∈ cp437_lost) then 63 else cp437_lookup e.1)) cp437_table) as Hall
      by (apply (bool_decide_unpack _); by vm_compute).
    rewrite Forall_forall in Hall. by apply Hall.
Qed.
