(* ===== verification/Parser.v ===== *)
(** Command-line parser of the shell: [userland/shell/parser.c].

    [parser_parse_line] walks the line by index and writes tokens into fixed
    rows; the theorems relate it to a tokenizer on lists, show that quoting
    round-trips, and that a printed number is read back. *)
From S2P Require Import Prelude.
From S2P Require Import KString.
From Stdlib Require Import ZArith Lia.
From stdpp Require Import base numbers list.

Open Scope Z_scope.
Open Scope lyth_scope.

Definition is_blank (c : Z) : bool := (c =? 32) || (c =? 9).

(** [while (text[i] == ' ' || text[i] == '\t') i++;] *)
Fixpoint skip_blanks (fuel : nat) (text : list Z) (i : Z) : Z :=
  match fuel with
  | O => i
  | S f => if is_blank (rd text i) then skip_blanks f text (i + 1) else i
  end.

Definition skip_spaces (text : list Z) : list Z :=
  drop (Z.to_nat (skip_blanks (str_fuel text) text 0)) text.

(** Lines 57-60. *)
Definition store_char (tok : list Z) (token_length token_max c : Z) : list Z * Z :=
  if token_length <? token_max - 1 then (tok.[token_length <- c], token_length + 1)
  else (tok, token_length).

(** Lines 44-63: the characters of one token, into its row. *)
Fixpoint token_loop (fuel : nat) (line : list Z) (quote index : Z) (tok : list Z)
    (token_length token_max : Z) : list Z * Z * Z :=
  match fuel with
  | O => (tok, token_length, index)
  | S f =>
      let current := rd line index in
      if current =? 0 then (tok, token_length, index)
      else if (current =? 92) && negb (rd line (index + 1) =? 0) then
        let '(tok, token_length) := store_char tok token_length token_max (rd line (index + 1)) in
        token_loop f line quote (index + 1 + 1) tok token_length token_max
      else if negb (quote =? 0) && (current =? quote) then (tok, token_length, index + 1)
      else if (quote =? 0) && is_blank current then (tok, token_length, index)
      else
        let '(tok, token_length) := store_char tok token_length token_max current in
        token_loop f line quote (index + 1) tok token_length token_max
  end.

(** Lines 23-72; [argv] lists the rows its pointers refer to. *)
Fixpoint line_loop (fuel : nat) (line : list Z) (index : Z) (tokens : list (list Z))
    (argv : list Z) (argc max_args token_max : Z) : Z * list (list Z) * list Z :=
  match fuel with
  | O => (argc, tokens, argv)
  | S f =>
      if rd line index =? 0 then (argc, tokens, argv)
      else
        let index := skip_blanks (str_fuel line) line index in
        if rd line index =? 0 then (argc, tokens, argv)
        else if max_args <=? argc then (argc, tokens, argv)
        else
          let c := rd line index in
          let '(quote, index) :=
            if (c =? 34) || (c =? 39) then (c, index + 1) else (0, index) in
          let '(tok, token_length, index) :=
            token_loop (str_fuel line) line quote index tokens.[argc] 0 token_max in
          let tokens := tokens.[argc <- tok.[token_length <- 0]] in
          let index := skip_blanks (str_fuel line) line index in
          line_loop f line index tokens argv.[argc <- argc] (argc + 1) max_args token_max
  end.

Definition parser_parse_line (line : option (list Z)) (tokens : list (list Z)) (argv : list Z)
    (max_args token_max : Z) : Z * list (list Z) * list Z :=
  match line with
  | None => (0, tokens, argv)
  | Some line =>
      let line := skip_spaces line in
      line_loop (str_fuel line) line 0 tokens argv 0 max_args token_max
  end.

(** The accumulator is a C [int]. *)
Fixpoint integer_loop (fuel : nat) (text : list Z) (index value : Z) (has_digit : bool) : Z * bool :=
  match fuel with
  | O => (value, has_digit)
  | S f =>
      if (48 <=? rd text index) && (rd text index <=? 57)
      then integer_loop f text (index + 1) (s32 (value * 10 + (rd text index - 48))) true
      else (value, has_digit)
  end.

Definition parser_parse_integer (text : option (list Z)) (fallback : Z) : Z :=
  match text with
  | None => fallback
  | Some text =>
      let index := skip_blanks (str_fuel text) text 0 in
      let '(value, has_digit) := integer_loop (str_fuel text) text index 0 false in
      if negb has_digit || (value <=? 0) then fallback else value
  end.

(** * Tokenizer on lists *)

Fixpoint drop_blanks (s : list Z) : list Z :=
  match s with
  | [] => []
  | c :: s' => if is_blank c then drop_blanks s' else s
  end.

(** A token and what follows it; [q] is the open quote or 0. *)
Fixpoint read_tok (q : Z) (s : list Z) : list Z * list Z :=
  match s with
  | [] => ([], [])
  | c :: s' =>
      match s' with
      | d :: s'' =>
          if c =? 92 then let '(w, r) := read_tok q s'' in (d :: w, r)
          else if negb (q =? 0) && (c =? q) then ([], s')
          else if (q =? 0) && is_blank c then ([], s)
          else let '(w, r) := read_tok q s' in (c :: w, r)
      | [] =>
          if negb (q =? 0) && (c =? q) then ([], s')
          else if (q =? 0) && is_blank c then ([], s)
          else ([c], [])
      end
  end.

Fixpoint tokenize (fuel : nat) (s : list Z) : list (list Z) :=
  match fuel with
  | O => []
  | S f =>
      match drop_blanks s with
      | [] => []
      | c :: s' =>
          let '(w, r) := if (c =? 34) || (c =? 39) then read_tok c s' else read_tok 0 (c :: s') in
          w :: tokenize f r
      end
  end.

(** The words of a line. *)
Definition words (s : list Z) : list (list Z) := tokenize (length s) s.

(** * The index loops follow the list tokenizer *)

(** The text still to read at [i]. *)
Definition rest (line : list Z) (i : Z) : list Z := cstr (drop (Z.to_nat i) line).

Lemma rest_step line i :
  0 <= i -> rest line i = if rd line i =? 0 then [] else rd line i :: rest line (i + 1).
Proof. apply cstr_drop_step. Qed.

Lemma rest_nil line i : 0 <= i -> rd line i = 0 -> rest line i = [].
Proof. intros Hi E. by rewrite rest_step, E. Qed.

Lemma rest_cons line i : 0 <= i -> rd line i <> 0 -> rest line i = rd line i :: rest line (i + 1).
Proof. intros Hi E. by rewrite rest_step, (proj2 (Z.eqb_neq _ _) E). Qed.

Lemma rest_length line i : (length (rest line i) <= length line - Z.to_nat i)%nat.
Proof. unfold rest. rewrite <- length_drop. apply cstr_length. Qed.

Lemma skip_blanks_spec f line i :
  0 <= i -> (length (rest line i) < f)%nat ->
  i <= skip_blanks f line i /\ rest line (skip_blanks f line i) = drop_blanks (rest line i).
Proof.
  revert i. induction f as [|f IH]; intros i Hi Hf; [lia|]. simpl.
  rewrite (rest_step line i) in * by done. case_if.
  - assert (rd line i <> 0) by (intros E; by rewrite E in Hif).
    rewrite (proj2 (Z.eqb_neq (rd line i) 0)) in * by done. simpl in *. rewrite Hif.
    destruct (IH (i + 1)) as [? ?]; [lia|lia|]. split; [lia|done].
  - split; [lia|]. rewrite (rest_step line i) by done. case_if; [done|]. simpl. by rewrite Hif.
Qed.

(** The row while a token is being stored: its first cells are the characters
    read so far, cut to [token_max - 1]. *)
Definition row_holds (tok : list Z) (tl tmax : Z) (w : list Z) : Prop :=
  tl = Z.min (tmax - 1) (Z.of_nat (length w)) /\
  forall i, 0 <= i < tl -> w !! Z.to_nat i = Some (rd tok i).

Lemma store_char_spec tok tl tmax w c :
  0 < tmax <= Z.of_nat (length tok) -> row_holds tok tl tmax w ->
  let '(tok', tl') := store_char tok tl tmax c in
  row_holds tok' tl' tmax (w ++ [c]) /\ length tok' = length tok.
Proof.
  intros Hm [-> Hw]. unfold store_char, row_holds. rewrite length_app. simpl.
  case_if; (split; [|by rewrite ?aset_length]); (split; [lia|]).
  - intros i Hi. rewrite rd_aget by (rewrite aset_length; lia).
    destruct (decide (i = Z.of_nat (length w))) as [->|].
    + rewrite Z.min_r in * by lia. rewrite aget_aset_eq by lia.
      rewrite lookup_app_r by lia. by replace (Z.to_nat _ - length w)%nat with 0%nat by lia.
    + rewrite aget_aset_ne by lia. rewrite lookup_app_l by lia. rewrite Hw by lia.
      f_equal. apply rd_aget. lia.
  - intros i Hi. rewrite lookup_app_l by lia. apply Hw. lia.
Qed.

Lemma row_text tok tl tmax w :
  0 < tmax <= Z.of_nat (length tok) -> row_holds tok tl tmax w -> Forall (fun c => c <> 0) w ->
  cstr tok.[tl <- 0] = take (Z.to_nat (tmax - 1)) w.
Proof.
  intros Hm [-> Hw] Hnz. set (tl := Z.min _ _) in *.
  assert (length (take (Z.to_nat (tmax - 1)) w) = Z.to_nat tl) as Hl
    by (rewrite length_take; unfold tl; lia).
  apply cstr_intro.
  - by apply Forall_take.
  - intros i Hi. rewrite Hl in Hi. rewrite lookup_take_lt by (unfold tl in *; lia).
    rewrite rd_aget by (rewrite aset_length; unfold tl in *; lia).
    rewrite aget_aset_ne by (unfold tl in *; lia). rewrite Hw by lia.
    f_equal. apply rd_aget. unfold tl in *; lia.
  - rewrite Hl, rd_aget by (rewrite aset_length; unfold tl in *; lia).
    replace (Z.of_nat (Z.to_nat tl)) with tl by (unfold tl in *; lia).
    apply aget_aset_eq. unfold tl in *; lia.
Qed.

Lemma read_tok_cons2 q c d s :
  read_tok q (c :: d :: s)
  = if c =? 92 then let '(w, r) := read_tok q s in (d :: w, r)
    else if negb (q =? 0) && (c =? q) then ([], d :: s)
    else if (q =? 0) && is_blank c then ([], c :: d :: s)
    else let '(w, r) := read_tok q (d :: s) in (c :: w, r).
Proof. reflexivity. Qed.

Lemma token_loop_spec f line q i tok tl tmax w :
  0 <= i -> (length (rest line i) < f)%nat ->
  0 < tmax <= Z.of_nat (length tok) -> row_holds tok tl tmax w ->
  let '(tok', tl', i') := token_loop f line q i tok tl tmax in
  let '(w', r) := read_tok q (rest line i) in
  row_holds tok' tl' tmax (w ++ w') /\ rest line i' = r /\ length tok' = length tok /\ 0 <= i'.
Proof.
  revert i tok tl w. induction f as [|f IH]; intros i tok tl w Hi Hf Hm Hw; [lia|].
  cbn [token_loop]. cbv zeta. destruct (decide (rd line i = 0)) as [E0|E0].
  { rewrite E0, rest_nil by done. simpl. rewrite app_nil_r. by rewrite rest_nil. }
  rewrite (proj2 (Z.eqb_neq _ _) E0). rewrite rest_cons in Hf |- * by done. simpl in Hf.
  assert (forall c (tok' : list Z) tl' i' t, (tok', tl') = store_char tok tl tmax c -> i <= i' ->
    rest line i' = t -> (length t < f)%nat ->
    let '(tok2, tl2, i2) := token_loop f line q i' tok' tl' tmax in
    let '(w', r) := read_tok q t in
    row_holds tok2 tl2 tmax (w ++ c :: w') /\ rest line i2 = r /\
    length tok2 = length tok /\ 0 <= i2) as Hrec.
  { intros c tok' tl' i' t Es Hi' <- Hlt.
    pose proof (store_char_spec tok tl tmax w c Hm Hw) as Hs. rewrite <- Es in Hs.
    destruct Hs as [Hs Hl]. specialize (IH i' tok' tl' (w ++ [c])).
    destruct (token_loop f line q i' tok' tl' tmax) as [[tok2 tl2] i2].
    destruct (read_tok q (rest line i')) as [w' r].
    destruct IH as (Ha & Hb & Hc & Hd); [lia|lia|lia|done|].
    rewrite <- app_assoc in Ha. split_and!; congruence || done. }
  destruct (decide (rd line (i + 1) = 0)) as [E1|E1].
  - rewrite E1. rewrite (rest_nil line (i + 1)) in Hf |- * by (done || lia).
    cbn [negb]. change (0 =? 0) with true. rewrite andb_false_r. cbn [read_tok].
    destruct (negb (q =? 0) && _) eqn:Eq.
    { rewrite app_nil_r. split_and!; try done; [|lia]. by rewrite rest_nil by (done || lia). }
    destruct ((q =? 0) && _) eqn:Eq'.
    { rewrite app_nil_r. split_and!; try done. rewrite rest_cons by done.
      by rewrite (rest_nil line (i + 1)) by (done || lia). }
    destruct (store_char _ _ _ _) as [tok' tl'] eqn:Es.
    apply (Hrec (rd line i) tok' tl' (i + 1) []); [done|lia| |simpl in *; lia].
    by apply rest_nil; lia.
  - rewrite (proj2 (Z.eqb_neq _ _) E1). rewrite (rest_cons line (i + 1)) in Hf |- * by (done || lia).
    cbn [negb]. rewrite andb_true_r. simpl in Hf.
    rewrite read_tok_cons2.
    destruct (rd line i =? 92) eqn:Eb.
    { destruct (store_char _ _ _ _) as [tok' tl'] eqn:Es.
      specialize (Hrec (rd line (i + 1)) tok' tl' (i + 1 + 1) (rest line (i + 1 + 1))).
      destruct (token_loop f _ _ _ _ _ _) as [[tok2 tl2] i2].
      destruct (read_tok q (rest line (i + 1 + 1))) as [w' r].
      apply Hrec; done || lia. }
    destruct (negb (q =? 0) && _) eqn:Eq.
    { rewrite app_nil_r. split_and!; try done; [|lia]. by rewrite rest_cons by (done || lia). }
    destruct ((q =? 0) && _) eqn:Eq'.
    { rewrite app_nil_r. split_and!; try done. rewrite rest_cons by done.
      by rewrite (rest_cons line (i + 1)) by (done || lia). }
    destruct (store_char _ _ _ _) as [tok' tl'] eqn:Es.
    specialize (Hrec (rd line i) tok' tl' (i + 1) (rd line (i + 1) :: rest line (i + 1 + 1))).
    destruct (token_loop f _ _ _ _ _ _) as [[tok2 tl2] i2].
    destruct (read_tok q (rd line (i + 1) :: _)) as [w' r].
    apply Hrec; [done|lia| |simpl; lia]. apply rest_cons; done || lia.
Qed.

(** Induction on a text two characters at a time, as [read_tok] recurses. *)
Lemma text_ind2 (P : list Z -> Prop) :
  P [] -> (forall c, P [c]) -> (forall c d s, P s -> P (d :: s) -> P (c :: d :: s)) ->
  forall s, P s.
Proof.
  intros H0 H1 H2 s. enough (P s /\ forall c, P (c :: s)) by tauto.
  induction s as [|d s [IH IH']]; [auto|]. split; [done|]. intros c. by apply H2.
Qed.

Lemma read_tok_split P q s :
  Forall P s -> Forall P (read_tok q s).1 /\ Forall P (read_tok q s).2 /\
  (length (read_tok q s).2 <= length s)%nat.
Proof.
  induction s as [|c|c d s IH1 IH2] using text_ind2; intros Hs.
  - simpl; auto.
  - simpl. repeat case_if; simpl; split_and!; try done; try lia.
  - rewrite read_tok_cons2. apply Forall_cons in Hs as [Hc Hs].
    pose proof Hs as [Hd Hs']%Forall_cons. repeat case_if.
    + destruct (read_tok q s) as [w r]; simpl in *. destruct (IH1 Hs') as (? & ? & ?).
      split_and!; [by constructor|done|lia].
    + simpl. split_and!; [done..|lia].
    + simpl. split_and!; [done|by constructor|lia].
    + destruct (read_tok q (d :: s)) as [w r]; simpl in *. destruct (IH2 Hs) as (? & ? & ?).
      split_and!; [by constructor|done|lia].
Qed.

(** An unquoted token takes at least its first character. *)
Lemma read_tok_progress c s :
  is_blank c = false -> (length (read_tok 0 (c :: s)).2 <= length s)%nat.
Proof.
  intros Hb. destruct s as [|d s].
  - simpl. by rewrite Hb.
  - rewrite read_tok_cons2. cbn [Z.eqb negb andb]. rewrite Hb. case_if.
    + pose proof (read_tok_split (fun _ => True) 0 s) as Hr.
      destruct (read_tok 0 s) as [w r]. destruct Hr as (_ & _ & Hr); [by apply Forall_true|].
      simpl in *. lia.
    + pose proof (read_tok_split (fun _ => True) 0 (d :: s)) as Hr.
      destruct (read_tok 0 (d :: s)) as [w r]. destruct Hr as (_ & _ & Hr); [by apply Forall_true|].
      simpl in *. lia.
Qed.

Lemma drop_blanks_spec s :
  (length (drop_blanks s) <= length s)%nat /\ drop_blanks (drop_blanks s) = drop_blanks s /\
  (forall c s', drop_blanks s = c :: s' -> is_blank c = false) /\
  (forall P, Forall P s -> Forall P (drop_blanks s)).
Proof.
  induction s as [|c s (IH1 & IH2 & IH3 & IH4)]; simpl; [done|].
  destruct (is_blank c) eqn:Hb; simpl.
  - split_and!; [lia|done|done|]. intros P [? ?]%Forall_cons. auto.
  - rewrite Hb. split_and!; [lia|done| |done]. by intros ? ? [= <- _].
Qed.

(** The first token of a text with no leading blank. *)
Definition first_tok (c : Z) (s : list Z) : list Z * list Z :=
  if (c =? 34) || (c =? 39) then read_tok c s else read_tok 0 (c :: s).

Lemma first_tok_spec P c s :
  is_blank c = false -> Forall P (c :: s) ->
  Forall P (first_tok c s).1 /\ Forall P (first_tok c s).2 /\
  (length (first_tok c s).2 <= length s)%nat.
Proof.
  intros Hb Hs. unfold first_tok. case_if.
  - apply Forall_cons in Hs as [_ Hs]. by apply read_tok_split.
  - destruct (read_tok_split P 0 (c :: s) Hs) as (? & ? & _).
    split_and!; [done|done|]. by apply read_tok_progress.
Qed.

Lemma tokenize_step f c s' s :
  drop_blanks s = c :: s' ->
  tokenize (S f) s = (first_tok c s').1 :: tokenize f (first_tok c s').2.
Proof. intros E. cbn [tokenize]. rewrite E. fold (first_tok c s'). by destruct (first_tok c s'). Qed.

Lemma tokenize_blanks f s : tokenize f (drop_blanks s) = tokenize f s.
Proof. destruct f; [done|]. cbn [tokenize]. by rewrite (proj1 (proj2 (drop_blanks_spec s))). Qed.

Lemma tokenize_fuel f g s :
  (length s <= f)%nat -> (length s <= g)%nat -> tokenize f s = tokenize g s.
Proof.
  revert g s. induction f as [|f IH]; intros g s Hf Hg.
  - destruct s; [|simpl in Hf; lia]. by destruct g.
  - destruct g as [|g]; [destruct s; [done|simpl in Hg; lia]|].
    destruct (drop_blanks_spec s) as (Hl & _ & Hb & _).
    destruct (drop_blanks s) as [|c s'] eqn:E; [cbn [tokenize]; by rewrite E|].
    rewrite !(tokenize_step _ c s') by done. f_equal. simpl in Hl.
    destruct (first_tok_spec (fun _ => True) c s') as (_ & _ & Hr);
      [by eapply Hb|by apply Forall_true|]. apply IH; lia.
Qed.

Lemma rest_nonzero line i : Forall (fun c => c <> 0) (rest line i).
Proof. apply cstr_nonzero. Qed.

Section lines.
Context (line : list Z) (max_args token_max : Z).
Context (Htok : 0 < token_max).

(** Enough rows, each long enough. *)
Definition table_ok (tokens : list (list Z)) : Prop :=
  max_args <= Z.of_nat (length tokens) /\
  forall k, 0 <= k < max_args -> token_max <= Z.of_nat (length tokens.[k]).

(** One token, from its first character to the blanks after it. *)
Lemma one_token_spec j row :
  0 <= j -> rd line j <> 0 -> is_blank (rd line j) = false ->
  token_max <= Z.of_nat (length row) ->
  let ft := first_tok (rd line j) (rest line (j + 1)) in
  let '(quote, index) :=
    if (rd line j =? 34) || (rd line j =? 39) then (rd line j, j + 1) else (0, j) in
  let '(tok, tl, index) := token_loop (str_fuel line) line quote index row 0 token_max in
  length tok.[tl <- 0] = length row /\
  cstr tok.[tl <- 0] = take (Z.to_nat (token_max - 1)) ft.1 /\
  0 <= skip_blanks (str_fuel line) line index /\
  rest line (skip_blanks (str_fuel line) line index) = drop_blanks ft.2.
Proof.
  intros Hj Ej Hnb Hrl. cbv zeta.
  pose proof (rest_nonzero line j) as Hall. rewrite rest_cons in Hall by done.
  destruct (first_tok_spec _ _ _ Hnb Hall) as (Hnz & _ & _). set (c := rd line j) in *.
  set (qi := if (c =? 34) || (c =? 39) then (c, j + 1) else (0, j)).
  assert (exists q i0, qi = (q, i0) /\ 0 <= i0 /\ read_tok q (rest line i0) = first_tok c (rest line (j + 1)))
    as (q & i0 & -> & Hi0 & Hread).
  { unfold qi, first_tok. case_if; eexists _, _; (split; [done|]); (split; [lia|]); [done|].
    by rewrite (rest_cons line j) by (done || lia). }
  pose proof (token_loop_spec (str_fuel line) line q i0 row 0 token_max []) as Htl.
  destruct (token_loop _ _ _ _ _ _ _) as [[tok tl] i1]. rewrite Hread in Htl.
  destruct (first_tok c (rest line (j + 1))) as [w r]. cbn [fst snd] in *.
  destruct Htl as (Hrow & Hr & Hltok & Hi1); [lia| |lia| |].
  { pose proof (rest_length line i0). unfold str_fuel. lia. }
  { split; [simpl; lia|intros; lia]. }
  destruct (skip_blanks_spec (str_fuel line) line i1 Hi1) as [Hk Hrk].
  { pose proof (rest_length line i1). unfold str_fuel. lia. }
  split_and!; [by rewrite aset_length|by apply row_text; [lia|..]|lia|by rewrite Hrk, Hr].
Qed.

Lemma line_loop_spec f i tokens argv argc :
  0 <= i -> 0 <= argc <= max_args -> (length (rest line i) < f)%nat -> table_ok tokens ->
  max_args <= Z.of_nat (length argv) ->
  let '(argc', tokens', argv') := line_loop f line i tokens argv argc max_args token_max in
  let toks := tokenize f (rest line i) in
  argc' = Z.min max_args (argc + Z.of_nat (length toks)) /\
  (forall k, 0 <= k -> k < argc \/ argc' <= k ->
     tokens'.[k] = tokens.[k] /\ argv'.[k] = argv.[k]) /\
  (forall k w, argc <= k < argc' -> toks !! Z.to_nat (k - argc) = Some w ->
     cstr tokens'.[k] = take (Z.to_nat (token_max - 1)) w /\ argv'.[k] = k).
Proof.
  revert i tokens argv argc. induction f as [|f IH]; intros i tokens argv argc Hi Ha Hf Ht Hv; [lia|].
  cbn [line_loop]. cbv zeta.
  assert (forall toks : list (list Z), toks = [] \/ max_args <= argc ->
    argc = Z.min max_args (argc + Z.of_nat (length toks)) /\
    (forall k, 0 <= k -> k < argc \/ argc <= k ->
       tokens.[k] = tokens.[k] /\ argv.[k] = argv.[k]) /\
    (forall k w, argc <= k < argc -> toks !! Z.to_nat (k - argc) = Some w ->
     cstr tokens.[k] = take (Z.to_nat (token_max - 1)) w /\ argv.[k] = k)) as Hstop.
  { intros toks Hc. split_and!; [destruct Hc as [->|]; simpl; lia|done|intros; lia]. }
  destruct (rd line i =? 0) eqn:E0.
  { apply Hstop. left. bool_to_prop. by rewrite rest_nil. }
  destruct (skip_blanks_spec (str_fuel line) line i Hi) as [Hj Hrj].
  { pose proof (rest_length line i). unfold str_fuel. lia. }
  set (j := skip_blanks _ _ _) in *.
  destruct (drop_blanks_spec (rest line i)) as (Hlen & _ & Hb & _). rewrite <- Hrj in *.
  destruct (decide (rd line j = 0)) as [Ej|Ej].
  { rewrite Ej. apply Hstop. left. cbn [tokenize]. rewrite <- Hrj. by rewrite rest_nil by (done || lia). }
  rewrite (proj2 (Z.eqb_neq _ _) Ej). case_if; [apply Hstop; by right|].
  rewrite rest_cons in Hrj, Hlen by (done || lia). symmetry in Hrj.
  assert (is_blank (rd line j) = false) as Hnb
    by (eapply Hb; rewrite rest_cons by (done || lia); done).
  rewrite (tokenize_step _ _ _ _ Hrj).
  assert (token_max <= Z.of_nat (length tokens.[argc])) as Hrl by (apply Ht; lia).
  pose proof (one_token_spec j tokens.[argc] ltac:(lia) Ej Hnb Hrl) as Hone. cbv zeta in Hone.
  destruct (first_tok_spec (fun _ => True) (rd line j) (rest line (j + 1))) as (_ & _ & Hshort);
    [done|by apply Forall_true|].
  destruct (first_tok _ _) as [w r]. cbn [fst snd] in *.
  destruct (if _ || _ then _ else _) as [q i0].
  destruct (token_loop _ _ _ _ _ _ _) as [[tok tl] i1].
  destruct Hone as (Hltok & Htext & Hi2 & Hrk). rewrite aset_length in Hltok.
  set (i2 := skip_blanks _ _ i1) in *.
  assert (tokenize f (rest line i2) = tokenize f r) as Htok2 by (rewrite Hrk; apply tokenize_blanks).
  pose proof (proj1 (drop_blanks_spec r)) as Hl2. rewrite <- Hrk in Hl2.
  specialize (IH i2 tokens.[argc <- tok.[tl <- 0]] argv.[argc <- argc] (argc + 1)).
  rewrite Htok2 in IH.
  assert (forall k, 0 <= k -> k <> argc -> tokens.[argc <- tok.[tl <- 0]].[k] = tokens.[k]) as Hne
    by (intros; apply aget_aset_ne; lia).
  assert (forall k, 0 <= k -> k <> argc -> argv.[argc <- argc].[k] = argv.[k]) as Hne'
    by (intros; apply aget_aset_ne; lia).
  destruct Ht as [Ht1 Ht2].
  destruct (line_loop f line i2 _ _ _ _ _) as [[argc' tokens'] argv'].
  destruct IH as (IH1 & IH2 & IH3); [lia|lia|simpl in Hlen; lia| |by rewrite aset_length|].
  { split; [by rewrite aset_length|]. intros k Hk'. destruct (decide (k = argc)) as [->|].
    - rewrite aget_aset_eq by lia. rewrite aset_length. lia.
    - rewrite Hne by lia. by apply Ht2. }
  simpl length. split_and!; [lia| |].
  - intros k Hk0 Hk1. destruct (IH2 k Hk0) as [-> ->]; [lia|]. by rewrite Hne, Hne' by lia.
  - intros k w' Hk1 Hw'. destruct (decide (k = argc)) as [->|].
    + rewrite Z.sub_diag in Hw'. simpl in Hw'. simplify_eq.
      destruct (IH2 argc) as [-> ->]; [lia|lia|].
      rewrite !aget_aset_eq by lia. done.
    + apply IH3; [lia|]. replace (Z.to_nat (k - argc)) with (S (Z.to_nat (k - (argc + 1)))) in Hw' by lia.
      exact Hw'.
Qed.

End lines.

Lemma words_blanks s : words (drop_blanks s) = words s.
Proof.
  unfold words. rewrite <- (tokenize_blanks (length s) s). apply tokenize_fuel; [lia|].
  apply drop_blanks_spec.
Qed.

Lemma skip_spaces_text line : cstr (skip_spaces line) = drop_blanks (cstr line).
Proof.
  destruct (skip_blanks_spec (str_fuel line) line 0) as [_ E]; [lia| |done].
  pose proof (rest_length line 0). unfold str_fuel. lia.
Qed.

Lemma parse_line_words line tokens argv max_args token_max :
  0 <= max_args -> 0 < token_max -> table_ok max_args token_max tokens ->
  max_args <= Z.of_nat (length argv) ->
  let '(argc, tokens', argv') := parser_parse_line (Some line) tokens argv max_args token_max in
  let ws := words (cstr line) in
  argc = Z.min max_args (Z.of_nat (length ws)) /\
  (forall k w, 0 <= k < argc -> ws !! Z.to_nat k = Some w ->
     cstr tokens'.[k] = take (Z.to_nat (token_max - 1)) w /\ argv'.[k] = k) /\
  (forall k, argc <= k -> tokens'.[k] = tokens.[k] /\ argv'.[k] = argv.[k]).
Proof.
  intros Hm Ht Htab Hv. unfold parser_parse_line. set (l := skip_spaces line).
  assert (rest l 0 = cstr l) as Er by done.
  pose proof (line_loop_spec l max_args token_max Ht (str_fuel l) 0 tokens argv 0) as Hl.
  destruct (line_loop _ _ _ _ _ _ _ _) as [[argc tokens'] argv'].
  pose proof (cstr_length l).
  destruct Hl as (H1 & H2 & H3); [lia|lia|rewrite Er; unfold str_fuel; lia|done|done|].
  assert (tokenize (str_fuel l) (rest l 0) = words (cstr line)) as Ew.
  { rewrite Er, <- words_blanks, <- skip_spaces_text. apply tokenize_fuel; unfold str_fuel; fold l; lia. }
  rewrite Ew in *. cbv zeta. split_and!; [done| |].
  - intros k w Hk Hw. apply H3; [done|]. by rewrite Z.sub_0_r.
  - intros k Hk. apply H2; lia.
Qed.

(** [parser_parse_line] is the tokenizer: on any line it stores the words
    of the line in order, at most [max_args] of them, each cut to
    [token_max - 1] bytes and terminated in its own row, points [argv] at
    them, returns their number and leaves the other rows alone. *)
Theorem parser_parse_line_correct line tokens argv max_args token_max :
  0 <= max_args -> 0 < token_max -> table_ok max_args token_max tokens ->
  max_args <= Z.of_nat (length argv) ->
  let '(argc, tokens', argv') := parser_parse_line (Some line) tokens argv max_args token_max in
  let ws := words (cstr line) in
  argc = Z.min max_args (Z.of_nat (length ws)) /\
  (forall k w, 0 <= k < argc -> ws !! Z.to_nat k = Some w ->
     cstr tokens'.[k] = take (Z.to_nat (token_max - 1)) w /\ argv'.[k] = k) /\
  (forall k, argc <= k -> tokens'.[k] = tokens.[k] /\ argv'.[k] = argv.[k]).
Proof. apply parse_line_words. Qed.

Definition demo_tokens : list (list Z) := repeat (repeat 0 64) 8.

Lemma demo_tokens_ok : table_ok 8 64 demo_tokens.
Proof.
  split; [simpl; lia|]. intros k Hk. unfold demo_tokens, aget.
  rewrite list_lookup_total_alt, (lookup_replicate_2 8 (repeat 0 64)) by lia. simpl. lia.
Qed.

Lemma parser_parse_line_correct_witness :
  (parser_parse_line (Some [32; 108; 115; 32; 34; 97; 32; 98; 34]) demo_tokens (repeat 0 8) 8 64).1.1 = 2.
Proof.
  pose proof (parser_parse_line_correct [32; 108; 115; 32; 34; 97; 32; 98; 34] demo_tokens
    (repeat 0 8) 8 64 ltac:(lia) ltac:(lia) demo_tokens_ok ltac:(simpl; lia)) as Hp.
  destruct (parser_parse_line _ _ _ _ _) as [[argc t] v]. destruct Hp as [-> _]. reflexivity.
Defined.

(** * Round trips *)

(** A word in single quotes with every byte escaped, and a line of them. *)
Definition quote_word (w : list Z) : list Z := 39 :: flat_map (fun c => [92; c]) w ++ [39].
Definition quote_line (ws : list (list Z)) : list Z := flat_map (fun w => quote_word w ++ [32]) ws.

Lemma read_quoted w s : read_tok 39 (flat_map (fun c => [92; c]) w ++ 39 :: s) = (w, s).
Proof.
  induction w as [|c w IH].
  - simpl. destruct s as [|d s]; reflexivity.
  - cbn [flat_map app]. rewrite read_tok_cons2. simpl. by rewrite IH.
Qed.

Lemma words_quoted ws : words (quote_line ws) = ws.
Proof.
  unfold words.
  assert (forall f g : nat, (length (quote_line ws) <= f)%nat -> tokenize f (quote_line ws) = ws) as Hg.
  { induction ws as [|w ws IH]; intros f g Hf; [by destruct f|].
    destruct f as [|f]; [simpl in Hf; lia|].
    assert (quote_line (w :: ws)
      = 39 :: flat_map (fun c => [92; c]) w ++ 39 :: (32 :: quote_line ws)) as E.
    { unfold quote_line, quote_word. simpl. by rewrite <- !app_assoc. }
    rewrite E in *. rewrite (tokenize_step _ 39 (flat_map (fun c => [92; c]) w ++ 39 :: 32 :: quote_line ws))
      by done.
    unfold first_tok. simpl. rewrite read_quoted. simpl. f_equal.
    rewrite <- tokenize_blanks. simpl. rewrite tokenize_blanks. apply (IH f f).
    simpl in Hf. rewrite length_app in Hf. simpl in Hf. lia. }
  by apply (Hg _ 0%nat).
Qed.

(** C35: Quoting round-trips: any words of nonzero bytes that fit the rows and
    the argument limit, written with every byte escaped inside quotes, are
    parsed back exactly, blanks, quotes and backslashes included. *)
Theorem parser_quote_roundtrip ws tokens argv max_args token_max :
  table_ok max_args token_max tokens -> max_args <= Z.of_nat (length argv) ->
  Z.of_nat (length ws) <= max_args ->
  Forall (fun w => Z.of_nat (length w) < token_max /\ Forall (fun c => c <> 0) w) ws ->
  0 < token_max ->
  let '(argc, tokens', _) := parser_parse_line (Some (quote_line ws)) tokens argv max_args token_max in
  argc = Z.of_nat (length ws) /\
  forall k w, ws !! k = Some w -> cstr tokens'.[Z.of_nat k] = w.
Proof.
  intros Htab Hv Hws Hall Ht.
  pose proof (parse_line_words (quote_line ws) tokens argv max_args token_max) as Hp.
  destruct (parser_parse_line _ _ _ _ _) as [[argc tokens'] argv'].
  assert (cstr (quote_line ws) = quote_line ws) as Ec.
  { assert (Forall (fun c => c <> 0) (quote_line ws)) as Hn.
    { clear -Hall. unfold quote_line, quote_word.
      induction Hall as [|w ws [_ Hw] _ IH]; simpl; [done|]. constructor; [done|].
      rewrite <- app_assoc. apply Forall_app. split.
      - induction Hw; simpl; by rewrite !Forall_cons.
      - simpl. by rewrite !Forall_cons. }
    by apply cstr_id. }
  rewrite Ec, words_quoted in Hp. destruct Hp as (H1 & H2 & _); [lia|done|done|done|].
  split; [lia|]. intros k w Hk. pose proof (lookup_lt_Some _ _ _ Hk).
  destruct (H2 (Z.of_nat k) w) as [-> _]; [lia|by rewrite Nat2Z.id|].
  apply take_ge. pose proof (Forall_lookup_1 _ _ _ _ Hall Hk) as [Hl _]. lia.
Qed.

Lemma parser_quote_roundtrip_witness :
  let '(argc, tokens', _) :=
    parser_parse_line (Some (quote_line [[97; 32; 39]; []])) demo_tokens (repeat 0 8) 8 64 in
  argc = 2 /\ cstr tokens'.[0] = [97; 32; 39].
Proof.
  pose proof (parser_quote_roundtrip [[97; 32; 39]; []] demo_tokens (repeat 0 8) 8 64
    demo_tokens_ok ltac:(simpl; lia) ltac:(simpl; lia)
    ltac:(repeat constructor; simpl; lia) ltac:(lia)) as Hp.
  destruct (parser_parse_line _ _ _ _ _) as [[argc t] v]. destruct Hp as [H1 H2].
  split; [exact H1|]. exact (H2 0%nat _ eq_refl).
Defined.

Definition dec_step (v c : Z) : Z := v * 10 + (c - 48).

Lemma dec_step_le v ds : 0 <= v -> Forall is_digit ds -> v <= foldl dec_step v ds.
Proof.
  intros Hv Hd. revert v Hv. induction Hd as [|c ds Hc _ IH]; intros v Hv; simpl; [lia|].
  unfold is_digit in Hc. assert (v <= dec_step v c) by (unfold dec_step; lia).
  specialize (IH (dec_step v c)). lia.
Qed.

Lemma integer_loop_spec f text i v h ds :
  0 <= i -> rest text i = ds -> Forall is_digit ds -> (length ds < f)%nat -> 0 <= v ->
  foldl dec_step v ds < 2147483648 ->
  integer_loop f text i v h = (foldl dec_step v ds, h || negb (bool_decide (ds = []))).
Proof.
  revert i v h ds. induction f as [|f IH]; intros i v h ds Hi <- Hd Hf Hv Hlt; [lia|]. simpl.
  destruct (decide (rd text i = 0)) as [E|E].
  - rewrite rest_nil by done. rewrite E. simpl. by rewrite orb_false_r.
  - rewrite rest_cons in * by done. apply Forall_cons in Hd as [Hc Hd]. unfold is_digit in Hc.
    rewrite (proj2 (Z.leb_le 48 _)), (proj2 (Z.leb_le _ 57)) by lia. simpl in *.
    fold (dec_step v (rd text i)) in *.
    assert (0 <= dec_step v (rd text i)) by (unfold dec_step; lia).
    pose proof (dec_step_le (dec_step v (rd text i)) _ ltac:(done) Hd).
    assert (s32 (dec_step v (rd text i)) = dec_step v (rd text i)) as ->.
    { unfold s32. rewrite u32_small by lia. case_if; lia. }
    rewrite (IH (i + 1) _ true (rest text (i + 1))) by (done || lia).
    by rewrite orb_true_r.
Qed.

(** [parser_parse_integer] reads back what [uint_to_str] printed, for
    every positive [int]. *)
Theorem parse_integer_roundtrip v buf n fallback :
  0 < v < 2147483648 -> 11 <= n <= Z.of_nat (length buf) ->
  parser_parse_integer (Some (uint_to_str v buf n)) fallback = v.
Proof.
  intros Hv Hn. destruct (uint_to_str_text v buf n) as (E & Hval & Hdig); [lia|lia|].
  unfold parser_parse_integer. set (t := uint_to_str v buf n) in *.
  assert (rest t 0 = decimal v) as Er by exact E.
  pose proof (decimal_length v) as Hlen.
  assert (rd t 0 <> 0 /\ is_digit (rd t 0)) as [Hnz Hd0].
  { pose proof (rest_step t 0 ltac:(lia)) as Hs. rewrite Er in Hs.
    destruct (rd t 0 =? 0) eqn:E0; bool_to_prop; [rewrite Hs in Hlen; simpl in Hlen; lia|].
    rewrite Hs in Hdig. by apply Forall_cons in Hdig as [? _]. }
  assert (skip_blanks (str_fuel t) t 0 = 0) as ->.
  { unfold str_fuel. cbn [skip_blanks]. unfold is_blank, is_digit in *.
    rewrite !(proj2 (Z.eqb_neq _ _)) by lia. done. }
  pose proof (cstr_length t) as Hcl. rewrite E in Hcl.
  change (dec_value (decimal v)) with (foldl dec_step 0 (decimal v)) in Hval.
  rewrite (integer_loop_spec _ _ _ _ _ (decimal v)) by (done || lia || unfold str_fuel; lia).
  rewrite Hval. rewrite (proj2 (Z.leb_gt v 0)) by lia.
  rewrite bool_decide_false; [done|]. intros Hnil. rewrite Hnil in Hlen. simpl in Hlen. lia.
Qed.

Lemma parse_integer_roundtrip_witness :
  parser_parse_integer (Some (uint_to_str 1234 (repeat 0 12) 12)) 7 = 1234.
Proof. apply parse_integer_roundtrip; simpl; lia. Defined.
