(* ===== verification/Ring.v ===== *)
(** Ring buffers.

    The pipe, the message queues and the kernel log all keep a fixed array with
    a start index and a count, and step indexes modulo the capacity.  This file
    relates such a ring to the list of its elements: writing at the head
    appends, advancing the tail removes the first element, and overwriting the
    tail of a full ring does both. *)
From S2P Require Import Prelude.
From Stdlib Require Import ZArith Lia.
From stdpp Require Import base numbers list.

Open Scope Z_scope.

(** The elements of a ring with cells [cell], oldest first. *)
Definition ring_list {A} (cell : Z -> A) (cap tail count : Z) : list A :=
  (fun i => cell ((tail + i) mod cap)) <$> seqZ 0 count.

(** Index of the next free cell. *)
Definition ring_head (cap tail count : Z) : Z := (tail + count) mod cap.

Section ring.
Context {A : Type}.
Implicit Types (cell : Z -> A) (cap tail count i : Z).

Lemma ring_list_length cell cap tail count :
  0 <= count -> Z.of_nat (length (ring_list cell cap tail count)) = count.
Proof. intros. unfold ring_list. rewrite length_fmap, length_seqZ. lia. Qed.

Lemma ring_list_lookup cell cap tail count i :
  0 <= i < count ->
  ring_list cell cap tail count !! Z.to_nat i = Some (cell ((tail + i) mod cap)).
Proof.
  intros. unfold ring_list. rewrite list_lookup_fmap, lookup_seqZ_lt by lia. simpl.
  do 4 f_equal. lia.
Qed.

Lemma ring_list_nil cell cap tail : ring_list cell cap tail 0 = [].
Proof. reflexivity. Qed.

Lemma ring_list_ext cell cell' cap tail count :
  (forall i, 0 <= i < count -> cell ((tail + i) mod cap) = cell' ((tail + i) mod cap)) ->
  ring_list cell cap tail count = ring_list cell' cap tail count.
Proof.
  intros H. apply list_fmap_ext. intros n x Hx. apply lookup_seqZ in Hx as [-> Hn].
  apply H. lia.
Qed.

(** Distinct offsets below the capacity hit distinct cells. *)
Lemma ring_index_inj cap tail i j :
  0 < cap -> 0 <= i < cap -> 0 <= j < cap ->
  (tail + i) mod cap = (tail + j) mod cap -> i = j.
Proof.
  intros Hc Hi Hj E.
  pose proof (Z.div_mod (tail + i) cap ltac:(lia)).
  pose proof (Z.div_mod (tail + j) cap ltac:(lia)).
  set (q := (tail + i) / cap - (tail + j) / cap).
  assert (i - j = cap * q) as Hd by (unfold q; lia).
  assert (q < 1) by nia. assert (-1 < q) by nia. assert (q = 0) by lia. nia.
Qed.

(** Writing the head cell of a ring that is not full appends. *)
Lemma ring_push cell cell' cap tail count x :
  0 <= count < cap ->
  cell' (ring_head cap tail count) = x ->
  (forall i, 0 <= i < cap -> i <> ring_head cap tail count -> cell' i = cell i) ->
  ring_list cell' cap tail (count + 1) = ring_list cell cap tail count ++ [x].
Proof.
  intros Hc Hx Hrest. unfold ring_list at 1.
  rewrite seqZ_app by lia. rewrite fmap_app. f_equal.
  - apply ring_list_ext. intros i Hi. apply Hrest; [apply Z.mod_pos_bound; lia|].
    intros E. apply ring_index_inj in E; lia.
  - simpl. f_equal. exact Hx.
Qed.

(** Reading the tail cell and advancing it removes the first element. *)
Lemma ring_pop cell cap tail count :
  0 < count <= cap -> 0 <= tail < cap ->
  ring_list cell cap tail count
  = cell tail :: ring_list cell cap ((tail + 1) mod cap) (count - 1).
Proof.
  intros Hc Ht. unfold ring_list at 1. rewrite seqZ_cons by lia. simpl. f_equal.
  - by rewrite Z.add_0_r, Z.mod_small by lia.
  - unfold ring_list. rewrite <- (fmap_add_seqZ 1 0), <- list_fmap_compose, Z.sub_1_r.
    apply list_fmap_ext. intros n i _. simpl. f_equal.
    rewrite Zplus_mod_idemp_l. f_equal. lia.
Qed.

Lemma ring_drop cell cap (k : nat) tail count :
  0 <= tail < cap -> 0 <= count <= cap -> Z.of_nat k <= count ->
  drop k (ring_list cell cap tail count)
  = ring_list cell cap ((tail + Z.of_nat k) mod cap) (count - Z.of_nat k).
Proof.
  revert tail count. induction k as [|k IH]; intros t c Ht Hc Hk.
  - by rewrite Z.add_0_r, Z.sub_0_r, Z.mod_small by lia.
  - rewrite ring_pop by lia. simpl drop.
    assert (0 <= (t + 1) mod cap < cap) by (apply Z.mod_pos_bound; lia).
    rewrite IH by lia. rewrite Zplus_mod_idemp_l. f_equal; [f_equal; lia|lia].
Qed.

(** A full ring that overwrites its tail drops the oldest element. *)
Lemma ring_overwrite cell cell' cap tail x :
  0 < cap -> 0 <= tail < cap -> cell' tail = x ->
  (forall i, 0 <= i < cap -> i <> tail -> cell' i = cell i) ->
  ring_list cell' cap ((tail + 1) mod cap) cap = drop 1 (ring_list cell cap tail cap) ++ [x].
Proof.
  intros Hc Ht Hx Hrest. rewrite (ring_pop cell) by lia. simpl.
  replace cap with (cap - 1 + 1) at 3 by lia.
  apply ring_push; [lia| |].
  - unfold ring_head. rewrite Zplus_mod_idemp_l.
    replace (tail + 1 + (cap - 1)) with (tail + 1 * cap) by lia.
    by rewrite Z.mod_add, Z.mod_small by lia.
  - intros i Hi Hne. apply Hrest; [done|]. intros ->. apply Hne.
    unfold ring_head. rewrite Zplus_mod_idemp_l.
    replace (tail + 1 + (cap - 1)) with (tail + 1 * cap) by lia.
    by rewrite Z.mod_add, Z.mod_small by lia.
Qed.

End ring.
