(* ===== verification/Vnode.v ===== *)
(** VFS nodes and the constants of [include/fs/vfs.h]: what the back ends (pipes,
    message queues, the RAM file system) fill in and the VFS layer reads. *)
From S2P Require Import Prelude.
From Stdlib Require Import ZArith Lia.
From stdpp Require Import base numbers list.

Open Scope Z_scope.

Definition VFS_FLAG_FILE : Z := 1.
Definition VFS_FLAG_DIR : Z := 2.
Definition VFS_FLAG_DYNAMIC : Z := 16.
Definition VFS_NAME_MAX : Z := 64.
Definition VFS_PATH_MAX : Z := 256.
Definition VFS_MAX_FD : Z := 32.
Definition VFS_MAX_MOUNTS : Z := 16.
Definition VFS_SEEK_SET : Z := 0.
Definition VFS_SEEK_CUR : Z := 1.
Definition VFS_SEEK_END : Z := 2.
Definition VFS_O_RDONLY : Z := 1.
Definition VFS_O_WRONLY : Z := 2.
Definition VFS_O_APPEND : Z := 16.
Definition VFS_O_CREAT : Z := 32.
Definition VFS_O_TRUNC : Z := 64.
Definition VFS_O_EXCL : Z := 128.
Definition VFS_O_DIRECTORY : Z := 256.
Definition VFS_O_NONBLOCK : Z := 512.
Definition VFS_O_RDWR : Z := Z.lor VFS_O_RDONLY VFS_O_WRONLY.
Definition VFS_O_ACCMODE : Z := Z.lor VFS_O_RDONLY VFS_O_WRONLY.
Definition VFS_MODE_IRUSR : Z := 256.
Definition VFS_MODE_IWUSR : Z := 128.
Definition VFS_MODE_IXUSR : Z := 64.
Definition VFS_MODE_IRGRP : Z := 32.
Definition VFS_MODE_IWGRP : Z := 16.
Definition VFS_MODE_IXGRP : Z := 8.
Definition VFS_MODE_IROTH : Z := 4.
Definition VFS_MODE_IWOTH : Z := 2.
Definition VFS_MODE_IXOTH : Z := 1.
Definition VFS_MODE_FILE_DEFAULT : Z := 420.
Definition VFS_MODE_DIR_DEFAULT : Z := 493.
Definition VFS_MODE_ROOT_DEFAULT : Z := 511.

(** Which operation table a node points to; [OpsOther] is none of these. *)
Inductive vfs_ops := OpsPipe | OpsMqueue | OpsRamfsFile | OpsRamfsVdir | OpsRamfsDir | OpsOther.

#[export] Instance vfs_ops_eq_dec : EqDecision vfs_ops.
Proof. solve_decision. Defined.

(** [n_name] is the name up to its terminator, [n_impl] and [n_mountpoint] are
    addresses (0 is NULL). *)
Record vfs_node := VfsNode {
  n_name : list Z;
  n_flags : Z;
  n_size : Z;
  n_ref_count : Z;
  n_impl : Z;
  n_ops : vfs_ops;
  n_mountpoint : Z;
}.

#[export] Instance vfs_node_inhabited : Inhabited vfs_node := populate (VfsNode [] 0 0 0 0 OpsOther 0).
#[export] Instance vfs_node_fields : Fields vfs_node :=
  fun n => VfsNode (n_name n) (n_flags n) (n_size n) (n_ref_count n) (n_impl n) (n_ops n) (n_mountpoint n).

Definition has_flag (flags f : Z) : bool := negb (Z.land flags f =? 0).
Definition dynamic (n : vfs_node) : bool := has_flag (n_flags n) VFS_FLAG_DYNAMIC.
Definition is_dir (n : vfs_node) : bool := has_flag (n_flags n) VFS_FLAG_DIR.

(** [sizeof(vfs_node_t)]: 64 name bytes, three words, padding, three pointers. *)
Definition sizeof_vfs_node : Z := 104.

Definition set_impl (n : vfs_node) (p : Z) : vfs_node :=
  VfsNode (n_name n) (n_flags n) (n_size n) (n_ref_count n) p (n_ops n) (n_mountpoint n).
