(* ===== verification/Pipe.v ===== *)
(** Pipes: [fs/pipe.c].

    A pipe is a shared ring of 4096 bytes with two end nodes.  The shared
    structures live in a small store addressed by pointers, because both ends
    alias the same ring and closing frees it; blocks come from a heap known
    only through its interface.  A blocking operation is a loop whose sleeps
    let other tasks change the store. *)
From S2P Require Import Prelude.
From S2P Require Import Interfaces.
From S2P Require Import Ring.
From S2P Require Import Vnode.
From Stdlib Require Import ZArith Lia.
From stdpp Require Import base numbers list gmap.

Open Scope Z_scope.
Open Scope lyth_scope.

Definition PIPE_BUFFER_SIZE : Z := 4096.
Definition PIPE_E_WOULD_BLOCK : Z := -2.
Definition PIPE_E_BROKEN : Z := -3.
Definition PIPE_FLAG_NONBLOCK : Z := 1.

Record pipe_shared := PipeShared {
  buffer : list Z;
  head : Z;
  tail : Z;
  count : Z;
  readers_open : bool;
  writers_open : bool;
}.

Record pipe_end := PipeEnd { shared : Z; is_read_end : bool; nonblock : bool }.

Definition sizeof_pipe_shared : Z := 4116.
Definition sizeof_pipe_end : Z := 16.

(** What one pass of an operation's loop ends with. *)
Inductive outcome (R : Type) := Return (r : R) | Sleep.
Arguments Return {R} r.
Arguments Sleep {R}.

(** ** One pass of the loops *)

(** [for (i = 0; i < take; i++) { buf[i] = buffer[tail]; tail = (tail+1) % SIZE; }] *)
Definition copy_out (sh : pipe_shared) (take : Z) : list Z * Z :=
  for_loop (fun _ st => (st.1 ++ [(buffer sh).[st.2]], (st.2 + 1) mod PIPE_BUFFER_SIZE))
           (Z.to_nat take) 0 ([], tail sh).

(** [for (i = 0; i < put; i++) { buffer[head] = buf[written+i]; head = (head+1) % SIZE; }] *)
Definition copy_in (sh : pipe_shared) (buf : list Z) (written put : Z) : list Z * Z :=
  for_loop (fun i st => (st.1.[st.2 <- buf.[written + i]], (st.2 + 1) mod PIPE_BUFFER_SIZE))
           (Z.to_nat put) 0 (buffer sh, head sh).

(** Body of the [for (;;)] of [pipe_read_op]: return value, bytes stored in
    the caller's buffer, and the shared state after. *)
Definition pipe_read_pass (sh : pipe_shared) (nonblk : bool) (size : Z)
    : outcome (Z * list Z * pipe_shared) :=
  if 0 <? count sh then
    let take := if size <? count sh then size else count sh in
    let '(bytes, tail') := copy_out sh take in
    Return (take, bytes,
            PipeShared (buffer sh) (head sh) tail' (count sh - take)
                       (readers_open sh) (writers_open sh))
  else if negb (writers_open sh) then Return (0, [], sh)
  else if nonblk then Return (PIPE_E_WOULD_BLOCK, [], sh)
  else Sleep.

(** Body of the [for (;;)] of [pipe_write_op]; [written] is the loop variable. *)
Definition pipe_write_pass (sh : pipe_shared) (nonblk : bool) (written size : Z) (buf : list Z)
    : outcome (Z * pipe_shared) :=
  if negb (readers_open sh) then
    Return (if 0 <? written then written else PIPE_E_BROKEN, sh)
  else if count sh <? PIPE_BUFFER_SIZE then
    let space := PIPE_BUFFER_SIZE - count sh in
    let remain := size - written in
    let put := if remain <? space then remain else space in
    let '(buffer', head') := copy_in sh buf written put in
    (* every branch after the copy returns [written] *)
    Return (written + put,
            PipeShared buffer' head' (tail sh) (count sh + put)
                       (readers_open sh) (writers_open sh))
  else if nonblk then
    Return (if 0 <? written then written else PIPE_E_WOULD_BLOCK, sh)
  else if 0 <? written then Return (written, sh)
  else Sleep.

(** ** The store *)

Section store.
Context {H : Type} `{KAllocator H}.

Record world := World {
  w_heap : H;
  w_nodes : gmap Z vfs_node;
  w_ends : gmap Z pipe_end;
  w_pipes : gmap Z pipe_shared;
}.

Definition set_heap (w : world) (h : H) : world := World h (w_nodes w) (w_ends w) (w_pipes w).
Definition set_pipe (w : world) (p : Z) (sh : pipe_shared) : world :=
  World (w_heap w) (w_nodes w) (w_ends w) (<[p := sh]> (w_pipes w)).

(** [end->shared] when the pointers are valid. *)
Definition end_of (w : world) (node : Z) : option (Z * pipe_end) :=
  n ← w_nodes w !! node;
  e ← w_ends w !! n_impl n;
  Some (n_impl n, e).

(** [pipe_read_op]: [env] lists what other tasks do during successive sleeps;
    [None] means the reader is still blocked after all of them. *)
Fixpoint pipe_read_loop (env : list (world -> world)) (w : world) (e : Z) (size : Z)
    : option (Z * list Z * world) :=
  match w_ends w !! e with
  | None => Some (-1, [], w)
  | Some pe =>
    match w_pipes w !! shared pe with
    | None => Some (-1, [], w)
    | Some sh =>
      match pipe_read_pass sh (nonblock pe) size with
      | Return (r, bytes, sh') => Some (r, bytes, set_pipe w (shared pe) sh')
      | Sleep => match env with
                 | [] => None
                 | step :: env' => pipe_read_loop env' (step w) e size
                 end
      end
    end
  end.

Definition pipe_read_op (env : list (world -> world)) (w : world) (node size : Z)
    (buf_valid : bool) : option (Z * list Z * world) :=
  if (node =? 0) || negb buf_valid || (size =? 0) then Some (-1, [], w)
  else match end_of w node with
       | None => Some (-1, [], w)
       | Some (e, pe) =>
           if (shared pe =? 0) || negb (is_read_end pe) then Some (-1, [], w)
           else pipe_read_loop env w e size
       end.

Fixpoint pipe_write_loop (env : list (world -> world)) (w : world) (e size : Z) (buf : list Z)
    : option (Z * world) :=
  match w_ends w !! e with
  | None => Some (-1, w)
  | Some pe =>
    match w_pipes w !! shared pe with
    | None => Some (-1, w)
    | Some sh =>
      match pipe_write_pass sh (nonblock pe) 0 size buf with
      | Return (r, sh') => Some (r, set_pipe w (shared pe) sh')
      | Sleep => match env with
                 | [] => None
                 | step :: env' => pipe_write_loop env' (step w) e size buf
                 end
      end
    end
  end.

Definition pipe_write_op (env : list (world -> world)) (w : world) (node size : Z)
    (buf : list Z) (buf_valid : bool) : option (Z * world) :=
  if (node =? 0) || negb buf_valid || (size =? 0) then Some (0, w)
  else match end_of w node with
       | None => Some (-1, w)
       | Some (e, pe) =>
           if (shared pe =? 0) || is_read_end pe then Some (-1, w)
           else pipe_write_loop env w e size buf
       end.

Definition kfree_w (w : world) (p : Z) : world := set_heap w (ka_free (w_heap w) p).

Definition pipe_close_op (w : world) (node : Z) : world :=
  match w_nodes w !! node with
  | None => w
  | Some n =>
    match w_ends w !! n_impl n with
    | None => w
    | Some pe =>
      let w :=
        match w_pipes w !! shared pe with
        | None => w
        | Some sh =>
          let sh := if is_read_end pe
                    then PipeShared (buffer sh) (head sh) (tail sh) (count sh) false (writers_open sh)
                    else PipeShared (buffer sh) (head sh) (tail sh) (count sh) (readers_open sh) false in
          let w := set_pipe w (shared pe) sh in
          if negb (readers_open sh) && negb (writers_open sh)
          then kfree_w (World (w_heap w) (w_nodes w) (w_ends w) (delete (shared pe) (w_pipes w)))
                       (shared pe)
          else w
        end in
      let w := kfree_w w (n_impl n) in
      World (w_heap w) (<[node := set_impl n 0]> (w_nodes w)) (delete (n_impl n) (w_ends w))
            (w_pipes w)
    end
  end.

Definition pipe_make_end_node (w : world) (name : list Z) (sh : Z) (read_end nonblk : bool)
    : world * Z :=
  let '(h1, node) := ka_malloc (w_heap w) sizeof_vfs_node in
  let w := set_heap w h1 in
  if node =? 0 then (w, 0)
  else
    let '(h2, e) := ka_malloc (w_heap w) sizeof_pipe_end in
    let w := set_heap w h2 in
    if e =? 0 then (kfree_w w node, 0)
    else
      let n := VfsNode (take (Z.to_nat (VFS_NAME_MAX - 1)) name)
                       (Z.lor VFS_FLAG_FILE VFS_FLAG_DYNAMIC) 0 0 e OpsPipe 0 in
      (World (w_heap w) (<[node := n]> (w_nodes w))
             (<[e := PipeEnd sh read_end nonblk]> (w_ends w)) (w_pipes w), node).

(** ["pipe-r"] and ["pipe-w"]. *)
Definition name_pipe_r : list Z := [112; 105; 112; 101; 45; 114].
Definition name_pipe_w : list Z := [112; 105; 112; 101; 45; 119].

(** [pipe_create]: the result code and the two nodes stored through the output
    pointers.  The ring memory is whatever the heap returned ([mem]). *)
Definition pipe_create (w : world) (mem : list Z) (outs_valid : bool) (flags : Z)
    : world * Z * option (Z * Z) :=
  if negb outs_valid then (w, -1, None)
  else
    let '(h, sh) := ka_malloc (w_heap w) sizeof_pipe_shared in
    let w := set_heap w h in
    if sh =? 0 then (w, -1, None)
    else
      let w := set_pipe w sh (PipeShared mem 0 0 0 true true) in
      let nonblk := negb (Z.land flags PIPE_FLAG_NONBLOCK =? 0) in
      let '(w, rd) := pipe_make_end_node w name_pipe_r sh true nonblk in
      if rd =? 0 then
        (kfree_w (World (w_heap w) (w_nodes w) (w_ends w) (delete sh (w_pipes w))) sh, -1, None)
      else
        let '(w, wr) := pipe_make_end_node w name_pipe_w sh false nonblk in
        if wr =? 0 then
          let w := pipe_close_op w rd in
          (kfree_w (World (w_heap w) (delete rd (w_nodes w)) (w_ends w) (w_pipes w)) rd, -1, None)
        else (w, 0, Some (rd, wr)).

Definition pipe_node_is_pipe (w : world) (node : Z) : bool :=
  match w_nodes w !! node with
  | None => false
  | Some n => bool_decide (n_ops n = OpsPipe)
  end.

(** The ring behind a pipe node, and its end. *)
Definition pipe_of (w : world) (node : Z) : option (pipe_end * pipe_shared) :=
  '(_, pe) ← end_of w node;
  sh ← w_pipes w !! shared pe;
  Some (pe, sh).

Definition pipe_read_ready (w : world) (node : Z) : bool :=
  if negb (pipe_node_is_pipe w node) then false
  else match pipe_of w node with
       | None => false
       | Some (pe, sh) =>
           if negb (is_read_end pe) then false
           else (0 <? count sh) || negb (writers_open sh)
       end.

Definition pipe_write_ready (w : world) (node : Z) : bool :=
  if negb (pipe_node_is_pipe w node) then false
  else match pipe_of w node with
       | None => false
       | Some (pe, sh) =>
           if is_read_end pe then false
           else readers_open sh && (count sh <? PIPE_BUFFER_SIZE)
       end.

Definition pipe_write_has_readers (w : world) (node : Z) : bool :=
  if negb (pipe_node_is_pipe w node) then false
  else match pipe_of w node with
       | None => false
       | Some (pe, sh) => if is_read_end pe then false else readers_open sh
       end.

End store.
Arguments world : clear implicits.

(** * Specification *)

(** The ring invariant: indexes in range and the head [count] bytes after the
    tail. *)
Record pipe_ok (sh : pipe_shared) : Prop := PipeOk {
  ok_len : Z.of_nat (length (buffer sh)) = PIPE_BUFFER_SIZE;
  ok_tail : 0 <= tail sh < PIPE_BUFFER_SIZE;
  ok_count : 0 <= count sh <= PIPE_BUFFER_SIZE;
  ok_head : head sh = ring_head PIPE_BUFFER_SIZE (tail sh) (count sh);
}.

(** The bytes in the pipe, oldest first. *)
Definition contents (sh : pipe_shared) : list Z :=
  ring_list (aget (buffer sh)) PIPE_BUFFER_SIZE (tail sh) (count sh).

Definition close_end (sh : pipe_shared) (read_end : bool) : pipe_shared :=
  PipeShared (buffer sh) (head sh) (tail sh) (count sh)
             (if read_end then false else readers_open sh)
             (if read_end then writers_open sh else false).

(** Completed operations in any order: [pipe_exec sh wr rd sh'] runs from [sh]
    to [sh'], accepting the bytes [wr] and delivering the bytes [rd]. *)
Inductive pipe_exec : pipe_shared -> list Z -> list Z -> pipe_shared -> Prop :=
| exec_nil sh : pipe_exec sh [] [] sh
| exec_read sh nb size r bytes sh1 wr rd sh2 :
    0 < size -> pipe_read_pass sh nb size = Return (r, bytes, sh1) ->
    pipe_exec sh1 wr rd sh2 -> pipe_exec sh wr (bytes ++ rd) sh2
| exec_write sh nb buf r sh1 wr rd sh2 :
    buf <> [] ->
    pipe_write_pass sh nb 0 (Z.of_nat (length buf)) buf = Return (r, sh1) ->
    pipe_exec sh1 wr rd sh2 -> pipe_exec sh (take (Z.to_nat r) buf ++ wr) rd sh2
| exec_close sh read_end wr rd sh2 :
    pipe_exec (close_end sh read_end) wr rd sh2 -> pipe_exec sh wr rd sh2.

(** * Ring lemmas *)

Lemma contents_length sh : pipe_ok sh -> Z.of_nat (length (contents sh)) = count sh.
Proof. intros [_ _ Hc _]. apply ring_list_length. lia. Qed.

Lemma copy_out_spec sh n :
  pipe_ok sh -> 0 <= n <= count sh ->
  copy_out sh n = (take (Z.to_nat n) (contents sh), (tail sh + n) mod PIPE_BUFFER_SIZE).
Proof.
  intros Hok Hn. pose proof Hok as [_ Ht Hc _].
  pose (I := fun (j : Z) (st : list Z * Z) =>
    st = (take (Z.to_nat j) (contents sh), (tail sh + j) mod PIPE_BUFFER_SIZE)).
  enough (I (0 + Z.of_nat (Z.to_nat n)) (copy_out sh n)) as HI.
  { unfold I in HI. by replace (0 + Z.of_nat (Z.to_nat n)) with n in HI by lia. }
  unfold copy_out. apply (for_loop_ind I); unfold I.
  - rewrite Z.add_0_r, Z.mod_small by lia. done.
  - intros j st Hj ->. simpl. f_equal.
    + replace (Z.to_nat (j + 1)) with (S (Z.to_nat j)) by lia.
      symmetry. apply take_S_r. apply ring_list_lookup. lia.
    + rewrite Zplus_mod_idemp_l. f_equal. lia.
Qed.

Lemma copy_in_spec sh buf n :
  pipe_ok sh -> 0 <= n <= PIPE_BUFFER_SIZE - count sh -> n <= Z.of_nat (length buf) ->
  exists buffer' head', copy_in sh buf 0 n = (buffer', head') /\
    length buffer' = length (buffer sh) /\
    head' = ring_head PIPE_BUFFER_SIZE (tail sh) (count sh + n) /\
    ring_list (aget buffer') PIPE_BUFFER_SIZE (tail sh) (count sh + n)
    = contents sh ++ take (Z.to_nat n) buf.
Proof.
  intros [Hl Ht Hc Hh] Hn Hb. unfold PIPE_BUFFER_SIZE in *.
  pose (I := fun (j : Z) (st : list Z * Z) =>
    length st.1 = length (buffer sh) /\ st.2 = ring_head 4096 (tail sh) (count sh + j) /\
    ring_list (aget st.1) 4096 (tail sh) (count sh + j) = contents sh ++ take (Z.to_nat j) buf).
  enough (I (0 + Z.of_nat (Z.to_nat n)) (copy_in sh buf 0 n)) as HI.
  { unfold I in HI. replace (0 + Z.of_nat (Z.to_nat n)) with n in HI by lia.
    destruct (copy_in sh buf 0 n) as [b' h']. exists b', h'. naive_solver. }
  unfold copy_in. apply (for_loop_ind I); unfold I.
  - rewrite Z.add_0_r. simpl. rewrite app_nil_r. done.
  - intros j [b h] Hj (Hlen & -> & Hring). simpl in *. split_and!.
    + by rewrite aset_length.
    + unfold ring_head. rewrite Zplus_mod_idemp_l. f_equal. lia.
    + replace (Z.to_nat (j + 1)) with (S (Z.to_nat j)) by lia.
      erewrite take_S_r by (apply aget_lookup; lia). rewrite app_assoc, <- Hring, Z.add_assoc.
      assert (0 <= ring_head 4096 (tail sh) (count sh + j) < 4096)
        by (apply Z.mod_pos_bound; lia).
      apply ring_push; [lia| |].
      * apply aget_aset_eq. lia.
      * intros i Hi Hne. apply aget_aset_ne; lia.
Qed.

Lemma read_pass_spec sh nb size r bytes sh' :
  pipe_ok sh -> 0 < size -> pipe_read_pass sh nb size = Return (r, bytes, sh') ->
  pipe_ok sh' /\ contents sh = bytes ++ contents sh'.
Proof.
  intros Hok Hs. unfold pipe_read_pass. case_if.
  - set (n := if size <? count sh then size else count sh).
    assert (0 < n <= count sh) as Hn by (unfold n; case_if; lia).
    rewrite copy_out_spec by (done || lia). intros [= <- <- <-].
    destruct Hok as [Hl Ht Hc Hh]. unfold PIPE_BUFFER_SIZE in *. split.
    + constructor; unfold PIPE_BUFFER_SIZE; simpl; [done|zlia|lia|].
      rewrite Hh. unfold ring_head. rewrite Zplus_mod_idemp_l. f_equal. lia.
    + rewrite <- (take_drop (Z.to_nat n) (contents sh)) at 1. f_equal.
      unfold contents, PIPE_BUFFER_SIZE; simpl. rewrite ring_drop by lia.
      by rewrite Z2Nat.id by lia.
  - case_if; [|destruct nb; [|done]]; intros [= <- <- <-]; done.
Qed.

Lemma write_pass_spec sh nb buf r sh' :
  pipe_ok sh -> buf <> [] ->
  pipe_write_pass sh nb 0 (Z.of_nat (length buf)) buf = Return (r, sh') ->
  pipe_ok sh' /\ contents sh' = contents sh ++ take (Z.to_nat r) buf.
Proof.
  intros Hok Hne. assert (0 < Z.of_nat (length buf)) by (destruct buf; simpl in *; [done|lia]).
  unfold pipe_write_pass. simpl. case_if.
  { intros [= <- <-]. simpl. by rewrite app_nil_r. }
  case_if.
  - rewrite Z.sub_0_r. set (n := if _ <? _ then _ else _).
    assert (0 < n <= PIPE_BUFFER_SIZE - count sh /\ n <= Z.of_nat (length buf)) as Hn
      by (unfold n; case_if; lia).
    destruct (copy_in_spec sh buf n Hok ltac:(lia) ltac:(lia)) as (b' & h' & -> & Hl & -> & Hr).
    intros [= <- <-]. destruct Hok as [Hlen Ht Hc Hh]. split; [|exact Hr].
    constructor; simpl; [lia|done|lia|done].
  - destruct nb; [|done]. intros [= <- <-]. simpl. by rewrite app_nil_r.
Qed.

Lemma close_end_ok sh b : pipe_ok sh -> pipe_ok (close_end sh b).
Proof. intros []. by constructor. Qed.

(** A pipe just created, and one holding three bytes. *)
Definition fresh_pipe : pipe_shared := PipeShared (repeat 0 4096) 0 0 0 true true.

Lemma fresh_pipe_ok : pipe_ok fresh_pipe.
Proof.
  constructor; unfold PIPE_BUFFER_SIZE; [|simpl; lia|simpl; lia|reflexivity].
  unfold fresh_pipe, buffer. rewrite repeat_length. reflexivity.
Qed.

(** * Theorems on the ring *)

(** C27: Along any sequence of completed reads, writes and closes the pipe is a
    FIFO byte stream: the bytes it held plus the bytes accepted are, in order,
    the bytes delivered plus the bytes it still holds, and the ring invariant
    is kept. *)
Theorem pipe_fifo sh wr rd sh' :
  pipe_ok sh -> pipe_exec sh wr rd sh' ->
  pipe_ok sh' /\ contents sh ++ wr = rd ++ contents sh'.
Proof.
  intros Hok Hex. induction Hex as
    [sh | sh nb size r bytes sh1 wr rd sh2 Hs Hp _ IH | sh nb buf r sh1 wr rd sh2 Hb Hp _ IH
    | sh b wr rd sh2 _ IH].
  - by rewrite app_nil_r.
  - destruct (read_pass_spec _ _ _ _ _ _ Hok Hs Hp) as [Hok1 ->].
    destruct (IH Hok1) as [? E]. split; [done|]. by rewrite <- !app_assoc, E.
  - destruct (write_pass_spec _ _ _ _ _ Hok Hb Hp) as [Hok1 E1].
    destruct (IH Hok1) as [? E]. split; [done|]. by rewrite <- E, E1, app_assoc.
  - apply IH. by apply close_end_ok.
Qed.

Lemma pipe_fifo_witness :
  exists sh', pipe_exec fresh_pipe [7; 8; 9] [7; 8] sh' /\
    pipe_ok sh' /\ [] ++ [7; 8; 9] = [7; 8] ++ contents sh'.
Proof.
  eexists. refine ((fun Hex => conj Hex (pipe_fifo fresh_pipe [7; 8; 9] [7; 8] _ fresh_pipe_ok Hex)) _).
  eapply (exec_write fresh_pipe true [7; 8; 9] 3 _ [] [7; 8]); [discriminate|vm_compute; reflexivity|].
  eapply (exec_read _ true 2 2 [7; 8] _ [] []); [lia|vm_compute; reflexivity|]. constructor.
Defined.

(** One pass of [pipe_write_op] on a nonempty buffer, on every branch: a
    pipe with no reader is broken, a full one blocks or reports would-block,
    and otherwise exactly the bytes that fit are appended and counted. *)
Theorem pipe_write_pass_total sh nb buf :
  pipe_ok sh -> buf <> [] ->
  let size := Z.of_nat (length buf) in
  let space := PIPE_BUFFER_SIZE - count sh in
  match pipe_write_pass sh nb 0 size buf with
  | Sleep => readers_open sh = true /\ space = 0 /\ nb = false
  | Return (r, sh') =>
      (r = PIPE_E_BROKEN /\ readers_open sh = false /\ sh' = sh) \/
      (r = PIPE_E_WOULD_BLOCK /\ readers_open sh = true /\ space = 0 /\ nb = true /\ sh' = sh) \/
      (readers_open sh = true /\ 0 < space /\ r = Z.min size space /\
       contents sh' = contents sh ++ take (Z.to_nat r) buf)
  end.
Proof.
  intros Hok Hne size space. pose proof (ok_count _ Hok) as Hc.
  destruct (pipe_write_pass sh nb 0 size buf) as [[r sh']|] eqn:Ep.
  - destruct (write_pass_spec _ _ _ _ _ Hok Hne Ep) as [_ Hcont].
    revert Ep. unfold pipe_write_pass. simpl. case_if; [intros [= <- <-]; auto|].
    case_if.
    + destruct (copy_in _ _ _ _). intros [= <- <-]. right; right.
      unfold space. split_and!; [done|lia| |exact Hcont]. rewrite Z.sub_0_r. case_if; lia.
    + destruct nb; [|done]. intros [= <- <-]. right; left. unfold space. split_and!; try done; lia.
  - revert Ep. unfold pipe_write_pass. simpl. case_if; [done|].
    case_if; [by destruct (copy_in _ _ _ _)|]. destruct nb; [done|].
    intros _. unfold space. split_and!; try done; lia.
Qed.

Lemma pipe_write_pass_total_witness :
  match pipe_write_pass fresh_pipe false 0 2 [5; 6] with
  | Sleep => False
  | Return (r, sh') => r = 2 /\ contents sh' = [5; 6]
  end.
Proof.
  pose proof (pipe_write_pass_total fresh_pipe false [5; 6] fresh_pipe_ok ltac:(discriminate)) as H.
  vm_compute in H. vm_compute.
  destruct H as [(H & _)|[(H & _)|(_ & _ & H1 & H2)]]; [discriminate|discriminate|done].
Defined.

(** * Readiness and life cycle *)

Section lifecycle.
Context {H : Type} `{KAllocatorLaws H}.
Implicit Types (w : world H).

(** Every structure of the store is a live heap block, and the three kinds of
    structure do not share addresses. *)
Record tracked w : Prop := Tracked {
  tr_live : dom (w_nodes w) ∪ dom (w_ends w) ∪ dom (w_pipes w) ⊆ ka_live (w_heap w);
  tr_ends : dom (w_nodes w) ## dom (w_ends w);
  tr_pipes : dom (w_nodes w) ∪ dom (w_ends w) ## dom (w_pipes w);
}.

(** A node with a valid end and ring. *)
Definition valid_node w (node : Z) (pe : pipe_end) (sh : pipe_shared) : Prop :=
  node <> 0 /\ shared pe <> 0 /\ pipe_node_is_pipe w node = true /\
  pipe_of w node = Some (pe, sh).

Lemma valid_node_inv w node pe sh :
  valid_node w node pe sh ->
  exists e, end_of w node = Some (e, pe) /\ w_ends w !! e = Some pe /\
    w_pipes w !! shared pe = Some sh.
Proof.
  intros (_ & _ & _ & Hp). unfold pipe_of in Hp.
  destruct (end_of w node) as [[e pe']|] eqn:He; simpl in Hp; [|done].
  destruct (w_pipes w !! shared pe') eqn:Hs; simpl in Hp; [|done].
  injection Hp as -> ->. exists e. split_and!; [done| |done].
  unfold end_of in He. destruct (w_nodes w !! node) as [n|]; simpl in He; [|done].
  destruct (w_ends w !! n_impl n) eqn:Hn; simpl in He; [|done]. by injection He as <- <-.
Qed.

Lemma make_end_fail w name sh re nb w' :
  pipe_make_end_node w name sh re nb = (w', 0) ->
  ka_live (w_heap w') = ka_live (w_heap w) /\ w_nodes w' = w_nodes w /\
  w_ends w' = w_ends w /\ w_pipes w' = w_pipes w.
Proof.
  unfold pipe_make_end_node. destruct (ka_malloc (w_heap w) _) as [h1 node] eqn:E1. simpl.
  case_if.
  - intros [= <-]. simpl. subst. by rewrite (ka_malloc_fail _ _ _ E1).
  - destruct (ka_malloc h1 _) as [h2 e] eqn:E2. case_if; [|by intros [= <- ->]].
    subst. intros [= <-]. simpl. split_and!; try done.
    destruct (ka_malloc_fresh _ _ _ _ E1) as [Hf Hl]; [done|].
    rewrite ka_free_live; rewrite (ka_malloc_fail _ _ _ E2), Hl; set_solver.
Qed.

Lemma make_end_ok w name sh re nb w' node :
  pipe_make_end_node w name sh re nb = (w', node) -> node <> 0 ->
  exists e n, e <> node /\ node ∉ ka_live (w_heap w) /\ e ∉ ka_live (w_heap w) /\
    ka_live (w_heap w') = {[e; node]} ∪ ka_live (w_heap w) /\
    n_impl n = e /\ n_ops n = OpsPipe /\
    w_nodes w' = <[node := n]> (w_nodes w) /\
    w_ends w' = <[e := PipeEnd sh re nb]> (w_ends w) /\ w_pipes w' = w_pipes w.
Proof.
  unfold pipe_make_end_node. destruct (ka_malloc (w_heap w) _) as [h1 nd] eqn:E1. simpl.
  case_if; [by intros [= <- <-]|].
  destruct (ka_malloc h1 _) as [h2 e] eqn:E2. case_if; [by intros [= <- <-]|].
  intros [= <- <-] _. destruct (ka_malloc_fresh _ _ _ _ E1) as [Hf Hl]; [done|].
  destruct (ka_malloc_fresh _ _ _ _ E2) as [Hf2 Hl2]; [done|]. rewrite Hl in Hf2, Hl2.
  eexists e, (VfsNode _ _ _ _ e OpsPipe _). split_and!; [set_solver|done|set_solver| |done..].
  simpl. rewrite Hl2. set_solver.
Qed.

(** Closing one end of a pipe whose other side is as given. *)
Lemma close_op_spec w node n pe sh :
  w_nodes w !! node = Some n -> w_ends w !! n_impl n = Some pe ->
  w_pipes w !! shared pe = Some sh ->
  n_impl n ∈ ka_live (w_heap w) -> shared pe ∈ ka_live (w_heap w) -> n_impl n <> shared pe ->
  let sh' := close_end sh (is_read_end pe) in
  let dead := negb (readers_open sh') && negb (writers_open sh') in
  let w' := pipe_close_op w node in
  ka_live (w_heap w')
  = ka_live (w_heap w) ∖ ({[n_impl n]} ∪ (if dead then {[shared pe]} else ∅)) /\
  w_nodes w' = <[node := set_impl n 0]> (w_nodes w) /\
  w_ends w' = delete (n_impl n) (w_ends w) /\
  w_pipes w' = (if dead then delete (shared pe) (w_pipes w)
                else <[shared pe := sh']> (w_pipes w)).
Proof.
  intros Hn He Hp Hl1 Hl2 Hne sh' dead w'. unfold w', pipe_close_op.
  rewrite Hn, He, Hp. cbv zeta.
  assert ((if is_read_end pe
    then PipeShared (buffer sh) (head sh) (tail sh) (count sh) false (writers_open sh)
    else PipeShared (buffer sh) (head sh) (tail sh) (count sh) (readers_open sh) false) = sh')
    as -> by (unfold sh', close_end; by destruct (is_read_end pe)).
  fold dead. destruct dead; simpl.
  - split_and!; try done; [|by rewrite delete_insert_eq].
    rewrite ka_free_live; rewrite ka_free_live by done; set_solver.
  - split_and!; try done. rewrite ka_free_live by done. set_solver.
Qed.

(** A read end that reports ready is exactly one whose read completes now
    with data or end of file; otherwise a nonblocking read returns
    would-block and a blocking one sleeps. *)
Theorem pipe_read_ready_iff w node pe sh size :
  valid_node w node pe sh -> is_read_end pe = true -> 0 < size -> pipe_ok sh ->
  (pipe_read_ready w node = true <->
   exists r bytes w', pipe_read_op [] w node size true = Some (r, bytes, w') /\ 0 <= r) /\
  (pipe_read_ready w node = false ->
   pipe_read_op [] w node size true
   = if nonblock pe then Some (PIPE_E_WOULD_BLOCK, [], set_pipe w (shared pe) sh) else None).
Proof.
  intros Hv Hre Hs Hok. pose proof Hv as (Hn & Hsh & Hip & Hpo).
  destruct (valid_node_inv _ _ _ _ Hv) as (e & He & Hpe & Hps).
  pose proof (ok_count _ Hok) as Hc.
  unfold pipe_read_ready, pipe_read_op. rewrite Hip, Hpo, He, Hre. simpl.
  rewrite (proj2 (Z.eqb_neq node 0)), (proj2 (Z.eqb_neq size 0)),
    (proj2 (Z.eqb_neq (shared pe) 0)) by (done || lia). simpl.
  rewrite Hpe, Hps. unfold pipe_read_pass.
  destruct (0 <? count sh) eqn:Ec; bool_to_prop; simpl.
  - split; [|done]. split; [|done]. intros _.
    destruct (copy_out _ _). eexists _, _, _. split; [done|]. case_if; lia.
  - destruct (writers_open sh); simpl.
    + destruct (nonblock pe); split; try done; split; try done.
      * intros (r & ? & ? & [= <- <- <-] & Hr). unfold PIPE_E_WOULD_BLOCK in Hr. lia.
      * intros (r & ? & ? & ? & ?). done.
    + split; [|done]. split; [|done]. intros _. by eexists _, _, _.
Qed.

(** If the write end of a new pipe cannot be allocated, [pipe_create]
    reports failure but the ring stays allocated: closing the read end clears
    only [readers_open], so the block is never freed. *)
Theorem pipe_create_leaks_ring w mem flags h1 sh w2 rd w3 w' out :
  tracked w ->
  ka_malloc (w_heap w) sizeof_pipe_shared = (h1, sh) -> sh <> 0 ->
  let nonblk := negb (Z.land flags PIPE_FLAG_NONBLOCK =? 0) in
  pipe_make_end_node (set_pipe (set_heap w h1) sh (PipeShared mem 0 0 0 true true))
    name_pipe_r sh true nonblk = (w2, rd) -> rd <> 0 ->
  pipe_make_end_node w2 name_pipe_w sh false nonblk = (w3, 0) ->
  pipe_create w mem true flags = (w', -1, out) ->
  sh ∈ ka_live (w_heap w') /\ ka_live (w_heap w') = {[sh]} ∪ ka_live (w_heap w) /\
  (forall e pe, w_ends w' !! e = Some pe -> w_ends w !! e = Some pe).
Proof.
  intros Htr Em Hsh nonblk E2 Hrd E3 Ec.
  destruct (ka_malloc_fresh _ _ _ _ Em Hsh) as [Hf Hl].
  destruct (make_end_ok _ _ _ _ _ _ _ E2 Hrd) as (e & n & Hern & Hf1 & Hf2 & Hl2 & Hi & _ & N2 & S2 & P2).
  destruct (make_end_fail _ _ _ _ _ _ E3) as (Hl3 & N3 & S3 & P3).
  simpl in Hf1, Hf2, Hl2, N2, S2, P2. rewrite Hl in Hf1, Hf2, Hl2.
  revert Ec. unfold pipe_create. rewrite Em. simpl. rewrite (proj2 (Z.eqb_neq sh 0)) by done.
  fold nonblk. rewrite E2, (proj2 (Z.eqb_neq rd 0)) by done. rewrite E3. simpl.
  intros [= <- <-]. simpl.
  assert (n_impl n <> sh) as Hne by (rewrite Hi; set_solver).
  destruct (close_op_spec w3 rd n (PipeEnd sh true nonblk) (PipeShared mem 0 0 0 true true))
    as (Lc & Nc & Sc & Pc).
  - rewrite N3, N2. apply lookup_insert_eq.
  - rewrite S3, S2, Hi. apply lookup_insert_eq.
  - rewrite P3, P2. apply lookup_insert_eq.
  - rewrite Hl3, Hl2, Hi. set_solver.
  - rewrite Hl3, Hl2. set_solver.
  - done.
  - simpl in Lc, Pc. rewrite Hi in Lc, Sc.
    assert (ka_live (ka_free (w_heap (pipe_close_op w3 rd)) rd) = {[sh]} ∪ ka_live (w_heap w)) as Hfin.
    { rewrite ka_free_live; rewrite Lc, Hl3, Hl2; [|set_solver].
      apply leibniz_equiv. intros x. set_solver. }
    rewrite Hfin. split_and!; [set_solver|done|].
    intros e' pe'. rewrite Sc, S3, S2, delete_insert_eq.
    rewrite lookup_delete_Some. tauto.
Qed.

(** Closing both ends of a pipe and releasing the two nodes gives back
    every block that [pipe_create] took: nothing leaks on the normal path. *)
Theorem pipe_create_close_roundtrip w mem flags w1 rd wr :
  tracked w -> pipe_create w mem true flags = (w1, 0, Some (rd, wr)) ->
  let w2 := pipe_close_op (pipe_close_op w1 rd) wr in
  ka_live (ka_free (ka_free (w_heap w2) rd) wr) = ka_live (w_heap w) /\
  w_ends w2 = w_ends w /\ w_pipes w2 = w_pipes w.
Proof.
  intros Htr. unfold pipe_create. simpl.
  destruct (ka_malloc (w_heap w) _) as [h1 sh] eqn:Em. case_if; [done|].
  destruct (pipe_make_end_node _ _ _ true _) as [w2 rd'] eqn:E2. case_if; [done|].
  destruct (pipe_make_end_node _ _ _ false _) as [w3 wr'] eqn:E3. case_if; [done|].
  intros [= <- <- <-].
  destruct (ka_malloc_fresh _ _ _ _ Em) as [Hf Hl]; [done|].
  destruct (make_end_ok _ _ _ _ _ _ _ E2) as (e1 & n1 & ? & F1 & G1 & L2 & I1 & _ & N2 & S2 & P2); [done|].
  destruct (make_end_ok _ _ _ _ _ _ _ E3) as (e2 & n2 & ? & F2 & G2 & L3 & I2 & _ & N3 & S3 & P3); [done|].
  simpl in *. rewrite Hl in F1, G1, L2. rewrite L2 in F2, G2, L3. clear E2 E3 Em.
  destruct (close_op_spec w3 rd' n1 (PipeEnd sh true (negb (Z.land flags PIPE_FLAG_NONBLOCK =? 0)))
    (PipeShared mem 0 0 0 true true)) as (La & Na & Sa & Pa).
  { rewrite N3, N2, lookup_insert_ne by set_solver. apply lookup_insert_eq. }
  { rewrite S3, S2, I1, lookup_insert_ne by set_solver. apply lookup_insert_eq. }
  { rewrite P3, P2. apply lookup_insert_eq. }
  { rewrite L3, I1. set_solver. }
  { rewrite L3. set_solver. }
  { rewrite I1. set_solver. }
  simpl in La, Pa. set (wa := pipe_close_op w3 rd') in *. clearbody wa.
  destruct (close_op_spec wa wr' n2 (PipeEnd sh false (negb (Z.land flags PIPE_FLAG_NONBLOCK =? 0)))
    (PipeShared mem 0 0 0 false true)) as (Lb & Nb & Sb & Pb).
  { rewrite Na, N3, lookup_insert_ne by set_solver. apply lookup_insert_eq. }
  { rewrite Sa, S3, I1, I2, lookup_delete_ne by set_solver. apply lookup_insert_eq. }
  { rewrite Pa. apply lookup_insert_eq. }
  { rewrite La, L3, I1, I2. set_solver. }
  { rewrite La, L3, I1. set_solver. }
  { rewrite I2. set_solver. }
  simpl in Lb, Pb. set (wb := pipe_close_op wa wr') in *. clearbody wb.
  rewrite La, L3, I1, I2 in Lb.
  destruct Htr as [Hlive _ _].
  assert (w_ends w !! e1 = None /\ w_ends w !! e2 = None /\ w_pipes w !! sh = None) as (D1 & D2 & D3).
  { rewrite <- !not_elem_of_dom. set_solver. }
  split_and!.
  - rewrite ka_free_live; rewrite ka_free_live; rewrite Lb; set_solver.
  - rewrite Sb, Sa, S3, S2, I1, I2. rewrite (delete_insert_ne _ e1 e2) by set_solver.
    rewrite delete_insert_eq, delete_insert_eq, (delete_id _ e1), delete_id; done.
  - rewrite Pb, Pa, P3, P2, delete_insert_eq, delete_insert_eq, delete_id; done.
Qed.

End lifecycle.

(** * Examples of the life-cycle theorems on a concrete heap *)

Definition demo_world (budget : nat) : world pool :=
  World (Pool 1048576 budget ∅) ∅ ∅ ∅.

Lemma demo_world_tracked budget : tracked (demo_world budget).
Proof. constructor; set_solver. Qed.

(** The store after a successful creation of a nonblocking pipe. *)
Definition demo_open : world pool := (pipe_create (demo_world 5) (repeat 0 4096) true 1).1.1.

Lemma pipe_read_ready_iff_witness :
  pipe_read_ready demo_open 1052692 = false /\
  pipe_read_op [] demo_open 1052692 8 true
  = Some (PIPE_E_WOULD_BLOCK, [], set_pipe demo_open 1048576 fresh_pipe).
Proof.
  assert (pipe_read_ready demo_open 1052692 = false) as Hr by (vm_compute; reflexivity).
  split; [exact Hr|].
  refine (proj2 (pipe_read_ready_iff demo_open 1052692 (PipeEnd 1048576 true true) fresh_pipe 8
    _ _ _ fresh_pipe_ok) Hr).
  - split_and!; [lia|simpl; lia|vm_compute; reflexivity|vm_compute; reflexivity].
  - reflexivity.
  - lia.
Defined.

Lemma pipe_create_leaks_ring_witness :
  ka_live (w_heap (pipe_create (demo_world 3) [] true 0).1.1) = {[1048576]}.
Proof.
  assert (exists w', pipe_create (demo_world 3) [] true 0 = (w', -1, None)) as [w' E]
    by (eexists; vm_compute; reflexivity).
  rewrite E.
  destruct (pipe_create_leaks_ring (demo_world 3) [] 0
    (pool_malloc (w_heap (demo_world 3)) sizeof_pipe_shared).1 1048576
    (pipe_make_end_node (set_pipe (set_heap (demo_world 3)
       (pool_malloc (w_heap (demo_world 3)) sizeof_pipe_shared).1) 1048576
       (PipeShared [] 0 0 0 true true)) name_pipe_r 1048576 true false).1 1052692
    (pipe_make_end_node (pipe_make_end_node (set_pipe (set_heap (demo_world 3)
       (pool_malloc (w_heap (demo_world 3)) sizeof_pipe_shared).1) 1048576
       (PipeShared [] 0 0 0 true true)) name_pipe_r 1048576 true false).1
       name_pipe_w 1048576 false false).1 w' None (demo_world_tracked 3)) as (_ & Hl & _);
    [vm_compute; reflexivity|lia|vm_compute; reflexivity|lia|vm_compute; reflexivity|exact E|].
  etransitivity; [exact Hl|vm_compute; reflexivity].
Defined.

Lemma pipe_create_close_roundtrip_witness :
  w_pipes (pipe_close_op (pipe_close_op demo_open 1052692) 1052812) = ∅.
Proof.
  assert (pipe_create (demo_world 5) (repeat 0 4096) true 1
    = (demo_open, 0, Some (1052692, 1052812))) as E by (vm_compute; reflexivity).
  exact (proj2 (proj2 (pipe_create_close_roundtrip (demo_world 5) (repeat 0 4096) 1 demo_open
    1052692 1052812 (demo_world_tracked 5) E))).
Defined.
