(* ===== verification/Mqueue.v ===== *)
(** Kernel message queues: [kernel/mqueue.c].

    A queue is a ring of fixed-size slots in one heap block; the table of
    queues, the next identifier and the descriptor end points are the file's
    state.  The theorems show that the table refines a map from identifiers to
    bounded lists of messages. *)
From S2P Require Import Prelude.
From S2P Require Import Interfaces.
From S2P Require Import Ring.
From S2P Require Import Vnode.
From Stdlib Require Import ZArith Lia.
From stdpp Require Import base numbers list gmap relations.

Open Scope Z_scope.
Open Scope lyth_scope.

Definition MQ_MAX_QUEUES : Z := 16.
Definition MQ_MAX_MESSAGES : Z := 32.
Definition MQ_MAX_MESSAGE_SIZE : Z := 256.
Definition MQ_E_FULL : Z := -2.
Definition MQ_E_EMPTY : Z := -3.
Definition MQ_EVENT_BASE : Z := 1073741824.

(** [storage] is the address of the slots (0 is NULL) and [bytes] the memory
    there. *)
Record mqueue := Mqueue {
  used : bool;
  id : Z;
  max_messages : Z;
  msg_size : Z;
  head : Z;
  tail : Z;
  count : Z;
  lengths : list Z;
  storage : Z;
  bytes : list Z;
}.

Record mqueue_fd := MqueueFd { queue_id : Z; open_flags : Z }.

Definition empty_queue : mqueue :=
  Mqueue false 0 0 0 0 0 0 (repeat 0 (Z.to_nat MQ_MAX_MESSAGES)) 0 [].

#[export] Instance mqueue_inhabited : Inhabited mqueue := populate empty_queue.

Definition sizeof_mqueue_fd : Z := 8.

Definition mqueue_zero_memory (off size : Z) (l : list Z) : list Z := blit (fun _ => 0) off size l.
Definition mqueue_copy_memory (off : Z) (src : list Z) (size : Z) (l : list Z) : list Z :=
  blit (fun i => src.[i]) off size l.

(** Lines 298-303: zero the head slot, copy the message, record its length and
    advance the head. *)
Definition enqueue (q : mqueue) (m : list Z) : mqueue :=
  let size := Z.of_nat (length m) in
  let slot := head q * msg_size q in
  let b := mqueue_zero_memory slot (msg_size q) (bytes q) in
  let b := mqueue_copy_memory slot m size b in
  Mqueue (used q) (id q) (max_messages q) (msg_size q)
         ((head q + 1) mod max_messages q) (tail q) (count q + 1)
         (lengths q).[head q <- size] (storage q) b.

(** Lines 332-334: forget the tail message's length and advance the tail. *)
Definition dequeue (q : mqueue) : mqueue :=
  Mqueue (used q) (id q) (max_messages q) (msg_size q)
         (head q) ((tail q + 1) mod max_messages q) (count q - 1)
         (lengths q).[tail q <- 0] (storage q) (bytes q).

Section table.
Context {H : Type} `{KAllocator H}.

(** The statics of the file, the heap, the descriptor nodes it created, and
    the events signalled to the scheduler so far. *)
Record mqs := Mqs {
  queues : list mqueue;
  next_queue_id : Z;
  mq_heap : H;
  mq_nodes : gmap Z vfs_node;
  mq_ends : gmap Z mqueue_fd;
  mq_signals : list Z;
}.

Definition set_queue (s : mqs) (i : Z) (q : mqueue) : mqs :=
  Mqs (queues s).[i <- q] (next_queue_id s) (mq_heap s) (mq_nodes s) (mq_ends s) (mq_signals s).
Definition set_mq_heap (s : mqs) (h : H) : mqs :=
  Mqs (queues s) (next_queue_id s) h (mq_nodes s) (mq_ends s) (mq_signals s).
Definition task_signal_event (s : mqs) (e : Z) : mqs :=
  Mqs (queues s) (next_queue_id s) (mq_heap s) (mq_nodes s) (mq_ends s) (mq_signals s ++ [e]).

(** [mqueue_find]: the index of the queue instead of its address. *)
Definition mqueue_find (s : mqs) (qid : Z) : option Z :=
  find_first (fun i => used (queues s).[i] && (id (queues s).[i] =? qid))
             (Z.to_nat MQ_MAX_QUEUES) 0.

Definition mqueue_event_id_for (s : mqs) (q : option Z) (offset : Z) : Z :=
  match q with
  | None => -1
  | Some i =>
      let q := (queues s).[i] in
      if negb (used q) || (id q <=? 0) then -1
      else s32 (MQ_EVENT_BASE + u32 (id q * 2) + offset)
  end.

Definition mqueue_read_event_id (s : mqs) (qid : Z) : Z :=
  mqueue_event_id_for s (mqueue_find s qid) 0.
Definition mqueue_write_event_id (s : mqs) (qid : Z) : Z :=
  mqueue_event_id_for s (mqueue_find s qid) 1.

Definition mqueue_init (h : H) (nodes : gmap Z vfs_node) (ends : gmap Z mqueue_fd) : mqs :=
  Mqs (repeat empty_queue (Z.to_nat MQ_MAX_QUEUES)) 1 h nodes ends [].

Definition mqueue_create (s : mqs) (max msize : Z) : mqs * Z :=
  if (max =? 0) || (MQ_MAX_MESSAGES <? max) || (msize =? 0) || (MQ_MAX_MESSAGE_SIZE <? msize)
  then (s, -1)
  else
    let bs := u32 (max * msize) in
    if negb (bs / msize =? max) then (s, -1)
    else
      match find_first (fun i => negb (used (queues s).[i])) (Z.to_nat MQ_MAX_QUEUES) 0 with
      | None => (s, -1)
      | Some slot =>
          let '(h, p) := ka_malloc (mq_heap s) bs in
          let s := set_mq_heap s h in
          if p =? 0 then (s, -1)
          else
            let zeroed := mqueue_zero_memory 0 bs (repeat 0 (Z.to_nat bs)) in
            let lens := blit (fun _ => 0) 0 max (lengths (queues s).[slot]) in
            let qid := next_queue_id s in
            let q := Mqueue true qid max msize 0 0 0 lens p zeroed in
            (Mqs (queues s).[slot <- q] (s32 (qid + 1)) (mq_heap s) (mq_nodes s) (mq_ends s)
                 (mq_signals s), qid)
      end.

(** [mqueue_send(queue_id, message, size)] with [msg] the [size] bytes at
    [message] ([None] is a NULL pointer). *)
Definition mqueue_send (s : mqs) (qid : Z) (msg : option (list Z)) : mqs * Z :=
  match msg with
  | None => (s, -1)
  | Some m =>
      let size := Z.of_nat (length m) in
      if size =? 0 then (s, -1)
      else match mqueue_find s qid with
           | None => (s, -1)
           | Some i =>
               let q := (queues s).[i] in
               if negb (used q) || (storage q =? 0) then (s, -1)
               else if msg_size q <? size then (s, -1)
               else if max_messages q <=? count q then (s, MQ_E_FULL)
               else (set_queue s i (enqueue q m), 0)
           end
  end.

(** [mqueue_receive]: the new state, the result code and, on success, the
    bytes stored in the caller's buffer (their number is [*received_size_out]). *)
Definition mqueue_receive (s : mqs) (qid : Z) (buf_valid : bool) (buffer_size : Z)
    : mqs * Z * list Z :=
  if negb buf_valid then (s, -1, [])
  else match mqueue_find s qid with
       | None => (s, -1, [])
       | Some i =>
           let q := (queues s).[i] in
           if negb (used q) || (storage q =? 0) then (s, -1, [])
           else if count q =? 0 then (s, MQ_E_EMPTY, [])
           else
             let size := (lengths q).[tail q] in
             if buffer_size <? size then (s, -1, [])
             else
               (set_queue s i (dequeue q), 0, slice (bytes q) (tail q * msg_size q) size)
       end.

Definition mqueue_unlink (s : mqs) (qid : Z) : mqs * Z :=
  match mqueue_find s qid with
  | None => (s, -1)
  | Some i =>
      let q := (queues s).[i] in
      let s := if negb (storage q =? 0)
               then set_mq_heap s (ka_free (mq_heap s) (storage q)) else s in
      (set_queue s i (Mqueue false 0 0 0 0 0 0
         (blit (fun _ => 0) 0 MQ_MAX_MESSAGES (lengths q)) 0 []), 0)
  end.

(** One line of [mqueue_list]. *)
Record mqueue_info := MqueueInfo {
  mi_id : Z; mi_max_messages : Z; mi_msg_size : Z; mi_count : Z }.

Definition mqueue_list (s : mqs) (out_valid : bool) (max_queues : Z) : list mqueue_info :=
  if negb out_valid || (max_queues <=? 0) then []
  else for_loop (fun i out =>
         if (Z.of_nat (length out) <? max_queues) && used (queues s).[i]
         then out ++ [MqueueInfo (id (queues s).[i]) (max_messages (queues s).[i])
                        (msg_size (queues s).[i]) (count (queues s).[i])]
         else out) (Z.to_nat MQ_MAX_QUEUES) 0 [].

(** ** Descriptors *)

Definition mqueue_make_fd_node (s : mqs) (qid flags : Z) : mqs * Z :=
  let '(h1, node) := ka_malloc (mq_heap s) sizeof_vfs_node in
  let s := set_mq_heap s h1 in
  if node =? 0 then (s, 0)
  else
    let '(h2, e) := ka_malloc (mq_heap s) sizeof_mqueue_fd in
    let s := set_mq_heap s h2 in
    if e =? 0 then (set_mq_heap s (ka_free (mq_heap s) node), 0)
    else
      let n := VfsNode [109; 113] (Z.lor VFS_FLAG_FILE VFS_FLAG_DYNAMIC) 0 0 e OpsMqueue 0 in
      (Mqs (queues s) (next_queue_id s) (mq_heap s) (<[node := n]> (mq_nodes s))
           (<[e := MqueueFd qid flags]> (mq_ends s)) (mq_signals s), node).

Definition mqueue_endpoint (s : mqs) (node : Z) : option mqueue_fd :=
  n ← mq_nodes s !! node;
  mq_ends s !! n_impl n.

Definition mqueue_endpoint_queue_id (s : mqs) (node : Z) : Z :=
  match mq_nodes s !! node with
  | None => -1
  | Some n =>
      if negb (bool_decide (n_ops n = OpsMqueue)) || (n_impl n =? 0) then -1
      else match mq_ends s !! n_impl n with
           | None => -1
           | Some e => queue_id e
           end
  end.

(** [mqueue_read_op]; [env] lists what other tasks do during each sleep and
    [None] means still blocked. *)
Fixpoint mqueue_read_loop (env : list (mqs -> mqs)) (s : mqs) (e : mqueue_fd) (size : Z)
    : option (mqs * Z * list Z) :=
  match mqueue_find s (queue_id e) with
  | None => Some (s, -1, [])
  | Some _ =>
      let '(s', rc, out) := mqueue_receive s (queue_id e) true size in
      if rc =? 0 then
        let w := mqueue_write_event_id s' (queue_id e) in
        let s' := if 0 <=? w then task_signal_event s' w else s' in
        Some (s', Z.of_nat (length out), out)
      else if negb (rc =? MQ_E_EMPTY) then Some (s', -1, [])
      else if negb (Z.land (open_flags e) VFS_O_NONBLOCK =? 0) then Some (s', MQ_E_FULL, [])
      else match env with
           | [] => None
           | step :: env' => mqueue_read_loop env' (step s') e size
           end
  end.

Definition mqueue_read_op (env : list (mqs -> mqs)) (s : mqs) (node size : Z) (buf_valid : bool)
    : option (mqs * Z * list Z) :=
  if negb buf_valid || (size =? 0) then Some (s, -1, [])
  else match mqueue_endpoint s node with
       | None => Some (s, -1, [])
       | Some e => mqueue_read_loop env s e size
       end.

Fixpoint mqueue_write_loop (env : list (mqs -> mqs)) (s : mqs) (e : mqueue_fd) (buf : list Z)
    : option (mqs * Z) :=
  match mqueue_find s (queue_id e) with
  | None => Some (s, -1)
  | Some _ =>
      let '(s', rc) := mqueue_send s (queue_id e) (Some buf) in
      if rc =? 0 then
        let r := mqueue_read_event_id s' (queue_id e) in
        let s' := if 0 <=? r then task_signal_event s' r else s' in
        Some (s', Z.of_nat (length buf))
      else if negb (rc =? MQ_E_FULL) then Some (s', -1)
      else if negb (Z.land (open_flags e) VFS_O_NONBLOCK =? 0) then Some (s', MQ_E_FULL)
      else match env with
           | [] => None
           | step :: env' => mqueue_write_loop env' (step s') e buf
           end
  end.

Definition mqueue_write_op (env : list (mqs -> mqs)) (s : mqs) (node : Z) (buf : option (list Z))
    : option (mqs * Z) :=
  match buf with
  | None => Some (s, -1)
  | Some b =>
      if Z.of_nat (length b) =? 0 then Some (s, -1)
      else match mqueue_endpoint s node with
           | None => Some (s, -1)
           | Some e => mqueue_write_loop env s e b
           end
  end.

Definition mqueue_close_op (s : mqs) (node : Z) : mqs :=
  match mq_nodes s !! node with
  | None => s
  | Some n =>
      if n_impl n =? 0 then s
      else Mqs (queues s) (next_queue_id s) (ka_free (mq_heap s) (n_impl n))
               (<[node := set_impl n 0]> (mq_nodes s)) (delete (n_impl n) (mq_ends s))
               (mq_signals s)
  end.

(** [mqueue_open_fd]; [vfs_fd_install_node] of the VFS layer is a parameter. *)
Definition mqueue_open_fd (install : Z -> Z -> Z) (s : mqs) (qid flags : Z) : mqs * Z :=
  match mqueue_find s qid with
  | None => (s, -1)
  | Some _ =>
      if Z.land flags VFS_O_ACCMODE =? 0 then (s, -1)
      else if negb (Z.land flags (not32 (Z.lor (Z.lor VFS_O_RDONLY VFS_O_WRONLY) VFS_O_NONBLOCK)) =? 0)
      then (s, -1)
      else let '(s, node) := mqueue_make_fd_node s qid flags in
           if node =? 0 then (s, -1) else (s, install node flags)
  end.

Definition mqueue_node_is_queue (s : mqs) (node : Z) : bool :=
  match mq_nodes s !! node with
  | None => false
  | Some n => bool_decide (n_ops n = OpsMqueue)
  end.

Definition mqueue_node_is_valid (s : mqs) (node : Z) : bool :=
  match mqueue_find s (mqueue_endpoint_queue_id s node) with Some _ => true | None => false end.

Definition mqueue_fd_read_ready (s : mqs) (node : Z) : bool :=
  match mqueue_find s (mqueue_endpoint_queue_id s node) with
  | None => false
  | Some i => 0 <? count (queues s).[i]
  end.

Definition mqueue_fd_write_ready (s : mqs) (node : Z) : bool :=
  match mqueue_find s (mqueue_endpoint_queue_id s node) with
  | None => false
  | Some i => count (queues s).[i] <? max_messages (queues s).[i]
  end.

End table.
Arguments mqs : clear implicits.

(** * Specification *)

(** The message in slot [k], and the queued messages, oldest first. *)
Definition msg_at (q : mqueue) (k : Z) : list Z :=
  slice (bytes q) (k * msg_size q) (lengths q).[k].
Definition messages (q : mqueue) : list (list Z) :=
  ring_list (msg_at q) (max_messages q) (tail q) (count q).

Record queue_ok (q : mqueue) : Prop := QueueOk {
  q_max : 1 <= max_messages q <= MQ_MAX_MESSAGES;
  q_size : 1 <= msg_size q <= MQ_MAX_MESSAGE_SIZE;
  q_tail : 0 <= tail q < max_messages q;
  q_count : 0 <= count q <= max_messages q;
  q_head : head q = ring_head (max_messages q) (tail q) (count q);
  q_bytes : Z.of_nat (length (bytes q)) = max_messages q * msg_size q;
  q_storage : storage q <> 0;
  q_msg : forall k, 0 <= k < max_messages q -> 0 <= (lengths q).[k] <= msg_size q;
}.

(** What a queue identifier stands for. *)
Record aqueue := AQueue { a_max : Z; a_size : Z; a_msgs : list (list Z) }.

Definition abs_queue (q : mqueue) : aqueue := AQueue (max_messages q) (msg_size q) (messages q).

(** The contract of one send and one receive on a bounded list of messages. *)
Definition aq_send (a : aqueue) (m : list Z) : aqueue * Z :=
  if a_size a <? Z.of_nat (length m) then (a, -1)
  else if a_max a <=? Z.of_nat (length (a_msgs a)) then (a, MQ_E_FULL)
  else (AQueue (a_max a) (a_size a) (a_msgs a ++ [m]), 0).

Definition aq_receive (a : aqueue) (buffer_size : Z) : aqueue * Z * list Z :=
  match a_msgs a with
  | [] => (a, MQ_E_EMPTY, [])
  | m :: rest =>
      if buffer_size <? Z.of_nat (length m) then (a, -1, [])
      else (AQueue (a_max a) (a_size a) rest, 0, m)
  end.

(** ** One queue *)

Lemma enqueue_spec q m :
  queue_ok q -> Z.of_nat (length (lengths q)) = MQ_MAX_MESSAGES ->
  0 < Z.of_nat (length m) <= msg_size q -> count q < max_messages q ->
  queue_ok (enqueue q m) /\ messages (enqueue q m) = messages q ++ [m].
Proof.
  intros [Hmax Hsz Ht Hc Hh Hb Hst Hmsg] Hl Hm Hfull.
  assert (0 <= head q < max_messages q) as Hhd by (rewrite Hh; apply Z.mod_pos_bound; lia).
  assert (0 <= head q * msg_size q /\ head q * msg_size q + msg_size q <= Z.of_nat (length (bytes q)))
    as [Ho1 Ho2] by nia.
  unfold MQ_MAX_MESSAGES in *.
  set (b1 := mqueue_zero_memory (head q * msg_size q) (msg_size q) (bytes q)).
  assert (length b1 = length (bytes q)) as Hl1 by apply blit_length.
  split.
  - constructor; simpl; try done; try lia.
    + rewrite Hh. unfold ring_head. rewrite Zplus_mod_idemp_l. f_equal. lia.
    + unfold mqueue_copy_memory, mqueue_zero_memory. by rewrite !blit_length.
    + intros k Hk. destruct (decide (head q = k)) as [<-|].
      * rewrite aget_aset_eq by lia. lia.
      * rewrite aget_aset_ne by lia. by apply Hmsg.
  - apply ring_push; [lia| |].
    + rewrite <- Hh. unfold msg_at; simpl. rewrite aget_aset_eq by lia.
      rewrite <- (slice_all m) at 4. apply slice_ext. intros i Hi. fold b1.
      unfold mqueue_copy_memory. rewrite blit_get by lia.
      rewrite decide_True by lia. f_equal. lia.
    + intros k Hk Hne. rewrite <- Hh in Hne. unfold msg_at; simpl.
      rewrite aget_aset_ne by lia. apply slice_ext. intros i Hi. specialize (Hmsg k Hk).
      assert (k * msg_size q + i < head q * msg_size q \/
              head q * msg_size q + msg_size q <= k * msg_size q + i) as Hdis
        by (destruct (Z.lt_total k (head q)) as [?|[?|?]]; [left; nia|lia|right; nia]).
      fold b1. unfold mqueue_copy_memory. rewrite blit_get by nia.
      rewrite decide_False by lia. unfold b1, mqueue_zero_memory. rewrite blit_get by nia.
      by rewrite decide_False by lia.
Qed.

Lemma dequeue_spec q :
  queue_ok q -> Z.of_nat (length (lengths q)) = MQ_MAX_MESSAGES -> 0 < count q ->
  queue_ok (dequeue q) /\ messages q = msg_at q (tail q) :: messages (dequeue q).
Proof.
  intros [Hmax Hsz Ht Hc Hh Hb Hst Hmsg] Hl Hpos. unfold MQ_MAX_MESSAGES in *. split.
  - constructor; simpl; try done; try lia.
    + apply Z.mod_pos_bound. lia.
    + rewrite Hh. unfold ring_head. rewrite Zplus_mod_idemp_l. f_equal. lia.
    + intros k Hk. destruct (decide (tail q = k)) as [<-|].
      * rewrite aget_aset_eq by lia. lia.
      * rewrite aget_aset_ne by lia. by apply Hmsg.
  - unfold messages at 1. rewrite ring_pop by lia. f_equal.
    apply ring_list_ext. intros i Hi. unfold msg_at; simpl.
    rewrite aget_aset_ne; [done|lia|apply Z.mod_pos_bound; lia|].
    rewrite Zplus_mod_idemp_l. intros E.
    rewrite <- (Z.mod_small (tail q) (max_messages q)) in E at 1 by lia.
    rewrite <- (Z.add_0_r (tail q)) in E at 1. rewrite <- Z.add_assoc in E.
    simpl in Hi. apply ring_index_inj in E; lia.
Qed.

Section props.
Context {H : Type} `{KAllocatorLaws H}.
Implicit Types (s : mqs H).

Record mq_ok s : Prop := MqOk {
  mq_len : Z.of_nat (length (queues s)) = MQ_MAX_QUEUES;
  mq_lens : forall i, 0 <= i < MQ_MAX_QUEUES ->
    Z.of_nat (length (lengths (queues s).[i])) = MQ_MAX_MESSAGES;
  mq_queue : forall i, 0 <= i < MQ_MAX_QUEUES -> used (queues s).[i] = true ->
    queue_ok (queues s).[i];
  mq_ids : forall i, 0 <= i < MQ_MAX_QUEUES -> used (queues s).[i] = true ->
    1 <= id (queues s).[i] < next_queue_id s;
  mq_uniq : forall i j, 0 <= i < MQ_MAX_QUEUES -> 0 <= j < MQ_MAX_QUEUES ->
    used (queues s).[i] = true -> used (queues s).[j] = true ->
    id (queues s).[i] = id (queues s).[j] -> i = j;
  mq_next : 1 <= next_queue_id s;
}.

Definition abs s (qid : Z) : option aqueue :=
  i ← mqueue_find s qid; Some (abs_queue (queues s).[i]).

(** ** Lookup *)

Lemma find_spec s qid i :
  mq_ok s ->
  mqueue_find s qid = Some i <->
  0 <= i < MQ_MAX_QUEUES /\ used (queues s).[i] = true /\ id (queues s).[i] = qid.
Proof.
  intros Hok. unfold mqueue_find. split.
  - intros Hf. apply find_first_Some in Hf as (Hr & Hp & _). bool_to_prop.
    unfold MQ_MAX_QUEUES in *. split_and!; auto; lia.
  - intros (Hr & Hu & Hid). apply find_first_intro.
    + unfold MQ_MAX_QUEUES in *. lia.
    + by rewrite Hu, Hid, Z.eqb_refl.
    + intros j Hj. destruct (used (queues s).[j]) eqn:Hu'; [|done]. simpl.
      apply Z.eqb_neq. intros Hid'. enough (i = j) by lia.
      unfold MQ_MAX_QUEUES in *.
      apply (mq_uniq _ Hok); unfold MQ_MAX_QUEUES; try lia; congruence.
Qed.

Lemma find_None s qid :
  mqueue_find s qid = None <->
  forall i, 0 <= i < MQ_MAX_QUEUES -> used (queues s).[i] = true -> id (queues s).[i] <> qid.
Proof.
  unfold mqueue_find. rewrite find_first_None. unfold MQ_MAX_QUEUES. split.
  - intros Hn i Hi Hu. specialize (Hn i ltac:(lia)). rewrite Hu in Hn. simpl in Hn.
    by apply Z.eqb_neq.
  - intros Hn i Hi. destruct (used (queues s).[i]) eqn:Hu; [|done]. simpl.
    apply Z.eqb_neq. apply Hn; [lia|done].
Qed.

(** Replacing the queue at [i] by one with the same identity. *)
Lemma set_queue_ok s i q' :
  mq_ok s -> 0 <= i < MQ_MAX_QUEUES -> used (queues s).[i] = true -> used q' = true ->
  id q' = id (queues s).[i] -> queue_ok q' ->
  Z.of_nat (length (lengths q')) = MQ_MAX_MESSAGES -> mq_ok (set_queue s i q').
Proof.
  intros Hok Hi Hu Hu' Hid Hq Hl. pose proof (mq_len _ Hok) as Hlen.
  assert (forall j, 0 <= j < MQ_MAX_QUEUES ->
    (queues (set_queue s i q')).[j] = if decide (i = j) then q' else (queues s).[j]) as Hget.
  { intros j Hj. simpl. case_decide; [subst; apply aget_aset_eq; lia|apply aget_aset_ne; lia]. }
  constructor.
  - simpl. rewrite aset_length. done.
  - intros j Hj. rewrite Hget by done. case_decide; [done|]. by apply (mq_lens _ Hok).
  - intros j Hj. rewrite Hget by done. case_decide; [done|]. by apply (mq_queue _ Hok).
  - intros j Hj. rewrite Hget by done. simpl. case_decide; [|by apply (mq_ids _ Hok)].
    intros _. rewrite Hid. by apply (mq_ids _ Hok).
  - intros j k Hj Hk. rewrite !Hget by done. repeat case_decide; subst; try done.
    + intros _ Hk' E. apply (mq_uniq _ Hok); congruence.
    + intros Hj' _ E. apply (mq_uniq _ Hok); congruence.
    + apply (mq_uniq _ Hok); done.
  - apply (mq_next _ Hok).
Qed.

(** The abstract view after such a replacement. *)
Lemma abs_set_queue s i q' qid :
  mq_ok s -> mq_ok (set_queue s i q') -> 0 <= i < MQ_MAX_QUEUES ->
  used (queues s).[i] = true -> used q' = true -> id q' = id (queues s).[i] ->
  abs (set_queue s i q') qid
  = if decide (qid = id q') then Some (abs_queue q') else abs s qid.
Proof.
  intros Hok Hok' Hi Hu Hu' Hid. pose proof (mq_len _ Hok) as Hlen. unfold abs.
  destruct (decide (qid = id q')) as [->|Hne].
  - rewrite (proj2 (find_spec _ (id q') i Hok')).
    + simpl. by rewrite aget_aset_eq by lia.
    + simpl. rewrite aget_aset_eq by lia. done.
  - destruct (mqueue_find s qid) as [j|] eqn:Hf.
    + apply (find_spec _ _ _ Hok) in Hf as (Hj & Huj & Hidj).
      assert (i <> j) by (intros ->; congruence).
      assert ((queues s).[i <- q'].[j] = (queues s).[j]) as Hg by (apply aget_aset_ne; lia).
      rewrite (proj2 (find_spec _ qid j Hok')) by (simpl; rewrite Hg; done).
      simpl. by rewrite Hg.
    + rewrite (proj2 (find_None (set_queue s i q') qid)); [done|].
      rewrite find_None in Hf. intros j Hj. simpl. destruct (decide (i = j)) as [->|].
      * rewrite aget_aset_eq by lia. congruence.
      * rewrite aget_aset_ne by lia. by apply Hf.
Qed.

Lemma abs_find s qid i :
  mqueue_find s qid = Some i -> abs s qid = Some (abs_queue (queues s).[i]).
Proof. intros E. unfold abs. by rewrite E. Qed.

Lemma messages_length q : queue_ok q -> Z.of_nat (length (messages q)) = count q.
Proof. intros Hq. apply ring_list_length. apply (q_count _ Hq). Qed.

(** ** Steps *)

Lemma mqueue_send_ok s qid msg : mq_ok s -> mq_ok (mqueue_send s qid msg).1.
Proof.
  intros Hok. unfold mqueue_send. destruct msg as [m|]; [|done]. case_if; [done|].
  destruct (mqueue_find s qid) as [i|] eqn:Hf; [|done].
  apply (find_spec _ _ _ Hok) in Hf as (Hi & Hu & Hid).
  repeat case_if; try done. simpl.
  destruct (enqueue_spec (queues s).[i] m (mq_queue _ Hok i Hi Hu) (mq_lens _ Hok i Hi)) as [Hq _];
    [lia|lia|].
  apply set_queue_ok; try done. simpl. rewrite aset_length. by apply (mq_lens _ Hok).
Qed.

Lemma mqueue_receive_ok s qid bv n : mq_ok s -> mq_ok (mqueue_receive s qid bv n).1.1.
Proof.
  intros Hok. unfold mqueue_receive. case_if; [done|].
  destruct (mqueue_find s qid) as [i|] eqn:Hf; [|done].
  apply (find_spec _ _ _ Hok) in Hf as (Hi & Hu & Hid).
  repeat case_if; try done. simpl.
  pose proof (q_count _ (mq_queue _ Hok i Hi Hu)).
  destruct (dequeue_spec (queues s).[i] (mq_queue _ Hok i Hi Hu) (mq_lens _ Hok i Hi)) as [Hq _];
    [lia|].
  apply set_queue_ok; try done. simpl. rewrite aset_length. by apply (mq_lens _ Hok).
Qed.

(** [mqueue_send] implements the bounded-list contract: on a live queue it
    does what the abstract send does, with the same result code, and the other
    queues keep their messages; on an unknown identifier or an empty message it
    fails and changes nothing. *)
Lemma mqueue_send_refines s qid m :
  mq_ok s -> m <> [] ->
  let s' := (mqueue_send s qid (Some m)).1 in
  let rc := (mqueue_send s qid (Some m)).2 in
  mq_ok s' /\
  match abs s qid with
  | None => rc = -1 /\ s' = s
  | Some a => abs s' qid = Some (aq_send a m).1 /\ rc = (aq_send a m).2
  end /\
  (forall o, o <> qid -> abs s' o = abs s o).
Proof.
  intros Hok Hm s' rc. assert (0 < Z.of_nat (length m)) by (destruct m; simpl; [done|lia]).
  pose proof (mqueue_send_ok s qid (Some m) Hok) as Hok'. split; [exact Hok'|].
  fold s' in Hok'. unfold rc, s', mqueue_send in *.
  rewrite (proj2 (Z.eqb_neq _ 0)) in * by lia.
  destruct (mqueue_find s qid) as [i|] eqn:Hf.
  2: { unfold abs at 1. rewrite Hf. done. }
  rewrite (abs_find _ _ _ Hf). pose proof Hf as Hf'.
  apply (find_spec _ _ _ Hok) in Hf' as (Hi & Hu & Hid).
  pose proof (mq_queue _ Hok i Hi Hu) as Hq. rewrite Hu in *.
  rewrite (proj2 (Z.eqb_neq _ 0) (q_storage _ Hq)) in *. simpl in *.
  unfold aq_send, abs_queue; simpl. rewrite (messages_length _ Hq).
  destruct (msg_size (queues s).[i] <? Z.of_nat (length m)) eqn:Hbig; bool_to_prop; simpl in *;
    [by rewrite (abs_find _ _ _ Hf)|].
  destruct (max_messages (queues s).[i] <=? count (queues s).[i]) eqn:Hfull;
    bool_to_prop; simpl in *; [by rewrite (abs_find _ _ _ Hf)|].
  destruct (enqueue_spec (queues s).[i] m Hq (mq_lens _ Hok i Hi)) as [_ Hmsgs]; [lia|lia|].
  assert (forall o, abs (set_queue s i (enqueue (queues s).[i] m)) o
    = if decide (o = qid) then Some (abs_queue (enqueue (queues s).[i] m)) else abs s o) as Ha.
  { intros o. rewrite abs_set_queue by done. simpl. by rewrite Hid. }
  split_and!; [| done |].
  - rewrite Ha, decide_True by done. unfold abs_queue. by rewrite Hmsgs.
  - intros o Ho. by rewrite Ha, decide_False by done.
Qed.

(** [mqueue_receive] implements the bounded-list contract: the oldest
    message is returned whole and removed when the buffer is large enough, an
    empty queue gives [MQ_E_EMPTY], a short buffer fails and keeps the
    message, and the other queues are untouched. *)
Lemma mqueue_receive_refines s qid n :
  mq_ok s ->
  let '(s', rc, out) := mqueue_receive s qid true n in
  mq_ok s' /\
  match abs s qid with
  | None => rc = -1 /\ out = [] /\ s' = s
  | Some a =>
      abs s' qid = Some (aq_receive a n).1.1 /\ rc = (aq_receive a n).1.2 /\
      out = (aq_receive a n).2
  end /\
  (forall o, o <> qid -> abs s' o = abs s o).
Proof.
  intros Hok. pose proof (mqueue_receive_ok s qid true n Hok) as Hok'.
  destruct (mqueue_receive s qid true n) as [[s' rc] out] eqn:E. simpl in Hok'.
  split; [exact Hok'|]. revert E. unfold mqueue_receive. simpl.
  destruct (mqueue_find s qid) as [i|] eqn:Hf.
  2: { unfold abs at 1. rewrite Hf. simpl. by intros [= <- <- <-]. }
  rewrite (abs_find _ _ _ Hf). pose proof Hf as Hf'.
  apply (find_spec _ _ _ Hok) in Hf' as (Hi & Hu & Hid).
  pose proof (mq_queue _ Hok i Hi Hu) as Hq. rewrite Hu.
  rewrite (proj2 (Z.eqb_neq _ 0) (q_storage _ Hq)). simpl.
  pose proof (q_count _ Hq) as Hc. pose proof (messages_length _ Hq) as Hlen.
  unfold aq_receive, abs_queue; simpl.
  destruct (count (queues s).[i] =? 0) eqn:Hz; bool_to_prop.
  { destruct (messages (queues s).[i]) eqn:Em; simpl in Hlen; [|lia].
    intros [= <- <- <-]. by rewrite (abs_find _ _ _ Hf), <- Em. }
  destruct (dequeue_spec (queues s).[i] Hq (mq_lens _ Hok i Hi)) as [_ Hmsgs]; [lia|].
  pose proof (q_msg _ Hq _ (q_tail _ Hq)) as Hml.
  assert (Z.of_nat (length (msg_at (queues s).[i] (tail (queues s).[i])))
    = (lengths (queues s).[i]).[tail (queues s).[i]]) as Hsz by (apply slice_length; lia).
  rewrite Hmsgs, Hsz.
  case_if; intros [= <- <- <-]; simpl.
  { by rewrite (abs_find _ _ _ Hf), <- Hmsgs. }
  assert (forall o, abs (set_queue s i (dequeue (queues s).[i])) o
    = if decide (o = qid) then Some (abs_queue (dequeue (queues s).[i])) else abs s o) as Ha.
  { intros o. rewrite abs_set_queue by done. simpl. by rewrite Hid. }
  split_and!; [by rewrite Ha, decide_True by done|done..|].
  intros o Ho. by rewrite Ha, decide_False by done.
Qed.

(** C28: [mqueue_send] and [mqueue_receive] implement the contract of a bounded list
    of messages.  On a live queue they do what the abstract send and receive do, with
    the same results: a full queue, an oversized message, an empty queue and a short
    buffer are refused with their codes and change nothing; a message is received
    whole, the oldest first.  An unknown identifier fails.  The other queues keep
    their messages, and the table stays well formed. *)
Theorem mqueue_refines s qid m n :
  mq_ok s -> m <> [] ->
  (let s' := (mqueue_send s qid (Some m)).1 in
   let rc := (mqueue_send s qid (Some m)).2 in
   mq_ok s' /\
   match abs s qid with
   | None => rc = -1 /\ s' = s
   | Some a => abs s' qid = Some (aq_send a m).1 /\ rc = (aq_send a m).2
   end /\
   (forall o, o <> qid -> abs s' o = abs s o)) /\
  (let '(s', rc, out) := mqueue_receive s qid true n in
   mq_ok s' /\
   match abs s qid with
   | None => rc = -1 /\ out = [] /\ s' = s
   | Some a =>
       abs s' qid = Some (aq_receive a n).1.1 /\ rc = (aq_receive a n).1.2 /\
       out = (aq_receive a n).2
   end /\
   (forall o, o <> qid -> abs s' o = abs s o)).
Proof. intros Hok Hm. split; [by apply mqueue_send_refines|by apply mqueue_receive_refines]. Qed.

(** ** Creation and removal *)

Lemma mqueue_init_ok (h : H) nodes ends : mq_ok (mqueue_init h nodes ends).
Proof.
  assert (forall i, 0 <= i < MQ_MAX_QUEUES ->
    (queues (mqueue_init h nodes ends)).[i] = empty_queue) as Hget.
  { intros i Hi. unfold mqueue_init, aget; simpl queues.
    rewrite list_lookup_total_alt.
    unfold MQ_MAX_QUEUES in *. by rewrite (lookup_replicate_2 (Z.to_nat 16) empty_queue) by lia. }
  constructor; try done.
  - intros i Hi. by rewrite Hget.
  - intros i Hi. by rewrite Hget.
  - intros i Hi. by rewrite Hget.
  - intros i j Hi Hj. by rewrite Hget.
Qed.

(** The freshly filled slot of [mqueue_create]. *)
Lemma new_queue_ok qid max msize lens p :
  1 <= max <= MQ_MAX_MESSAGES -> 1 <= msize <= MQ_MAX_MESSAGE_SIZE -> p <> 0 ->
  Z.of_nat (length lens) = MQ_MAX_MESSAGES ->
  queue_ok (Mqueue true qid max msize 0 0 0 (blit (fun _ => 0) 0 max lens) p
    (mqueue_zero_memory 0 (u32 (max * msize)) (repeat 0 (Z.to_nat (u32 (max * msize)))))).
Proof.
  unfold MQ_MAX_MESSAGES, MQ_MAX_MESSAGE_SIZE. intros Hm Hs Hp Hl.
  constructor; simpl; try done; try (unfold MQ_MAX_MESSAGES, MQ_MAX_MESSAGE_SIZE; lia).
  - unfold mqueue_zero_memory. rewrite blit_length, repeat_length, u32_small by nia. nia.
  - intros k Hk. rewrite blit_get by lia. rewrite decide_True by lia. lia.
Qed.

(** A table that differs from [s] in a slot free in [s]. *)
Lemma abs_frame s s' slot o :
  (forall j, 0 <= j < MQ_MAX_QUEUES -> j <> slot -> (queues s').[j] = (queues s).[j]) ->
  used (queues s).[slot] = false \/ id (queues s).[slot] <> o ->
  used (queues s').[slot] = false \/ id (queues s').[slot] <> o ->
  mq_ok s -> mq_ok s' -> abs s' o = abs s o.
Proof.
  intros Hrest H1s H2s Hok Hok'. unfold abs.
  destruct (mqueue_find s o) as [j|] eqn:Hf.
  - apply (find_spec _ _ _ Hok) in Hf as (Hj & Hu & Hid).
    assert (j <> slot) by (intros ->; destruct H1s; congruence).
    rewrite (proj2 (find_spec s' o j Hok')) by (rewrite Hrest by done; done).
    simpl. by rewrite Hrest.
  - rewrite (proj2 (find_None s' o)); [done|]. rewrite find_None in Hf. intros j Hj Hu.
    destruct (decide (j = slot)) as [->|]; [destruct H2s; congruence|].
    rewrite Hrest in * by done. by apply Hf.
Qed.

Lemma mqueue_create_ok s max msize :
  0 <= max < 4294967296 -> 0 <= msize < 4294967296 -> next_queue_id s < 2147483647 -> mq_ok s ->
  let '(s', r) := mqueue_create s max msize in
  mq_ok s' /\
  ((r = -1 /\ forall o, abs s' o = abs s o) \/
   (r = next_queue_id s /\ next_queue_id s' = r + 1 /\
    abs s' r = Some (AQueue max msize []) /\ forall o, o <> r -> abs s' o = abs s o)) /\
  next_queue_id s <= next_queue_id s'.
Proof.
  intros Hmx Hms Hmax Hok. unfold mqueue_create.
  assert (s32 (next_queue_id s + 1) = next_queue_id s + 1) as Enext
    by (pose proof (mq_next _ Hok); apply s32_small; lia).
  case_if; [by split_and!; [|left|simpl; lia]|]. case_if; [by split_and!; [|left|simpl; lia]|].
  destruct (find_first _ _ _) as [slot|] eqn:Hs; [|by auto with lia].
  apply find_first_Some in Hs as (Hr & Hfree & _). bool_to_prop.
  destruct (ka_malloc (mq_heap s) _) as [h p] eqn:Hk.
  assert (mq_ok (set_mq_heap s h)) as Hokh by (destruct Hok; by constructor).
  case_if; [by split_and!; [|left|simpl; lia]|].
  pose proof (mq_len _ Hok) as Hlen. unfold MQ_MAX_QUEUES in *.
  set (q := Mqueue true _ _ _ _ _ _ _ _ _).
  assert (queue_ok q) as Hq.
  { apply new_queue_ok; try lia. apply (mq_lens _ Hok). unfold MQ_MAX_QUEUES; lia. }
  cbn [set_mq_heap next_queue_id] in *. rewrite Enext. set (s' := Mqs _ _ _ _ _ _).
  assert (forall j, 0 <= j < 16 -> (queues s').[j] = if decide (slot = j) then q else (queues s).[j])
    as Hget.
  { intros j Hj. simpl. case_decide; [subst; apply aget_aset_eq; simpl; lia|].
    apply aget_aset_ne; lia. }
  assert (mq_ok s') as Hok'.
  { constructor; unfold MQ_MAX_QUEUES.
    - simpl. by rewrite aset_length.
    - intros j Hj. rewrite Hget by lia. case_decide; [|by apply (mq_lens _ Hok)].
      simpl. rewrite blit_length. apply (mq_lens _ Hok). unfold MQ_MAX_QUEUES; lia.
    - intros j Hj. rewrite Hget by lia. case_decide; [done|]. by apply (mq_queue _ Hok).
    - intros j Hj. rewrite Hget by lia. simpl. pose proof (mq_next _ Hok). case_decide.
      + simpl. lia.
      + intros Hu. pose proof (mq_ids _ Hok j Hj Hu). lia.
    - intros j k Hj Hk'. rewrite !Hget by lia. pose proof (mq_next _ Hok).
      repeat case_decide; subst; try done; simpl; intros Hu1 Hu2 E.
      + pose proof (mq_ids _ Hok k Hk' Hu2). lia.
      + pose proof (mq_ids _ Hok j Hj Hu1). lia.
      + by apply (mq_uniq _ Hok).
    - simpl. pose proof (mq_next _ Hok). lia. }
  split; [exact Hok'|]. split; [|simpl; lia]. right.
  split_and!; [done|done| |].
  - unfold abs. rewrite (proj2 (find_spec s' _ slot Hok')).
    + simpl. fold s'. rewrite Hget, decide_True by lia. done.
    + unfold MQ_MAX_QUEUES. rewrite Hget, decide_True by lia. split; [lia|done].
  - intros o Ho. apply (abs_frame _ _ slot); try done; unfold MQ_MAX_QUEUES.
    + intros j Hj Hne. rewrite Hget by lia. by rewrite decide_False by done.
    + by left.
    + right. rewrite Hget, decide_True by lia. simpl in *. congruence.
Qed.

Lemma mqueue_unlink_ok s qid :
  mq_ok s ->
  let '(s', r) := mqueue_unlink s qid in
  mq_ok s' /\ next_queue_id s' = next_queue_id s /\
  (r = 0 <-> is_Some (abs s qid)) /\ abs s' qid = None /\
  (forall o, o <> qid -> abs s' o = abs s o).
Proof.
  intros Hok. unfold mqueue_unlink. destruct (mqueue_find s qid) as [i|] eqn:Hf.
  2: { unfold abs at 1 2. rewrite Hf. split_and!; try done. split; [done|].
       intros [? ?]. done. }
  rewrite (abs_find _ _ _ Hf). pose proof Hf as Hf'.
  apply (find_spec _ _ _ Hok) in Hf' as (Hi & Hu & Hid).
  pose proof (mq_queue _ Hok i Hi Hu) as Hq.
  rewrite (proj2 (Z.eqb_neq _ 0) (q_storage _ Hq)). simpl negb.
  pose proof (mq_len _ Hok) as Hlen.
  set (q := Mqueue false _ _ _ _ _ _ _ _ _). cbv iota.
  set (s' := set_queue _ _ _).
  assert (forall j, 0 <= j < MQ_MAX_QUEUES ->
    (queues s').[j] = if decide (i = j) then q else (queues s).[j]) as Hget.
  { intros j Hj. simpl. case_decide; [subst; apply aget_aset_eq; simpl; lia|].
    apply aget_aset_ne; lia. }
  assert (mq_ok s') as Hok'.
  { constructor.
    - simpl. by rewrite aset_length.
    - intros j Hj. rewrite Hget by done. case_decide; [|by apply (mq_lens _ Hok)].
      unfold q; cbn [lengths]. rewrite blit_length. by apply (mq_lens _ Hok).
    - intros j Hj. rewrite Hget by done. case_decide; [done|]. by apply (mq_queue _ Hok).
    - intros j Hj. rewrite Hget by done. case_decide; [done|]. by apply (mq_ids _ Hok).
    - intros j k Hj Hk. rewrite !Hget by done. repeat case_decide; try done.
      by apply (mq_uniq _ Hok).
    - apply (mq_next _ Hok). }
  split_and!; [exact Hok'|done|by split| |].
  - unfold abs. rewrite (proj2 (find_None s' qid)); [done|].
    intros j Hj. rewrite Hget by done. case_decide; [done|]. intros Hj' E.
    subst qid. by apply (mq_uniq _ Hok) in E.
  - intros o Ho. apply (abs_frame _ _ i); try done.
    + intros j Hj Hne. rewrite Hget by done. by rewrite decide_False by done.
    + right. congruence.
    + left. by rewrite Hget, decide_True by done.
Qed.

(** ** Runs *)

Lemma same_table_ok s s' :
  queues s' = queues s -> next_queue_id s' = next_queue_id s -> mq_ok s -> mq_ok s'.
Proof. intros E1 E2 []. constructor; rewrite ?E1, ?E2; done. Qed.

Lemma same_table_abs s s' o : queues s' = queues s -> abs s' o = abs s o.
Proof. intros E. unfold abs, mqueue_find. by rewrite E. Qed.

Lemma mqueue_open_fd_table install s qid flags :
  queues (mqueue_open_fd install s qid flags).1 = queues s /\
  next_queue_id (mqueue_open_fd install s qid flags).1 = next_queue_id s.
Proof.
  unfold mqueue_open_fd, mqueue_make_fd_node. destruct (mqueue_find s qid); [|done].
  repeat case_if; try done. all: destruct (ka_malloc (mq_heap s) _) as [h1 node]; simpl.
  all: repeat case_if; try done.
  all: try (destruct (ka_malloc h1 _) as [h2 e]; simpl).
  all: repeat case_if; try done.
Qed.

Lemma mqueue_close_op_table s node :
  queues (mqueue_close_op s node) = queues s /\
  next_queue_id (mqueue_close_op s node) = next_queue_id s.
Proof.
  unfold mqueue_close_op. destruct (mq_nodes s !! node); [|done]. by case_if.
Qed.

(** The calls the kernel makes on the table, in any order, up to the last
    identifier an [int] can hold. *)
Inductive mqstep : mqs H -> mqs H -> Prop :=
| MqCreate s max msize : 0 <= max < 4294967296 -> 0 <= msize < 4294967296 ->
    next_queue_id s < 2147483647 -> mqstep s (mqueue_create s max msize).1
| MqSend s qid msg : mqstep s (mqueue_send s qid msg).1
| MqReceive s qid bv n : mqstep s (mqueue_receive s qid bv n).1.1
| MqUnlink s qid : mqstep s (mqueue_unlink s qid).1
| MqOpen install s qid flags : mqstep s (mqueue_open_fd install s qid flags).1
| MqClose s node : mqstep s (mqueue_close_op s node)
| MqSignal s e : mqstep s (task_signal_event s e).

(** Every call keeps the invariant, never lowers the next identifier and
    leaves a dead identifier dead. *)
Lemma mqueue_send_abs s qid msg o :
  mq_ok s -> abs s o = None -> abs (mqueue_send s qid msg).1 o = None.
Proof.
  intros Hok Ho. unfold mqueue_send. destruct msg as [m|]; [|done]. case_if; [done|].
  destruct (mqueue_find s qid) as [i|] eqn:Hf; [|done].
  pose proof Hf as Hf'. apply (find_spec _ _ _ Hok) in Hf' as (Hi & Hu & Hid).
  repeat case_if; try done. simpl.
  destruct (enqueue_spec (queues s).[i] m (mq_queue _ Hok i Hi Hu) (mq_lens _ Hok i Hi)) as [Hq _];
    [lia|lia|].
  rewrite abs_set_queue; try done.
  - rewrite decide_False; [done|]. simpl. intros ->. subst qid.
    by rewrite (abs_find _ _ _ Hf) in Ho.
  - apply set_queue_ok; try done. simpl. rewrite aset_length. by apply (mq_lens _ Hok).
Qed.

Lemma mqueue_receive_abs s qid bv n o :
  mq_ok s -> abs s o = None -> abs (mqueue_receive s qid bv n).1.1 o = None.
Proof.
  intros Hok Ho. unfold mqueue_receive. case_if; [done|].
  destruct (mqueue_find s qid) as [i|] eqn:Hf; [|done].
  pose proof Hf as Hf'. apply (find_spec _ _ _ Hok) in Hf' as (Hi & Hu & Hid).
  repeat case_if; try done. simpl. pose proof (q_count _ (mq_queue _ Hok i Hi Hu)).
  destruct (dequeue_spec (queues s).[i] (mq_queue _ Hok i Hi Hu) (mq_lens _ Hok i Hi)) as [Hq _];
    [lia|].
  rewrite abs_set_queue; try done.
  - rewrite decide_False; [done|]. simpl. intros ->. subst qid.
    by rewrite (abs_find _ _ _ Hf) in Ho.
  - apply set_queue_ok; try done. simpl. rewrite aset_length. by apply (mq_lens _ Hok).
Qed.

Lemma next_send s qid msg : next_queue_id (mqueue_send s qid msg).1 = next_queue_id s.
Proof.
  unfold mqueue_send. destruct msg; [|done]. case_if; [done|].
  destruct (mqueue_find s qid); [|done]. by repeat case_if.
Qed.

Lemma next_receive s qid bv n :
  next_queue_id (mqueue_receive s qid bv n).1.1 = next_queue_id s.
Proof.
  unfold mqueue_receive. case_if; [done|].
  destruct (mqueue_find s qid); [|done]. by repeat case_if.
Qed.

Lemma mqstep_spec s s' o :
  mqstep s s' -> mq_ok s -> o < next_queue_id s -> abs s o = None ->
  mq_ok s' /\ o < next_queue_id s' /\ abs s' o = None.
Proof.
  intros Hst Hok Hlt Ho. destruct Hst.
  - pose proof (mqueue_create_ok s max msize) as Hc.
    destruct (mqueue_create s max msize) as [s' r]. simpl.
    destruct Hc as (Hok' & Hcase & Hle); try done. split_and!; [done|lia|].
    destruct Hcase as [[_ ->]|(Hr & _ & _ & Hrest)]; [done|]. rewrite Hrest; [done|lia].
  - rewrite next_send. auto using mqueue_send_ok, mqueue_send_abs.
  - rewrite next_receive. auto using mqueue_receive_ok, mqueue_receive_abs.
  - pose proof (mqueue_unlink_ok s qid Hok) as Hu.
    destruct (mqueue_unlink s qid) as [s' r]. simpl.
    destruct Hu as (Hok' & -> & _ & Hq & Hrest). split_and!; [done|done|].
    destruct (decide (o = qid)) as [->|]; [done|]. by rewrite Hrest.
  - destruct (mqueue_open_fd_table install s qid flags) as [E1 E2].
    rewrite E2, (same_table_abs s) by done. eauto using same_table_ok.
  - destruct (mqueue_close_op_table s node) as [E1 E2].
    rewrite E2, (same_table_abs s) by done. eauto using same_table_ok.
  - split_and!; [by apply (same_table_ok s)|done|]. by rewrite (same_table_abs s).
Qed.

Lemma mqstep_ok s s' : mqstep s s' -> mq_ok s -> mq_ok s'.
Proof.
  intros Hst Hok. apply (mqstep_spec s s' 0 Hst Hok); [pose proof (mq_next _ Hok); lia|].
  unfold abs. rewrite (proj2 (find_None s 0)); [done|].
  intros i Hi Hu. pose proof (mq_ids _ Hok i Hi Hu). lia.
Qed.

(** Along any run of the kernel's queue calls the table stays well formed,
    and an identifier that was issued and unlinked stays dead: [mqueue_create]
    never reissues it, so a stale descriptor cannot reach a new queue. *)
Theorem mqueue_ids_never_reused (h : H) nodes ends s s' qid :
  rtc mqstep (mqueue_init h nodes ends) s -> rtc mqstep s s' ->
  qid < next_queue_id s -> abs s qid = None ->
  mq_ok s' /\ qid < next_queue_id s' /\ abs s' qid = None.
Proof.
  intros H1r H2r Hlt Ho.
  assert (mq_ok s) as Hok
    by (eapply rtc_invariant; [apply mqstep_ok|done|apply mqueue_init_ok]).
  apply (rtc_invariant mqstep (fun t => mq_ok t /\ qid < next_queue_id t /\ abs t qid = None) s s');
    [|done..].
  intros a b Hab (? & ? & ?). by apply (mqstep_spec a).
Qed.

(** [mqueue_create] with parameters in range either fails and leaves every
    queue as it was, or returns the next identifier, which names an empty
    queue of the requested geometry, and touches no other queue; the counter of
    identifiers, an [int], has not reached its maximum. *)
Theorem mqueue_create_spec s max msize :
  0 <= max < 4294967296 -> 0 <= msize < 4294967296 -> next_queue_id s < 2147483647 -> mq_ok s ->
  let '(s', r) := mqueue_create s max msize in
  (r = -1 /\ forall o, abs s' o = abs s o) \/
  (r = next_queue_id s /\ abs s r = None /\ abs s' r = Some (AQueue max msize []) /\
   1 <= max <= MQ_MAX_MESSAGES /\ 1 <= msize <= MQ_MAX_MESSAGE_SIZE /\
   forall o, o <> r -> abs s' o = abs s o).
Proof.
  intros Hm Hz Hmax Hok. pose proof (mqueue_create_ok s max msize Hm Hz Hmax Hok) as Hc.
  assert (snd (mqueue_create s max msize) <> -1 ->
    1 <= max <= MQ_MAX_MESSAGES /\ 1 <= msize <= MQ_MAX_MESSAGE_SIZE) as Hrange.
  { unfold mqueue_create. case_if; [done|]. intros _. lia. }
  destruct (mqueue_create s max msize) as [s' r].
  destruct Hc as (_ & [Hf|(-> & Hn & Ha & Hrest)] & _); [by left|]. right.
  pose proof (mq_next _ Hok). destruct Hrange as [? ?]; [simpl; lia|].
  split_and!; try done; try lia. unfold abs.
  rewrite (proj2 (find_None s _)); [done|]. intros i Hi Hu.
  pose proof (mq_ids _ Hok i Hi Hu). lia.
Qed.

(** The wake-up events of live queues never collide: the read and write
    events of all queues with identifiers below 2^29 are pairwise distinct
    non-negative integers. *)
Theorem mqueue_event_ids_distinct s a b :
  mq_ok s -> is_Some (abs s a) -> is_Some (abs s b) -> a < 536870912 -> b < 536870912 ->
  0 <= mqueue_read_event_id s a /\ 0 <= mqueue_write_event_id s a /\
  mqueue_read_event_id s a <> mqueue_write_event_id s b /\
  (mqueue_read_event_id s a = mqueue_read_event_id s b -> a = b) /\
  (mqueue_write_event_id s a = mqueue_write_event_id s b -> a = b).
Proof.
  intros Hok Ha Hb La Lb.
  assert (forall q off, is_Some (abs s q) -> q < 536870912 -> 0 <= off <= 1 ->
    mqueue_event_id_for s (mqueue_find s q) off = MQ_EVENT_BASE + 2 * q + off) as He.
  { intros q off [aq Hq] Hlt Hoff. unfold abs in Hq.
    destruct (mqueue_find s q) as [i|] eqn:Hf; [|done].
    apply (find_spec _ _ _ Hok) in Hf as (Hi & Hu & Hid).
    pose proof (mq_ids _ Hok i Hi Hu). unfold mqueue_event_id_for.
    rewrite Hu, (proj2 (Z.leb_gt _ 0)) by lia. simpl. rewrite Hid.
    unfold s32, MQ_EVENT_BASE. rewrite (u32_small (q * 2)) by lia.
    rewrite u32_small by lia. case_if; lia. }
  assert (forall q, is_Some (abs s q) -> 1 <= q) as Hpos.
  { intros q [aq Hq]. unfold abs in Hq. destruct (mqueue_find s q) as [i|] eqn:Hf; [|done].
    apply (find_spec _ _ _ Hok) in Hf as (Hi & Hu & Hid).
    pose proof (mq_ids _ Hok i Hi Hu). lia. }
  pose proof (Hpos _ Ha). pose proof (Hpos _ Hb).
  unfold mqueue_read_event_id, mqueue_write_event_id, MQ_EVENT_BASE in *.
  rewrite !He by (done || lia). lia.
Qed.

End props.

(** * Concrete runs *)

Definition demo_mq0 : mqs pool := mqueue_init (Pool 4096 8 ∅) ∅ ∅.
Definition demo_mq1 : mqs pool := (mqueue_create demo_mq0 2 4).1.
Definition demo_mq2 : mqs pool := (mqueue_send demo_mq1 1 (Some [7; 8; 9])).1.

Lemma demo_mq2_ok : mq_ok demo_mq2.
Proof.
  apply mqueue_send_ok.
  pose proof (mqueue_create_ok demo_mq0 2 4 ltac:(lia) ltac:(lia) ltac:(done) (mqueue_init_ok _ _ _)) as Hc.
  unfold demo_mq1. destruct (mqueue_create demo_mq0 2 4). apply Hc.
Qed.

Lemma mqueue_refines_witness :
  abs (mqueue_send demo_mq2 1 (Some [5])).1 1 = Some (AQueue 2 4 [[7; 8; 9]; [5]]) /\
  (mqueue_send demo_mq2 1 (Some [5])).2 = 0 /\
  let '(s', rc, out) := mqueue_receive demo_mq2 1 true 8 in
  abs s' 1 = Some (AQueue 2 4 []) /\ rc = 0 /\ out = [7; 8; 9].
Proof.
  destruct (mqueue_refines demo_mq2 1 [5] 8 demo_mq2_ok ltac:(discriminate)) as [(_ & Hs & _) Hr].
  assert (abs demo_mq2 1 = Some (AQueue 2 4 [[7; 8; 9]])) as E by (vm_compute; reflexivity). rewrite E in Hs, Hr.
  destruct (mqueue_receive demo_mq2 1 true 8) as [[s' rc] out]. destruct Hr as (_ & Hr & _).
  split; [exact (proj1 Hs)|]. split; [exact (proj2 Hs)|exact Hr].
Defined.

Lemma mqueue_ids_never_reused_witness :
  let s1 := (mqueue_unlink demo_mq1 1).1 in
  let s2 := (mqueue_create s1 3 16).1 in
  (mqueue_create s1 3 16).2 = 2 /\ abs s2 1 = None.
Proof.
  split; [vm_compute; reflexivity|].
  eapply (mqueue_ids_never_reused (Pool 4096 8 ∅) ∅ ∅ (mqueue_unlink demo_mq1 1).1).
  - eapply rtc_l; [apply (MqCreate demo_mq0 2 4); [lia|lia|done]|]. apply rtc_once. constructor.
  - apply rtc_once. apply MqCreate; [lia|lia|by vm_compute].
  - vm_compute. reflexivity.
  - vm_compute. reflexivity.
Defined.

Lemma mqueue_create_spec_witness :
  abs (mqueue_create demo_mq2 3 16).1 2 = Some (AQueue 3 16 []) /\
  abs (mqueue_create demo_mq2 3 16).1 1 = abs demo_mq2 1.
Proof.
  pose proof (mqueue_create_spec demo_mq2 3 16 ltac:(lia) ltac:(lia) ltac:(done) demo_mq2_ok) as Hc.
  assert ((mqueue_create demo_mq2 3 16).2 = 2) as E by (vm_compute; reflexivity).
  destruct (mqueue_create demo_mq2 3 16) as [s' r]. simpl in E. subst r.
  destruct Hc as [[Hc _]|(_ & _ & Ha & _ & _ & Hrest)]; [discriminate|].
  split; [exact Ha|]. apply Hrest. discriminate.
Defined.

Lemma mqueue_event_ids_distinct_witness :
  mqueue_read_event_id demo_mq2 1 <> mqueue_write_event_id demo_mq2 1.
Proof.
  apply (mqueue_event_ids_distinct demo_mq2 1 1 demo_mq2_ok);
    try lia; vm_compute; eauto.
Defined.
