(* ===== verification/Fs.v ===== *)
(** The flat file store of [fs/fs.c]: read-only files of the image overlaid by a
    table of 32 writable files whose names and data are heap blocks.

    A name or a text is the list of its bytes before the terminator; strings are
    compared by [KString.str_equals].  The heap is a [KAllocator]; an entry has
    the addresses of its two blocks and what they hold. *)
From S2P Require Import Prelude.
From S2P Require Import Interfaces.
From S2P Require Import KString.
From Stdlib Require Import ZArith Lia.
From stdpp Require Import base numbers list gmap.

Open Scope Z_scope.
Open Scope lyth_scope.

Definition FS_WRITE_MAX : Z := 32.
Definition FS_WRITE_NAME_MAX : Z := 64.

Record fs_writable_entry := WEntry {
  w_used : bool;
  w_name : Z; w_text : list Z;
  w_data : Z; w_bytes : list Z;
  w_size : Z }.
#[export] Instance fs_writable_inhabited : Inhabited fs_writable_entry :=
  populate (WEntry false 0 [] 0 [] 0).
#[export] Instance fs_writable_fields : Fields fs_writable_entry :=
  fun e => WEntry (w_used e) (w_name e) (w_text e) (w_data e) (w_bytes e) (w_size e).

Record fs_entry := FsEntry { f_name : list Z; f_contents : list Z }.
#[export] Instance fs_entry_inhabited : Inhabited fs_entry := populate (FsEntry [] []).

(** The two tables, and the text at address zero, which the code reads when the
    block of a name could not be allocated. *)
Record fs := Fs { writable : list fs_writable_entry; files : list fs_entry; null_text : list Z }.
#[export] Instance fs_fields : Fields fs := fun s => Fs (writable s) (files s) (null_text s).

Definition file_count (s : fs) : Z := Z.of_nat (length (files s)).

Definition fs_init (s : fs) : fs := s <| writable := repeat (WEntry false 0 [] 0 [] 0) 32 |>.

(** The text of an entry's name, and the searches of both tables. *)
Definition entry_name (s : fs) (e : fs_writable_entry) : list Z :=
  if w_name e =? 0 then null_text s else w_text e.

Definition find_writable (s : fs) (name : list Z) : option Z :=
  find_first (fun i => w_used (writable s).[i] && str_equals (entry_name s (writable s).[i]) name)
    (Z.to_nat FS_WRITE_MAX) 0.

Definition find_static (s : fs) (name : list Z) : option Z :=
  find_first (fun i => str_equals (f_name (files s).[i]) name) (length (files s)) 0.

Definition fs_count (s : fs) : Z :=
  for_loop (fun i count => if w_used (writable s).[i] then count + 1 else count)
    (Z.to_nat FS_WRITE_MAX) 0 (file_count s).

(** The name of the [target]-th used entry from index [i]; a null pointer when the
    name has no block. *)
Fixpoint nth_used (s : fs) (n : nat) (i target : Z) : option (list Z) :=
  match n with
  | O => None
  | S n' =>
      if w_used (writable s).[i] then
        if target =? 0 then if w_name (writable s).[i] =? 0 then None else Some (w_text (writable s).[i])
        else nth_used s n' (i + 1) (target - 1)
      else nth_used s n' (i + 1) target
  end.

Definition fs_name_at (s : fs) (index : Z) : option (list Z) :=
  if index <? 0 then None
  else if index <? file_count s then Some (f_name (files s).[index])
  else nth_used s (Z.to_nat FS_WRITE_MAX) 0 (index - file_count s).

Definition fs_size (s : fs) (name : list Z) : Z :=
  match find_writable s name with
  | Some i => w_size (writable s).[i]
  | None =>
      match find_static s name with
      | Some i => Z.of_nat (length (f_contents (files s).[i]))
      | None => 0
      end
  end.

Definition fs_exists (s : fs) (name : list Z) : bool :=
  match find_writable s name with
  | Some _ => true
  | None => match find_static s name with Some _ => true | None => false end
  end.

(** The result and the bytes copied to the front of the buffer. *)
Definition fs_read_bytes (s : fs) (name : list Z) (buffer_size : Z) : Z * list Z :=
  if buffer_size =? 0 then (-1, [])
  else
    match find_writable s name with
    | Some w =>
        let e := (writable s).[w] in
        let size := if buffer_size <? w_size e then buffer_size else w_size e in
        (s32 size, slice (w_bytes e) 0 size)
    | None =>
        match find_static s name with
        | Some i =>
            let c := f_contents (files s).[i] in
            let size := if buffer_size <? Z.of_nat (length c) then buffer_size else Z.of_nat (length c) in
            (s32 size, slice c 0 size)
        | None => (-1, [])
        end
    end.

Definition fs_read (s : fs) (name : list Z) (buffer_size : Z) : Z * list Z :=
  if buffer_size =? 0 then (-1, [])
  else
    let '(read, bytes) := fs_read_bytes s name (buffer_size - 1) in
    if read <? 0 then (-1, bytes) else (read, bytes ++ [0]).

Section heap.
Context {H : Type} `{KAllocator H}.

Definition kfree (p : Z) (h : H) : H := if p =? 0 then h else ka_free h p.

(** A new entry for a name: the slot is taken even if there is no block for the
    name. *)
Definition new_entry (s : fs) (name : list Z) (h : H) : H * fs * Z :=
  match find_first (fun i => negb (w_used (writable s).[i])) (Z.to_nat FS_WRITE_MAX) 0 with
  | None => (h, s, -1)
  | Some i =>
      let '(h, p) := ka_malloc h FS_WRITE_NAME_MAX in
      let text := if p =? 0 then [] else take (Z.to_nat (FS_WRITE_NAME_MAX - 1)) name in
      (h, s <| writable := (writable s).[i <- WEntry true p text 0 [] 0] |>, i)
  end.

Definition set_data (s : fs) (i data : Z) (bytes : list Z) (size : Z) : fs :=
  s <| writable := (writable s).[i <- (writable s).[i] <| w_data := data |> <| w_bytes := bytes |>
                                        <| w_size := size |>] |>.

(** Appending to the data of an entry, and replacing them. *)
Definition append_data (s : fs) (slot : Z) (data : list Z) (size : Z) (h : H) : H * fs * Z :=
  let e := (writable s).[slot] in
  let new_size := u32 (w_size e + size) in
  let '(h, p) := ka_malloc h new_size in
  if p =? 0 then (h, s, -1)
  else (kfree (w_data e) h, set_data s slot p (slice (w_bytes e) 0 (w_size e) ++ slice data 0 size) new_size,
        s32 new_size).

Definition replace_data (s : fs) (slot : Z) (data : list Z) (size : Z) (h : H) : H * fs * Z :=
  let e := (writable s).[slot] in
  let h := kfree (w_data e) h in
  let s := if w_data e =? 0 then s else set_data s slot 0 [] 0 in
  if size =? 0 then (h, set_data s slot 0 [] 0, 0)
  else
    let '(h, p) := ka_malloc h size in
    if p =? 0 then (h, s, -1) else (h, set_data s slot p (slice data 0 size) size, s32 size).

(** [data] is [None] for a null pointer. *)
Definition fs_write (name : list Z) (data : option (list Z)) (size : Z) (append : bool) (s : fs) (h : H)
    : H * fs * Z :=
  if bool_decide (name = []) then (h, s, -1)
  else if bool_decide (data = None) && (0 <? size) then (h, s, -1)
  else
    let '(h, s, slot) :=
      match find_writable s name with
      | Some i => (h, s, i)
      | None => if append then (h, s, -1) else new_entry s name h
      end in
    if slot <? 0 then (h, s, -1)
    else
      let e := (writable s).[slot] in
      if append && w_used e && negb (w_data e =? 0) then append_data s slot (default [] data) size h
      else replace_data s slot (default [] data) size h.

Definition fs_delete (name : list Z) (s : fs) (h : H) : H * fs * Z :=
  if bool_decide (name = []) then (h, s, -1)
  else
    match find_writable s name with
    | Some i =>
        let e := (writable s).[i] in
        (kfree (w_name e) (kfree (w_data e) h),
         s <| writable := (writable s).[i <- WEntry false 0 [] 0 [] 0] |>, 0)
    | None => (h, s, -1)
    end.

End heap.

(** A heap without blocks of 1 GiB or more.  The kernel heap has at most one
    region of 4 MiB and 31 of 2 MiB.  Sizes above 0xFFFFFFF0 are left out: they
    wrap around when they are rounded up. *)
Class SmallBlocks (H : Type) `{KAllocator H} : Prop :=
  big_fails : forall (h : H) n, 1073741824 <= n <= 4294967280 -> (ka_malloc h n).2 = 0.

(** * Texts *)

Definition text (s : list Z) : Prop := Forall (fun c => c <> 0) s.

Lemma str_equals_text a b : text a -> text b -> str_equals a b = bool_decide (a = b).
Proof.
  intros Ha Hb. apply eq_true_iff_eq. rewrite (proj1 (str_predicates_correct a b)), !cstr_id by done.
  by rewrite bool_decide_eq_true.
Qed.

Lemma text_take n s : text s -> text (take n s).
Proof. apply Forall_take. Qed.

(** * The invariant *)

Definition entry_ok (e : fs_writable_entry) : Prop :=
  w_used e = true ->
  text (w_text e) /\ Z.of_nat (length (w_text e)) <= 63 /\
  w_size e = Z.of_nat (length (w_bytes e)) /\ (w_data e = 0 <-> w_bytes e = []).

Definition entry_blocks (e : fs_writable_entry) : list Z :=
  if w_used e then filter (fun p => p <> 0) [w_name e; w_data e] else [].

Definition blocks (s : fs) : list Z := writable s ≫= entry_blocks.

Definition static_ok (s : fs) : Prop := Forall (fun f => text (f_name f)) (files s) /\ text (null_text s).

(** The blocks of the entries are allocated and pairwise different. *)
Definition fs_ok {H} `{KAllocator H} (h : H) (s : fs) : Prop :=
  length (writable s) = 32%nat /\ Forall entry_ok (writable s) /\ static_ok s /\
  NoDup (blocks s) /\ forall p, p ∈ blocks s -> p ∈ ka_live h.

(** The file a name stands for. *)
Definition static_contents (s : fs) (name : list Z) : option (list Z) :=
  (fun i => f_contents (files s).[i]) <$> find_static s name.

Definition contents (s : fs) (name : list Z) : option (list Z) :=
  match find_writable s name with
  | Some i => Some (w_bytes (writable s).[i])
  | None => static_contents s name
  end.

(** What an operation on the store keeps: the invariant, and the blocks of
    other owners of the heap. *)
Definition fs_step {H} `{KAllocator H} (h : H) (s : fs) (h' : H) (s' : fs) : Prop :=
  fs_ok h' s' /\ files s' = files s /\ null_text s' = null_text s /\
  forall p, p ∈ ka_live h -> p ∉ blocks s -> p ∈ ka_live h' /\ p ∉ blocks s'.

Lemma blocks_update s i e' :
  0 <= i < Z.of_nat (length (writable s)) ->
  exists rest, blocks s ≡ₚ entry_blocks (writable s).[i] ++ rest /\
    blocks (s <| writable := (writable s).[i <- e'] |>) ≡ₚ entry_blocks e' ++ rest.
Proof.
  intros Hi. unfold blocks. cbn [writable update]. unfold aset, aget. set (l := writable s) in *.
  assert (l !! Z.to_nat i = Some (l !!! Z.to_nat i)) as E by (apply list_lookup_lookup_total_lt; lia).
  exists ((take (Z.to_nat i) l ≫= entry_blocks) ++ (drop (S (Z.to_nat i)) l ≫= entry_blocks)).
  split.
  - rewrite <- (take_drop_middle l (Z.to_nat i) _ E) at 1. rewrite bind_app. cbn [mbind list_bind].
    by rewrite Permutation_app_swap_app.
  - rewrite insert_take_drop by lia. rewrite bind_app. cbn [mbind list_bind].
    by rewrite Permutation_app_swap_app.
Qed.

Section props.
Context {H : Type} `{KAllocatorLaws H}.

Lemma kfree_live p (h : H) : p = 0 \/ p ∈ ka_live h -> forall q, q ∈ ka_live (kfree p h) <-> q ∈ ka_live h /\ (q <> p \/ p = 0).
Proof.
  intros Hp q. unfold kfree. destruct (Z.eqb_spec p 0) as [->|Hne]; [naive_solver|].
  destruct Hp as [?|Hp]; [done|]. rewrite ka_free_live by done.
  rewrite elem_of_difference, elem_of_singleton. naive_solver.
Qed.

Lemma fs_ok_entry (h : H) s i : fs_ok h s -> 0 <= i < 32 -> entry_ok (writable s).[i].
Proof.
  intros (Hl & He & _) Hi. rewrite Forall_lookup in He. apply (He (Z.to_nat i)). apply aget_lookup. lia.
Qed.

(** Replacing one entry: its blocks are exchanged for those of the new one. *)
Lemma fs_step_entry (h h' : H) s i e' :
  fs_ok h s -> 0 <= i < 32 -> entry_ok e' -> NoDup (entry_blocks e') ->
  (forall p, p ∈ entry_blocks e' -> p ∈ ka_live h' /\ (p ∈ entry_blocks (writable s).[i] \/ p ∉ ka_live h)) ->
  (forall p, p ∈ ka_live h -> p ∉ entry_blocks (writable s).[i] -> p ∈ ka_live h') ->
  fs_step h s h' (s <| writable := (writable s).[i <- e'] |>).
Proof.
  intros (Hl & He & Hst & Hnd & Hlive) Hi He' Hnd' Hnew Hkeep.
  destruct (blocks_update s i e') as (rest & E1 & E2); [lia|].
  rewrite E1 in Hnd. apply NoDup_app in Hnd as (Hnd1 & Hdis & Hnd2).
  assert (forall p, p ∈ rest -> p ∈ ka_live h) as Hrest.
  { intros p Hp. apply Hlive. rewrite E1, elem_of_app. by right. }
  split; [|split; [done|split; [done|]]].
  - split; [|split; [|split; [done|split]]].
    + cbn. by rewrite aset_length.
    + cbn. unfold aset. by apply Forall_insert.
    + rewrite E2. apply NoDup_app. split; [done|]. split; [|done]. intros p Hp Hr.
      destruct (Hnew p Hp) as [_ [Hold|Hnl]]; [by apply (Hdis p)|]. by apply Hnl, Hrest.
    + intros p. rewrite E2, elem_of_app. intros [Hp|Hp]; [by apply Hnew|].
      apply Hkeep; [by apply Hrest|]. intros Hin. by apply (Hdis p).
  - intros p Hp Hn. rewrite E1, elem_of_app in Hn.
    split; [apply Hkeep; [done|]; naive_solver|].
    rewrite E2, elem_of_app. intros [Hin|Hin]; [|naive_solver].
    destruct (Hnew p Hin) as [_ [?|?]]; naive_solver.
Qed.

Lemma fs_step_refl (h : H) s : fs_ok h s -> fs_step h s h s.
Proof. by intros Hok. Qed.

Lemma fs_step_trans (h h1 h2 : H) s s1 s2 : fs_step h s h1 s1 -> fs_step h1 s1 h2 s2 -> fs_step h s h2 s2.
Proof.
  intros (_ & E1 & E2 & Hk) (Hok & E3 & E4 & Hk'). split; [done|]. split; [congruence|]. split; [congruence|].
  intros p Hp Hn. destruct (Hk p Hp Hn). by apply Hk'.
Qed.

Lemma malloc_cases (h : H) n :
  exists h' p, ka_malloc h n = (h', p) /\
    (p = 0 /\ ka_live h' = ka_live h \/ p <> 0 /\ p ∉ ka_live h /\ ka_live h' = {[p]} ∪ ka_live h).
Proof.
  destruct (ka_malloc h n) as [h' p] eqn:E. exists h', p. split; [done|]. destruct (decide (p = 0)) as [->|Hp].
  - left. split; [done|]. by apply (ka_malloc_fail h n h').
  - right. split; [done|]. by apply (ka_malloc_fresh h n h' p).
Qed.

Lemma fs_ok_live (h h' : H) s : fs_ok h s -> ka_live h' = ka_live h -> fs_step h s h' s.
Proof.
  intros (Hl & He & Hst & Hnd & Hlive) E. unfold fs_step, fs_ok. rewrite E. split_and!; try done.
Qed.

Lemma entry_blocks_used e : w_used e = true ->
  forall p, p ∈ entry_blocks e <-> p <> 0 /\ (p = w_name e \/ p = w_data e).
Proof.
  intros Hu p. unfold entry_blocks. rewrite Hu, list_elem_of_filter, !elem_of_cons, elem_of_nil. tauto.
Qed.

Lemma entry_blocks_NoDup e : w_used e = true -> NoDup (entry_blocks e) <-> (w_name e = w_data e -> w_name e = 0).
Proof.
  intros Hu. unfold entry_blocks. rewrite Hu, !filter_cons, filter_nil.
  destruct (decide (w_name e <> 0)), (decide (w_data e <> 0)); cbn;
    rewrite ?NoDup_cons, ?elem_of_cons, ?elem_of_nil, ?NoDup_nil; split; try naive_solver lia.
  all: intros; split_and!; try done; intros ?; naive_solver lia.
Qed.

Lemma new_entry_step (h : H) s name :
  fs_ok h s -> text name ->
  let '(h', s', slot) := new_entry s name h in
  fs_step h s h' s' /\ (slot = -1 /\ s' = s \/
    0 <= slot < 32 /\ w_used (writable s).[slot] = false /\
    exists p, s' = s <| writable := (writable s).[slot <-
      WEntry true p (if p =? 0 then [] else take 63 name) 0 [] 0] |> /\ (h', p) = ka_malloc h 64).
Proof.
  intros Hok Hname. unfold new_entry. destruct (find_first _ _ _) as [i|] eqn:Ef.
  2:{ split; [by apply fs_step_refl|by left]. }
  apply find_first_Some in Ef as (Hi & Hu & _). apply negb_true_iff in Hu. change (Z.to_nat FS_WRITE_MAX) with 32%nat in Hi.
  unfold FS_WRITE_NAME_MAX. destruct (malloc_cases h 64) as (h' & p & Em & Hp). rewrite Em.
  split; [|right; split; [lia|]; split; [done|]; by exists p].
  apply fs_step_entry; [done|lia|..].
  - intros _. cbn. split; [|split; [|split; [done|done]]].
    + case_match; [constructor|]. by apply text_take.
    + case_match; cbn; [lia|]. rewrite length_take. lia.
  - by apply entry_blocks_NoDup.
  - intros q. rewrite entry_blocks_used by done. cbn. intros [Hq [->|?]]; [|done].
    destruct Hp as [[-> _]|(_ & Hn & ->)]; [done|]. split; [set_solver|by right].
  - intros q Hq _. destruct Hp as [[_ ->]|(_ & _ & ->)]; set_solver.
Qed.

Lemma entry_blocks_own (h : H) s i : fs_ok h s -> 0 <= i < 32 ->
  NoDup (entry_blocks (writable s).[i]) /\ forall p, p ∈ entry_blocks (writable s).[i] -> p ∈ ka_live h.
Proof.
  intros (Hl & _ & _ & Hnd & Hlive) Hi. destruct (blocks_update s i (writable s).[i]) as (rest & E & _); [lia|].
  rewrite E in Hnd. apply NoDup_app in Hnd as (Hnd & _ & _). split; [done|].
  intros p Hp. apply Hlive. rewrite E, elem_of_app. by left.
Qed.

(** Exchanging the data block of an entry. *)
Lemma set_data_step (h h' : H) s i p bytes :
  fs_ok h s -> 0 <= i < 32 -> w_used (writable s).[i] = true ->
  (p = 0 <-> bytes = []) -> p = 0 \/ p ∉ ka_live h ->
  (forall q, q ∈ ka_live h' <-> (q ∈ ka_live h /\ (q <> w_data (writable s).[i] \/ q = 0)) \/ (q = p /\ p <> 0)) ->
  fs_step h s h' (set_data s i p bytes (Z.of_nat (length bytes))).
Proof.
  intros Hok Hi Hu Hpb Hp Hlive. pose proof (fs_ok_entry h s i Hok Hi Hu) as (Ht & Hlen & _ & _).
  destruct (entry_blocks_own h s i Hok Hi) as [Hnd0 Hown].
  pose proof (proj1 (entry_blocks_NoDup _ Hu) Hnd0) as Hnd.
  set (e := (writable s).[i]) in *. unfold set_data. fold e.
  assert (forall q, q ∈ entry_blocks e <-> q <> 0 /\ (q = w_name e \/ q = w_data e)) as He
    by (by apply entry_blocks_used).
  apply fs_step_entry; fold e; [done|done| | | |].
  - intros _. cbn. done.
  - apply entry_blocks_NoDup; [done|]. cbn. intros E. destruct Hp as [Hp|Hp]; [congruence|].
    destruct (decide (w_name e = 0)) as [|Hne]; [done|]. exfalso. apply Hp. rewrite <- E. apply Hown, He. auto.
  - intros q. rewrite entry_blocks_used by done. cbn. intros [Hq [-> | ->]].
    + rewrite He. split; [|auto]. apply Hlive. left. split; [apply Hown, He; auto|]. left. intros E. by apply Hq, Hnd.
    + split; [apply Hlive; by right|]. right. naive_solver.
  - intros q Hq Hn. apply Hlive. left. split; [done|]. rewrite He in Hn.
    destruct (decide (q = 0)); [by right|]. left. naive_solver.
Qed.


Lemma kfree_data_live (h : H) s i :
  fs_ok h s -> 0 <= i < 32 -> w_used (writable s).[i] = true ->
  forall q, q ∈ ka_live (kfree (w_data (writable s).[i]) h) <->
    q ∈ ka_live h /\ (q <> w_data (writable s).[i] \/ w_data (writable s).[i] = 0).
Proof.
  intros Hok Hi Hu. apply kfree_live. destruct (decide (w_data (writable s).[i] = 0)); [by left|right].
  apply (entry_blocks_own h s i Hok Hi). rewrite entry_blocks_used by done. auto.
Qed.

Lemma set_data_set_data s i p b z p' b' z' :
  0 <= i < Z.of_nat (length (writable s)) -> set_data (set_data s i p b z) i p' b' z' = set_data s i p' b' z'.
Proof.
  intros Hi. unfold set_data. destruct s as [w f n]. cbn [writable update] in *.
  cbn. rewrite aget_aset_eq by done. unfold aset. cbn. by rewrite list_insert_insert_eq.
Qed.

(** Replacing: the old block goes, the new one comes, unless there is none. *)
Lemma replace_data_spec (h : H) s i data size :
  fs_ok h s -> 0 <= i < 32 -> w_used (writable s).[i] = true -> 0 <= size <= Z.of_nat (length data) ->
  size < 1073741824 ->
  let '(h', s', r) := replace_data s i data size h in
  fs_step h s h' s' /\ exists p bytes, s' = set_data s i p bytes (Z.of_nat (length bytes)) /\
    (r = size /\ bytes = slice data 0 size /\
       (size = 0 \/ (ka_malloc (kfree (w_data (writable s).[i]) h) size).2 <> 0) \/
     r = -1 /\ bytes = [] /\ 0 < size /\ (ka_malloc (kfree (w_data (writable s).[i]) h) size).2 = 0).
Proof.
  intros Hok Hi Hu Hs Hs2. pose proof (kfree_data_live h s i Hok Hi Hu) as Hf.
  pose proof (fs_ok_entry h s i Hok Hi Hu) as (_ & _ & Hsz & Hd0). assert (Hl := proj1 Hok).
  unfold replace_data. set (e := (writable s).[i]) in *.
  set (h1 := kfree (w_data e) h) in *.
  assert ((if w_data e =? 0 then s else set_data s i 0 [] 0) = set_data s i 0 [] 0) as ->.
  { destruct (Z.eqb_spec (w_data e) 0) as [E|E]; [|done]. unfold set_data. fold e.
    assert (e <| w_data := 0 |> <| w_bytes := [] |> <| w_size := 0 |> = e) as ->.
    { pose proof (proj1 Hd0 E) as Eb. rewrite Eb in Hsz. clearbody e. destruct e; cbn in *. by subst. }
    unfold e, aset. rewrite list_insert_id by (apply aget_lookup; lia). by destruct s. }
  assert (fs_step h s h1 (set_data s i 0 [] 0)) as Hstep1.
  { apply (set_data_step h h1 s i 0 []); [done..|by left|]. intros q. rewrite Hf. unfold e.
    fold e. clear. destruct (decide (q = 0)), (decide (w_data e = 0)), (decide (q = w_data e)); naive_solver. }
  destruct (Z.eqb_spec size 0) as [->|Hne].
  { rewrite set_data_set_data by lia. split; [done|]. exists 0, []. split; [done|left; auto]. }
  destruct (malloc_cases h1 size) as (h2 & p & Em & Hp). rewrite Em.
  destruct Hp as [[-> Hlive]|(Hp & Hn & Hlive)].
  { cbn [Z.eqb]. split; [|exists 0, []; split; [done|right]; split_and!; try done; lia].
    eapply fs_step_trans; [exact Hstep1|]. by apply fs_ok_live; [apply Hstep1|]. }
  rewrite (proj2 (Z.eqb_neq p 0)) by done. rewrite set_data_set_data by lia.
  assert (Z.of_nat (length (slice data 0 size)) = size) as Elen by (apply slice_length; lia).
  split.
  - rewrite <- (set_data_set_data s i 0 [] 0) by lia. rewrite <- Elen at 2.
    eapply fs_step_trans; [exact Hstep1|].
    apply set_data_step; [apply Hstep1|done| |split; [done|]|by right|].
    + unfold set_data; cbn. rewrite aget_aset_eq by lia. done.
    + intros E. rewrite E in Elen. cbn in Elen. lia.
    + intros q. rewrite Hlive, elem_of_union, elem_of_singleton. unfold set_data; cbn.
      rewrite aget_aset_eq by lia. cbn. clear -Hp Hne. destruct (decide (q = 0)); naive_solver.
  - exists p, (slice data 0 size). rewrite Elen. split; [done|]. left. split; [by rewrite s32_small by lia|].
    split; [done|by right].
Qed.

Lemma append_data_spec (h : H) s i data size :
  fs_ok h s -> 0 <= i < 32 -> w_used (writable s).[i] = true -> w_data (writable s).[i] <> 0 ->
  0 <= size <= Z.of_nat (length data) -> w_size (writable s).[i] + size < 2147483648 ->
  let '(h', s', r) := append_data s i data size h in
  fs_step h s h' s' /\
    (r = w_size (writable s).[i] + size /\
       (exists p, s' = set_data s i p (w_bytes (writable s).[i] ++ slice data 0 size)
                         (Z.of_nat (length (w_bytes (writable s).[i] ++ slice data 0 size)))) \/
     r = -1 /\ s' = s /\ (ka_malloc h (w_size (writable s).[i] + size)).2 = 0).
Proof.
  intros Hok Hi Hu Hd Hs Hs2. pose proof (fs_ok_entry h s i Hok Hi Hu) as (_ & _ & Hsz & Hd0).
  assert (Hl := proj1 Hok). unfold append_data. set (e := (writable s).[i]) in *.
  rewrite u32_small by lia. destruct (malloc_cases h (w_size e + size)) as (h1 & p & Em & Hp). rewrite Em.
  destruct Hp as [[-> Hlive]|(Hp & Hn & Hlive)].
  { cbn [Z.eqb]. split; [by apply fs_ok_live|]. right. by rewrite ?Em. }
  rewrite (proj2 (Z.eqb_neq p 0)) by done.
  rewrite Hsz, slice_all. assert (Z.of_nat (length (slice data 0 size)) = size) as Elen by (apply slice_length; lia).
  assert (Z.of_nat (length (w_bytes e ++ slice data 0 size)) = Z.of_nat (length (w_bytes e)) + size) as Elen2.
  { rewrite length_app. lia. }
  rewrite <- Elen2.
  assert (w_data e ∈ ka_live h) as Hde.
  { apply (entry_blocks_own h s i Hok Hi). rewrite entry_blocks_used by done. auto. }
  split.
  - apply set_data_step; [done|done|done| |by right|].
    + split; [done|]. intros E. apply (f_equal length) in E. rewrite length_app in E. cbn in E.
      exfalso. destruct (w_bytes e) eqn:Eb; [by apply Hd, Hd0|cbn in E; lia].
    + intros q. fold e. rewrite kfree_live by (right; rewrite Hlive; set_solver).
      rewrite Hlive, elem_of_union, elem_of_singleton. assert (p <> w_data e) by (intros ->; done).
      clear -Hp Hd H2. destruct (decide (q = 0)), (decide (q = p)), (decide (q = w_data e)); naive_solver.
  - left. split; [by rewrite s32_small by lia|by exists p].
Qed.


(** * Names *)

Definition named (s : fs) (name : list Z) (i : Z) : bool :=
  w_used (writable s).[i] && bool_decide (entry_name s (writable s).[i] = name).

Lemma find_writable_named (h : H) s name :
  fs_ok h s -> text name -> find_writable s name = find_first (named s name) 32 0.
Proof.
  intros Hok Hn. apply find_first_ext. intros j Hj. unfold named.
  destruct (w_used _) eqn:Hu; [|done]. cbn [andb]. apply str_equals_text; [|done].
  unfold entry_name. case_match; [apply Hok|]. apply (fs_ok_entry h s j Hok); [|done].
  change (Z.to_nat FS_WRITE_MAX) with 32%nat in Hj. lia.
Qed.

Lemma find_writable_Some (h : H) s name i :
  fs_ok h s -> text name -> find_writable s name = Some i ->
  0 <= i < 32 /\ w_used (writable s).[i] = true /\ entry_name s (writable s).[i] = name.
Proof.
  intros Hok Hn. rewrite (find_writable_named h) by done. intros (Hi & Hp & _)%find_first_Some.
  unfold named in Hp. apply andb_prop in Hp as [Hu He%bool_decide_eq_true]. split; [lia|done].
Qed.

(** The entry of no other name is touched. *)
Lemma contents_other (h h' : H) s i e' n :
  fs_ok h s -> fs_ok h' (s <| writable := (writable s).[i <- e'] |>) -> 0 <= i < 32 -> text n ->
  named s n i = false -> w_used e' && bool_decide (entry_name s e' = n) = false ->
  contents (s <| writable := (writable s).[i <- e'] |>) n = contents s n.
Proof.
  intros Hok Hok' Hi Hn Hb Hc. assert (Hl := proj1 Hok). set (s' := s <| writable := _ |>) in *.
  assert (find_writable s' n = find_writable s n) as Ef.
  { rewrite (find_writable_named h' s'), (find_writable_named h s) by done. apply find_first_ext. intros j Hj.
    destruct (decide (j = i)) as [->|Hne].
    - rewrite Hb. unfold named, s'. cbn. rewrite aget_aset_eq by lia. exact Hc.
    - unfold named, s'. cbn. by rewrite aget_aset_ne by lia. }
  unfold contents. rewrite Ef. destruct (find_writable s n) as [j|] eqn:E; [|done].
  destruct (find_writable_Some h s n j Hok Hn E) as (Hj & Hu & He).
  assert (j <> i) as Hne. { intros ->. unfold named in Hb. rewrite Hu, He in Hb. by rewrite bool_decide_true in Hb. }
  unfold s'; cbn. by rewrite aget_aset_ne by lia.
Qed.

Lemma find_set_data (h h' : H) s i p b z n :
  fs_ok h s -> fs_ok h' (set_data s i p b z) -> 0 <= i < 32 -> text n ->
  find_writable (set_data s i p b z) n = find_writable s n.
Proof.
  intros Hok Hok' Hi Hn. assert (Hl := proj1 Hok).
  rewrite (find_writable_named h' _ n Hok'), (find_writable_named h s) by done.
  apply find_first_ext. intros j Hj. unfold named, set_data; cbn.
  destruct (decide (j = i)) as [->|Hne]; [by rewrite aget_aset_eq by lia|by rewrite aget_aset_ne by lia].
Qed.

Lemma contents_set_data (h h' : H) s i p b z name :
  fs_ok h s -> fs_ok h' (set_data s i p b z) -> text name -> find_writable s name = Some i ->
  contents (set_data s i p b z) name = Some b /\
  forall n, text n -> n <> name -> contents (set_data s i p b z) n = contents s n.
Proof.
  intros Hok Hok' Hn E. assert (Hl := proj1 Hok).
  destruct (find_writable_Some h s name i Hok Hn E) as (Hi & Hu & He). split.
  - unfold contents. rewrite (find_set_data h h') by done. rewrite E. unfold set_data; cbn.
    by rewrite aget_aset_eq by lia.
  - intros n Hn' Hne. unfold set_data in *. apply (contents_other h h'); try done.
    + unfold named. rewrite He, bool_decide_false by congruence. apply andb_false_r.
    + unfold entry_name in *. cbn. rewrite He, bool_decide_false by congruence. apply andb_false_r.
Qed.

Lemma fs_read_bytes_spec (h : H) s name n :
  fs_ok h s -> text name -> 0 < n < 2147483648 ->
  fs_read_bytes s name n =
    match contents s name with
    | Some c => (Z.min n (Z.of_nat (length c)), slice c 0 (Z.min n (Z.of_nat (length c))))
    | None => (-1, [])
    end.
Proof.
  intros Hok Hn Hn0. unfold fs_read_bytes, contents, static_contents. rewrite (proj2 (Z.eqb_neq n 0)) by lia.
  assert (forall c : list Z, s32 (Z.min n (Z.of_nat (length c))) = Z.min n (Z.of_nat (length c))) as Hs.
  { intros c. unfold s32. rewrite u32_small by lia. by rewrite (proj2 (Z.ltb_lt _ _)) by lia. }
  assert (forall c : list Z, (if n <? Z.of_nat (length c) then n else Z.of_nat (length c)) = Z.min n (Z.of_nat (length c))) as Hm.
  { intros c. case_match; bool_to_prop; lia. }
  destruct (find_writable s name) as [i|] eqn:E.
  - destruct (find_writable_Some h s name i Hok Hn E) as (Hi & Hu & _).
    pose proof (fs_ok_entry h s i Hok Hi Hu) as (_ & _ & -> & _). by rewrite Hm, Hs.
  - destruct (find_static s name) as [i|]; cbn; [|done]. by rewrite Hm, Hs.
Qed.


(** * The operations *)

Lemma append_data_small s i data size (h : H) :
  let '(h', s', r) := append_data s i data size h in
  (forall (h : H) n, 1073741824 <= n <= 4294967280 -> (ka_malloc h n).2 = 0) ->
  Forall (fun e => w_size e < 1073741824) (writable s) -> 0 <= w_size (writable s).[i] + size <= 4294967280 ->
  Forall (fun e => w_size e < 1073741824) (writable s').
Proof.
  unfold append_data. set (n := u32 _). destruct (ka_malloc h n) as [h1 p] eqn:Em. destruct (Z.eqb_spec p 0); [done|].
  intros Hbig Hs Hr. assert (n <= 4294967280) as Hn by (unfold n; rewrite u32_small; lia). unfold set_data, aset; cbn. apply Forall_insert; [done|]. cbn.
  destruct (Z.lt_ge_cases n 1073741824) as [|Hge]; [done|]. specialize (Hbig h n (conj Hge Hn)). by rewrite Em in Hbig.
Qed.

(** Every file stays below 1 GiB when it is extended by [size]. *)
Definition room (s : fs) (size : Z) : Prop :=
  size < 1073741824 /\ Forall (fun e => w_size e + size < 1073741824) (writable s).

Definition sized (s : fs) : Prop := Forall (fun e => w_size e < 1073741824) (writable s).

Lemma room_entry s size i : length (writable s) = 32%nat -> room s size -> 0 <= i < 32 ->
  w_size (writable s).[i] + size < 1073741824.
Proof.
  intros Hl [_ Hr] Hi. rewrite Forall_lookup in Hr. apply (Hr (Z.to_nat i)), aget_lookup. lia.
Qed.

Lemma sized_entry s i : length (writable s) = 32%nat -> sized s -> 0 <= i < 32 ->
  w_size (writable s).[i] < 1073741824.
Proof.
  intros Hl Hr Hi. unfold sized in Hr. rewrite Forall_lookup in Hr. apply (Hr (Z.to_nat i)), aget_lookup. lia.
Qed.

Lemma sized_update s i e : sized s -> w_size e < 1073741824 -> sized (s <| writable := (writable s).[i <- e] |>).
Proof. intros Hs He. unfold sized, aset; cbn. by apply Forall_insert. Qed.

(** Whatever the heap does, a write keeps the invariant and other owners' blocks,
    and files stay below 1 GiB if the heap has no larger blocks. *)
Lemma fs_write_step (h : H) s name data size append :
  fs_ok h s -> text name -> 0 <= size <= Z.of_nat (length (default [] data)) -> size < 1073741824 -> sized s ->
  let '(h', s', r) := fs_write name data size append s h in
  fs_step h s h' s' /\
  ((forall (h : H) n, 1073741824 <= n <= 4294967280 -> (ka_malloc h n).2 = 0) -> sized s').
Proof.
  intros Hok Hn Hs Hs1 Hsized. assert (Hl := proj1 Hok). unfold fs_write.
  pose proof (fs_step_refl h s Hok) as Hrefl.
  destruct (bool_decide (name = [])); [done|]. destruct (bool_decide (data = None) && _); [done|].
  assert (forall h1 s1 slot, fs_step h s h1 s1 -> sized s1 -> 0 <= slot < 32 -> w_used (writable s1).[slot] = true ->
    let '(h', s', r) := if append && w_used (writable s1).[slot] && negb (w_data (writable s1).[slot] =? 0)
      then append_data s1 slot (default [] data) size h1 else replace_data s1 slot (default [] data) size h1 in
    fs_step h s h' s' /\
    ((forall (h : H) n, 1073741824 <= n <= 4294967280 -> (ka_malloc h n).2 = 0) -> sized s')) as Hdata.
  { intros h1 s1 slot Hstep Hsd Hslot Hu. rewrite Hu, andb_true_r. assert (Hl1 := proj1 (proj1 Hstep)).
    pose proof (sized_entry s1 slot Hl1 Hsd Hslot) as Hsz.
    assert (Z.of_nat (length (slice (default [] data) 0 size)) = size) as Elen by (apply slice_length; lia).
    pose proof (fs_ok_entry h1 s1 slot (proj1 Hstep) Hslot Hu) as (_ & _ & Hszb & _).
    destruct (append && negb (w_data (writable s1).[slot] =? 0)) eqn:Ea.
    - apply andb_prop in Ea as [_ Ea%negb_true_iff%Z.eqb_neq].
      pose proof (append_data_spec h1 s1 slot (default [] data) size (proj1 Hstep) Hslot Hu Ea Hs ltac:(lia)) as Ha.
      pose proof (append_data_small s1 slot (default [] data) size h1) as Hb.
      destruct (append_data _ _ _ _ _) as [[h' s'] r]. destruct Ha as [Ha Ha'].
      split; [by eapply fs_step_trans; [exact Hstep|exact Ha]|]. intros Hbig. by apply Hb; [..|lia].
    - pose proof (replace_data_spec h1 s1 slot (default [] data) size (proj1 Hstep) Hslot Hu Hs Hs1) as Ha.
      destruct (replace_data _ _ _ _ _) as [[h' s'] r]. destruct Ha as [Ha (p & bytes & -> & Hr)].
      split; [by eapply fs_step_trans; [exact Hstep|exact Ha]|]. intros _. apply sized_update; [done|]. cbn.
      destruct Hr as [(_ & -> & _)|(_ & -> & _)]; [lia|done]. }
  destruct (find_writable s name) as [i|] eqn:Ef.
  - destruct (find_writable_Some h s name i Hok Hn Ef) as (Hi & Hu & _). rewrite (proj2 (Z.ltb_ge i 0)) by lia.
    by apply Hdata.
  - destruct append; [done|].
    pose proof (new_entry_step h s name Hok Hn) as Hnew. destruct (new_entry s name h) as [[h1 s1] slot].
    destruct Hnew as [Hstep [[-> ->]|(Hslot & Hfree & p & -> & _)]]; [done|].
    rewrite (proj2 (Z.ltb_ge slot 0)) by lia. apply Hdata; [done|by apply sized_update|done|].
    cbn. by rewrite aget_aset_eq by lia.
Qed.

Lemma fs_delete_step (h : H) s name :
  fs_ok h s -> text name ->
  let '(h', s', r) := fs_delete name s h in
  fs_step h s h' s' /\ (forall n, text n -> n <> name -> contents s' n = contents s n) /\
  (r = 0 <-> name <> [] /\ exists i, find_writable s name = Some i) /\ (r = 0 \/ r = -1 /\ s' = s).
Proof.
  intros Hok Hn. assert (Hl := proj1 Hok). unfold fs_delete. destruct (bool_decide_reflect (name = [])) as [->|Hne].
  { split; [by apply fs_step_refl|]. split; [done|]. split; [split; [done|by intros []]|by right]. }
  destruct (find_writable s name) as [i|] eqn:Ef.
  2:{ split; [by apply fs_step_refl|]. split; [done|]. split; [split; [done|by intros [_ [? ?]]]|by right]. }
  destruct (find_writable_Some h s name i Hok Hn Ef) as (Hi & Hu & He).
  destruct (entry_blocks_own h s i Hok Hi) as [Hnd Hown]. pose proof (proj1 (entry_blocks_NoDup _ Hu) Hnd) as Hnd'.
  set (e := (writable s).[i]) in *.
  assert (forall q, q ∈ entry_blocks e <-> q <> 0 /\ (q = w_name e \/ q = w_data e)) as Hb by (by apply entry_blocks_used).
  pose proof (kfree_data_live h s i Hok Hi Hu) as Hf. fold e in Hf.
  assert (forall q, q ∈ ka_live (kfree (w_name e) (kfree (w_data e) h)) <->
    q ∈ ka_live h /\ (q <> w_data e \/ w_data e = 0) /\ (q <> w_name e \/ w_name e = 0)) as Hf2.
  { intros q. rewrite kfree_live; [rewrite Hf; tauto|].
    destruct (decide (w_name e = 0)) as [|Hnz]; [by left|right]. apply Hf. split; [apply Hown, Hb; auto|].
    destruct (decide (w_data e = 0)); [by right|]. left. intros E. by apply Hnz, Hnd'. }
  assert (fs_step h s (kfree (w_name e) (kfree (w_data e) h))
    (s <| writable := (writable s).[i <- WEntry false 0 [] 0 [] 0] |>)) as Hstep.
  { apply fs_step_entry; [done|done|done|constructor|by intros p Hp%elem_of_nil|]. fold e.
    intros q Hq Hnq. rewrite Hb in Hnq. apply Hf2. split; [done|].
    destruct (decide (q = 0)) as [->|]; [|naive_solver].
    split; [destruct (decide (w_data e = 0))|destruct (decide (w_name e = 0))]; auto. }
  split; [done|]. split; [|split; [split; [eauto|done]|by left]].
  intros n Hn' Hnen. apply (contents_other h (kfree (w_name e) (kfree (w_data e) h))); try done; [by apply Hstep|].
  unfold named. fold e. rewrite He, bool_decide_false by congruence. apply andb_false_r.
Qed.


Lemma fs_delete_sized (h : H) s name : sized s -> sized (fs_delete name s h).1.2.
Proof.
  intros Hs. unfold fs_delete. destruct (bool_decide (name = [])); [done|].
  destruct (find_writable s name); [by apply sized_update|done].
Qed.

(** * The store as a partial map of at most 32 files *)

Definition overlay (s : fs) (name : list Z) : option (list Z) :=
  (fun i => w_bytes (writable s).[i]) <$> find_writable s name.

Definition used_count (s : fs) : Z := countb (fun i => w_used (writable s).[i]) 32.

(** The name of an entry: a file, or an entry whose name has no block. *)
Definition has_name (e : fs_writable_entry) : Prop := w_used e = true /\ w_name e <> 0.

Definition names_unique (s : fs) : Prop :=
  forall i j, 0 <= i < 32 -> 0 <= j < 32 -> has_name (writable s).[i] -> has_name (writable s).[j] ->
    entry_name s (writable s).[i] = entry_name s (writable s).[j] -> i = j.

(** The entry of a name other than the text at address 0 has its own text. *)
Lemma named_has_name s e : w_used e = true -> entry_name s e <> null_text s -> has_name e.
Proof. intros Hu He. split; [done|]. intros E. apply He. unfold entry_name. by rewrite E. Qed.

Lemma contents_overlay s n :
  contents s n = match overlay s n with Some b => Some b | None => static_contents s n end.
Proof. unfold contents, overlay. by destruct (find_writable s n). Qed.

Lemma overlay_other s s' n :
  files s' = files s -> (overlay s' n = None <-> overlay s n = None) -> contents s' n = contents s n ->
  overlay s' n = overlay s n.
Proof.
  intros Hf Hn. rewrite !contents_overlay. destruct (overlay s' n) eqn:E1, (overlay s n) eqn:E2; try done; naive_solver.
Qed.

Lemma find_static_files s s' n : files s' = files s -> find_static s' n = find_static s n.
Proof. intros E. unfold find_static. by rewrite E. Qed.

(** Changing one entry whose old and new names are not [n]. *)
Lemma overlay_update (h h' : H) s i e' n :
  fs_ok h s -> fs_ok h' (s <| writable := (writable s).[i <- e'] |>) -> 0 <= i < 32 -> text n ->
  named s n i = false -> w_used e' && bool_decide (entry_name s e' = n) = false ->
  overlay (s <| writable := (writable s).[i <- e'] |>) n = overlay s n.
Proof.
  intros Hok Hok' Hi Hn Hb Hc. assert (Hl := proj1 Hok).
  apply overlay_other; [done| |by apply (contents_other h h')]. unfold overlay.
  rewrite !fmap_None, (find_writable_named h' _ n Hok' Hn), (find_writable_named h s n Hok Hn).
  rewrite !find_first_None. unfold named; cbn.
  split; intros Hall j Hj; (destruct (decide (j = i)) as [->|Hne]; [|specialize (Hall j Hj)]).
  - exact Hb.
  - by rewrite aget_aset_ne in Hall by lia.
  - by rewrite aget_aset_eq by lia.
  - by rewrite aget_aset_ne by lia.
Qed.

Lemma named_found (h : H) s i :
  fs_ok h s -> names_unique s -> 0 <= i < 32 -> w_used (writable s).[i] = true ->
  text (entry_name s (writable s).[i]) -> entry_name s (writable s).[i] <> null_text s ->
  find_writable s (entry_name s (writable s).[i]) = Some i.
Proof.
  intros Hok Huniq Hi Hu Ht Hnn. rewrite (find_writable_named h) by done. apply find_first_intro; [lia| |].
  - unfold named. by rewrite Hu, bool_decide_true.
  - intros j Hj. unfold named. destruct (w_used (writable s).[j]) eqn:Huj; [|done]. cbn [andb].
    apply bool_decide_false. intros E.
    pose proof (Huniq j i ltac:(lia) Hi (named_has_name s _ Huj ltac:(congruence)) (named_has_name s _ Hu Hnn) E). lia.
Qed.

Lemma unique_update s i e' :
  length (writable s) = 32%nat -> 0 <= i < 32 -> names_unique s ->
  (has_name e' -> forall j, 0 <= j < 32 -> j <> i -> has_name (writable s).[j] ->
     entry_name s (writable s).[j] <> entry_name s e') ->
  names_unique (s <| writable := (writable s).[i <- e'] |>).
Proof.
  intros Hl Hi Hun Hne j k Hj Hk. cbn.
  change (entry_name (s <| writable := _ |>)) with (entry_name s).
  destruct (decide (j = i)) as [->|Hji], (decide (k = i)) as [->|Hki]; [done|..];
    rewrite ?aget_aset_eq, ?aget_aset_ne by lia; intros U1 U2 E.
  - by destruct (Hne U1 k Hk Hki U2).
  - by destruct (Hne U2 j Hj Hji U1).
  - by apply Hun.
Qed.

Lemma unique_set_data s i p b z :
  length (writable s) = 32%nat -> 0 <= i < 32 -> w_used (writable s).[i] = true -> names_unique s ->
  names_unique (set_data s i p b z).
Proof.
  intros Hl Hi Hu Hun. apply unique_update; [done..|]. intros Hn j Hj Hji Hu' E. by apply Hji, Hun.
Qed.

Lemma used_count_update s i e' :
  length (writable s) = 32%nat -> 0 <= i < 32 ->
  used_count (s <| writable := (writable s).[i <- e'] |>) =
    used_count s - b2z (w_used (writable s).[i]) + b2z (w_used e').
Proof.
  intros Hl Hi. unfold used_count. rewrite (countb_update (fun i => w_used (writable s).[i]) _ 32 i); [|lia|].
  - cbn. by rewrite aget_aset_eq by lia.
  - intros j Hj Hne. cbn. by rewrite aget_aset_ne by lia.
Qed.


Lemma countb_full P n j : Z.of_nat n <= countb P n -> 0 <= j < Z.of_nat n -> P j = true.
Proof.
  intros Hc Hj. destruct (P j) eqn:E; [done|]. exfalso.
  pose (Q := fun i => if decide (i = j) then true else P i).
  pose proof (countb_bound Q n) as Hb. rewrite (countb_update P Q n j Hj) in Hb.
  - rewrite E in Hb. unfold Q in Hb. rewrite decide_True in Hb by done. unfold b2z in Hb. lia.
  - intros i Hi Hne. unfold Q. by rewrite decide_False.
Qed.

Lemma used_full s slot :
  0 <= slot < 32 -> FS_WRITE_MAX <= used_count s -> w_used (writable s).[slot] = true.
Proof.
  unfold used_count, FS_WRITE_MAX. intros Hi Hc. apply (countb_full (fun i => w_used (writable s).[i]) 32); lia.
Qed.

Lemma countb_all P n : (forall i, 0 <= i < Z.of_nat n -> P i = true) -> countb P n = Z.of_nat n.
Proof.
  induction n as [|n IH]; intros Hall; [done|]. cbn [countb]. rewrite IH by (intros; apply Hall; lia).
  rewrite Hall by lia. cbn [b2z]. lia.
Qed.

Lemma new_entry_full s name (h : H) :
  let '(h', s', slot) := new_entry s name h in slot = -1 -> FS_WRITE_MAX <= used_count s.
Proof.
  unfold new_entry. destruct (find_first _ _ _) as [i|] eqn:E.
  - apply find_first_Some in E as (Hi & _). destruct (ka_malloc h FS_WRITE_NAME_MAX). lia.
  - intros _. rewrite find_first_None in E. unfold used_count. rewrite countb_all; [done|].
    intros i Hi. specialize (E i Hi). by apply negb_false_iff in E.
Qed.

(** What a write means for the named file and for the number of entries, given
    which of its two requests the heap grants: [nm], the block of the name of a new
    file, and [dt], the block of the data. *)
Definition stored (data : list Z) (dt : bool) : list Z * Z :=
  if bool_decide (data = []) then ([], 0) else if dt then (data, Z.of_nat (length data)) else ([], -1).

Definition spec_write (old : option (list Z)) (count : Z) (data : list Z) (append nm dt : bool)
    : option (list Z) * Z * Z :=
  match old with
  | Some c =>
      if append && negb (bool_decide (c = [])) then
        if dt then (Some (c ++ data), Z.of_nat (length (c ++ data)), count) else (Some c, -1, count)
      else (Some (stored data dt).1, (stored data dt).2, count)
  | None =>
      if append || (FS_WRITE_MAX <=? count) then (None, -1, count)
      else (if nm then Some (stored data dt).1 else None, (stored data dt).2, count + 1)
  end.

(** The requests [fs_write] makes of the heap. *)
Definition name_granted (h : H) : bool := negb ((ka_malloc h FS_WRITE_NAME_MAX).2 =? 0).

Definition data_granted (s : fs) (name : list Z) (size : Z) (append : bool) (h : H) : bool :=
  negb ((match find_writable s name with
         | Some i =>
             let e := (writable s).[i] in
             if append && negb (w_data e =? 0) then ka_malloc h (w_size e + size)
             else ka_malloc (kfree (w_data e) h) size
         | None => ka_malloc (ka_malloc h FS_WRITE_NAME_MAX).1 size
         end).2 =? 0).

Lemma overlay_set_data (h h' : H) s i p b z n :
  fs_ok h s -> fs_ok h' (set_data s i p b z) -> 0 <= i < 32 -> text n ->
  overlay (set_data s i p b z) n = if decide (find_writable s n = Some i) then Some b else overlay s n.
Proof.
  intros Hok Hok' Hi Hn. assert (Hl := proj1 Hok). unfold overlay. rewrite (find_set_data h h') by done.
  destruct (find_writable s n) as [j|] eqn:E; [|by rewrite decide_False].
  destruct (find_writable_Some h s n j Hok Hn E) as (Hj & _).
  destruct (decide (Some j = Some i)) as [[= ->]|Hne]; unfold set_data; cbn.
  - by rewrite aget_aset_eq by lia.
  - assert (j <> i) by congruence. by rewrite aget_aset_ne by lia.
Qed.

(** The data of the entry [i], whatever its name. *)
Lemma data_phase (h : H) s i data size append :
  fs_ok h s -> names_unique s -> 0 <= i < 32 -> w_used (writable s).[i] = true ->
  0 <= size <= Z.of_nat (length data) -> size < 1073741824 -> w_size (writable s).[i] + size < 1073741824 ->
  let e := (writable s).[i] in
  let '(h', s', r) := if append && w_used e && negb (w_data e =? 0)
      then append_data s i data size h else replace_data s i data size h in
  let d := slice data 0 size in
  let dt := negb ((if append && negb (w_data e =? 0) then ka_malloc h (w_size e + size)
                   else ka_malloc (kfree (w_data e) h) size).2 =? 0) in
  fs_step h s h' s' /\ names_unique s' /\ used_count s' = used_count s /\
  exists b, (b, r) = (if append && negb (bool_decide (w_bytes e = [])) then
                        if dt then (w_bytes e ++ d, Z.of_nat (length (w_bytes e ++ d))) else (w_bytes e, -1)
                      else stored d dt) /\
    forall n, text n -> overlay s' n = if decide (find_writable s n = Some i) then Some b else overlay s n.
Proof.
  intros Hok Hun Hi Hu Hs Hs1 Hs2 e. pose proof (fs_ok_entry h s i Hok Hi Hu) as (_ & _ & Hsz & Hd0).
  unfold e. rewrite Hu, andb_true_r. assert (Hl := proj1 Hok).
  assert (Z.of_nat (length (slice data 0 size)) = size) as Elen by (apply slice_length; lia).
  assert (negb (bool_decide (w_bytes (writable s).[i] = [])) = negb (w_data (writable s).[i] =? 0)) as ->.
  { f_equal. destruct (Z.eqb_spec (w_data (writable s).[i]) 0); [by apply bool_decide_true, Hd0|].
    apply bool_decide_false. by rewrite <- Hd0. }
  assert (forall p b z, used_count (set_data s i p b z) = used_count s) as Hcnt.
  { intros p b z. unfold set_data. rewrite used_count_update by done. cbn. rewrite Hu. lia. }
  destruct (append && negb (w_data (writable s).[i] =? 0)) eqn:Ea.
  - apply andb_prop in Ea as [-> Ea%negb_true_iff%Z.eqb_neq].
    pose proof (append_data_spec h s i data size Hok Hi Hu Ea Hs ltac:(lia)) as Ha. revert Ha.
    unfold append_data. rewrite u32_small by lia.
    destruct (ka_malloc h (w_size (writable s).[i] + size)) as [h1 q]. cbn [snd].
    destruct (Z.eqb_spec q 0) as [->|Hq]; cbn [negb]; intros [Hstep Ho].
    + split; [done|]. split; [done|]. split; [done|]. eexists. split; [done|]. intros n Hn.
      case_decide as Ef; [|done]. unfold overlay. by rewrite Ef.
    + destruct Ho as [[-> _]|(? & _)]; [|rewrite s32_small in * by lia; lia].
      split; [done|]. split; [by apply unique_set_data|]. split; [by apply Hcnt|].
      eexists. split.
      { f_equal. rewrite length_app. lia. }
      intros n Hn. rewrite (overlay_set_data h _ s i _ _ _ n Hok (proj1 Hstep) Hi Hn).
      by rewrite Hsz, slice_all.
  - pose proof (replace_data_spec h s i data size Hok Hi Hu Hs Hs1) as Ha.
    destruct (replace_data _ _ _ _ _) as [[h' s'] r].
    destruct Ha as [Hstep (p & bytes & -> & Hr)].
    split; [done|]. split; [by apply unique_set_data|]. split; [by apply Hcnt|].
    exists bytes. split; [|intros n Hn; by apply (overlay_set_data h h' _ _ _ _ _ n Hok (proj1 Hstep) Hi Hn)].
    unfold stored. destruct (decide (slice data 0 size = [])) as [E0|E0].
    + rewrite bool_decide_true by done. assert (size = 0) as Hz by (rewrite E0 in Elen; cbn in Elen; lia).
      destruct Hr as [(-> & -> & _)|(_ & _ & ? & _)]; [by rewrite E0, Hz|lia].
    + rewrite bool_decide_false by done. destruct Hr as [(-> & -> & Hr)|(-> & -> & Hpos & Hf)].
      * rewrite (proj2 (Z.eqb_neq _ 0)); [cbn [negb]; by rewrite Elen|].
        destruct Hr as [->|Hr]; [|done]. destruct E0. by destruct (slice data 0 0).
      * by rewrite Hf.
Qed.

(** A new entry of the given name; without a block for the name it can be found
    under the text at address 0 only. *)
Lemma new_file (h h1 : H) s slot p name data size :
  fs_ok h s -> names_unique s -> text name -> name <> null_text s -> find_writable s name = None ->
  0 <= size <= Z.of_nat (length data) -> room s size -> 0 <= slot < 32 -> w_used (writable s).[slot] = false ->
  let e' := WEntry true p (if p =? 0 then [] else name) 0 [] 0 in
  let s1 := s <| writable := (writable s).[slot <- e'] |> in
  fs_step h s h1 s1 ->
  let '(h', s', r) := replace_data s1 slot data size h1 in
  let d := stored (slice data 0 size) (negb ((ka_malloc h1 size).2 =? 0)) in
  fs_step h s h' s' /\ names_unique s' /\
  (overlay s' name, r, used_count s') = (if negb (p =? 0) then Some d.1 else None, d.2, used_count s + 1) /\
  forall n, text n -> n <> name -> n <> null_text s -> overlay s' n = overlay s n.
Proof.
  intros Hok Hun Hn Hnn Ef Hs Hroom Hslot Hfree e' s1 Hstep. assert (Hl := proj1 Hok).
  assert (entry_name s e' = if p =? 0 then null_text s else name) as Een
    by (unfold entry_name, e'; cbn; by destruct (p =? 0)).
  assert (forall j, 0 <= j < 32 -> w_used (writable s).[j] = true -> entry_name s (writable s).[j] <> name) as Hno.
  { intros j Hj Hu E. rewrite (find_writable_named h) in Ef by done. rewrite find_first_None in Ef.
    specialize (Ef j ltac:(lia)). unfold named in Ef. rewrite Hu, E in Ef. by rewrite bool_decide_true in Ef. }
  assert (names_unique s1) as Hun1.
  { apply unique_update; [done..|]. intros [_ Hp0] j Hj _ [Hu _]. rewrite Een.
    cbn in Hp0. rewrite (proj2 (Z.eqb_neq p 0)) by done. by apply Hno. }
  assert ((writable s1).[slot] = e') as Ee by (unfold s1; cbn; by rewrite aget_aset_eq by lia).
  assert (find_writable s1 name = if p =? 0 then None else Some slot) as Ef1.
  { destruct (Z.eqb_spec p 0) as [E0|E0].
    - assert (overlay s1 name = overlay s name) as Eo.
      { apply (overlay_update h h1); try done; [apply Hstep|unfold named; by rewrite Hfree|].
        rewrite Een, bool_decide_false by congruence. by rewrite andb_false_r. }
      unfold overlay in Eo. rewrite Ef in Eo. by destruct (find_writable s1 name).
    - pose proof (named_found h1 s1 slot (proj1 Hstep) Hun1 Hslot) as Hf. rewrite Ee in Hf.
      change (entry_name s1 e') with (entry_name s e') in Hf. rewrite Een in Hf. by apply Hf. }
  assert (forall n, text n -> n <> name -> n <> null_text s -> overlay s1 n = overlay s n) as Hoth1.
  { intros n Hn' Hne Hne'. apply (overlay_update h h1); try done; [apply Hstep|unfold named; by rewrite Hfree|].
    rewrite Een, bool_decide_false by (case_match; congruence). by rewrite andb_false_r. }
  assert (used_count s1 = used_count s + 1) as Ec.
  { unfold s1. rewrite used_count_update, Hfree by done. cbn. lia. }
  pose proof (data_phase h1 s1 slot data size false (proj1 Hstep) Hun1 Hslot) as Hd. rewrite Ee in Hd.
  cbv zeta in Hd. cbn [andb e' w_data w_bytes w_size w_used] in Hd.
  specialize (Hd eq_refl Hs (proj1 Hroom) (proj1 Hroom)). change (kfree 0 h1) with h1 in Hd.
  assert (Hnull : null_text s1 = null_text s) by done. clearbody s1.
  destruct (replace_data s1 slot data size h1) as [[h' s'] r]. cbv zeta.
  destruct Hd as (E1 & E2 & E3 & b & Eb & Eo). split; [by eapply fs_step_trans|]. split; [done|]. split.
  - rewrite <- Eb. cbn [fst snd]. rewrite (Eo name Hn), Ef1, E3, Ec. destruct (p =? 0); cbn [negb].
    + rewrite decide_False by done. unfold overlay. by rewrite Ef1.
    + by rewrite decide_True.
  - intros n Hn' Hne Hne'. rewrite (Eo n Hn'), <- (Hoth1 n Hn' Hne Hne'). case_decide as Es; [|done]. exfalso.
    destruct (find_writable_Some h1 s1 n slot (proj1 Hstep) Hn' Es) as (_ & _ & E). rewrite Ee in E.
    change (entry_name s1 e') with (if p =? 0 then null_text s1 else (if p =? 0 then [] else name)) in E.
    rewrite Hnull in E. destruct (p =? 0); congruence.
Qed.

Lemma write_refines (h : H) s name data size append :
  fs_ok h s -> names_unique s -> text name -> 0 < Z.of_nat (length name) <= 63 -> name <> null_text s ->
  0 <= size <= Z.of_nat (length data) -> room s size ->
  let '(h', s', r) := fs_write name (Some data) size append s h in
  fs_step h s h' s' /\ names_unique s' /\
  (overlay s' name, r, used_count s') =
    spec_write (overlay s name) (used_count s) (slice data 0 size) append
      (name_granted h) (data_granted s name size append h) /\
  forall n, text n -> n <> name -> n <> null_text s -> overlay s' n = overlay s n.
Proof.
  intros Hok Hun Hn Hlen Hnn Hs Hroom. assert (Hl := proj1 Hok). unfold fs_write, data_granted.
  rewrite bool_decide_false by (intros ->; cbn in Hlen; lia). rewrite (bool_decide_false (Some data = None)) by done.
  cbn [andb]. change (default [] (Some data)) with data. destruct (find_writable s name) as [i|] eqn:Ef.
  - destruct (find_writable_Some h s name i Hok Hn Ef) as (Hi & Hu & He). rewrite (proj2 (Z.ltb_ge i 0)) by lia.
    pose proof (data_phase h s i data size append Hok Hun Hi Hu Hs (proj1 Hroom) (room_entry s size i Hl Hroom Hi)) as Hd.
    cbv zeta in Hd |- *. destruct (if append && w_used _ && _ then append_data s i data size h else _) as [[h' s'] r].
    destruct Hd as (E1 & E2 & E3 & b & Eb & Eo). split; [done|]. split; [done|]. split.
    + rewrite Eo, decide_True, E3 by done. unfold overlay. rewrite Ef. cbn [fmap option_fmap option_map spec_write].
      destruct (append && negb (bool_decide (w_bytes (writable s).[i] = []))); [|by rewrite <- Eb].
      case_match; by injection Eb as -> ->.
    + intros n Hn' Hne _. rewrite (Eo n Hn'), decide_False; [done|]. intros E.
      destruct (find_writable_Some h s n i Hok Hn' E) as (_ & _ & ?). congruence.
  - assert (overlay s name = None) as Eo by (unfold overlay; by rewrite Ef). rewrite Eo. unfold spec_write.
    destruct append; [cbn; rewrite Eo; split_and!; try done; by apply fs_step_refl|]. cbn [orb andb].
    pose proof (new_entry_step h s name Hok Hn) as Hnew. pose proof (new_entry_full s name h) as Hfull.
    destruct (new_entry s name h) as [[h1 s1] slot].
    destruct Hnew as [Hstep [[-> ->]|(Hslot & Hfree & p & -> & Hp)]].
    { rewrite (proj2 (Z.leb_le FS_WRITE_MAX (used_count s)) (Hfull eq_refl)). cbn. rewrite Eo. done. }
    rewrite (proj2 (Z.ltb_ge slot 0)) by lia. destruct (Z.leb_spec FS_WRITE_MAX (used_count s)) as [Hle|_].
    { pose proof (used_full s slot Hslot Hle). congruence. }
    unfold name_granted. change FS_WRITE_NAME_MAX with 64. rewrite <- Hp. cbn [fst snd].
    assert (take 63 name = name) as Et by (apply take_ge; lia). rewrite Et in *.
    by apply (new_file h h1 s slot p name data size).
Qed.

Lemma delete_refines (h : H) s name :
  fs_ok h s -> names_unique s -> text name -> 0 < Z.of_nat (length name) <= 63 -> name <> null_text s ->
  let '(h', s', r) := fs_delete name s h in
  fs_step h s h' s' /\ names_unique s' /\
  (overlay s' name, r, used_count s') =
    match overlay s name with
    | Some _ => (None, 0, used_count s - 1)
    | None => (None, -1, used_count s)
    end /\
  forall n, text n -> n <> name -> overlay s' n = overlay s n.
Proof.
  intros Hok Hun Hn Hlen Hnn. assert (Hl := proj1 Hok). pose proof (fs_delete_step h s name Hok Hn) as Hd.
  unfold fs_delete in *. rewrite bool_decide_false in * by (intros ->; cbn in Hlen; lia).
  destruct (find_writable s name) as [i|] eqn:Ef.
  2:{ assert (overlay s name = None) as E by (unfold overlay; by rewrite Ef). rewrite E.
      split_and!; try done; by apply fs_step_refl. }
  assert (overlay s name = Some (w_bytes (writable s).[i])) as -> by (unfold overlay; by rewrite Ef).
  destruct Hd as (Hstep & _). destruct (find_writable_Some h s name i Hok Hn Ef) as (Hi & Hu & He).
  set (s' := s <| writable := (writable s).[i <- WEntry false 0 [] 0 [] 0] |>) in *.
  assert (forall j, j <> i -> (writable s').[j] = (writable s).[j] \/ ~ 0 <= j < 32) as Hoth.
  { intros j Hj. destruct (decide (0 <= j < 32)); [left|by right]. unfold s'; cbn. by rewrite aget_aset_ne by lia. }
  split; [done|]. split; [apply unique_update; [done..|by intros [? _]]|]. split.
  - assert (used_count s' = used_count s - 1) as ->.
    { unfold s'. rewrite used_count_update, Hu by done. cbn. lia. }
    assert (overlay s' name = None) as ->; [|done].
    unfold overlay. rewrite fmap_None, (find_writable_named _ s' name (proj1 Hstep) Hn), find_first_None.
    intros j Hj. unfold named. destruct (decide (j = i)) as [->|Hne].
    { unfold s'; cbn. by rewrite aget_aset_eq by lia. }
    destruct (Hoth j Hne) as [->|?]; [|lia]. change (entry_name s') with (entry_name s).
    destruct (w_used (writable s).[j]) eqn:Huj; [|done]. cbn [andb]. apply bool_decide_false. intros E.
    apply Hne, Hun; [lia|done|apply (named_has_name s); congruence|apply (named_has_name s); congruence|congruence].
  - intros n Hn' Hne. apply (overlay_update h (kfree (w_name (writable s).[i]) (kfree (w_data (writable s).[i]) h))); try done; [apply Hstep|].
    unfold named. rewrite He, bool_decide_false by congruence. apply andb_false_r.
Qed.

(** C18: [fs_write] and [fs_delete] implement a partial map of at most 32 files
    over the read-only ones, whatever the heap does, for names of 1 to 63 bytes
    (other than the text at address 0, which entries without a name are compared
    with) and files below 1 GiB.  A write replaces the file or, with [append],
    extends it, and returns the length of the whole file; it creates the file only
    without [append] and while there are fewer than 32.  When the heap refuses the
    data, the write returns -1: an extended file is unchanged, a replaced one is
    left empty and a new one is left behind empty; when it refuses the name of a
    new file, an entry is lost that no name finds.  A delete removes exactly a file
    of the map.  No other name is affected, the invariant of the table (blocks
    allocated and disjoint, names unique) is kept, and so are the blocks of other
    owners. *)
Theorem fs_write_delete_refine (h : H) s name data size append :
  fs_ok h s -> names_unique s -> text name -> 0 < Z.of_nat (length name) <= 63 -> name <> null_text s ->
  0 <= size <= Z.of_nat (length data) -> room s size ->
  (let '(h', s', r) := fs_write name (Some data) size append s h in
   fs_step h s h' s' /\ names_unique s' /\
   (overlay s' name, r, used_count s') =
     spec_write (overlay s name) (used_count s) (slice data 0 size) append
       (name_granted h) (data_granted s name size append h) /\
   forall n, text n -> n <> name -> n <> null_text s -> overlay s' n = overlay s n) /\
  (let '(h', s', r) := fs_delete name s h in
   fs_step h s h' s' /\ names_unique s' /\
   (overlay s' name, r, used_count s') =
     match overlay s name with
     | Some _ => (None, 0, used_count s - 1)
     | None => (None, -1, used_count s)
     end /\
   forall n, text n -> n <> name -> overlay s' n = overlay s n).
Proof.
  intros Hok Hun Hn Hlen Hnn Hs Hroom. split; [by apply write_refines|by apply delete_refines].
Qed.

End props.

(** * Examples *)

(** A heap of at most [limit] blocks, each of less than 1 GiB. *)
Record small_heap := SmallHeap { in_use : gset Z; limit : nat }.

Definition sh_malloc (h : small_heap) (n : Z) : small_heap * Z :=
  if (1073741824 <=? n) || bool_decide (limit h <= size (in_use h))%nat then (h, 0) else
  let p := fresh ({[0]} ∪ in_use h) in (SmallHeap ({[p]} ∪ in_use h) (limit h), p).

#[export] Instance sh_alloc : KAllocator small_heap := {
  ka_malloc := sh_malloc; ka_free h p := SmallHeap (in_use h ∖ {[p]}) (limit h); ka_live := in_use }.

Lemma sh_fresh (h : small_heap) : fresh ({[0]} ∪ in_use h) ∉ ({[0]} ∪ in_use h : gset Z).
Proof. apply is_fresh. Qed.

#[export] Instance sh_alloc_laws : KAllocatorLaws small_heap.
Proof.
  constructor; cbn.
  - intros h n h' E. unfold sh_malloc in E. case_match; [by injection E as <-|].
    exfalso. apply (sh_fresh h). injection E as _ E. rewrite E. set_solver.
  - intros h n h' p. unfold sh_malloc. case_match; [by intros [= <- <-]|].
    intros [= <- <-] _. pose proof (sh_fresh h). set_solver.
  - done.
Qed.

#[export] Instance sh_small_blocks : SmallBlocks small_heap.
Proof. intros h n [Hn _]. cbn. unfold sh_malloc. by rewrite (proj2 (Z.leb_le _ _)). Qed.

(** A store with one read-only file [a], and the empty heap. *)
Definition demo_fs : fs := fs_init (Fs [] [FsEntry [97] [1; 2; 3]] []).

Lemma demo_fs_ok n : fs_ok (SmallHeap ∅ n) demo_fs.
Proof.
  split; [done|]. split; [by repeat constructor|]. split; [by repeat constructor|].
  split; [constructor|]. intros p Hp. by apply elem_of_nil in Hp.
Qed.

Lemma demo_fs_unused i : 0 <= i < 32 -> w_used (writable demo_fs).[i] = false.
Proof.
  intros Hi. assert (Forall (fun e => w_used e = false) (writable demo_fs)) as Hf by (repeat constructor).
  rewrite Forall_lookup in Hf. apply (Hf (Z.to_nat i)), aget_lookup. cbn. lia.
Qed.

(** With room for two blocks the file is written; with room for one it is created
    and stays empty. *)
Lemma fs_write_delete_refine_witness :
  (let '(h, s, r) := fs_write [98] (Some [7; 8]) 2 false demo_fs (SmallHeap ∅ 2) in
   r = 2 /\ overlay s [98] = Some [7; 8]) /\
  (let '(h, s, r) := fs_write [98] (Some [7; 8]) 2 false demo_fs (SmallHeap ∅ 1) in
   r = -1 /\ overlay s [98] = Some []).
Proof.
  assert (names_unique demo_fs) as Hun by (intros i j Hi Hj [Hu _]; by rewrite demo_fs_unused in Hu).
  assert (room demo_fs 2) as Hroom by (split; [done|]; by repeat constructor).
  split.
  - pose proof (fs_write_delete_refine (SmallHeap ∅ 2) demo_fs [98] [7; 8] 2 false (demo_fs_ok 2) Hun) as Hw.
    destruct Hw as [Hw _]; [by repeat constructor|done|done|done|done|].
    assert (spec_write (overlay demo_fs [98]) (used_count demo_fs) (slice [7; 8] 0 2) false
      (name_granted (SmallHeap ∅ 2)) (data_granted demo_fs [98] 2 false (SmallHeap ∅ 2)) = (Some [7; 8], 2, 1)) as E
      by (vm_compute; reflexivity).
    rewrite E in Hw. destruct (fs_write _ _ _ _ _ _) as [[h s] r]. destruct Hw as (_ & _ & [= -> -> _] & _). done.
  - pose proof (fs_write_delete_refine (SmallHeap ∅ 1) demo_fs [98] [7; 8] 2 false (demo_fs_ok 1) Hun) as Hw.
    destruct Hw as [Hw _]; [by repeat constructor|done|done|done|done|].
    assert (spec_write (overlay demo_fs [98]) (used_count demo_fs) (slice [7; 8] 0 2) false
      (name_granted (SmallHeap ∅ 1)) (data_granted demo_fs [98] 2 false (SmallHeap ∅ 1)) = (Some [], -1, 1)) as E
      by (vm_compute; reflexivity).
    rewrite E in Hw. destruct (fs_write _ _ _ _ _ _) as [[h s] r]. destruct Hw as (_ & _ & [= -> -> _] & _). done.
Defined.
