(* ===== verification/Ramfs.v ===== *)
(** The RAM file system of [fs/ramfs.c]: nodes of the VFS over the flat store of
    [Fs], where directories are prefixes of names recorded in a table of 16.

    Nodes live in an explicit store with the heap they are allocated from.  The
    [impl] pointer of a directory node, which points at the name in the table, is
    the slot number plus one. *)
From S2P Require Import Prelude.
From S2P Require Import Interfaces.
From S2P Require Import KString.
From S2P Require Import Vnode.
From S2P Require Import Fs.
From Stdlib Require Import ZArith Lia.
From stdpp Require Import base numbers list gmap.

Open Scope Z_scope.
Open Scope lyth_scope.

Definition RAMFS_MAX_DIRS : Z := 16.

Record ramfs_vdir := VDir { d_used : bool; d_name : list Z }.
#[export] Instance ramfs_vdir_inhabited : Inhabited ramfs_vdir := populate (VDir false []).

(** The memory the file systems share: the heap, the nodes in it, and the two
    tables. *)
Record store (H : Type) := Store {
  heap : H; nodes : gmap Z vfs_node; flat : fs; vdirs : list ramfs_vdir }.
Arguments Store {H} _ _ _ _.
Arguments heap {H} _.
Arguments nodes {H} _.
Arguments flat {H} _.
Arguments vdirs {H} _.
#[export] Instance store_fields {H} : Fields (store H) :=
  fun s => Store (heap s) (nodes s) (flat s) (vdirs s).

(** * Names *)

Definition SLASH : Z := 47.

Definition name_has_slash (name : list Z) : bool := existsb (fun c => c =? SLASH) name.

Fixpoint name_has_prefix (name prefix : list Z) : bool :=
  match prefix, name with
  | [], c :: _ => c =? SLASH
  | p :: prefix', c :: name' => if negb (c =? p) then false else name_has_prefix name' prefix'
  | _, [] => false
  end.

Definition build_key (prefix tail : list Z) (size : Z) : list Z :=
  let key := take (Z.to_nat (size - 2)) prefix ++ [SLASH] in
  key ++ take (Z.to_nat (size - 1) - length key) tail.

(** A text copied into a field of [size] bytes. *)
Definition bounded (size : Z) (s : list Z) : list Z := take (Z.to_nat (size - 1)) s.

Definition find_vdir (dirs : list ramfs_vdir) (name : list Z) : option Z :=
  find_first (fun i => d_used dirs.[i] && str_equals (d_name dirs.[i]) name) (Z.to_nat RAMFS_MAX_DIRS) 0.

(** * Enumeration *)

(** The scan of the flat names: the entry at [index] of those that [stem]
    selects, or how many there are. *)
Fixpoint scan_names (s : fs) (stem : list Z -> option (list Z)) (fuel : nat) (i found index : Z) : list Z + Z :=
  match fuel with
  | O => inr found
  | S fuel' =>
      match fs_name_at s i with
      | None => inr found
      | Some e =>
          match stem e with
          | None => scan_names s stem fuel' (i + 1) found index
          | Some t => if found =? index then inl t else scan_names s stem fuel' (i + 1) (found + 1) index
          end
      end
  end.

Definition scan_fuel (s : fs) : nat := S (length (files s) + 32).

Fixpoint scan_vdirs (dirs : list ramfs_vdir) (stem : list Z -> option (list Z)) (n : nat) (i found index : Z)
    : option (list Z) :=
  match n with
  | O => None
  | S n' =>
      if negb (d_used dirs.[i]) then scan_vdirs dirs stem n' (i + 1) found index
      else
        match stem (d_name dirs.[i]) with
        | None => scan_vdirs dirs stem n' (i + 1) found index
        | Some t => if found =? index then Some t else scan_vdirs dirs stem n' (i + 1) (found + 1) index
        end
  end.

(** The part of a name below a prefix, and a name of the root. *)
Definition child_stem (prefix name : list Z) : option (list Z) :=
  if negb (name_has_prefix name prefix) then None
  else
    let stem := drop (length prefix + 1) name in
    if name_has_slash stem then None else Some stem.

Definition root_stem (name : list Z) : option (list Z) := if name_has_slash name then None else Some name.

Section ramfs.
Context {H : Type} `{KAllocator H}.
Implicit Types st : store H.

Definition get_node st (p : Z) : vfs_node := nodes st !!! p.

Definition kmalloc_node (n : vfs_node) st : store H * Z :=
  let '(h, p) := ka_malloc (heap st) sizeof_vfs_node in
  let st := st <| heap := h |> in
  if p =? 0 then (st, 0) else (st <| nodes := <[p := n]> (nodes st) |>, p).

Definition free_node (p : Z) st : store H :=
  st <| heap := kfree p (heap st) |> <| nodes := delete p (nodes st) |>.

Definition make_file_node (key : list Z) st : store H * Z :=
  kmalloc_node (VfsNode (bounded VFS_NAME_MAX key) (Z.lor VFS_FLAG_FILE VFS_FLAG_DYNAMIC)
    (fs_size (flat st) key) 0 0 OpsRamfsFile 0) st.

Definition make_vdir_node (slot : Z) st : store H * Z :=
  kmalloc_node (VfsNode (bounded VFS_NAME_MAX (d_name (vdirs st).[slot])) (Z.lor VFS_FLAG_DIR VFS_FLAG_DYNAMIC)
    0 0 (slot + 1) OpsRamfsVdir 0) st.

(** The prefix a directory node points at. *)
Definition node_prefix st (n : vfs_node) : list Z := d_name (vdirs st).[n_impl n - 1].

(** * Files *)

(** The result and the bytes stored in the buffer. *)
Definition ramfs_file_read (n : vfs_node) (offset size : Z) st : store H * Z * list Z :=
  let total := fs_size (flat st) (n_name n) in
  if (total =? 0) || (total <=? offset) then (st, 0, [])
  else
    let to_read := if size <? total - offset then size else total - offset in
    if offset =? 0 then
      let '(r, bytes) := fs_read_bytes (flat st) (n_name n) to_read in (st, r, bytes)
    else
      let '(h, tmp) := ka_malloc (heap st) total in
      if tmp =? 0 then (st <| heap := h |>, -1, [])
      else
        let '(got, bytes) := fs_read_bytes (flat st) (n_name n) total in
        let st := st <| heap := kfree tmp h |> in
        if (got <? 0) || (got <=? offset) then (st, if got <? 0 then -1 else 0, [])
        else
          let available := got - offset in
          let to_read := if available <? to_read then available else to_read in
          (st, s32 to_read, slice bytes offset to_read).

Definition ramfs_file_write (p offset size : Z) (buf : list Z) st : store H * Z :=
  let n := get_node st p in
  let '(h, f, result) := fs_write (n_name n) (Some buf) size (0 <? offset) (flat st) (heap st) in
  let st := st <| heap := h |> <| flat := f |> in
  if 0 <=? result then
    (st <| nodes := <[p := get_node st p <| n_size := fs_size f (n_name n) |>]> (nodes st) |>, result)
  else (st, result).

(** * Directories below the root *)

Definition ramfs_vdir_readdir (n : vfs_node) (index name_max : Z) st : option (list Z) :=
  let stem := child_stem (node_prefix st n) in
  bounded name_max <$>
    match scan_names (flat st) stem (scan_fuel (flat st)) 0 0 index with
    | inl t => Some t
    | inr found => scan_vdirs (vdirs st) stem (Z.to_nat RAMFS_MAX_DIRS) 0 found index
    end.

Definition ramfs_vdir_finddir (n : vfs_node) (name : list Z) st : store H * Z :=
  let key := build_key (node_prefix st n) name VFS_PATH_MAX in
  match find_vdir (vdirs st) key with
  | Some i => make_vdir_node i st
  | None => if negb (fs_exists (flat st) key) then (st, 0) else make_file_node key st
  end.

(** A directory of the given name, unless the table has it already. *)
Definition add_vdir (name : list Z) st : store H * Z :=
  match find_vdir (vdirs st) name with
  | Some i => make_vdir_node i st
  | None =>
      match find_first (fun i => negb (d_used (vdirs st).[i])) (Z.to_nat RAMFS_MAX_DIRS) 0 with
      | None => (st, 0)
      | Some slot =>
          make_vdir_node slot
            (st <| vdirs := (vdirs st).[slot <- VDir true (bounded VFS_NAME_MAX name)] |>)
      end
  end.

Definition add_file (key : list Z) st : store H * Z :=
  let '(h, f, r) := fs_write key None 0 false (flat st) (heap st) in
  let st := st <| heap := h |> <| flat := f |> in
  if r <? 0 then (st, 0) else make_file_node key st.

Definition ramfs_vdir_create (n : vfs_node) (name : list Z) (flags : Z) st : store H * Z :=
  let key := build_key (node_prefix st n) name VFS_PATH_MAX in
  if has_flag flags VFS_FLAG_DIR then add_vdir key st else add_file key st.

Definition drop_vdir (i : Z) st : store H :=
  st <| vdirs := (vdirs st).[i <- VDir false (d_name (vdirs st).[i])] |>.

Definition delete_flat (key : list Z) st : store H * Z :=
  let '(h, f, r) := fs_delete key (flat st) (heap st) in (st <| heap := h |> <| flat := f |>, r).

Definition ramfs_vdir_unlink (n : vfs_node) (name : list Z) st : store H * Z :=
  let key := build_key (node_prefix st n) name VFS_PATH_MAX in
  match find_vdir (vdirs st) key with
  | Some i => (drop_vdir i st, 0)
  | None => delete_flat key st
  end.

(** * The root *)

Definition ramfs_dir_readdir (index name_max : Z) st : option (list Z) :=
  bounded name_max <$>
    match scan_names (flat st) root_stem (scan_fuel (flat st)) 0 0 index with
    | inl t => Some t
    | inr flat_idx => scan_vdirs (vdirs st) root_stem (Z.to_nat RAMFS_MAX_DIRS) 0 0 (index - flat_idx)
    end.

Definition ramfs_dir_finddir (name : list Z) st : store H * Z :=
  if fs_exists (flat st) name then make_file_node name st
  else
    match find_vdir (vdirs st) name with
    | Some i => make_vdir_node i st
    | None => (st, 0)
    end.

Definition ramfs_dir_create (name : list Z) (flags : Z) st : store H * Z :=
  if has_flag flags VFS_FLAG_DIR then add_vdir name st else add_file name st.

Definition ramfs_dir_unlink (name : list Z) st : store H * Z :=
  if fs_exists (flat st) name then delete_flat name st
  else
    match find_vdir (vdirs st) name with
    | Some i => (drop_vdir i st, 0)
    | None => (st, -1)
    end.

(** The address of the static root node. *)
Definition ramfs_root_node : Z := 1048576.

Definition ramfs_create_root st : store H * Z :=
  let n := get_node st ramfs_root_node in
  (st <| nodes := <[ramfs_root_node :=
     VfsNode [SLASH] VFS_FLAG_DIR 0 (n_ref_count n) 0 OpsRamfsDir 0]> (nodes st) |>, ramfs_root_node).

End ramfs.

(** * The invariant of the store *)

Section props.
Context {H : Type} `{KAllocatorLaws H} `{!SmallBlocks H}.
Implicit Types st : store H.

(** The flat store is well formed, and every node is an allocated block that no
    file owns. *)
Record store_ok st : Prop := StoreOk {
  so_fs : fs_ok (heap st) (flat st);
  so_sized : sized (flat st);
  so_dirs : length (vdirs st) = 16%nat;
  so_names : Forall (fun d => text (d_name d)) (vdirs st);
  so_nodes : forall p n, nodes st !! p = Some n ->
    p <> 0 /\ p ∈ ka_live (heap st) /\ p ∉ blocks (flat st) /\ text (n_name n) }.

(** What [finddir] and [create] return: nothing, or a new node without
    references. *)
Definition returns st st' (p : Z) : Prop :=
  store_ok st' /\
  (p = 0 /\ nodes st' = nodes st \/
   p <> 0 /\ nodes st !! p = None /\ exists n, nodes st' = <[p := n]> (nodes st) /\
     dynamic n = true /\ n_ref_count n = 0 /\ n_mountpoint n = 0).

Lemma store_fs_step st h f :
  store_ok st -> fs_step (heap st) (flat st) h f -> sized f -> store_ok (st <| heap := h |> <| flat := f |>).
Proof.
  intros [Hfs Hsz Hd Hn Hnodes] (Hok & _ & _ & Hk) Hsz'. constructor; try done; cbn.
  intros p n Hp. destruct (Hnodes p n Hp) as (H0' & H1' & H2' & H3'). destruct (Hk p H1' H2'). done.
Qed.

Lemma store_heap st h : store_ok st -> ka_live h = ka_live (heap st) -> store_ok (st <| heap := h |>).
Proof.
  intros [Hfs Hsz Hd Hn Hnodes] E.
  destruct (fs_ok_live (heap st) h (flat st) Hfs E) as [Hfs' _].
  constructor; try done. cbn. by rewrite E.
Qed.

Lemma fs_ok_more (h h' : H) s : fs_ok h s -> (forall p, p ∈ ka_live h -> p ∈ ka_live h') -> fs_ok h' s.
Proof. intros (? & ? & ? & ? & Hl) Hsub. split_and!; try done. intros p Hp. by apply Hsub, Hl. Qed.

Lemma kmalloc_node_spec n st :
  store_ok st -> text (n_name n) -> dynamic n = true -> n_ref_count n = 0 -> n_mountpoint n = 0 ->
  let '(st', p) := kmalloc_node n st in returns st st' p.
Proof.
  intros Hok Ht Hd Hr Hm. unfold kmalloc_node.
  destruct (malloc_cases (heap st) sizeof_vfs_node) as (h & p & Em & Hp). rewrite Em.
  destruct Hp as [[-> E]|(Hp & Hnew & E)].
  { cbn [Z.eqb]. split; [by apply store_heap|by left]. }
  rewrite (proj2 (Z.eqb_neq p 0)) by done. cbn. destruct Hok as [Hfs Hsz Hdl Hnm Hnodes].
  assert (nodes st !! p = None) as Hpn.
  { destruct (nodes st !! p) as [n'|] eqn:En; [|done]. by destruct Hnew, (Hnodes p n' En) as (_ & ? & _). }
  split; [|right; split; [done|]; split; [done|]; by exists n].
  constructor; try done; cbn.
  - apply (fs_ok_more (heap st)); [done|]. rewrite E. set_solver.
  - intros q n' Hq. destruct (decide (q = p)) as [->|Hne].
    + rewrite lookup_insert_eq in Hq. injection Hq as <-. rewrite E. split_and!; try done; [set_solver|].
      intros Hb. by apply Hnew, Hfs.
    + rewrite lookup_insert_ne in Hq by done. destruct (Hnodes q n' Hq) as (? & ? & ? & ?).
      rewrite E. split_and!; try done. set_solver.
Qed.

Lemma free_node_ok p n st :
  store_ok st -> nodes st !! p = Some n -> store_ok (free_node p st).
Proof.
  intros [Hfs Hsz Hd Hnm Hnodes] Hp. destruct (Hnodes p n Hp) as (Hp0 & Hl & Hb & _).
  pose proof (kfree_live p (heap st) (or_intror Hl)) as Hlive.
  unfold free_node. constructor; try done; cbn.
  - destruct Hfs as (? & ? & ? & ? & Hbl). split_and!; try done. intros q Hq. apply Hlive. split; [by apply Hbl|].
    left. by intros ->.
  - intros q n' Hq. apply lookup_delete_Some in Hq as [Hne Hq]. destruct (Hnodes q n' Hq) as (? & ? & ? & ?).
    split_and!; try done. apply Hlive. auto.
Qed.

Lemma so_dir_text st i : store_ok st -> 0 <= i < 16 -> text (d_name (vdirs st).[i]).
Proof.
  intros [_ _ Hd Hnm _] Hi. rewrite Forall_lookup in Hnm. apply (Hnm (Z.to_nat i)), aget_lookup. lia.
Qed.

Lemma dir_text st i : store_ok st -> text (d_name (vdirs st).[i]).
Proof.
  intros Hok. destruct (decide (Z.to_nat i < 16)%nat) as [Hi|Hi].
  - destruct Hok as [_ _ Hd Hnm _]. rewrite Forall_lookup in Hnm. apply (Hnm (Z.to_nat i)).
    unfold aget. apply list_lookup_lookup_total_lt. lia.
  - unfold aget. rewrite list_lookup_total_alt, lookup_ge_None_2; [constructor|]. destruct Hok as [_ _ Hd _ _]. lia.
Qed.

Lemma build_key_text prefix tail size : text prefix -> text tail -> text (build_key prefix tail size).
Proof.
  intros Hp Ht. unfold build_key, text. rewrite !Forall_app. split_and!.
  - by apply text_take.
  - by repeat constructor.
  - by apply text_take.
Qed.
#[local] Hint Resolve dir_text build_key_text text_take : core.

Lemma make_file_node_spec key st :
  store_ok st -> text key -> let '(st', p) := make_file_node key st in returns st st' p.
Proof. intros Hok Hk. apply kmalloc_node_spec; try done. by apply text_take. Qed.

Lemma make_vdir_node_spec slot st :
  store_ok st -> let '(st', p) := make_vdir_node slot st in returns st st' p.
Proof. intros Hok. apply kmalloc_node_spec; try done. by apply text_take, dir_text. Qed.

Lemma returns_none st : store_ok st -> returns st st 0.
Proof. intros Hok. split; [done|by left]. Qed.

Lemma returns_same st st1 st' p : nodes st1 = nodes st -> returns st1 st' p -> returns st st' p.
Proof. intros E [Hok Hr]. split; [done|]. by rewrite <- E. Qed.

Lemma ramfs_finddir_spec n name st :
  store_ok st -> text name ->
  (let '(st', p) := ramfs_dir_finddir name st in returns st st' p) /\
  (let '(st', p) := ramfs_vdir_finddir n name st in returns st st' p).
Proof.
  intros Hok Hn. split.
  - unfold ramfs_dir_finddir. destruct (fs_exists _ _); [by apply make_file_node_spec|].
    destruct (find_vdir _ _); [by apply make_vdir_node_spec|by apply returns_none].
  - unfold ramfs_vdir_finddir. destruct (find_vdir _ _); [by apply make_vdir_node_spec|].
    destruct (fs_exists _ _); [|by apply returns_none]. apply make_file_node_spec; [done|].
    apply build_key_text; [by apply dir_text|done].
Qed.

Lemma add_vdir_spec name st :
  store_ok st -> text name -> let '(st', p) := add_vdir name st in returns st st' p.
Proof.
  intros Hok Hn. unfold add_vdir. destruct (find_vdir _ _); [by apply make_vdir_node_spec|].
  destruct (find_first _ _ _) as [slot|]; [|by apply returns_none].
  set (st1 := st <| vdirs := _ |>).
  assert (store_ok st1) as Hok1.
  { destruct Hok as [Hfs Hsz Hd Hnm Hnodes]. constructor; try done; unfold st1; cbn.
    - by rewrite aset_length.
    - unfold aset. apply Forall_insert; [done|]. cbn. by apply text_take. }
  pose proof (make_vdir_node_spec slot st1 Hok1) as Hm. destruct (make_vdir_node slot st1) as [st' p].
  by apply (returns_same st st1).
Qed.

Lemma add_file_spec key st :
  store_ok st -> text key -> let '(st', p) := add_file key st in returns st st' p.
Proof.
  intros Hok Hn. unfold add_file.
  pose proof (fs_write_step (heap st) (flat st) key None 0 false (so_fs _ Hok) Hn ltac:(done) ltac:(done) (so_sized _ Hok)) as Hw.
  destruct (fs_write _ _ _ _ _ _) as [[h f] r]. destruct Hw as [Hstep Hsz].
  set (st1 := st <| heap := h |> <| flat := f |>).
  assert (store_ok st1) as Hok1 by (apply store_fs_step; [done..|apply Hsz, big_fails]).
  destruct (r <? 0); [split; [done|by left]|].
  pose proof (make_file_node_spec key st1 Hok1 Hn) as Hm. destruct (make_file_node key st1) as [st' p].
  by apply (returns_same st st1).
Qed.

Lemma ramfs_create_spec n name flags st :
  store_ok st -> text name ->
  (let '(st', p) := ramfs_dir_create name flags st in returns st st' p) /\
  (let '(st', p) := ramfs_vdir_create n name flags st in returns st st' p).
Proof.
  intros Hok Hn. unfold ramfs_dir_create, ramfs_vdir_create.
  assert (text (build_key (node_prefix st n) name VFS_PATH_MAX)) by (apply build_key_text; [by apply dir_text|done]).
  destruct (has_flag _ _); split; (by apply add_vdir_spec || by apply add_file_spec).
Qed.

Lemma ramfs_unlink_spec n name st :
  store_ok st -> text name ->
  (let '(st', r) := ramfs_dir_unlink name st in store_ok st' /\ nodes st' = nodes st) /\
  (let '(st', r) := ramfs_vdir_unlink n name st in store_ok st' /\ nodes st' = nodes st).
Proof.
  intros Hok Hn.
  assert (forall i, store_ok (drop_vdir i st) /\ nodes (drop_vdir i st) = nodes st) as Hdrop.
  { intros i. split; [|done]. pose proof (dir_text st i Hok) as Ht. destruct Hok as [Hfs Hsz Hd Hnm Hnodes].
    constructor; try done; unfold drop_vdir; cbn; [by rewrite aset_length|]. unfold aset. by apply Forall_insert. }
  assert (forall key, text key -> let '(st', r) := delete_flat key st in store_ok st' /\ nodes st' = nodes st) as Hdel.
  { intros key Hk. unfold delete_flat. pose proof (fs_delete_step (heap st) (flat st) key (so_fs _ Hok) Hk) as Hd.
    pose proof (fs_delete_sized (heap st) (flat st) key (so_sized _ Hok)) as Hs.
    destruct (fs_delete _ _ _) as [[h f] r]. split; [|done]. by apply store_fs_step; [|apply Hd|]. }
  split.
  - unfold ramfs_dir_unlink. destruct (fs_exists _ _); [by apply Hdel|]. by destruct (find_vdir _ _).
  - unfold ramfs_vdir_unlink. destruct (find_vdir _ _); [done|]. apply Hdel.
    apply build_key_text; [by apply dir_text|done].
Qed.

(** The file a node stands for, as far as it goes from an offset. *)
Definition window (c : list Z) (offset size : Z) : list Z :=
  slice c offset (Z.max 0 (Z.min size (Z.of_nat (length c) - offset))).

Lemma fs_size_contents st name :
  store_ok st -> text name -> fs_size (flat st) name = Z.of_nat (length (default [] (contents (flat st) name))).
Proof.
  intros Hok Hn. unfold fs_size, contents, static_contents. destruct (find_writable _ _) as [i|] eqn:E.
  - destruct (find_writable_Some (heap st) _ name i (so_fs _ Hok) Hn E) as (Hi & Hu & _).
    by destruct (fs_ok_entry (heap st) _ i (so_fs _ Hok) Hi Hu) as (_ & _ & -> & _).
  - by destruct (find_static _ _).
Qed.

Lemma slice_slice {A} `{Inhabited A} (l : list A) n o k :
  0 <= o -> 0 <= k -> o + k <= n -> slice (slice l 0 n) o k = slice l o k.
Proof.
  intros Ho Hk Hn. apply slice_ext. intros i Hi. unfold aget at 1.
  pose proof (slice_lookup l 0 n (o + i) ltac:(lia)) as E. by rewrite (list_lookup_total_correct _ _ _ E).
Qed.

Lemma ramfs_file_read_spec n offset size st c :
  store_ok st -> text (n_name n) -> 0 <= offset -> 0 < size ->
  contents (flat st) (n_name n) = Some c -> Z.of_nat (length c) < 1073741824 ->
  let '(st', r, bytes) := ramfs_file_read n offset size st in
  store_ok st' /\ nodes st' = nodes st /\ flat st' = flat st /\ vdirs st' = vdirs st /\
  (r = Z.of_nat (length bytes) /\ bytes = window c offset size \/
   r = -1 /\ 0 < offset /\ (ka_malloc (heap st) (Z.of_nat (length c))).2 = 0).
Proof.
  intros Hok Hn Ho Hsz Hc Hlen. unfold ramfs_file_read. rewrite (fs_size_contents st) by done. rewrite Hc.
  change (default [] (Some c)) with c. cbv zeta.
  destruct ((Z.of_nat (length c) =? 0) || (Z.of_nat (length c) <=? offset)) eqn:E0.
  { split_and!; try done. left. unfold window. rewrite Z.max_l; [done|].
    apply orb_prop in E0 as [E0%Z.eqb_eq|E0%Z.leb_le]; lia. }
  apply orb_false_elim in E0 as [E0%Z.eqb_neq E1%Z.leb_gt].
  set (to_read := if _ <? _ then _ else _).
  assert (to_read = Z.min size (Z.of_nat (length c) - offset)) as Et by (unfold to_read; case_match; bool_to_prop; lia).
  assert (window c offset size = slice c offset to_read) as Ew by (unfold window; f_equal; lia).
  destruct (Z.eqb_spec offset 0) as [->|Hne].
  { rewrite (fs_read_bytes_spec (heap st)); [|apply Hok|done|lia]. rewrite Hc. rewrite Z.min_l by lia.
    cbv beta iota. split_and!; try done. left. rewrite slice_length by lia. by rewrite Ew. }
  destruct (malloc_cases (heap st) (Z.of_nat (length c))) as (h & tmp & Em & Htmp). rewrite Em.
  destruct Htmp as [[-> El]|(Htmp & Hnew & El)].
  { cbn [Z.eqb]. split_and!; try done; [by apply store_heap|]. right. split; [done|]. split; [lia|done]. }
  rewrite (proj2 (Z.eqb_neq tmp 0)) by done.
  rewrite (fs_read_bytes_spec (heap st)); [|apply Hok|done|lia]. rewrite Hc, Z.min_id, slice_all.
  rewrite (proj2 (Z.ltb_ge _ 0)), (proj2 (Z.leb_gt _ offset)) by lia. cbn [orb].
  assert (store_ok (st <| heap := kfree tmp h |>)) as Hok'.
  { apply store_heap; [done|]. apply set_eq. intros q. rewrite kfree_live by (right; rewrite El; set_solver).
    rewrite El. set_solver. }
  set (k := if _ <? to_read then _ else _).
  assert (k = to_read) as -> by (unfold k; case_match; bool_to_prop; lia).
  cbv beta iota zeta. split_and!; try done. left. rewrite slice_length by lia. split; [|done].
  unfold s32. rewrite u32_small by lia. by rewrite (proj2 (Z.ltb_lt _ _)) by lia.
Qed.

Lemma fs_read_bytes_length (h : H) f name k :
  fs_ok h f -> 0 < k < 2147483648 ->
  let '(r, b) := fs_read_bytes f name k in r <= Z.of_nat (length b) /\ r <= k.
Proof.
  intros Hok Hk. unfold fs_read_bytes. rewrite (proj2 (Z.eqb_neq k 0)) by lia.
  assert (forall c z, 0 <= z -> let m := if k <? z then k else z in
    s32 m <= Z.of_nat (length (slice (A := Z) c 0 m)) /\ s32 m <= k) as Hm.
  { intros c z Hz. cbv zeta. case_match eqn:E; bool_to_prop; rewrite slice_length, s32_small by lia; lia. }
  destruct (find_writable f name) as [i|] eqn:Ei.
  - apply find_first_Some in Ei as (Hi & [Hu _]%andb_prop & _). destruct Hok as (Hl & He & _).
    assert (entry_ok (writable f).[i]) as Hei.
    { rewrite Forall_lookup in He. apply (He (Z.to_nat i)), aget_lookup. unfold FS_WRITE_MAX in Hi. lia. }
    destruct (Hei Hu) as (_ & _ & Es & _). apply Hm. lia.
  - destruct (find_static f name); [|cbn; lia]. apply Hm. lia.
Qed.

(** No more is returned than was asked for or than was stored. *)
Lemma ramfs_file_read_length n offset size st :
  store_ok st -> 0 < size < 2147483648 ->
  let '(st', r, bytes) := ramfs_file_read n offset size st in r <= Z.of_nat (length bytes) /\ r <= size.
Proof.
  intros Hok Hs. unfold ramfs_file_read. set (total := fs_size _ _).
  destruct (_ || _) eqn:E0; [cbn; lia|]. apply orb_false_elim in E0 as [_ E0%Z.leb_gt].
  set (to_read := if size <? total - offset then size else total - offset).
  assert (0 < to_read <= size) as Ht by (unfold to_read; case_match; bool_to_prop; lia).
  destruct (Z.eqb_spec offset 0) as [->|Hne].
  { pose proof (fs_read_bytes_length (heap st) (flat st) (n_name n) to_read (so_fs _ Hok) ltac:(lia)) as Hf.
    destruct (fs_read_bytes _ _ _) as [r b]. lia. }
  destruct (ka_malloc _ _) as [h tmp]. destruct (tmp =? 0); [cbn; lia|].
  destruct (fs_read_bytes _ _ _) as [got b]. destruct ((got <? 0) || (got <=? offset)) eqn:E1.
  { destruct (got <? 0); cbn; lia. }
  apply orb_false_elim in E1 as [_ E1%Z.leb_gt]. cbv zeta.
  set (n' := if got - offset <? to_read then got - offset else to_read).
  assert (0 < n' <= to_read) by (unfold n'; case_match; bool_to_prop; lia).
  rewrite slice_length, s32_small by lia. lia.
Qed.

Lemma ramfs_file_read_ok n offset size st :
  store_ok st -> let '(st', r, bytes) := ramfs_file_read n offset size st in
  store_ok st' /\ nodes st' = nodes st /\ flat st' = flat st /\ vdirs st' = vdirs st.
Proof.
  intros Hok. unfold ramfs_file_read. destruct (_ || _); [done|]. destruct (offset =? 0); [by destruct (fs_read_bytes _ _ _)|].
  set (total := fs_size _ _).
  destruct (malloc_cases (heap st) total) as (h & tmp & Em & Htmp). rewrite Em.
  destruct Htmp as [[-> El]|(Htmp & Hnew & El)]; [cbn [Z.eqb]; split_and!; try done; by apply store_heap|].
  rewrite (proj2 (Z.eqb_neq tmp 0)) by done. destruct (fs_read_bytes _ _ _) as [got bytes].
  assert (store_ok (st <| heap := kfree tmp h |>)) as Hok'.
  { apply store_heap; [done|]. apply set_eq. intros q. rewrite kfree_live by (right; rewrite El; set_solver).
    rewrite El. set_solver. }
  by destruct ((got <? 0) || _).
Qed.

Lemma ramfs_file_write_ok p n offset size buf st :
  store_ok st -> nodes st !! p = Some n -> 0 <= size <= Z.of_nat (length buf) -> size < 1073741824 ->
  let '(st', r) := ramfs_file_write p offset size buf st in
  store_ok st' /\ vdirs st' = vdirs st /\
  exists z, nodes st' = <[p := n <| n_size := z |>]> (nodes st).
Proof.
  intros Hok Hp Hs Hs1. assert (get_node st p = n) as En by (unfold get_node; by rewrite (lookup_total_correct _ _ _ Hp)).
  unfold ramfs_file_write. rewrite En. destruct (so_nodes _ Hok p n Hp) as (_ & _ & _ & Hn).
  pose proof (fs_write_step (heap st) (flat st) (n_name n) (Some buf) size (0 <? offset) (so_fs _ Hok) Hn Hs Hs1
    (so_sized _ Hok)) as Hw.
  destruct (fs_write _ _ _ _ _ _) as [[h f] r]. destruct Hw as [Hstep Hsz].
  assert (store_ok (st <| heap := h |> <| flat := f |>)) as Hok1 by (apply store_fs_step; [done..|apply Hsz, big_fails]).
  destruct (0 <=? r).
  - split; [|split; [done|]].
    + destruct Hok1 as [Hfs Hsd Hd Hnm Hnodes]. constructor; try done; cbn.
      intros q n' Hq. destruct (decide (q = p)) as [->|Hne].
      * rewrite lookup_insert_eq in Hq. injection Hq as <-. unfold get_node in *; cbn in *. rewrite En. cbn.
        by apply (Hnodes p n).
      * rewrite lookup_insert_ne in Hq by done. by apply (Hnodes q n').
    + cbn. unfold get_node; cbn. unfold get_node in En. rewrite En. by eexists.
  - split; [done|]. split; [done|]. exists (n_size n). cbn.
    assert (n <| n_size := n_size n |> = n) as -> by (by destruct n). by rewrite insert_id.
Qed.
End props.

(** * Directory listings *)

(** The names of the flat store in the order of [fs_name_at]: the built-in files,
    then the entries in use; an entry whose name has no block has none. *)
Definition entry_names (l : list fs_writable_entry) : list (option (list Z)) :=
  omap (fun e => if w_used e then Some (if w_name e =? 0 then None else Some (w_text e)) else None) l.

Definition all_names (s : fs) : list (option (list Z)) := (Some <$> (f_name <$> files s)) ++ entry_names (writable s).

(** A scan ends at the first null pointer. *)
Fixpoint until_none {A} (l : list (option A)) : list A :=
  match l with Some x :: l' => x :: until_none l' | _ => [] end.

(** The names a listing goes through, and those of the directories. *)
Definition listed_names (s : fs) : list (list Z) := until_none (all_names s).

Definition dir_names (dirs : list ramfs_vdir) : list (list Z) :=
  omap (fun d => if d_used d then Some (d_name d) else None) dirs.

Lemma drop_aget {A} `{Inhabited A} (l : list A) i :
  0 <= i < Z.of_nat (length l) -> drop (Z.to_nat i) l = l.[i] :: drop (Z.to_nat (i + 1)) l.
Proof.
  intros Hi. replace (Z.to_nat (i + 1)) with (S (Z.to_nat i)) by lia.
  apply drop_S, aget_lookup. lia.
Qed.

Lemma nth_used_spec s n : forall i target,
  0 <= i -> 0 <= target -> Z.of_nat (length (writable s)) = i + Z.of_nat n ->
  nth_used s n i target = mjoin (entry_names (drop (Z.to_nat i) (writable s)) !! Z.to_nat target).
Proof.
  induction n as [|n IH]; intros i target Hi Ht Hn.
  { rewrite drop_ge by lia. done. }
  cbn [nth_used]. rewrite drop_aget by lia. unfold entry_names. cbn [omap list_omap].
  destruct (w_used (writable s).[i]) eqn:Hu; [|apply IH; lia].
  destruct (Z.eqb_spec target 0) as [->|Hne]; [done|].
  rewrite IH by lia. replace (Z.to_nat target) with (S (Z.to_nat (target - 1))) by lia. done.
Qed.

Lemma fs_name_at_spec s i :
  length (writable s) = 32%nat -> 0 <= i -> fs_name_at s i = mjoin (all_names s !! Z.to_nat i).
Proof.
  intros Hl Hi. unfold fs_name_at, all_names, file_count. rewrite (proj2 (Z.ltb_ge i 0)) by lia.
  destruct (Z.ltb_spec i (Z.of_nat (length (files s)))) as [Hlt|Hge].
  - rewrite lookup_app_l by (rewrite !length_fmap; lia). rewrite !list_lookup_fmap, aget_lookup by lia. done.
  - rewrite lookup_app_r by (rewrite !length_fmap; lia). rewrite !length_fmap.
    rewrite (nth_used_spec s 32) by (done || lia). cbn [drop Z.to_nat]. f_equal. f_equal. lia.
Qed.

Lemma entry_names_length l : (length (entry_names l) <= length l)%nat.
Proof. unfold entry_names. induction l as [|e l IH]; cbn; [lia|]. destruct (w_used e); cbn; lia. Qed.

Lemma scan_names_spec s stem fuel : length (writable s) = 32%nat -> forall i found index,
  0 <= i -> found <= index -> (length (all_names s) < fuel + Z.to_nat i)%nat ->
  scan_names s stem fuel i found index =
    let l := omap stem (until_none (drop (Z.to_nat i) (all_names s))) in
    match l !! Z.to_nat (index - found) with
    | Some t => inl t
    | None => inr (found + Z.of_nat (length l))
    end.
Proof.
  intros Hl. induction fuel as [|fuel IH]; intros i found index Hi Hf Hfuel.
  { cbn zeta. rewrite drop_ge by lia. cbn. f_equal; lia. }
  cbn [scan_names]. rewrite fs_name_at_spec by done.
  destruct (all_names s !! Z.to_nat i) as [o|] eqn:E.
  2:{ apply lookup_ge_None in E. cbn zeta. rewrite drop_ge by lia. cbn. f_equal; lia. }
  cbn zeta. rewrite (drop_S _ _ _ E). destruct o as [e|]; cbn; [|f_equal; lia].
  replace (S (Z.to_nat i)) with (Z.to_nat (i + 1)) by lia.
  destruct (stem e) as [t|]; [|apply IH; lia].
  destruct (Z.eqb_spec found index) as [->|Hne].
  { by rewrite Z.sub_diag. }
  rewrite IH by lia. cbn zeta. replace (Z.to_nat (index - found)) with (S (Z.to_nat (index - (found + 1)))) by lia.
  set (l := omap stem (until_none (drop (Z.to_nat (i + 1)) (all_names s)))).
  change (omap stem _) with l. rewrite lookup_cons. cbn [length].
  destruct (l !! _); [done|]. f_equal; lia.
Qed.

Lemma scan_vdirs_spec dirs stem n : forall i found index,
  0 <= i -> found <= index -> Z.of_nat (length dirs) = i + Z.of_nat n ->
  scan_vdirs dirs stem n i found index =
    omap stem (dir_names (drop (Z.to_nat i) dirs)) !! Z.to_nat (index - found).
Proof.
  induction n as [|n IH]; intros i found index Hi Hf Hn.
  { rewrite drop_ge by lia. done. }
  cbn [scan_vdirs]. rewrite drop_aget by lia. unfold dir_names. cbn [omap list_omap].
  destruct (d_used dirs.[i]); cbn [negb]; [|apply IH; lia]. cbn [omap list_omap].
  destruct (stem (d_name dirs.[i])) as [t|]; [|apply IH; lia].
  destruct (Z.eqb_spec found index) as [->|Hne].
  { by rewrite Z.sub_diag. }
  rewrite IH by lia. replace (Z.to_nat (index - found)) with (S (Z.to_nat (index - (found + 1)))) by lia. done.
Qed.

(** What the two stems select: the names one level below the prefix, and those
    without a separator. *)
Lemma name_has_slash_spec name : name_has_slash name = true <-> SLASH ∈ name.
Proof.
  unfold name_has_slash. rewrite existsb_exists. setoid_rewrite Z.eqb_eq. rewrite list_elem_of_In.
  split; [by intros (x & Hx & <-)|]. by intros Hx; exists SLASH.
Qed.

Lemma name_has_prefix_spec prefix : forall name,
  name_has_prefix name prefix = true <-> exists t, name = prefix ++ SLASH :: t.
Proof.
  induction prefix as [|p prefix IH]; intros [|c name]; cbn.
  - split; [done|]. by intros [t ?].
  - rewrite Z.eqb_eq. split; [intros ->; by exists name|]. by intros [t [= ? ?]].
  - split; [done|]. by intros [t ?].
  - destruct (Z.eqb_spec c p) as [->|Hne]; cbn [negb].
    + rewrite IH. split; intros [t E]; exists t; [by rewrite E|by injection E].
    + split; [done|]. intros [t [= ? ?]]. done.
Qed.

Lemma child_stem_spec prefix name t :
  child_stem prefix name = Some t <-> name = prefix ++ SLASH :: t /\ SLASH ∉ t.
Proof.
  unfold child_stem. destruct (name_has_prefix name prefix) eqn:E; cbn [negb].
  - apply name_has_prefix_spec in E as [u ->].
    assert (drop (length prefix + 1) (prefix ++ SLASH :: u) = u) as ->.
    { rewrite drop_app_ge by lia. by replace (length prefix + 1 - length prefix)%nat with 1%nat by lia. }
    pose proof (name_has_slash_spec u) as Hs. destruct (name_has_slash u).
    + split; [done|]. intros [Eu Ht]. apply app_inv_head in Eu. injection Eu as ->. destruct Ht. by apply Hs.
    + split.
      * intros [= ->]. split; [done|]. intros Hin%Hs. done.
      * intros [Eu _]. apply app_inv_head in Eu. by injection Eu as ->.
  - split; [done|]. intros [-> _]. assert (name_has_prefix (prefix ++ SLASH :: t) prefix = true); [|congruence].
    apply name_has_prefix_spec. by exists t.
Qed.

Lemma root_stem_spec name t : root_stem name = Some t <-> name = t /\ SLASH ∉ t.
Proof.
  unfold root_stem. pose proof (name_has_slash_spec name) as Hs. destruct (name_has_slash name).
  - split; [done|]. intros [-> Ht]. destruct Ht. by apply Hs.
  - split; [intros [= ->]; split; [done|]; by intros ?%Hs|]. by intros [-> _].
Qed.

(** The children a directory is listed with: the files, then the directories. *)
Definition listing {H : Type} (stem : list Z -> option (list Z)) (st : store H) : list (list Z) :=
  omap stem (listed_names (flat st)) ++ omap stem (dir_names (vdirs st)).

Lemma listing_spec {H : Type} stem (st : store H) t :
  t ∈ listing stem st <->
  exists name, stem name = Some t /\ (name ∈ listed_names (flat st) \/ name ∈ dir_names (vdirs st)).
Proof.
  unfold listing. rewrite elem_of_app, !list_elem_of_omap. naive_solver.
Qed.

Lemma until_none_app {A} (l : list A) l' : until_none ((Some <$> l) ++ l') = l ++ until_none l'.
Proof. induction l as [|x l IH]; [done|]. cbn. by f_equal. Qed.

(** A name that stands in both tables. *)
Lemma listed_twice {H : Type} stem (st : store H) name t :
  stem name = Some t -> name ∈ (f_name <$> files (flat st)) ->
  name ∈ until_none (entry_names (writable (flat st))) ->
  exists i j, i <> j /\ listing stem st !! i = Some t /\ listing stem st !! j = Some t.
Proof.
  intros Hs H1 H2. unfold listing, listed_names, all_names. rewrite until_none_app, omap_app, <- app_assoc.
  assert (forall l : list (list Z), name ∈ l -> exists i, omap stem l !! i = Some t) as Hi.
  { intros l Hl. apply list_elem_of_lookup. apply list_elem_of_omap. by exists name. }
  destruct (Hi _ H1) as [i Ei]. destruct (Hi _ H2) as [j Ej]. pose proof (lookup_lt_Some _ _ _ Ei).
  eexists i, (length (omap stem (f_name <$> files (flat st))) + j)%nat. split; [lia|].
  split; [by apply lookup_app_l_Some|]. rewrite lookup_app_r by lia. rewrite Nat.add_comm, Nat.add_sub.
  by apply lookup_app_l_Some.
Qed.

(** C19: the two listings of the RAM file system give at each index the entry of
    that position of a list, cut to the caller's buffer, and fail from its end on;
    the scans end within one step per name.  The list holds exactly the children:
    of the root, the names without a separator; of a directory, its name, a
    separator and a name without one; the built-in files first, then the files
    written, up to the first whose name has no block, then the directories.  A
    built-in file that has been written stands in it twice. *)
Theorem ramfs_readdir_lists {H : Type} (st : store H) (n : vfs_node) index name_max :
  length (writable (flat st)) = 32%nat -> length (vdirs st) = 16%nat -> 0 <= index ->
  let root := listing root_stem st in
  let dir := listing (child_stem (node_prefix st n)) st in
  ramfs_dir_readdir index name_max st = bounded name_max <$> root !! Z.to_nat index /\
  ramfs_vdir_readdir n index name_max st = bounded name_max <$> dir !! Z.to_nat index /\
  forall t,
    let known name := name ∈ listed_names (flat st) \/ name ∈ dir_names (vdirs st) in
    let both name := name ∈ (f_name <$> files (flat st)) /\ name ∈ until_none (entry_names (writable (flat st))) in
    (t ∈ root <-> known t /\ SLASH ∉ t) /\
    (t ∈ dir <-> known (node_prefix st n ++ SLASH :: t) /\ SLASH ∉ t) /\
    (both t -> SLASH ∉ t -> exists i j, i <> j /\ root !! i = Some t /\ root !! j = Some t) /\
    (both (node_prefix st n ++ SLASH :: t) -> SLASH ∉ t ->
       exists i j, i <> j /\ dir !! i = Some t /\ dir !! j = Some t).
Proof.
  intros Hl Hd Hi root dir. apply and_assoc. split.
  2:{ intros t. cbv zeta. unfold root, dir. rewrite !listing_spec. split_and!.
      - split; [intros (name & [-> Ht]%root_stem_spec & Hn); done|]. intros [Hn Ht]. exists t. by rewrite root_stem_spec.
      - split; [intros (name & [-> Ht]%child_stem_spec & Hn); done|]. intros [Hn Ht].
        exists (node_prefix st n ++ SLASH :: t). by rewrite child_stem_spec.
      - intros [H1 H2] Ht. apply (listed_twice _ st t); [by apply root_stem_spec|done..].
      - intros [H1 H2] Ht. eapply (listed_twice _ st); [by apply child_stem_spec|done..]. }
  assert (length (all_names (flat st)) < scan_fuel (flat st) + Z.to_nat 0)%nat as Hfuel.
  { unfold all_names, scan_fuel. rewrite length_app, !length_fmap. pose proof (entry_names_length (writable (flat st))). lia. }
  unfold root, dir, listing, listed_names, ramfs_dir_readdir, ramfs_vdir_readdir.
  split; rewrite scan_names_spec by (done || lia); cbn zeta; change (drop (Z.to_nat 0) (all_names (flat st))) with (all_names (flat st)); rewrite Z.sub_0_r; f_equal;
    match goal with |- context [omap ?f (until_none _)] => set (l := omap f (until_none (all_names (flat st)))) end;
    destruct (l !! Z.to_nat index) as [t|] eqn:E.
  - by rewrite (lookup_app_l_Some _ _ _ _ E).
  - apply lookup_ge_None in E. rewrite scan_vdirs_spec by (unfold RAMFS_MAX_DIRS; lia).
    rewrite lookup_app_r by lia. f_equal. lia.
  - by rewrite (lookup_app_l_Some _ _ _ _ E).
  - apply lookup_ge_None in E. rewrite scan_vdirs_spec by (unfold RAMFS_MAX_DIRS; lia).
    rewrite lookup_app_r by lia. f_equal. lia.
Qed.

(** The root holds the built-in file [a], which has been written, and a directory
    [d] with the file [f]. *)
Definition listing_store : store small_heap :=
  Store (SmallHeap ∅ 64) ∅
    (Fs (WEntry true 4096 [97] 0 [] 0 :: repeat (WEntry false 0 [] 0 [] 0) 31)
        [FsEntry [97] [1; 2; 3]; FsEntry [100; SLASH; 102] [4]] [])
    (VDir true [100] :: repeat (VDir false []) 15).

Lemma ramfs_readdir_lists_witness :
  let n := VfsNode [100] VFS_FLAG_DIR 0 0 1 OpsRamfsVdir 0 in
  ramfs_dir_readdir 0 64 listing_store = Some [97] /\ ramfs_dir_readdir 1 64 listing_store = Some [97] /\
  ramfs_dir_readdir 2 64 listing_store = Some [100] /\ ramfs_dir_readdir 3 64 listing_store = None /\
  ramfs_vdir_readdir n 0 64 listing_store = Some [102].
Proof.
  intros n.
  destruct (ramfs_readdir_lists listing_store n 0 64 eq_refl eq_refl ltac:(lia)) as (-> & -> & _).
  destruct (ramfs_readdir_lists listing_store n 1 64 eq_refl eq_refl ltac:(lia)) as [-> _].
  destruct (ramfs_readdir_lists listing_store n 2 64 eq_refl eq_refl ltac:(lia)) as [-> _].
  destruct (ramfs_readdir_lists listing_store n 3 64 eq_refl eq_refl ltac:(lia)) as [-> _].
  repeat split; reflexivity.
Defined.
