(* ===== verification/Klog.v ===== *)
(** Kernel log: [kernel/klog.c].

    A static ring of 64 entries with fixed-size text fields.  The theorems show
    that it is the list of the last 64 records written, each text cut to what
    its field holds. *)
From S2P Require Import Prelude.
From S2P Require Import KString.
From S2P Require Import Ring.
From Stdlib Require Import ZArith Lia.
From stdpp Require Import base numbers list.

Open Scope Z_scope.
Open Scope lyth_scope.

Definition KLOG_MAX_ENTRIES : Z := 64.
Definition KLOG_COMPONENT_MAX : Z := 16.
Definition KLOG_MESSAGE_MAX : Z := 80.

Definition KLOG_LEVEL_DEBUG : Z := 0.
Definition KLOG_LEVEL_INFO : Z := 1.
Definition KLOG_LEVEL_WARN : Z := 2.
Definition KLOG_LEVEL_ERROR : Z := 3.

Record klog_entry := KlogEntry {
  ticks : Z; level : Z; component : list Z; message : list Z }.

Definition blank_entry : klog_entry :=
  KlogEntry 0 0 (repeat 0 (Z.to_nat KLOG_COMPONENT_MAX)) (repeat 0 (Z.to_nat KLOG_MESSAGE_MAX)).

#[export] Instance klog_entry_inhabited : Inhabited klog_entry := populate blank_entry.

Record klog := Klog { klog_entries : list klog_entry; klog_start : Z; klog_size : Z }.

(** The zero-initialised statics. *)
Definition klog_boot : klog :=
  Klog (repeat blank_entry (Z.to_nat KLOG_MAX_ENTRIES)) 0 0.

(** [None] is a NULL pointer. *)
Definition klog_copy_text (destination : option (list Z)) (size : Z) (source : option (list Z))
    : option (list Z) :=
  match destination with
  | None => None
  | Some dst =>
      if size =? 0 then Some dst
      else match source with
           | None => Some dst.[0 <- 0]
           | Some src =>
               let '(dst, index) := copy_str (Z.to_nat size) dst 0 src (size - 1) 0 in
               Some dst.[index <- 0]
           end
  end.

Definition text_DEBUG := [68; 69; 66; 85; 71].
Definition text_INFO := [73; 78; 70; 79].
Definition text_WARN := [87; 65; 82; 78].
Definition text_ERROR := [69; 82; 82; 79; 82].
Definition text_UNK := [85; 78; 75].
Definition text_kernel := [107; 101; 114; 110; 101; 108].

Definition klog_level_name (level : Z) : list Z :=
  if level =? KLOG_LEVEL_DEBUG then text_DEBUG
  else if level =? KLOG_LEVEL_INFO then text_INFO
  else if level =? KLOG_LEVEL_WARN then text_WARN
  else if level =? KLOG_LEVEL_ERROR then text_ERROR
  else text_UNK.

Definition klog_clear (s : klog) : klog := Klog (klog_entries s) 0 0.

(** [klog_write] at time [now] ([timer_get_ticks()]). *)
Definition klog_write (s : klog) (now lev : Z) (comp msg : option (list Z)) : klog :=
  let '(index, start, size) :=
    if klog_size s <? KLOG_MAX_ENTRIES
    then ((klog_start s + klog_size s) mod KLOG_MAX_ENTRIES, klog_start s, klog_size s + 1)
    else (klog_start s, (klog_start s + 1) mod KLOG_MAX_ENTRIES, klog_size s) in
  let e := (klog_entries s).[index] in
  let c := klog_copy_text (Some (component e)) KLOG_COMPONENT_MAX (Some (default text_kernel comp)) in
  let m := klog_copy_text (Some (message e)) KLOG_MESSAGE_MAX (Some (default [] msg)) in
  Klog (klog_entries s).[index <- KlogEntry now lev (default [] c) (default [] m)] start size.

(** Calls made on the terminal. *)
Inductive term_op :=
| PutChar (c : Z) | PrintUint (n : Z) | Print (s : list Z) | PrintLine (s : list Z).

Definition klog_dump_to_terminal (s : klog) : list term_op :=
  for_loop (fun i out =>
    let e := (klog_entries s).[(klog_start s + i) mod KLOG_MAX_ENTRIES] in
    out ++ [PutChar 91; PrintUint (ticks e); PutChar 93; PutChar 32;
            Print (klog_level_name (level e)); PutChar 32; Print (cstr (component e));
            Print [58; 32]; PrintLine (cstr (message e))])
    (Z.to_nat (klog_size s)) 0 [].

Definition klog_count (s : klog) : Z := klog_size s.

(** [klog_read_entry]: the result code, [*level_out], and the two buffers after
    the call. *)
Definition klog_read_entry (s : klog) (index : Z)
    (comp_out : option (list Z)) (comp_max : Z) (msg_out : option (list Z)) (msg_max : Z)
    : Z * option Z * option (list Z) * option (list Z) :=
  if (index <? 0) || (klog_size s <=? index) then (-1, None, comp_out, msg_out)
  else
    let e := (klog_entries s).[(klog_start s + index) mod KLOG_MAX_ENTRIES] in
    (0, Some (level e),
     klog_copy_text comp_out (u32 comp_max) (Some (component e)),
     klog_copy_text msg_out (u32 msg_max) (Some (message e))).

(** * Specification *)

Record record := Rec { r_ticks : Z; r_level : Z; r_comp : list Z; r_msg : list Z }.

(** What a call asks to log, cut to the fields. *)
Definition cut (now lev : Z) (comp msg : option (list Z)) : record :=
  Rec now lev (take 15 (cstr (default text_kernel comp))) (take 79 (cstr (default [] msg))).

Definition entry_record (e : klog_entry) : record :=
  Rec (ticks e) (level e) (cstr (component e)) (cstr (message e)).

Definition log (s : klog) : list record :=
  ring_list (fun i => entry_record (klog_entries s).[i]) KLOG_MAX_ENTRIES (klog_start s) (klog_size s).

Definition lastn {A} (n : nat) (l : list A) : list A := drop (length l - n) l.

Record klog_ok (s : klog) : Prop := KlogOk {
  k_len : Z.of_nat (length (klog_entries s)) = KLOG_MAX_ENTRIES;
  k_start : 0 <= klog_start s < KLOG_MAX_ENTRIES;
  k_size : 0 <= klog_size s <= KLOG_MAX_ENTRIES;
  k_fields : forall i, 0 <= i < KLOG_MAX_ENTRIES ->
    Z.of_nat (length (component (klog_entries s).[i])) = KLOG_COMPONENT_MAX /\
    Z.of_nat (length (message (klog_entries s).[i])) = KLOG_MESSAGE_MAX;
}.

Lemma klog_boot_ok : klog_ok klog_boot.
Proof.
  constructor; unfold KLOG_MAX_ENTRIES; simpl; try lia.
  intros i Hi. change (aget _ i) with ((repeat blank_entry 64).[i]).
  unfold aget. rewrite list_lookup_total_alt.
  by rewrite (lookup_replicate_2 64 blank_entry) by lia.
Qed.

Lemma copy_text_spec dst size src :
  0 < size -> size = Z.of_nat (length dst) ->
  exists d, klog_copy_text (Some dst) size (Some src) = Some d /\
    length d = length dst /\ cstr d = take (Z.to_nat (size - 1)) (cstr src).
Proof.
  intros Hs Hl. unfold klog_copy_text. rewrite (proj2 (Z.eqb_neq size 0)) by lia.
  rewrite copy_str_blit by lia. eexists. split; [done|].
  split; [by rewrite aset_length, blit_length|]. rewrite cstr_write0 by lia.
  destruct (decide (size - 1 <= Z.of_nat (length (cstr src)))).
  - by rewrite Z.min_l by lia.
  - rewrite Z.min_r by lia. by rewrite !take_ge by lia.
Qed.

(** The entry [klog_write] stores, whatever the slot held before. *)
Lemma write_entry_spec e now lev comp msg :
  Z.of_nat (length (component e)) = KLOG_COMPONENT_MAX ->
  Z.of_nat (length (message e)) = KLOG_MESSAGE_MAX ->
  let e' := KlogEntry now lev
    (default [] (klog_copy_text (Some (component e)) KLOG_COMPONENT_MAX (Some (default text_kernel comp))))
    (default [] (klog_copy_text (Some (message e)) KLOG_MESSAGE_MAX (Some (default [] msg)))) in
  length (component e') = length (component e) /\ length (message e') = length (message e) /\
  entry_record e' = cut now lev comp msg.
Proof.
  intros Hc Hm.
  destruct (copy_text_spec (component e) KLOG_COMPONENT_MAX (default text_kernel comp))
    as (c & Ec & Hlc & Tc); [done|done|].
  destruct (copy_text_spec (message e) KLOG_MESSAGE_MAX (default [] msg))
    as (m & Em & Hlm & Tm); [done|done|].
  cbv zeta. rewrite Ec, Em. simpl default. cbn [component message]. split_and!; [done..|].
  unfold entry_record, cut; cbn [ticks level component message]. by rewrite Tc, Tm.
Qed.

Lemma log_length s : klog_ok s -> Z.of_nat (length (log s)) = klog_size s.
Proof. intros Hok. apply ring_list_length. apply (k_size _ Hok). Qed.

Lemma lastn_all {A} n (l : list A) : (length l <= n)%nat -> lastn n l = l.
Proof. intros. unfold lastn. by replace (length l - n)%nat with 0%nat by lia. Qed.

Lemma klog_write_spec s now lev comp msg :
  klog_ok s ->
  klog_ok (klog_write s now lev comp msg) /\
  log (klog_write s now lev comp msg) = lastn 64 (log s ++ [cut now lev comp msg]).
Proof.
  intros Hok. pose proof (log_length s Hok) as Hlen. destruct Hok as [Hl Hst Hsz Hf].
  unfold KLOG_MAX_ENTRIES in *. unfold klog_write.
  set (idx := if klog_size s <? 64 then (klog_start s + klog_size s) mod 64 else klog_start s).
  assert (0 <= idx < 64) as Hidx by (unfold idx; case_if; [apply Z.mod_pos_bound|]; lia).
  destruct (Hf idx Hidx) as [Hc Hm].
  destruct (write_entry_spec (klog_entries s).[idx] now lev comp msg Hc Hm) as (Lc & Lm & Er).
  cbv zeta in *. set (e := KlogEntry now lev _ _) in *.
  assert (forall i, 0 <= i < 64 ->
    (klog_entries s).[idx <- e].[i] = if decide (i = idx) then e else (klog_entries s).[i]) as Hget.
  { intros i Hi. case_decide; [subst; apply aget_aset_eq; lia|apply aget_aset_ne; lia]. }
  assert (forall i, 0 <= i < 64 ->
    Z.of_nat (length (component (klog_entries s).[idx <- e].[i])) = KLOG_COMPONENT_MAX /\
    Z.of_nat (length (message (klog_entries s).[idx <- e].[i])) = KLOG_MESSAGE_MAX) as Hf'.
  { intros i Hi. rewrite Hget by done. case_decide; [|by apply Hf]. rewrite Lc, Lm. done. }
  unfold KLOG_MAX_ENTRIES. destruct (klog_size s <? 64) eqn:Hfull; bool_to_prop; fold idx; split.
  - constructor; unfold KLOG_MAX_ENTRIES; cbn [klog_entries klog_start klog_size];
      rewrite ?aset_length; done || lia.
  - rewrite lastn_all by (rewrite length_app; simpl; lia). unfold log; cbn [klog_entries klog_start klog_size].
    apply ring_push; unfold KLOG_MAX_ENTRIES; [lia| |].
    + rewrite Hget, decide_True by done. exact Er.
    + intros i Hi Hne. rewrite Hget, decide_False by done. done.
  - constructor; unfold KLOG_MAX_ENTRIES; cbn [klog_entries klog_start klog_size];
      rewrite ?aset_length; try done; try (apply Z.mod_pos_bound; done); lia.
  - assert (klog_size s = 64) as E64 by lia. unfold lastn. rewrite length_app; simpl.
    replace (length (log s) + 1 - 64)%nat with 1%nat by lia.
    rewrite drop_app_le by lia. unfold log; cbn [klog_entries klog_start klog_size]. rewrite E64.
    apply (ring_overwrite (fun i => entry_record (klog_entries s).[i])); [done|done| |].
    + rewrite Hget, decide_True by done. exact Er.
    + intros i Hi Hne. rewrite Hget, decide_False by done. done.
Qed.

(** A call of [klog_write]. *)
Definition wcall : Type := Z * Z * option (list Z) * option (list Z).
Definition write_call (s : klog) (w : wcall) : klog :=
  let '(now, lev, comp, msg) := w in klog_write s now lev comp msg.
Definition cut_call (w : wcall) : record :=
  let '(now, lev, comp, msg) := w in cut now lev comp msg.

Lemma lastn_app {A} n (l k : list A) : lastn n (lastn n l ++ k) = lastn n (l ++ k).
Proof.
  unfold lastn. rewrite !length_app, length_drop.
  destruct (decide (length l <= n)%nat).
  - replace (length l - n)%nat with 0%nat by lia. by rewrite Nat.sub_0_r.
  - assert (l ++ k = take (length l - n) l ++ (drop (length l - n) l ++ k)) as E
      by (by rewrite app_assoc, take_drop).
    rewrite E. rewrite (drop_app_ge (take _ l)); rewrite length_take; [|lia]. f_equal. lia.
Qed.

Lemma lastn_cut_bounds ws i r :
  lastn 64 (cut_call <$> ws) !! i = Some r ->
  (length (r_comp r) <= 15)%nat /\ (length (r_msg r) <= 79)%nat.
Proof.
  unfold lastn. rewrite lookup_drop. intros Hi. apply list_elem_of_lookup_2 in Hi.
  apply list_elem_of_fmap in Hi as ([[[now lev] comp] msg] & -> & _).
  unfold cut_call, cut; cbn [r_comp r_msg]. rewrite !length_take. lia.
Qed.

(** After any sequence of writes to a cleared log, in any well-formed
    state, the log holds exactly the last 64 records in order, component and
    message cut to 15 and 79 bytes, and [klog_read_entry] returns the record
    at each index and fails outside. *)
Theorem klog_keeps_last s ws :
  klog_ok s ->
  let s' := foldl write_call (klog_clear s) ws in
  klog_ok s' /\ log s' = lastn 64 (cut_call <$> ws) /\
  klog_count s' = Z.of_nat (Nat.min 64 (length ws)) /\
  (forall i, 0 <= i ->
     let '(rc, lev, comp, msg) := klog_read_entry s' i (Some (repeat 0 16)) 16 (Some (repeat 0 80)) 80 in
     match log s' !! Z.to_nat i with
     | None => rc = -1
     | Some r => rc = 0 /\ lev = Some (r_level r) /\ cstr <$> comp = Some (r_comp r) /\
                 cstr <$> msg = Some (r_msg r)
     end).
Proof.
  intros Hok s'.
  assert (klog_ok s' /\ log s' = lastn 64 (cut_call <$> ws)) as [Hok' Hlog].
  { unfold s'. clear s'. induction ws as [|[[[now lev] comp] msg] ws IH] using rev_ind.
    - split; [|done]. destruct Hok; constructor; simpl; unfold KLOG_MAX_ENTRIES in *; done || lia.
    - rewrite foldl_app, fmap_app. simpl. destruct IH as [IHok IHlog].
      destruct (klog_write_spec _ now lev comp msg IHok) as [? ->]. split; [done|].
      rewrite IHlog. apply lastn_app. }
  pose proof (log_length _ Hok') as Hlen. split_and!; [done|done| |].
  - unfold klog_count. rewrite <- Hlen, Hlog. unfold lastn. rewrite length_drop, length_fmap. lia.
  - intros i Hi. unfold klog_read_entry. case_if.
    + rewrite lookup_ge_None_2; [done|]. destruct Hif; bool_to_prop; lia.
    + assert (log s' !! Z.to_nat i = Some (entry_record (klog_entries s').[(klog_start s' + i) mod 64]))
        as Hr by (apply ring_list_lookup; lia).
      rewrite Hr. rewrite Hlog in Hr. apply lastn_cut_bounds in Hr as [Bc Bm].
      unfold KLOG_MAX_ENTRIES. set (e := (klog_entries s').[_]) in *.
      change (u32 16) with 16. change (u32 80) with 80.
      destruct (copy_text_spec (repeat 0 16) 16 (component e)) as (c & -> & _ & Ec); [done|done|].
      destruct (copy_text_spec (repeat 0 80) 80 (message e)) as (m & -> & _ & Em); [done|done|].
      cbn [entry_record r_comp r_msg r_level] in *.
      split_and!; try done; simpl; f_equal; rewrite ?Ec, ?Em; apply take_ge; done.
Qed.

Lemma klog_keeps_last_witness :
  log (foldl write_call (klog_clear klog_boot) [(1, 1, None, Some [104; 105])])
  = [Rec 1 1 text_kernel [104; 105]].
Proof.
  exact (proj1 (proj2 (klog_keeps_last klog_boot [(1, 1, None, Some [104; 105])] klog_boot_ok))).
Defined.
