(* ===== verification/Physmem.v ===== *)
(** Physical frame allocator: [kernel/mem/physmem.c].

    The state is the file's static variables; every function of the file is a
    definition of the same name.  The theorems give the bitmap/counter
    invariant of every reachable state, the behaviour of the frame and region
    allocators on every branch, and the effect of the copy-on-write reference
    counts. *)
From S2P Require Import Prelude.
From S2P Require Import Interfaces.
From Stdlib Require Import ZArith Lia.
From stdpp Require Import base numbers list gmap relations.

Open Scope Z_scope.
Open Scope lyth_scope.

Definition PHYSMEM_FRAME_SIZE : Z := 4096.
Definition PHYSMEM_MAX_FRAMES : Z := 1048576.
(** [0x00100000U / PHYSMEM_FRAME_SIZE]: the frames of the first megabyte. *)
Definition LOW_FRAMES : Z := 256.

Record physmem := Physmem {
  frame_bitmap : sarr Z;
  frame_refcount : sarr Z;
  total_frames : Z;
  free_frames : Z;
  highest_address : Z;
}.

Record multiboot_mmap_entry := MmapEntry {
  me_size : Z; me_addr : Z; me_len : Z; me_type : Z }.

(** The fields of [multiboot_info_t] that the allocator reads. *)
Record multiboot_info := MultibootInfo {
  mb_flags : Z; mb_mem_upper : Z; mb_mmap_length : Z; mb_mmap_addr : Z;
  mb_framebuffer_addr : Z; mb_framebuffer_pitch : Z; mb_framebuffer_height : Z }.

(** [sizeof(multiboot_info_t)] on x86_64. *)
Definition sizeof_multiboot_info : Z := 120.

Definition set_refcount (s : physmem) (f v : Z) : physmem :=
  Physmem (frame_bitmap s) (sset (frame_refcount s) f v)
          (total_frames s) (free_frames s) (highest_address s).

Definition set_bits (s : physmem) (i byte free : Z) : physmem :=
  Physmem (sset (frame_bitmap s) i byte) (frame_refcount s)
          (total_frames s) free (highest_address s).

Definition align_down (value alignment : Z) : Z :=
  Z.land value (not32 (u32 (alignment - 1))).

Definition align_up (value alignment : Z) : Z :=
  Z.land (u32 (value + alignment - 1)) (not32 (u32 (alignment - 1))).

(** [bitmap_fill]: the loop over the whole bitmap. *)
Definition bitmap_fill (s : physmem) (value : Z) : physmem :=
  Physmem (sfill value) (frame_refcount s)
          (total_frames s) (free_frames s) (highest_address s).

Definition frame_is_marked (s : physmem) (frame : Z) : bool :=
  negb (Z.land (sget (frame_bitmap s) (frame / 8)) (u8 (Z.shiftl 1 (frame mod 8))) =? 0).

Definition mark_frame (s : physmem) (frame : Z) (used : bool) : physmem :=
  if (PHYSMEM_MAX_FRAMES <=? frame) || (total_frames s <=? frame) then s
  else
    let mask := u8 (Z.shiftl 1 (frame mod 8)) in
    let byte := sget (frame_bitmap s) (frame / 8) in
    if used then
      if negb (frame_is_marked s frame) then
        set_bits s (frame / 8) (Z.lor byte mask)
                 (if 0 <? free_frames s then free_frames s - 1 else free_frames s)
      else s
    else
      if frame_is_marked s frame then
        set_bits s (frame / 8) (Z.land byte (u8 (Z.lnot mask))) (u32 (free_frames s + 1))
      else s.

Definition mark_frames (s : physmem) (frame_start frame_end : Z) (used : bool) : physmem :=
  for_loop (fun f t => mark_frame t f used) (Z.to_nat (frame_end - frame_start)) frame_start s.

Definition mark_range (s : physmem) (start length : Z) (used : bool) : physmem :=
  if length =? 0 then s
  else
    let frame_start := align_down start PHYSMEM_FRAME_SIZE / PHYSMEM_FRAME_SIZE in
    let frame_end := align_up (u32 (start + length)) PHYSMEM_FRAME_SIZE / PHYSMEM_FRAME_SIZE in
    let frame_end := if total_frames s <? frame_end then total_frames s else frame_end in
    mark_frames s frame_start frame_end used.

Definition region_end_32 (addr len : Z) : Z :=
  let end_ := u64 (addr + len) in
  if 4294967295 <? end_ then 4294967295 else u32 end_.

Definition register_highest (s : physmem) (end_ : Z) : physmem :=
  if highest_address s <? end_
  then Physmem (frame_bitmap s) (frame_refcount s) (total_frames s) (free_frames s) end_
  else s.

Definition add_available_range (s : physmem) (start end_ : Z) : physmem :=
  if end_ <=? start then s
  else mark_range (register_highest s end_) start (end_ - start) false.

(** The memory-map walk.  [entry_at] reads the boot loader's table; the walk
    stops when the 32-bit cursor reaches [end_].  A table whose entries make
    the cursor go round without reaching the end is not walked forever here:
    the walk is cut after [fuel] entries. *)
Fixpoint walk_mmap (entry_at : Z -> multiboot_mmap_entry) (fuel : nat)
    (cursor end_ : Z) (s : physmem) : physmem :=
  match fuel with
  | O => s
  | S fuel' =>
      if cursor <? end_ then
        let entry := entry_at cursor in
        let s' :=
          if (me_type entry =? 1) && negb (me_len entry =? 0) then
            if me_addr entry <? 4294967296
            then add_available_range s (u32 (me_addr entry))
                   (region_end_32 (me_addr entry) (me_len entry))
            else s
          else s in
        walk_mmap entry_at fuel' (u32 (cursor + me_size entry + 4)) end_ s'
      else s
  end.

Definition mbi_has_mmap (mbi : multiboot_info) : bool :=
  Z.testbit (mb_flags mbi) 6 && negb (mb_mmap_length mbi =? 0)
    && negb (mb_mmap_addr mbi =? 0).

Definition init_from_multiboot_map (entry_at : Z -> multiboot_mmap_entry)
    (s : physmem) (mbi : multiboot_info) : physmem :=
  if mbi_has_mmap mbi then
    walk_mmap entry_at (Z.to_nat (mb_mmap_length mbi)) (mb_mmap_addr mbi)
      (u32 (mb_mmap_addr mbi + mb_mmap_length mbi)) s
  else add_available_range s 1048576 (u32 (1048576 + u32 (mb_mem_upper mbi * 1024))).

(** First half of [physmem_init]: clear the tables, read the memory map, fall
    back to 16 MiB, and size the allocator. *)
Definition physmem_init_map (entry_at : Z -> multiboot_mmap_entry)
    (mbi : option (Z * multiboot_info)) : physmem :=
  let s := Physmem (sfill 255) (sfill 0) PHYSMEM_MAX_FRAMES 0 0 in
  let s := match mbi with
           | Some (_, m) => init_from_multiboot_map entry_at s m
           | None => s
           end in
  let s := if highest_address s =? 0
           then add_available_range
                  (Physmem (frame_bitmap s) (frame_refcount s) (total_frames s)
                           (free_frames s) 16777216) 1048576 16777216
           else s in
  let tot := align_up (highest_address s) PHYSMEM_FRAME_SIZE / PHYSMEM_FRAME_SIZE in
  if PHYSMEM_MAX_FRAMES <? tot
  then Physmem (frame_bitmap s) (frame_refcount s) PHYSMEM_MAX_FRAMES (free_frames s)
               (u32 (PHYSMEM_MAX_FRAMES * PHYSMEM_FRAME_SIZE))
  else Physmem (frame_bitmap s) (frame_refcount s) tot (free_frames s) (highest_address s).

(** Second half: reserve low memory, the kernel image, the boot information
    and the frame buffer.  [kstart] and [kend] are the linker symbols. *)
Definition physmem_init_reserve (kstart kend : Z) (mbi : option (Z * multiboot_info))
    (s : physmem) : physmem :=
  let s := mark_range s 0 1048576 true in
  let s := mark_range s (u32 kstart) (u32 (kend - kstart)) true in
  match mbi with
  | None => s
  | Some (addr, m) =>
      let s := mark_range s (u32 addr) sizeof_multiboot_info true in
      let s := if mbi_has_mmap m
               then mark_range s (mb_mmap_addr m) (mb_mmap_length m) true else s in
      if Z.testbit (mb_flags m) 12 && negb (mb_framebuffer_addr m =? 0)
         && negb (mb_framebuffer_pitch m =? 0) && negb (mb_framebuffer_height m =? 0)
      then
        let framebuffer_start := u32 (mb_framebuffer_addr m) in
        let framebuffer_bytes := u32 (mb_framebuffer_pitch m * mb_framebuffer_height m) in
        register_highest (mark_range s framebuffer_start framebuffer_bytes true)
                         (u32 (framebuffer_start + framebuffer_bytes))
      else s
  end.

Definition physmem_init (entry_at : Z -> multiboot_mmap_entry) (kstart kend : Z)
    (mbi : option (Z * multiboot_info)) : physmem :=
  physmem_init_reserve kstart kend mbi (physmem_init_map entry_at mbi).

Definition physmem_alloc_frame (s : physmem) : physmem * Z :=
  match find_first (fun f => negb (frame_is_marked s f)) (Z.to_nat (total_frames s)) 0 with
  | Some frame =>
      (set_refcount (mark_frame s frame true) frame 1, u32 (frame * PHYSMEM_FRAME_SIZE))
  | None => (s, 0)
  end.

Definition physmem_free_frame (s : physmem) (physical_address : Z) : physmem :=
  let frame := physical_address / PHYSMEM_FRAME_SIZE in
  if (physical_address =? 0) || negb (physical_address mod PHYSMEM_FRAME_SIZE =? 0) then s
  else if frame <? LOW_FRAMES then s
  else mark_frame (set_refcount s frame 0) frame false.

(** The search loop of [physmem_alloc_region]; [None] is running out of fuel. *)
Fixpoint alloc_region_loop (fuel : nat) (s : physmem)
    (frame_count aligned_size alignment start_frame : Z) : option (physmem * Z) :=
  match fuel with
  | O => None
  | S fuel' =>
      if u32 (start_frame + frame_count) <=? total_frames s then
        let start := u32 (start_frame * PHYSMEM_FRAME_SIZE) in
        if negb (align_up start alignment =? start) then
          alloc_region_loop fuel' s frame_count aligned_size alignment (start_frame + 1)
        else if start <? 1048576 then
          alloc_region_loop fuel' s frame_count aligned_size alignment (start_frame + 1)
        else
          match find_first (frame_is_marked s) (Z.to_nat frame_count) start_frame with
          | Some frame =>
              alloc_region_loop fuel' s frame_count aligned_size alignment (frame + 1)
          | None =>
              Some (for_loop (fun f t => set_refcount t f 1) (Z.to_nat frame_count) start_frame
                      (mark_range s start aligned_size true), start)
          end
      else Some (s, 0)
  end.

Definition physmem_alloc_region (s : physmem) (size alignment : Z) : physmem * Z :=
  if size =? 0 then (s, 0)
  else
    let alignment := if alignment <? PHYSMEM_FRAME_SIZE then PHYSMEM_FRAME_SIZE else alignment in
    let aligned_size := align_up size PHYSMEM_FRAME_SIZE in
    let frame_count := aligned_size / PHYSMEM_FRAME_SIZE in
    default (s, 0) (alloc_region_loop (S (Z.to_nat (total_frames s) + 1)) s
                      frame_count aligned_size alignment 0).

Definition physmem_ref_frame (s : physmem) (physical_address : Z) : physmem :=
  let frame := physical_address / PHYSMEM_FRAME_SIZE in
  if (physical_address =? 0) || negb (physical_address mod PHYSMEM_FRAME_SIZE =? 0) then s
  else if total_frames s <=? frame then s
  else if sget (frame_refcount s) frame <? 255
       then set_refcount s frame (sget (frame_refcount s) frame + 1) else s.

Definition physmem_unref_frame (s : physmem) (physical_address : Z) : physmem :=
  let frame := physical_address / PHYSMEM_FRAME_SIZE in
  if (physical_address =? 0) || negb (physical_address mod PHYSMEM_FRAME_SIZE =? 0) then s
  else if (total_frames s <=? frame) || (frame <? LOW_FRAMES) then s
  else if sget (frame_refcount s) frame =? 0 then s
  else
    let s' := set_refcount s frame (sget (frame_refcount s) frame - 1) in
    if sget (frame_refcount s') frame =? 0 then mark_frame s' frame false else s'.

Definition physmem_free_region (s : physmem) (start length : Z) : physmem :=
  if length =? 0 then s
  else
    let frame_start := align_down start PHYSMEM_FRAME_SIZE / PHYSMEM_FRAME_SIZE in
    let frame_end := align_up (u32 (start + length)) PHYSMEM_FRAME_SIZE / PHYSMEM_FRAME_SIZE in
    let frame_end := if total_frames s <? frame_end then total_frames s else frame_end in
    for_loop (fun f t => physmem_unref_frame t (u32 (f * PHYSMEM_FRAME_SIZE)))
             (Z.to_nat (frame_end - frame_start)) frame_start s.

Definition physmem_reserve_region (s : physmem) (start length : Z) : physmem :=
  mark_range s start length true.

Definition physmem_frame_refcount (s : physmem) (physical_address : Z) : Z :=
  let frame := physical_address / PHYSMEM_FRAME_SIZE in
  if (physical_address =? 0) || negb (physical_address mod PHYSMEM_FRAME_SIZE =? 0) then 0
  else if total_frames s <=? frame then 0
  else sget (frame_refcount s) frame.

Definition physmem_total_bytes (s : physmem) : Z := u32 (total_frames s * PHYSMEM_FRAME_SIZE).
Definition physmem_free_bytes (s : physmem) : Z := u32 (free_frames s * PHYSMEM_FRAME_SIZE).
Definition physmem_used_bytes (s : physmem) : Z :=
  u32 (physmem_total_bytes s - physmem_free_bytes s).
Definition physmem_frame_count (s : physmem) : Z := total_frames s.
Definition physmem_highest_address (s : physmem) : Z := highest_address s.

(** * Specification *)

(** Number of frames of [0, n) that a predicate leaves unmarked. *)
Fixpoint nfree (P : Z -> bool) (n : nat) : Z :=
  match n with
  | O => 0
  | S n' => nfree P n' + (if P (Z.of_nat n') then 0 else 1)
  end.

(** The invariant of the allocator: the free counter is the number of clear
    bits below [total_frames], the first megabyte is never free, and a frame
    with references is marked. *)
Record wf (s : physmem) : Prop := WF {
  wf_total : 0 <= total_frames s < PHYSMEM_MAX_FRAMES;
  wf_free : free_frames s = nfree (frame_is_marked s) (Z.to_nat (total_frames s));
  wf_rc : forall f, 0 <= sget (frame_refcount s) f <= 255;
  wf_rc_marked : forall f, 0 <= f < total_frames s ->
    0 < sget (frame_refcount s) f -> frame_is_marked s f = true;
  wf_low : forall f, 0 <= f < LOW_FRAMES -> f < total_frames s -> frame_is_marked s f = true;
}.

(** [st] starts a free, aligned run of [n] frames above the first megabyte. *)
Definition suitable (s : physmem) (n k st : Z) : Prop :=
  LOW_FRAMES <= st /\ st + n <= total_frames s /\ (2 ^ k | st * PHYSMEM_FRAME_SIZE) /\
  forall f, st <= f < st + n -> frame_is_marked s f = false.

(** A physical address of a frame that some owner holds. *)
Definition held (s : physmem) (a : Z) : Prop :=
  a mod PHYSMEM_FRAME_SIZE = 0 /\
  LOW_FRAMES <= a / PHYSMEM_FRAME_SIZE < total_frames s /\
  0 < sget (frame_refcount s) (a / PHYSMEM_FRAME_SIZE).

(** One call of the interface.  A caller adds a reference only to a frame that
    is in use. *)
Inductive pstep : physmem -> physmem -> Prop :=
| p_alloc_frame s : pstep s (physmem_alloc_frame s).1
| p_free_frame s a : 0 <= a < 4294967296 -> pstep s (physmem_free_frame s a)
| p_alloc_region s size k :
    0 <= size < 4294967296 -> 0 <= k < 32 -> pstep s (physmem_alloc_region s size (2 ^ k)).1
| p_free_region s a len :
    0 <= a < 4294967296 -> 0 <= len < 4294967296 -> pstep s (physmem_free_region s a len)
| p_reserve s a len :
    0 <= a < 4294967296 -> 0 <= len < 4294967296 -> pstep s (physmem_reserve_region s a len)
| p_ref s a :
    0 <= a < 4294967296 -> frame_is_marked s (a / PHYSMEM_FRAME_SIZE) = true ->
    pstep s (physmem_ref_frame s a)
| p_unref s a : 0 <= a < 4294967296 -> pstep s (physmem_unref_frame s a).

(** * Alignment *)

Lemma align_up_pow2 v k :
  0 <= k < 32 -> align_up v (2 ^ k) = 2 ^ k * (u32 (v + 2 ^ k - 1) / 2 ^ k).
Proof.
  intros Hk. unfold align_up.
  assert (0 < 2 ^ k < 2 ^ 32) by (split; [apply Z.pow_pos_nonneg | apply Z.pow_lt_mono_r]; lia).
  rewrite (u32_small (2 ^ k - 1)) by lia.
  apply land_not32_pow2; [apply u32_bound | lia].
Qed.

Lemma align_up_frame v :
  align_up v PHYSMEM_FRAME_SIZE = 4096 * (u32 (v + 4095) / 4096).
Proof.
  change PHYSMEM_FRAME_SIZE with (2 ^ 12). rewrite align_up_pow2 by lia.
  change (2 ^ 12) with 4096. do 4 f_equal. lia.
Qed.

Lemma align_down_frame v :
  0 <= v < 4294967296 -> align_down v PHYSMEM_FRAME_SIZE = 4096 * (v / 4096).
Proof.
  intros Hv. unfold align_down. change (u32 (PHYSMEM_FRAME_SIZE - 1)) with (2 ^ 12 - 1).
  apply (land_not32_pow2 v 12); lia.
Qed.

Lemma align_up_fix start k :
  0 <= k < 32 -> 0 <= start < 4294967296 ->
  align_up start (2 ^ k) = start <-> (2 ^ k | start).
Proof.
  intros Hk H0. assert (0 < 2 ^ k) by (apply Z.pow_pos_nonneg; lia).
  assert (4294967296 = 2 ^ k * 2 ^ (32 - k)) as Hsplit
    by (rewrite <- Z.pow_add_r by lia; replace (k + (32 - k)) with 32 by lia; done).
  rewrite align_up_pow2 by lia. split.
  - intros E. eexists. rewrite Z.mul_comm. symmetry. exact E.
  - intros [q ->]. assert (q < 2 ^ (32 - k)) by nia.
    rewrite u32_small by nia.
    replace (q * 2 ^ k + 2 ^ k - 1) with (2 ^ k - 1 + q * 2 ^ k) by lia.
    rewrite Z.div_add, Z.div_small by lia. lia.
Qed.

(** * The bitmap as a set of frames *)

Lemma mask_pow2 f : u8 (Z.shiftl 1 (f mod 8)) = 2 ^ (f mod 8).
Proof.
  assert (0 <= f mod 8 < 8) by zlia.
  rewrite Z.shiftl_1_l. apply u8_small. split; [lia|].
  change 256 with (2 ^ 8). apply Z.pow_lt_mono_r; lia.
Qed.

Lemma land_pow2_testbit b k : 0 <= k -> negb (Z.land b (2 ^ k) =? 0) = Z.testbit b k.
Proof.
  intros Hk. destruct (Z.testbit b k) eqn:E.
  - apply negb_true_iff, Z.eqb_neq. intros H0.
    assert (Z.testbit (Z.land b (2 ^ k)) k = false) as Hf by (rewrite H0; apply Z.bits_0).
    rewrite Z.land_spec, E, Z.pow2_bits_true in Hf by lia. done.
  - apply negb_false_iff, Z.eqb_eq. apply Z.bits_inj'. intros j Hj.
    rewrite Z.land_spec, Z.bits_0. destruct (decide (j = k)) as [->|].
    + by rewrite E.
    + rewrite Z.pow2_bits_false by lia. apply andb_false_r.
Qed.

Lemma frame_is_marked_testbit s f :
  frame_is_marked s f = Z.testbit (sget (frame_bitmap s) (f / 8)) (f mod 8).
Proof. unfold frame_is_marked. rewrite mask_pow2. apply land_pow2_testbit. zlia. Qed.

Lemma testbit_clear b f j :
  0 <= j < 8 ->
  Z.testbit (Z.land b (u8 (Z.lnot (2 ^ (f mod 8))))) j
  = Z.testbit b j && negb (bool_decide (f mod 8 = j)).
Proof.
  intros Hj. rewrite Z.land_spec. f_equal. unfold u8. change 256 with (2 ^ 8).
  rewrite Z.mod_pow2_bits_low, Z.lnot_spec by lia. f_equal.
  case_bool_decide; subst.
  - apply Z.pow2_bits_true. lia.
  - apply Z.pow2_bits_false; lia.
Qed.

Lemma testbit_set b f j :
  0 <= j < 8 ->
  Z.testbit (Z.lor b (2 ^ (f mod 8))) j = Z.testbit b j || bool_decide (f mod 8 = j).
Proof.
  intros Hj. rewrite Z.lor_spec. f_equal. case_bool_decide; subst.
  - apply Z.pow2_bits_true. zlia.
  - apply Z.pow2_bits_false; lia.
Qed.

Lemma same_cell f g : f / 8 = g / 8 -> f mod 8 = g mod 8 -> f = g.
Proof. intros. zlia. Qed.

Lemma marked_set_bits s f byte free g :
  frame_is_marked (set_bits s (f / 8) byte free) g
  = if decide (f / 8 = g / 8) then Z.testbit byte (g mod 8) else frame_is_marked s g.
Proof.
  rewrite !frame_is_marked_testbit. unfold set_bits; simpl. rewrite sget_sset.
  by case_decide.
Qed.

(** The bitmap update sets exactly the bit of the frame. *)
Lemma marked_mark_frame s f used g :
  0 <= f < total_frames s -> total_frames s <= PHYSMEM_MAX_FRAMES ->
  frame_is_marked (mark_frame s f used) g
  = if decide (f = g) then used else frame_is_marked s g.
Proof.
  intros Hf Ht. unfold mark_frame. rewrite mask_pow2.
  case_if; [exfalso; zlia|].
  assert (0 <= g mod 8 < 8) by zlia.
  destruct used; case_if;
    try (case_decide; subst; congruence);
    rewrite marked_set_bits, ?frame_is_marked_testbit;
    repeat case_decide; subst; try congruence;
    rewrite ?testbit_set, ?testbit_clear by done;
    try (rewrite bool_decide_eq_true_2 by done; by rewrite ?orb_true_r, ?andb_false_r).
  - rewrite bool_decide_eq_false_2 by (intros ?; eauto using same_cell).
    rewrite orb_false_r. congruence.
  - rewrite bool_decide_eq_false_2 by (intros ?; eauto using same_cell).
    rewrite andb_true_r. congruence.
Qed.

Lemma mark_frame_out s f used : total_frames s <= f -> mark_frame s f used = s.
Proof. intros. unfold mark_frame. case_if; [done|]. exfalso; lia. Qed.

Lemma mark_frame_fields s f used :
  total_frames (mark_frame s f used) = total_frames s /\
  frame_refcount (mark_frame s f used) = frame_refcount s /\
  highest_address (mark_frame s f used) = highest_address s.
Proof. unfold mark_frame. repeat case_if; split_and!; reflexivity. Qed.

Lemma mark_frame_same s f :
  frame_is_marked s f = true -> mark_frame s f true = s.
Proof. intros H. unfold mark_frame. rewrite H. by case_if. Qed.

Lemma nfree_ext P Q n :
  (forall f, 0 <= f < Z.of_nat n -> P f = Q f) -> nfree P n = nfree Q n.
Proof.
  induction n as [|n IH]; intros H; simpl; [done|].
  rewrite IH, H; [done|lia|]. intros. apply H. lia.
Qed.

(** Changing one frame changes the count by that frame only. *)
Lemma nfree_update P Q n f :
  0 <= f < Z.of_nat n -> (forall g, 0 <= g < Z.of_nat n -> g <> f -> Q g = P g) ->
  nfree Q n = nfree P n + (if Q f then 0 else 1) - (if P f then 0 else 1).
Proof.
  induction n as [|n IH]; intros Hf Heq; [lia|]; cbn [nfree].
  destruct (decide (f = Z.of_nat n)) as [->|].
  - rewrite (nfree_ext Q P) by (intros; apply Heq; lia). lia.
  - rewrite IH, (Heq (Z.of_nat n)); [lia| lia | lia | lia |].
    intros. apply Heq; lia.
Qed.

Lemma nfree_bound P n : 0 <= nfree P n <= Z.of_nat n.
Proof. induction n; simpl; [lia|]. destruct (P _); lia. Qed.

Lemma nfree_pos P n f : 0 <= f < Z.of_nat n -> P f = false -> 0 < nfree P n.
Proof.
  induction n as [|n IH]; intros Hf HP; [lia|]; simpl.
  pose proof (nfree_bound P n). destruct (decide (f = Z.of_nat n)) as [->|].
  - rewrite HP. lia.
  - specialize (IH ltac:(lia) HP). destruct (P (Z.of_nat n)); lia.
Qed.

Lemma nfree_zero P n : nfree P n = 0 <-> forall f, 0 <= f < Z.of_nat n -> P f = true.
Proof.
  split.
  - intros H0 f Hf. destruct (P f) eqn:E; [done|]. pose proof (nfree_pos P n f Hf E). lia.
  - induction n as [|n IH]; intros Hall; [done|]; simpl.
    rewrite IH, Hall; [done|lia|]. intros. apply Hall. lia.
Qed.

(** The counter follows the bitmap: the part of [wf] that every bitmap update
    keeps, whatever the reference counts are. *)
Definition counted (s : physmem) : Prop :=
  0 <= total_frames s <= PHYSMEM_MAX_FRAMES /\
  free_frames s = nfree (frame_is_marked s) (Z.to_nat (total_frames s)).

Lemma mark_frame_counted s f used :
  0 <= f -> counted s -> counted (mark_frame s f used).
Proof.
  intros Hf [Ht Hc]. destruct (decide (total_frames s <= f)) as [Ho|Hi].
  { rewrite mark_frame_out by done. done. }
  destruct (mark_frame_fields s f used) as (E & _ & _).
  split; rewrite E; [done|].
  set (n := Z.to_nat (total_frames s)) in *.
  pose proof (nfree_update (frame_is_marked s) (frame_is_marked (mark_frame s f used)) n f)
    as Hu.
  rewrite Hu; [|lia|]; clear Hu.
  2: { intros g Hg Hne. rewrite marked_mark_frame by lia. by case_decide. }
  rewrite marked_mark_frame by lia. rewrite decide_True by done.
  pose proof (nfree_bound (frame_is_marked s) n). unfold PHYSMEM_MAX_FRAMES in *.
  unfold mark_frame, PHYSMEM_MAX_FRAMES. case_if; [exfalso; lia|].
  destruct used, (frame_is_marked s f) eqn:Em; simpl; try lia.
  - pose proof (nfree_pos _ n f ltac:(lia) Em). case_if; lia.
  - rewrite u32_small; lia.
Qed.

(** Same allocator except for the bitmap and its counter. *)
Definition same_tables (s t : physmem) : Prop :=
  total_frames t = total_frames s /\ frame_refcount t = frame_refcount s /\
  highest_address t = highest_address s.

Lemma mark_frames_spec s a b used :
  0 <= a -> b <= total_frames s -> total_frames s <= PHYSMEM_MAX_FRAMES ->
  same_tables s (mark_frames s a b used) /\
  (forall g, frame_is_marked (mark_frames s a b used) g
     = if decide (a <= g < b) then used else frame_is_marked s g) /\
  (counted s -> counted (mark_frames s a b used)).
Proof.
  intros Ha Hb Ht.
  pose (I := fun j t => same_tables s t /\
    (forall g, frame_is_marked t g = if decide (a <= g < j) then used else frame_is_marked s g) /\
    (counted s -> counted t)).
  destruct (decide (b <= a)) as [Hle|Hgt].
  - unfold mark_frames. replace (Z.to_nat (b - a)) with O by lia. simpl.
    split_and!; [done| |done]. intros g. rewrite decide_False by lia. done.
  - enough (I (a + Z.of_nat (Z.to_nat (b - a))) (mark_frames s a b used)) as HI.
    { replace (a + Z.of_nat (Z.to_nat (b - a))) with b in HI by lia. exact HI. }
    unfold mark_frames. apply (for_loop_ind I); unfold I.
    + split_and!; [done| |done]. intros g. rewrite decide_False by lia. done.
    + intros j t Hj ((E1 & E2 & E3) & Hm & Hc).
      destruct (mark_frame_fields t j used) as (F1 & F2 & F3). split_and!.
      * unfold same_tables. rewrite F1, F2, F3. done.
      * intros g. rewrite marked_mark_frame by lia. rewrite Hm.
        repeat case_decide; try done; lia.
      * intros. apply mark_frame_counted; [lia | auto].
Qed.

(** The frames a byte range touches, clipped to the managed frames. *)
Definition range_first (start : Z) : Z := start / 4096.
Definition range_last (s : physmem) (start length : Z) : Z :=
  Z.min (total_frames s) (u32 (u32 (start + length) + 4095) / 4096).

Lemma mark_range_frames s start length used :
  0 <= start < 4294967296 -> length <> 0 ->
  mark_range s start length used
  = mark_frames s (range_first start) (range_last s start length) used.
Proof.
  intros Hs Hl. unfold mark_range. rewrite align_down_frame, align_up_frame by done.
  case_if; [done|]. unfold range_first, range_last, PHYSMEM_FRAME_SIZE.
  rewrite !(Z.mul_comm 4096), !Z.div_mul by lia. f_equal. case_if; lia.
Qed.

Lemma mark_range_spec s start length used :
  0 <= start < 4294967296 -> length <> 0 -> total_frames s <= PHYSMEM_MAX_FRAMES ->
  same_tables s (mark_range s start length used) /\
  (forall g, frame_is_marked (mark_range s start length used) g
     = if decide (range_first start <= g < range_last s start length)
       then used else frame_is_marked s g) /\
  (counted s -> counted (mark_range s start length used)).
Proof.
  intros Hs Hl Ht. rewrite mark_range_frames by done.
  apply mark_frames_spec; unfold range_first, range_last; [zlia | lia | done].
Qed.

Lemma wf_counted s : wf s -> counted s.
Proof. intros [? ? _ _ _]. split; [lia|done]. Qed.

(** Rebuilding [wf] after an update of bitmap and reference counts. *)
Lemma wf_intro s t :
  wf s -> counted t -> total_frames t = total_frames s ->
  (forall f, 0 <= sget (frame_refcount t) f <= 255) ->
  (forall f, 0 <= f < total_frames s -> 0 < sget (frame_refcount t) f ->
     frame_is_marked t f = true) ->
  (forall f, 0 <= f < LOW_FRAMES -> f < total_frames s -> frame_is_marked t f = true) ->
  wf t.
Proof.
  intros Hs [_ Hc] E Hrc Hm Hl. pose proof (wf_total _ Hs).
  constructor; try done; rewrite E; auto.
Qed.

(** Marking more frames keeps the invariant. *)
Lemma mark_range_used_wf s start length :
  0 <= start < 4294967296 -> wf s -> wf (mark_range s start length true).
Proof.
  intros Hs Hwf. destruct (decide (length = 0)) as [->|Hl]; [done|].
  destruct (mark_range_spec s start length true Hs Hl (proj2 (proj1 (wf_counted _ Hwf))))
    as ((E1 & E2 & _) & Hm & Hc).
  apply (wf_intro s); [done | by apply Hc, wf_counted | done | | |].
  - rewrite E2. apply (wf_rc _ Hwf).
  - intros f Hf Hp. rewrite Hm. case_decide; [done|]. rewrite E2 in Hp.
    by apply (wf_rc_marked _ Hwf).
  - intros f Hf Hlt. rewrite Hm. case_decide; [done|]. by apply (wf_low _ Hwf).
Qed.

Lemma set_refcount_marked s f v g : frame_is_marked (set_refcount s f v) g = frame_is_marked s g.
Proof. reflexivity. Qed.

(** Clearing a frame whose last reference is gone keeps the invariant. *)
Lemma release_frame_wf s f :
  LOW_FRAMES <= f -> wf s -> wf (mark_frame (set_refcount s f 0) f false).
Proof.
  intros Hf Hwf. destruct (mark_frame_fields (set_refcount s f 0) f false) as (E1 & E2 & _).
  assert (counted (set_refcount s f 0)) as Hc by exact (wf_counted _ Hwf).
  assert (forall g, 0 <= g < total_frames s -> frame_is_marked (mark_frame (set_refcount s f 0) f false) g
     = if decide (f = g) then false else frame_is_marked s g) as Hm.
  { intros g Hg. destruct (decide (total_frames s <= f)).
    - rewrite mark_frame_out by done. rewrite decide_False by lia. done.
    - rewrite marked_mark_frame; [done| unfold LOW_FRAMES in *; simpl; lia | apply (wf_counted _ Hwf)]. }
  pose proof (wf_total _ Hwf) as Ht.
  apply (wf_intro s); [done | apply mark_frame_counted; [unfold LOW_FRAMES in *; lia|done] | done | | |];
    rewrite ?E2; simpl.
  - intros g. rewrite sget_sset. case_decide; [lia|]. apply (wf_rc _ Hwf).
  - intros g Hg Hp. rewrite sget_sset in Hp. rewrite Hm by lia. case_decide; [lia|].
    by apply (wf_rc_marked _ Hwf).
  - intros g Hg Hlt. rewrite Hm by lia. case_decide; [lia|]. by apply (wf_low _ Hwf).
Qed.

(** Giving an in-use frame a positive count keeps the invariant. *)
Lemma set_refcount_wf s f v :
  0 <= v <= 255 -> (0 <= f < total_frames s -> 0 < v -> frame_is_marked s f = true) ->
  wf s -> wf (set_refcount s f v).
Proof.
  intros Hv Hmk Hwf. apply (wf_intro s); [done | exact (wf_counted _ Hwf) | done | | |]; simpl.
  - intros g. rewrite sget_sset. case_decide; [lia|]. apply (wf_rc _ Hwf).
  - intros g Hg Hp. rewrite sget_sset in Hp. rewrite set_refcount_marked.
    case_decide; [subst; by apply Hmk|]. by apply (wf_rc_marked _ Hwf).
  - intros g Hg Hlt. by apply (wf_low _ Hwf).
Qed.

(** * Frame operations *)

Lemma alloc_frame_cases s :
  (physmem_alloc_frame s = (s, 0) /\
   forall f, 0 <= f < total_frames s -> frame_is_marked s f = true) \/
  (exists f, 0 <= f < total_frames s /\ frame_is_marked s f = false /\
     (forall g, 0 <= g < f -> frame_is_marked s g = true) /\
     physmem_alloc_frame s
     = (set_refcount (mark_frame s f true) f 1, u32 (f * PHYSMEM_FRAME_SIZE))).
Proof.
  unfold physmem_alloc_frame. destruct (find_first _ _ _) as [f|] eqn:E.
  - right. exists f. apply find_first_Some in E as (Hr & Hf & Hmin).
    apply negb_true_iff in Hf. split_and!; [lia|lia|done| |done].
    intros g Hg. apply negb_false_iff. apply Hmin. lia.
  - left. split; [done|]. rewrite find_first_None in E. intros f Hf.
    apply negb_false_iff. apply E. lia.
Qed.

Lemma alloc_frame_wf s : wf s -> wf (physmem_alloc_frame s).1.
Proof.
  intros Hwf. destruct (alloc_frame_cases s) as [[-> _]|(f & Hf & Hm & _ & ->)]; simpl; [done|].
  pose proof (wf_total _ Hwf) as Ht.
  destruct (mark_frame_fields s f true) as (E1 & E2 & _).
  apply set_refcount_wf; [lia | |].
  { intros _ _. rewrite marked_mark_frame by lia. by rewrite decide_True. }
  apply (wf_intro s); [done | apply mark_frame_counted; [lia | by apply wf_counted] | done | | |].
  - rewrite E2. apply (wf_rc _ Hwf).
  - intros g Hg Hp. rewrite marked_mark_frame by lia. case_decide; [done|].
    rewrite E2 in Hp. by apply (wf_rc_marked _ Hwf).
  - intros g Hg Hlt. rewrite marked_mark_frame by lia. case_decide; [done|].
    by apply (wf_low _ Hwf).
Qed.

Lemma free_frame_wf s a : 0 <= a < 4294967296 -> wf s -> wf (physmem_free_frame s a).
Proof.
  intros Ha Hwf. unfold physmem_free_frame. repeat case_if; try done.
  by apply release_frame_wf.
Qed.

Lemma ref_frame_wf s a :
  frame_is_marked s (a / PHYSMEM_FRAME_SIZE) = true -> wf s -> wf (physmem_ref_frame s a).
Proof.
  intros Hm Hwf. unfold physmem_ref_frame. repeat case_if; try done.
  pose proof (wf_rc _ Hwf (a / PHYSMEM_FRAME_SIZE)).
  apply set_refcount_wf; [lia | done | done].
Qed.

Lemma refcount_set_refcount s f v : sget (frame_refcount (set_refcount s f v)) f = v.
Proof. apply sget_sset_eq. Qed.

Lemma unref_frame_wf s a : wf s -> wf (physmem_unref_frame s a).
Proof.
  intros Hwf. unfold physmem_unref_frame. cbv zeta.
  set (f := a / PHYSMEM_FRAME_SIZE). rewrite refcount_set_refcount.
  repeat case_if; try done.
  - replace (sget (frame_refcount s) f - 1) with 0 by lia. by apply release_frame_wf.
  - pose proof (wf_rc _ Hwf f).
    apply set_refcount_wf; [lia | | done].
    intros Hf _. apply (wf_rc_marked _ Hwf); lia.
Qed.

Lemma free_region_wf s a len : wf s -> wf (physmem_free_region s a len).
Proof.
  intros Hwf. unfold physmem_free_region. case_if; [done|]. cbv zeta.
  apply (for_loop_ind (fun _ t => wf t)); [done|].
  intros j t _ Ht. by apply unref_frame_wf.
Qed.

(** * Region allocation *)

(** The state after a region of [n] frames at [st] is taken. *)
Definition take_region (s : physmem) (n st : Z) : physmem :=
  for_loop (fun f t => set_refcount t f 1) (Z.to_nat n) st
    (mark_range s (u32 (st * PHYSMEM_FRAME_SIZE)) (n * PHYSMEM_FRAME_SIZE) true).

Lemma set_refcounts_spec n st s :
  let t := for_loop (fun f t => set_refcount t f 1) n st s in
  frame_bitmap t = frame_bitmap s /\ total_frames t = total_frames s /\
  free_frames t = free_frames s /\ highest_address t = highest_address s /\
  forall g, sget (frame_refcount t) g
    = if decide (st <= g < st + Z.of_nat n) then 1 else sget (frame_refcount s) g.
Proof.
  cbv zeta.
  pose (I := fun (j : Z) (t : physmem) => frame_bitmap t = frame_bitmap s /\
    total_frames t = total_frames s /\ free_frames t = free_frames s /\
    highest_address t = highest_address s /\
    forall g, sget (frame_refcount t) g
      = if decide (st <= g < j) then 1 else sget (frame_refcount s) g).
  apply (for_loop_ind I); unfold I.
  - split_and!; try done. intros g. by rewrite decide_False by lia.
  - intros j t Hj (E1 & E2 & E3 & E4 & Hrc). split_and!; try done.
    intros g. simpl. rewrite sget_sset, Hrc. repeat case_decide; try done; lia.
Qed.

Lemma take_region_spec s n st :
  wf s -> 0 < n -> 0 <= st -> st + n <= total_frames s ->
  total_frames (take_region s n st) = total_frames s /\
  (forall g, frame_is_marked (take_region s n st) g
     = if decide (st <= g < st + n) then true else frame_is_marked s g) /\
  (forall g, sget (frame_refcount (take_region s n st)) g
     = if decide (st <= g < st + n) then 1 else sget (frame_refcount s) g) /\
  counted (take_region s n st).
Proof.
  intros Hwf Hn Hst Hb. pose proof (wf_total _ Hwf) as Ht.
  unfold PHYSMEM_MAX_FRAMES, PHYSMEM_FRAME_SIZE in *.
  unfold take_region, PHYSMEM_FRAME_SIZE. rewrite u32_small by lia.
  destruct (mark_range_spec s (st * 4096) (n * 4096) true) as ((E1 & E2 & E3) & Hm & Hc);
    [lia | lia | unfold PHYSMEM_MAX_FRAMES; lia |].
  specialize (Hc (wf_counted _ Hwf)).
  set (t := mark_range _ _ _ _) in *.
  destruct (set_refcounts_spec (Z.to_nat n) st t) as (F1 & F2 & F3 & F4 & Hrc).
  set (t' := for_loop _ _ _ _) in *.
  replace (st + Z.of_nat (Z.to_nat n)) with (st + n) in Hrc by lia.
  assert (forall g, frame_is_marked t' g = frame_is_marked t g) as Hmk
    by (intros; unfold frame_is_marked; by rewrite F1).
  split_and!.
  - congruence.
  - intros g. rewrite Hmk, Hm. unfold range_first, range_last.
    rewrite Z.div_mul by lia. rewrite (u32_small (st * 4096 + n * 4096)) by lia.
    rewrite u32_small by lia.
    replace ((st * 4096 + n * 4096 + 4095) / 4096) with (st + n) by zlia.
    rewrite Z.min_r by lia. done.
  - intros g. rewrite Hrc, E2. done.
  - destruct Hc as [Hc1 Hc2]. split; rewrite F2; [done|]. rewrite F3, Hc2.
    apply nfree_ext. intros. symmetry. apply Hmk.
Qed.

Lemma take_region_wf s n k st : wf s -> 0 < n -> suitable s n k st -> wf (take_region s n st).
Proof.
  intros Hwf Hn (Hlo & Hhi & _ & Hfree). unfold LOW_FRAMES in *.
  destruct (take_region_spec s n st Hwf Hn ltac:(lia) Hhi) as (E & Hm & Hrc & Hc).
  apply (wf_intro s); [done | done | done | | |].
  - intros f. rewrite Hrc. case_decide; [lia|]. apply (wf_rc _ Hwf).
  - intros f Hf. rewrite Hrc, Hm. case_decide; [done|]. by apply (wf_rc_marked _ Hwf).
  - intros f Hf Hlt. rewrite Hm. case_decide; [done|]. by apply (wf_low _ Hwf).
Qed.

(** The search loop finds the first suitable start and needs at most one round
    per frame. *)
Lemma alloc_region_loop_spec fuel s n k sf :
  0 <= total_frames s < PHYSMEM_MAX_FRAMES -> 0 < n <= PHYSMEM_MAX_FRAMES -> 12 <= k < 32 ->
  0 <= sf <= total_frames s + 1 -> total_frames s + 1 - sf < Z.of_nat fuel ->
  (alloc_region_loop fuel s n (n * PHYSMEM_FRAME_SIZE) (2 ^ k) sf = Some (s, 0) /\
   forall st, sf <= st -> ~ suitable s n k st) \/
  (exists st, sf <= st /\ suitable s n k st /\
     (forall st', sf <= st' < st -> ~ suitable s n k st') /\
     alloc_region_loop fuel s n (n * PHYSMEM_FRAME_SIZE) (2 ^ k) sf
     = Some (take_region s n st, u32 (st * PHYSMEM_FRAME_SIZE))).
Proof.
  intros Ht Hn Hk. revert sf. induction fuel as [|fuel IH]; intros sf Hsf Hfuel; [lia|].
  assert (forall next, sf < next <= total_frames s + 1 ->
    (forall st, sf <= st < next -> ~ suitable s n k st) ->
    alloc_region_loop (S fuel) s n (n * PHYSMEM_FRAME_SIZE) (2 ^ k) sf
    = alloc_region_loop fuel s n (n * PHYSMEM_FRAME_SIZE) (2 ^ k) next ->
    (alloc_region_loop (S fuel) s n (n * PHYSMEM_FRAME_SIZE) (2 ^ k) sf = Some (s, 0) /\
     forall st, sf <= st -> ~ suitable s n k st) \/
    (exists st, sf <= st /\ suitable s n k st /\
       (forall st', sf <= st' < st -> ~ suitable s n k st') /\
       alloc_region_loop (S fuel) s n (n * PHYSMEM_FRAME_SIZE) (2 ^ k) sf
       = Some (take_region s n st, u32 (st * PHYSMEM_FRAME_SIZE)))) as Hskip.
  { intros next Hnext Hno ->. destruct (IH next ltac:(lia) ltac:(lia)) as
      [[-> Hnone]|(st & Hst & Hsu & Hmin & ->)].
    - left. split; [done|]. intros st Hst.
      destruct (decide (st < next)); [apply Hno; lia | apply Hnone; lia].
    - right. exists st. split_and!; [lia|done| |done]. intros st' Hst'.
      destruct (decide (st' < next)); [apply Hno; lia | apply Hmin; lia]. }
  unfold PHYSMEM_MAX_FRAMES in *.
  assert (u32 (sf + n) = sf + n) as E1 by (apply u32_small; lia).
  cbn [alloc_region_loop]. rewrite E1.
  destruct (sf + n <=? total_frames s) eqn:Hfit; bool_to_prop.
  2: { left. split; [done|]. intros st Hst (_ & Hb & _). lia. }
  assert (u32 (sf * PHYSMEM_FRAME_SIZE) = sf * PHYSMEM_FRAME_SIZE) as E2
    by (apply u32_small; unfold PHYSMEM_FRAME_SIZE; lia).
  pose proof (align_up_fix (sf * PHYSMEM_FRAME_SIZE) k ltac:(lia)
    ltac:(unfold PHYSMEM_FRAME_SIZE; lia)) as Hal.
  cbn [alloc_region_loop] in Hskip. rewrite E1 in Hskip. rewrite E2 in *.
  rewrite (proj2 (Z.leb_le _ _) Hfit) in Hskip.
  destruct (negb _) eqn:Ha; bool_to_prop.
  { apply (Hskip (sf + 1)); [lia| |done]. intros st Hst (_ & _ & Hd & _).
    replace st with sf in Hd by lia. tauto. }
  destruct (sf * PHYSMEM_FRAME_SIZE <? 1048576) eqn:Hlow; bool_to_prop.
  { apply (Hskip (sf + 1)); [lia| |done]. intros st Hst (Hl & _).
    unfold LOW_FRAMES, PHYSMEM_FRAME_SIZE in *. lia. }
  destruct (find_first _ _ _) as [f|] eqn:Hf.
  - apply find_first_Some in Hf as (Hr & Hmk & _).
    apply (Hskip (f + 1)); [lia| |done]. intros st Hst (_ & _ & _ & Hfr).
    rewrite Hfr in Hmk by lia. done.
  - rewrite find_first_None in Hf. right. exists sf.
    unfold take_region. rewrite E2. split_and!; [lia| |intros; lia|done].
    unfold suitable, LOW_FRAMES, PHYSMEM_FRAME_SIZE in *. split_and!; [lia|lia|tauto|].
    intros f Hfr. apply Hf. lia.
Qed.

Lemma alloc_region_cases s size k :
  wf s -> 0 < size <= 4294963200 -> 12 <= k < 32 ->
  let n := (size + 4095) / 4096 in
  (physmem_alloc_region s size (2 ^ k) = (s, 0) /\ forall st, ~ suitable s n k st) \/
  (exists st, suitable s n k st /\ (forall st', st' < st -> ~ suitable s n k st') /\
     physmem_alloc_region s size (2 ^ k) = (take_region s n st, st * PHYSMEM_FRAME_SIZE)).
Proof.
  intros Hwf Hsize Hk n. pose proof (wf_total _ Hwf) as Ht.
  assert (2 ^ 12 <= 2 ^ k) by (apply Z.pow_le_mono_r; lia).
  unfold physmem_alloc_region. rewrite (proj2 (Z.eqb_neq size 0)) by lia.
  rewrite (proj2 (Z.ltb_ge (2 ^ k) PHYSMEM_FRAME_SIZE)) by (unfold PHYSMEM_FRAME_SIZE; lia).
  rewrite align_up_frame, u32_small by lia. cbv zeta. fold n.
  replace (4096 * n / PHYSMEM_FRAME_SIZE) with n by (unfold PHYSMEM_FRAME_SIZE; zlia).
  replace (4096 * n) with (n * PHYSMEM_FRAME_SIZE) by (unfold PHYSMEM_FRAME_SIZE; lia).
  assert (0 < n <= PHYSMEM_MAX_FRAMES) as Hn
    by (unfold n, PHYSMEM_MAX_FRAMES; zlia).
  destruct (alloc_region_loop_spec (S (Z.to_nat (total_frames s) + 1)) s n k 0
    Ht Hn Hk ltac:(lia) ltac:(lia)) as [[-> Hno]|(st & Hst & Hsu & Hmin & ->)]; simpl.
  - left. split; [done|]. intros st Hsu. apply (Hno st); [|done].
    destruct Hsu as (Hl & _). unfold LOW_FRAMES in *. lia.
  - right. exists st. split_and!; [done| |].
    + intros st' Hlt Hsu'. apply (Hmin st'); [|done].
      destruct Hsu' as (Hl & _). unfold LOW_FRAMES in *. lia.
    + destruct Hsu as (_ & Hb & _). rewrite u32_small; [done|].
      unfold PHYSMEM_FRAME_SIZE, PHYSMEM_MAX_FRAMES in *. lia.
Qed.

(** A request that rounds up to 2^32 is taken for zero frames. *)
Lemma alloc_region_loop_empty fuel s sf :
  LOW_FRAMES <= total_frames s < PHYSMEM_MAX_FRAMES -> 0 <= sf <= LOW_FRAMES ->
  LOW_FRAMES - sf < Z.of_nat fuel ->
  alloc_region_loop fuel s 0 0 PHYSMEM_FRAME_SIZE sf = Some (s, 1048576).
Proof.
  intros Ht. unfold LOW_FRAMES, PHYSMEM_MAX_FRAMES in *.
  revert sf. induction fuel as [|fuel IH]; intros sf Hsf Hfuel; [lia|].
  cbn [alloc_region_loop]. rewrite !u32_small by (unfold PHYSMEM_FRAME_SIZE; lia).
  rewrite (proj2 (Z.leb_le _ _)) by lia.
  rewrite (proj2 (Z.eqb_eq _ _)).
  2: { apply (align_up_fix _ 12); [lia|unfold PHYSMEM_FRAME_SIZE; lia|]. by exists sf. }
  simpl. case_if; unfold PHYSMEM_FRAME_SIZE in *; [apply IH; lia|].
  replace sf with 256 by lia. reflexivity.
Qed.

Lemma alloc_region_overflow s size :
  LOW_FRAMES <= total_frames s < PHYSMEM_MAX_FRAMES -> 4294963200 < size < 4294967296 ->
  physmem_alloc_region s size PHYSMEM_FRAME_SIZE = (s, 1048576).
Proof.
  intros Ht Hs. unfold physmem_alloc_region. rewrite (proj2 (Z.eqb_neq size 0)) by lia.
  rewrite Z.ltb_irrefl, align_up_frame.
  replace (u32 (size + 4095)) with (size + 4095 - 4294967296) by (unfold u32; zlia).
  rewrite (Z.div_small (_ - _)) by lia. cbv zeta. change (4096 * 0 / _) with 0.
  change (4096 * 0) with 0.
  rewrite alloc_region_loop_empty; [done | done | unfold LOW_FRAMES; lia | unfold LOW_FRAMES in *; lia].
Qed.

Lemma alloc_region_loop_empty_state fuel s al sf r :
  alloc_region_loop fuel s 0 0 al sf = Some r -> r.1 = s.
Proof.
  revert sf. induction fuel as [|fuel IH]; intros sf; cbn [alloc_region_loop]; [done|].
  simpl. repeat case_if; eauto; by intros [= <-].
Qed.

Lemma alloc_region_wf s size k :
  0 <= size < 4294967296 -> 0 <= k < 32 -> wf s -> wf (physmem_alloc_region s size (2 ^ k)).1.
Proof.
  intros Hs Hk Hwf. pose proof (wf_total _ Hwf) as Ht.
  assert (physmem_alloc_region s size (2 ^ k) = physmem_alloc_region s size (2 ^ Z.max 12 k))
    as ->.
  { unfold physmem_alloc_region. destruct (decide (12 <= k)).
    - by replace (Z.max 12 k) with k by lia.
    - replace (Z.max 12 k) with 12 by lia. change (2 ^ 12) with PHYSMEM_FRAME_SIZE.
      rewrite Z.ltb_irrefl, (proj2 (Z.ltb_lt (2 ^ k) _)); [done|].
      change PHYSMEM_FRAME_SIZE with (2 ^ 12). apply Z.pow_lt_mono_r; lia. }
  set (k' := Z.max 12 k). assert (12 <= k' < 32) as Hk' by lia. clearbody k'. clear Hk.
  destruct (decide (size = 0)) as [->|]; [done|].
  destruct (decide (size <= 4294963200)).
  - destruct (alloc_region_cases s size k' Hwf ltac:(lia) Hk') as [[-> _]|(st & Hsu & _ & ->)];
      simpl; [done|]. eapply take_region_wf; eauto. zlia.
  - unfold physmem_alloc_region. rewrite (proj2 (Z.eqb_neq size 0)) by lia.
    rewrite align_up_frame. replace (u32 (size + 4095)) with (size + 4095 - 4294967296)
      by (unfold u32; zlia).
    rewrite (Z.div_small (_ - _)) by lia. cbv zeta. change (4096 * 0 / _) with 0.
    change (4096 * 0) with 0. destruct (alloc_region_loop _ _ _ _ _ _) eqn:E; simpl; [|done].
    apply alloc_region_loop_empty_state in E. by rewrite E.
Qed.

Lemma pstep_wf s t : pstep s t -> wf s -> wf t.
Proof.
  destruct 1; intros Hwf; auto using alloc_frame_wf, free_frame_wf, alloc_region_wf,
    free_region_wf, mark_range_used_wf, ref_frame_wf, unref_frame_wf.
  unfold physmem_reserve_region. by apply mark_range_used_wf.
Qed.

(** * Initialisation *)

(** What holds while the memory map is read: every free frame lies below the
    highest address seen, and no frame is referenced. *)
Record mapping (s : physmem) : Prop := Mapping {
  map_total : total_frames s = PHYSMEM_MAX_FRAMES;
  map_counted : counted s;
  map_rc : forall f, sget (frame_refcount s) f = 0;
  map_highest : 0 <= highest_address s <= 4294963200;
  map_free : forall f, 0 <= f -> frame_is_marked s f = false -> f * 4096 < highest_address s;
}.

Lemma register_highest_mapping s e :
  0 <= e <= 4294963200 -> mapping s -> mapping (register_highest s e).
Proof.
  intros He [Ht Hc Hr Hh Hf]. unfold register_highest. case_if; [|done].
  constructor; try done. intros f H0 Hm. specialize (Hf f H0 Hm). simpl. lia.
Qed.

Lemma add_available_range_mapping s start end_ :
  0 <= start -> end_ <= 4294963200 -> mapping s -> mapping (add_available_range s start end_).
Proof.
  intros Hs He Hmap. unfold add_available_range. case_if; [done|].
  assert (end_ <= highest_address (register_highest s end_)) as Hhi
    by (unfold register_highest; case_if; simpl; lia).
  apply (register_highest_mapping s end_ ltac:(lia)) in Hmap.
  set (t := register_highest s end_) in *. clearbody t. destruct Hmap as [Ht Hc Hr Hh Hf].
  destruct (mark_range_spec t start (end_ - start) false ltac:(lia) ltac:(lia) ltac:(lia))
    as ((E1 & E2 & E3) & Hm & Hcc).
  constructor; rewrite ?E1, ?E2, ?E3; auto.
  intros f H0. rewrite Hm. case_decide as Hin; [|auto]. intros _.
  unfold range_first, range_last in Hin.
  replace (start + (end_ - start)) with end_ in Hin by lia.
  rewrite (u32_small end_), u32_small in Hin by lia.
  assert (f < (end_ + 4095) / 4096) by lia. zlia.
Qed.

(** Entries that describe available memory end below 4 GiB less one page, or
    start above 4 GiB (and are skipped). *)
Definition map_below_4gib (entry_at : Z -> multiboot_mmap_entry) : Prop :=
  forall c, me_type (entry_at c) = 1 ->
    0 <= me_addr (entry_at c) /\ 0 <= me_len (entry_at c) /\
    (me_addr (entry_at c) + me_len (entry_at c) <= 4294963200 \/
     4294967296 <= me_addr (entry_at c)).

Lemma walk_mmap_mapping entry_at fuel cursor end_ s :
  map_below_4gib entry_at -> mapping s -> mapping (walk_mmap entry_at fuel cursor end_ s).
Proof.
  intros Hb. revert cursor s. induction fuel as [|fuel IH]; intros cursor s Hs; simpl; [done|].
  case_if; [|done]. apply IH. repeat case_if; try done.
  specialize (Hb cursor ltac:(done)). unfold region_end_32.
  rewrite (u64_small (_ + _)) by lia. rewrite u32_small by lia.
  apply add_available_range_mapping; [lia| |done]. case_if; [lia|].
  rewrite u32_small by lia. lia.
Qed.

(** The walk does not depend on the fuel once it covers the table. *)
Lemma walk_mmap_fuel entry_at n m cursor end_ s :
  (forall c, 0 <= me_size (entry_at c) /\ (c < end_ -> c + me_size (entry_at c) + 4 < 4294967296)) ->
  0 <= cursor -> end_ - cursor <= Z.of_nat n -> (n <= m)%nat ->
  walk_mmap entry_at n cursor end_ s = walk_mmap entry_at m cursor end_ s.
Proof.
  intros Hsz. revert m cursor s. induction n as [|n IH]; intros m cursor s H0 Hn Hm.
  - simpl. destruct m; simpl; [done|]. case_if; [lia|done].
  - destruct m as [|m]; [lia|]. simpl. case_if; [|done].
    destruct (Hsz cursor). rewrite u32_small by lia. apply IH; lia.
Qed.

Lemma nfree_trunc P n m :
  (m <= n)%nat -> (forall f, Z.of_nat m <= f < Z.of_nat n -> P f = true) ->
  nfree P n = nfree P m.
Proof.
  intros Hle. induction Hle as [|n Hle IH]; intros Hall; simpl; [done|].
  rewrite IH, Hall by (intros; try apply Hall; lia). lia.
Qed.

Lemma boot_state_mapping : mapping (Physmem (sfill 255) (sfill 0) PHYSMEM_MAX_FRAMES 0 0).
Proof.
  assert (forall f, frame_is_marked (Physmem (sfill 255) (sfill 0) PHYSMEM_MAX_FRAMES 0 0) f
    = true) as Hall.
  { intros f. rewrite frame_is_marked_testbit. cbn [frame_bitmap]. rewrite sget_sfill.
    change 255 with (Z.ones 8). apply Z.ones_spec_low. zlia. }
  constructor; cbn [total_frames frame_refcount highest_address].
  - reflexivity.
  - split; [cbn [total_frames]; unfold PHYSMEM_MAX_FRAMES; lia|]. symmetry.
    apply nfree_zero. intros. apply Hall.
  - intros f. apply sget_sfill.
  - lia.
  - intros f _ Hm. by rewrite Hall in Hm.
Qed.

(** The allocator is sized to the memory map. *)
Lemma mapping_sized s :
  mapping s ->
  let tot := align_up (highest_address s) PHYSMEM_FRAME_SIZE / PHYSMEM_FRAME_SIZE in
  0 <= tot < PHYSMEM_MAX_FRAMES /\
  counted (Physmem (frame_bitmap s) (frame_refcount s) tot (free_frames s) (highest_address s)).
Proof.
  intros [Ht [_ Hc] _ Hh Hf] tot.
  assert (tot = (highest_address s + 4095) / 4096) as E.
  { unfold tot. rewrite align_up_frame, u32_small by lia. unfold PHYSMEM_FRAME_SIZE. zlia. }
  clearbody tot. unfold PHYSMEM_MAX_FRAMES in *.
  assert (0 <= tot < 1048576) as Hb by zlia. split; [done|].
  split; cbn [total_frames free_frames]; [unfold PHYSMEM_MAX_FRAMES; lia|].
  rewrite Hc, Ht. rewrite (nfree_trunc _ _ (Z.to_nat tot)); [| lia |].
  - apply nfree_ext. done.
  - intros f Hfr. destruct (frame_is_marked s f) eqn:Em; [done|].
    specialize (Hf f ltac:(lia) Em). exfalso. zlia.
Qed.

Lemma init_map_ok entry_at mbi :
  map_below_4gib entry_at ->
  (forall a m, mbi = Some (a, m) -> 0 <= mb_mem_upper m * 1024 <= 4293914624) ->
  let s := physmem_init_map entry_at mbi in
  0 <= total_frames s < PHYSMEM_MAX_FRAMES /\ counted s /\
  (forall f, sget (frame_refcount s) f = 0).
Proof.
  intros Hb Hu. cbv zeta. unfold physmem_init_map.
  set (s1 := match mbi with Some _ => _ | None => _ end).
  assert (mapping s1) as H1.
  { destruct mbi as [[a m]|]; [|apply boot_state_mapping]. unfold s1, init_from_multiboot_map.
    case_if; [apply walk_mmap_mapping; [done | apply boot_state_mapping]|].
    specialize (Hu a m eq_refl). rewrite (u32_small (_ * _)), u32_small by lia.
    apply add_available_range_mapping; [lia | lia | apply boot_state_mapping]. }
  clearbody s1. cbv zeta.
  set (s2 := if highest_address s1 =? 0 then _ else _).
  assert (mapping s2) as H2.
  { unfold s2. case_if; [|done]. apply add_available_range_mapping; [lia|lia|].
    destruct H1 as [Ht Hc Hr Hh Hf].
    constructor; cbn [total_frames frame_refcount highest_address]; [done|done|done|lia|].
    intros f H0 Hm. specialize (Hf f H0 Hm). lia. }
  clearbody s2. destruct (mapping_sized s2 H2) as [Hsz Hcnt].
  rewrite (proj2 (Z.ltb_ge _ _)) by lia. split_and!; [apply Hsz | apply Hsz | done |].
  apply (map_rc _ H2).
Qed.

Lemma reserve_low_wf s :
  0 <= total_frames s < PHYSMEM_MAX_FRAMES -> counted s ->
  (forall f, sget (frame_refcount s) f = 0) -> wf (mark_range s 0 1048576 true).
Proof.
  intros Ht Hc Hr.
  destruct (mark_range_spec s 0 1048576 true ltac:(lia) ltac:(lia) ltac:(lia))
    as ((E1 & E2 & _) & Hm & Hcc).
  destruct (Hcc Hc) as [_ Hfree]. constructor; rewrite ?E1, ?E2 in *; try done.
  - intros f. rewrite Hr. lia.
  - intros f _ Hp. rewrite Hr in Hp. lia.
  - intros f Hf Hlt. rewrite Hm. rewrite decide_True; [done|].
    unfold range_first, range_last, LOW_FRAMES in *. change (0 / 4096) with 0.
    change (u32 (u32 (0 + 1048576) + 4095) / 4096) with 256. lia.
Qed.

Lemma register_highest_wf s e : wf s -> wf (register_highest s e).
Proof. intros Hwf. unfold register_highest. case_if; [|done]. destruct Hwf. by constructor. Qed.

Lemma init_reserve_wf kstart kend mbi s :
  (forall a m, mbi = Some (a, m) -> 0 <= mb_mmap_addr m < 4294967296) ->
  wf (mark_range s 0 1048576 true) -> wf (physmem_init_reserve kstart kend mbi s).
Proof.
  intros Ha Hwf. unfold physmem_init_reserve.
  apply (mark_range_used_wf _ (u32 kstart) (u32 (kend - kstart)) (u32_bound _)) in Hwf.
  destruct mbi as [[a m]|]; [|done]. cbv zeta.
  apply (mark_range_used_wf _ (u32 a) sizeof_multiboot_info (u32_bound _)) in Hwf.
  set (t := mark_range (mark_range _ _ _ _) (u32 a) _ _) in *. clearbody t.
  specialize (Ha a m eq_refl).
  assert (wf (if mbi_has_mmap m then mark_range t (mb_mmap_addr m) (mb_mmap_length m) true else t))
    as Hwf2 by (case_if; [by apply mark_range_used_wf | done]).
  case_if; [|done]. apply register_highest_wf, mark_range_used_wf; [apply u32_bound | done].
Qed.

(** A concrete machine: no boot information, kernel at 1-2 MiB. *)
Definition demo_boot : physmem :=
  physmem_init (fun _ => MmapEntry 20 0 0 0) 1048576 2097152 None.

Lemma demo_boot_wf : wf demo_boot.
Proof.
  unfold demo_boot, physmem_init. apply init_reserve_wf; [done|].
  destruct (init_map_ok (fun _ => MmapEntry 20 0 0 0) None) as (? & ? & ?); [done|done|].
  by apply reserve_low_wf.
Qed.

(** * Reference counts *)

Lemma ref_frame_held s a :
  held s a -> sget (frame_refcount s) (a / PHYSMEM_FRAME_SIZE) < 255 ->
  physmem_ref_frame s a
  = set_refcount s (a / PHYSMEM_FRAME_SIZE) (sget (frame_refcount s) (a / PHYSMEM_FRAME_SIZE) + 1).
Proof.
  intros (Hal & Hr & Hp) Hlt. unfold physmem_ref_frame, LOW_FRAMES, PHYSMEM_FRAME_SIZE in *.
  rewrite (proj2 (Z.eqb_neq a 0)) by zlia. rewrite Hal.
  rewrite (proj2 (Z.leb_gt (total_frames s) _)) by lia. simpl.
  by rewrite (proj2 (Z.ltb_lt _ 255)) by lia.
Qed.

Lemma unref_frame_held s a :
  held s a ->
  physmem_unref_frame s a =
  let f := a / PHYSMEM_FRAME_SIZE in
  let s' := set_refcount s f (sget (frame_refcount s) f - 1) in
  if sget (frame_refcount s) f =? 1 then mark_frame s' f false else s'.
Proof.
  intros (Hal & Hr & Hp). unfold physmem_unref_frame, LOW_FRAMES, PHYSMEM_FRAME_SIZE in *.
  cbv zeta. rewrite refcount_set_refcount.
  rewrite (proj2 (Z.eqb_neq a 0)) by zlia. rewrite Hal.
  rewrite (proj2 (Z.leb_gt (total_frames s) _)) by lia.
  rewrite (proj2 (Z.ltb_ge _ 256)) by lia. simpl.
  rewrite (proj2 (Z.eqb_neq (sget _ _) 0)) by lia.
  repeat case_if; try done; lia.
Qed.

Lemma iter_ref_held n s a :
  held s a -> sget (frame_refcount s) (a / PHYSMEM_FRAME_SIZE) + Z.of_nat n <= 255 ->
  let t := Nat.iter n (fun t => physmem_ref_frame t a) s in
  held t a /\ total_frames t = total_frames s /\
  (forall g, frame_is_marked t g = frame_is_marked s g) /\
  sget (frame_refcount t) (a / PHYSMEM_FRAME_SIZE)
  = sget (frame_refcount s) (a / PHYSMEM_FRAME_SIZE) + Z.of_nat n.
Proof.
  intros Hh. cbv zeta. induction n as [|n IH]; intros Hb; simpl.
  - split_and!; [done|done|done|lia].
  - destruct IH as (Ht & E & Hm & Hrc); [lia|]. set (t := Nat.iter n _ s) in *.
    rewrite ref_frame_held by (done || lia). simpl.
    split_and!; [|done|done|rewrite sget_sset_eq; lia].
    destruct Ht as (? & ? & ?). split_and!; simpl; [done|lia..|rewrite sget_sset_eq; lia].
Qed.

Lemma iter_unref_held m s a :
  held s a -> total_frames s <= PHYSMEM_MAX_FRAMES ->
  frame_is_marked s (a / PHYSMEM_FRAME_SIZE) = true ->
  Z.of_nat m <= sget (frame_refcount s) (a / PHYSMEM_FRAME_SIZE) ->
  let t := Nat.iter m (fun t => physmem_unref_frame t a) s in
  let left := sget (frame_refcount s) (a / PHYSMEM_FRAME_SIZE) - Z.of_nat m in
  total_frames t = total_frames s /\
  sget (frame_refcount t) (a / PHYSMEM_FRAME_SIZE) = left /\
  frame_is_marked t (a / PHYSMEM_FRAME_SIZE) = bool_decide (0 < left) /\
  (forall g, g <> a / PHYSMEM_FRAME_SIZE -> frame_is_marked t g = frame_is_marked s g).
Proof.
  intros Hh Ht Hmk. cbv zeta. set (f := a / PHYSMEM_FRAME_SIZE) in *.
  pose proof Hh as (_ & Hr & _). fold f in Hr. unfold LOW_FRAMES in Hr.
  induction m as [|m IH]; intros Hb; simpl.
  - split_and!; [done|lia| |done]. rewrite Hmk. symmetry. apply bool_decide_eq_true. 
    destruct Hh as (_ & _ & Hp). fold f in Hp. lia.
  - destruct IH as (E & Hrc & Hm & Ho); [lia|]. set (t := Nat.iter m _ s) in *.
    assert (held t a) as Hht.
    { destruct Hh as (? & ? & ?). split_and!; [done|fold f; unfold LOW_FRAMES in *; lia..|].
      fold f. lia. }
    rewrite unref_frame_held by done. cbv zeta. fold f. rewrite Hrc.
    destruct (Z.eqb_spec (sget (frame_refcount s) f - Z.of_nat m) 1) as [H1|H1].
    + destruct (mark_frame_fields (set_refcount t f (sget (frame_refcount s) f - Z.of_nat m - 1)) f false)
        as (F1 & F2 & _). rewrite F1, F2. split_and!.
      * done.
      * rewrite refcount_set_refcount. lia.
      * rewrite marked_mark_frame by (simpl; lia). rewrite decide_True by done.
        symmetry. apply bool_decide_eq_false. lia.
      * intros g Hg. rewrite marked_mark_frame by (simpl; lia). rewrite decide_False by done.
        by apply Ho.
    + split_and!; [done|rewrite refcount_set_refcount; lia| |exact Ho].
      rewrite set_refcount_marked, Hm. rewrite !bool_decide_eq_true_2 by lia. done.
Qed.

Lemma mark_range_keeps s start length used :
  total_frames (mark_range s start length used) = total_frames s /\
  highest_address (mark_range s start length used) = highest_address s.
Proof.
  unfold mark_range. case_if; [done|]. unfold mark_frames.
  apply (for_loop_ind (fun _ t => total_frames t = total_frames s /\
    highest_address t = highest_address s)); [done|].
  intros j t _ [<- <-]. destruct (mark_frame_fields t j used) as (? & _ & ?). done.
Qed.

Lemma init_reserve_total kstart kend mbi s :
  total_frames (physmem_init_reserve kstart kend mbi s) = total_frames s.
Proof.
  unfold physmem_init_reserve, register_highest. destruct mbi as [[a m]|]; cbv zeta.
  - repeat case_if; cbn [total_frames];
      repeat rewrite (proj1 (mark_range_keeps _ _ _ _)); done.
  - by rewrite !(proj1 (mark_range_keeps _ _ _ _)).
Qed.

Lemma walk_to_4gib entry_at s m :
  let e := entry_at (mb_mmap_addr m) in
  mbi_has_mmap m = true -> me_type e = 1 -> 0 <= me_addr e < 4294967295 ->
  4294967296 <= me_addr e + me_len e < 18446744073709551616 ->
  mb_mmap_length m = me_size e + 4 -> 0 <= me_size e -> 0 <= mb_mmap_addr m ->
  mb_mmap_addr m + mb_mmap_length m < 4294967296 -> highest_address s = 0 ->
  highest_address (init_from_multiboot_map entry_at s m) = 4294967295.
Proof.
  intros e Hhas Hty Hadr Hend Hlen Hsz H0 Hwrap Hs.
  unfold init_from_multiboot_map. rewrite Hhas.
  rewrite (u32_small (mb_mmap_addr m + mb_mmap_length m)) by lia.
  destruct (Z.to_nat (mb_mmap_length m)) as [|fuel] eqn:Ef; [lia|]. cbn [walk_mmap].
  fold e. rewrite (proj2 (Z.ltb_lt (mb_mmap_addr m) _)) by lia.
  rewrite Hty, Z.eqb_refl, (proj2 (Z.eqb_neq (me_len e) 0)) by lia. cbn [andb negb].
  rewrite (proj2 (Z.ltb_lt (me_addr e) _)) by lia.
  replace (region_end_32 (me_addr e) (me_len e)) with 4294967295.
  2: { unfold region_end_32. rewrite u64_small by lia. case_if; lia. }
  rewrite (u32_small (me_addr e)), (u32_small (_ + _ + 4)) by lia.
  replace (mb_mmap_addr m + me_size e + 4) with (mb_mmap_addr m + mb_mmap_length m) by lia.
  assert (forall fuel c t, walk_mmap entry_at fuel c c t = t) as ->
    by (intros [|?] c t; simpl; [done|]; by rewrite Z.ltb_irrefl).
  unfold add_available_range. rewrite (proj2 (Z.leb_gt _ _)) by lia.
  rewrite (proj2 (mark_range_keeps _ _ _ _)). unfold register_highest. by rewrite Hs.
Qed.

Lemma init_map_to_4gib entry_at addr m :
  highest_address (init_from_multiboot_map entry_at
    (Physmem (sfill 255) (sfill 0) PHYSMEM_MAX_FRAMES 0 0) m) = 4294967295 ->
  total_frames (physmem_init_map entry_at (Some (addr, m))) = 0.
Proof.
  intros Hhi. unfold physmem_init_map. set (t := init_from_multiboot_map _ _ _) in *.
  clearbody t. cbv zeta. rewrite Hhi. change (4294967295 =? 0) with false. cbv iota.
  rewrite Hhi. reflexivity.
Qed.

Lemma alloc_region_no_frames s size k :
  total_frames s = 0 -> 0 < size <= 4294963200 -> 12 <= k < 32 ->
  (physmem_alloc_region s size (2 ^ k)).2 = 0.
Proof.
  intros Ht Hs Hk. unfold physmem_alloc_region. rewrite (proj2 (Z.eqb_neq size 0)) by lia.
  rewrite align_up_frame, u32_small by lia. rewrite Ht. cbv zeta.
  replace (4096 * ((size + 4095) / 4096) / PHYSMEM_FRAME_SIZE) with ((size + 4095) / 4096)
    by (unfold PHYSMEM_FRAME_SIZE; zlia).
  cbn [alloc_region_loop Z.to_nat Nat.add]. rewrite u32_small by zlia.
  rewrite Ht. case_if; [exfalso; zlia | done].
Qed.

(** * The frame-allocator interface *)

#[export] Instance physmem_frames : FrameAllocator physmem := {
  fa_alloc := physmem_alloc_frame;
  fa_free := physmem_free_frame;
  fa_inv := wf;
  fa_held := held;
}.

Lemma held_alloc s f b :
  wf s -> LOW_FRAMES <= f < total_frames s ->
  held (set_refcount (mark_frame s f true) f 1) b <-> b = f * PHYSMEM_FRAME_SIZE \/ held s b.
Proof.
  intros Hwf Hf. unfold held, PHYSMEM_FRAME_SIZE.
  destruct (mark_frame_fields s f true) as (E1 & E2 & _). simpl. rewrite E1, E2, sget_sset.
  case_decide as Hd.
  - split; [left; zlia|]. intros [->|(? & ? & ?)]; [|split_and!; try done; lia].
    rewrite Z.mod_mul, Z.div_mul by lia. split_and!; lia.
  - split; [tauto|]. intros [->|?]; [|done]. rewrite Z.div_mul in Hd by lia. done.
Qed.

#[export] Instance physmem_frames_laws : FrameAllocatorLaws physmem.
Proof.
  constructor; simpl.
  - apply alloc_frame_wf.
  - intros s a Hwf Ha. by apply free_frame_wf.
  - intros s s' a Hwf Heq Ha. pose proof (wf_total _ Hwf).
    destruct (alloc_frame_cases s) as [[E _]|(f & Hf & Hm & _ & E)];
      rewrite Heq in E; injection E as -> ->; [done|].
    assert (LOW_FRAMES <= f) as Hlow.
    { destruct (decide (LOW_FRAMES <= f)); [done|].
      rewrite (wf_low _ Hwf) in Hm by lia. done. }
    unfold LOW_FRAMES, PHYSMEM_MAX_FRAMES in *.
    rewrite u32_small by (unfold PHYSMEM_FRAME_SIZE; lia).
    split_and!; [| | | |intros b; apply held_alloc; [done|unfold LOW_FRAMES; lia]];
      unfold held, PHYSMEM_FRAME_SIZE; [zlia|zlia|zlia|].
    intros (_ & _ & Hp). rewrite Z.div_mul in Hp by lia.
    rewrite (wf_rc_marked _ Hwf) in Hm by lia. done.
  - intros s s' Hwf Heq. pose proof (wf_total _ Hwf).
    destruct (alloc_frame_cases s) as [[E _]|(f & Hf & Hm & _ & E)];
      rewrite Heq in E; [by injection E|]. injection E as _ E. exfalso.
    unfold PHYSMEM_MAX_FRAMES, PHYSMEM_FRAME_SIZE in *.
    rewrite u32_small in E by lia. assert (f = 0) as -> by lia.
    rewrite (wf_low _ Hwf) in Hm; [done | unfold LOW_FRAMES; lia | lia].
  - intros s a Hwf (Hal & Hr & Hp). pose proof (wf_total _ Hwf).
    unfold LOW_FRAMES, PHYSMEM_MAX_FRAMES, PHYSMEM_FRAME_SIZE in *. zlia.
  - intros s a Hwf (Hal & Hr & Hp) b.
    unfold physmem_free_frame, LOW_FRAMES, PHYSMEM_FRAME_SIZE in *.
    rewrite (proj2 (Z.eqb_neq a 0)) by zlia. rewrite Hal. simpl.
    rewrite (proj2 (Z.ltb_ge _ 256)) by lia.
    destruct (mark_frame_fields (set_refcount s (a / 4096) 0) (a / 4096) false) as (E1 & E2 & _).
    unfold held, PHYSMEM_FRAME_SIZE, LOW_FRAMES. rewrite E1, E2. simpl. rewrite sget_sset.
    case_decide as Hd.
    + split; [lia|]. intros (Hne & Hb & _). exfalso. apply Hne. zlia.
    + split; [intros ?; split; [congruence|done] | tauto].
Qed.

(** * Theorems *)

(** C11: In every state reachable from boot by calls of the interface the free
    counter equals the number of clear bits below [total_frames], reference
    counts fit a byte, referenced frames are marked and the first megabyte is
    never free. *)
Theorem physmem_reachable_wf entry_at kstart kend mbi s :
  map_below_4gib entry_at ->
  (forall a m, mbi = Some (a, m) ->
     0 <= mb_mem_upper m * 1024 <= 4293914624 /\ 0 <= mb_mmap_addr m < 4294967296) ->
  rtc pstep (physmem_init entry_at kstart kend mbi) s -> wf s.
Proof.
  intros Hmap Hmb Hrun. apply (rtc_invariant pstep wf _ _ pstep_wf Hrun).
  apply init_reserve_wf; [naive_solver|].
  destruct (init_map_ok entry_at mbi) as (? & ? & ?); [done|naive_solver|].
  by apply reserve_low_wf.
Qed.

Lemma physmem_reachable_wf_witness : wf (physmem_alloc_frame demo_boot).1.
Proof.
  apply (physmem_reachable_wf (fun _ => MmapEntry 20 0 0 0) 1048576 2097152 None).
  - intros c; discriminate.
  - discriminate.
  - unfold demo_boot. apply rtc_once. constructor.
Defined.

(** [physmem_alloc_frame] returns 0 exactly when no frame is free, and
    otherwise takes the lowest free frame: a page-aligned address of at least
    1 MiB whose bit was clear, is now set, has one reference, and no other
    frame changes. *)
Theorem physmem_alloc_frame_spec s s' a :
  wf s -> physmem_alloc_frame s = (s', a) ->
  (a = 0 /\ s' = s /\ free_frames s = 0) \/
  (exists f, a = f * PHYSMEM_FRAME_SIZE /\ LOW_FRAMES <= f < total_frames s /\
     frame_is_marked s f = false /\
     (forall g, 0 <= g < f -> frame_is_marked s g = true) /\
     (forall g, frame_is_marked s' g = if decide (f = g) then true else frame_is_marked s g) /\
     frame_refcount s' = sset (frame_refcount s) f 1 /\
     free_frames s' = free_frames s - 1).
Proof.
  intros Hwf Heq. pose proof (wf_total _ Hwf) as Ht. unfold PHYSMEM_MAX_FRAMES in *.
  pose proof (alloc_frame_wf s Hwf) as Hwf'. rewrite Heq in Hwf'. simpl in Hwf'.
  destruct (alloc_frame_cases s) as [[E Hall]|(f & Hf & Hm & Hlow & E)];
    rewrite Heq in E; injection E as -> ->.
  - left. split_and!; [done|done|]. rewrite (wf_free _ Hwf). apply nfree_zero.
    intros f Hf. apply Hall. lia.
  - right. exists f. destruct (mark_frame_fields s f true) as (E1 & E2 & _).
    assert (forall g, frame_is_marked (set_refcount (mark_frame s f true) f 1) g
      = if decide (f = g) then true else frame_is_marked s g) as Hmk.
    { intros g. rewrite set_refcount_marked.
      apply marked_mark_frame; unfold PHYSMEM_MAX_FRAMES; lia. }
    split_and!; [| |lia|done|done|done|by simpl; rewrite E2|].
    + apply u32_small. unfold PHYSMEM_FRAME_SIZE. lia.
    + destruct (decide (LOW_FRAMES <= f)); [done|].
      rewrite (wf_low _ Hwf) in Hm by lia. done.
    + rewrite (wf_free _ Hwf'), (wf_free _ Hwf). simpl. rewrite E1.
      rewrite (nfree_update (frame_is_marked s) _ _ f); [|lia|].
      * rewrite Hmk, Hm, decide_True by done. lia.
      * intros g _ Hne. rewrite Hmk. by rewrite decide_False.
Qed.

Lemma physmem_alloc_frame_spec_witness :
  exists f, (physmem_alloc_frame demo_boot).2 = f * PHYSMEM_FRAME_SIZE /\
    frame_is_marked demo_boot f = false.
Proof.
  destruct (physmem_alloc_frame_spec demo_boot (physmem_alloc_frame demo_boot).1
    (physmem_alloc_frame demo_boot).2 demo_boot_wf) as [(H & _)|(f & H1 & _ & H2 & _)].
  - apply surjective_pairing.
  - exfalso. revert H. vm_compute. discriminate.
  - exists f. exact (conj H1 H2).
Defined.

(** [physmem_alloc_region] with a power-of-two alignment of at least a page
    returns 0 exactly when no aligned free run of the needed frames exists
    above 1 MiB, and otherwise the first such run: all its frames were free,
    become marked with one reference, and nothing else changes. *)
Theorem physmem_alloc_region_spec s size k s' a :
  wf s -> 0 < size <= 4294963200 -> 12 <= k < 32 ->
  physmem_alloc_region s size (2 ^ k) = (s', a) ->
  let n := (size + 4095) / 4096 in
  (a = 0 /\ s' = s /\ forall st, ~ suitable s n k st) \/
  (exists st, a = st * PHYSMEM_FRAME_SIZE /\ suitable s n k st /\
     (forall st', st' < st -> ~ suitable s n k st') /\
     (forall g, frame_is_marked s' g
        = if decide (st <= g < st + n) then true else frame_is_marked s g) /\
     (forall g, sget (frame_refcount s') g
        = if decide (st <= g < st + n) then 1 else sget (frame_refcount s) g)).
Proof.
  intros Hwf Hs Hk Heq n.
  destruct (alloc_region_cases s size k Hwf Hs Hk) as [[E Hno]|(st & Hsu & Hmin & E)];
    rewrite Heq in E; injection E as -> ->; [by left|]. right. exists st.
  destruct Hsu as (Hlo & Hhi & Hd & Hfr). unfold LOW_FRAMES in *.
  destruct (take_region_spec s n st Hwf ltac:(unfold n; zlia) ltac:(lia) Hhi)
    as (_ & Hm & Hrc & _).
  by split_and!.
Qed.

Lemma physmem_alloc_region_spec_witness :
  exists st, (physmem_alloc_region demo_boot 8192 (2 ^ 12)).2 = st * PHYSMEM_FRAME_SIZE /\
    suitable demo_boot 2 12 st.
Proof.
  destruct (physmem_alloc_region_spec demo_boot 8192 12
    (physmem_alloc_region demo_boot 8192 (2 ^ 12)).1
    (physmem_alloc_region demo_boot 8192 (2 ^ 12)).2 demo_boot_wf ltac:(lia) ltac:(lia))
    as [(H & _)|(st & H1 & H2 & _)].
  - apply surjective_pairing.
  - exfalso. revert H. vm_compute. discriminate.
  - exists st. exact (conj H1 H2).
Defined.

(** Copy-on-write sharing: after [n] further references and [m] releases
    of a held frame, its count is the difference and the frame is free exactly
    when the last reference is gone; no other frame's bit changes. *)
Theorem cow_refcount_spec s a n m :
  wf s -> held s a ->
  let f := a / PHYSMEM_FRAME_SIZE in
  let total := sget (frame_refcount s) f + Z.of_nat n in
  total <= 255 -> Z.of_nat m <= total ->
  let t := Nat.iter m (fun t => physmem_unref_frame t a)
             (Nat.iter n (fun t => physmem_ref_frame t a) s) in
  physmem_frame_refcount t a = total - Z.of_nat m /\
  frame_is_marked t f = bool_decide (Z.of_nat m < total) /\
  (forall g, g <> f -> frame_is_marked t g = frame_is_marked s g).
Proof.
  intros Hwf Hh f total Hn Hm t.
  pose proof (wf_total _ Hwf) as Ht. pose proof Hh as (Hal & Hr & Hp).
  destruct (iter_ref_held n s a Hh Hn) as (Hh1 & E1 & Hm1 & Hrc1).
  set (s1 := Nat.iter n _ s) in *.
  assert (frame_is_marked s f = true) as Hmk
    by (apply (wf_rc_marked _ Hwf); unfold f, LOW_FRAMES in *; lia).
  destruct (iter_unref_held m s1 a Hh1 ltac:(lia) ltac:(by rewrite Hm1)) as (E2 & Hrc2 & Hmk2 & Ho2);
    [rewrite Hrc1; exact Hm|]. fold f t in E2, Hrc2, Hmk2, Ho2. fold f in Hrc1.
  split_and!.
  - unfold physmem_frame_refcount. fold f. unfold LOW_FRAMES, PHYSMEM_FRAME_SIZE in *.
    rewrite (proj2 (Z.eqb_neq a 0)) by zlia. rewrite Hal. simpl.
    rewrite E2, (proj2 (Z.leb_gt (total_frames s1) _)) by (unfold f, PHYSMEM_FRAME_SIZE; lia).
    unfold total. lia.
  - rewrite Hmk2. apply bool_decide_ext. unfold total. lia.
  - intros g Hg. rewrite Ho2 by done. apply Hm1.
Qed.

Lemma cow_refcount_spec_witness :
  let s := (physmem_alloc_frame demo_boot).1 in
  let a := (physmem_alloc_frame demo_boot).2 in
  frame_is_marked (physmem_unref_frame (physmem_ref_frame s a) a) (a / PHYSMEM_FRAME_SIZE) = true.
Proof.
  cbv zeta.
  refine (proj1 (proj2 (cow_refcount_spec (physmem_alloc_frame demo_boot).1
    (physmem_alloc_frame demo_boot).2 1 1 _ _ _ _))).
  - exact (alloc_frame_wf _ demo_boot_wf).
  - vm_compute. repeat split; try reflexivity; discriminate.
  - vm_compute. discriminate.
  - vm_compute. discriminate.
Defined.

(** A boot map whose available region starts below 4 GiB and reaches it
    leaves the allocator with no frames at all: rounding [highest_address] up
    wraps to 0, so every later allocation fails. *)
Theorem physmem_init_region_to_4gib entry_at kstart kend addr m :
  let e := entry_at (mb_mmap_addr m) in
  mbi_has_mmap m = true -> me_type e = 1 -> 0 <= me_addr e < 4294967295 ->
  4294967296 <= me_addr e + me_len e < 18446744073709551616 ->
  mb_mmap_length m = me_size e + 4 -> 0 <= me_size e -> 0 <= mb_mmap_addr m ->
  mb_mmap_addr m + mb_mmap_length m < 4294967296 ->
  let s := physmem_init entry_at kstart kend (Some (addr, m)) in
  total_frames s = 0 /\ physmem_alloc_frame s = (s, 0) /\
  (forall size k, 0 < size <= 4294963200 -> 12 <= k < 32 ->
     (physmem_alloc_region s size (2 ^ k)).2 = 0).
Proof.
  intros e Hhas Hty Hadr Hend Hlen Hsz H0 Hwrap s.
  assert (total_frames s = 0) as Htot.
  { unfold s, physmem_init. rewrite init_reserve_total.
    apply init_map_to_4gib. by apply walk_to_4gib. }
  split_and!; [done| |].
  - unfold physmem_alloc_frame. by rewrite Htot.
  - intros size k Hs Hk. apply alloc_region_no_frames; [done | lia..].
Qed.

Lemma physmem_init_region_to_4gib_witness :
  let m := MultibootInfo 64 0 24 4096 0 0 0 in
  let e := MmapEntry 20 0 4294967296 1 in
  total_frames (physmem_init (fun _ => e) 1048576 2097152 (Some (8192, m))) = 0.
Proof.
  cbv zeta.
  refine (proj1 (physmem_init_region_to_4gib _ 1048576 2097152 8192 _ _ _ _ _ _ _ _ _));
    simpl; try lia; reflexivity.
Defined.

(** [physmem_alloc_region] does not refuse a size within a page of 4 GiB:
    the rounded size wraps to zero frames, and the call returns the address
    0x100000 as a success without reserving anything. *)
Theorem physmem_alloc_region_wraps s size :
  LOW_FRAMES <= total_frames s < PHYSMEM_MAX_FRAMES -> 4294963200 < size < 4294967296 ->
  physmem_alloc_region s size PHYSMEM_FRAME_SIZE = (s, 1048576).
Proof. apply alloc_region_overflow. Qed.

Lemma physmem_alloc_region_wraps_witness :
  physmem_alloc_region demo_boot 4294967295 PHYSMEM_FRAME_SIZE = (demo_boot, 1048576).
Proof.
  apply physmem_alloc_region_wraps; [|lia].
  assert (total_frames demo_boot = 4096) as -> by (vm_compute; reflexivity).
  unfold LOW_FRAMES, PHYSMEM_MAX_FRAMES. lia.
Defined.
