(* ===== verification/Mmap.v ===== *)
(** Anonymous mappings of a process: [kernel/mem/mmap.c].

    The per-task table of 16 regions is searched downwards from [mmap_top] for
    a gap.  Addresses are 64-bit; the page masks of the code are 32-bit. *)
From S2P Require Import Prelude.
From Stdlib Require Import ZArith Lia.
From stdpp Require Import base numbers list relations.

Open Scope Z_scope.
Open Scope lyth_scope.

Definition MMAP_MAX_REGIONS : Z := 16.
Definition MMAP_PAGE_SIZE : Z := 4096.
Definition MMAP_FAILED : Z := 0.

Record mmap_region := MmapRegion { base : Z; length_ : Z; used : bool }.

#[export] Instance mmap_region_inhabited : Inhabited mmap_region :=
  populate (MmapRegion 0 0 false).

(** [~(MMAP_PAGE_SIZE - 1U)] is computed on 32 bits and zero-extended. *)
Definition align_up_page (v : Z) : Z :=
  Z.land (u64 (v + MMAP_PAGE_SIZE - 1)) (not32 (MMAP_PAGE_SIZE - 1)).
Definition align_down_page (v : Z) : Z := Z.land v (not32 (MMAP_PAGE_SIZE - 1)).

Definition overlaps (r : mmap_region) (b len : Z) : bool :=
  used r && ((b <? u64 (base r + length_ r)) && (base r <? u64 (b + len))).

Definition overlaps_any (regions : list mmap_region) (b len : Z) : bool :=
  match find_first (fun i => overlaps regions.[i] b len) (Z.to_nat MMAP_MAX_REGIONS) 0 with
  | Some _ => true
  | None => false
  end.

Definition mmap_init_regions (regions : list mmap_region) : list mmap_region :=
  for_loop (fun i rs => rs.[i <- MmapRegion 0 0 false]) (Z.to_nat MMAP_MAX_REGIONS) 0 regions.

(** The downward scan; every round lowers [candidate] by a page, so
    [candidate / 4096 + 1] rounds are enough. *)
Fixpoint mmap_scan (fuel : nat) (regions : list mmap_region) (candidate low len : Z) : option Z :=
  match fuel with
  | O => None
  | S f =>
      if candidate <? low then None
      else if negb (overlaps_any regions candidate len) then Some candidate
      else if candidate <? MMAP_PAGE_SIZE then None
      else mmap_scan f regions (candidate - MMAP_PAGE_SIZE) low len
  end.

Definition scan_fuel (candidate : Z) : nat := S (Z.to_nat (candidate / MMAP_PAGE_SIZE)).

(** The regions after the call, the address returned, and the range that is
    zero-filled. *)
Definition mmap_anonymous (regions : list mmap_region) (mmap_top mmap_low length : Z)
    : list mmap_region * Z * option (Z * Z) :=
  if length =? 0 then (regions, MMAP_FAILED, None)
  else
    let aligned_len := align_up_page length in
    if (aligned_len =? 0) || (u64 (mmap_top - mmap_low) <? aligned_len)
    then (regions, MMAP_FAILED, None)
    else
      match find_first (fun i => negb (used regions.[i])) (Z.to_nat MMAP_MAX_REGIONS) 0 with
      | None => (regions, MMAP_FAILED, None)
      | Some slot =>
          let candidate := align_down_page (u64 (mmap_top - aligned_len)) in
          match mmap_scan (scan_fuel candidate) regions candidate mmap_low aligned_len with
          | None => (regions, MMAP_FAILED, None)
          | Some c => (regions.[slot <- MmapRegion c aligned_len true], c, Some (c, aligned_len))
          end
      end.

Definition mmap_unmap (regions : list mmap_region) (addr length : Z) : list mmap_region * Z :=
  if addr =? 0 then (regions, -1)
  else
    let aligned_len := align_up_page length in
    match find_first (fun i =>
            used regions.[i] && (base regions.[i] =? addr) &&
            negb (negb (aligned_len =? 0) && negb (aligned_len =? length_ regions.[i])))
            (Z.to_nat MMAP_MAX_REGIONS) 0 with
    | None => (regions, -1)
    | Some i => (regions.[i <- MmapRegion (base regions.[i]) (length_ regions.[i]) false], 0)
    end.

Definition mmap_clone_regions (src dst : list mmap_region) : list mmap_region :=
  for_loop (fun i d => d.[i <- src.[i]]) (Z.to_nat MMAP_MAX_REGIONS) 0 dst.

(** * Specification *)

Lemma align_down_page_eq v :
  0 <= v < 4294967296 -> align_down_page v = 4096 * (v / 4096).
Proof. intros. apply (land_not32_pow2 v 12); lia. Qed.

Lemma align_up_page_eq v :
  0 <= v <= 4294963200 ->
  align_up_page v = 4096 * ((v + 4095) / 4096) /\ v <= align_up_page v < v + 4096.
Proof.
  intros Hv. unfold align_up_page, MMAP_PAGE_SIZE. rewrite u64_small by lia.
  replace (v + 4096 - 1) with (v + 4095) by lia.
  change (not32 (4096 - 1)) with (not32 (2 ^ 12 - 1)). rewrite land_not32_pow2 by lia.
  change (2 ^ 12) with 4096. zlia.
Qed.

(** Only the low 32 bits of a length survive the mask. *)
Lemma align_up_page_mod v :
  0 <= v -> v + 4294967296 + 4096 <= 18446744073709551616 ->
  align_up_page (4294967296 + v) = align_up_page v.
Proof.
  intros Hv Hb. unfold align_up_page, MMAP_PAGE_SIZE. rewrite !u64_small by lia.
  replace (4294967296 + v + 4096 - 1) with (v + 4096 - 1 + 1 * 2 ^ 32)
    by (change (2 ^ 32) with 4294967296; lia).
  set (a := v + 4096 - 1). assert (not32 (4096 - 1) = Z.land (Z.ones 32) (not32 (4096 - 1))) as ->
    by reflexivity.
  rewrite !Z.land_assoc, !Z.land_ones by lia. by rewrite Z.mod_add by lia.
Qed.

Section table.
Context (low top : Z).
Context (Hrange : 0 < low /\ low <= top /\ top <= 4294967296).

(** Regions in use are page aligned and lie inside the window. *)
Definition region_ok (r : mmap_region) : Prop :=
  used r = true ->
  base r mod 4096 = 0 /\ length_ r mod 4096 = 0 /\ 0 < length_ r /\
  low <= base r /\ base r + length_ r <= top.

Definition disjoint (r1 r2 : mmap_region) : Prop :=
  base r1 + length_ r1 <= base r2 \/ base r2 + length_ r2 <= base r1.

Record mmap_ok (rs : list mmap_region) : Prop := MmapOk {
  mm_len : Z.of_nat (length rs) = MMAP_MAX_REGIONS;
  mm_region : forall i, 0 <= i < MMAP_MAX_REGIONS -> region_ok rs.[i];
  mm_disj : forall i j, 0 <= i < MMAP_MAX_REGIONS -> 0 <= j < MMAP_MAX_REGIONS -> i <> j ->
    used rs.[i] = true -> used rs.[j] = true -> disjoint rs.[i] rs.[j];
}.

(** [x, x+len) meets no region in use. *)
Definition gap (rs : list mmap_region) (x len : Z) : Prop :=
  forall i, 0 <= i < MMAP_MAX_REGIONS -> used rs.[i] = true ->
    disjoint (MmapRegion x len true) rs.[i].

Lemma overlaps_any_spec rs x len :
  mmap_ok rs -> 0 <= x -> 0 <= len -> x + len <= 4294967296 ->
  overlaps_any rs x len = false <-> gap rs x len.
Proof.
  intros Hok Hx Hl Hb. unfold overlaps_any.
  assert (forall i, 0 <= i < MMAP_MAX_REGIONS ->
    overlaps rs.[i] x len = false <->
    (used rs.[i] = true -> disjoint (MmapRegion x len true) rs.[i])) as Hone.
  { intros i Hi. unfold overlaps, disjoint; simpl.
    destruct (used rs.[i]) eqn:Hu; simpl; [|by split].
    destruct (mm_region _ Hok i Hi Hu) as (_ & _ & ? & ? & ?).
    rewrite !u64_small by lia. rewrite andb_false_iff, !Z.ltb_ge. split; [intros [?|?]; lia|].
    intros Hd. destruct (Hd eq_refl); lia. }
  unfold gap, MMAP_MAX_REGIONS in *. destruct (find_first _ _ _) as [k|] eqn:Hf.
  - apply find_first_Some in Hf as (Hk & Ht & _). split; [done|]. intros Hg.
    rewrite (proj2 (Hone k ltac:(lia))) in Ht; [done|]. apply Hg. lia.
  - rewrite find_first_None in Hf. split; [|done]. intros _ i Hi. apply Hone; [lia|].
    apply Hf. lia.
Qed.

(** The scan visits the pages below [c] in order: it returns the highest gap
    and fails only when there is none. *)
Lemma mmap_scan_spec rs len f c :
  mmap_ok rs -> 0 < len -> 0 <= c -> c + len <= 4294967296 -> c mod 4096 = 0 ->
  c / 4096 < Z.of_nat f ->
  match mmap_scan f rs c low len with
  | Some b => low <= b <= c /\ b mod 4096 = 0 /\ gap rs b len /\
      forall x, b < x <= c -> x mod 4096 = 0 -> ~ gap rs x len
  | None => forall x, low <= x <= c -> x mod 4096 = 0 -> ~ gap rs x len
  end.
Proof.
  intros Hok Hl. revert c. induction f as [|f IH]; intros c Hc Hb Hm Hf; [zlia|]. simpl.
  unfold MMAP_PAGE_SIZE. case_if; [intros; lia|].
  pose proof (overlaps_any_spec rs c len Hok Hc ltac:(lia) Hb) as Hov.
  destruct (overlaps_any rs c len) eqn:Eo; simpl.
  - assert (~ gap rs c len) as Hng by (intros Hg; by apply Hov in Hg).
    case_if.
    + intros x Hx Hxm. assert (c = 0) as -> by zlia. lia.
    + specialize (IH (c - 4096)). destruct (mmap_scan f rs (c - 4096) low len) as [b|].
      * destruct IH as (? & ? & ? & Hmax); [lia|lia|zlia|zlia|]. split_and!; [lia|lia|done|done|].
        intros x Hx Hxm. destruct (decide (x = c)) as [->|]; [done|]. apply Hmax; zlia.
      * intros x Hx Hxm. destruct (decide (x = c)) as [->|]; [done|].
        apply IH; zlia.
  - split_and!; [lia|lia|done|by apply Hov|]. intros; lia.
Qed.

Lemma gap_insert rs slot x len :
  mmap_ok rs -> 0 <= slot < MMAP_MAX_REGIONS -> used rs.[slot] = false -> gap rs x len ->
  region_ok (MmapRegion x len true) -> mmap_ok rs.[slot <- MmapRegion x len true].
Proof.
  intros [Hl Hr Hd] Hs Hu Hg Hx. constructor; [by rewrite aset_length| |].
  - intros i Hi. destruct (decide (slot = i)) as [->|].
    + rewrite aget_aset_eq by lia. done.
    + rewrite aget_aset_ne by lia. by apply Hr.
  - intros i j Hi Hj Hij. destruct (decide (slot = i)) as [Ei|], (decide (slot = j)) as [Ej|].
    + congruence.
    + subst i. rewrite aget_aset_eq, aget_aset_ne by lia. intros _ Huj. by apply Hg.
    + subst j. rewrite aget_aset_eq, (aget_aset_ne _ slot i) by lia. intros Hui _.
      specialize (Hg i Hi Hui). unfold disjoint in *. tauto.
    + rewrite !aget_aset_ne by lia. by apply Hd.
Qed.

Lemma unmap_ok rs addr n : mmap_ok rs -> mmap_ok (mmap_unmap rs addr n).1.
Proof.
  intros [Hl Hr Hd]. unfold mmap_unmap. case_if; [done|]. cbv zeta.
  destruct (find_first _ _ _) as [k|] eqn:Hf; [|done]. apply find_first_Some in Hf as (Hk & _ & _).
  unfold MMAP_MAX_REGIONS in *. simpl. constructor; unfold MMAP_MAX_REGIONS.
  - by rewrite aset_length.
  - intros i Hi. destruct (decide (k = i)) as [->|].
    + rewrite aget_aset_eq by lia. done.
    + rewrite aget_aset_ne by lia. by apply Hr.
  - intros i j Hi Hj Hij. destruct (decide (k = i)) as [->|].
    + by rewrite aget_aset_eq by lia.
    + destruct (decide (k = j)) as [->|].
      * intros _. by rewrite aget_aset_eq by lia.
      * rewrite !aget_aset_ne by lia. by apply Hd.
Qed.

(** What one call may do: it fails for one of four reasons and changes nothing,
    or it takes the highest gap of the rounded length. *)
Definition anonymous_spec (rs : list mmap_region) (n : Z) (rs' : list mmap_region) (a : Z)
    (zeroed : option (Z * Z)) : Prop :=
  let len := 4096 * ((n + 4095) / 4096) in
  (a = 0 /\ rs' = rs /\ zeroed = None /\
   (n = 0 \/ top - low < len \/ (forall i, 0 <= i < MMAP_MAX_REGIONS -> used rs.[i] = true) \/
    forall x, low <= x -> x + len <= top -> x mod 4096 = 0 -> ~ gap rs x len)) \/
  (exists slot, 0 < n /\ 0 <= slot < MMAP_MAX_REGIONS /\
     used rs.[slot] = false /\ rs' = rs.[slot <- MmapRegion a len true] /\ zeroed = Some (a, len) /\
     a mod 4096 = 0 /\ low <= a /\ a + len <= top /\ gap rs a len /\
     forall x, a < x -> x + len <= top -> x mod 4096 = 0 -> ~ gap rs x len).

Lemma mmap_anonymous_cases rs n :
  mmap_ok rs -> 0 <= n <= 4294963200 ->
  let '(rs', a, z) := mmap_anonymous rs top low n in
  mmap_ok rs' /\ anonymous_spec rs n rs' a z.
Proof.
  intros Hok Hn. unfold mmap_anonymous, anonymous_spec. case_if; [by auto 10|]. cbv zeta.
  destruct (align_up_page_eq n) as [Hlen Hup]; [lia|]. rewrite <- Hlen.
  set (len := align_up_page n) in *.
  rewrite (u64_small (top - low)) by lia. case_if.
  { destruct Hif0; bool_to_prop; [lia|]. auto 10. }
  destruct (find_first _ _ _) as [slot|] eqn:Hs.
  2: { split; [done|]. left. split_and!; [done..|]. right; right; left. intros i Hi.
       rewrite find_first_None in Hs. unfold MMAP_MAX_REGIONS in *. specialize (Hs i ltac:(lia)).
       by bool_to_prop. }
  apply find_first_Some in Hs as (Hsl & Hfree & _). bool_to_prop.
  rewrite u64_small by lia. rewrite align_down_page_eq by lia.
  set (c := 4096 * ((top - len) / 4096)).
  assert (0 <= c /\ c + len <= top /\ c mod 4096 = 0 /\ top - len < c + 4096) as (Hc & Hct & Hcm & Hcu)
    by (unfold c; zlia).
  pose proof (mmap_scan_spec rs len (scan_fuel c) c Hok ltac:(lia) Hc ltac:(lia) Hcm) as Hscan.
  assert (c / 4096 < Z.of_nat (scan_fuel c)) as Hfuel by (unfold scan_fuel, MMAP_PAGE_SIZE; zlia).
  specialize (Hscan Hfuel). unfold MMAP_MAX_REGIONS in *.
  destruct (mmap_scan _ rs c low len) as [b|].
  - destruct Hscan as (Hb & Hbm & Hg & Hmax). split.
    + apply gap_insert; try done; try (unfold MMAP_MAX_REGIONS; lia).
      intros _. simpl. split_and!; try lia. rewrite Hlen. zlia.
    + right. exists slot. split_and!; try done; try lia.
      intros x Hx Hxt Hxm. apply Hmax; [zlia|done].
  - split; [done|]. left. split_and!; [done..|]. right; right; right.
    intros x Hx Hxt Hxm. apply Hscan; [zlia|done].
Qed.

Lemma init_ok rs : Z.of_nat (length rs) = MMAP_MAX_REGIONS -> mmap_ok (mmap_init_regions rs).
Proof.
  intros Hl. assert (forall i, 0 <= i < MMAP_MAX_REGIONS ->
    (mmap_init_regions rs).[i] = MmapRegion 0 0 false) as Hget.
  { intros i Hi. change (mmap_init_regions rs) with
      (blit (fun _ => MmapRegion 0 0 false) 0 MMAP_MAX_REGIONS rs).
    rewrite blit_get by (unfold MMAP_MAX_REGIONS in *; lia). by rewrite decide_True by lia. }
  constructor.
  - unfold mmap_init_regions. apply (for_loop_ind (fun _ t => Z.of_nat (length t) = MMAP_MAX_REGIONS)); [done|].
    intros. by rewrite aset_length.
  - intros i Hi. by rewrite Hget.
  - intros i j Hi Hj _. by rewrite Hget.
Qed.

(** What a process can do to its table (a fork copies it into the child's). *)
Inductive mmap_step : list mmap_region -> list mmap_region -> Prop :=
| StepMap rs n : 0 <= n <= 4294963200 -> mmap_step rs (mmap_anonymous rs top low n).1.1
| StepUnmap rs addr n : mmap_step rs (mmap_unmap rs addr n).1
| StepFork rs child : length child = length rs -> mmap_step rs (mmap_clone_regions rs child).

Lemma clone_regions_eq rs child :
  Z.of_nat (length rs) = MMAP_MAX_REGIONS -> length child = length rs ->
  mmap_clone_regions rs child = rs.
Proof.
  intros Hl Hc. change (mmap_clone_regions rs child) with (blit (fun i => rs.[i]) 0 MMAP_MAX_REGIONS child).
  rewrite <- (slice_all (blit _ _ _ _)), blit_length, Hc. etrans; [|apply slice_all].
  apply slice_ext. intros i Hi. unfold MMAP_MAX_REGIONS in *. rewrite !Z.add_0_l.
  rewrite blit_get by lia. rewrite decide_True by lia. f_equal. lia.
Qed.

Lemma mmap_step_ok rs rs' : mmap_step rs rs' -> mmap_ok rs -> mmap_ok rs'.
Proof.
  intros Hst Hok. destruct Hst as [rs n Hn|rs addr n|rs child Hc].
  - pose proof (mmap_anonymous_cases rs n Hok Hn) as Hc.
    destruct (mmap_anonymous rs top low n) as [[rs' a] z]. apply Hc.
  - by apply unmap_ok.
  - by rewrite clone_regions_eq by (done || apply Hok).
Qed.

(** C26: Along any sequence of map, unmap and fork calls from an initialised
    table, the regions in use stay page aligned, inside [mmap_low, mmap_top)
    and pairwise disjoint. *)
Theorem mmap_regions_disjoint rs0 rs :
  Z.of_nat (length rs0) = MMAP_MAX_REGIONS -> rtc mmap_step (mmap_init_regions rs0) rs -> mmap_ok rs.
Proof.
  intros Hl Hr. eapply rtc_invariant; [apply mmap_step_ok|done|by apply init_ok].
Qed.

(** [mmap_anonymous] returns the highest page-aligned gap of the window
    large enough for the rounded length, records and zero-fills exactly that
    range, and fails, changing nothing, only for a zero length, a window too
    small, a full table or no gap. *)
Theorem mmap_anonymous_highest_gap rs n :
  mmap_ok rs -> 0 <= n <= 4294963200 ->
  let '(rs', a, z) := mmap_anonymous rs top low n in anonymous_spec rs n rs' a z.
Proof.
  intros Hok Hn. pose proof (mmap_anonymous_cases rs n Hok Hn) as Hc.
  destruct (mmap_anonymous rs top low n) as [[rs' a] z]. apply Hc.
Qed.

(** The region a successful [mmap_anonymous] returned is released by
    [mmap_unmap] with the same address and length, which restores the table
    up to the contents of the free slot. *)
Theorem mmap_unmap_roundtrip rs n rs' a z :
  mmap_ok rs -> 0 <= n <= 4294963200 -> mmap_anonymous rs top low n = (rs', a, z) -> a <> 0 ->
  (mmap_unmap rs' a n).2 = 0 /\
  forall i, 0 <= i < MMAP_MAX_REGIONS ->
    used (mmap_unmap rs' a n).1.[i] = used rs.[i] /\
    (used rs.[i] = true -> (mmap_unmap rs' a n).1.[i] = rs.[i]).
Proof.
  intros Hok Hn E Ha. pose proof (mmap_anonymous_cases rs n Hok Hn) as Hc. rewrite E in Hc.
  destruct Hc as [Hok' [(? & _)|(slot & Hpos & Hs & Hu & -> & _ & _ & Hlow & Htop & _)]]; [done|].
  destruct (align_up_page_eq n) as [Hlen Hup]; [lia|].
  pose proof (mm_len _ Hok) as Hl. set (len := 4096 * ((n + 4095) / 4096)) in *.
  set (rs' := rs.[slot <- _]) in *.
  assert (rs'.[slot] = MmapRegion a len true) as Hslot by (apply aget_aset_eq; lia).
  unfold mmap_unmap. rewrite (proj2 (Z.eqb_neq a 0)) by done. cbv zeta.
  rewrite (find_first_intro _ _ _ slot).
  - split; [done|]. intros i Hi. cbn [fst].
    assert (length rs' = length rs) by apply aset_length.
    destruct (decide (slot = i)) as [<-|].
    + rewrite aget_aset_eq by lia. rewrite Hu. done.
    + rewrite aget_aset_ne by lia. unfold rs'. by rewrite aget_aset_ne by lia.
  - unfold MMAP_MAX_REGIONS in *. lia.
  - rewrite Hslot; simpl. rewrite Z.eqb_refl, Hlen, Z.eqb_refl. simpl. by rewrite andb_false_r.
  - intros j Hj. destruct (used rs'.[j]) eqn:Huj; [|done]. simpl.
    rewrite (proj2 (Z.eqb_neq _ a)); [done|]. intros Eb.
    unfold MMAP_MAX_REGIONS in *.
    assert (region_ok rs'.[j]) as Hr by (apply (mm_region _ Hok'); unfold MMAP_MAX_REGIONS; lia).
    destruct (Hr Huj) as (_ & _ & Hp & _ & _).
    assert (disjoint rs'.[j] rs'.[slot]) as Hd.
    { apply (mm_disj _ Hok'); unfold MMAP_MAX_REGIONS; try lia; [done|by rewrite Hslot]. }
    rewrite Hslot in Hd. unfold disjoint in Hd. simpl in Hd. lia.
Qed.

End table.

(** The page mask is computed on 32 bits, so a length of 4 GiB plus [n]
    bytes is treated as [n] bytes: the call succeeds with the same small
    mapping. *)
Theorem mmap_length_truncated rs top low n :
  0 < n -> n + 4294967296 + 4096 <= 18446744073709551616 ->
  mmap_anonymous rs top low (4294967296 + n) = mmap_anonymous rs top low n.
Proof.
  intros Hn Hb. unfold mmap_anonymous. rewrite !(proj2 (Z.eqb_neq _ 0)) by lia.
  rewrite align_up_page_mod, (proj2 (Z.eqb_neq n 0)) by lia. reflexivity.
Qed.

(** * Concrete runs, on the window the kernel uses *)

Definition demo_regions : list mmap_region := mmap_init_regions (repeat (MmapRegion 0 0 false) 16).

Lemma mmap_regions_disjoint_witness :
  mmap_ok 18874368 20897792
    (mmap_unmap (mmap_anonymous demo_regions 20897792 18874368 5000).1.1 20889600 5000).1.
Proof.
  apply (mmap_regions_disjoint 18874368 20897792 ltac:(lia) (repeat (MmapRegion 0 0 false) 16));
    [reflexivity|].
  eapply rtc_l; [apply (StepMap _ _ _ 5000); lia|]. apply rtc_once. apply StepUnmap.
Defined.

Lemma mmap_anonymous_highest_gap_witness :
  (mmap_anonymous demo_regions 20897792 18874368 5000).1.2 = 20889600 /\
  let '(rs', a, z) := mmap_anonymous demo_regions 20897792 18874368 5000 in
  anonymous_spec 18874368 20897792 demo_regions 5000 rs' a z.
Proof.
  split; [vm_compute; reflexivity|].
  apply mmap_anonymous_highest_gap; [lia| |lia]. apply init_ok. reflexivity.
Defined.

Lemma mmap_unmap_roundtrip_witness :
  (mmap_unmap (mmap_anonymous demo_regions 20897792 18874368 5000).1.1 20889600 5000).2 = 0.
Proof.
  refine (proj1 (mmap_unmap_roundtrip 18874368 20897792 ltac:(lia) demo_regions 5000 _ 20889600
    (Some (20889600, 8192)) _ ltac:(lia) _ ltac:(lia))).
  - apply init_ok. reflexivity.
  - vm_compute. reflexivity.
Defined.

Lemma mmap_length_truncated_witness :
  (mmap_anonymous demo_regions 20897792 18874368 (4294967296 + 1)).2 = Some (20893696, 4096).
Proof. rewrite mmap_length_truncated by lia. vm_compute. reflexivity. Defined.
