(* ===== verification/Paging.v ===== *)
(** Page tables: [kernel/mem/paging.c] over the frame allocator of [Physmem.v].

    Physical memory is a store of 64-bit words at byte addresses; a table is
    the 512 words of a frame.  The code reads and writes tables through the
    identity map, so an access of the model is an access of the physical word.
    The tables of the boot code ([arch/x86/boot/boot64.s]) are given by their
    addresses.  Loads of [CR3] and [invlpg] are recorded in [tlb]. *)
From S2P Require Import Prelude.
From S2P Require Import Interfaces.
From S2P Require Import Physmem.
From Stdlib Require Import ZArith Lia.
From stdpp Require Import base numbers list gmap.

Open Scope Z_scope.
Open Scope lyth_scope.

(** * Constants *)

Definition ENTRIES_PER_TABLE : Z := 512.
Definition PAGE_SIZE_2MB : Z := 2097152.
Definition PG_PRESENT : Z := 1.
Definition PG_WRITABLE : Z := 2.
Definition PG_USER : Z := 4.
Definition PG_PWT : Z := 8.
Definition PG_PS : Z := 128.
Definition PG_COW : Z := 512.
Definition PG_ADDR_MASK : Z := 4503599627366400.

Definition PAGING_PAGE_SIZE : Z := 4096.
Definition PAGING_USER_BASE : Z := 16777216.
Definition PAGING_USER_SIZE : Z := 4194304.
Definition PAGING_USER_STACK_SIZE : Z := 4096.
Definition PAGING_USER_STACK_GUARD_SIZE : Z := PAGING_PAGE_SIZE.
Definition PAGING_USER_SHM_SIZE : Z := 16 * PAGING_PAGE_SIZE.
Definition PAGING_USER_STACK_GUARD_BASE : Z :=
  PAGING_USER_BASE + PAGING_USER_SIZE - PAGING_USER_STACK_SIZE - PAGING_USER_STACK_GUARD_SIZE.
Definition PAGING_USER_SHM_BASE : Z := PAGING_USER_STACK_GUARD_BASE - PAGING_USER_SHM_SIZE.
Definition PAGING_USER_STACK_BOTTOM : Z :=
  PAGING_USER_BASE + PAGING_USER_SIZE - PAGING_USER_STACK_SIZE.
Definition PAGING_USER_STACK_TOP : Z := PAGING_USER_BASE + PAGING_USER_SIZE.

Definition USER_PD_START : Z := Z.shiftr PAGING_USER_BASE 21.
Definition USER_PD_COUNT : Z := 2.
Definition EARLY_EXTRA_PD_MAX : Z := 16.

Definition PML4_IDX (va : Z) : Z := Z.land (Z.shiftr va 39) 511.
Definition PDPT_IDX (va : Z) : Z := Z.land (Z.shiftr va 30) 511.
Definition PD_IDX (va : Z) : Z := Z.land (Z.shiftr va 21) 511.
Definition PT_IDX (va : Z) : Z := Z.land (Z.shiftr va 12) 511.

(** * State *)

Inductive tlb_op := Invlpg (address : Z) | LoadCr3 (pml4 : Z) | ReloadCr3.

(** The statics of [paging.c], the frame allocator and physical memory. *)
Record paging := Paging {
  frames : physmem; words : sarr Z;
  early_pd_next : Z; early_pdpt_used : bool;
  kernel_pml4 : Z; current_pml4 : Z; paging_enabled : bool; paging_bytes_mapped : Z;
  kernel_pdpt : Z; kernel_pd0 : Z;
  tlb : list tlb_op }.

(** Addresses of the tables reserved by the boot code. *)
Class BootTables := { boot_pml4 : Z; early_extra_pds : Z; early_extra_pdpt : Z }.

Definition set_frames (s : paging) (f : physmem) : paging :=
  Paging f (words s) (early_pd_next s) (early_pdpt_used s) (kernel_pml4 s) (current_pml4 s)
    (paging_enabled s) (paging_bytes_mapped s) (kernel_pdpt s) (kernel_pd0 s) (tlb s).
Definition set_words (s : paging) (w : sarr Z) : paging :=
  Paging (frames s) w (early_pd_next s) (early_pdpt_used s) (kernel_pml4 s) (current_pml4 s)
    (paging_enabled s) (paging_bytes_mapped s) (kernel_pdpt s) (kernel_pd0 s) (tlb s).
Definition set_early (s : paging) (n : Z) (used : bool) : paging :=
  Paging (frames s) (words s) n used (kernel_pml4 s) (current_pml4 s)
    (paging_enabled s) (paging_bytes_mapped s) (kernel_pdpt s) (kernel_pd0 s) (tlb s).
Definition set_tlb (s : paging) (l : list tlb_op) : paging :=
  Paging (frames s) (words s) (early_pd_next s) (early_pdpt_used s) (kernel_pml4 s)
    (current_pml4 s) (paging_enabled s) (paging_bytes_mapped s) (kernel_pdpt s) (kernel_pd0 s) l.
Definition set_current (s : paging) (p : Z) : paging :=
  Paging (frames s) (words s) (early_pd_next s) (early_pdpt_used s) (kernel_pml4 s) p
    (paging_enabled s) (paging_bytes_mapped s) (kernel_pdpt s) (kernel_pd0 s)
    (tlb s ++ [LoadCr3 p]).

(** [table[index]] *)
Definition rd (s : paging) (table index : Z) : Z := sget (words s) (table + 8 * index).
Definition wr (s : paging) (table index v : Z) : paging :=
  set_words s (sset (words s) (table + 8 * index) v).

Definition alloc (s : paging) : paging * Z :=
  let '(f, a) := physmem_alloc_frame (frames s) in (set_frames s f, a).
Definition free (s : paging) (a : Z) : paging :=
  set_frames s (physmem_free_frame (frames s) (u32 a)).

Definition bit (e flag : Z) : bool := negb (Z.land e flag =? 0).

Definition paging_invalidate_page (s : paging) (address : Z) : paging :=
  set_tlb s (tlb s ++ [Invlpg address]).

Definition align_down64 (value alignment : Z) : Z :=
  Z.land value (u64 (Z.lnot (alignment - 1))).

Definition phys_to_virt (phys : Z) : Z := Z.land phys PG_ADDR_MASK.

Definition entry_subtable (entry : Z) : Z :=
  if negb (bit entry PG_PRESENT) then 0 else phys_to_virt entry.

(** [for (i = 0; i < 512; i++) table[i] = v] and [dst[i] = src[i]] *)
Definition fill_table (s : paging) (table v : Z) : paging :=
  for_loop (fun i t => wr t table i v) 512 0 s.
Definition copy_table (s : paging) (dst src : Z) : paging :=
  for_loop (fun i t => wr t dst i (rd t src i)) 512 0 s.

(** * Early mapping *)

Section boot.
Context {BT : BootTables}.

Definition early_alloc_pd (s : paging) : paging * option Z :=
  if EARLY_EXTRA_PD_MAX <=? early_pd_next s then (s, None)
  else
    let pd := early_extra_pds + early_pd_next s * ENTRIES_PER_TABLE * 8 in
    let s := fill_table s pd 0 in
    (set_early s (early_pd_next s + 1) (early_pdpt_used s), Some pd).

(** The page directory for the 2 MB page of [addr], created when missing;
    [None] is the early return when the spare tables are used up. *)
Definition early_pdpt_for (s : paging) (addr : Z) : paging * option Z :=
  let pml4_idx := Z.land (Z.shiftr addr 39) 511 in
  let e := rd s boot_pml4 pml4_idx in
  if bit e PG_PRESENT then (s, Some (Z.land e PG_ADDR_MASK))
  else if early_pdpt_used s then (s, None)
  else
    let pdpt := early_extra_pdpt in
    let s := fill_table s pdpt 0 in
    let s := set_early s (early_pd_next s) true in
    (wr s boot_pml4 pml4_idx (Z.lor (Z.lor pdpt PG_PRESENT) PG_WRITABLE), Some pdpt).

Definition early_pd_for (s : paging) (addr : Z) : paging * option Z :=
  let pdpt_idx := Z.land (Z.shiftr addr 30) 511 in
  match early_pdpt_for s addr with
  | (s, None) => (s, None)
  | (s, Some pdpt) =>
      let e := rd s pdpt pdpt_idx in
      if bit e PG_PRESENT then (s, Some (Z.land e PG_ADDR_MASK))
      else
        match early_alloc_pd s with
        | (s, None) => (s, None)
        | (s, Some pd) => (wr s pdpt pdpt_idx (Z.lor (Z.lor pd PG_PRESENT) PG_WRITABLE), Some pd)
        end
  end.

(** The loop over the 2 MB pages from [addr]; the flag tells whether it ran to
    its end.  [wc] selects the write-combining variant, which overwrites
    entries that are present. *)
Fixpoint map_early_loop (wc : bool) (n : nat) (addr : Z) (s : paging) : paging * bool :=
  match n with
  | O => (s, true)
  | S n' =>
      match early_pd_for s addr with
      | (s, None) => (s, false)
      | (s, Some pd) =>
          let pd_idx := Z.land (Z.shiftr addr 21) 511 in
          let e := Z.lor (Z.lor (Z.lor addr PG_PRESENT) PG_WRITABLE) PG_PS in
          let s :=
            if wc then wr s pd pd_idx (Z.lor e PG_PWT)
            else if bit (rd s pd pd_idx) PG_PRESENT then s else wr s pd pd_idx e in
          map_early_loop wc n' (addr + PAGE_SIZE_2MB) s
      end
  end.

Definition map_early (wc : bool) (s : paging) (phys_start size : Z) : paging :=
  if size =? 0 then s
  else
    let mask := u64 (Z.lnot (PAGE_SIZE_2MB - 1)) in
    let aligned_start := Z.land phys_start mask in
    let aligned_end := Z.land (u64 (phys_start + size + PAGE_SIZE_2MB - 1)) mask in
    match map_early_loop wc (Z.to_nat ((aligned_end - aligned_start) / PAGE_SIZE_2MB))
            aligned_start s with
    | (s, true) => set_tlb s (tlb s ++ [ReloadCr3])
    | (s, false) => s
    end.

Definition paging_map_region_early (s : paging) (phys_start size : Z) : paging :=
  map_early false s phys_start size.
Definition paging_map_region_early_wc (s : paging) (phys_start size : Z) : paging :=
  map_early true s phys_start size.

(** * Initialisation *)

Definition paging_init (s : paging) : paging :=
  if paging_enabled s then s
  else
    let pdpt := entry_subtable (rd s boot_pml4 0) in
    let pd0 := if pdpt =? 0 then kernel_pd0 s else entry_subtable (rd s pdpt 0) in
    Paging (frames s) (words s) (early_pd_next s) (early_pdpt_used s) boot_pml4 boot_pml4
      true 4294967296 pdpt pd0 (tlb s).

Definition paging_map_mmio (s : paging) (physical_address : Z) : paging * Z :=
  if physical_address <? 4294967296 then (s, 1)
  else (paging_map_region_early s physical_address PAGE_SIZE_2MB, 1).

End boot.

Definition paging_is_enabled (s : paging) : Z := b2z (paging_enabled s).
Definition paging_mapped_bytes (s : paging) : Z := paging_bytes_mapped s.
Definition paging_user_base : Z := PAGING_USER_BASE.
Definition paging_user_size : Z := PAGING_USER_SIZE.
Definition paging_kernel_directory (s : paging) : Z := kernel_pml4 s.

(** * Address validation *)

Definition paging_address_is_user_accessible (address size : Z) : bool :=
  if size =? 0 then false
  else
    let end_ := u64 (address + size) in
    if end_ <? address then false
    else (PAGING_USER_BASE <=? address) && (end_ <=? PAGING_USER_BASE + PAGING_USER_SIZE).

Definition in_user_range (address : Z) : bool :=
  negb ((address <? PAGING_USER_BASE) || (PAGING_USER_BASE + PAGING_USER_SIZE <=? address)).

Definition page_is_user_accessible (s : paging) (pml4 address : Z) : bool :=
  if pml4 =? 0 then false
  else if negb (in_user_range address) then false
  else
    let e := rd s pml4 (PML4_IDX address) in
    if negb (bit e PG_PRESENT) || negb (bit e PG_USER) then false
    else
      let e := rd s (phys_to_virt e) (PDPT_IDX address) in
      if negb (bit e PG_PRESENT) || negb (bit e PG_USER) then false
      else
        let e := rd s (phys_to_virt e) (PD_IDX address) in
        if negb (bit e PG_PRESENT) || negb (bit e PG_USER) then false
        else if bit e PG_PS then true
        else
          let e := rd s (phys_to_virt e) (PT_IDX address) in
          bit e PG_PRESENT && bit e PG_USER.

(** [while (cursor < end)]; [None] is running out of fuel. *)
Fixpoint buffer_loop (fuel : nat) (s : paging) (pml4 cursor end_ : Z) : option bool :=
  match fuel with
  | O => None
  | S fuel' =>
      if cursor <? end_ then
        if negb (page_is_user_accessible s pml4 cursor) then Some false
        else buffer_loop fuel' s pml4 (u64 (cursor + PAGING_PAGE_SIZE)) end_
      else Some true
  end.

Definition paging_directory_user_buffer_is_accessible (s : paging) (pml4 address size : Z)
    : option bool :=
  if negb (paging_address_is_user_accessible address size) then Some false
  else
    buffer_loop (Z.to_nat (PAGING_USER_SIZE / PAGING_PAGE_SIZE) + 2) s pml4
      (align_down64 address PAGING_PAGE_SIZE) (u64 (address + size)).

Definition paging_user_buffer_is_accessible (s : paging) (buffer size : Z) : option bool :=
  if buffer =? 0 then Some false
  else paging_directory_user_buffer_is_accessible s (current_pml4 s) buffer size.

(** The string is read through the current address space: [text] gives the
    byte at an address, and [None] where the access faults. *)
Fixpoint string_loop (n : nat) (text : Z -> option Z) (address i : Z) : option bool :=
  match n with
  | O => Some false
  | S n' =>
      if negb (paging_address_is_user_accessible (u64 (address + i)) 1) then Some false
      else
        match text (address + i) with
        | None => None
        | Some c => if c =? 0 then Some true else string_loop n' text address (i + 1)
        end
  end.

Definition paging_user_string_is_accessible (text : Z -> option Z) (address max_length : Z)
    : option bool :=
  if (address =? 0) || (max_length =? 0) then Some false
  else if negb (paging_address_is_user_accessible address 1) then Some false
  else string_loop (Z.to_nat max_length) text address 0.

(** * User page tables *)

Definition user_pt_for (s : paging) (pml4 va : Z) : Z :=
  if pml4 =? 0 then 0
  else
    let e := rd s pml4 (PML4_IDX va) in
    if negb (bit e PG_PRESENT) then 0
    else
      let e := rd s (phys_to_virt e) (PDPT_IDX va) in
      if negb (bit e PG_PRESENT) then 0
      else
        let e := rd s (phys_to_virt e) (PD_IDX va) in
        if negb (bit e PG_PRESENT) || bit e PG_PS then 0 else phys_to_virt e.

(** [table_phys | PG_PRESENT | PG_WRITABLE | PG_USER] *)
Definition user_entry (a : Z) : Z := Z.lor (Z.lor (Z.lor a PG_PRESENT) PG_WRITABLE) PG_USER.

(** The frames in [l] that are not 0 go back to the allocator. *)
Definition free_nonzero (s : paging) (l : list Z) : paging :=
  foldl (fun s a => if a =? 0 then s else free s a) s l.

(** Step 4 of [paging_create_user_directory]: the page at [page] of the region. *)
Definition fill_user_page (user_physical_base pt0 pt1 page : Z) (s : paging) : paging :=
  let va := PAGING_USER_BASE + page * PAGING_PAGE_SIZE in
  let pa := user_physical_base + page * PAGING_PAGE_SIZE in
  if va =? PAGING_USER_STACK_GUARD_BASE then s
  else if ENTRIES_PER_TABLE <=? page
  then wr s pt1 (page - ENTRIES_PER_TABLE) (user_entry pa)
  else wr s pt0 page (user_entry pa).

(** Steps 1 to 4 of [paging_create_user_directory]. *)
Definition build_directory (s : paging) (user_physical_base new_pml4 new_pdpt new_pd pt0 pt1 : Z)
    : paging :=
  let s := copy_table s new_pml4 (kernel_pml4 s) in
  let s := wr s new_pml4 0 (user_entry new_pdpt) in
  let s := copy_table s new_pdpt (kernel_pdpt s) in
  let s := wr s new_pdpt 0 (user_entry new_pd) in
  let s := copy_table s new_pd (kernel_pd0 s) in
  let s := wr s new_pd USER_PD_START (user_entry pt0) in
  let s := wr s new_pd (USER_PD_START + 1) (user_entry pt1) in
  let s := fill_table s pt0 0 in
  let s := fill_table s pt1 0 in
  for_loop (fill_user_page user_physical_base pt0 pt1)
    (Z.to_nat (PAGING_USER_SIZE / PAGING_PAGE_SIZE)) 0 s.

Definition paging_create_user_directory (s : paging) (user_physical_base : Z) : paging * Z :=
  if (kernel_pml4 s =? 0) || (kernel_pdpt s =? 0) || (kernel_pd0 s =? 0) then (s, 0)
  else
    let '(s, pml4_phys) := alloc s in
    let '(s, pdpt_phys) := alloc s in
    let '(s, pd_phys) := alloc s in
    let '(s, pt0_phys) := alloc s in
    let '(s, pt1_phys) := alloc s in
    if (pml4_phys =? 0) || (pdpt_phys =? 0) || (pd_phys =? 0) || (pt0_phys =? 0) || (pt1_phys =? 0)
    then (free_nonzero s [pml4_phys; pdpt_phys; pd_phys; pt0_phys; pt1_phys], 0)
    else
      let s := build_directory s user_physical_base pml4_phys pdpt_phys pd_phys pt0_phys pt1_phys in
      (s, pml4_phys).

Definition paging_map_user_page (s : paging) (pml4 virtual_address physical_address : Z)
    (writable : bool) : paging * Z :=
  if (pml4 =? 0) || (virtual_address <? PAGING_USER_BASE) ||
     (PAGING_USER_BASE + PAGING_USER_SIZE <=? virtual_address) ||
     negb (virtual_address mod PAGING_PAGE_SIZE =? 0) ||
     (physical_address =? 0) || negb (physical_address mod PAGING_PAGE_SIZE =? 0)
  then (s, 0)
  else
    let pt := user_pt_for s pml4 virtual_address in
    if pt =? 0 then (s, 0)
    else
      let flags := Z.lor (Z.lor PG_PRESENT PG_USER) (if writable then PG_WRITABLE else 0) in
      let s := wr s pt (PT_IDX virtual_address) (Z.lor physical_address flags) in
      let s := if current_pml4 s =? pml4 then paging_invalidate_page s virtual_address else s in
      (s, 1).

Definition paging_unmap_user_page (s : paging) (pml4 virtual_address : Z) : paging * Z :=
  if (pml4 =? 0) || (virtual_address <? PAGING_USER_BASE) ||
     (PAGING_USER_BASE + PAGING_USER_SIZE <=? virtual_address) ||
     negb (virtual_address mod PAGING_PAGE_SIZE =? 0)
  then (s, 0)
  else
    let pt := user_pt_for s pml4 virtual_address in
    if pt =? 0 then (s, 0)
    else
      let s := wr s pt (PT_IDX virtual_address) 0 in
      let s := if current_pml4 s =? pml4 then paging_invalidate_page s virtual_address else s in
      (s, 1).

Definition paging_lookup_user_page (s : paging) (pml4 virtual_address : Z) : Z :=
  if (pml4 =? 0) || (virtual_address <? PAGING_USER_BASE) ||
     (PAGING_USER_BASE + PAGING_USER_SIZE <=? virtual_address)
  then 0
  else
    let pt := user_pt_for s pml4 virtual_address in
    if pt =? 0 then 0
    else
      let pte := rd s pt (PT_IDX virtual_address) in
      if negb (bit pte PG_PRESENT) then 0 else Z.land pte PG_ADDR_MASK.

(** * Destruction and switching *)

Definition free_user_pts (s : paging) (pml4 : Z) : paging :=
  let e := rd s pml4 0 in
  if negb (bit e PG_PRESENT) then s
  else
    let pdpt := phys_to_virt e in
    let e := rd s pdpt 0 in
    let s :=
      if negb (bit e PG_PRESENT) then s
      else
        let pd := phys_to_virt e in
        let s := for_loop (fun i t =>
                   let pde := rd t pd (USER_PD_START + i) in
                   if bit pde PG_PRESENT && negb (bit pde PG_PS)
                   then free t (Z.land pde PG_ADDR_MASK) else t)
                   (Z.to_nat USER_PD_COUNT) 0 s in
        free s (Z.land (rd s pdpt 0) PG_ADDR_MASK) in
    free s (Z.land (rd s pml4 0) PG_ADDR_MASK).

Definition paging_destroy_user_directory (s : paging) (pml4 : Z) : paging :=
  if (pml4 =? 0) || (pml4 =? kernel_pml4 s) then s
  else free (free_user_pts s pml4) pml4.

Definition paging_switch_directory (s : paging) (pml4 : Z) : paging :=
  let pml4 := if pml4 =? 0 then kernel_pml4 s else pml4 in
  if current_pml4 s =? pml4 then s else set_current s pml4.

(** * Copy on write *)

(** One entry of a page table of the parent: [page] is its number in the user
    region. *)
Definition clone_page (parent_pml4 parent_pt child_pt ti p : Z) (s : paging) : paging :=
  let pte := rd s parent_pt p in
  if negb (bit pte PG_PRESENT) then wr s child_pt p 0
  else
    let va := PAGING_USER_BASE + (ti * ENTRIES_PER_TABLE + p) * PAGING_PAGE_SIZE in
    if (PAGING_USER_SHM_BASE <=? va) && (va <? PAGING_USER_STACK_GUARD_BASE)
    then wr s child_pt p 0
    else
      let phys := Z.land pte PG_ADDR_MASK in
      let cow_flags := Z.lor (Z.lor (Z.lor phys PG_PRESENT) PG_USER) PG_COW in
      let s := wr s parent_pt p cow_flags in
      let s := wr s child_pt p cow_flags in
      let s := set_frames s (physmem_ref_frame (frames s) (u32 phys)) in
      if current_pml4 s =? parent_pml4 then paging_invalidate_page s va else s.

(** The loop over the two page tables; [None] is the failure of an allocation,
    with what was allocated given back. *)
Fixpoint clone_tables (n : nat) (ti : Z) (parent_pml4 parent_pd pml4 pdpt pd : Z) (s : paging)
    : paging * bool :=
  match n with
  | O => (s, true)
  | S n' =>
      let parent_pde := rd s parent_pd (USER_PD_START + ti) in
      if negb (bit parent_pde PG_PRESENT) || bit parent_pde PG_PS then
        clone_tables n' (ti + 1) parent_pml4 parent_pd pml4 pdpt pd (wr s pd (USER_PD_START + ti) 0)
      else
        let parent_pt := phys_to_virt parent_pde in
        let '(s, child_pt) := alloc s in
        if child_pt =? 0 then
          let s := for_loop (fun j t =>
                     let e := rd t pd (USER_PD_START + j) in
                     if bit e PG_PRESENT then free t (Z.land e PG_ADDR_MASK) else t)
                     (Z.to_nat ti) 0 s in
          (free (free (free s pd) pdpt) pml4, false)
        else
          let s := for_loop (clone_page parent_pml4 parent_pt child_pt ti) 512 0 s in
          clone_tables n' (ti + 1) parent_pml4 parent_pd pml4 pdpt pd
            (wr s pd (USER_PD_START + ti) (user_entry child_pt))
  end.

(** The copies of the parent's upper tables. *)
Definition clone_upper (s : paging) (parent_pml4 parent_pdpt parent_pd pml4_phys pdpt_phys pd_phys : Z)
    : paging :=
  let s := copy_table s pml4_phys parent_pml4 in
  let s := wr s pml4_phys 0 (user_entry pdpt_phys) in
  let s := copy_table s pdpt_phys parent_pdpt in
  let s := wr s pdpt_phys 0 (user_entry pd_phys) in
  copy_table s pd_phys parent_pd.

Definition paging_cow_clone_user_directory (s : paging) (parent_pml4 : Z) : paging * Z :=
  if (parent_pml4 =? 0) || (kernel_pml4 s =? 0) then (s, 0)
  else
    let parent_pdpt := entry_subtable (rd s parent_pml4 0) in
    if parent_pdpt =? 0 then (s, 0)
    else
      let parent_pd := entry_subtable (rd s parent_pdpt 0) in
      if parent_pd =? 0 then (s, 0)
      else
        let '(s, pml4_phys) := alloc s in
        let '(s, pdpt_phys) := alloc s in
        let '(s, pd_phys) := alloc s in
        if (pml4_phys =? 0) || (pdpt_phys =? 0) || (pd_phys =? 0)
        then (free_nonzero s [pml4_phys; pdpt_phys; pd_phys], 0)
        else
          let s := clone_upper s parent_pml4 parent_pdpt parent_pd pml4_phys pdpt_phys pd_phys in
          match clone_tables (Z.to_nat USER_PD_COUNT) 0 parent_pml4 parent_pd
                  pml4_phys pdpt_phys pd_phys s with
          | (s, true) => (s, pml4_phys)
          | (s, false) => (s, 0)
          end.

Definition release_page (pt p : Z) (s : paging) : paging :=
  let pte := rd s pt p in
  if negb (bit pte PG_PRESENT) then s
  else
    wr (set_frames s (physmem_unref_frame (frames s) (u32 (Z.land pte PG_ADDR_MASK)))) pt p 0.

Definition paging_release_user_pages (s : paging) (pml4 : Z) : paging :=
  if pml4 =? 0 then s
  else
    for_loop (fun ti s =>
      let pt := user_pt_for s pml4 (PAGING_USER_BASE + ti * ENTRIES_PER_TABLE * PAGING_PAGE_SIZE) in
      if pt =? 0 then s else for_loop (release_page pt) 512 0 s)
      (Z.to_nat USER_PD_COUNT) 0 s.

Definition paging_cow_resolve (s : paging) (pml4 fault_address : Z) : paging * Z :=
  if pml4 =? 0 then (s, 0)
  else
    let page_addr := align_down64 fault_address PAGING_PAGE_SIZE in
    if (page_addr <? PAGING_USER_BASE) || (PAGING_USER_BASE + PAGING_USER_SIZE <=? page_addr)
    then (s, 0)
    else
      let pt := user_pt_for s pml4 page_addr in
      if pt =? 0 then (s, 0)
      else
        let pte := rd s pt (PT_IDX page_addr) in
        if negb (bit pte PG_PRESENT) || negb (bit pte PG_COW) then (s, 0)
        else
          let old_phys := u32 (Z.land pte PG_ADDR_MASK) in
          if physmem_frame_refcount (frames s) old_phys =? 1 then
            let s := wr s pt (PT_IDX page_addr) (user_entry old_phys) in
            (paging_invalidate_page s page_addr, 1)
          else
            let '(s, new_phys) := alloc s in
            if new_phys =? 0 then (s, 0)
            else
              let s := copy_table s new_phys old_phys in
              let s := set_frames s (physmem_unref_frame (frames s) old_phys) in
              let s := wr s pt (PT_IDX page_addr) (user_entry new_phys) in
              (paging_invalidate_page s page_addr, 1).

(** * Page table entries *)

Definition tab (t : Z) : Prop := t mod 4096 = 0 /\ 0 < t < 4294967296.
Definition idx (i : Z) : Prop := 0 <= i < 512.

Lemma low_bits_clear a n : a mod 4096 = 0 -> 0 <= n < 12 -> Z.testbit a n = false.
Proof.
  intros Ha Hn. rewrite <- (Z.mod_pow2_bits_low a 12) by lia.
  change (2 ^ 12) with 4096. rewrite Ha. apply Z.testbit_0_l.
Qed.

Lemma high_bits_clear a k n : 0 <= a < 2 ^ k -> 0 <= k <= n -> Z.testbit a n = false.
Proof.
  intros Ha Hn. rewrite <- (Z.mod_small a (2 ^ k)) by lia. apply Z.mod_pow2_bits_high. lia.
Qed.

Lemma addr_mask_bits n : 0 <= n -> Z.testbit PG_ADDR_MASK n = (12 <=? n) && (n <? 52).
Proof.
  intros Hn. change PG_ADDR_MASK with (Z.shiftl (Z.ones 40) 12).
  rewrite Z.shiftl_spec by lia. rewrite Z.testbit_ones by lia.
  destruct (Z.leb_spec 12 n), (Z.ltb_spec n 52), (Z.leb_spec 0 (n - 12)), (Z.ltb_spec (n - 12) 40);
    simpl; lia.
Qed.

Lemma entry_addr a f :
  a mod 4096 = 0 -> 0 <= a < 2 ^ 52 -> 0 <= f < 4096 -> Z.land (Z.lor a f) PG_ADDR_MASK = a.
Proof.
  intros Hm Ha Hf. apply Z.bits_inj'. intros n Hn.
  rewrite Z.land_spec, Z.lor_spec, addr_mask_bits by lia.
  destruct (Z.leb_spec 12 n) as [H12|H12]; simpl.
  - rewrite (high_bits_clear f 12 n) by (change (2 ^ 12) with 4096; lia).
    destruct (Z.ltb_spec n 52); simpl; [by rewrite orb_false_r, andb_true_r|].
    rewrite (high_bits_clear a 52 n) by lia. done.
  - rewrite (low_bits_clear a n) by lia. by rewrite andb_false_r.
Qed.

Lemma entry_bit a f k :
  a mod 4096 = 0 -> 0 <= k < 4096 -> bit (Z.lor a f) k = bit f k.
Proof.
  intros Hm Hk. unfold bit. do 2 f_equal. apply Z.bits_inj'. intros n Hn.
  rewrite !Z.land_spec, Z.lor_spec.
  destruct (Z.lt_ge_cases n 12).
  - by rewrite (low_bits_clear a n) by lia.
  - rewrite (high_bits_clear k 12 n) by (change (2 ^ 12) with 4096; lia). by rewrite !andb_false_r.
Qed.

Lemma user_entry_lor a : user_entry a = Z.lor a 7.
Proof. unfold user_entry. by rewrite <- !Z.lor_assoc. Qed.

Lemma tab_range t : tab t -> t mod 4096 = 0 /\ 0 <= t < 2 ^ 52.
Proof. intros [? ?]. split; [done|]. change (2 ^ 52) with 4503599627370496. lia. Qed.

Lemma user_entry_addr t : tab t -> Z.land (user_entry t) PG_ADDR_MASK = t.
Proof. intros H%tab_range. rewrite user_entry_lor. apply entry_addr; [tauto..|lia]. Qed.

Lemma user_entry_bit t k : tab t -> 0 <= k < 4096 -> bit (user_entry t) k = bit 7 k.
Proof. intros H%tab_range ?. rewrite user_entry_lor. apply entry_bit; [tauto|lia]. Qed.

(** * Words *)

Lemma rd_wr s t i v t' i' :
  rd (wr s t i v) t' i' = if decide (t + 8 * i = t' + 8 * i') then v else rd s t' i'.
Proof. unfold rd, wr. simpl. apply sget_sset. Qed.

Lemma word_inj t i t' i' :
  t mod 4096 = 0 -> t' mod 4096 = 0 -> idx i -> idx i' -> t + 8 * i = t' + 8 * i' ->
  t = t' /\ i = i'.
Proof. unfold idx. intros. zlia. Qed.

Lemma rd_wr_eq s t i v : rd (wr s t i v) t i = v.
Proof. rewrite rd_wr. by rewrite decide_True. Qed.

Lemma rd_wr_tab s t i v t' i' :
  t mod 4096 = 0 -> t' mod 4096 = 0 -> idx i -> idx i' ->
  rd (wr s t i v) t' i' = if decide (t = t' /\ i = i') then v else rd s t' i'.
Proof.
  intros Ht Ht' Hi Hi'. rewrite rd_wr. destruct (decide (t = t' /\ i = i')) as [[-> ->]|Hn].
  - by rewrite decide_True.
  - rewrite decide_False; [done|]. intros E. apply Hn. by apply word_inj.
Qed.

(** [s'] differs from [s] in its words only. *)
Definition same_but_words (s s' : paging) : Prop := s' = set_words s (words s').

Lemma sbw_refl s : same_but_words s s.
Proof. by destruct s. Qed.

Lemma sbw_wr s s' t i v : same_but_words s s' -> same_but_words s (wr s' t i v).
Proof. unfold same_but_words. intros ->. done. Qed.

Lemma sbw_trans s t u : same_but_words s t -> same_but_words t u -> same_but_words s u.
Proof. unfold same_but_words. intros -> ->. done. Qed.

Lemma sbw_for s f n lo :
  (forall j t, same_but_words s t -> same_but_words s (f j t)) ->
  same_but_words s (for_loop f n lo s).
Proof.
  intros Hf. apply (for_loop_ind (fun _ t => same_but_words s t)); [apply sbw_refl|]. auto.
Qed.

Lemma sbw_fill s t v : same_but_words s (fill_table s t v).
Proof. apply sbw_for. intros. by apply sbw_wr. Qed.

Lemma sbw_copy s d t : same_but_words s (copy_table s d t).
Proof. apply sbw_for. intros. by apply sbw_wr. Qed.

#[export] Hint Resolve sbw_refl sbw_wr sbw_fill sbw_copy : lyth.

Lemma fill_table_rd s t v t' i' :
  t mod 4096 = 0 -> t' mod 4096 = 0 -> idx i' ->
  rd (fill_table s t v) t' i' = if decide (t = t') then v else rd s t' i'.
Proof.
  intros Ht Ht' Hi'. unfold fill_table.
  pose (I := fun (k : Z) (u : paging) =>
    rd u t' i' = if decide (t = t' /\ i' < k) then v else rd s t' i').
  enough (I (0 + Z.of_nat 512) (for_loop (fun i u => wr u t i v) 512 0 s)) as HI.
  { unfold I in HI. rewrite HI. unfold idx in *. repeat case_decide; try done; lia. }
  apply (for_loop_ind I); unfold I.
  - rewrite decide_False; [done|]. unfold idx in *. lia.
  - intros j u Hj Hu. rewrite rd_wr_tab by (unfold idx in *; lia).
    rewrite Hu. unfold idx in *. repeat case_decide; try done; lia.
Qed.

Lemma copy_table_rd s dst src t' i' :
  dst mod 4096 = 0 -> src mod 4096 = 0 -> dst <> src -> t' mod 4096 = 0 -> idx i' ->
  rd (copy_table s dst src) t' i' = if decide (dst = t') then rd s src i' else rd s t' i'.
Proof.
  intros Hd Hs Hne Ht' Hi'. unfold copy_table.
  pose (I := fun (k : Z) (u : paging) => forall t i, t mod 4096 = 0 -> idx i ->
    rd u t i = if decide (dst = t /\ i < k) then rd s src i else rd s t i).
  enough (I (0 + Z.of_nat 512) (for_loop (fun i u => wr u dst i (rd u src i)) 512 0 s)) as HI.
  { unfold I in HI. rewrite HI by done. unfold idx in *. repeat case_decide; try done; lia. }
  apply (for_loop_ind I); unfold I.
  - intros t i Ht Hi. rewrite decide_False; [done|]. unfold idx in *. lia.
  - intros j u Hj Hu t i Ht Hi. rewrite rd_wr_tab by (unfold idx in *; lia).
    rewrite !Hu by (unfold idx in *; lia). unfold idx in *.
    repeat case_decide; destruct_and?; subst; try done; try lia.
Qed.

(** * Directories *)

Record dirt := Dirt { d_pml4 : Z; d_pdpt : Z; d_pd : Z; d_pt0 : Z; d_pt1 : Z }.

Definition tables (d : dirt) : list Z := [d_pml4 d; d_pdpt d; d_pd d; d_pt0 d; d_pt1 d].
Definition d_pt (d : dirt) (p : Z) : Z := if p <? 512 then d_pt0 d else d_pt1 d.

(** The entry of page [p] of the user region. *)
Definition pte (s : paging) (d : dirt) (p : Z) : Z := rd s (d_pt d p) (p mod 512).

Definition page_no (va : Z) : Z := (va - PAGING_USER_BASE) / 4096.
Definition upage (p : Z) : Prop := 0 <= p < 1024.

(** The tables of a process and the entries that link them. *)
Record dir_ok (s : paging) (d : dirt) : Prop := DirOk {
  dk_tab : Forall tab (tables d);
  dk_nodup : NoDup (tables d);
  dk_pml4 : rd s (d_pml4 d) 0 = user_entry (d_pdpt d);
  dk_pdpt : rd s (d_pdpt d) 0 = user_entry (d_pd d);
  dk_pd0 : rd s (d_pd d) 8 = user_entry (d_pt0 d);
  dk_pd1 : rd s (d_pd d) 9 = user_entry (d_pt1 d);
}.

Lemma dk_tabs s d : dir_ok s d ->
  tab (d_pml4 d) /\ tab (d_pdpt d) /\ tab (d_pd d) /\ tab (d_pt0 d) /\ tab (d_pt1 d).
Proof. intros [H _ _ _ _ _]. unfold tables in H. rewrite !Forall_cons in H. tauto. Qed.

Lemma d_pt_tab s d p : dir_ok s d -> tab (d_pt d p).
Proof. intros (_ & _ & _ & ? & ?)%dk_tabs. unfold d_pt. by case_if. Qed.

Lemma in_range_iff va : in_user_range va = true <-> 16777216 <= va < 20971520.
Proof.
  unfold in_user_range. rewrite negb_true_iff, orb_false_iff, Z.ltb_ge, Z.leb_gt.
  unfold PAGING_USER_BASE, PAGING_USER_SIZE. lia.
Qed.

Lemma in_range_page va :
  in_user_range va = true -> upage (page_no va) /\ va = PAGING_USER_BASE + 4096 * page_no va + va mod 4096.
Proof. rewrite in_range_iff. unfold upage, page_no, PAGING_USER_BASE. intros. zlia. Qed.

Lemma land511 x : Z.land x 511 = x mod 512.
Proof. change 511 with (Z.ones 9). rewrite Z.land_ones by lia. done. Qed.

Lemma shiftr_div a k m : 0 <= k -> 2 ^ k = m -> Z.shiftr a k = a / m.
Proof. intros ? <-. by apply Z.shiftr_div_pow2. Qed.

Lemma user_idx va :
  in_user_range va = true ->
  PML4_IDX va = 0 /\ PDPT_IDX va = 0 /\ PD_IDX va = 8 + page_no va / 512 /\
  PT_IDX va = page_no va mod 512.
Proof.
  intros Hr. destruct (in_range_page _ Hr) as [Hp Hva].
  assert (va / 4096 = 4096 + page_no va) as E.
  { unfold PAGING_USER_BASE in Hva. generalize dependent (page_no va). intros. clear Hr. zlia. }
  assert (0 <= va < 1073741824) as Hb.
  { apply in_range_iff in Hr. lia. }
  unfold PML4_IDX, PDPT_IDX, PD_IDX, PT_IDX. rewrite !land511.
  rewrite (shiftr_div va 39 549755813888), (shiftr_div va 30 1073741824) by done.
  rewrite (shiftr_div va 21 (4096 * 512)), (shiftr_div va 12 4096) by done.
  rewrite !(Z.div_small va) by lia. rewrite <- Z.div_div, E by lia.
  generalize dependent (page_no va). intros q Hq _ _. clear Hr Hb. unfold upage in Hq.
  split_and!; [done|done|zlia|zlia].
Qed.

Lemma user_pt_for_dir s d va :
  dir_ok s d -> in_user_range va = true ->
  user_pt_for s (d_pml4 d) va = d_pt d (page_no va).
Proof.
  intros Hd Hr. destruct (user_idx _ Hr) as (E1 & E2 & E3 & _).
  destruct (in_range_page _ Hr) as [Hp _]. destruct (dk_tabs _ _ Hd) as (T1 & T2 & T3 & T4 & T5).
  unfold user_pt_for. rewrite E1, E2, E3. rewrite (proj2 (Z.eqb_neq _ _)) by (unfold tab in *; lia).
  rewrite (dk_pml4 _ _ Hd), user_entry_bit by (done || unfold PG_PRESENT; lia).
  change (bit 7 PG_PRESENT) with true. simpl. unfold phys_to_virt. rewrite user_entry_addr by done.
  rewrite (dk_pdpt _ _ Hd), user_entry_bit by (done || unfold PG_PRESENT; lia).
  change (bit 7 PG_PRESENT) with true. simpl. rewrite user_entry_addr by done.
  unfold d_pt, upage in *. destruct (Z.ltb_spec (page_no va) 512).
  - replace (8 + page_no va / 512) with 8 by zlia. rewrite (dk_pd0 _ _ Hd).
    rewrite !user_entry_bit by (done || (unfold PG_PRESENT, PG_PS; lia)). simpl.
    by rewrite user_entry_addr.
  - replace (8 + page_no va / 512) with 9 by zlia. rewrite (dk_pd1 _ _ Hd).
    rewrite !user_entry_bit by (done || (unfold PG_PRESENT, PG_PS; lia)). simpl.
    by rewrite user_entry_addr.
Qed.

Lemma dir_ok_ext s s' d :
  dir_ok s d ->
  (forall t i, t ∈ [d_pml4 d; d_pdpt d; d_pd d] -> idx i -> rd s' t i = rd s t i) ->
  dir_ok s' d.
Proof.
  intros [H1 H2 H3 H4 H5 H6] E. split; [done|done|..]; rewrite E by (set_solver || (unfold idx; lia));
    done.
Qed.

Lemma pt_not_upper s d p : dir_ok s d -> d_pt d p ∉ [d_pml4 d; d_pdpt d; d_pd d].
Proof.
  intros Hd. pose proof (dk_nodup _ _ Hd) as Hn. unfold tables in Hn.
  rewrite !NoDup_cons in Hn. unfold d_pt. case_if; set_solver.
Qed.

Lemma upper_tab s d t : dir_ok s d -> t ∈ [d_pml4 d; d_pdpt d; d_pd d] -> tab t.
Proof. intros (? & ? & ? & _)%dk_tabs Ht. rewrite !elem_of_cons in Ht. set_solver. Qed.

(** Two pages of a directory have different entries. *)
Lemma slot_inj s d p q :
  dir_ok s d -> upage p -> upage q -> d_pt d p = d_pt d q -> p mod 512 = q mod 512 -> p = q.
Proof.
  intros Hd Hp Hq E1 E2. pose proof (dk_nodup _ _ Hd) as Hn. unfold tables in Hn.
  rewrite !NoDup_cons in Hn. assert (d_pt0 d <> d_pt1 d) as Hne by set_solver.
  unfold d_pt, upage in *. destruct (Z.ltb_spec p 512), (Z.ltb_spec q 512);
    congruence || zlia.
Qed.

Lemma slot_idx p : idx (p mod 512).
Proof. unfold idx. zlia. Qed.
#[export] Hint Resolve slot_idx : lyth.

Lemma tab_mod t : tab t -> t mod 4096 = 0.
Proof. by intros [? _]. Qed.
#[export] Hint Resolve tab_mod : lyth.

(** A write of the entry of page [p]. *)
Lemma pte_wr s d p v q :
  dir_ok s d -> upage p -> upage q ->
  pte (wr s (d_pt d p) (p mod 512) v) d q = if decide (p = q) then v else pte s d q.
Proof.
  intros Hd Hp Hq. unfold pte. pose proof (d_pt_tab s d p Hd). pose proof (d_pt_tab s d q Hd).
  rewrite rd_wr_tab by eauto with lyth. destruct (decide (p = q)) as [->|Hne].
  - by rewrite decide_True.
  - rewrite decide_False; [done|]. intros [E1 E2]. apply Hne. by apply (slot_inj s d).
Qed.

Lemma dir_ok_wr s d p v : dir_ok s d -> dir_ok (wr s (d_pt d p) (p mod 512) v) d.
Proof.
  intros Hd. apply (dir_ok_ext s); [done|]. intros t i Ht Hi.
  pose proof (d_pt_tab s d p Hd). pose proof (upper_tab s d t Hd Ht).
  rewrite rd_wr_tab by eauto with lyth. rewrite decide_False; [done|].
  intros [<- _]. by apply (pt_not_upper s d p Hd).
Qed.

(** Operations that touch neither the words nor the kernel tables. *)
Lemma rd_invalidate s a t i : rd (paging_invalidate_page s a) t i = rd s t i.
Proof. done. Qed.

Lemma pml4_nonzero s d : dir_ok s d -> (d_pml4 d =? 0) = false.
Proof. intros (Ht & _)%dk_tabs. apply Z.eqb_neq. unfold tab in Ht. lia. Qed.

Lemma lookup_dir s d va :
  dir_ok s d -> in_user_range va = true ->
  paging_lookup_user_page s (d_pml4 d) va =
  if bit (pte s d (page_no va)) PG_PRESENT then Z.land (pte s d (page_no va)) PG_ADDR_MASK else 0.
Proof.
  intros Hd Hr. unfold paging_lookup_user_page. rewrite (pml4_nonzero s d Hd).
  pose proof Hr as Hr'. unfold in_user_range in Hr'. apply negb_true_iff in Hr'. rewrite orb_false_l, Hr'.
  rewrite user_pt_for_dir by done. destruct (user_idx _ Hr) as (_ & _ & _ & ->).
  pose proof (d_pt_tab s d (page_no va) Hd) as Ht.
  rewrite (proj2 (Z.eqb_neq (d_pt d _) 0)) by (unfold tab in Ht; lia).
  fold (pte s d (page_no va)). by destruct (bit _ _).
Qed.

Lemma page_accessible_dir s d va :
  dir_ok s d -> in_user_range va = true ->
  page_is_user_accessible s (d_pml4 d) va =
  bit (pte s d (page_no va)) PG_PRESENT && bit (pte s d (page_no va)) PG_USER.
Proof.
  intros Hd Hr. unfold page_is_user_accessible. rewrite (pml4_nonzero s d Hd), Hr. simpl negb.
  destruct (user_idx _ Hr) as (-> & -> & E3 & ->). destruct (in_range_page _ Hr) as [Hp _].
  destruct (dk_tabs _ _ Hd) as (T1 & T2 & T3 & T4 & T5). cbv zeta.
  rewrite (dk_pml4 _ _ Hd), !user_entry_bit by (done || (unfold PG_PRESENT, PG_USER; lia)).
  unfold phys_to_virt. rewrite user_entry_addr by done.
  rewrite (dk_pdpt _ _ Hd), !user_entry_bit by (done || (unfold PG_PRESENT, PG_USER; lia)).
  rewrite user_entry_addr by done.
  assert (rd s (d_pd d) (PD_IDX va) = user_entry (d_pt d (page_no va))) as ->.
  { rewrite E3. unfold d_pt, upage in *. destruct (Z.ltb_spec (page_no va) 512).
    - replace (8 + page_no va / 512) with 8 by zlia. apply (dk_pd0 _ _ Hd).
    - replace (8 + page_no va / 512) with 9 by zlia. apply (dk_pd1 _ _ Hd). }
  pose proof (d_pt_tab s d (page_no va) Hd).
  rewrite !user_entry_bit by (done || (unfold PG_PRESENT, PG_USER, PG_PS; lia)).
  rewrite user_entry_addr by done. done.
Qed.

(** * Mapping single pages *)

(** The invalidation of the page when the directory is the current one. *)
Definition invalidate_if (s : paging) (pml4 va : Z) : paging :=
  if current_pml4 s =? pml4 then paging_invalidate_page s va else s.

Lemma rd_invalidate_if s pml4 va t i : rd (invalidate_if s pml4 va) t i = rd s t i.
Proof. unfold invalidate_if. by case_if. Qed.

Lemma range_guards va :
  in_user_range va = true ->
  (va <? PAGING_USER_BASE) = false /\ (PAGING_USER_BASE + PAGING_USER_SIZE <=? va) = false.
Proof.
  rewrite in_range_iff. intros. rewrite Z.ltb_ge, Z.leb_gt.
  unfold PAGING_USER_BASE, PAGING_USER_SIZE. lia.
Qed.

Definition map_flags (writable : bool) : Z :=
  Z.lor (Z.lor PG_PRESENT PG_USER) (if writable then PG_WRITABLE else 0).

Lemma map_user_page_eq s d va pa w :
  dir_ok s d -> in_user_range va = true -> va mod 4096 = 0 -> pa mod 4096 = 0 -> pa <> 0 ->
  paging_map_user_page s (d_pml4 d) va pa w =
  (invalidate_if (wr s (d_pt d (page_no va)) (page_no va mod 512) (Z.lor pa (map_flags w)))
     (d_pml4 d) va, 1).
Proof.
  intros Hd Hr Hva Hpa Hnz. unfold paging_map_user_page.
  destruct (range_guards _ Hr) as [-> ->]. rewrite (pml4_nonzero s d Hd).
  unfold PAGING_PAGE_SIZE. rewrite Hva, Hpa, (proj2 (Z.eqb_neq pa 0)) by done.
  change (negb (0 =? 0)) with false. cbn [orb]. rewrite user_pt_for_dir by done.
  pose proof (d_pt_tab s d (page_no va) Hd) as Ht.
  rewrite (proj2 (Z.eqb_neq (d_pt d _) 0)) by (unfold tab in Ht; lia).
  destruct (user_idx _ Hr) as (_ & _ & _ & ->). done.
Qed.

Lemma unmap_user_page_eq s d va :
  dir_ok s d -> in_user_range va = true -> va mod 4096 = 0 ->
  paging_unmap_user_page s (d_pml4 d) va =
  (invalidate_if (wr s (d_pt d (page_no va)) (page_no va mod 512) 0) (d_pml4 d) va, 1).
Proof.
  intros Hd Hr Hva. unfold paging_unmap_user_page.
  destruct (range_guards _ Hr) as [-> ->]. rewrite (pml4_nonzero s d Hd).
  unfold PAGING_PAGE_SIZE. rewrite Hva.
  change (negb (0 =? 0)) with false. cbn [orb]. rewrite user_pt_for_dir by done.
  pose proof (d_pt_tab s d (page_no va) Hd) as Ht.
  rewrite (proj2 (Z.eqb_neq (d_pt d _) 0)) by (unfold tab in Ht; lia).
  destruct (user_idx _ Hr) as (_ & _ & _ & ->). done.
Qed.

Lemma dir_ok_invalidate s d pml4 va : dir_ok s d -> dir_ok (invalidate_if s pml4 va) d.
Proof. intros Hd. apply (dir_ok_ext s); [done|]. intros. apply rd_invalidate_if. Qed.

Lemma pte_invalidate s d pml4 va p : pte (invalidate_if s pml4 va) d p = pte s d p.
Proof. apply rd_invalidate_if. Qed.

(** A write to a page table of one directory seen from a directory with other
    tables. *)
Lemma wr_other_dir s d d' p v :
  dir_ok s d -> dir_ok s d' -> tables d ## tables d' ->
  dir_ok (wr s (d_pt d p) (p mod 512) v) d' /\
  forall q, pte (wr s (d_pt d p) (p mod 512) v) d' q = pte s d' q.
Proof.
  intros Hd Hd' Hdis. pose proof (d_pt_tab s d p Hd) as Ht.
  assert (d_pt d p ∈ tables d) as Hin by (unfold d_pt, tables; case_if; set_solver).
  split.
  - apply (dir_ok_ext s); [done|]. intros t i Hu Hi. pose proof (upper_tab s d' t Hd' Hu).
    rewrite rd_wr_tab by eauto with lyth. rewrite decide_False; [done|]. intros [<- _].
    apply (Hdis (d_pt d p)); [done|]. unfold tables. set_solver.
  - intros q. unfold pte. pose proof (d_pt_tab s d' q Hd').
    rewrite rd_wr_tab by eauto with lyth. rewrite decide_False; [done|]. intros [E _].
    apply (Hdis (d_pt d p)); [done|]. rewrite E. unfold d_pt, tables; case_if; set_solver.
Qed.

Lemma map_entry pa w :
  pa mod 4096 = 0 -> 0 <= pa < 2 ^ 52 ->
  bit (Z.lor pa (map_flags w)) PG_PRESENT = true /\
  bit (Z.lor pa (map_flags w)) PG_USER = true /\
  bit (Z.lor pa (map_flags w)) PG_WRITABLE = w /\
  bit (Z.lor pa (map_flags w)) PG_COW = false /\
  Z.land (Z.lor pa (map_flags w)) PG_ADDR_MASK = pa.
Proof.
  intros Hm Hr. rewrite !entry_bit by (done || (unfold PG_PRESENT, PG_USER, PG_WRITABLE, PG_COW; lia)).
  rewrite entry_addr; [by destruct w|done|done|]. by destruct w.
Qed.

(** C16: Mapping a page of a process and unmapping it again: the lookup of every
    address of that page gives the mapped frame and then nothing, the other
    pages of the process and every directory with tables of its own keep their
    translations, and the tables stay linked. *)
Theorem paging_map_unmap_roundtrip s d va pa w :
  dir_ok s d -> in_user_range va = true -> va mod 4096 = 0 ->
  pa mod 4096 = 0 -> 0 < pa < 2 ^ 52 ->
  exists s1 s2,
    paging_map_user_page s (d_pml4 d) va pa w = (s1, 1) /\
    paging_unmap_user_page s1 (d_pml4 d) va = (s2, 1) /\
    dir_ok s1 d /\ dir_ok s2 d /\
    (forall va', in_user_range va' = true ->
       paging_lookup_user_page s1 (d_pml4 d) va' =
         (if decide (page_no va' = page_no va) then pa
          else paging_lookup_user_page s (d_pml4 d) va') /\
       paging_lookup_user_page s2 (d_pml4 d) va' =
         (if decide (page_no va' = page_no va) then 0
          else paging_lookup_user_page s (d_pml4 d) va')) /\
    (forall d' va', dir_ok s d' -> tables d ## tables d' -> in_user_range va' = true ->
       dir_ok s1 d' /\ dir_ok s2 d' /\
       paging_lookup_user_page s1 (d_pml4 d') va' = paging_lookup_user_page s (d_pml4 d') va' /\
       paging_lookup_user_page s2 (d_pml4 d') va' = paging_lookup_user_page s (d_pml4 d') va').
Proof.
  intros Hd Hr Hva Hpa Hrange. pose proof (in_range_page _ Hr) as [Hp _].
  destruct (map_entry pa w Hpa) as (Hpres & _ & _ & _ & Haddr); [lia|].
  set (v := Z.lor pa (map_flags w)) in *.
  pose (s1 := invalidate_if (wr s (d_pt d (page_no va)) (page_no va mod 512) v) (d_pml4 d) va).
  pose (s2 := invalidate_if (wr s1 (d_pt d (page_no va)) (page_no va mod 512) 0) (d_pml4 d) va).
  assert (dir_ok s1 d) as Hd1 by (apply dir_ok_invalidate; by apply dir_ok_wr).
  assert (dir_ok s2 d) as Hd2 by (apply dir_ok_invalidate; by apply dir_ok_wr).
  exists s1, s2. split_and!; [by apply map_user_page_eq; [..|lia]|by apply unmap_user_page_eq|done|done| |].
  - intros va' Hr'. pose proof (in_range_page _ Hr') as [Hp' _].
    rewrite !lookup_dir by done. unfold s2. rewrite pte_invalidate, pte_wr by done.
    unfold s1. rewrite pte_invalidate, pte_wr by done. repeat case_decide; try congruence.
    + rewrite Hpres. done.
    + done.
  - intros d' va' Hd' Hdis Hr'.
    destruct (wr_other_dir s d d' (page_no va) v Hd Hd' Hdis) as [Hok1 Hp1].
    assert (dir_ok s1 d') as Hd1' by by apply dir_ok_invalidate.
    destruct (wr_other_dir s1 d d' (page_no va) 0 Hd1 Hd1' Hdis) as [Hok2 Hp2].
    assert (dir_ok s2 d') as Hd2' by by apply dir_ok_invalidate.
    split_and!; [done|done| |]; rewrite !lookup_dir by done;
      unfold s2; rewrite ?pte_invalidate, ?Hp2; unfold s1; by rewrite pte_invalidate, Hp1.
Qed.

(** * Checks of user buffers *)

Lemma align_down64_page a :
  0 <= a < 2 ^ 64 -> align_down64 a PAGING_PAGE_SIZE = 4096 * (a / 4096).
Proof.
  intros Ha. unfold align_down64, PAGING_PAGE_SIZE. change (u64 (Z.lnot (4096 - 1))) with
    (Z.ldiff (Z.ones 64) (Z.ones 12)).
  rewrite Z.ldiff_land, Z.land_assoc, Z.land_ones, Z.mod_small by lia.
  rewrite <- Z.ldiff_land, Z.ldiff_ones_r by lia.
  rewrite Z.shiftl_mul_pow2, (shiftr_div a 12 4096) by done. lia.
Qed.

(** The address is mapped for the process. *)
Definition user_mapped (s : paging) (d : dirt) (va : Z) : Prop :=
  bit (pte s d (page_no va)) PG_PRESENT = true /\ bit (pte s d (page_no va)) PG_USER = true.

Lemma address_check a n :
  0 <= a < 2 ^ 64 -> 0 <= n < 2 ^ 64 ->
  paging_address_is_user_accessible a n = true <->
  0 < n /\ 16777216 <= a /\ a + n <= 20971520.
Proof.
  intros Ha Hn. unfold paging_address_is_user_accessible, u64.
  change 18446744073709551616 with (2 ^ 64).
  destruct (Z.eqb_spec n 0); [split; [done|lia]|]. cbv zeta.
  destruct (Z.lt_ge_cases (a + n) (2 ^ 64)) as [Hlt|Hge].
  - rewrite Z.mod_small by lia. rewrite (proj2 (Z.ltb_ge _ _)) by lia.
    rewrite andb_true_iff, !Z.leb_le. unfold PAGING_USER_BASE, PAGING_USER_SIZE. lia.
  - assert ((a + n) mod 2 ^ 64 = a + n - 2 ^ 64) as ->.
    { symmetry. apply Z.mod_unique_pos with 1; lia. }
    rewrite (proj2 (Z.ltb_lt _ _)) by lia. split; [done|].
    change (2 ^ 64) with 18446744073709551616 in *. lia.
Qed.

Lemma buffer_loop_spec fuel s d cursor end_ :
  dir_ok s d -> cursor mod 4096 = 0 -> 16777216 <= cursor -> end_ <= 20971520 ->
  0 < Z.of_nat fuel -> end_ - cursor <= 4096 * (Z.of_nat fuel - 1) ->
  exists b, buffer_loop fuel s (d_pml4 d) cursor end_ = Some b /\
    (b = true <-> forall va, cursor <= va < end_ -> user_mapped s d va).
Proof.
  intros Hd. revert cursor. induction fuel as [|fuel IH]; intros cursor Hm Hc He H0 Hf; [lia|].
  cbn [buffer_loop]. destruct (Z.ltb_spec cursor end_) as [Hlt|Hge].
  2: { exists true. split; [done|]. split; [|done]. intros. lia. }
  assert (in_user_range cursor = true) as Hr by (apply in_range_iff; lia).
  rewrite page_accessible_dir by done.
  assert (forall va, cursor <= va < cursor + 4096 -> page_no va = page_no cursor) as Hsame.
  { intros va Hva. unfold page_no, PAGING_USER_BASE. clear - Hva Hm. zlia. }
  destruct (bit _ PG_PRESENT && bit _ PG_USER) eqn:Eb; cbn [negb].
  - assert (u64 (cursor + PAGING_PAGE_SIZE) = cursor + 4096) as ->.
    { unfold PAGING_PAGE_SIZE. apply u64_small. lia. }
    destruct (IH (cursor + 4096)) as (b & Eloop & Hb); [clear - Hm; zlia|lia..|].
    exists b. split; [done|]. rewrite Hb. apply andb_prop in Eb. split; intros Hall va Hva.
    + destruct (Z.lt_ge_cases va (cursor + 4096)); [|apply Hall; lia].
      unfold user_mapped. rewrite Hsame by lia. done.
    + apply Hall. lia.
  - exists false. split; [done|]. split; [done|]. intros Hall.
    destruct (Hall cursor) as [E1 E2]; [lia|]. by rewrite E1, E2 in Eb.
Qed.

(** C17: The check of a user buffer ends for every address and size, wrap around
    of the 64-bit sum included, and accepts a buffer exactly when it is not
    empty, lies in the user region and every byte of it is on a page that is
    present and accessible to the user. *)
Theorem paging_user_buffer_check s d address size :
  dir_ok s d -> 0 <= address < 2 ^ 64 -> 0 <= size < 2 ^ 64 ->
  exists b,
    paging_directory_user_buffer_is_accessible s (d_pml4 d) address size = Some b /\
    (b = true <->
     0 < size /\ 16777216 <= address /\ address + size <= 20971520 /\
     forall va, address <= va < address + size -> user_mapped s d va).
Proof.
  intros Hd Ha Hs. unfold paging_directory_user_buffer_is_accessible.
  pose proof (address_check address size Ha Hs) as Hc.
  destruct (paging_address_is_user_accessible address size); cbn [negb].
  2: { exists false. split; [done|]. split; [done|]. intros (? & ? & ? & _).
       by apply Hc. }
  destruct (proj1 Hc eq_refl) as (Hpos & Hlo & Hhi).
  assert (u64 (address + size) = address + size) as -> by (apply u64_small; lia).
  rewrite align_down64_page by done.
  edestruct (buffer_loop_spec (Z.to_nat (PAGING_USER_SIZE / PAGING_PAGE_SIZE) + 2) s d
    (4096 * (address / 4096)) (address + size)) as (b & -> & Hb); [done|..].
  - rewrite Z.mul_comm. apply Z.mod_mul. lia.
  - clear - Hlo. zlia.
  - lia.
  - lia.
  - change (Z.of_nat (Z.to_nat (PAGING_USER_SIZE / PAGING_PAGE_SIZE) + 2) - 1) with 1025.
    clear - Hlo Hhi. zlia.
  - exists b. split; [done|]. rewrite Hb. split.
    + intros Hall. split_and!; [done..|]. intros va Hva. apply Hall. clear - Hva. zlia.
    + intros (_ & _ & _ & Hall) va Hva.
      destruct (Z.lt_ge_cases va address); [|by apply Hall; lia].
      unfold user_mapped. replace (page_no va) with (page_no address); [apply Hall; lia|].
      unfold page_no, PAGING_USER_BASE. clear - Hva H. zlia.
Qed.

(** * A directory *)

(** The directory at 2 MiB with its tables in the four frames that follow. *)
Definition demo_dirt : dirt := Dirt 2097152 2101248 2105344 2109440 2113536.

Definition demo_paging : paging :=
  Paging demo_boot (sfill 0) 0 false 1048576 1048576 true 0 1052672 1056768 [].

Definition demo_tables : paging :=
  wr (wr (wr (wr demo_paging 2097152 0 (user_entry 2101248)) 2101248 0 (user_entry 2105344))
    2105344 8 (user_entry 2109440)) 2105344 9 (user_entry 2113536).

Lemma demo_dir_ok : dir_ok demo_tables demo_dirt.
Proof.
  split; try reflexivity.
  - unfold tables. repeat constructor; done.
  - unfold tables. repeat constructor; by set_unfold; lia.
Qed.

Lemma paging_map_unmap_roundtrip_witness :
  exists s1 s2,
    paging_map_user_page demo_tables 2097152 16777216 8388608 true = (s1, 1) /\
    paging_unmap_user_page s1 2097152 16777216 = (s2, 1) /\
    paging_lookup_user_page s1 2097152 16777216 = 8388608 /\
    paging_lookup_user_page s2 2097152 16777216 = 0.
Proof.
  destruct (paging_map_unmap_roundtrip demo_tables demo_dirt 16777216 8388608 true demo_dir_ok)
    as (s1 & s2 & H1 & H2 & _ & _ & H3 & _); try done.
  exists s1, s2. destruct (H3 16777216 eq_refl) as [H4 H5]. split_and!; [exact H1|exact H2|exact H4|exact H5].
Defined.

Lemma paging_user_buffer_check_witness :
  exists b, paging_directory_user_buffer_is_accessible demo_tables 2097152 16777216 18446744073709551615
    = Some b.
Proof.
  destruct (paging_user_buffer_check demo_tables demo_dirt 16777216 18446744073709551615 demo_dir_ok)
    as (b & H & _); [done|done|]. exists b. exact H.
Defined.
