(* ===== verification/UserDir.v ===== *)
(** User directories: what [paging_create_user_directory],
    [paging_cow_clone_user_directory], [paging_cow_resolve],
    [paging_release_user_pages] and [paging_destroy_user_directory] do to the
    tables of a process and to the reference counts of its frames. *)
From S2P Require Import Prelude.
From S2P Require Import Interfaces.
From S2P Require Import Physmem.
From S2P Require Import Paging.
From Stdlib Require Import ZArith Lia.
From stdpp Require Import base numbers list gmap.

Open Scope Z_scope.
Open Scope lyth_scope.

Lemma for_loop_two {S} (f : Z -> S -> S) s : for_loop f 2 0 s = f 1 (f 0 s).
Proof. reflexivity. Qed.

(** * Reference counts by address *)

Notation rc := physmem_frame_refcount.

(** A frame the allocator neither hands out nor counts: the kernel image. *)
Definition reserved (f : physmem) (a : Z) : Prop :=
  tab a /\ frame_is_marked f (a / 4096) = true /\ rc f a = 0.

(** [f'] is [f] with the count of the frame [a] set to [v]. *)
Record fupd (f f' : physmem) (a v : Z) : Prop := FUpd {
  fu_wf : wf f';
  fu_total : total_frames f' = total_frames f;
  fu_rc : forall b, rc f' b = if decide (b = a) then v else rc f b;
  fu_res : forall b, reserved f b -> reserved f' b;
}.

Lemma held_rc f a : held f a -> rc f a = sget (frame_refcount f) (a / 4096) /\ 0 < rc f a.
Proof.
  intros (Hm & Hr & Hp). unfold rc, PHYSMEM_FRAME_SIZE, LOW_FRAMES in *.
  rewrite (proj2 (Z.eqb_neq a 0)) by zlia. rewrite Hm.
  rewrite (proj2 (Z.leb_gt _ _)) by lia. done.
Qed.

Lemma rc_held f a : wf f -> LOW_FRAMES <= a / 4096 -> 0 < rc f a -> held f a.
Proof.
  intros Hwf Hlow. unfold rc, held, PHYSMEM_FRAME_SIZE. by repeat case_if; try lia.
Qed.

Lemma rc_bound f a : wf f -> 0 <= rc f a <= 255.
Proof. intros Hwf. unfold rc. repeat case_if; try lia. apply (wf_rc _ Hwf). Qed.

(** A frame above the first megabyte that the allocator manages. *)
Definition vframe (f : physmem) (a : Z) : Prop :=
  a mod 4096 = 0 /\ LOW_FRAMES <= a / 4096 < total_frames f.

Lemma held_vframe f a : held f a -> vframe f a.
Proof. intros (? & ? & _). done. Qed.

Lemma vframe_tab f a : wf f -> vframe f a -> tab a.
Proof.
  intros Hwf [Hm Hr]. pose proof (wf_total _ Hwf). unfold tab, LOW_FRAMES, PHYSMEM_MAX_FRAMES in *.
  split; [done|]. zlia.
Qed.

Lemma rc_set_refcount f a v b :
  vframe f a -> rc (set_refcount f (a / 4096) v) b = if decide (b = a) then v else rc f b.
Proof.
  intros (Hm & Hr). unfold rc, PHYSMEM_FRAME_SIZE, LOW_FRAMES in *. simpl total_frames.
  simpl frame_refcount. rewrite sget_sset. destruct (decide (b = a)) as [->|Hne].
  - rewrite (proj2 (Z.eqb_neq a 0)) by zlia. rewrite Hm, (proj2 (Z.leb_gt _ _)) by lia.
    by rewrite decide_True.
  - repeat case_if; try done. rewrite decide_False; [done|].
    intros E. apply Hne. bool_to_prop. zlia.
Qed.

Lemma rc_mark_frame f k used b : rc (mark_frame f k used) b = rc f b.
Proof. destruct (mark_frame_fields f k used) as (E1 & E2 & _). unfold rc. by rewrite E1, E2. Qed.

Lemma wf_max f : wf f -> total_frames f <= PHYSMEM_MAX_FRAMES.
Proof. intros Hwf. pose proof (wf_total _ Hwf). lia. Qed.

Lemma reserved_ne f a b : reserved f b -> 0 < rc f a -> b <> a.
Proof. intros (_ & _ & E) H ->. lia. Qed.

Lemma frame_ne a b : a mod 4096 = 0 -> b mod 4096 = 0 -> a <> b -> a / 4096 <> b / 4096.
Proof. intros. zlia. Qed.

(** A frame with its count set to [v] and marked in use. *)
Lemma fupd_set f a v :
  wf f -> held f a -> 0 < v <= 255 -> fupd f (set_refcount f (a / 4096) v) a v.
Proof.
  intros Hwf Hh Hv. pose proof (held_vframe _ _ Hh) as Hvf. pose proof (held_rc _ _ Hh) as [_ Hp].
  split.
  - apply set_refcount_wf; [lia | | done]. intros. destruct Hh as (_ & Hr & ?).
    by apply (wf_rc_marked _ Hwf).
  - done.
  - intros b. by apply rc_set_refcount.
  - intros b Hb. pose proof (reserved_ne f a b Hb Hp). destruct Hb as (Ht & Hmk & H0).
    split_and!; [done|done|]. rewrite rc_set_refcount by done. by rewrite decide_False.
Qed.

(** A frame whose last reference is gone. *)
Lemma fupd_release f a :
  wf f -> held f a -> fupd f (mark_frame (set_refcount f (a / 4096) 0) (a / 4096) false) a 0.
Proof.
  intros Hwf Hh. pose proof (held_vframe _ _ Hh) as Hvf. pose proof (held_rc _ _ Hh) as [_ Hp].
  pose proof (wf_max _ Hwf) as Hmax. destruct Hvf as [Hm Hr]. unfold LOW_FRAMES in *. split.
  - apply release_frame_wf; [unfold LOW_FRAMES; lia|done].
  - by destruct (mark_frame_fields (set_refcount f (a / 4096) 0) (a / 4096) false) as (E1 & _ & _).
  - intros b. rewrite rc_mark_frame. by apply rc_set_refcount.
  - intros b Hb. pose proof (reserved_ne f a b Hb Hp). destruct Hb as ([Hbm Hbr] & Hmk & H0).
    split_and!; [done| |].
    + rewrite marked_mark_frame; [|simpl; lia|done].
      rewrite decide_False; [done|]. by apply frame_ne.
    + rewrite rc_mark_frame, rc_set_refcount by done. by rewrite decide_False.
Qed.

Lemma fupd_free f a : wf f -> held f a -> fupd f (physmem_free_frame f a) a 0.
Proof.
  intros Hwf Hh. pose proof (fupd_release f a Hwf Hh) as H. destruct Hh as (Hm & Hr & _).
  unfold physmem_free_frame, LOW_FRAMES, PHYSMEM_FRAME_SIZE in *.
  rewrite (proj2 (Z.eqb_neq a 0)) by zlia. rewrite Hm. simpl.
  by rewrite (proj2 (Z.ltb_ge _ 256)) by lia.
Qed.

Lemma fupd_ref f a :
  wf f -> held f a -> rc f a < 255 -> fupd f (physmem_ref_frame f a) a (rc f a + 1).
Proof.
  intros Hwf Hh Hlt. destruct (held_rc f a Hh) as [E Hp].
  rewrite ref_frame_held by (done || (unfold PHYSMEM_FRAME_SIZE; lia)).
  unfold PHYSMEM_FRAME_SIZE. rewrite <- E. apply fupd_set; [done|done|lia].
Qed.

Lemma fupd_unref f a : wf f -> held f a -> fupd f (physmem_unref_frame f a) a (rc f a - 1).
Proof.
  intros Hwf Hh. destruct (held_rc f a Hh) as [E Hp]. rewrite unref_frame_held by done.
  unfold PHYSMEM_FRAME_SIZE. cbv zeta. rewrite <- E. pose proof (rc_bound f a Hwf). case_if.
  - rewrite Hif. by apply fupd_release.
  - apply fupd_set; [done|done|lia].
Qed.

(** A frame handed out was neither counted nor reserved. *)
Lemma alloc_fupd f f' a :
  wf f -> physmem_alloc_frame f = (f', a) ->
  (a = 0 /\ f' = f) \/
  (tab a /\ held f' a /\ rc f a = 0 /\ ~ reserved f a /\ fupd f f' a 1).
Proof.
  intros Hwf Heq. destruct (decide (a = 0)) as [->|Hnz].
  { left. split; [done|]. by apply (@fa_alloc_none physmem physmem_frames physmem_frames_laws f). }
  right. pose proof (alloc_frame_wf f Hwf) as Hwf'. rewrite Heq in Hwf'. simpl in Hwf'.
  destruct (@fa_alloc_fresh physmem physmem_frames physmem_frames_laws f f' a Hwf Heq Hnz) as (Hm & Hlo & Hhi & Hfresh & Hheld).
  pose proof (wf_max _ Hwf) as Hmax.
  destruct (alloc_frame_cases f) as [[E _]|(k & Hk & Hmk & _ & E)];
    rewrite Heq in E; [injection E as _ E; done|]. injection E as Ef Ea.
  unfold PHYSMEM_MAX_FRAMES, PHYSMEM_FRAME_SIZE in *. rewrite u32_small in Ea by lia.
  assert (a / 4096 = k) as Hak by (subst a; rewrite Z.div_mul; lia). clear Ea. subst k.
  assert (vframe f a) as Hv by (split; [done|unfold LOW_FRAMES; zlia]).
  assert (vframe (mark_frame f (a / 4096) true) a) as Hv'.
  { destruct (mark_frame_fields f (a / 4096) true) as (E1 & _ & _). unfold vframe. by rewrite E1. }
  assert (forall b, rc f' b = if decide (b = a) then 1 else rc f b) as Hrc.
  { intros b. rewrite Ef, rc_set_refcount, rc_mark_frame by done. done. }
  assert (~ reserved f a) as Hnr by (intros (_ & E & _); congruence).
  split_and!; [split; [done|lia]|apply Hheld; by left| |done|split; [done| |done|]].
  - destruct (decide (0 < rc f a)); [|pose proof (rc_bound f a Hwf); lia].
    destruct Hfresh. apply rc_held; [done|apply Hv|done].
  - rewrite Ef. by destruct (mark_frame_fields f (a / 4096) true) as (E1 & _ & _).
  - intros b Hb. assert (b <> a) by (intros ->; done). destruct Hb as (Ht & Hbm & H0).
    split_and!; [done| |].
    + rewrite Ef, set_refcount_marked, marked_mark_frame by (unfold PHYSMEM_MAX_FRAMES; lia). case_decide; done.
    + rewrite Hrc. by rewrite decide_False.
Qed.

Lemma held_iff f a : held f a <-> vframe f a /\ 0 < rc f a.
Proof.
  split; [intros H; split; [by apply held_vframe|by apply held_rc]|].
  intros [[Hm Hr] Hp]. split_and!; [done|apply Hr|apply Hr|].
  unfold rc, PHYSMEM_FRAME_SIZE in *. repeat case_if_in Hp; lia.
Qed.

Lemma fupd_held f f' a v b : fupd f f' a v -> held f b -> (b = a -> 0 < v) -> held f' b.
Proof.
  intros Hu. rewrite !held_iff. unfold vframe. rewrite (fu_total _ _ _ _ Hu).
  intros [Hv Hp] Hb. split; [done|]. rewrite (fu_rc _ _ _ _ Hu). case_decide; [by apply Hb|done].
Qed.

(** * Allocation of the tables *)

Definition nz (l : list Z) : list Z := filter (fun a => a <> 0) l.

(** [s] is [s0] after the frames of [l] were asked for; a 0 is a request that
    failed. *)
Record allocd (s0 s : paging) (l : list Z) : Prop := Allocd {
  ad_wf : wf (frames s);
  ad_only : s = set_frames s0 (frames s);
  ad_total : total_frames (frames s) = total_frames (frames s0);
  ad_nodup : NoDup (nz l);
  ad_held a : a ∈ nz l -> tab a /\ held (frames s) a /\ rc (frames s0) a = 0 /\
    ~ reserved (frames s0) a;
  ad_rc b : rc (frames s) b = if decide (b ∈ nz l) then 1 else rc (frames s0) b;
  ad_res b : reserved (frames s0) b -> reserved (frames s) b;
}.

Lemma allocd_nil s : wf (frames s) -> allocd s s [].
Proof. intros. split; try done; [by destruct s|apply NoDup_nil_2|intros a Ha%elem_of_nil; done]. Qed.

Lemma nz_app l a : nz (l ++ [a]) = if decide (a = 0) then nz l else nz l ++ [a].
Proof.
  unfold nz. rewrite filter_app. case_decide as Hd.
  - subst. rewrite filter_cons_False by (intros H; by apply H). by rewrite app_nil_r.
  - by rewrite filter_cons_True.
Qed.

Lemma allocd_snoc s0 s l s' a :
  allocd s0 s l -> alloc s = (s', a) -> allocd s0 s' (l ++ [a]).
Proof.
  intros [H1 H2 H3 H4 H5 H6 H7] Ha. unfold alloc in Ha.
  destruct (physmem_alloc_frame (frames s)) as [f x] eqn:Ef. injection Ha as <- ->.
  destruct (alloc_fupd _ _ _ H1 Ef) as [[-> ->]|(Ht & Hh & H0 & Hnr & Hu)].
  { assert (set_frames s (frames s) = s) as -> by by destruct s.
    split; rewrite ?nz_app, ?decide_True by done; done. }
  assert (a <> 0) as Hnz by (unfold tab in Ht; lia).
  assert (a ∉ nz l) as Hni.
  { intros Hin. rewrite H6, decide_True in H0 by done. lia. }
  assert (nz (l ++ [a]) = nz l ++ [a]) as Enz by (rewrite nz_app; by rewrite decide_False).
  split; simpl frames; rewrite ?Enz.
  - apply (fu_wf _ _ _ _ Hu).
  - by rewrite H2.
  - by rewrite (fu_total _ _ _ _ Hu).
  - apply NoDup_app. split_and!; [done| |apply NoDup_singleton]. set_solver.
  - intros b [Hb|Hb%list_elem_of_singleton]%elem_of_app.
    + destruct (H5 b Hb) as (? & ? & ? & ?). split_and!; [done| |done|done].
      by apply (fupd_held _ _ _ _ _ Hu).
    + subst b. split_and!; [done|done| |].
      * rewrite H6, decide_False in H0 by done. done.
      * intros Hr. by apply Hnr, H7.
  - intros b. rewrite (fu_rc _ _ _ _ Hu), H6.
    repeat case_decide; set_solver.
  - intros b Hb. apply (fu_res _ _ _ _ Hu), H7, Hb.
Qed.

Lemma free_nonzero_spec l s :
  wf (frames s) -> NoDup (nz l) -> (forall a, a ∈ nz l -> tab a /\ held (frames s) a) ->
  let s' := free_nonzero s l in
  wf (frames s') /\ s' = set_frames s (frames s') /\
  total_frames (frames s') = total_frames (frames s) /\
  (forall b, rc (frames s') b = if decide (b ∈ nz l) then 0 else rc (frames s) b) /\
  (forall b, reserved (frames s) b -> reserved (frames s') b).
Proof.
  cbv zeta. revert s. induction l as [|a l IH]; intros s Hwf Hnd Hh.
  { split_and!; try done. by destruct s. }
  unfold free_nonzero. simpl. fold (free_nonzero (if a =? 0 then s else free s a) l).
  destruct (Z.eqb_spec a 0) as [->|Hnz].
  { unfold nz in *. rewrite filter_cons_False in * by (intros H; by apply H). by apply IH. }
  assert (nz (a :: l) = a :: nz l) as Enz by (unfold nz; by rewrite filter_cons_True).
  rewrite Enz in *. apply NoDup_cons in Hnd as [Hni Hnd].
  destruct (Hh a) as [Ht Hha]; [left|].
  pose proof (fupd_free _ _ Hwf Hha) as Hu.
  assert (frames (free s a) = physmem_free_frame (frames s) a) as Ef.
  { unfold free. simpl. rewrite u32_small; [done|]. unfold tab in Ht. lia. }
  destruct (IH (free s a)) as (I1 & I2 & I3 & I4 & I5).
  - rewrite Ef. apply (fu_wf _ _ _ _ Hu).
  - done.
  - intros b Hb. destruct (Hh b) as [? ?]; [by right|]. split; [done|]. rewrite Ef.
    apply (fupd_held _ _ _ _ _ Hu); [done|]. intros ->. done.
  - split_and!; [done| | | |].
    + by rewrite I2.
    + rewrite I3, Ef. apply (fu_total _ _ _ _ Hu).
    + intros b. rewrite I4, Ef, (fu_rc _ _ _ _ Hu). clear - Hni.
      repeat case_decide; subst; rewrite ?elem_of_cons in *; tauto.
    + intros b Hb. apply I5. rewrite Ef. by apply (fu_res _ _ _ _ Hu).
Qed.

(** Giving back what was allocated restores every count. *)
Lemma allocd_free s0 s l :
  allocd s0 s l ->
  let s' := free_nonzero s l in
  wf (frames s') /\ s' = set_frames s0 (frames s') /\
  total_frames (frames s') = total_frames (frames s0) /\
  (forall b, rc (frames s') b = rc (frames s0) b) /\
  (forall b, reserved (frames s0) b -> reserved (frames s') b).
Proof.
  intros [H1 H2 H3 H4 H5 H6 H7]. cbv zeta.
  destruct (free_nonzero_spec l s H1 H4) as (I1 & I2 & I3 & I4 & I5).
  { intros a Ha. destruct (H5 a Ha) as (? & ? & _). done. }
  split_and!; [done| |congruence| |by eauto].
  - rewrite I2, H2. done.
  - intros b. rewrite I4, H6. case_decide as Hd; [|done].
    by destruct (H5 b Hd) as (_ & _ & ? & _).
Qed.

(** * Creation of a directory *)

Lemma fill_user_pages_rd s base pt0 pt1 t i :
  tab pt0 -> tab pt1 -> pt0 <> pt1 -> tab t -> idx i ->
  rd (for_loop (fill_user_page base pt0 pt1) 1024 0 s) t i =
  if decide (t = pt0) then user_entry (base + i * 4096)
  else if decide (t = pt1 /\ i <> 510) then user_entry (base + (512 + i) * 4096)
  else rd s t i.
Proof.
  intros H0 H1 Hne Ht Hi.
  pose (I := fun (k : Z) (u : paging) => rd u t i =
    if decide (t = pt0 /\ i < k) then user_entry (base + i * 4096)
    else if decide (t = pt1 /\ i <> 510 /\ 512 + i < k) then user_entry (base + (512 + i) * 4096)
    else rd s t i).
  assert (I (0 + Z.of_nat 1024) (for_loop (fill_user_page base pt0 pt1) 1024 0 s)) as HI.
  2: { unfold I in HI. rewrite HI. clear HI I. unfold idx in *. repeat case_decide; lia || done. }
  apply (for_loop_ind I); unfold I; clear I.
  - rewrite !decide_False; [done|unfold idx in *; lia..].
  - intros j u Hj Hu. unfold fill_user_page, PAGING_USER_BASE, PAGING_USER_STACK_GUARD_BASE,
      PAGING_USER_SIZE, PAGING_USER_STACK_SIZE, PAGING_USER_STACK_GUARD_SIZE, PAGING_PAGE_SIZE,
      ENTRIES_PER_TABLE, PAGING_USER_BASE. cbv zeta. unfold idx in *.
    destruct (Z.eqb_spec (16777216 + j * 4096) (16777216 + 4194304 - 4096 - 4096)).
    { rewrite Hu. repeat case_decide; try done; lia. }
    destruct (Z.leb_spec 512 j); rewrite rd_wr_tab by (eauto with lyth || (unfold idx; lia));
      rewrite Hu.
    + destruct (decide (pt1 = t /\ j - 512 = i)) as [[-> <-]|Hd].
      * rewrite decide_False by (intros [-> _]; done). rewrite decide_True by lia. f_equal. lia.
      * repeat case_decide; try done; lia.
    + destruct (decide (pt0 = t /\ j = i)) as [[-> <-]|Hd].
      * rewrite decide_True by lia. done.
      * repeat case_decide; try done; lia.
Qed.

(** The tables of [d] built over the region at [base]. *)
Definition built (s : paging) (d : dirt) (base : Z) : paging :=
  build_directory s base (d_pml4 d) (d_pdpt d) (d_pd d) (d_pt0 d) (d_pt1 d).

(** The kernel's tables are no tables of the process. *)
Definition kernel_apart (s : paging) (l : list Z) : Prop :=
  tab (kernel_pml4 s) /\ tab (kernel_pdpt s) /\ tab (kernel_pd0 s) /\
  kernel_pml4 s ∉ l /\ kernel_pdpt s ∉ l /\ kernel_pd0 s ∉ l.

(** The entry that the new directory holds for page [p]. *)
Definition created_pte (base p : Z) : Z :=
  if decide (p = 1022) then 0 else user_entry (base + p * 4096).

Lemma sbw_fill_user_page s base pt0 pt1 j t :
  same_but_words s t -> same_but_words s (fill_user_page base pt0 pt1 j t).
Proof. intros. unfold fill_user_page. cbv zeta. repeat case_if; by try apply sbw_wr. Qed.

Lemma sbw_step s s' f : (forall t, same_but_words t (f t)) -> same_but_words s s' -> same_but_words s (f s').
Proof. intros Hf H. eapply sbw_trans; [done|apply Hf]. Qed.

Lemma build_directory_sbw s d base : same_but_words s (built s d base).
Proof.
  unfold built, build_directory. cbv zeta.
  change (Z.to_nat (PAGING_USER_SIZE / PAGING_PAGE_SIZE)) with 1024%nat.
  apply (sbw_step _ _ (fun u => for_loop _ 1024 0 u)).
  { intros t. apply sbw_for. intros. by apply sbw_fill_user_page. }
  do 2 (apply (sbw_step _ _ (fun u => fill_table u _ 0)); [intros; apply sbw_fill|]).
  do 2 apply sbw_wr. eapply sbw_trans; [|apply sbw_copy]. apply sbw_wr.
  eapply sbw_trans; [|apply sbw_copy]. apply sbw_wr. apply sbw_copy.
Qed.

(** Decide equalities and conjunctions of them from the (dis)equalities in the
    context. *)
Ltac dec_eq :=
  repeat first
    [ rewrite decide_True by (first [congruence | split; first [congruence | done]])
    | rewrite decide_False by (first [congruence | intros [? ?]; congruence]) ].

Lemma build_directory_rd s d base t i :
  Forall tab (tables d) -> NoDup (tables d) -> kernel_apart s (tables d) -> tab t -> idx i ->
  rd (built s d base) t i =
  if decide (t = d_pt0 d) then user_entry (base + i * 4096)
  else if decide (t = d_pt1 d) then
    (if decide (i = 510) then 0 else user_entry (base + (512 + i) * 4096))
  else if decide (t = d_pd d) then
    (if decide (i = 8) then user_entry (d_pt0 d)
     else if decide (i = 9) then user_entry (d_pt1 d) else rd s (kernel_pd0 s) i)
  else if decide (t = d_pdpt d) then
    (if decide (i = 0) then user_entry (d_pd d) else rd s (kernel_pdpt s) i)
  else if decide (t = d_pml4 d) then
    (if decide (i = 0) then user_entry (d_pdpt d) else rd s (kernel_pml4 s) i)
  else rd s t i.
Proof.
  intros HT HN (K1 & K2 & K3 & N1 & N2 & N3) Ht Hi. destruct d as [a b c e g].
  unfold tables in *. cbn [d_pml4 d_pdpt d_pd d_pt0 d_pt1] in *.
  rewrite !Forall_cons in HT. destruct HT as (Ta & Tb & Tc & Te & Tg & _).
  rewrite !NoDup_cons, !not_elem_of_cons in HN.
  destruct HN as ((? & ? & ? & ? & _) & (? & ? & ? & _) & (? & ? & _) & (? & _) & _).
  rewrite !not_elem_of_cons in N1, N2, N3. destruct_and!.
  assert (idx 0 /\ idx 8 /\ idx 9) as (I0 & I8 & I9) by (unfold idx; lia).
  unfold built, build_directory. cbv zeta. cbn [d_pml4 d_pdpt d_pd d_pt0 d_pt1].
  change (Z.to_nat (PAGING_USER_SIZE / PAGING_PAGE_SIZE)) with 1024%nat.
  change USER_PD_START with 8. change (8 + 1) with 9.
  set (s1 := copy_table s a (kernel_pml4 s)).
  set (s2 := wr s1 a 0 _). change (kernel_pdpt s2) with (kernel_pdpt s1).
  assert (kernel_pdpt s1 = kernel_pdpt s) as -> by (unfold s1; by rewrite (sbw_copy s)).
  set (s3 := copy_table s2 b _). set (s4 := wr s3 b 0 _).
  change (kernel_pd0 s4) with (kernel_pd0 s3).
  assert (kernel_pd0 s3 = kernel_pd0 s) as ->.
  { unfold s3. rewrite (sbw_copy s2). change (kernel_pd0 s1 = kernel_pd0 s). unfold s1.
    by rewrite (sbw_copy s). }
  set (s5 := copy_table s4 c _).
  rewrite fill_user_pages_rd by done.
  rewrite !fill_table_rd, !rd_wr_tab by eauto with lyth.
  unfold s5. rewrite copy_table_rd by (by eauto with lyth).
  unfold s4. rewrite !rd_wr_tab by eauto with lyth.
  unfold s3. rewrite !copy_table_rd by (by eauto with lyth).
  unfold s2. rewrite !rd_wr_tab by eauto with lyth.
  unfold s1. rewrite !copy_table_rd by (by eauto with lyth).
  clear s1 s2 s3 s4 s5. 
  clear Ta Tb Tc Te Tg K1 K2 K3 Ht Hi I0 I8 I9.
  destruct (decide (t = e)) as [->|]; [done|].
  destruct (decide (t = g)) as [->|].
  { destruct (decide (i = 510)); dec_eq; done. }
  dec_eq. destruct (decide (t = c)) as [->|].
  { destruct (decide (i = 8)) as [->|]; [dec_eq; done|].
    destruct (decide (i = 9)); dec_eq; done. }
  dec_eq. destruct (decide (t = b)) as [->|].
  { destruct (decide (i = 0)); dec_eq; done. }
  dec_eq. destruct (decide (t = a)) as [->|].
  { destruct (decide (i = 0)); dec_eq; done. }
  dec_eq. done.
Qed.

(** The kernel's tables are in frames the allocator does not manage. *)
Definition kernel_ok (s : paging) : Prop :=
  reserved (frames s) (kernel_pml4 s) /\ reserved (frames s) (kernel_pdpt s) /\
  reserved (frames s) (kernel_pd0 s).

Lemma kernel_ok_nonzero s :
  kernel_ok s ->
  ((kernel_pml4 s =? 0) || (kernel_pdpt s =? 0) || (kernel_pd0 s =? 0)) = false.
Proof.
  intros (([_ ?] & _) & ([_ ?] & _) & ([_ ?] & _)).
  by rewrite !(proj2 (Z.eqb_neq _ 0)) by lia.
Qed.

(** What holds of frames and words when a directory could not be made. *)
Record unchanged (s s' : paging) : Prop := Unchanged {
  un_wf : wf (frames s');
  un_only : s' = set_frames s (frames s');
  un_total : total_frames (frames s') = total_frames (frames s);
  un_rc b : rc (frames s') b = rc (frames s) b;
  un_res b : reserved (frames s) b -> reserved (frames s') b;
}.

(** The effect of making a directory [d]: its tables were free frames, now
    held once, and no word outside of them changed. *)
Record new_tables (s s' : paging) (d : dirt) : Prop := NewTables {
  nt_wf : wf (frames s');
  nt_only : s' = set_words (set_frames s (frames s')) (words s');
  nt_total : total_frames (frames s') = total_frames (frames s);
  nt_free t : t ∈ tables d -> rc (frames s) t = 0 /\ ~ reserved (frames s) t;
  nt_held t : t ∈ tables d -> held (frames s') t;
  nt_res b : reserved (frames s) b -> reserved (frames s') b;
}.

Lemma nz_all l : Forall (fun a => a <> 0) l -> nz l = l.
Proof.
  induction 1 as [|a l Ha Hl IH]; [done|]. unfold nz in *. rewrite filter_cons_True by done.
  by rewrite IH.
Qed.

Lemma allocd_apart s0 s l t : allocd s0 s l -> reserved (frames s0) t -> t ∉ nz l.
Proof. intros Ha Hr Hin. by destruct (ad_held _ _ _ Ha t Hin) as (_ & _ & _ & ?). Qed.

Lemma create_directory s base :
  wf (frames s) -> kernel_ok s ->
  let '(s', r) := paging_create_user_directory s base in
  (r = 0 /\ unchanged s s') \/
  exists d, r = d_pml4 d /\ Forall tab (tables d) /\ NoDup (tables d) /\
    new_tables s s' d /\ kernel_apart s (tables d) /\
    (forall b, rc (frames s') b = if decide (b ∈ tables d) then 1 else rc (frames s) b) /\
    (forall t i, tab t -> idx i -> rd s' t i = rd (built s d base) t i).
Proof.
  intros Hwf Hk. unfold paging_create_user_directory. rewrite kernel_ok_nonzero by done.
  destruct (alloc s) as [s1 a1] eqn:E1. destruct (alloc s1) as [s2 a2] eqn:E2.
  destruct (alloc s2) as [s3 a3] eqn:E3. destruct (alloc s3) as [s4 a4] eqn:E4.
  destruct (alloc s4) as [s5 a5] eqn:E5.
  assert (allocd s s5 [a1; a2; a3; a4; a5]) as Ha.
  { apply (allocd_snoc _ s4 [a1; a2; a3; a4]); [|done].
    apply (allocd_snoc _ s3 [a1; a2; a3]); [|done].
    apply (allocd_snoc _ s2 [a1; a2]); [|done].
    apply (allocd_snoc _ s1 [a1]); [|done].
    apply (allocd_snoc _ s []); [|done]. by apply allocd_nil. }
  clear E1 E2 E3 E4 E5.
  destruct (_ || _) eqn:Ez.
  - left. split; [done|].
    destruct (allocd_free _ _ _ Ha) as (H1 & H2 & H3 & H4 & H5). by split.
  - right. bool_to_prop. exists (Dirt a1 a2 a3 a4 a5).
    assert (nz [a1; a2; a3; a4; a5] = [a1; a2; a3; a4; a5]) as Enz by (apply nz_all; by repeat constructor).
    pose proof (ad_held _ _ _ Ha) as Hh. pose proof (ad_nodup _ _ _ Ha) as Hnd. rewrite Enz in Hh, Hnd.
    assert (Forall tab [a1; a2; a3; a4; a5]) as HT by (apply Forall_forall; intros x Hx; by apply Hh).
    assert (kernel_apart s [a1; a2; a3; a4; a5]) as Hap.
    { destruct Hk as (K1 & K2 & K3). unfold kernel_apart. rewrite <- Enz.
      split_and!; [apply K1|apply K2|apply K3|..]; by apply (allocd_apart s s5). }
    cbn [d_pml4 d_pdpt d_pd d_pt0 d_pt1 tables].
    pose proof (build_directory_sbw s5 (Dirt a1 a2 a3 a4 a5) base) as Hsbw.
    assert (build_directory s5 base a1 a2 a3 a4 a5 = built s5 (Dirt a1 a2 a3 a4 a5) base) as ->
      by (unfold built; cbn [d_pml4 d_pdpt d_pd d_pt0 d_pt1]; reflexivity).
    assert (forall t i, tab t -> idx i -> rd (built s5 (Dirt a1 a2 a3 a4 a5) base) t i =
      rd (built s (Dirt a1 a2 a3 a4 a5) base) t i) as Hrd.
    { intros t i Ht Hi.
      assert (kernel_apart s5 [a1; a2; a3; a4; a5]) by (by rewrite (ad_only _ _ _ Ha)).
      rewrite !build_directory_rd by done. rewrite (ad_only _ _ _ Ha). done. }
    set (s' := built s5 _ base) in *.
    clearbody s'.
    assert (frames s' = frames s5) as Ef by (by rewrite Hsbw).
    split; [reflexivity|]. split; [exact HT|]. split; [exact Hnd|].
    split; [|split; [exact Hap|split; [|exact Hrd]]].
    + split; rewrite ?Ef.
      * apply (ad_wf _ _ _ Ha).
      * transitivity (set_words s5 (words s')); [exact Hsbw|]. f_equal. apply (ad_only _ _ _ Ha).
      * apply (ad_total _ _ _ Ha).
      * intros t Ht. by apply Hh.
      * intros t Ht. by apply Hh.
      * apply (ad_res _ _ _ Ha).
    + intros b. rewrite Ef, (ad_rc _ _ _ Ha), Enz. done.
Qed.

Lemma kernel_apart_disjoint s d t : kernel_apart s (tables d) -> t ∈ tables d ->
  t <> kernel_pml4 s /\ t <> kernel_pdpt s /\ t <> kernel_pd0 s.
Proof. intros (_ & _ & _ & H1 & H2 & H3) Ht. split_and!; intros ->; done. Qed.

Lemma tables_distinct d :
  NoDup (tables d) ->
  d_pml4 d <> d_pdpt d /\ d_pml4 d <> d_pd d /\ d_pml4 d <> d_pt0 d /\ d_pml4 d <> d_pt1 d /\
  d_pdpt d <> d_pd d /\ d_pdpt d <> d_pt0 d /\ d_pdpt d <> d_pt1 d /\
  d_pd d <> d_pt0 d /\ d_pd d <> d_pt1 d /\ d_pt0 d <> d_pt1 d.
Proof.
  unfold tables. rewrite !NoDup_cons, !not_elem_of_cons.
  intros ((? & ? & ? & ? & _) & (? & ? & ? & _) & (? & ? & _) & (? & _) & _). done.
Qed.

(** The tables of a new directory. *)
Lemma built_dir s d base s' :
  Forall tab (tables d) -> NoDup (tables d) -> kernel_apart s (tables d) ->
  (forall t i, tab t -> idx i -> rd s' t i = rd (built s d base) t i) ->
  dir_ok s' d /\
  (forall p, upage p -> pte s' d p = created_pte base p) /\
  (forall i, 0 < i < 512 -> rd s' (d_pml4 d) i = rd s (kernel_pml4 s) i) /\
  (forall i, 0 < i < 512 -> rd s' (d_pdpt d) i = rd s (kernel_pdpt s) i) /\
  (forall i, idx i -> i <> 8 -> i <> 9 -> rd s' (d_pd d) i = rd s (kernel_pd0 s) i) /\
  (forall t i, tab t -> idx i -> t ∉ tables d -> rd s' t i = rd s t i).
Proof.
  intros HT HN Hap Hrd. pose proof (tables_distinct d HN) as (?&?&?&?&?&?&?&?&?&?).
  pose proof HT as HT'. unfold tables in HT'. rewrite !Forall_cons in HT'.
  destruct HT' as (T1 & T2 & T3 & T4 & T5 & _).
  pose proof (fun t i Ht Hi => eq_trans (Hrd t i Ht Hi)
    (build_directory_rd s d base t i HT HN Hap Ht Hi)) as Hb.
  split_and!.
  - split; [done|done|..]; rewrite Hb by (done || (unfold idx; lia)); by dec_eq.
  - intros p Hp. unfold pte, d_pt, created_pte, upage in *.
    destruct (Z.ltb_spec p 512).
    + rewrite Hb by (done || apply slot_idx). dec_eq. rewrite (decide_False (P := p = 1022)) by lia.
      rewrite Z.mod_small by lia. done.
    + assert (p mod 512 = p - 512) as -> by zlia.
      rewrite Hb by (done || (unfold idx; lia)). dec_eq.
      destruct (decide (p = 1022)) as [->|]; [done|].
      rewrite decide_False by lia. do 2 f_equal. lia.
  - intros i Hi. rewrite Hb by (done || (unfold idx; lia)). dec_eq.
    rewrite decide_False by lia. done.
  - intros i Hi. rewrite Hb by (done || (unfold idx; lia)). dec_eq.
    rewrite decide_False by lia. done.
  - intros i Hi ? ?. rewrite Hb by done. by dec_eq.
  - intros t i Ht Hi Hn. rewrite Hb by done. unfold tables in Hn.
    rewrite !not_elem_of_cons in Hn. destruct Hn as (? & ? & ? & ? & ? & _). by dec_eq.
Qed.

(** [paging_create_user_directory] either fails and leaves words and counts
    as they were, or takes five free frames for the tables and maps every page
    of the user region to the frame at the same offset of the physical region,
    the stack guard page to nothing, and everything else as the kernel's tables
    do; no word outside the new tables changes. *)
Theorem paging_create_directory_spec s base :
  wf (frames s) -> kernel_ok s ->
  base mod 4096 = 0 -> 0 <= base -> base + PAGING_USER_SIZE <= 4294967296 ->
  let '(s', r) := paging_create_user_directory s base in
  (r = 0 /\ unchanged s s') \/
  exists d, r = d_pml4 d /\ dir_ok s' d /\ new_tables s s' d /\
    (forall va, in_user_range va = true ->
       paging_lookup_user_page s' r va =
       if decide (page_no va = page_no PAGING_USER_STACK_GUARD_BASE) then 0
       else base + page_no va * 4096) /\
    (forall i, 0 < i < 512 -> rd s' (d_pml4 d) i = rd s (kernel_pml4 s) i) /\
    (forall i, 0 < i < 512 -> rd s' (d_pdpt d) i = rd s (kernel_pdpt s) i) /\
    (forall i, idx i -> i <> 8 -> i <> 9 -> rd s' (d_pd d) i = rd s (kernel_pd0 s) i) /\
    (forall t i, tab t -> idx i -> t ∉ tables d -> rd s' t i = rd s t i).
Proof.
  intros Hwf Hk Hm H0 Hmax. pose proof (create_directory s base Hwf Hk) as Hc.
  destruct (paging_create_user_directory s base) as [s' r].
  destruct Hc as [Hf|(d & -> & HT & HN & Hnt & Hap & _ & Hrd)]; [by left|right].
  destruct (built_dir s d base s' HT HN Hap Hrd) as (Hd & Hp & Hr).
  exists d. split; [done|]. split; [done|]. split; [done|]. split; [|done].
  intros va Hva. rewrite lookup_dir by done. pose proof (in_range_page _ Hva) as [Hu _].
  rewrite Hp by done. unfold created_pte.
  change (page_no PAGING_USER_STACK_GUARD_BASE) with 1022. case_decide; [done|].
  assert (0 <= base + page_no va * 4096 < 2 ^ 52 /\ (base + page_no va * 4096) mod 4096 = 0) as [Hr1 Hr2].
  { unfold upage, PAGING_USER_SIZE in *. change (2 ^ 52) with 4503599627370496.
    split; [lia|]. rewrite Z.mod_add by lia. done. }
  rewrite user_entry_lor, entry_bit, entry_addr by (done || (unfold PG_PRESENT; lia)). done.
Qed.

Lemma demo_kernel : kernel_ok demo_paging.
Proof. split_and!; vm_compute; by split_and!. Qed.

Lemma paging_create_directory_spec_witness :
  wf demo_boot /\ kernel_ok demo_paging /\
  let '(s', r) := paging_create_user_directory demo_paging 4194304 in
  (r = 0 /\ unchanged demo_paging s') \/
  exists d, r = d_pml4 d /\ dir_ok s' d /\ new_tables demo_paging s' d.
Proof.
  split; [exact demo_boot_wf|]. split; [exact demo_kernel|].
  pose proof (paging_create_directory_spec demo_paging 4194304 demo_boot_wf demo_kernel
    eq_refl ltac:(lia) ltac:(unfold PAGING_USER_SIZE; lia)) as H.
  destruct (paging_create_user_directory demo_paging 4194304) as [s' r].
  destruct H as [H|(d & H1 & H2 & H3 & _)]; [left; exact H|right; exists d]. split_and!; assumption.
Defined.

(** * Copy-on-write clone *)

(** The page numbers kept for shared memory. *)
Definition shm_page (q : Z) : bool := (1006 <=? q) && (q <? 1022).

(** [phys | PG_PRESENT | PG_USER | PG_COW] *)
Definition cow_entry (a : Z) : Z := Z.lor (Z.lor (Z.lor a PG_PRESENT) PG_USER) PG_COW.

Definition paddr (e : Z) : Z := Z.land e PG_ADDR_MASK.

(** The entry [e] of page [q] is shared by the clone. *)
Definition cloned (q e : Z) : bool := bit e PG_PRESENT && negb (shm_page q).

(** Everything but frames, words and the TLB log is the same. *)
Definition statics (s s' : paging) : Prop :=
  early_pd_next s' = early_pd_next s /\ early_pdpt_used s' = early_pdpt_used s /\
  kernel_pml4 s' = kernel_pml4 s /\ current_pml4 s' = current_pml4 s /\
  paging_enabled s' = paging_enabled s /\ paging_bytes_mapped s' = paging_bytes_mapped s /\
  kernel_pdpt s' = kernel_pdpt s /\ kernel_pd0 s' = kernel_pd0 s.

Lemma statics_refl s : statics s s.
Proof. done. Qed.

Lemma statics_wr s t i v : statics s (wr s t i v).
Proof. done. Qed.

Lemma statics_frames s f : statics s (set_frames s f).
Proof. done. Qed.

Lemma statics_trans s t u : statics s t -> statics t u -> statics s u.
Proof. unfold statics. intros. destruct_and!. split_and!; congruence. Qed.

Lemma cow_entry_lor a : cow_entry a = Z.lor a 517.
Proof. unfold cow_entry. by rewrite <- !Z.lor_assoc. Qed.

Lemma clone_page_eq pml4 ppt cpt ti p s :
  0 <= ti -> 0 <= p ->
  clone_page pml4 ppt cpt ti p s =
  let e := rd s ppt p in
  if cloned (ti * 512 + p) e then
    let t := wr (wr s ppt p (cow_entry (paddr e))) cpt p (cow_entry (paddr e)) in
    let t := set_frames t (physmem_ref_frame (frames s) (u32 (paddr e))) in
    invalidate_if t pml4 (PAGING_USER_BASE + (ti * 512 + p) * 4096)
  else wr s cpt p 0.
Proof.
  intros Hti Hp. unfold clone_page, cloned. cbv zeta.
  destruct (bit (rd s ppt p) PG_PRESENT); cbn [negb andb]; [|done].
  unfold ENTRIES_PER_TABLE, PAGING_PAGE_SIZE.
  assert ((PAGING_USER_SHM_BASE <=? PAGING_USER_BASE + (ti * 512 + p) * 4096)
          = (1006 <=? ti * 512 + p)) as ->.
  { unfold PAGING_USER_SHM_BASE, PAGING_USER_STACK_GUARD_BASE, PAGING_USER_SHM_SIZE,
      PAGING_USER_STACK_SIZE, PAGING_USER_STACK_GUARD_SIZE, PAGING_USER_SIZE, PAGING_PAGE_SIZE.
    apply eq_true_iff_eq. rewrite !Z.leb_le. lia. }
  assert ((PAGING_USER_BASE + (ti * 512 + p) * 4096 <? PAGING_USER_STACK_GUARD_BASE)
          = (ti * 512 + p <? 1022)) as ->.
  { unfold PAGING_USER_STACK_GUARD_BASE,
      PAGING_USER_STACK_SIZE, PAGING_USER_STACK_GUARD_SIZE, PAGING_USER_SIZE, PAGING_PAGE_SIZE.
    apply eq_true_iff_eq. rewrite !Z.ltb_lt. lia. }
  unfold shm_page. by destruct (_ && _).
Qed.

Ltac dec_lia := repeat first [rewrite decide_True by lia | rewrite decide_False by lia].

(** Entry [p] of the page table [pt] with number [ti] is shared by the clone,
    and it maps the frame [b]. *)
Definition shares (s : paging) (pt ti p : Z) : bool := cloned (ti * 512 + p) (rd s pt p).
Definition shares_frame (s : paging) (pt ti b p : Z) : bool :=
  shares s pt ti p && (paddr (rd s pt p) =? b).

Lemma to_nat_512 : Z.to_nat 512 = 512%nat.
Proof. reflexivity. Qed.

Section clone_loop.
Context (s : paging) (pml4 ppt cpt ti : Z).
Context (Hppt : tab ppt) (Hcpt : tab cpt) (Hne : ppt <> cpt) (Hti : 0 <= ti).
Context (Hwf : wf (frames s)).

Local Notation e := (rd s ppt).
Local Notation sh := (shares s ppt ti).
Local Notation to := (shares_frame s ppt ti).

Context (Hheld : forall p, idx p -> sh p = true -> held (frames s) (paddr (e p))).
Context (Hsat : forall b, rc (frames s) b + countb (to b) 512 <= 255).

(** After the first [k] entries. *)
Record cloned_upto (k : Z) (u : paging) : Prop := ClonedUpto {
  cu_wf : wf (frames u);
  cu_statics : statics s u;
  cu_total : total_frames (frames u) = total_frames (frames s);
  cu_rd t i : tab t -> idx i -> rd u t i =
    if decide (t = cpt /\ i < k) then (if sh i then cow_entry (paddr (e i)) else 0)
    else if decide (t = ppt /\ i < k) then (if sh i then cow_entry (paddr (e i)) else e i)
    else rd s t i;
  cu_rc b : rc (frames u) b = rc (frames s) b + countb (to b) (Z.to_nat k);
  cu_res b : reserved (frames s) b -> reserved (frames u) b;
}.

Lemma clone_step k u :
  idx k -> cloned_upto k u -> cloned_upto (k + 1) (clone_page pml4 ppt cpt ti k u).
Proof.
  intros Hk [U1 U2 U3 U4 U5 U6]. unfold idx in Hk. rewrite clone_page_eq by lia. cbv zeta.
  assert (rd u ppt k = e k) as Ek.
  { rewrite U4 by done. rewrite !decide_False by lia. done. }
  rewrite Ek. change (cloned (ti * 512 + k) (e k)) with (sh k).
  assert (forall b, countb (to b) (Z.to_nat (k + 1)) = countb (to b) (Z.to_nat k) + b2z (to b k)) as Hc.
  { intros b. replace (Z.to_nat (k + 1)) with (S (Z.to_nat k)) by lia. simpl.
    by rewrite Z2Nat.id by lia. }
  destruct (sh k) eqn:Esh.
  - pose proof (Hheld k Hk Esh) as Hh.
    assert (held (frames u) (paddr (e k))) as Hhu.
    { rewrite held_iff in Hh |- *. unfold vframe in *. rewrite U3, U5.
      pose proof (countb_bound (to (paddr (e k))) (Z.to_nat k)). split; [tauto|lia]. }
    assert (tab (paddr (e k))) as Ht by (apply (vframe_tab (frames s)); [done|by apply held_vframe]).
    assert (to (paddr (e k)) k = true) as Eto by (unfold shares_frame; by rewrite Esh, Z.eqb_refl).
    assert (rc (frames u) (paddr (e k)) < 255) as Hlt.
    { rewrite U5. pose proof (Hsat (paddr (e k))).
      pose proof (countb_mono (to (paddr (e k))) (Z.to_nat (k + 1)) 512 ltac:(lia)) as Hm.
      rewrite Hc, Eto in Hm. change (b2z true) with 1 in Hm. lia. }
    pose proof (fupd_ref _ _ U1 Hhu Hlt) as Hu.
    rewrite (u32_small (paddr (e k))) by (unfold tab in Ht; lia).
    set (t := set_frames _ (physmem_ref_frame (frames u) (paddr (e k)))).
    assert (forall x y, rd (invalidate_if t pml4 (PAGING_USER_BASE + (ti * 512 + k) * 4096)) x y
      = rd (wr (wr u ppt k (cow_entry (paddr (e k)))) cpt k (cow_entry (paddr (e k)))) x y) as Hrd
      by (intros; by rewrite rd_invalidate_if).
    assert (frames (invalidate_if t pml4 (PAGING_USER_BASE + (ti * 512 + k) * 4096)) =
      physmem_ref_frame (frames u) (paddr (e k))) as Ef by (unfold invalidate_if; by case_if).
    split; rewrite ?Ef.
    + apply (fu_wf _ _ _ _ Hu).
    + apply (statics_trans _ u); [done|]. unfold invalidate_if. by case_if.
    + rewrite (fu_total _ _ _ _ Hu). done.
    + intros x i Hx Hi. rewrite Hrd, !rd_wr_tab by eauto with lyth. rewrite U4 by done.
      unfold idx in Hi. clear - Hne Hi Esh.
      destruct (decide (i = k)) as [->|]; [rewrite Esh|];
        destruct (decide (x = cpt)) as [->|]; try destruct (decide (x = ppt)) as [->|];
        try destruct (decide (i < k)); dec_lia; done.
    + intros b. rewrite (fu_rc _ _ _ _ Hu), !U5, Hc. unfold shares_frame at 4. rewrite Esh. cbn [andb].
      destruct (decide (b = paddr (e k))) as [->|Hb].
      * rewrite Z.eqb_refl. simpl. lia.
      * rewrite (proj2 (Z.eqb_neq _ _)) by congruence. simpl. lia.
    + intros b Hb. apply (fu_res _ _ _ _ Hu). by apply U6.
  - split; try done.
    + intros x i Hx Hi. rewrite rd_wr_tab by eauto with lyth. rewrite U4 by done.
      unfold idx in Hi. clear - Hne Hi Esh.
      destruct (decide (i = k)) as [->|]; [rewrite Esh|];
        destruct (decide (x = cpt)) as [->|]; try destruct (decide (x = ppt)) as [->|];
        try destruct (decide (i < k)); dec_lia; done.
    + intros b. simpl frames. rewrite U5, Hc. unfold shares_frame at 3. rewrite Esh. cbn [andb b2z]. lia.
Qed.

Lemma clone_loop : cloned_upto 512 (for_loop (clone_page pml4 ppt cpt ti) 512 0 s).
Proof.
  apply (for_loop_ind cloned_upto _ 512 0).
  - split; try done.
    + intros t i _ Hi. unfold idx in Hi. by rewrite !decide_False by lia.
    + intros b. simpl. lia.
  - intros j t Hj. apply clone_step. unfold idx. lia.
Qed.

End clone_loop.

Lemma clone_upper_sbw s p1 p2 p3 a b c : same_but_words s (clone_upper s p1 p2 p3 a b c).
Proof.
  unfold clone_upper. cbv zeta. eapply sbw_trans; [|apply sbw_copy]. apply sbw_wr.
  eapply sbw_trans; [|apply sbw_copy]. apply sbw_wr. apply sbw_copy.
Qed.

Lemma clone_upper_rd s p1 p2 p3 a b c t i :
  Forall tab [p1; p2; p3; a; b; c] -> NoDup [a; b; c] ->
  (forall x, x ∈ [p1; p2; p3] -> x ∉ [a; b; c]) -> tab t -> idx i ->
  rd (clone_upper s p1 p2 p3 a b c) t i =
  if decide (t = c) then rd s p3 i
  else if decide (t = b) then (if decide (i = 0) then user_entry c else rd s p2 i)
  else if decide (t = a) then (if decide (i = 0) then user_entry b else rd s p1 i)
  else rd s t i.
Proof.
  rewrite !Forall_cons, !NoDup_cons, !not_elem_of_cons.
  intros (T1 & T2 & T3 & Ta & Tb & Tc & _) ((Hab & Hac & _) & (Hbc & _) & _) Hp Ht Hi.
  assert (p1 ∉ [a; b; c] /\ p2 ∉ [a; b; c] /\ p3 ∉ [a; b; c]) as (P1 & P2 & P3)
    by (split_and!; apply Hp; set_solver).
  rewrite !not_elem_of_cons in P1, P2, P3. destruct P1 as (? & ? & ? & _).
  destruct P2 as (? & ? & ? & _). destruct P3 as (? & ? & ? & _). clear Hp.
  assert (idx 0) as I0 by (unfold idx; lia).
  unfold clone_upper. cbv zeta.
  rewrite copy_table_rd by (by eauto with lyth).
  rewrite !rd_wr_tab by eauto with lyth. rewrite !copy_table_rd by (by eauto with lyth).
  rewrite !rd_wr_tab by eauto with lyth. rewrite !copy_table_rd by (by eauto with lyth).
  clear T1 T2 T3 Ta Tb Tc Ht Hi I0.
  destruct (decide (t = c)) as [->|]; [by dec_eq|]. dec_eq.
  destruct (decide (t = b)) as [->|].
  { destruct (decide (i = 0)); by dec_eq. }
  dec_eq. destruct (decide (t = a)) as [->|].
  { destruct (decide (i = 0)); by dec_eq. }
  by dec_eq.
Qed.

(** One turn of the loop over the page tables, from the state [u] before the
    allocation of the child's table [c]. *)
Lemma clone_table_step u u1 pml4 ppt pd c ti :
  wf (frames u) -> tab ppt -> tab pd -> 0 <= ti <= 1 -> ppt <> pd ->
  (forall p, idx p -> shares u ppt ti p = true ->
     held (frames u) (paddr (rd u ppt p))) ->
  (forall b, rc (frames u) b +
     countb (shares_frame u ppt ti b) 512 <= 255) ->
  0 < rc (frames u) ppt -> 0 < rc (frames u) pd ->
  alloc u = (u1, c) -> c <> 0 ->
  let u2 := wr (for_loop (clone_page pml4 ppt c ti) 512 0 u1) pd (8 + ti) (user_entry c) in
  tab c /\ rc (frames u) c = 0 /\ ~ reserved (frames u) c /\ held (frames u2) c /\
  wf (frames u2) /\ statics u u2 /\ total_frames (frames u2) = total_frames (frames u) /\
  (forall b, reserved (frames u) b -> reserved (frames u2) b) /\
  (forall b, rc (frames u2) b = if decide (b = c) then 1 else rc (frames u) b +
     countb (shares_frame u ppt ti b) 512) /\
  (forall t i, tab t -> idx i -> rd u2 t i =
     if decide (t = pd /\ i = 8 + ti) then user_entry c
     else if decide (t = c) then
       (if shares u ppt ti i then cow_entry (paddr (rd u ppt i)) else 0)
     else if decide (t = ppt) then
       (if shares u ppt ti i then cow_entry (paddr (rd u ppt i)) else rd u ppt i)
     else rd u t i).
Proof.
  intros Hwf Hppt Hpd Hti Hpp Hheld Hsat Hrp Hrpd Ha Hc. cbv zeta. unfold alloc in Ha.
  destruct (physmem_alloc_frame (frames u)) as [f x] eqn:Ef. injection Ha as <- ->.
  destruct (alloc_fupd _ _ _ Hwf Ef) as [[? _]|(Ht & Hh & H0 & Hnr & Hu)]; [done|].
  assert (ppt <> c) as Hpc by (intros ->; lia). assert (pd <> c) as Hdc by (intros ->; lia).
  assert (countb (shares_frame u ppt ti c) 512 = 0) as Hc0.
  { apply countb_none. intros i Hi. unfold shares_frame. destruct (shares _ _ _ _) eqn:Ecl; [|done].
    apply Z.eqb_neq. intros E. pose proof (Hheld i Hi Ecl) as Hhi. rewrite E in Hhi.
    apply held_iff in Hhi. lia. }
  pose proof (clone_loop (set_frames u f) pml4 ppt c ti Hppt Ht Hpc ltac:(lia)
    (fu_wf _ _ _ _ Hu)) as Hloop.
  destruct Hloop as [L1 L2 L3 L4 L5 L6].
  { intros p Hp Hcl. cbn [frames set_frames]. apply (fupd_held _ _ _ _ _ Hu); [|lia].
    by apply Hheld. }
  { intros b. cbn [frames set_frames]. rewrite (fu_rc _ _ _ _ Hu).
    case_decide as Hd.
    - subst b. change (shares_frame (set_frames u f)) with (shares_frame u). rewrite Hc0. lia.
    - apply Hsat. }
  set (v := for_loop _ 512 0 _) in *. clearbody v.
  change (rd (set_frames u f)) with (rd u) in *. cbn [frames set_frames] in L3, L5, L6.
  assert (forall b, rc (frames v) b = if decide (b = c) then 1 else rc (frames u) b + countb (shares_frame u ppt ti b) 512) as Hrc.
  { intros b. rewrite L5, (fu_rc _ _ _ _ Hu), to_nat_512.
    change (shares_frame (set_frames u f)) with (shares_frame u).
    case_decide as Hd; [|done]. subst b. by rewrite Hc0. }
  assert (frames (wr v pd (8 + ti) (user_entry c)) = frames v) as -> by reflexivity.
  split; [exact Ht|]. split; [exact H0|]. split; [exact Hnr|].
  split; [|split; [exact L1|split; [|split; [|split; [|split; [exact Hrc|]]]]]].
  - rewrite held_iff. rewrite Hrc, decide_True by done. split; [|lia].
    apply held_vframe in Hh. unfold vframe in *. rewrite L3. done.
  - apply (statics_trans _ (set_frames u f)); [apply statics_frames|].
    apply (statics_trans _ v); [exact L2|apply statics_wr].
  - by rewrite L3, (fu_total _ _ _ _ Hu).
  - intros b Hb. apply L6. by apply (fu_res _ _ _ _ Hu).
  - intros t i Htt Hi. rewrite rd_wr_tab by (eauto with lyth || (unfold idx; lia)). rewrite L4 by done.
    unfold idx in Hi. clear - Hi Hti Hpc Hdc Hpp.
    destruct (decide (t = pd)) as [->|].
    + destruct (decide (i = 8 + ti)) as [->|]; dec_lia; done.
    + rewrite (decide_False (P := t = pd /\ _)) by tauto.
      rewrite (decide_False (P := pd = t /\ _)) by (intros [? ?]; congruence).
      destruct (decide (t = c)) as [->|]; [dec_lia; done|].
      destruct (decide (t = ppt)) as [->|]; dec_lia; done.
Qed.

(** The entries of page [q] after the clone, in the parent and in the child. *)
Definition parent_entry (q e : Z) : Z := if cloned q e then cow_entry (paddr e) else e.
Definition child_entry (q e : Z) : Z := if cloned q e then cow_entry (paddr e) else 0.

(** Page [p] of [d] maps the frame [b] and is shared by the clone. *)
Definition shares_page (s : paging) (d : dirt) (b p : Z) : bool :=
  cloned p (pte s d p) && (paddr (pte s d p) =? b).

(** The clone has turned the first [k] pages of [d] to copy on write and taken
    the frames [new]; words of frames in use are kept but for the page tables
    of [d]. *)
Record clone_eff (s s' : paging) (d : dirt) (k : nat) (new : list Z) : Prop := CloneEff {
  ce_wf : wf (frames s');
  ce_statics : statics s s';
  ce_total : total_frames (frames s') = total_frames (frames s);
  ce_pte p : upage p ->
    pte s' d p = if p <? Z.of_nat k then parent_entry p (pte s d p) else pte s d p;
  ce_rd t i : tab t -> idx i -> 0 < rc (frames s) t \/ reserved (frames s) t ->
    t <> d_pt0 d -> t <> d_pt1 d -> rd s' t i = rd s t i;
  ce_rc b : rc (frames s') b =
    if decide (b ∈ new) then 1 else rc (frames s) b + countb (shares_page s d b) k;
  ce_res b : reserved (frames s) b -> reserved (frames s') b;
  ce_new t : t ∈ new -> tab t /\ rc (frames s) t = 0 /\ ~ reserved (frames s) t /\
    held (frames s') t;
}.

(** After the allocation and the copies of the upper tables. *)
Record started (s u : paging) (d : dirt) (a b c : Z) : Prop := Started {
  sd_wf : wf (frames u);
  sd_statics : statics s u;
  sd_total : total_frames (frames u) = total_frames (frames s);
  sd_nodup : NoDup [a; b; c];
  sd_new t : t ∈ [a; b; c] -> tab t /\ rc (frames s) t = 0 /\ ~ reserved (frames s) t /\
    held (frames u) t;
  sd_rc x : rc (frames u) x = if decide (x ∈ [a; b; c]) then 1 else rc (frames s) x;
  sd_res x : reserved (frames s) x -> reserved (frames u) x;
  sd_rd t i : tab t -> idx i -> rd u t i =
    if decide (t = c) then rd s (d_pd d) i
    else if decide (t = b) then (if decide (i = 0) then user_entry c else rd s (d_pdpt d) i)
    else if decide (t = a) then (if decide (i = 0) then user_entry b else rd s (d_pml4 d) i)
    else rd s t i;
}.

Lemma in_use_fresh (s : paging) (t : Z) (l : list Z) :
  (forall x, x ∈ l -> rc (frames s) x = 0 /\ ~ reserved (frames s) x) ->
  0 < rc (frames s) t \/ reserved (frames s) t -> t ∉ l.
Proof. intros Hl [Ht|Ht] Hin; destruct (Hl t Hin); [lia|done]. Qed.

Lemma entry_subtable_user t : tab t -> entry_subtable (user_entry t) = t.
Proof.
  intros Ht. unfold entry_subtable. rewrite user_entry_bit by (done || (unfold PG_PRESENT; lia)).
  change (bit 7 PG_PRESENT) with true. cbn [negb]. by apply user_entry_addr.
Qed.

Local Opaque countb for_loop.

Section clone.
Context (s : paging) (d : dirt).
Context (Hwf : wf (frames s)) (Hd : dir_ok s d).
Context (Htab : forall t, t ∈ tables d -> 0 < rc (frames s) t).

Lemma upper_in_tables t : t ∈ [d_pml4 d; d_pdpt d; d_pd d] -> t ∈ tables d.
Proof. unfold tables. rewrite !elem_of_cons. tauto. Qed.

Lemma clone_start s3 a b c :
  allocd s s3 [a; b; c] -> a <> 0 -> b <> 0 -> c <> 0 ->
  started s (clone_upper s3 (d_pml4 d) (d_pdpt d) (d_pd d) a b c) d a b c.
Proof.
  intros Ha Na Nb Nc.
  assert (nz [a; b; c] = [a; b; c]) as Enz by (apply nz_all; by repeat constructor).
  pose proof (ad_held _ _ _ Ha) as Hh. pose proof (ad_nodup _ _ _ Ha) as Hnd. rewrite Enz in Hh, Hnd.
  pose proof (clone_upper_sbw s3 (d_pml4 d) (d_pdpt d) (d_pd d) a b c) as Hsbw.
  pose proof (dk_tabs _ _ Hd) as (T1 & T2 & T3 & _ & _).
  assert (Forall tab [d_pml4 d; d_pdpt d; d_pd d; a; b; c]) as HT.
  { rewrite !Forall_cons. split; [exact T1|]. split; [exact T2|]. split; [exact T3|].
    split; [|split; [|split; [|done]]]; apply Hh; rewrite !elem_of_cons; tauto. }
  assert (forall x, x ∈ [d_pml4 d; d_pdpt d; d_pd d] -> x ∉ [a; b; c]) as Hdis.
  { intros x Hx. apply (in_use_fresh s); [intros y Hy; split; by apply Hh|].
    left. by apply Htab, upper_in_tables. }
  pose proof (fun t i Ht Hi => clone_upper_rd s3 (d_pml4 d) (d_pdpt d) (d_pd d) a b c t i HT Hnd Hdis Ht Hi)
    as Hrd.
  set (u := clone_upper _ _ _ _ _ _ _) in *. clearbody u.
  assert (frames u = frames s3) as Ef by (unfold same_but_words in Hsbw; by rewrite Hsbw).
  assert (statics s u) as Hst.
  { unfold same_but_words in Hsbw. rewrite Hsbw, (ad_only _ _ _ Ha). done. }
  split; rewrite ?Ef; [apply Ha|done|apply Ha|done| | |apply Ha|].
  - intros t Ht. destruct (Hh t Ht) as (? & ? & ? & ?). done.
  - intros x. rewrite (ad_rc _ _ _ Ha). by rewrite Enz.
  - intros t i Ht Hi. rewrite Hrd by done. by rewrite (ad_only _ _ _ Ha).
Qed.

Context (Hmap : forall p, upage p -> cloned p (pte s d p) = true ->
  held (frames s) (paddr (pte s d p))).
Context (Hsat : forall b, rc (frames s) b + countb (shares_page s d b) 1024 <= 255).

(** The page table of number [ti] and its entries as pages. *)
Lemma pte_index u ti p :
  0 <= ti <= 1 -> idx p -> pte u d (ti * 512 + p) = rd u (d_pt d (ti * 512)) p.
Proof.
  intros Hti Hp. unfold pte, d_pt, idx in *.
  assert (ti = 0 \/ ti = 1) as [-> | ->] by lia.
  - rewrite !Z.mul_0_l, Z.add_0_l, Z.mod_small by lia. by rewrite (proj2 (Z.ltb_lt p 512)) by lia.
  - rewrite (proj2 (Z.ltb_ge (1 * 512 + p) 512)) by lia.
    by replace ((1 * 512 + p) mod 512) with p by zlia.
Qed.

Lemma d_pt_of p : upage p -> d_pt d p = d_pt d (p / 512 * 512).
Proof.
  intros Hp. unfold d_pt, upage in *.
  destruct (Z.ltb_spec p 512), (Z.ltb_spec (p / 512 * 512) 512); try done; exfalso; zlia.
Qed.

Lemma d_pt_in p : d_pt d p ∈ tables d.
Proof. unfold d_pt, tables. rewrite !elem_of_cons. case_if; tauto. Qed.

(** The clone after the page tables [pts] of the child, with the upper tables
    [a], [b] and [c]. *)
Record progress (u : paging) (a b c : Z) (pts : list Z) : Prop := Progress {
  pg_eff : clone_eff s u d (512 * length pts) ([a; b; c] ++ pts);
  pg_nodup : NoDup ([a; b; c] ++ pts);
  pg_a i : idx i -> rd u a i = if decide (i = 0) then user_entry b else rd s (d_pml4 d) i;
  pg_b i : idx i -> rd u b i = if decide (i = 0) then user_entry c else rd s (d_pdpt d) i;
  pg_c i : idx i -> rd u c i =
    match (if decide (8 <= i) then pts !! Z.to_nat (i - 8) else None) with
    | Some x => user_entry x
    | None => rd s (d_pd d) i
    end;
  pg_pt j x p : pts !! j = Some x -> idx p ->
    rd u x p = child_entry (Z.of_nat j * 512 + p) (pte s d (Z.of_nat j * 512 + p));
}.

Lemma started_progress u a b c : started s u d a b c -> progress u a b c [].
Proof.
  intros [H1 H2 H3 H4 H5 H6 H7 H8].
  assert (a <> b /\ a <> c /\ b <> c) as (? & ? & ?).
  { rewrite !NoDup_cons, !not_elem_of_cons in H4. tauto. }
  assert (tab a /\ tab b /\ tab c) as (? & ? & ?).
  { split_and!; apply H5; rewrite !elem_of_cons; tauto. }
  assert (forall t i, tab t -> idx i -> 0 < rc (frames s) t \/ reserved (frames s) t ->
    rd u t i = rd s t i) as Hkeep.
  { intros t i Ht Hi Hu. rewrite H8 by done.
    assert (t ∉ [a; b; c]) as Hn by (apply (in_use_fresh s); [intros x Hx; split; by apply H5|done]).
    rewrite !not_elem_of_cons in Hn. destruct Hn as (? & ? & ? & _). by dec_eq. }
  split.
  - rewrite app_nil_r. split; [done|done|done| | | |done|done].
    + intros p Hp. rewrite (proj2 (Z.ltb_ge p _)) by (unfold upage in Hp; simpl; lia).
      unfold pte. apply Hkeep; [apply (d_pt_tab s d p Hd)|apply slot_idx|].
      left. apply Htab, d_pt_in.
    + intros t i Ht Hi Hu _ _. by apply Hkeep.
    + intros x. rewrite H6. case_decide; [done|]. change (512 * length [])%nat with 0%nat.
      change (countb _ 0) with 0. lia.
  - by rewrite app_nil_r.
  - intros i Hi. rewrite H8 by done. by dec_eq.
  - intros i Hi. rewrite H8 by done. by dec_eq.
  - intros i Hi. rewrite H8 by done. dec_eq. case_decide; [by rewrite lookup_nil|done].
  - intros j x p Hj. by rewrite lookup_nil in Hj.
Qed.

(** A mapped frame is no table of the child. *)
Lemma mapped_not_new (new : list Z) p :
  (forall t, t ∈ new -> rc (frames s) t = 0) -> upage p -> cloned p (pte s d p) = true ->
  paddr (pte s d p) ∉ new.
Proof.
  intros Hn Hp Hc Hin. pose proof (Hmap p Hp Hc) as Hh. apply held_iff in Hh.
  rewrite Hn in Hh by done. lia.
Qed.

Section step.
Context (u : paging) (a b c : Z) (pts : list Z).
Context (Hpg : progress u a b c pts) (Hlen : (length pts < 2)%nat).
Local Notation ti := (Z.of_nat (length pts)).
Local Notation new := ([a; b; c] ++ pts).

Lemma pg_new t : t ∈ new -> tab t /\ rc (frames s) t = 0 /\ ~ reserved (frames s) t.
Proof.
  intros Ht. destruct (ce_new _ _ _ _ _ (pg_eff _ _ _ _ _ Hpg) t Ht) as (? & ? & ? & _). done.
Qed.

(** The table of this turn is as it was at the start. *)
Lemma pg_old p : idx p -> rd u (d_pt d (ti * 512)) p = pte s d (ti * 512 + p).
Proof.
  intros Hp. rewrite <- pte_index by (lia || done).
  rewrite (ce_pte _ _ _ _ _ (pg_eff _ _ _ _ _ Hpg)) by (unfold upage, idx in *; lia).
  by rewrite (proj2 (Z.ltb_ge _ _)) by (unfold idx in Hp; lia).
Qed.

Lemma pg_shares p : idx p -> shares u (d_pt d (ti * 512)) ti p = cloned (ti * 512 + p) (pte s d (ti * 512 + p)).
Proof. intros Hp. unfold shares. by rewrite pg_old. Qed.

Lemma pg_count x :
  countb (shares_frame u (d_pt d (ti * 512)) ti x) 512 =
  countb (fun i => shares_page s d x (Z.of_nat (512 * length pts) + i)) 512.
Proof.
  apply countb_ext. intros i Hi. change (Z.of_nat 512) with 512 in Hi.
  unfold shares_frame, shares_page. rewrite pg_shares, pg_old by (unfold idx; lia).
  replace (Z.of_nat (512 * length pts) + i) with (ti * 512 + i) by lia. done.
Qed.

Lemma pg_count_next x :
  countb (shares_page s d x) (512 * length (pts ++ [0])) =
  countb (shares_page s d x) (512 * length pts) +
  countb (shares_frame u (d_pt d (ti * 512)) ti x) 512.
Proof.
  rewrite pg_count, <- countb_app. rewrite length_app. simpl length. f_equal. lia.
Qed.

Lemma pg_count_new x : x ∈ new -> countb (shares_frame u (d_pt d (ti * 512)) ti x) 512 = 0.
Proof.
  intros Hx. rewrite pg_count. apply countb_none. intros i Hi. change (Z.of_nat 512) with 512 in Hi.
  unfold shares_page. destruct (cloned _ _) eqn:E; [|done]. apply Z.eqb_neq. intros Eq.
  eapply (mapped_not_new new) in E; [|intros t Ht; by apply pg_new|unfold upage; lia]. by rewrite Eq in E.
Qed.

Lemma pg_mapped p : idx p -> shares u (d_pt d (ti * 512)) ti p = true ->
  held (frames u) (paddr (rd u (d_pt d (ti * 512)) p)).
Proof.
  intros Hp Hs. rewrite pg_shares in Hs by done. rewrite pg_old by done.
  assert (upage (ti * 512 + p)) as Hup by (unfold upage, idx in *; lia).
  pose proof (Hmap _ Hup Hs) as Hh. rewrite held_iff in Hh |- *. destruct Hh as [Hv Hr].
  pose proof (pg_eff _ _ _ _ _ Hpg) as He. unfold vframe in *. rewrite (ce_total _ _ _ _ _ He).
  split; [done|]. rewrite (ce_rc _ _ _ _ _ He). case_decide; [lia|].
  pose proof (countb_bound (shares_page s d (paddr (pte s d (ti * 512 + p)))) (512 * length pts)). lia.
Qed.

Lemma pg_sat x : rc (frames u) x + countb (shares_frame u (d_pt d (ti * 512)) ti x) 512 <= 255.
Proof.
  pose proof (pg_eff _ _ _ _ _ Hpg) as He. rewrite (ce_rc _ _ _ _ _ He). case_decide as Hd0.
  - rewrite pg_count_new by done. lia.
  - pose proof (pg_count_next x) as Hc. rewrite length_app in Hc. simpl length in Hc.
    pose proof (countb_mono (shares_page s d x) (512 * (length pts + 1)) 1024 ltac:(lia)).
    pose proof (Hsat x). lia.
Qed.

Lemma pg_in_use t : t ∈ tables d -> 0 < rc (frames u) t /\ t ∉ new.
Proof.
  intros Ht. pose proof (Htab t Ht) as Hr. pose proof (pg_eff _ _ _ _ _ Hpg) as He.
  assert (t ∉ new) as Hn.
  { apply (in_use_fresh s); [intros x Hx; split; by apply pg_new|by left]. }
  split; [|done]. rewrite (ce_rc _ _ _ _ _ He), decide_False by done.
  pose proof (countb_bound (shares_page s d t) (512 * length pts)). lia.
Qed.

Lemma pg_held t : t ∈ new -> held (frames u) t /\ rc (frames u) t = 1.
Proof.
  intros Ht. pose proof (pg_eff _ _ _ _ _ Hpg) as He.
  split; [by apply (ce_new _ _ _ _ _ He)|]. by rewrite (ce_rc _ _ _ _ _ He), decide_True.
Qed.

Lemma pg_tabs_nonzero x : x ∈ new -> x <> 0.
Proof. intros Hx. destruct (pg_new x Hx) as ([_ ?] & _). lia. Qed.

(** Giving up: the new tables go back to the allocator. *)
Lemma pg_abort : clone_eff s (free_nonzero u (pts ++ [c; b; a])) d (512 * length pts) [].
Proof.
  pose proof (pg_eff _ _ _ _ _ Hpg) as He.
  assert (pts ++ [c; b; a] ≡ₚ new) as Hperm by (rewrite (Permutation_app_comm pts); solve_Permutation).
  assert (nz (pts ++ [c; b; a]) = pts ++ [c; b; a]) as Enz.
  { apply nz_all. apply Forall_forall. intros x Hx. rewrite Hperm in Hx. by apply pg_tabs_nonzero. }
  destruct (free_nonzero_spec (pts ++ [c; b; a]) u) as (F1 & F2 & F3 & F4 & F5).
  - apply He.
  - rewrite Enz, Hperm. apply (pg_nodup _ _ _ _ _ Hpg).
  - intros x. rewrite Enz, Hperm. intros Hx. split; [by apply pg_new|by apply pg_held].
  - set (v := free_nonzero _ _) in *. clearbody v.
    assert (forall t i, rd v t i = rd u t i) as Hrd by (intros; by rewrite F2).
    split.
    + done.
    + eapply statics_trans; [apply (ce_statics _ _ _ _ _ He)|]. rewrite F2. apply statics_frames.
    + rewrite F3. apply (ce_total _ _ _ _ _ He).
    + intros p Hp. unfold pte at 1. rewrite Hrd. by apply (ce_pte _ _ _ _ _ He).
    + intros t i. rewrite Hrd. apply (ce_rd _ _ _ _ _ He).
    + intros x. rewrite (decide_False (P := x ∈ [])) by apply not_elem_of_nil.
      rewrite F4, Enz, (ce_rc _ _ _ _ _ He). destruct (decide (x ∈ new)) as [Hx|Hx].
      * rewrite decide_True by by rewrite Hperm. destruct (pg_new x Hx) as (_ & -> & _).
        rewrite countb_none; [done|]. intros i Hi. unfold shares_page.
        destruct (cloned _ _) eqn:E; [|done]. apply Z.eqb_neq. intros Eq.
        eapply (mapped_not_new new) in E; [|intros t Ht; by apply pg_new|unfold upage; lia].
        by rewrite Eq in E.
      * rewrite decide_False by by rewrite Hperm. done.
    + intros x Hx. apply F5. by apply (ce_res _ _ _ _ _ He).
    + intros t Ht. by apply elem_of_nil in Ht.
Qed.

Context (u1 : paging) (c' : Z) (Halloc : alloc u = (u1, c')) (Hc' : c' <> 0).
Local Notation u2 :=
  (wr (for_loop (clone_page (d_pml4 d) (d_pt d (ti * 512)) c' ti) 512 0 u1) c (8 + ti) (user_entry c')).

(** The effect of this turn. *)
Lemma pg_turn :
  tab c' /\ rc (frames u) c' = 0 /\ ~ reserved (frames u) c' /\ held (frames u2) c' /\
  wf (frames u2) /\ statics u u2 /\ total_frames (frames u2) = total_frames (frames u) /\
  (forall x, reserved (frames u) x -> reserved (frames u2) x) /\
  (forall x, rc (frames u2) x = if decide (x = c') then 1 else rc (frames u) x +
     countb (shares_frame u (d_pt d (ti * 512)) ti x) 512) /\
  (forall t i, tab t -> idx i -> rd u2 t i =
     if decide (t = c /\ i = 8 + ti) then user_entry c'
     else if decide (t = c') then child_entry (ti * 512 + i) (pte s d (ti * 512 + i))
     else if decide (t = d_pt d (ti * 512)) then parent_entry (ti * 512 + i) (pte s d (ti * 512 + i))
     else rd u t i).
Proof.
  pose proof (pg_eff _ _ _ _ _ Hpg) as He.
  assert (c ∈ new) as Hc by (rewrite elem_of_app, !elem_of_cons; tauto).
  destruct (pg_held c Hc) as [_ Hrc]. destruct (pg_new c Hc) as (Htc & _).
  destruct (pg_in_use (d_pt d (ti * 512)) (d_pt_in _)) as [Hrp Hnp].
  destruct (clone_table_step u u1 (d_pml4 d) (d_pt d (ti * 512)) c c' ti) as (?&?&?&?&?&?&?&?&?&Hrd);
    [apply He|apply (d_pt_tab s d _ Hd)|done|lia|intros E; by rewrite E in Hnp
    |apply pg_mapped|apply pg_sat|done|lia|done|done|].
  split_and!; [assumption..|]. intros t i Ht Hi. rewrite Hrd by done.
  unfold child_entry, parent_entry. rewrite pg_shares, pg_old by done. done.
Qed.

Lemma pg_fresh :
  c' ∉ new /\ rc (frames s) c' = 0 /\ ~ reserved (frames s) c' /\ c' ∉ tables d.
Proof.
  destruct pg_turn as (_ & H0 & Hnr & _). pose proof (pg_eff _ _ _ _ _ Hpg) as He.
  assert (c' ∉ new) as Hn by (intros Hin; destruct (pg_held c' Hin); lia).
  assert (rc (frames s) c' = 0) as Hr.
  { rewrite (ce_rc _ _ _ _ _ He), decide_False in H0 by done.
    pose proof (countb_bound (shares_page s d c') (512 * length pts)).
    pose proof (rc_bound (frames s) c' Hwf). lia. }
  split_and!; [done|done| |].
  - intros Hres. by apply Hnr, (ce_res _ _ _ _ _ He).
  - intros Hin. pose proof (Htab c' Hin). lia.
Qed.

Lemma d_pt_same p : upage p -> (d_pt d p = d_pt d (ti * 512) <-> p / 512 = ti).
Proof.
  intros Hp. pose proof (tables_distinct d (dk_nodup _ _ Hd)) as (_&_&_&_&_&_&_&_&_&Hne).
  unfold d_pt, upage in *. destruct (Z.ltb_spec p 512), (Z.ltb_spec (ti * 512) 512).
  - split; [intros _; zlia|done].
  - split; [done|intros; zlia].
  - split; [intros E; congruence|intros; zlia].
  - split; [intros _; zlia|done].
Qed.

Lemma pg_next_eff : clone_eff s u2 d (512 * length (pts ++ [c'])) ([a; b; c] ++ pts ++ [c']).
Proof.
  pose proof (pg_eff _ _ _ _ _ Hpg) as He. destruct pg_fresh as (Fn & Fr & Fs & Ft).
  destruct pg_turn as (Htc & _ & _ & Hh & W & St & To & Re & Rc & Rd).
  set (v := wr (for_loop _ _ _ _) _ _ _) in *. clearbody v.
  assert (c ∈ new) as Hcn by (rewrite elem_of_app, !elem_of_cons; tauto).
  assert (forall t, t ∈ tables d -> t <> c /\ t <> c') as Hap.
  { intros t Ht. split; intros ->; [by apply (pg_in_use c)|done]. }
  rewrite length_app. simpl length.
  split.
  - exact W.
  - eapply statics_trans; [apply (ce_statics _ _ _ _ _ He)|exact St].
  - rewrite To. apply (ce_total _ _ _ _ _ He).
  - intros p Hp. unfold pte at 1. destruct (Hap _ (d_pt_in p)) as [N1 N2].
    rewrite Rd by (apply (d_pt_tab s d p Hd) || apply slot_idx).
    rewrite (decide_False (P := _ /\ _)), (decide_False (P := _ = c')) by tauto.
    pose proof (d_pt_same p Hp) as Hsame. unfold upage in Hp. case_decide as E.
    + apply Hsame in E. replace (ti * 512 + p mod 512) with p by zlia.
      by rewrite (proj2 (Z.ltb_lt _ _)) by zlia.
    + change (rd u (d_pt d p) (p mod 512)) with (pte u d p). rewrite (ce_pte _ _ _ _ _ He) by done.
      assert (p / 512 <> ti) as Hneq by tauto.
      replace (p <? Z.of_nat (512 * (length pts + 1))) with (p <? Z.of_nat (512 * length pts)); [done|].
      apply eq_true_iff_eq. rewrite !Z.ltb_lt. zlia.
  - intros t i Ht Hi Hu N0 N1. assert (t ∉ new) as Hnn.
    { apply (in_use_fresh s); [intros x Hx; split; by apply pg_new|done]. }
    assert (t <> c') as Hnc by (intros ->; destruct Hu; [lia|done]).
    rewrite Rd by done. rewrite (decide_False (P := _ /\ _)) by (intros [-> _]; done).
    rewrite !decide_False; [by apply (ce_rd _ _ _ _ _ He)| |done].
    unfold d_pt. case_if; done.
  - intros x. rewrite Rc. rewrite app_assoc.
    pose proof (pg_count_next x) as Hc. rewrite length_app in Hc. simpl length in Hc. rewrite Hc.
    case_decide as Hx.
    + rewrite decide_True; [done|]. rewrite elem_of_app, list_elem_of_singleton. by right.
    + rewrite (ce_rc _ _ _ _ _ He). destruct (decide (x ∈ new)) as [Hi|Hi].
      * rewrite (decide_True (P := x ∈ _ ++ _)) by (rewrite elem_of_app; by left).
        by rewrite pg_count_new.
      * rewrite decide_False; [lia|]. rewrite elem_of_app, list_elem_of_singleton. tauto.
  - intros x Hx. apply Re. by apply (ce_res _ _ _ _ _ He).
  - intros t. rewrite app_assoc, elem_of_app, list_elem_of_singleton. intros [Ht| ->].
    + destruct (pg_new t Ht) as (? & ? & ?). split_and!; try done.
      destruct (pg_held t Ht) as [Hht _]. rewrite held_iff in Hht |- *.
      unfold vframe in *. rewrite To. split; [tauto|]. rewrite Rc.
      rewrite decide_False by (intros ->; done). rewrite pg_count_new by done. lia.
    + done.
Qed.

Lemma pg_next : progress u2 a b c (pts ++ [c']).
Proof.
  destruct pg_fresh as (Fn & Fr & Fs & Ft).
  destruct pg_turn as (Htc & _ & _ & _ & _ & _ & _ & _ & _ & Rd). pose proof pg_next_eff as Heff.
  set (v := wr (for_loop _ _ _ _) _ _ _) in *. clearbody v.
  assert (forall t, t ∈ new -> t <> c' /\ t <> d_pt d (ti * 512)) as Hn.
  { intros t Ht. split; intros ->; [done|]. by apply (pg_in_use _ (d_pt_in (ti * 512))). }
  assert (forall t i, t ∈ new -> t <> c -> idx i -> rd v t i = rd u t i) as Hkeep.
  { intros t i Ht Hnc Hi. destruct (Hn t Ht) as [N1 N2]. destruct (pg_new t Ht) as (? & _).
    rewrite Rd by done. rewrite (decide_False (P := _ /\ _)) by tauto. by rewrite !decide_False. }
  pose proof (pg_nodup _ _ _ _ _ Hpg) as Hnd.
  assert (a <> c /\ b <> c /\ c ∉ pts) as (Nac & Nbc & Nc).
  { cbn [app] in Hnd. rewrite !NoDup_cons, !not_elem_of_cons in Hnd. tauto. }
  assert (a ∈ new /\ b ∈ new /\ c ∈ new) as (Ia & Ib & Ic)
    by (rewrite !elem_of_app, !elem_of_cons; tauto).
  split.
  - exact Heff.
  - rewrite app_assoc. apply NoDup_app. split_and!; [done| |apply NoDup_singleton].
    intros x Hx ->%list_elem_of_singleton. done.
  - intros i Hi. rewrite Hkeep by done. by apply (pg_a _ _ _ _ _ Hpg).
  - intros i Hi. rewrite Hkeep by done. by apply (pg_b _ _ _ _ _ Hpg).
  - intros i Hi. destruct (pg_new c Ic) as (Htabc & _). destruct (Hn c Ic) as [N1 N2].
    rewrite Rd by done. unfold idx in Hi. destruct (decide (i = 8 + ti)) as [->|Hi8].
    + rewrite !decide_True by lia. replace (Z.to_nat (8 + ti - 8)) with (length pts) by lia.
      by rewrite list_lookup_middle.
    + rewrite (decide_False (P := _ /\ _)) by tauto. rewrite !decide_False by done.
      rewrite (pg_c _ _ _ _ _ Hpg) by done. case_decide; [|done].
      assert (Z.to_nat (i - 8) <> length pts) as Hne by lia.
      destruct (decide (Z.to_nat (i - 8) < length pts)%nat).
      * by rewrite lookup_app_l.
      * rewrite !lookup_ge_None_2; [done|rewrite length_app; simpl; lia|lia].
  - intros j x p Hj Hp. apply lookup_app_Some in Hj as [Hj|[Hle Hj]].
    + assert (x ∈ pts) as Hx by (by eapply list_elem_of_lookup_2).
      rewrite Hkeep; [by apply (pg_pt _ _ _ _ _ Hpg)|rewrite elem_of_app; by right| |done].
      by intros ->.
    + apply list_lookup_singleton_Some in Hj as [Ej <-].
      replace j with (length pts) by lia. rewrite Rd by done.
      rewrite (decide_False (P := _ /\ _)) by (intros [-> _]; done).
      by rewrite decide_True.
Qed.

End step.

(** One turn of [clone_tables] on this progress. *)
Lemma clone_tables_turn n u a b c pts :
  progress u a b c pts -> (length pts < 2)%nat ->
  clone_tables (S n) (Z.of_nat (length pts)) (d_pml4 d) (d_pd d) a b c u =
  let '(u1, c') := alloc u in
  if c' =? 0 then (free_nonzero u (pts ++ [c; b; a]), false)
  else clone_tables n (Z.of_nat (length pts) + 1) (d_pml4 d) (d_pd d) a b c
         (wr (for_loop (clone_page (d_pml4 d) (d_pt d (Z.of_nat (length pts) * 512)) c'
                          (Z.of_nat (length pts))) 512 0 u1)
             c (8 + Z.of_nat (length pts)) (user_entry c')).
Proof.
  intros Hpg Hlen. cbn [clone_tables]. change USER_PD_START with 8.
  set (ti := Z.of_nat (length pts)). pose proof (pg_eff _ _ _ _ _ Hpg) as He.
  assert (d_pd d ∈ tables d) as Hpd by (unfold tables; rewrite !elem_of_cons; tauto).
  pose proof (dk_tabs _ _ Hd) as (_ & _ & T3 & _ & _).
  pose proof (d_pt_tab s d (ti * 512) Hd) as Tpt.
  assert (rd u (d_pd d) (8 + ti) = user_entry (d_pt d (ti * 512))) as ->.
  { pose proof (tables_distinct d (dk_nodup _ _ Hd)) as (_&_&_&_&_&_&_&N1&N2&_).
    rewrite (ce_rd _ _ _ _ _ He) by (done || (unfold idx; lia) || (left; by apply Htab)).
    unfold d_pt. assert (ti = 0 \/ ti = 1) as [-> | ->] by lia; [apply (dk_pd0 _ _ Hd)|apply (dk_pd1 _ _ Hd)]. }
  rewrite !user_entry_bit by (done || (unfold PG_PRESENT, PG_PS; lia)).
  change (bit 7 PG_PRESENT) with true. change (bit 7 PG_PS) with false. cbn [negb orb].
  unfold phys_to_virt. rewrite user_entry_addr by done.
  destruct (alloc u) as [u1 c'] eqn:Ea. destruct (Z.eqb_spec c' 0) as [->|]; [|done].
  assert (u1 = u) as ->.
  { unfold alloc in Ea. destruct (physmem_alloc_frame (frames u)) as [f x] eqn:Ef.
    injection Ea as <- ->. destruct (alloc_fupd _ _ _ (ce_wf _ _ _ _ _ He) Ef) as [[_ ->]|([_ ?] & _)].
    - by destruct u.
    - lia. }
  assert (forall x, x ∈ [a; b; c] ++ pts -> (x =? 0) = false) as Hnz.
  { intros x Hx. apply Z.eqb_neq. by apply (pg_tabs_nonzero u a b c pts Hpg). }
  assert ((a =? 0) = false /\ (b =? 0) = false /\ (c =? 0) = false) as (Za & Zb & Zc).
  { split_and!; apply Hnz; rewrite elem_of_app, !elem_of_cons; tauto. }
  unfold free_nonzero. rewrite foldl_app. cbn [foldl]. rewrite Za, Zb, Zc. do 4 f_equal.
  destruct pts as [|x [|y l]]; [done| |simpl in Hlen; lia].
  assert (rd u c 8 = user_entry x) as E by (rewrite (pg_c _ _ _ _ _ Hpg) by (unfold idx; lia); done).
  destruct (pg_new u a b c [x] Hpg x) as (Tx & _); [rewrite elem_of_app, !elem_of_cons; tauto|].
  change (Z.to_nat ti) with 1%nat. Transparent for_loop. cbn [for_loop foldl].
  change (8 + 0) with 8. rewrite E, user_entry_bit by (done || (unfold PG_PRESENT; lia)).
  rewrite user_entry_addr by done. rewrite Hnz by (rewrite elem_of_app, !elem_of_cons; tauto). done.
Qed.

Local Opaque for_loop.

(** What a successful clone leaves: the child [d']. *)
Record clone_child (s' : paging) (d' : dirt) : Prop := CloneChild {
  cc_eff : clone_eff s s' d 1024 (tables d');
  cc_dir : dir_ok s' d';
  cc_pte p : upage p -> pte s' d' p = child_entry p (pte s d p);
  cc_pml4 i : 0 < i < 512 -> rd s' (d_pml4 d') i = rd s (d_pml4 d) i;
  cc_pdpt i : 0 < i < 512 -> rd s' (d_pdpt d') i = rd s (d_pdpt d) i;
  cc_pd i : idx i -> i <> 8 -> i <> 9 -> rd s' (d_pd d') i = rd s (d_pd d) i;
}.

Lemma progress_child u a b c x y :
  progress u a b c [x; y] -> clone_child u (Dirt a b c x y).
Proof.
  intros Hpg. pose proof (pg_eff _ _ _ _ _ Hpg) as He.
  assert (Forall tab (tables (Dirt a b c x y))) as HT.
  { apply Forall_forall. intros t Ht. by apply (pg_new u a b c [x; y] Hpg). }
  split.
  - exact He.
  - split; [done|exact (pg_nodup _ _ _ _ _ Hpg)|..]; cbn [d_pml4 d_pdpt d_pd d_pt0 d_pt1].
    + by rewrite (pg_a _ _ _ _ _ Hpg) by (unfold idx; lia).
    + by rewrite (pg_b _ _ _ _ _ Hpg) by (unfold idx; lia).
    + by rewrite (pg_c _ _ _ _ _ Hpg) by (unfold idx; lia).
    + by rewrite (pg_c _ _ _ _ _ Hpg) by (unfold idx; lia).
  - intros p Hp. unfold pte at 1, d_pt. cbn [d_pt0 d_pt1]. unfold upage in Hp.
    destruct (Z.ltb_spec p 512).
    + rewrite (pg_pt _ _ _ _ _ Hpg 0%nat) by (done || apply slot_idx).
      change (Z.of_nat 0) with 0. rewrite Z.mod_small by lia. done.
    + rewrite (pg_pt _ _ _ _ _ Hpg 1%nat) by (done || apply slot_idx).
      change (Z.of_nat 1) with 1. replace (1 * 512 + p mod 512) with p by zlia. done.
  - intros i Hi. cbn [d_pml4]. rewrite (pg_a _ _ _ _ _ Hpg) by (unfold idx; lia).
    by rewrite decide_False by lia.
  - intros i Hi. cbn [d_pdpt]. rewrite (pg_b _ _ _ _ _ Hpg) by (unfold idx; lia).
    by rewrite decide_False by lia.
  - intros i Hi N8 N9. cbn [d_pd]. rewrite (pg_c _ _ _ _ _ Hpg) by done.
    case_decide; [|done]. rewrite lookup_ge_None_2; [done|]. unfold idx in Hi. simpl. lia.
Qed.

Lemma unchanged_eff s' : unchanged s s' -> clone_eff s s' d 0 [].
Proof.
  intros [U1 U2 U3 U4 U5]. assert (forall t i, rd s' t i = rd s t i) as Hrd by (intros; by rewrite U2).
  split; [done| |done| | | |done|].
  - rewrite U2. apply statics_frames.
  - intros p Hp. rewrite (proj2 (Z.ltb_ge _ _)) by (unfold upage in Hp; simpl; lia). apply Hrd.
  - intros. apply Hrd.
  - intros x. rewrite decide_False by apply not_elem_of_nil. rewrite U4. change (countb _ 0) with 0. lia.
  - intros t Ht. by apply elem_of_nil in Ht.
Qed.

Lemma clone_directory :
  kernel_pml4 s <> 0 ->
  let '(s', r) := paging_cow_clone_user_directory s (d_pml4 d) in
  (r = 0 /\ (clone_eff s s' d 0 [] \/ clone_eff s s' d 512 [])) \/
  exists d', r = d_pml4 d' /\ clone_child s' d'.
Proof.
  intros Hk. unfold paging_cow_clone_user_directory.
  pose proof (dk_tabs _ _ Hd) as (T1 & T2 & T3 & _ & _).
  rewrite (pml4_nonzero s d Hd), (proj2 (Z.eqb_neq _ _) Hk). cbn [orb]. cbv zeta.
  rewrite (dk_pml4 _ _ Hd), entry_subtable_user by done.
  rewrite (proj2 (Z.eqb_neq (d_pdpt d) 0)) by (unfold tab in T2; lia).
  rewrite (dk_pdpt _ _ Hd), entry_subtable_user by done.
  rewrite (proj2 (Z.eqb_neq (d_pd d) 0)) by (unfold tab in T3; lia).
  destruct (alloc s) as [s1 a] eqn:E1. destruct (alloc s1) as [s2 b] eqn:E2.
  destruct (alloc s2) as [s3 c] eqn:E3.
  assert (allocd s s3 [a; b; c]) as Ha.
  { apply (allocd_snoc _ s2 [a; b]); [|done]. apply (allocd_snoc _ s1 [a]); [|done].
    apply (allocd_snoc _ s []); [|done]. by apply allocd_nil. }
  clear E1 E2 E3. destruct (_ || _) eqn:Ez.
  { left. split; [done|]. left. apply unchanged_eff.
    destruct (allocd_free _ _ _ Ha) as (H1 & H2 & H3 & H4 & H5). by split. }
  bool_to_prop. change (Z.to_nat USER_PD_COUNT) with 2%nat.
  pose proof (started_progress _ _ _ _ (clone_start _ _ _ _ Ha ltac:(done) ltac:(done) ltac:(done))) as P0.
  set (u0 := clone_upper _ _ _ _ _ _ _) in *. clearbody u0.
  pose proof (clone_tables_turn 1 u0 a b c [] P0 ltac:(simpl; lia)) as Et.
  cbn [length app] in Et. change (Z.of_nat 0) with 0 in Et. rewrite Et. clear Et.
  destruct (alloc u0) as [u1 x] eqn:Ex. destruct (Z.eqb_spec x 0) as [->|Nx].
  { left. split; [done|]. left. apply (pg_abort u0 a b c []); [done|simpl; lia]. }
  pose proof (pg_next u0 a b c [] P0 ltac:(simpl; lia) u1 x Ex Nx) as P1.
  cbn [length app] in P1. change (Z.of_nat 0) with 0 in P1. change (0 + 1) with 1.
  set (u2 := wr _ _ _ _) in *. clearbody u2.
  pose proof (clone_tables_turn 0 u2 a b c [x] P1 ltac:(simpl; lia)) as Et.
  cbn [length app] in Et. change (Z.of_nat 1) with 1 in Et. rewrite Et. clear Et.
  destruct (alloc u2) as [u3 y] eqn:Ey. destruct (Z.eqb_spec y 0) as [->|Ny].
  { left. split; [done|]. right. apply (pg_abort u2 a b c [x]); [done|simpl; lia]. }
  pose proof (pg_next u2 a b c [x] P1 ltac:(simpl; lia) u3 y Ey Ny) as P2.
  cbn [length app] in P2. change (Z.of_nat 1) with 1 in P2.
  set (u4 := wr _ _ _ _) in *. clearbody u4. cbn [clone_tables].
  right. exists (Dirt a b c x y). split; [done|]. by apply progress_child.
Qed.

End clone.

(** * Copy-on-write faults *)

(** A fault in page [p] of [d] that found the frame [a] shared and gave the
    page a copy of it in the fresh frame [n]. *)
Record resolve_copy (s s' : paging) (d : dirt) (p a n : Z) : Prop := ResolveCopy {
  rv_wf : wf (frames s');
  rv_statics : statics s s';
  rv_total : total_frames (frames s') = total_frames (frames s);
  rv_tab : tab n;
  rv_fresh : rc (frames s) n = 0 /\ ~ reserved (frames s) n;
  rv_vframe : vframe (frames s) n;
  rv_shared : rc (frames s) a <> 1;
  rv_rc x : rc (frames s') x =
    if decide (x = n) then 1 else if decide (x = a) then rc (frames s) a - 1 else rc (frames s) x;
  rv_res x : reserved (frames s) x -> reserved (frames s') x;
  rv_rd t i : tab t -> idx i -> rd s' t i =
    if decide (t = d_pt d p /\ i = p mod 512) then user_entry n
    else if decide (t = n) then rd s a i else rd s t i;
}.

(** A fault in page [p] of [d] that found itself the only owner. *)
Record resolve_own (s s' : paging) (d : dirt) (p a : Z) : Prop := ResolveOwn {
  ro_frames : frames s' = frames s;
  ro_statics : statics s s';
  ro_own : rc (frames s) a = 1;
  ro_rd t i : tab t -> idx i -> rd s' t i =
    if decide (t = d_pt d p /\ i = p mod 512) then user_entry a else rd s t i;
}.

Lemma align_page va :
  0 <= va < 2 ^ 64 ->
  in_user_range (4096 * (va / 4096)) = in_user_range va /\
  page_no (4096 * (va / 4096)) = page_no va.
Proof.
  intros Hva. split.
  - apply eq_true_iff_eq. rewrite !in_range_iff. zlia.
  - unfold page_no, PAGING_USER_BASE. zlia.
Qed.

Lemma resolve_own_intro s d p a x :
  tab (d_pt d p) -> rc (frames s) a = 1 ->
  resolve_own s (paging_invalidate_page (wr s (d_pt d p) (p mod 512) (user_entry a)) x) d p a.
Proof.
  intros Tp E1. split; [reflexivity|repeat split|exact E1|].
  intros t i Ht Hi. rewrite rd_invalidate, rd_wr_tab by eauto with lyth.
  repeat case_decide; naive_solver.
Qed.

Lemma resolve_copy_intro s d p a n f v x :
  wf (frames s) -> tab (d_pt d p) -> 0 < rc (frames s) (d_pt d p) ->
  tab a -> held (frames s) a -> rc (frames s) a <> 1 ->
  tab n -> held f n -> rc (frames s) n = 0 -> ~ reserved (frames s) n -> fupd (frames s) f n 1 ->
  v = copy_table (set_frames s f) n a ->
  resolve_copy s
    (paging_invalidate_page
       (wr (set_frames v (physmem_unref_frame (frames v) a)) (d_pt d p) (p mod 512) (user_entry n)) x)
    d p a n.
Proof.
  intros Hwf Tp Hp Ta Hh N1 Tn Hn Rn Sn Hu Ev.
  assert (a <> n) as Nan by (intros E; rewrite E in Hh; apply held_iff in Hh; lia).
  pose proof (sbw_copy (set_frames s f) n a) as Hsbw.
  pose proof (fun t i Ht Hi => copy_table_rd (set_frames s f) n a t i
    (tab_mod _ Tn) (tab_mod _ Ta) (not_eq_sym Nan) Ht Hi) as Hcopy.
  rewrite <- Ev in Hsbw, Hcopy. clear Ev. unfold same_but_words in Hsbw.
  assert (frames v = f) as Efv by (by rewrite Hsbw). rewrite Efv.
  assert (held f a) as Hha by (apply (fupd_held _ _ _ _ _ Hu); [done|lia]).
  pose proof (fupd_unref f a (fu_wf _ _ _ _ Hu) Hha) as Hu2.
  split.
  - apply (fu_wf _ _ _ _ Hu2).
  - apply (statics_trans _ v); [rewrite Hsbw; repeat split|repeat split].
  - transitivity (total_frames f); [apply (fu_total _ _ _ _ Hu2)|apply (fu_total _ _ _ _ Hu)].
  - exact Tn.
  - split; assumption.
  - apply held_vframe in Hn. unfold vframe in *. by rewrite <- (fu_total _ _ _ _ Hu).
  - exact N1.
  - intros y. change (rc (physmem_unref_frame f a) y = if decide (y = n) then 1 else
      if decide (y = a) then rc (frames s) a - 1 else rc (frames s) y).
    rewrite (fu_rc _ _ _ _ Hu2), !(fu_rc _ _ _ _ Hu).
    rewrite (decide_False (P := a = n)) by done. repeat case_decide; congruence.
  - intros y Hy. apply (fu_res _ _ _ _ Hu2). by apply (fu_res _ _ _ _ Hu).
  - intros t i Ht Hi. rewrite rd_invalidate, rd_wr_tab by eauto with lyth.
    change (rd (set_frames v (physmem_unref_frame f a)) t i) with (rd v t i).
    rewrite Hcopy by eauto with lyth. change (rd (set_frames s f)) with (rd s).
    repeat case_decide; naive_solver.
Qed.

Lemma resolve_directory s d va :
  wf (frames s) -> dir_ok s d -> (forall t, t ∈ tables d -> 0 < rc (frames s) t) ->
  0 <= va < 2 ^ 64 ->
  (bit (pte s d (page_no va)) PG_PRESENT = true ->
   held (frames s) (paddr (pte s d (page_no va)))) ->
  let '(s', r) := paging_cow_resolve s (d_pml4 d) va in
  (r = 0 /\ s' = s) \/
  (r = 1 /\ in_user_range va = true /\
   bit (pte s d (page_no va)) PG_PRESENT = true /\ bit (pte s d (page_no va)) PG_COW = true /\
   (resolve_own s s' d (page_no va) (paddr (pte s d (page_no va))) \/
    exists n, resolve_copy s s' d (page_no va) (paddr (pte s d (page_no va))) n)).
Proof.
  intros Hwf Hd Htab Hva Hh. unfold paging_cow_resolve. rewrite (pml4_nonzero s d Hd).
  rewrite align_down64_page by done. cbv zeta. destruct (align_page va Hva) as [Er Ep].
  destruct (in_user_range va) eqn:Hr.
  2: { pose proof Er as E. unfold in_user_range in E. apply negb_false_iff in E. rewrite E. by left. }
  destruct (range_guards _ Er) as [-> ->]. cbn [orb]. rewrite user_pt_for_dir by done.
  destruct (user_idx _ Er) as (_ & _ & _ & ->). rewrite Ep.
  set (p := page_no va) in *. pose proof (d_pt_tab s d p Hd) as Tp.
  rewrite (proj2 (Z.eqb_neq (d_pt d p) 0)) by (unfold tab in Tp; lia).
  change (rd s (d_pt d p) (p mod 512)) with (pte s d p).
  change (Z.land (pte s d p) PG_ADDR_MASK) with (paddr (pte s d p)).
  destruct (bit (pte s d p) PG_PRESENT) eqn:Bp; [|by left].
  destruct (bit (pte s d p) PG_COW) eqn:Bc; [|by left]. cbn [negb orb].
  specialize (Hh eq_refl). set (a := paddr (pte s d p)) in *.
  assert (tab a) as Ta by (apply (vframe_tab (frames s)); [done|by apply held_vframe]).
  rewrite u32_small by (unfold tab in Ta; lia). destruct (Z.eqb_spec (rc (frames s) a) 1) as [E1|N1].
  { right. do 4 (split; [reflexivity|]). left. by apply resolve_own_intro. }
  unfold alloc. destruct (physmem_alloc_frame (frames s)) as [f n] eqn:Ef.
  destruct (alloc_fupd _ _ _ Hwf Ef) as [[-> ->]|(Tn & Hn & Rn & Sn & Hu)].
  { rewrite Z.eqb_refl. left. split; [done|]. by destruct s. }
  rewrite (proj2 (Z.eqb_neq n 0)) by (unfold tab in Tn; lia).
  right. do 4 (split; [reflexivity|]). right. exists n.
  apply (resolve_copy_intro s d p a n f); try assumption; [|reflexivity].
  apply Htab, d_pt_in.
Qed.

(** * Release and destruction *)

(** Entry [p] of the page table [pt] maps the frame [b]. *)
Definition entry_maps (s : paging) (pt b p : Z) : bool :=
  bit (rd s pt p) PG_PRESENT && (paddr (rd s pt p) =? b).

(** Page [p] of [d] maps the frame [b]. *)
Definition maps (s : paging) (d : dirt) (b p : Z) : bool :=
  bit (pte s d p) PG_PRESENT && (paddr (pte s d p) =? b).

(** An entry after its release. *)
Definition released (e : Z) : Z := if bit e PG_PRESENT then 0 else e.

Section release_loop.
Context (s : paging) (pt : Z) (Hpt : tab pt) (Hwf : wf (frames s)).
Context (Hframe : forall p, idx p -> bit (rd s pt p) PG_PRESENT = true ->
  vframe (frames s) (paddr (rd s pt p))).
Context (Hcount : forall b, countb (entry_maps s pt b) 512 <= rc (frames s) b).

(** After the first [k] entries. *)
Record released_upto (k : Z) (u : paging) : Prop := ReleasedUpto {
  ru_wf : wf (frames u);
  ru_statics : statics s u;
  ru_total : total_frames (frames u) = total_frames (frames s);
  ru_rd t i : tab t -> idx i ->
    rd u t i = if decide (t = pt /\ i < k) then released (rd s pt i) else rd s t i;
  ru_rc b : rc (frames u) b = rc (frames s) b - countb (entry_maps s pt b) (Z.to_nat k);
  ru_res b : reserved (frames s) b -> reserved (frames u) b;
}.

Lemma release_step k u :
  idx k -> released_upto k u -> released_upto (k + 1) (release_page pt k u).
Proof.
  intros Hk [U1 U2 U3 U4 U5 U6]. pose proof Hk as Hk'. unfold idx in Hk'.
  assert (rd u pt k = rd s pt k) as Ek by (rewrite U4 by done; by rewrite decide_False by lia).
  assert (forall b, countb (entry_maps s pt b) (Z.to_nat (k + 1))
    = countb (entry_maps s pt b) (Z.to_nat k) + b2z (entry_maps s pt b k)) as Hc.
  { intros b. replace (Z.to_nat (k + 1)) with (S (Z.to_nat k)) by lia.
    Local Transparent countb. cbn [countb]. by rewrite Z2Nat.id by lia. }
  Local Opaque countb.
  unfold release_page. rewrite Ek. destruct (bit (rd s pt k) PG_PRESENT) eqn:Bp; cbn [negb].
  - change (Z.land (rd s pt k) PG_ADDR_MASK) with (paddr (rd s pt k)).
    set (a := paddr (rd s pt k)) in *. pose proof (Hframe k Hk Bp) as Hv. fold a in Hv.
    assert (tab a) as Ta by (by apply (vframe_tab (frames s))).
    assert (entry_maps s pt a k = true) as Ea by (unfold entry_maps; by rewrite Bp, Z.eqb_refl).
    assert (held (frames u) a) as Hh.
    { rewrite held_iff, U5. unfold vframe in *. rewrite U3. split; [done|].
      pose proof (countb_mono (entry_maps s pt a) (Z.to_nat (k + 1)) 512 ltac:(lia)) as Hm.
      rewrite Hc, Ea in Hm. change (b2z true) with 1 in Hm. pose proof (Hcount a). lia. }
    rewrite u32_small by (unfold tab in Ta; lia). pose proof (fupd_unref _ _ U1 Hh) as Hu.
    split.
    + apply (fu_wf _ _ _ _ Hu).
    + apply (statics_trans _ u); [exact U2|repeat split].
    + transitivity (total_frames (frames u)); [apply (fu_total _ _ _ _ Hu)|exact U3].
    + intros t i Ht Hi. rewrite rd_wr_tab by eauto with lyth.
      change (rd (set_frames u _) t i) with (rd u t i). rewrite U4 by done.
      unfold idx in Hi. clear - Hi Bp. destruct (decide (i = k)) as [->|].
      * unfold released. rewrite Bp. destruct (decide (t = pt)) as [->|]; dec_lia; done.
      * destruct (decide (t = pt)) as [->|]; try destruct (decide (i < k)); dec_lia; done.
    + intros b. transitivity (rc (physmem_unref_frame (frames u) a) b); [reflexivity|].
      rewrite (fu_rc _ _ _ _ Hu), !U5, Hc. unfold entry_maps at 4. rewrite Bp. fold a. cbn [andb].
      destruct (decide (b = a)) as [->|Hb].
      * rewrite Z.eqb_refl. change (b2z true) with 1. lia.
      * rewrite (proj2 (Z.eqb_neq a b)) by congruence. change (b2z false) with 0. lia.
    + intros b Hb. apply (fu_res _ _ _ _ Hu). by apply U6.
  - split; [done|done|done| | |done].
    + intros t i Ht Hi. rewrite U4 by done. unfold idx in Hi. clear - Hi Bp.
      destruct (decide (i = k)) as [->|].
      * unfold released. rewrite Bp. destruct (decide (t = pt)) as [->|]; dec_lia; done.
      * destruct (decide (t = pt)) as [->|]; try destruct (decide (i < k)); dec_lia; done.
    + intros b. rewrite U5, Hc. unfold entry_maps at 3. rewrite Bp. change (b2z (false && _)) with 0. lia.
Qed.

Lemma release_loop : released_upto 512 (for_loop (release_page pt) 512 0 s).
Proof.
  apply (for_loop_ind released_upto _ 512 0).
  - split; [done|apply statics_refl|done| | |done].
    + intros t i _ Hi. unfold idx in Hi. by rewrite decide_False by lia.
    + intros b. change (Z.to_nat 0) with 0%nat. change (countb _ 0) with 0. lia.
  - intros j t Hj. apply release_step. change (Z.of_nat 512) with 512 in Hj. unfold idx. lia.
Qed.

End release_loop.

Lemma countb_maps s d b :
  countb (maps s d b) 1024 =
  countb (entry_maps s (d_pt0 d) b) 512 + countb (entry_maps s (d_pt1 d) b) 512.
Proof.
  replace 1024%nat with (512 + 512)%nat by reflexivity. rewrite countb_app.
  rewrite (countb_ext (maps s d b) (entry_maps s (d_pt0 d) b)).
  - rewrite (countb_ext (fun i => maps s d b (Z.of_nat 512 + i)) (entry_maps s (d_pt1 d) b)); [reflexivity|].
    intros i Hi. unfold maps, entry_maps, pte, d_pt. change (Z.of_nat 512) with 512 in *.
    rewrite (proj2 (Z.ltb_ge (512 + i) 512)) by lia.
    by replace ((512 + i) mod 512) with i by zlia.
  - intros i Hi. unfold maps, entry_maps, pte, d_pt. change (Z.of_nat 512) with 512 in Hi.
    rewrite (proj2 (Z.ltb_lt i 512)) by lia. by rewrite Z.mod_small by lia.
Qed.

(** The pages of [d] are released: one reference each. *)
Record release_eff (s s' : paging) (d : dirt) : Prop := ReleaseEff {
  re_wf : wf (frames s');
  re_statics : statics s s';
  re_total : total_frames (frames s') = total_frames (frames s);
  re_pte p : upage p -> pte s' d p = released (pte s d p);
  re_rd t i : tab t -> idx i -> t <> d_pt0 d -> t <> d_pt1 d -> rd s' t i = rd s t i;
  re_rc b : rc (frames s') b = rc (frames s) b - countb (maps s d b) 1024;
  re_res b : reserved (frames s) b -> reserved (frames s') b;
}.

Lemma pte_low s d p : 0 <= p < 512 -> pte s d p = rd s (d_pt0 d) p.
Proof.
  intros Hp. unfold pte, d_pt. rewrite (proj2 (Z.ltb_lt p 512)) by lia. by rewrite Z.mod_small by lia.
Qed.

Lemma pte_high s d p : 0 <= p < 512 -> pte s d (512 + p) = rd s (d_pt1 d) p.
Proof.
  intros Hp. unfold pte, d_pt. rewrite (proj2 (Z.ltb_ge (512 + p) 512)) by lia.
  by replace ((512 + p) mod 512) with p by zlia.
Qed.

Lemma user_pt_turn s d ti :
  dir_ok s d -> 0 <= ti <= 1 ->
  user_pt_for s (d_pml4 d) (PAGING_USER_BASE + ti * ENTRIES_PER_TABLE * PAGING_PAGE_SIZE)
  = if ti =? 0 then d_pt0 d else d_pt1 d.
Proof.
  intros Hd Hti. rewrite user_pt_for_dir; [|done|].
  - assert (ti = 0 \/ ti = 1) as [-> | ->] by lia; reflexivity.
  - assert (ti = 0 \/ ti = 1) as [-> | ->] by lia; reflexivity.
Qed.

Lemma release_pages_eq s d :
  dir_ok s d -> dir_ok (for_loop (release_page (d_pt0 d)) 512 0 s) d ->
  paging_release_user_pages s (d_pml4 d) =
  for_loop (release_page (d_pt1 d)) 512 0 (for_loop (release_page (d_pt0 d)) 512 0 s).
Proof.
  intros Hd Hd1. unfold paging_release_user_pages. rewrite (pml4_nonzero s d Hd).
  change (Z.to_nat USER_PD_COUNT) with 2%nat. pose proof (dk_tabs _ _ Hd) as (_ & _ & _ & [_ T0] & [_ T1]).
  rewrite for_loop_two, (user_pt_turn s d 0) by (done || lia).
  change (0 =? 0) with true. cbv iota. rewrite (proj2 (Z.eqb_neq (d_pt0 d) 0)) by lia.
  rewrite (user_pt_turn _ d 1) by (done || lia).
  change (1 =? 0) with false. cbv iota. by rewrite (proj2 (Z.eqb_neq (d_pt1 d) 0)) by lia.
Qed.

Lemma release_directory s d :
  wf (frames s) -> dir_ok s d ->
  (forall p, upage p -> bit (pte s d p) PG_PRESENT = true -> vframe (frames s) (paddr (pte s d p))) ->
  (forall b, countb (maps s d b) 1024 <= rc (frames s) b) ->
  dir_ok (paging_release_user_pages s (d_pml4 d)) d /\
  release_eff s (paging_release_user_pages s (d_pml4 d)) d.
Proof.
  intros Hwf Hd Hv Hc. pose proof (dk_tabs _ _ Hd) as (_ & _ & _ & T0 & T1).
  pose proof (tables_distinct d (dk_nodup _ _ Hd)) as (_&_&N1&N2&_&N3&N4&N5&N6&N7).
  pose proof (fun b => countb_bound (entry_maps s (d_pt0 d) b) 512) as B0.
  pose proof (fun b => countb_bound (entry_maps s (d_pt1 d) b) 512) as B1.
  destruct (release_loop s (d_pt0 d) T0 Hwf) as [U1 U2 U3 U4 U5 U6].
  { intros p Hp Hb. rewrite <- pte_low in Hb |- * by done. apply Hv; [unfold upage, idx in *; lia|done]. }
  { intros b. specialize (Hc b). rewrite countb_maps in Hc. pose proof (B1 b). lia. }
  assert (dir_ok (for_loop (release_page (d_pt0 d)) 512 0 s) d) as Hd1.
  { apply (dir_ok_ext s); [exact Hd|]. intros t i Ht Hi.
    rewrite (U4 t i (upper_tab s d t Hd Ht) Hi).
    rewrite decide_False; [reflexivity|]. intros [-> _]. exact (pt_not_upper s d 0 Hd Ht). }
  rewrite (release_pages_eq s d Hd Hd1).
  set (u := for_loop (release_page (d_pt0 d)) 512 0 s) in *. clearbody u.
  assert (forall i, idx i -> rd u (d_pt1 d) i = rd s (d_pt1 d) i) as Hsame.
  { intros i Hi. rewrite U4 by done. rewrite decide_False; [done|]. intros [E _]. congruence. }
  assert (forall b, countb (entry_maps u (d_pt1 d) b) 512 = countb (entry_maps s (d_pt1 d) b) 512) as Hce.
  { intros b. apply countb_ext. intros i Hi. change (Z.of_nat 512) with 512 in Hi.
    unfold entry_maps. by rewrite Hsame. }
  destruct (release_loop u (d_pt1 d) T1 U1) as [V1 V2 V3 V4 V5 V6].
  { intros p Hp. rewrite Hsame by done. intros Hb. rewrite <- (pte_high s d p) in Hb |- * by done.
    unfold vframe. rewrite U3. apply Hv; [unfold upage, idx in *; lia|done]. }
  { intros b. rewrite Hce, U5, to_nat_512. specialize (Hc b). rewrite countb_maps in Hc. lia. }
  set (v := for_loop (release_page (d_pt1 d)) 512 0 u) in *. clearbody v.
  assert (forall t i, tab t -> idx i -> t <> d_pt0 d -> t <> d_pt1 d -> rd v t i = rd s t i) as Hrd.
  { intros t i Ht Hi M0 M1. rewrite V4 by done. rewrite decide_False by tauto.
    rewrite U4 by done. by rewrite decide_False by tauto. }
  split.
  - apply (dir_ok_ext s); [done|]. intros t i Ht Hi.
    apply Hrd; [exact (upper_tab s d t Hd Ht)|exact Hi|intros ->; exact (pt_not_upper s d 0 Hd Ht)
               |intros ->; exact (pt_not_upper s d 512 Hd Ht)].
  - split; [done|by apply (statics_trans _ u)|congruence| |done| |by eauto].
    + intros p Hp. unfold upage in Hp. destruct (Z.lt_ge_cases p 512).
      * rewrite !pte_low by lia. rewrite V4 by (done || (unfold idx; lia)).
        rewrite decide_False by (intros [? _]; congruence). rewrite U4 by (done || (unfold idx; lia)).
        by rewrite decide_True by lia.
      * replace p with (512 + (p - 512)) by lia. rewrite !pte_high by lia.
        rewrite V4 by (done || (unfold idx; lia)). rewrite decide_True by lia.
        by rewrite Hsame by (unfold idx; lia).
    + intros b. rewrite V5, U5, to_nat_512, Hce, countb_maps. lia.
Qed.

Lemma free_rd s a t i : rd (free s a) t i = rd s t i.
Proof. reflexivity. Qed.

Lemma destroy_directory_eq s d :
  dir_ok s d -> d_pml4 d <> kernel_pml4 s ->
  paging_destroy_user_directory s (d_pml4 d) =
  free_nonzero s [d_pt0 d; d_pt1 d; d_pd d; d_pdpt d; d_pml4 d].
Proof.
  intros Hd Hk. unfold paging_destroy_user_directory, free_user_pts.
  destruct (dk_tabs _ _ Hd) as (T1 & T2 & T3 & T4 & T5).
  rewrite (pml4_nonzero s d Hd), (proj2 (Z.eqb_neq _ _) Hk). cbn [orb]. cbv zeta.
  rewrite (dk_pml4 _ _ Hd), user_entry_bit by (done || (unfold PG_PRESENT; lia)).
  change (bit 7 PG_PRESENT) with true. cbn [negb]. unfold phys_to_virt. rewrite user_entry_addr by done.
  rewrite (dk_pdpt _ _ Hd), user_entry_bit by (done || (unfold PG_PRESENT; lia)).
  change (bit 7 PG_PRESENT) with true. cbn [negb]. rewrite user_entry_addr by done.
  change (Z.to_nat USER_PD_COUNT) with 2%nat. rewrite for_loop_two. change USER_PD_START with 8.
  change (8 + 0) with 8. change (8 + 1) with 9.
  rewrite (dk_pd0 _ _ Hd), !user_entry_bit by (done || (unfold PG_PRESENT, PG_PS; lia)).
  change (bit 7 PG_PRESENT && negb (bit 7 PG_PS)) with true. cbv iota.
  rewrite user_entry_addr by done. rewrite !free_rd.
  rewrite (dk_pd1 _ _ Hd), !user_entry_bit by (done || (unfold PG_PRESENT, PG_PS; lia)).
  change (bit 7 PG_PRESENT && negb (bit 7 PG_PS)) with true. cbv iota.
  rewrite user_entry_addr by done. rewrite !free_rd.
  rewrite (dk_pdpt _ _ Hd), (dk_pml4 _ _ Hd), !user_entry_addr by done.
  unfold free_nonzero. cbn [foldl]. unfold tab in *.
  by rewrite !(proj2 (Z.eqb_neq _ 0)) by lia.
Qed.

(** The tables of [d] go back to the allocator; no word changes. *)
Record destroyed (s s' : paging) (d : dirt) : Prop := Destroyed {
  de_wf : wf (frames s');
  de_only : s' = set_frames s (frames s');
  de_total : total_frames (frames s') = total_frames (frames s);
  de_rc b : rc (frames s') b = if decide (b ∈ tables d) then 0 else rc (frames s) b;
  de_res b : reserved (frames s) b -> reserved (frames s') b;
}.

Lemma destroy_directory s d :
  wf (frames s) -> dir_ok s d -> d_pml4 d <> kernel_pml4 s ->
  (forall t, t ∈ tables d -> held (frames s) t) ->
  destroyed s (paging_destroy_user_directory s (d_pml4 d)) d.
Proof.
  intros Hwf Hd Hk Hh. rewrite destroy_directory_eq by done.
  assert ([d_pt0 d; d_pt1 d; d_pd d; d_pdpt d; d_pml4 d] ≡ₚ tables d) as Hperm
    by (unfold tables; solve_Permutation).
  pose proof (dk_tab _ _ Hd) as HT. rewrite Forall_forall in HT.
  assert (nz [d_pt0 d; d_pt1 d; d_pd d; d_pdpt d; d_pml4 d]
          = [d_pt0 d; d_pt1 d; d_pd d; d_pdpt d; d_pml4 d]) as Enz.
  { apply nz_all, Forall_forall. intros x Hx. rewrite Hperm in Hx.
    destruct (HT x Hx) as [_ ?]. lia. }
  destruct (free_nonzero_spec [d_pt0 d; d_pt1 d; d_pd d; d_pdpt d; d_pml4 d] s Hwf)
    as (F1 & F2 & F3 & F4 & F5).
  - rewrite Enz, Hperm. apply (dk_nodup _ _ Hd).
  - intros x. rewrite Enz, Hperm. intros Hx. split; [by apply HT|by apply Hh].
  - split; [done|done|done| |done]. intros b. rewrite F4, Enz.
    destruct (decide (b ∈ tables d)) as [Hb|Hb].
    + rewrite decide_True; [done|]. by rewrite Hperm.
    + rewrite decide_False; [done|]. by rewrite Hperm.
Qed.
