(* ===== verification/Elf.v ===== *)
(** Executables: the parser of [kernel/elf.c] and the loader of
    [kernel/usermode.c], which copies the segments of an image into the memory
    of a new process.

    An image is the list of the bytes of the buffer that holds the file; a read
    outside it, undefined in C, makes the operation [None].  Inside, [Some None]
    is the code's refusal.  The user region is a sparse array of bytes by the
    offset from its base. *)
From S2P Require Import Prelude.
From S2P Require Import Paging.
From Stdlib Require Import ZArith Lia.
From stdpp Require Import base numbers list gmap.

Open Scope Z_scope.
Open Scope lyth_scope.

Definition ELF_CLASS_32 : Z := 1.
Definition ELF_CLASS_64 : Z := 2.
Definition ELF_DATA_LSB : Z := 1.
Definition ELF_VERSION_CURRENT : Z := 1.
Definition ELF_MACHINE_I386 : Z := 3.
Definition ELF_MACHINE_X86_64 : Z := 62.
Definition ELF_TYPE_EXEC : Z := 2.
Definition ELF_PROGRAM_TYPE_LOAD : Z := 1.
Definition sizeof_elf32_header : Z := 52.
Definition sizeof_elf64_header : Z := 64.
Definition sizeof_elf32_program_header : Z := 32.
Definition sizeof_elf64_program_header : Z := 56.

(** * Structures in the image *)

(** The value of [n] bytes at [off], least significant first. *)
Definition le_value (bs : list Z) : Z := foldr (fun b v => b + 256 * v) 0 bs.

Definition get (image : list Z) (off n : Z) : option Z :=
  if (0 <=? off) && (off + n <=? Z.of_nat (length image)) then Some (le_value (slice image off n)) else None.

(** The fields that are read of the file header and of a program header; both
    classes have the same fields at other places. *)
Record elf_header := ElfHeader {
  h_type : Z; h_machine : Z; h_entry : Z; h_phoff : Z; h_ehsize : Z; h_phentsize : Z; h_phnum : Z }.
Record program_header := ProgramHeader {
  ph_type : Z; ph_offset : Z; ph_vaddr : Z; ph_filesz : Z; ph_memsz : Z }.

Record elf_image_info := ElfImageInfo {
  entry : Z; program_header_offset : Z; program_header_count : Z; program_header_entry_size : Z;
  type : Z; machine : Z; loadable_segments : Z }.

Definition elf64_header (image : list Z) : option elf_header :=
  ty ← get image 16 2; ma ← get image 18 2; en ← get image 24 8; po ← get image 32 8;
  eh ← get image 52 2; pe ← get image 54 2; pn ← get image 56 2;
  Some (ElfHeader ty ma en po eh pe pn).

Definition elf32_header (image : list Z) : option elf_header :=
  ty ← get image 16 2; ma ← get image 18 2; en ← get image 24 4; po ← get image 28 4;
  eh ← get image 40 2; pe ← get image 42 2; pn ← get image 44 2;
  Some (ElfHeader ty ma en po eh pe pn).

Definition elf64_program_header (image : list Z) (off : Z) : option program_header :=
  ty ← get image off 4; fo ← get image (off + 8) 8; va ← get image (off + 16) 8;
  fs ← get image (off + 32) 8; ms ← get image (off + 40) 8;
  Some (ProgramHeader ty fo va fs ms).

Definition elf32_program_header (image : list Z) (off : Z) : option program_header :=
  ty ← get image off 4; fo ← get image (off + 4) 4; va ← get image (off + 8) 4;
  fs ← get image (off + 16) 4; ms ← get image (off + 20) 4;
  Some (ProgramHeader ty fo va fs ms).

(** A 64-bit offset added to a pointer, as a distance from the pointer. *)
Definition distance (off : Z) : Z :=
  if u64 off <? 9223372036854775808 then u64 off else u64 off - 18446744073709551616.

(** * [elf.c] *)

(** The scan of the program headers: the number of loadable segments so far. *)
Fixpoint parse_loop (ph : Z -> option program_header) (wrap : Z -> Z) (size : Z) (n : nat)
    (index loadable : Z) : option (option Z) :=
  match n with
  | O => Some (Some loadable)
  | S n' =>
      p ← ph index;
      if ph_type p =? ELF_PROGRAM_TYPE_LOAD then
        let segment_end := wrap (ph_offset p + ph_filesz p) in
        if (size <? segment_end) || (segment_end <? ph_offset p) then Some None
        else if ph_memsz p <? ph_filesz p then Some None
        else parse_loop ph wrap size n' (index + 1) (loadable + 1)
      else parse_loop ph wrap size n' (index + 1) loadable
  end.

Definition info_of (h : elf_header) (phoff loadable : Z) : elf_image_info :=
  ElfImageInfo (h_entry h) phoff (h_phnum h) (h_phentsize h) (h_type h) (h_machine h) loadable.

Definition elf_parse_32 (image : list Z) (size : Z) : option (option elf_image_info) :=
  h ← elf32_header image;
  if negb (h_machine h =? ELF_MACHINE_I386) || negb (h_type h =? ELF_TYPE_EXEC) then Some None
  else if negb (h_ehsize h =? sizeof_elf32_header) then Some None
  else if h_phnum h =? 0 then Some (Some (info_of h (h_phoff h) 0))
  else if negb (h_phentsize h =? sizeof_elf32_program_header) then Some None
  else
    let ph_end := u32 (h_phoff h + h_phnum h * h_phentsize h) in
    if (size <? ph_end) || (ph_end <? h_phoff h) then Some None
    else
      r ← parse_loop (fun i => elf32_program_header image (h_phoff h + i * h_phentsize h)) u32 size
            (Z.to_nat (h_phnum h)) 0 0;
      Some (option_map (info_of h (h_phoff h)) r).

Definition elf_parse_64 (image : list Z) (size : Z) : option (option elf_image_info) :=
  h ← elf64_header image;
  if negb (h_machine h =? ELF_MACHINE_X86_64) || negb (h_type h =? ELF_TYPE_EXEC) then Some None
  else if negb (h_ehsize h =? sizeof_elf64_header) then Some None
  else if h_phnum h =? 0 then Some (Some (info_of h (u32 (h_phoff h)) 0))
  else if negb (h_phentsize h =? sizeof_elf64_program_header) then Some None
  else
    let ph_end := u64 (h_phoff h + h_phnum h * h_phentsize h) in
    if size <? ph_end then Some None
    else
      r ← parse_loop (fun i => elf64_program_header image (distance (h_phoff h + i * h_phentsize h))) u64 size
            (Z.to_nat (h_phnum h)) 0 0;
      Some (option_map (info_of h (u32 (h_phoff h))) r).

Definition elf_parse_image (image : list Z) (size : Z) : option (option elf_image_info) :=
  if size <? 16 then Some None
  else
    m0 ← get image 0 1; m1 ← get image 1 1; m2 ← get image 2 1; m3 ← get image 3 1;
    cl ← get image 4 1; da ← get image 5 1; ve ← get image 6 1;
    if negb (m0 =? 127) || negb (m1 =? 69) || negb (m2 =? 76) || negb (m3 =? 70) then Some None
    else if negb (da =? ELF_DATA_LSB) || negb (ve =? ELF_VERSION_CURRENT) then Some None
    else if (cl =? ELF_CLASS_64) && (sizeof_elf64_header <=? size) then elf_parse_64 image size
    else if (cl =? ELF_CLASS_32) && (sizeof_elf32_header <=? size) then elf_parse_32 image size
    else Some None.

(** * The loader of [usermode.c] *)

(** [zero_memory] and [copy_memory] at an offset of the user region. *)
Definition zero_memory (off size : Z) (mem : sarr Z) : sarr Z :=
  for_loop (fun i mem => sset mem (off + i) 0) (Z.to_nat (u32 size)) 0 mem.

Definition copy_memory (off : Z) (image : list Z) (src size : Z) (mem : sarr Z) : sarr Z :=
  for_loop (fun i mem => sset mem (off + i) image.[src + i]) (Z.to_nat (u32 size)) 0 mem.

Definition align16 (v : Z) : Z := Z.land (u64 (v + 15)) (u64 (Z.lnot 15)).

(** One segment.  The source bytes have to be in the image. *)
Definition load_segment (image : list Z) (size : Z) (p : program_header) (mem : sarr Z) (highest : Z)
    : option (option (sarr Z * Z)) :=
  if negb (paging_address_is_user_accessible (ph_vaddr p) (ph_memsz p)) ||
     (size <? u64 (ph_offset p + ph_filesz p)) || (ph_memsz p <? ph_filesz p) then Some None
  else
    let seg_end := u64 (ph_vaddr p + ph_memsz p) in
    let highest := if highest <? seg_end then seg_end else highest in
    let off := ph_vaddr p - PAGING_USER_BASE in
    if Z.of_nat (length image) <? ph_offset p + ph_filesz p then None
    else Some (Some (copy_memory off image (ph_offset p) (ph_filesz p) (zero_memory off (ph_memsz p) mem),
                     highest)).

Fixpoint load_loop (image : list Z) (size : Z) (h : elf_header) (n : nat) (index : Z) (mem : sarr Z)
    (highest : Z) : option (option (sarr Z * Z)) :=
  match n with
  | O => Some (Some (mem, highest))
  | S n' =>
      p ← elf64_program_header image (distance (h_phoff h + index * h_phentsize h));
      if negb (ph_type p =? ELF_PROGRAM_TYPE_LOAD) then load_loop image size h n' (index + 1) mem highest
      else
        r ← load_segment image size p mem highest;
        match r with
        | None => Some None
        | Some (mem, highest) => load_loop image size h n' (index + 1) mem highest
        end
  end.

(** The memory, the base and the size of the heap of the new process. *)
Definition load_image (image : list Z) (size : Z) : option (option (sarr Z * Z * Z)) :=
  h ← elf64_header image;
  r ← load_loop image size h (Z.to_nat (h_phnum h)) 0 (sfill 0) PAGING_USER_BASE;
  match r with
  | None => Some None
  | Some (mem, highest) =>
      let user_heap_base := align16 highest in
      if PAGING_USER_STACK_GUARD_BASE <=? user_heap_base then Some None
      else Some (Some (mem, user_heap_base, PAGING_USER_STACK_GUARD_BASE - user_heap_base))
  end.

(** Parsing and loading, as the three loaders of the file compose them; [room]
    tells whether both [physmem_alloc_region] and [paging_create_user_directory]
    had memory for the process ([AddrSpace.spawn_elf] runs the two allocators). *)
Definition load_elf (image : list Z) (size : Z) (room : bool) : option (option (Z * sarr Z * Z * Z)) :=
  i ← elf_parse_image image size;
  match i with
  | None => Some None
  | Some info =>
      if negb room then Some None
      else
        r ← load_image image size;
        Some (option_map (fun '(mem, heap, heap_size) => (entry info, mem, heap, heap_size)) r)
  end.

(** * Reading the structures *)

Definition bytes (l : list Z) : Prop := Forall (fun b => 0 <= b < 256) l.

Lemma get_Some image off n :
  0 <= off -> off + n <= Z.of_nat (length image) -> get image off n = Some (le_value (slice image off n)).
Proof.
  intros H1 H2. unfold get. by rewrite (proj2 (Z.leb_le 0 off)), (proj2 (Z.leb_le (off + n) _)).
Qed.

Lemma get_outside image off n : off < 0 -> get image off n = None.
Proof. intros H. unfold get. by rewrite (proj2 (Z.leb_gt 0 off)). Qed.

Lemma get_past image off n : Z.of_nat (length image) < off + n -> get image off n = None.
Proof. intros H. unfold get. by rewrite (proj2 (Z.leb_gt (off + n) _)), andb_false_r. Qed.

Lemma le_value_bound bs : bytes bs -> 0 <= le_value bs < 256 ^ Z.of_nat (length bs).
Proof.
  induction 1 as [|b l Hb _ IH]; cbn [le_value foldr length]; [lia|].
  fold (le_value l). rewrite Nat2Z.inj_succ, Z.pow_succ_r by lia. lia.
Qed.

Lemma slice_bytes image off n :
  bytes image -> 0 <= off -> 0 <= n -> off + n <= Z.of_nat (length image) -> bytes (slice image off n).
Proof.
  intros Hb Ho Hn Hl. apply Forall_lookup. intros i b Hi.
  pose proof (lookup_lt_Some _ _ _ Hi) as Hlt. pose proof (slice_length image off n Hn) as Hlen.
  assert (b = image.[off + Z.of_nat i]) as ->.
  { rewrite <- (Nat2Z.id i), slice_lookup in Hi by lia. congruence. }
  unfold bytes in Hb. rewrite Forall_lookup in Hb. apply (Hb (Z.to_nat (off + Z.of_nat i))).
  apply aget_lookup. lia.
Qed.

Lemma get_bound image off n v :
  bytes image -> 0 <= n -> get image off n = Some v -> 0 <= v < 256 ^ n.
Proof.
  intros Hb Hn. unfold get. destruct (_ && _) eqn:E; [|done]. intros [= <-].
  apply andb_prop in E as [E1%Z.leb_le E2%Z.leb_le].
  pose proof (le_value_bound _ (slice_bytes image off n Hb E1 Hn E2)) as H.
  by rewrite slice_length in H.
Qed.

(** Reading a structure that lies in the image. *)
Lemma header64_Some image :
  bytes image -> 64 <= Z.of_nat (length image) ->
  exists h, elf64_header image = Some h /\ 0 <= h_phoff h < 2 ^ 64 /\ 0 <= h_phnum h < 65536 /\
    0 <= h_phentsize h < 65536.
Proof.
  intros Hb Hl. unfold elf64_header. rewrite !get_Some by lia. cbn [mbind option_bind].
  eexists. split; [reflexivity|]. cbn [h_phoff h_phnum h_phentsize].
  pose proof (get_bound image 32 8 _ Hb ltac:(lia) (get_Some image 32 8 ltac:(lia) ltac:(lia))).
  pose proof (get_bound image 56 2 _ Hb ltac:(lia) (get_Some image 56 2 ltac:(lia) ltac:(lia))).
  pose proof (get_bound image 54 2 _ Hb ltac:(lia) (get_Some image 54 2 ltac:(lia) ltac:(lia))).
  split_and!; lia.
Qed.

Lemma program64_Some image off :
  bytes image -> 0 <= off -> off + 56 <= Z.of_nat (length image) ->
  exists p, elf64_program_header image off = Some p /\ 0 <= ph_offset p < 2 ^ 64 /\
    0 <= ph_vaddr p < 2 ^ 64 /\ 0 <= ph_filesz p < 2 ^ 64 /\ 0 <= ph_memsz p < 2 ^ 64.
Proof.
  intros Hb Ho Hl. unfold elf64_program_header. rewrite !get_Some by lia. cbn [mbind option_bind].
  eexists. split; [reflexivity|]. cbn [ph_offset ph_vaddr ph_filesz ph_memsz].
  assert (forall o, 0 <= o -> o + 8 <= 56 -> 0 <= le_value (slice image (off + o) 8) < 2 ^ 64) as H.
  { intros o H1 H2. change (2 ^ 64) with (256 ^ 8).
    apply (get_bound image (off + o) 8); [done|lia|]. apply get_Some; lia. }
  split_and!; apply H; lia.
Qed.

(** A 32-bit header and program header. *)
Lemma header32_Some image :
  bytes image -> 52 <= Z.of_nat (length image) ->
  exists h, elf32_header image = Some h /\ 0 <= h_phoff h < 2 ^ 32 /\ 0 <= h_phnum h < 65536 /\
    0 <= h_phentsize h < 65536.
Proof.
  intros Hb Hl. unfold elf32_header. rewrite !get_Some by lia. cbn [mbind option_bind].
  eexists. split; [reflexivity|]. cbn [h_phoff h_phnum h_phentsize].
  pose proof (get_bound image 28 4 _ Hb ltac:(lia) (get_Some image 28 4 ltac:(lia) ltac:(lia))).
  pose proof (get_bound image 44 2 _ Hb ltac:(lia) (get_Some image 44 2 ltac:(lia) ltac:(lia))).
  pose proof (get_bound image 42 2 _ Hb ltac:(lia) (get_Some image 42 2 ltac:(lia) ltac:(lia))).
  split_and!; lia.
Qed.

Lemma program32_Some image off :
  bytes image -> 0 <= off -> off + 32 <= Z.of_nat (length image) ->
  exists p, elf32_program_header image off = Some p /\ 0 <= ph_offset p < 2 ^ 32 /\
    0 <= ph_vaddr p < 2 ^ 32 /\ 0 <= ph_filesz p < 2 ^ 32 /\ 0 <= ph_memsz p < 2 ^ 32.
Proof.
  intros Hb Ho Hl. unfold elf32_program_header. rewrite !get_Some by lia. cbn [mbind option_bind].
  eexists. split; [reflexivity|]. cbn [ph_offset ph_vaddr ph_filesz ph_memsz].
  assert (forall o, 0 <= o -> o + 4 <= 32 -> 0 <= le_value (slice image (off + o) 4) < 2 ^ 32) as H.
  { intros o H1 H2. change (2 ^ 32) with (256 ^ 4).
    apply (get_bound image (off + o) 4); [done|lia|]. apply get_Some; lia. }
  split_and!; apply H; lia.
Qed.

(** * What is accepted *)

Definition loadable (p : program_header) : bool := ph_type p =? ELF_PROGRAM_TYPE_LOAD.

(** A loadable segment has its bytes in a file of the given size, and not more
    of them than it has memory. *)
Definition segment_ok (size : Z) (p : program_header) : bool :=
  negb (loadable p) || (ph_offset p + ph_filesz p <=? size) && (ph_filesz p <=? ph_memsz p).

(** The program headers at indexes [lo] to [lo + n - 1], in order. *)
Definition headers (ph : Z -> option program_header) (lo : Z) (n : nat) : list program_header :=
  omap ph (seqZ lo (Z.of_nat n)).

Lemma headers_cons ph lo n p :
  ph lo = Some p -> headers ph lo (S n) = p :: headers ph (lo + 1) n.
Proof.
  intros H. unfold headers. rewrite seqZ_cons by lia. cbn [omap list_omap]. rewrite H.
  do 3 f_equal; lia.
Qed.

(** The scan accepts exactly when every loadable segment is in the file, and
    counts the loadable ones. *)
Lemma parse_loop_spec ph w size n : 0 <= w -> size < 2 ^ w -> forall index count,
  (forall i, index <= i < index + Z.of_nat n -> exists p, ph i = Some p /\
     0 <= ph_offset p < 2 ^ w /\ 0 <= ph_filesz p < 2 ^ w) ->
  parse_loop ph (fun z => z mod 2 ^ w) size n index count =
    Some (if forallb (segment_ok size) (headers ph index n) then
            Some (count + Z.of_nat (length (List.filter loadable (headers ph index n)))) else None).
Proof.
  intros Hw Hs. induction n as [|n IH]; intros index count Hph.
  { change (headers ph index 0) with ([] : list program_header). simpl. do 2 f_equal; lia. }
  destruct (Hph index ltac:(lia)) as (p & Ep & Ho & Hf).
  rewrite (headers_cons _ _ _ p Ep). cbn [parse_loop forallb]. rewrite Ep. cbn [mbind option_bind].
  assert (forall i, index + 1 <= i < index + 1 + Z.of_nat n -> exists p, ph i = Some p /\
     0 <= ph_offset p < 2 ^ w /\ 0 <= ph_filesz p < 2 ^ w) as Hph' by (intros; apply Hph; lia).
  cbn [List.filter]. unfold segment_ok at 1, loadable at 1 2.
  destruct (ph_type p =? ELF_PROGRAM_TYPE_LOAD) eqn:Et.
  2:{ by rewrite IH. }
  assert ((size <? (ph_offset p + ph_filesz p) mod 2 ^ w) ||
          ((ph_offset p + ph_filesz p) mod 2 ^ w <? ph_offset p) =
          (size <? ph_offset p + ph_filesz p)) as ->.
  { destruct (decide (ph_offset p + ph_filesz p < 2 ^ w)) as [Hlt|Hge].
    - rewrite Z.mod_small by lia. rewrite (proj2 (Z.ltb_ge (_ + _) (ph_offset p))) by lia. apply orb_false_r.
    - assert ((ph_offset p + ph_filesz p) mod 2 ^ w = ph_offset p + ph_filesz p - 2 ^ w) as ->.
      { symmetry. apply (Z.mod_unique_pos _ _ 1); lia. }
      rewrite (proj2 (Z.ltb_lt (_ - _) (ph_offset p))) by lia. rewrite orb_true_r. symmetry. by apply Z.ltb_lt; lia. }
  cbn [negb orb]. rewrite (Z.ltb_antisym _ size), (Z.ltb_antisym _ (ph_memsz p)).
  destruct (_ <=? size) eqn:E1; cbn [negb andb]; [|done].
  destruct (ph_filesz p <=? ph_memsz p) eqn:E2; cbn [negb andb]; [|done].
  rewrite IH by done.
  cbn [length]. destruct (forallb _ _); [|done]. do 2 f_equal; lia.
Qed.

(** The layouts of the two classes. *)
Record elf_class := ElfClass {
  c_header : list Z -> option elf_header; c_program : list Z -> Z -> option program_header;
  c_machine : Z; c_ehsize : Z; c_phentsize : Z }.

Definition class64 : elf_class :=
  ElfClass elf64_header elf64_program_header ELF_MACHINE_X86_64 sizeof_elf64_header sizeof_elf64_program_header.
Definition class32 : elf_class :=
  ElfClass elf32_header elf32_program_header ELF_MACHINE_I386 sizeof_elf32_header sizeof_elf32_program_header.

Definition class_of (image : list Z) : option elf_class :=
  if bool_decide (slice image 0 4 = [127; 69; 76; 70]) && (image.[5] =? ELF_DATA_LSB) &&
     (image.[6] =? ELF_VERSION_CURRENT) then
    if (image.[4] =? ELF_CLASS_64) && (64 <=? Z.of_nat (length image)) then Some class64
    else if (image.[4] =? ELF_CLASS_32) && (52 <=? Z.of_nat (length image)) then Some class32
    else None
  else None.

Definition table (c : elf_class) (image : list Z) (h : elf_header) : list program_header :=
  headers (fun i => c_program c image (h_phoff h + i * c_phentsize c)) 0 (Z.to_nat (h_phnum h)).

Definition head_ok (c : elf_class) (h : elf_header) : bool :=
  (h_machine h =? c_machine c) && (h_type h =? ELF_TYPE_EXEC) && (h_ehsize h =? c_ehsize c).

(** An executable of the class whose table and segments are in the file. *)
Definition well_formed (c : elf_class) (image : list Z) (h : elf_header) : bool :=
  head_ok c h &&
  ((h_phnum h =? 0) ||
   (h_phentsize h =? c_phentsize c) &&
   (h_phoff h + h_phnum h * c_phentsize c <=? Z.of_nat (length image)) &&
   forallb (segment_ok (Z.of_nat (length image))) (table c image h)).

(** The end of the table is computed to be in the file only because it wraps. *)
Definition table_wraps (image : list Z) (h : elf_header) : bool :=
  head_ok class64 h && negb (h_phnum h =? 0) && (h_phentsize h =? 56) &&
  (18446744073709551616 <=? h_phoff h + h_phnum h * 56) &&
  (u64 (h_phoff h + h_phnum h * 56) <=? Z.of_nat (length image)).

Definition info_for (c : elf_class) (image : list Z) (h : elf_header) : elf_image_info :=
  info_of h (u32 (h_phoff h))
    (if h_phnum h =? 0 then 0 else Z.of_nat (length (List.filter loadable (table c image h)))).

Lemma distance_small off : 0 <= off < 9223372036854775808 -> distance off = off.
Proof. intros H. unfold distance. rewrite u64_small by lia. by rewrite (proj2 (Z.ltb_lt off _)) by lia. Qed.

Lemma distance_large off : 9223372036854775808 <= off < 18446744073709551616 -> distance off < 0.
Proof.
  intros H. unfold distance. rewrite u64_small by lia. rewrite (proj2 (Z.ltb_ge off _)) by lia. lia.
Qed.

Lemma headers_ext ph ph' lo n :
  (forall i, lo <= i < lo + Z.of_nat n -> ph i = ph' i) -> headers ph lo n = headers ph' lo n.
Proof.
  revert lo. induction n as [|n IH]; intros lo H; [done|]. unfold headers in *.
  rewrite !seqZ_cons by lia. cbn [omap list_omap]. rewrite <- (H lo) by lia.
  replace (Z.pred (Z.of_nat (S n))) with (Z.of_nat n) by lia. rewrite <- Z.add_1_r.
  rewrite IH by (intros; apply H; lia). done.
Qed.

Lemma parse_loop_ext ph ph' w size n : forall index count,
  (forall i, index <= i < index + Z.of_nat n -> ph i = ph' i) ->
  parse_loop ph w size n index count = parse_loop ph' w size n index count.
Proof.
  induction n as [|n IH]; intros index count H; [done|]. cbn [parse_loop]. rewrite <- (H index) by lia.
  destruct (ph index) as [p|]; [|done]. cbn [mbind option_bind].
  repeat case_match; try done; apply IH; intros; apply H; lia.
Qed.

Lemma program64_outside image off : off < 0 -> elf64_program_header image off = None.
Proof. intros H. unfold elf64_program_header. by rewrite (get_outside image off). Qed.

Section Parse.
Context (image : list Z) (Hb : bytes image).
Notation size := (Z.of_nat (length image)).
Context (Hsize : size < 4294967296).

Lemma elf_parse_64_spec h :
  64 <= size -> elf64_header image = Some h ->
  elf_parse_64 image size =
    if table_wraps image h then None
    else Some (if well_formed class64 image h then Some (info_for class64 image h) else None).
Proof.
  intros Hl Eh. destruct (header64_Some image Hb Hl) as (h' & Eh' & Hpo & Hpn & _).
  rewrite Eh in Eh'. injection Eh' as <-. unfold elf_parse_64. rewrite Eh. cbn [mbind option_bind].
  unfold table_wraps, well_formed, head_ok, info_for, class64. cbn [c_machine c_ehsize c_phentsize].
  destruct (h_machine h =? _); cbn [negb orb andb]; [|done].
  destruct (h_type h =? _); cbn [negb orb andb]; [|done].
  destruct (h_ehsize h =? _); cbn [negb orb andb]; [|done].
  destruct (h_phnum h =? 0) eqn:E0; cbn [negb orb andb]; [done|]. apply Z.eqb_neq in E0.
  change sizeof_elf64_program_header with 56.
  destruct (h_phentsize h =? 56) eqn:Ee; cbn [negb orb andb]; [|done]. apply Z.eqb_eq in Ee. rewrite Ee.
  destruct (18446744073709551616 <=? h_phoff h + h_phnum h * 56) eqn:Ew; cbn [andb].
  - apply Z.leb_le in Ew. rewrite (Z.leb_antisym size), (proj2 (Z.leb_gt _ size)) by lia.
    destruct (size <? _); cbn [negb]; [done|].
    destruct (Z.to_nat (h_phnum h)) as [|n] eqn:En; [lia|]. cbn [parse_loop].
    rewrite program64_outside; [done|]. apply distance_large. lia.
  - apply Z.leb_gt in Ew. rewrite u64_small by lia. rewrite Z.ltb_antisym.
    destruct (_ <=? size) eqn:Es; cbn [negb andb]; [|done]. apply Z.leb_le in Es.
    rewrite (parse_loop_ext _ (fun i => elf64_program_header image (h_phoff h + i * 56))).
    2:{ intros i Hi. f_equal. apply distance_small. lia. }
    rewrite (parse_loop_spec _ 64); [|lia|lia|].
    2:{ intros i Hi. destruct (program64_Some image (h_phoff h + i * 56) Hb) as (p & ? & ? & ? & ? & ?);
        [lia|lia|by exists p]. }
    cbn [mbind option_bind]. unfold table. cbn [c_program c_phentsize].
    by destruct (forallb _ _).
Qed.

Lemma elf_parse_32_spec h :
  52 <= size -> elf32_header image = Some h ->
  elf_parse_32 image size = Some (if well_formed class32 image h then Some (info_for class32 image h) else None).
Proof.
  intros Hl Eh. destruct (header32_Some image Hb Hl) as (h' & Eh' & Hpo & Hpn & _).
  rewrite Eh in Eh'. injection Eh' as <-. unfold elf_parse_32. rewrite Eh. cbn [mbind option_bind].
  unfold well_formed, head_ok, info_for, class32. cbn [c_machine c_ehsize c_phentsize].
  rewrite (u32_small (h_phoff h)) by lia.
  destruct (h_machine h =? _); cbn [negb orb andb]; [|done].
  destruct (h_type h =? _); cbn [negb orb andb]; [|done].
  destruct (h_ehsize h =? _); cbn [negb orb andb]; [|done].
  destruct (h_phnum h =? 0) eqn:E0; cbn [negb orb andb]; [done|]. apply Z.eqb_neq in E0.
  change sizeof_elf32_program_header with 32.
  destruct (h_phentsize h =? 32) eqn:Ee; cbn [negb orb andb]; [|done]. apply Z.eqb_eq in Ee. rewrite Ee.
  rewrite (Z.leb_antisym size).
  destruct (decide (h_phoff h + h_phnum h * 32 < 4294967296)) as [Hw|Hw].
  - rewrite u32_small by lia. rewrite (proj2 (Z.ltb_ge (_ + _) (h_phoff h))) by lia. rewrite orb_false_r.
    destruct (size <? _) eqn:Es; cbn [negb andb]; [done|]. apply Z.ltb_ge in Es.
    rewrite (parse_loop_spec _ 32); [|lia|lia|].
    2:{ intros i Hi. destruct (program32_Some image (h_phoff h + i * 32) Hb) as (p & ? & ? & ? & ? & ?);
        [lia|lia|by exists p]. }
    cbn [mbind option_bind]. unfold table. cbn [c_program c_phentsize].
    by destruct (forallb _ _).
  - assert (u32 (h_phoff h + h_phnum h * 32) < h_phoff h) as Hlt by (unfold u32; zlia).
    rewrite (proj2 (Z.ltb_lt _ (h_phoff h)) Hlt), orb_true_r.
    rewrite (proj2 (Z.ltb_lt size _)) by lia. done.
Qed.
End Parse.

Lemma get_byte image k : 0 <= k < Z.of_nat (length image) -> get image k 1 = Some image.[k].
Proof.
  intros H. rewrite get_Some by lia. f_equal. change (slice image k 1) with [image.[k + 0]].
  rewrite Z.add_0_r. unfold le_value. cbn [foldr]. lia.
Qed.

Lemma elf_parse_image_dispatch image :
  let size := Z.of_nat (length image) in
  elf_parse_image image size =
    if 16 <=? size then
      match class_of image with
      | Some c => if c_ehsize c =? 64 then elf_parse_64 image size else elf_parse_32 image size
      | None => Some None
      end
    else Some None.
Proof.
  intros size. unfold elf_parse_image. rewrite (Z.leb_antisym size 16). destruct (size <? 16) eqn:Es; [done|].
  apply Z.ltb_ge in Es. rewrite !get_byte by (unfold size in *; lia). cbn [mbind option_bind negb].
  unfold class_of. fold size.
  assert (bool_decide (slice image 0 4 = [127; 69; 76; 70]) =
    (image.[0] =? 127) && (image.[1] =? 69) && (image.[2] =? 76) && (image.[3] =? 70)) as ->.
  { change (slice image 0 4) with [image.[0]; image.[1]; image.[2]; image.[3]]. apply eq_true_iff_eq.
    rewrite bool_decide_eq_true, !andb_true_iff, !Z.eqb_eq. split; [by intros [= -> -> -> ->]|].
    by intros [[[-> ->] ->] ->]. }
  destruct (image.[0] =? 127), (image.[1] =? 69), (image.[2] =? 76), (image.[3] =? 70); try done.
  destruct (image.[5] =? _), (image.[6] =? _); try done. cbn [negb orb andb].
  change sizeof_elf64_header with 64. change sizeof_elf32_header with 52.
  destruct ((image.[4] =? ELF_CLASS_64) && _); [done|]. destruct ((image.[4] =? ELF_CLASS_32) && _); done.
Qed.

Lemma class_of_size image c :
  class_of image = Some c -> c_ehsize c <= Z.of_nat (length image) /\ (c = class64 \/ c = class32).
Proof.
  unfold class_of. repeat case_match; try done; intros [= <-]; bool_to_prop; split; auto.
Qed.

Lemma well_formed_no_wrap image h :
  Z.of_nat (length image) < 4294967296 -> 0 <= h_phoff h -> 0 <= h_phnum h ->
  well_formed class64 image h = true -> table_wraps image h = false.
Proof.
  intros Hs H1 H2. unfold well_formed, table_wraps. destruct (head_ok class64 h); [|done]. cbn [andb].
  destruct (h_phnum h =? 0); [done|]. cbn [orb negb andb].
  change (c_phentsize class64) with 56. destruct (h_phentsize h =? 56); [|done]. cbn [andb].
  intros [H%Z.leb_le _]%andb_prop. rewrite (proj2 (Z.leb_gt _ _)); [done|lia].
Qed.

(** C23: on the bytes of a file of less than 4 GiB, [elf_parse_image] accepts
    exactly the images whose identification names a class, whose header is one
    of an executable of that class, and whose program headers and loadable
    segments lie in the file; it then reports the entry, the table and the
    number of loadable segments.  It reads outside the file exactly when the
    image is a 64-bit one whose table end wraps around to an offset in the
    file, which [elf_parse_64], unlike [elf_parse_32], does not test; the
    program header it then reads lies before the image. *)
Theorem elf_parse_image_accepts image :
  bytes image -> Z.of_nat (length image) < 4294967296 ->
  (forall info, elf_parse_image image (Z.of_nat (length image)) = Some (Some info) <->
     exists c h, class_of image = Some c /\ c_header c image = Some h /\ well_formed c image h = true /\
       info = info_for c image h) /\
  (elf_parse_image image (Z.of_nat (length image)) = None <->
     class_of image = Some class64 /\ exists h, elf64_header image = Some h /\ table_wraps image h = true).
Proof.
  intros Hb Hs. rewrite elf_parse_image_dispatch.
  destruct (class_of image) as [c|] eqn:Ec.
  2:{ destruct (16 <=? _); (split; [intros info; split; [done|by intros (? & ? & ? & _)]|];
      split; [done|by intros []]). }
  destruct (class_of_size image c Ec) as [Hc [-> | ->]].
  - rewrite (proj2 (Z.leb_le 16 _)) by (change (c_ehsize class64) with 64 in Hc; lia).
    destruct (header64_Some image Hb Hc) as (h & Eh & Hpo & Hpn & _).
    cbn [c_ehsize class64]. change (_ =? 64) with true. cbn [negb].
    rewrite (elf_parse_64_spec image Hb Hs h Hc Eh). split.
    + intros info. split.
      * destruct (table_wraps image h); [done|]. destruct (well_formed class64 image h) eqn:Ew; [|done].
        intros [= <-]. by exists class64, h.
      * intros (c & h' & [= <-] & Eh' & Ew & ->). cbn in Eh'. rewrite Eh in Eh'. injection Eh' as <-.
        rewrite well_formed_no_wrap by (done || lia). by rewrite Ew.
    + split; [|intros (_ & h' & Eh' & Ew); rewrite Eh in Eh'; injection Eh' as <-; by rewrite Ew].
      destruct (table_wraps image h) eqn:Ew; [|done]. intros _. split; [done|]. by exists h.
  - rewrite (proj2 (Z.leb_le 16 _)) by (change (c_ehsize class32) with 52 in Hc; lia).
    destruct (header32_Some image Hb Hc) as (h & Eh & Hpo & Hpn & _).
    cbn [c_ehsize class32]. change (_ =? 64) with false. cbn [negb].
    rewrite (elf_parse_32_spec image Hb Hs h Hc Eh). split; [|split; [done|by intros []]].
    intros info. split.
    + destruct (well_formed class32 image h) eqn:Ew; [|done]. intros [= <-]. by exists class32, h.
    + intros (c & h' & [= <-] & Eh' & Ew & ->). cbn in Eh'. rewrite Eh in Eh'. injection Eh' as <-. by rewrite Ew.
Qed.

(** * Loading *)

Lemma write_loop_spec (f : Z -> Z) off n mem a :
  0 <= n ->
  sget (for_loop (fun i m => sset m (off + i) (f i)) (Z.to_nat n) 0 mem) a =
    if (off <=? a) && (a <? off + n) then f (a - off) else sget mem a.
Proof.
  intros Hn.
  pose (I := fun k m => sget m a = if (off <=? a) && (a <? off + k) then f (a - off) else sget mem a).
  enough (I (0 + Z.of_nat (Z.to_nat n)) (for_loop (fun i m => sset m (off + i) (f i)) (Z.to_nat n) 0 mem)) as H.
  { unfold I in H. rewrite Z2Nat.id in H by lia. exact H. }
  apply (for_loop_ind I); unfold I.
  - by rewrite Z.add_0_r, (Z.ltb_antisym off), andb_negb_r.
  - intros k m Hk IH. rewrite sget_sset, IH. case_decide as Ha.
    + subst a. replace (off + k - off) with k by lia.
      rewrite (proj2 (Z.leb_le off _)), (proj2 (Z.ltb_lt (off + k) _)) by lia. done.
    + repeat case_match; bool_to_prop; try lia; done.
Qed.

Definition in_region (p : program_header) : bool := paging_address_is_user_accessible (ph_vaddr p) (ph_memsz p).

(** The address is one of the segment, and what the segment has there. *)
Definition covers (p : program_header) (a : Z) : bool := (ph_vaddr p <=? a) && (a <? ph_vaddr p + ph_memsz p).

Definition segment_byte (image : list Z) (p : program_header) (a : Z) : Z :=
  if a <? ph_vaddr p + ph_filesz p then image.[ph_offset p + (a - ph_vaddr p)] else 0.

(** The memory after the segments, by address. *)
Definition memory_of (image : list Z) (segs : list program_header) (a init : Z) : Z :=
  fold_left (fun v p => if covers p a then segment_byte image p a else v) segs init.

Definition segments_end (segs : list program_header) (init : Z) : Z :=
  fold_left (fun e p => Z.max e (ph_vaddr p + ph_memsz p)) segs init.

Lemma in_region_bounds p :
  0 <= ph_vaddr p < 2 ^ 64 -> 0 <= ph_memsz p < 2 ^ 64 -> in_region p = true ->
  PAGING_USER_BASE <= ph_vaddr p /\ 0 < ph_memsz p /\
  ph_vaddr p + ph_memsz p <= PAGING_USER_BASE + PAGING_USER_SIZE.
Proof.
  intros H1 H2 H. apply (address_check _ _ H1 H2) in H.
  unfold PAGING_USER_BASE, PAGING_USER_SIZE. lia.
Qed.

Lemma load_segment_spec image p mem highest :
  Z.of_nat (length image) < 4294967296 -> 0 <= ph_offset p -> 0 <= ph_filesz p ->
  0 <= ph_vaddr p < 2 ^ 64 -> 0 <= ph_memsz p < 2 ^ 64 ->
  loadable p = true -> segment_ok (Z.of_nat (length image)) p = true ->
  if in_region p then
    exists mem', load_segment image (Z.of_nat (length image)) p mem highest =
                   Some (Some (mem', Z.max highest (ph_vaddr p + ph_memsz p))) /\
      forall a, sget mem' (a - PAGING_USER_BASE) =
        if covers p a then segment_byte image p a else sget mem (a - PAGING_USER_BASE)
  else load_segment image (Z.of_nat (length image)) p mem highest = Some None.
Proof.
  intros Hs Ho Hf Hv Hm Hl Hok. unfold segment_ok in Hok. rewrite Hl in Hok. cbn [negb orb] in Hok.
  apply andb_prop in Hok as [H1%Z.leb_le H2%Z.leb_le]. unfold load_segment.
  destruct (in_region p) eqn:Er; unfold in_region in Er; rewrite Er; cbn [negb orb]; [|done].
  destruct (in_region_bounds p Hv Hm Er) as (B1 & B2 & B3). 
  unfold PAGING_USER_BASE, PAGING_USER_SIZE in *. rewrite !u64_small by lia.
  rewrite (proj2 (Z.ltb_ge (Z.of_nat _) _)), (proj2 (Z.ltb_ge (ph_memsz p) _)) by done. cbn [orb].
  eexists. split; [do 4 f_equal; case_match; bool_to_prop; lia|]. intros a.
  unfold copy_memory, zero_memory. rewrite !u32_small by lia. rewrite !write_loop_spec by lia.
  unfold covers, segment_byte.
  replace (a - 16777216 - (ph_vaddr p - 16777216)) with (a - ph_vaddr p) by lia.
  repeat case_match; bool_to_prop; try done; lia.
Qed.

Lemma load_loop_spec image h n :
  bytes image -> Z.of_nat (length image) < 4294967296 -> 0 <= h_phoff h -> h_phentsize h = 56 ->
  forall index mem highest,
  0 <= index -> h_phoff h + (index + Z.of_nat n) * 56 <= Z.of_nat (length image) ->
  let ps := headers (fun i => elf64_program_header image (h_phoff h + i * 56)) index n in
  let segs := List.filter loadable ps in
  forallb (segment_ok (Z.of_nat (length image))) ps = true ->
  if forallb in_region segs then
    exists mem', load_loop image (Z.of_nat (length image)) h n index mem highest =
                   Some (Some (mem', segments_end segs highest)) /\
      forall a, sget mem' (a - PAGING_USER_BASE) = memory_of image segs a (sget mem (a - PAGING_USER_BASE))
  else load_loop image (Z.of_nat (length image)) h n index mem highest = Some None.
Proof.
  intros Hb Hs Hpo He. induction n as [|n IH]; intros index mem highest Hi Hn ps segs Hok.
  { by exists mem. }
  cbn [load_loop]. rewrite He, distance_small by lia.
  destruct (program64_Some image (h_phoff h + index * 56) Hb) as (p & Ep & H1 & H2 & H3 & H4); [lia..|].
  assert (ps = p :: headers (fun i => elf64_program_header image (h_phoff h + i * 56)) (index + 1) n) as Eps
    by (apply headers_cons; exact Ep).
  rewrite Ep. cbn [mbind option_bind]. unfold segs. rewrite Eps in Hok |- *. cbn [forallb] in Hok.
  apply andb_prop in Hok as [Hp Hps]. cbn [List.filter].
  change (ph_type p =? ELF_PROGRAM_TYPE_LOAD) with (loadable p).
  destruct (loadable p) eqn:El; cbn [negb forallb]; [|apply IH; [lia|lia|done]].
  pose proof (load_segment_spec image p mem highest Hs (proj1 H1) (proj1 H3) H2 H4 El Hp) as Hseg.
  destruct (in_region p); cbn [andb]; [|by rewrite Hseg].
  destruct Hseg as (mem1 & -> & Hm1). cbn [mbind option_bind].
  specialize (IH (index + 1) mem1 (Z.max highest (ph_vaddr p + ph_memsz p)) ltac:(lia) ltac:(lia) Hps).
  cbv zeta in IH. destruct (forallb in_region _); [|done].
  destruct IH as (mem' & -> & Hm'). exists mem'. split; [done|]. intros a. rewrite Hm', Hm1. done.
Qed.

(** What decides the memory: the last segment that covers an address. *)
Lemma memory_of_app image segs1 segs2 a init :
  memory_of image (segs1 ++ segs2) a init = memory_of image segs2 a (memory_of image segs1 a init).
Proof. apply fold_left_app. Qed.

Lemma memory_of_none image segs a init :
  forallb (fun p => negb (covers p a)) segs = true -> memory_of image segs a init = init.
Proof.
  revert init. induction segs as [|p segs IH]; intros init H; [done|]. cbn [forallb] in H.
  apply andb_prop in H as [Hp H]. cbn. destruct (covers p a); [done|]. by apply IH.
Qed.

Lemma memory_of_last image segs1 p segs2 a init :
  covers p a = true -> forallb (fun p => negb (covers p a)) segs2 = true ->
  memory_of image (segs1 ++ p :: segs2) a init = segment_byte image p a.
Proof.
  intros Hc Hn. rewrite memory_of_app. change (p :: segs2) with ([p] ++ segs2).
  rewrite memory_of_app, memory_of_none by done. cbn. by rewrite Hc.
Qed.

Lemma segments_end_le segs init :
  init <= segments_end segs init /\ forall p, In p segs -> ph_vaddr p + ph_memsz p <= segments_end segs init.
Proof.
  revert init. induction segs as [|q segs IH]; intros init; [split; [done|by intros p []]|].
  change (segments_end (q :: segs) init) with (segments_end segs (Z.max init (ph_vaddr q + ph_memsz q))).
  destruct (IH (Z.max init (ph_vaddr q + ph_memsz q))) as [H1 H2]. split; [lia|].
  intros p [<-|Hp]; [lia|by apply H2].
Qed.

Lemma segments_end_upper m segs : forall init,
  init <= m -> (forall p, In p segs -> ph_vaddr p + ph_memsz p <= m) -> segments_end segs init <= m.
Proof.
  induction segs as [|q segs IH]; intros init Hi Hq; [done|].
  change (segments_end (q :: segs) init) with (segments_end segs (Z.max init (ph_vaddr q + ph_memsz q))).
  apply IH; [pose proof (Hq q (in_eq _ _)); lia|]. intros p Hp. apply Hq. by right.
Qed.

Lemma align16_spec v :
  0 <= v < 18446744073709551600 -> v <= align16 v < v + 16 /\ align16 v mod 16 = 0.
Proof.
  intros H. unfold align16. rewrite u64_small by lia.
  change (u64 (Z.lnot 15)) with (Z.ldiff (Z.ones 64) (Z.ones 4)).
  rewrite Z.ldiff_land, Z.land_assoc, Z.land_ones, Z.mod_small by lia.
  rewrite <- Z.ldiff_land, Z.ldiff_ones_r, Z.shiftl_mul_pow2, Z.shiftr_div_pow2 by lia.
  change (2 ^ 4) with 16. zlia.
Qed.

Lemma load_image_spec image h :
  bytes image -> Z.of_nat (length image) < 4294967296 -> 64 <= Z.of_nat (length image) ->
  elf64_header image = Some h -> well_formed class64 image h = true ->
  let segs := List.filter loadable (table class64 image h) in
  let heap := align16 (segments_end segs PAGING_USER_BASE) in
  if forallb in_region segs && (heap <? PAGING_USER_STACK_GUARD_BASE) then
    exists mem, load_image image (Z.of_nat (length image)) =
                  Some (Some (mem, heap, PAGING_USER_STACK_GUARD_BASE - heap)) /\
      forall a, sget mem (a - PAGING_USER_BASE) = memory_of image segs a 0
  else load_image image (Z.of_nat (length image)) = Some None.
Proof.
  intros Hb Hs H64 Eh Hw segs heap. destruct (header64_Some image Hb H64) as (h' & Eh' & Hpo & Hpn & _).
  rewrite Eh in Eh'. injection Eh' as <-. unfold load_image. rewrite Eh. cbn [mbind option_bind].
  assert (if forallb in_region segs then
      exists mem', load_loop image (Z.of_nat (length image)) h (Z.to_nat (h_phnum h)) 0 (sfill 0) PAGING_USER_BASE =
                     Some (Some (mem', segments_end segs PAGING_USER_BASE)) /\
        forall a, sget mem' (a - PAGING_USER_BASE) = memory_of image segs a 0
    else load_loop image (Z.of_nat (length image)) h (Z.to_nat (h_phnum h)) 0 (sfill 0) PAGING_USER_BASE = Some None)
    as Hloop.
  { unfold well_formed in Hw. apply andb_prop in Hw as [_ Hw].
    destruct (h_phnum h =? 0) eqn:E0.
    - apply Z.eqb_eq in E0. unfold segs, table. rewrite E0. by exists (sfill 0).
    - cbn [orb] in Hw. apply andb_prop in Hw as [[He%Z.eqb_eq Hsz%Z.leb_le]%andb_prop Hok].
      apply (load_loop_spec image h (Z.to_nat (h_phnum h)) Hb Hs (proj1 Hpo) He 0 (sfill 0)); [lia| |exact Hok].
      change (c_phentsize class64) with 56 in Hsz. lia. }
  destruct (forallb in_region segs); cbn [andb]; [|by rewrite Hloop].
  destruct Hloop as (mem & -> & Hmem). cbn [mbind option_bind]. fold heap.
  rewrite Z.leb_antisym. destruct (heap <? PAGING_USER_STACK_GUARD_BASE); cbn [negb]; [|done].
  by exists mem.
Qed.

Lemma segment_bounds image h p :
  bytes image -> 64 <= Z.of_nat (length image) -> elf64_header image = Some h ->
  well_formed class64 image h = true -> In p (table class64 image h) -> in_region p = true ->
  PAGING_USER_BASE <= ph_vaddr p /\ ph_vaddr p + ph_memsz p <= PAGING_USER_BASE + PAGING_USER_SIZE.
Proof.
  intros Hb H64 Eh Hw Hin Hr. destruct (header64_Some image Hb H64) as (h' & Eh' & Hpo & Hpn & _).
  rewrite Eh in Eh'. injection Eh' as <-. unfold table, headers in Hin. apply list_elem_of_In in Hin.
  apply list_elem_of_omap in Hin as (i & Hi & Ep). apply elem_of_seqZ in Hi.
  cbn [c_program class64 c_phentsize] in Ep. change sizeof_elf64_program_header with 56 in Ep.
  unfold well_formed in Hw. apply andb_prop in Hw as [_ Hw].
  destruct (h_phnum h =? 0) eqn:E0; [apply Z.eqb_eq in E0; lia|]. cbn [orb] in Hw.
  apply andb_prop in Hw as [[_ Hsz%Z.leb_le]%andb_prop _]. change (c_phentsize class64) with 56 in Hsz.
  destruct (program64_Some image (h_phoff h + i * 56) Hb) as (p' & Ep' & _ & Hv & _ & Hm); [lia..|].
  rewrite Ep in Ep'. injection Ep' as <-. destruct (in_region_bounds p Hv Hm Hr) as (? & _ & ?). done.
Qed.

(** The parser accepts a well-formed 64-bit executable. *)
Lemma parse_well_formed image h :
  bytes image -> Z.of_nat (length image) < 4294967296 ->
  class_of image = Some class64 -> elf64_header image = Some h -> well_formed class64 image h = true ->
  exists info, elf_parse_image image (Z.of_nat (length image)) = Some (Some info) /\ entry info = h_entry h.
Proof.
  intros Hb Hs Hc Eh Hw. destruct (class_of_size image _ Hc) as [H64 _].
  change (c_ehsize class64) with 64 in H64. rewrite elf_parse_image_dispatch, Hc.
  rewrite (proj2 (Z.leb_le 16 _)) by lia. cbn [c_ehsize class64]. change (_ =? 64) with true. cbn [negb].
  rewrite (elf_parse_64_spec image Hb Hs h H64 Eh).
  destruct (header64_Some image Hb H64) as (h' & Eh' & Hpo & Hpn & _).
  rewrite Eh in Eh'. injection Eh' as <-. rewrite well_formed_no_wrap by (done || lia). rewrite Hw.
  by eexists.
Qed.

(** The region is zero where no segment was written. *)
Lemma load_loop_sdef image size h n i mem e bs e' :
  load_loop image size h n i mem e = Some (Some (bs, e')) -> sdef bs = sdef mem.
Proof.
  assert (forall f (m : sarr Z) k j, (forall x u, sdef (f x u) = sdef u) -> sdef (for_loop f k j m) = sdef m) as Hloop.
  { intros f m k j Hf. apply (for_loop_ind (fun _ u => sdef u = sdef m)); [done|]. intros. by rewrite Hf. }
  revert i mem e. induction n as [|n IH]; intros i mem e; cbn [load_loop]; [by intros [= <- _]|].
  destruct (elf64_program_header _ _) as [p|]; cbn [mbind option_bind]; [|done].
  destruct (negb _); [apply IH|]. unfold load_segment at 1.
  destruct (negb _ || _ || _); cbn [mbind option_bind]; [done|]. cbv zeta.
  destruct (_ <? ph_offset p + _); cbn [mbind option_bind]; [done|]. intros ->%IH.
  unfold copy_memory, zero_memory. by rewrite !Hloop by done.
Qed.

Lemma load_image_sdef image size bs heap hs :
  load_image image size = Some (Some (bs, heap, hs)) -> sdef bs = 0.
Proof.
  unfold load_image. destruct (elf64_header image) as [h|]; cbn [mbind option_bind]; [|done].
  destruct (load_loop _ _ _ _ _ _ _) as [[[m e]|]|] eqn:El; cbn [mbind option_bind]; [|done..].
  case_match; [done|]. intros [= <- _ _]. by rewrite (load_loop_sdef _ _ _ _ _ _ _ _ _ El).
Qed.

(** C22: a well-formed 64-bit executable is loaded exactly when there is memory
    for the process and all its segments lie in the user region and end, rounded
    up to 16, below the stack guard.
    Then the entry is the header's; every segment lies between the base and the
    heap; the memory at an address is decided by the last segment that covers
    it (the byte of the file, or zero past its file size) and is zero where
    there is none; and the heap is 16-aligned and reaches to the stack guard,
    over the window of shared memory.  Otherwise the loader refuses. *)
Theorem load_elf_memory image h room :
  bytes image -> Z.of_nat (length image) < 4294967296 ->
  class_of image = Some class64 -> elf64_header image = Some h -> well_formed class64 image h = true ->
  let segs := List.filter loadable (table class64 image h) in
  let heap := align16 (segments_end segs PAGING_USER_BASE) in
  if room && (forallb in_region segs && (heap <? PAGING_USER_STACK_GUARD_BASE)) then
    exists mem, load_elf image (Z.of_nat (length image)) room =
        Some (Some (h_entry h, mem, heap, PAGING_USER_STACK_GUARD_BASE - heap)) /\
      heap mod 16 = 0 /\
      (forall p, In p segs -> PAGING_USER_BASE <= ph_vaddr p /\ ph_vaddr p + ph_memsz p <= heap) /\
      (forall pre p post a, segs = pre ++ p :: post -> covers p a = true ->
         forallb (fun q => negb (covers q a)) post = true ->
         sget mem (a - PAGING_USER_BASE) = segment_byte image p a) /\
      (forall a, forallb (fun q => negb (covers q a)) segs = true -> sget mem (a - PAGING_USER_BASE) = 0)
  else load_elf image (Z.of_nat (length image)) room = Some None.
Proof.
  intros Hb Hs Hc Eh Hw segs heap. destruct (class_of_size image _ Hc) as [H64 _].
  change (c_ehsize class64) with 64 in H64. pose proof (load_image_spec image h Hb Hs H64 Eh Hw) as HL.
  cbv zeta in HL. fold segs heap in HL. unfold load_elf.
  destruct (parse_well_formed image h Hb Hs Hc Eh Hw) as (info & -> & He). rewrite <- He.
  cbn [mbind option_bind]. destruct room; [cbn [andb negb]|done].
  destruct (forallb in_region segs && _) eqn:Eg; [|by rewrite HL].
  destruct HL as (mem & -> & Hmem). cbn [mbind option_bind option_map]. exists mem.
  apply andb_prop in Eg as [Hr Hh%Z.ltb_lt]. destruct (segments_end_le segs PAGING_USER_BASE) as [He1 He2].
  assert (forall p, In p segs -> PAGING_USER_BASE <= ph_vaddr p /\
    ph_vaddr p + ph_memsz p <= PAGING_USER_BASE + PAGING_USER_SIZE) as Hbounds.
  { intros p Hp. rewrite forallb_forall in Hr. apply (segment_bounds image h p Hb H64 Eh Hw); [|by apply Hr].
    unfold segs in Hp. by apply filter_In in Hp as [? _]. }
  assert (segments_end segs PAGING_USER_BASE < 18446744073709551600) as Htop.
  { enough (segments_end segs PAGING_USER_BASE <= 20971520) by lia.
    apply segments_end_upper; [unfold PAGING_USER_BASE; lia|]. intros p Hp. by apply Hbounds. }
  destruct (align16_spec (segments_end segs PAGING_USER_BASE)) as [Ha1 Ha2].
  { split; [|exact Htop]. etrans; [|exact He1]. done. }
  split; [done|]. split; [exact Ha2|]. split; [|split].
  - intros p Hp. specialize (He2 p Hp). split; [by apply Hbounds|unfold heap; lia].
  - intros pre p post a E Hcov Hnone. rewrite Hmem, E. by apply memory_of_last.
  - intros a Hnone. rewrite Hmem. by apply memory_of_none.
Qed.

(** The loader reads the header of every image as a 64-bit one: of a 32-bit
    executable of the least size, which the parser accepts, it reads past the
    end. *)
Lemma load_elf_32_overreads image h :
  bytes image -> class_of image = Some class32 -> elf32_header image = Some h ->
  well_formed class32 image h = true -> Z.of_nat (length image) < 58 ->
  load_elf image (Z.of_nat (length image)) true = None.
Proof.
  intros Hb Hc Eh Hw Hs. destruct (class_of_size image _ Hc) as [H52 _].
  change (c_ehsize class32) with 52 in H52. unfold load_elf. rewrite elf_parse_image_dispatch, Hc.
  rewrite (proj2 (Z.leb_le 16 _)) by lia. cbn [c_ehsize class32]. change (_ =? 64) with false.
  rewrite (elf_parse_32_spec image Hb ltac:(lia) h H52 Eh), Hw. cbn [mbind option_bind negb].
  unfold load_image, elf64_header. rewrite (get_past image 56 2) by lia.
  rewrite (get_Some image 16), (get_Some image 18), (get_Some image 24), (get_Some image 32) by lia.
  by destruct (get image 52 2), (get image 54 2).
Qed.

(** * Concrete images *)

Lemma bytes_of_bool l : forallb (fun b => (0 <=? b) && (b <? 256)) l = true -> bytes l.
Proof.
  intros H. rewrite forallb_forall in H. apply Forall_forall. intros b Hb%list_elem_of_In.
  specialize (H b Hb). bool_to_prop. lia.
Qed.

Lemma class_of_64 image :
  bool_decide (slice image 0 4 = [127; 69; 76; 70]) && (image.[5] =? ELF_DATA_LSB) &&
    (image.[6] =? ELF_VERSION_CURRENT) && (image.[4] =? ELF_CLASS_64) && (64 <=? Z.of_nat (length image)) = true ->
  class_of image = Some class64.
Proof. unfold class_of. intros [[-> ->]%andb_prop ->]%andb_prop. done. Qed.

(** Little-endian bytes, and a 64-bit image with the given program headers. *)
Definition le (n : nat) (v : Z) : list Z := (fun i => v / 256 ^ i mod 256) <$> seqZ 0 (Z.of_nat n).

Definition demo_header (cl mach phoff phnum phentsize : Z) : list Z :=
  [127; 69; 76; 70; cl; 1; 1] ++ replicate 9 0 ++ le 2 2 ++ le 2 mach ++ le 4 1 ++ le 8 16777216 ++
  le 8 phoff ++ le 8 0 ++ le 4 0 ++ le 2 64 ++ le 2 phentsize ++ le 2 phnum ++ replicate 6 0.
Definition demo_program (ty off vaddr filesz memsz : Z) : list Z :=
  le 4 ty ++ le 4 5 ++ le 8 off ++ le 8 vaddr ++ le 8 vaddr ++ le 8 filesz ++ le 8 memsz ++ le 8 0.

(** One segment of three bytes of file and five of memory. *)
Definition demo_image : list Z :=
  demo_header 2 62 64 1 56 ++ demo_program 1 120 16777216 3 5 ++ [11; 22; 33].

(** A table whose end wraps around to the start of the file. *)
Definition wrapping_image : list Z := demo_header 2 62 18446744073709551560 1 56.

Lemma elf_parse_image_accepts_witness :
  (exists info, elf_parse_image demo_image 123 = Some (Some info) /\ loadable_segments info = 1) /\
  elf_parse_image wrapping_image 64 = None.
Proof.
  split.
  - eexists. split.
    + apply (elf_parse_image_accepts demo_image); [by apply bytes_of_bool|done|].
      eexists class64, _. split; [by apply class_of_64|]. split; [vm_compute; reflexivity|].
      split; [vm_compute; reflexivity|reflexivity].
    + vm_compute. reflexivity.
  - apply (elf_parse_image_accepts wrapping_image); [by apply bytes_of_bool|done|].
    split; [by apply class_of_64|]. eexists. split; [vm_compute; reflexivity|]. vm_compute. reflexivity.
Defined.

Lemma load_elf_memory_witness :
  (exists mem, load_elf demo_image 123 true = Some (Some (16777216, mem, 16777232, 4186096)) /\
    sget mem 2 = 33 /\ sget mem 3 = 0 /\ sget mem 5 = 0) /\
  load_elf demo_image 123 false = Some None.
Proof.
  assert (exists h, elf64_header demo_image = Some h /\ well_formed class64 demo_image h = true /\
    h_entry h = 16777216 /\
    List.filter loadable (table class64 demo_image h) = [ProgramHeader 1 120 16777216 3 5]) as (h & Eh & Hw & He & Hsegs).
  { eexists. split; [vm_compute; reflexivity|]. split; [vm_compute; reflexivity|]. split; [vm_compute; reflexivity|].
    vm_compute. reflexivity. }
  pose proof (fun room => load_elf_memory demo_image h room ltac:(by apply bytes_of_bool) ltac:(done)
    ltac:(by apply class_of_64) Eh Hw) as H. split; [|exact (H false)]. specialize (H true).
  rewrite Hsegs, He in H. destruct H as (mem & Hl & _ & _ & Hc & Hn). exists mem. split; [exact Hl|].
  split; [|split].
  - apply (Hc [] (ProgramHeader 1 120 16777216 3 5) [] 16777218); reflexivity.
  - apply (Hc [] (ProgramHeader 1 120 16777216 3 5) [] 16777219); reflexivity.
  - apply (Hn 16777221). reflexivity.
Defined.
