(* ===== verification/AddrSpace.v ===== *)
(** Address spaces of the processes: creation by [kernel/usermode.c], fork, exec
    and exit by [kernel/task/task.c] and copy-on-write faults by
    [kernel/interrupts.c], composed from the page tables of [Paging.v] and the
    frames of [Physmem.v].

    The system is the paging state with the list of the live processes.  Its
    invariant counts, for every frame, the references the processes hold and
    compares them with the allocator's count; from it follow the isolation of
    the processes and that no operation of the kernel changes what a process
    reads. *)
From S2P Require Import Prelude.
From S2P Require Import Interfaces.
From S2P Require Import Elf.
From S2P Require Import Physmem.
From S2P Require Import Paging.
From S2P Require Import UserDir.
From Stdlib Require Import ZArith Lia.
From stdpp Require Import base numbers list gmap.

Open Scope Z_scope.
Open Scope lyth_scope.

(** * Operations *)

(** [zero_memory(user_physical_base, paging_user_size())], by words. *)
Definition zero_region (s : paging) (base : Z) : paging :=
  for_loop (fun p t => fill_table t (base + p * 4096) 0)
    (Z.to_nat (PAGING_USER_SIZE / PAGING_PAGE_SIZE)) 0 s.

(** The memory of a new process before its program is loaded: the region, the
    directory and the zeroing.  The results are the directory and the region, 0
    when there is no memory. *)
Definition spawn_address_space (s : paging) : paging * Z * Z :=
  let '(f, base) := physmem_alloc_region (frames s) PAGING_USER_SIZE PAGING_USER_SIZE in
  let s := set_frames s f in
  if base =? 0 then (s, 0, 0)
  else
    let '(s, dir) := paging_create_user_directory s base in
    if dir =? 0 then (set_frames s (physmem_free_region (frames s) base PAGING_USER_SIZE), 0, 0)
    else (zero_region s base, dir, base).

(** The bytes the segment loop of [Elf.load_image] writes, stored at the
    region's physical address: memory is kept by words, so each word the loop
    writes to takes its eight bytes, the first one lowest; the other words stay
    as [zero_region] left them. *)
Definition word_at (bs : sarr Z) (off : Z) : Z := le_value ((fun i => sget bs (off + i)) <$> seqZ 0 8).

Definition written (bs : sarr Z) (off : Z) : bool :=
  existsb (fun i => bool_decide (is_Some (scells bs !! (off + i)))) (seqZ 0 8).

Definition fill_page (s : paging) (page : Z) (bs : sarr Z) (off : Z) : paging :=
  for_loop (fun i t => if written bs (off + 8 * i) then wr t page i (word_at bs (off + 8 * i)) else t) 512 0 s.

Definition fill_region (s : paging) (base : Z) (bs : sarr Z) : paging :=
  for_loop (fun p t => fill_page t (base + p * 4096) bs (p * 4096))
    (Z.to_nat (PAGING_USER_SIZE / PAGING_PAGE_SIZE)) 0 s.

(** The error paths after the directory was made. *)
Definition discard_address_space (s : paging) (dir base : Z) : paging :=
  let s := paging_destroy_user_directory s dir in
  set_frames s (physmem_free_region (frames s) base PAGING_USER_SIZE).

(** The memory of a task that ends, once its shared-memory mappings are
    detached. *)
Definition release_address_space (s : paging) (dir base : Z) (user_mode : bool) : paging :=
  if dir =? 0 then s
  else
    let s := if user_mode
             then if negb (base =? 0)
                  then set_frames s (physmem_free_region (frames s) base PAGING_USER_SIZE)
                  else paging_release_user_pages s dir
             else s in
    paging_destroy_user_directory s dir.

(** What [task_spawn_user] answers: a task, a refusal before it takes a slot (a
    null entry, another foreground task, no free slot), or no memory for the
    kernel stack, when [clear_task] has already released the memory that the
    caller then gives back once more. *)
Inductive task_result := TaskMade | TaskRefused | NoKernelStack.

(** The memory of a process made from an executable: the parser's verdict, the
    allocations, the segments and the task.  [None] when the loader reads
    outside the image.  A refused load leaves part of the image in the region
    it frees; nothing reads a free frame, and the model leaves zeros there. *)
Definition spawn_elf (s : paging) (image : list Z) (task : task_result) : option (paging * Z * Z) :=
  let size := Z.of_nat (length image) in
  i ← elf_parse_image image size;
  match i with
  | None => Some (s, 0, 0)
  | Some _ =>
      let '(s, dir, base) := spawn_address_space s in
      if dir =? 0 then Some (s, 0, 0)
      else
        r ← load_image image size;
        match r with
        | None => Some (discard_address_space s dir base, 0, 0)
        | Some (bs, _, _) =>
            let s := fill_region s base bs in
            match task with
            | TaskMade => Some (s, dir, base)
            | TaskRefused => Some (discard_address_space s dir base, 0, 0)
            | NoKernelStack =>
                let s := release_address_space s dir base true in
                Some (discard_address_space s dir base, 0, 0)
            end
        end
  end.

(** The memory of a forked process: the directory of the child, 0 on failure,
    and the region the parent still owns as a whole; [kstack_ok] tells whether
    the child's kernel stack could be allocated. *)
Definition fork_address_space (s : paging) (parent_dir parent_base : Z) (kstack_ok : bool)
    : paging * Z * Z :=
  let '(s, child_dir) := paging_cow_clone_user_directory s parent_dir in
  if child_dir =? 0 then (s, 0, parent_base)
  else if negb kstack_ok then
    (paging_destroy_user_directory (paging_release_user_pages s child_dir) child_dir, 0, 0)
  else (s, child_dir, 0).

(** A user-mode page fault; [true] when the instruction is restarted. *)
Definition user_page_fault (s : paging) (dir fault_addr error_code : Z) : paging * bool :=
  if (Z.land error_code 7 =? 7) && negb (dir =? 0) then
    let '(s, r) := paging_cow_resolve s dir fault_addr in (s, negb (r =? 0))
  else (s, false).

(** What the processor does for the process: a load and a store of an aligned
    word.  [None] is a page fault. *)
Definition user_read (s : paging) (d : dirt) (va : Z) : option Z :=
  if in_user_range va && (va mod 8 =? 0) && bit (pte s d (page_no va)) PG_PRESENT &&
     bit (pte s d (page_no va)) PG_USER
  then Some (rd s (paddr (pte s d (page_no va))) ((va mod 4096) / 8))
  else None.

Definition user_write (s : paging) (d : dirt) (va v : Z) : option paging :=
  if in_user_range va && (va mod 8 =? 0) && bit (pte s d (page_no va)) PG_PRESENT &&
     bit (pte s d (page_no va)) PG_USER && bit (pte s d (page_no va)) PG_WRITABLE
  then Some (wr s (paddr (pte s d (page_no va))) ((va mod 4096) / 8) v)
  else None.

(** * The invariant *)

(** [p_base]: the physical region a process owns as a whole, 0 after a fork. *)
Record proc := Proc { p_dir : dirt; p_base : Z }.

(** Page [q] of the region of [p] is not mapped as it was created: the process
    keeps the reference of the region to that frame. *)
Definition region_extra (s : paging) (p : proc) (b q : Z) : bool :=
  negb (p_base p =? 0) && (b =? p_base p + q * 4096) &&
  negb (pte s (p_dir p) q =? user_entry (p_base p + q * 4096)).

(** References of one process, and of all, to the frame [b]. *)
Definition proc_refs (s : paging) (p : proc) (b : Z) : Z :=
  countb (maps s (p_dir p) b) 1024 + countb (region_extra s p b) 1024 +
  b2z (bool_decide (b ∈ tables (p_dir p))).

Definition refs (s : paging) (ps : list proc) (b : Z) : Z :=
  foldr (fun p n => proc_refs s p b + n) 0 ps.

Record inv (s : paging) (ps : list proc) : Prop := Inv {
  iv_wf : wf (frames s);
  iv_kernel : kernel_ok s;
  iv_dir p : p ∈ ps -> dir_ok s (p_dir p);
  iv_refs b : refs s ps b <= rc (frames s) b;
  iv_tables p t : p ∈ ps -> t ∈ tables (p_dir p) -> held (frames s) t /\ rc (frames s) t = 1;
  iv_frames p q : p ∈ ps -> upage q -> bit (pte s (p_dir p) q) PG_PRESENT = true ->
    vframe (frames s) (paddr (pte s (p_dir p) q));
  iv_user p q : p ∈ ps -> upage q -> bit (pte s (p_dir p) q) PG_PRESENT = true ->
    bit (pte s (p_dir p) q) PG_USER = true;
  iv_region p q : p ∈ ps -> p_base p <> 0 -> upage q -> vframe (frames s) (p_base p + q * 4096);
  (** A page that can be written is mapped once. *)
  iv_excl i j p p' q q' : ps !! i = Some p -> ps !! j = Some p' -> upage q -> upage q' ->
    bit (pte s (p_dir p) q) PG_PRESENT = true -> bit (pte s (p_dir p) q) PG_WRITABLE = true ->
    bit (pte s (p_dir p') q') PG_PRESENT = true ->
    paddr (pte s (p_dir p') q') = paddr (pte s (p_dir p) q) -> i = j /\ q = q';
}.

Local Opaque countb for_loop.

(** * Regions of frames *)

(** [b] is a frame of the user region at [base]. *)
Definition in_region (base b : Z) : bool :=
  (base <=? b) && (b <? base + 4194304) && (b mod 4096 =? 0).

Lemma in_region_page base q : base mod 4096 = 0 -> upage q -> in_region base (base + q * 4096) = true.
Proof.
  intros Hm Hq. unfold in_region, upage in *.
  rewrite (proj2 (Z.leb_le _ _)), (proj2 (Z.ltb_lt _ _)), (proj2 (Z.eqb_eq _ _)) by zlia. done.
Qed.

Lemma in_region_inv base b :
  base mod 4096 = 0 -> in_region base b = true -> exists q, upage q /\ b = base + q * 4096.
Proof.
  intros Hm Hi. unfold in_region in Hi. bool_to_prop. exists ((b - base) / 4096).
  unfold upage. zlia.
Qed.

(** The region at [base] was free and is now held once. *)
Record region_taken (f f' : physmem) (base : Z) : Prop := RegionTaken {
  rt_wf : wf f';
  rt_total : total_frames f' = total_frames f;
  rt_base : base mod 4096 = 0 /\ 1048576 <= base /\ base + 4194304 <= 4294967296;
  rt_frames q : upage q -> vframe f (base + q * 4096) /\ rc f (base + q * 4096) = 0 /\
    ~ reserved f (base + q * 4096);
  rt_rc b : rc f' b = if in_region base b then 1 else rc f b;
  rt_res b : reserved f b -> reserved f' b;
}.

Lemma rc_frame f b : vframe f b -> rc f b = sget (frame_refcount f) (b / 4096).
Proof.
  intros [Hm Hr]. unfold rc, PHYSMEM_FRAME_SIZE, LOW_FRAMES in *.
  rewrite (proj2 (Z.eqb_neq b 0)) by zlia. rewrite Hm. by rewrite (proj2 (Z.leb_gt _ _)) by lia.
Qed.

Lemma rc_cases f b :
  rc f b = if (b =? 0) || negb (b mod 4096 =? 0) || (total_frames f <=? b / 4096) then 0
           else sget (frame_refcount f) (b / 4096).
Proof.
  unfold rc, PHYSMEM_FRAME_SIZE. by destruct ((b =? 0) || negb (b mod 4096 =? 0)).
Qed.

Lemma alloc_region_rc f f' base :
  wf f -> physmem_alloc_region f PAGING_USER_SIZE PAGING_USER_SIZE = (f', base) ->
  (base = 0 /\ f' = f) \/ region_taken f f' base.
Proof.
  intros Hwf Heq. pose proof (wf_total _ Hwf) as Ht.
  destruct (alloc_region_cases f PAGING_USER_SIZE 22 Hwf) as [[E _]|(st & Hsu & _ & E)];
    [unfold PAGING_USER_SIZE; lia|lia|..]; change (2 ^ 22) with PAGING_USER_SIZE in E;
    rewrite Heq in E; apply pair_equal_spec in E as [-> ->]; [by left|right].
  change ((PAGING_USER_SIZE + 4095) / 4096) with 1024 in *.
  pose proof (take_region_wf f 1024 22 st Hwf ltac:(lia) Hsu) as Hwf'.
  destruct Hsu as (Hlo & Hhi & _ & Hfree). unfold LOW_FRAMES, PHYSMEM_MAX_FRAMES in *.
  destruct (take_region_spec f 1024 st Hwf) as (E1 & E2 & E3 & _); [lia..|].
  set (t := take_region f 1024 st) in *. clearbody t. unfold PHYSMEM_FRAME_SIZE.
  assert (forall q, upage q -> (st * 4096 + q * 4096) / 4096 = st + q) as Ediv.
  { intros q _. rewrite <- Z.mul_add_distr_r. apply Z.div_mul. lia. }
  assert (forall q, upage q -> vframe f (st * 4096 + q * 4096)) as Hv.
  { intros q Hq. split; [rewrite <- Z.mul_add_distr_r; apply Z.mod_mul; lia|].
    rewrite Ediv by done. unfold upage, LOW_FRAMES in *. lia. }
  split; [done|done|split_and!; [apply Z.mod_mul; lia|lia|lia]| | |].
  - intros q Hq. split; [by apply Hv|].
    assert (frame_is_marked f (st + q) = false) as Hm by (apply Hfree; unfold upage in Hq; lia).
    split.
    + rewrite rc_frame, Ediv by (done || by apply Hv).
      pose proof (wf_rc _ Hwf (st + q)). destruct (decide (0 < sget (frame_refcount f) (st + q))); [|lia].
      rewrite (wf_rc_marked _ Hwf) in Hm; [done|unfold upage in Hq; lia|done].
    + intros (_ & Hk & _). rewrite Ediv in Hk by done. congruence.
  - intros b. rewrite !rc_cases, E1, E3. unfold in_region.
    destruct (Z.eqb_spec b 0) as [->|Hb0]; cbn [orb].
    { by rewrite (proj2 (Z.leb_gt (st * 4096) 0)) by lia. }
    destruct (Z.eqb_spec (b mod 4096) 0) as [Hm|Hm]; cbn [negb orb]; [|by rewrite andb_false_r].
    rewrite andb_true_r. destruct (Z.leb_spec (total_frames f) (b / 4096)).
    + destruct (Z.ltb_spec b (st * 4096 + 4194304)); [exfalso; zlia|]. by rewrite andb_false_r.
    + case_decide as Hd.
      * by rewrite (proj2 (Z.leb_le _ _)), (proj2 (Z.ltb_lt _ _)) by zlia.
      * destruct (Z.leb_spec (st * 4096) b), (Z.ltb_spec b (st * 4096 + 4194304)); cbn [andb];
          done || (exfalso; zlia).
  - intros b (Hb & Hm & H0). split_and!; [done| |].
    + rewrite E2. by case_decide.
    + rewrite !rc_cases, E1, E3 in *. case_if; [done|]. case_decide as Hd; [|done].
      rewrite Hfree in Hm by lia. done.
Qed.

(** The frames of the region at [base] lose one reference each. *)
Record region_released (f f' : physmem) (base : Z) : Prop := RegionReleased {
  rr_wf : wf f';
  rr_total : total_frames f' = total_frames f;
  rr_rc b : rc f' b = rc f b - b2z (in_region base b);
  rr_res b : reserved f b -> reserved f' b;
}.

Lemma free_region_rc f base :
  wf f -> base mod 4096 = 0 -> 0 <= base ->
  (forall q, upage q -> held f (base + q * 4096)) ->
  region_released f (physmem_free_region f base PAGING_USER_SIZE) base.
Proof.
  intros Hwf Hm Hb0 Hh. pose proof (wf_total _ Hwf) as Ht. unfold PHYSMEM_MAX_FRAMES in Ht.
  assert (base / 4096 + 1024 <= total_frames f) as Hend.
  { destruct (Hh 1023) as (_ & Hr & _); [unfold upage; lia|]. unfold PHYSMEM_FRAME_SIZE in Hr.
    replace (base + 1023 * 4096) with (base + 1023 * 4096) in Hr by lia.
    rewrite Z.div_add in Hr by lia. lia. }
  assert (base + 4194304 <= 4294963200) as Hmax by (clear - Hm Hend Ht; zlia).
  unfold physmem_free_region. change (PAGING_USER_SIZE =? 0) with false. cbv iota zeta.
  rewrite align_down_frame, align_up_frame by lia.
  unfold PHYSMEM_FRAME_SIZE, PAGING_USER_SIZE. rewrite !u32_small by (rewrite ?u32_small; lia).
  replace (4096 * (base / 4096) / 4096) with (base / 4096) by zlia.
  replace (4096 * ((base + 4194304 + 4095) / 4096) / 4096) with (base / 4096 + 1024) by zlia.
  rewrite (proj2 (Z.ltb_ge (total_frames f) _)) by lia.
  replace (base / 4096 + 1024 - base / 4096) with 1024 by lia.
  set (st := base / 4096) in *. assert (base = st * 4096) as Eb by (unfold st; clear - Hm; zlia).
  clearbody st. subst base.
  pose (I := fun (k : Z) (g : physmem) => wf g /\ total_frames g = total_frames f /\
    (forall b, rc g b = rc f b - b2z (in_region (st * 4096) b && (b <? k * 4096))) /\
    (forall b, reserved f b -> reserved g b)).
  assert (I (st + Z.of_nat (Z.to_nat 1024))
    (for_loop (fun x t => physmem_unref_frame t (u32 (x * 4096))) (Z.to_nat 1024) st f)) as HI.
  { apply (for_loop_ind I).
    - split_and!; [done|done| |done]. intros b. unfold in_region.
      destruct (Z.leb_spec (st * 4096) b), (Z.ltb_spec b (st * 4096)); try lia;
        cbn [andb]; rewrite ?andb_false_r; change (b2z false) with 0; lia.
    - intros j g Hj (G1 & G2 & G3 & G4). change (Z.of_nat (Z.to_nat 1024)) with 1024 in Hj.
      rewrite u32_small by lia. pose proof (Hh (j - st) ltac:(unfold upage; lia)) as Hf.
      replace (st * 4096 + (j - st) * 4096) with (j * 4096) in Hf by lia.
      assert (rc g (j * 4096) = rc f (j * 4096)) as Ej.
      { rewrite G3, Z.ltb_irrefl, andb_false_r. change (b2z false) with 0. lia. }
      assert (held g (j * 4096)) as Hg.
      { rewrite held_iff in Hf |- *. rewrite Ej. unfold vframe in *. by rewrite G2. }
      pose proof (fupd_unref g _ G1 Hg) as Hu.
      split_and!; [apply Hu|rewrite (fu_total _ _ _ _ Hu); done| |].
      + intros b. rewrite (fu_rc _ _ _ _ Hu). case_decide as Hd.
        * subst b. rewrite Ej. unfold in_region. rewrite Z.mod_mul by lia.
          rewrite (proj2 (Z.leb_le _ _)), !(proj2 (Z.ltb_lt _ _)) by lia.
          change (b2z (true && true && (0 =? 0) && true)) with 1. lia.
        * rewrite G3. do 2 f_equal. unfold in_region.
          destruct (Z.eqb_spec (b mod 4096) 0); [|by rewrite !andb_false_r].
          rewrite !andb_true_r. f_equal. apply eq_true_iff_eq. rewrite !Z.ltb_lt.
          clear - Hd e. zlia.
      + intros b Hb. apply (fu_res _ _ _ _ Hu). by apply G4. }
  destruct HI as (H1 & H2 & H3 & H4). split; [done|done| |done].
  intros b. rewrite H3. change (Z.of_nat (Z.to_nat 1024)) with 1024. do 2 f_equal. unfold in_region.
  destruct (Z.ltb_spec b (st * 4096 + 4194304)), (Z.ltb_spec b ((st + 1024) * 4096)); try lia;
    by rewrite ?andb_true_r, ?andb_false_r.
Qed.

(** ** Giving back twice *)

Lemma unref_again f a : rc f a = 0 -> physmem_unref_frame f a = f.
Proof.
  unfold rc, physmem_unref_frame. destruct (_ || _); [done|]. destruct (total_frames f <=? _); [done|].
  intros ->. cbn [orb]. by destruct (_ <? _).
Qed.

Lemma free_again f a :
  wf f -> vframe f a -> rc f a = 0 ->
  let f' := physmem_free_frame f a in
  wf f' /\ total_frames f' = total_frames f /\ (forall b, rc f' b = rc f b) /\
  (forall b, b <> a -> reserved f b -> reserved f' b).
Proof.
  intros Hwf Hv H0. pose proof (wf_max _ Hwf) as Hmax. pose proof Hv as [Hm Hr]. cbv zeta.
  unfold physmem_free_frame, PHYSMEM_FRAME_SIZE.
  unfold LOW_FRAMES in Hr. rewrite (proj2 (Z.eqb_neq a 0)) by zlia. rewrite Hm. cbn [Z.eqb negb orb].
  unfold LOW_FRAMES. rewrite (proj2 (Z.ltb_ge _ 256)) by lia. split_and!.
  - apply release_frame_wf; [unfold LOW_FRAMES; lia|done].
  - by destruct (mark_frame_fields (set_refcount f (a / 4096) 0) (a / 4096) false) as (E1 & _ & _).
  - intros b. rewrite rc_mark_frame, rc_set_refcount by done. case_decide; by subst.
  - intros b Hne ([Hbm Hbr] & Hmk & Hb0). split_and!; [done| |].
    + rewrite marked_mark_frame; [|simpl; lia|done]. rewrite decide_False; [done|]. by apply frame_ne.
    + rewrite rc_mark_frame, rc_set_refcount by done. by rewrite decide_False.
Qed.

Lemma free_nonzero_again l s :
  wf (frames s) -> (forall a, a ∈ l -> vframe (frames s) a /\ rc (frames s) a = 0) ->
  let s' := free_nonzero s l in
  wf (frames s') /\ s' = set_frames s (frames s') /\ total_frames (frames s') = total_frames (frames s) /\
  (forall b, rc (frames s') b = rc (frames s) b) /\
  (forall b, b ∉ l -> reserved (frames s) b -> reserved (frames s') b).
Proof.
  cbv zeta. revert s. induction l as [|a l IH]; intros s Hwf Hv; [split_and!; try done; by destruct s|].
  destruct (Hv a ltac:(left)) as [Ha H0]. pose proof (vframe_tab _ _ Hwf Ha) as Ht. unfold tab in Ht.
  unfold free_nonzero. simpl. fold (free_nonzero (if a =? 0 then s else free s a) l).
  rewrite (proj2 (Z.eqb_neq a 0)) by lia.
  assert (frames (free s a) = physmem_free_frame (frames s) a) as Ef
    by (unfold free; simpl; by rewrite u32_small by lia).
  destruct (free_again (frames s) a Hwf Ha H0) as (F1 & F2 & F3 & F4). rewrite <- Ef in F1, F2, F3, F4.
  destruct (IH (free s a) F1) as (I1 & I2 & I3 & I4 & I5).
  { intros b Hb. unfold vframe. rewrite F2, F3. apply Hv. by right. }
  split_and!; [done|by rewrite I2|by rewrite I3|intros b; by rewrite I4|].
  intros b [Hne Hn]%not_elem_of_cons Hb. by apply I5, F4.
Qed.

Lemma free_region_again f base :
  wf f -> base mod 4096 = 0 -> 0 <= base ->
  (forall q, upage q -> vframe f (base + q * 4096) /\ rc f (base + q * 4096) = 0) ->
  physmem_free_region f base PAGING_USER_SIZE = f.
Proof.
  intros Hwf Hm Hb0 Hh. pose proof (wf_total _ Hwf) as Ht. unfold PHYSMEM_MAX_FRAMES in Ht.
  assert (base / 4096 + 1024 <= total_frames f) as Hend.
  { destruct (Hh 1023) as [(_ & Hr) _]; [unfold upage; lia|]. rewrite Z.div_add in Hr by lia. lia. }
  assert (base + 4194304 <= 4294963200) as Hmax by (clear - Hm Hend Ht; zlia).
  unfold physmem_free_region. change (PAGING_USER_SIZE =? 0) with false. cbv iota zeta.
  rewrite align_down_frame, align_up_frame by lia.
  unfold PHYSMEM_FRAME_SIZE, PAGING_USER_SIZE. rewrite !u32_small by (rewrite ?u32_small; lia).
  replace (4096 * (base / 4096) / 4096) with (base / 4096) by zlia.
  replace (4096 * ((base + 4194304 + 4095) / 4096) / 4096) with (base / 4096 + 1024) by zlia.
  rewrite (proj2 (Z.ltb_ge (total_frames f) _)) by lia.
  apply (for_loop_ind (fun _ g => g = f)); [done|].
  intros j g Hj ->. apply unref_again.
  assert (base = base / 4096 * 4096) as Eb by (clear - Hm; zlia). rewrite Z2Nat.id in Hj by lia.
  rewrite u32_small by lia. replace (j * 4096) with (base + (j - base / 4096) * 4096) by lia.
  apply Hh. unfold upage. lia.
Qed.

(** * Counting references *)

Lemma n1024 : Z.of_nat 1024 = 1024.
Proof. reflexivity. Qed.

Lemma proc_refs_parts s p b :
  0 <= countb (maps s (p_dir p) b) 1024 /\ 0 <= countb (region_extra s p b) 1024 /\
  0 <= b2z (bool_decide (b ∈ tables (p_dir p))).
Proof.
  pose proof (countb_bound (maps s (p_dir p) b) 1024).
  pose proof (countb_bound (region_extra s p b) 1024).
  pose proof (b2z_bound (bool_decide (b ∈ tables (p_dir p)))). lia.
Qed.

Lemma proc_refs_nonneg s p b : 0 <= proc_refs s p b.
Proof. pose proof (proc_refs_parts s p b). unfold proc_refs. lia. Qed.

Lemma refs_nonneg s ps b : 0 <= refs s ps b.
Proof.
  induction ps as [|p ps IH]; cbn [refs foldr]; [lia|]. fold (refs s ps b).
  pose proof (proc_refs_nonneg s p b). lia.
Qed.

Lemma refs_cons s p ps b : refs s (p :: ps) b = proc_refs s p b + refs s ps b.
Proof. reflexivity. Qed.

Lemma refs_snoc s ps p b : refs s (ps ++ [p]) b = refs s ps b + proc_refs s p b.
Proof.
  induction ps as [|x ps IH]; [rewrite app_nil_l, refs_cons; change (refs s [] b) with 0; lia|].
  cbn [app]. rewrite !refs_cons, IH. lia.
Qed.

Lemma refs_update s ps i p p' b :
  ps !! i = Some p -> refs s (<[i := p']> ps) b = refs s ps b - proc_refs s p b + proc_refs s p' b.
Proof.
  revert i. induction ps as [|x ps IH]; intros [|i] Hi; try done.
  - injection Hi as ->. change (<[O := p']> (p :: ps)) with (p' :: ps). rewrite !refs_cons. lia.
  - change (ps !! i = Some p) in Hi. change (<[S i := p']> (x :: ps)) with (x :: <[i := p']> ps).
    rewrite !refs_cons, (IH i Hi). lia.
Qed.

Lemma refs_delete s ps i p b :
  ps !! i = Some p -> refs s (delete i ps) b = refs s ps b - proc_refs s p b.
Proof.
  revert i. induction ps as [|x ps IH]; intros [|i] Hi; try done.
  - injection Hi as ->. change (delete O (p :: ps)) with ps. rewrite refs_cons. lia.
  - change (ps !! i = Some p) in Hi. change (delete (S i) (x :: ps)) with (x :: delete i ps).
    rewrite !refs_cons, (IH i Hi). lia.
Qed.

Lemma refs_ext s s' ps b :
  (forall p, p ∈ ps -> proc_refs s' p b = proc_refs s p b) -> refs s' ps b = refs s ps b.
Proof.
  induction ps as [|x ps IH]; intros E; [done|]. rewrite !refs_cons, E by left.
  rewrite IH; [done|]. intros p Hp. apply E. by right.
Qed.

Lemma refs_le_ext s s' ps b :
  (forall p, p ∈ ps -> proc_refs s' p b <= proc_refs s p b) -> refs s' ps b <= refs s ps b.
Proof.
  induction ps as [|x ps IH]; intros E; [done|]. rewrite !refs_cons.
  assert (proc_refs s' x b <= proc_refs s x b) by (apply E; left).
  assert (refs s' ps b <= refs s ps b) by (apply IH; intros p Hp; apply E; by right). lia.
Qed.

Lemma refs_ge s ps i p b : ps !! i = Some p -> proc_refs s p b <= refs s ps b.
Proof.
  intros Hi. pose proof (refs_delete s ps i p b Hi). pose proof (refs_nonneg s (delete i ps) b). lia.
Qed.

Lemma refs_two s ps i j p p' b :
  ps !! i = Some p -> ps !! j = Some p' -> i <> j ->
  proc_refs s p b + proc_refs s p' b <= refs s ps b.
Proof.
  intros Hi Hj Hne. pose proof (refs_delete s ps i p b Hi) as E1.
  assert (proc_refs s p' b <= refs s (delete i ps) b); [|lia].
  destruct (decide (j < i)%nat).
  - apply (refs_ge s _ j). rewrite list_lookup_delete_lt by lia. done.
  - apply (refs_ge s _ (pred j)). rewrite list_lookup_delete_ge by lia.
    by replace (S (pred j)) with j by lia.
Qed.

(** A process whose entries did not change. *)
Lemma proc_refs_ext s s' p b :
  (forall q, upage q -> pte s' (p_dir p) q = pte s (p_dir p) q) -> proc_refs s' p b = proc_refs s p b.
Proof.
  intros E. unfold proc_refs.
  rewrite (countb_ext (maps s' (p_dir p) b) (maps s (p_dir p) b)).
  - rewrite (countb_ext (region_extra s' p b) (region_extra s p b)); [reflexivity|].
    intros i Hi. rewrite n1024 in Hi. unfold region_extra. by rewrite E.
  - intros i Hi. rewrite n1024 in Hi. unfold maps. by rewrite E.
Qed.

Lemma maps_refs s p b q : upage q -> maps s (p_dir p) b q = true -> 1 <= proc_refs s p b.
Proof.
  intros Hq Hm. pose proof (countb_pos (maps s (p_dir p) b) 1024 q) as Hp. rewrite n1024 in Hp.
  pose proof (proc_refs_parts s p b). unfold proc_refs. specialize (Hp Hq Hm). lia.
Qed.

Lemma table_refs s p b : b ∈ tables (p_dir p) -> 1 <= proc_refs s p b.
Proof.
  intros Hb. pose proof (proc_refs_parts s p b). unfold proc_refs.
  rewrite bool_decide_true by done. change (b2z true) with 1. lia.
Qed.

(** Two ways for processes to refer to a frame count twice. *)
Lemma maps_maps_refs s ps i j p p' q q' b :
  ps !! i = Some p -> ps !! j = Some p' -> upage q -> upage q' -> (i <> j \/ q <> q') ->
  maps s (p_dir p) b q = true -> maps s (p_dir p') b q' = true -> 2 <= refs s ps b.
Proof.
  intros Hi Hj Hq Hq' Hne Hm Hm'. destruct (decide (i = j)) as [<-|Hij].
  - rewrite Hi in Hj. injection Hj as <-. destruct Hne as [?|Hne]; [done|].
    pose proof (refs_ge s ps i p b Hi). pose proof (proc_refs_parts s p b).
    pose proof (countb_two (maps s (p_dir p) b) 1024 q q') as H2. rewrite n1024 in H2.
    specialize (H2 Hq Hq' Hne Hm Hm'). unfold proc_refs in *. lia.
  - pose proof (refs_two s ps i j p p' b Hi Hj Hij).
    pose proof (maps_refs s p b q Hq Hm). pose proof (maps_refs s p' b q' Hq' Hm'). lia.
Qed.

Lemma maps_table_refs s ps i j p p' q b :
  ps !! i = Some p -> ps !! j = Some p' -> upage q ->
  maps s (p_dir p) b q = true -> b ∈ tables (p_dir p') -> 2 <= refs s ps b.
Proof.
  intros Hi Hj Hq Hm Ht. destruct (decide (i = j)) as [<-|Hij].
  - rewrite Hi in Hj. injection Hj as <-.
    pose proof (refs_ge s ps i p b Hi). pose proof (proc_refs_parts s p b).
    pose proof (countb_pos (maps s (p_dir p) b) 1024 q) as Hp. rewrite n1024 in Hp. specialize (Hp Hq Hm).
    unfold proc_refs in *. rewrite bool_decide_true in * by done. change (b2z true) with 1 in *. lia.
  - pose proof (refs_two s ps i j p p' b Hi Hj Hij).
    pose proof (maps_refs s p b q Hq Hm). pose proof (table_refs s p' b Ht). lia.
Qed.

(** * Consequences of the invariant *)

Section facts.
Context (s : paging) (ps : list proc) (Hinv : inv s ps).

Lemma iv_in i p : ps !! i = Some p -> p ∈ ps.
Proof. apply list_elem_of_lookup_2. Qed.

Lemma tables_apart i j p p' t :
  ps !! i = Some p -> ps !! j = Some p' -> i <> j ->
  t ∈ tables (p_dir p) -> t ∈ tables (p_dir p') -> False.
Proof.
  intros Hi Hj Hij Ht Ht'. pose proof (refs_two s ps i j p p' t Hi Hj Hij).
  pose proof (table_refs s p t Ht). pose proof (table_refs s p' t Ht').
  destruct (iv_tables _ _ Hinv p t (iv_in _ _ Hi) Ht) as [_ E].
  pose proof (iv_refs _ _ Hinv t). lia.
Qed.

Lemma mapped_not_table i j p p' q :
  ps !! i = Some p -> ps !! j = Some p' -> upage q -> bit (pte s (p_dir p) q) PG_PRESENT = true ->
  paddr (pte s (p_dir p) q) ∉ tables (p_dir p').
Proof.
  intros Hi Hj Hq Hb Ht. set (b := paddr (pte s (p_dir p) q)) in *.
  assert (maps s (p_dir p) b q = true) as Hm by (unfold maps; by rewrite Hb, Z.eqb_refl).
  pose proof (maps_table_refs s ps i j p p' q b Hi Hj Hq Hm Ht).
  destruct (iv_tables _ _ Hinv p' b (iv_in _ _ Hj) Ht) as [_ E].
  pose proof (iv_refs _ _ Hinv b). lia.
Qed.

Lemma mapped_held i p q :
  ps !! i = Some p -> upage q -> bit (pte s (p_dir p) q) PG_PRESENT = true ->
  held (frames s) (paddr (pte s (p_dir p) q)).
Proof.
  intros Hi Hq Hb. rewrite held_iff. split; [by apply (iv_frames _ _ Hinv p q); [apply (iv_in i)|..]|].
  set (b := paddr (pte s (p_dir p) q)).
  assert (maps s (p_dir p) b q = true) as Hm by (unfold maps; by rewrite Hb, Z.eqb_refl).
  pose proof (maps_refs s p b q Hq Hm). pose proof (refs_ge s ps i p b Hi).
  pose proof (iv_refs _ _ Hinv b). lia.
Qed.

Lemma mapped_tab i p q :
  ps !! i = Some p -> upage q -> bit (pte s (p_dir p) q) PG_PRESENT = true ->
  tab (paddr (pte s (p_dir p) q)).
Proof.
  intros Hi Hq Hb. apply (vframe_tab (frames s)); [apply Hinv|].
  by apply held_vframe, (mapped_held i).
Qed.

Lemma tables_counted i p t : ps !! i = Some p -> t ∈ tables (p_dir p) -> 0 < rc (frames s) t.
Proof. intros Hi Ht. destruct (iv_tables _ _ Hinv p t (iv_in _ _ Hi) Ht). lia. Qed.

(** A frame without references is used by no process. *)
Lemma free_unused i p b :
  ps !! i = Some p -> rc (frames s) b = 0 ->
  b ∉ tables (p_dir p) /\ (forall q, upage q -> maps s (p_dir p) b q = false) /\ refs s ps b = 0.
Proof.
  intros Hi H0. pose proof (iv_refs _ _ Hinv b) as Hr. pose proof (refs_ge s ps i p b Hi) as Hg.
  pose proof (refs_nonneg s ps b). split_and!; [| |lia].
  - intros Ht. pose proof (table_refs s p b Ht). lia.
  - intros q Hq. destruct (maps s (p_dir p) b q) eqn:E; [|done].
    pose proof (maps_refs s p b q Hq E). lia.
Qed.

End facts.

(** A process none of whose tables changed. *)
Lemma keep_dir s s' d :
  dir_ok s d -> (forall t i, t ∈ tables d -> idx i -> rd s' t i = rd s t i) ->
  dir_ok s' d /\ forall q, pte s' d q = pte s d q.
Proof.
  intros Hd E. split.
  - apply (dir_ok_ext s); [done|]. intros t i Ht Hi. apply E; [|done].
    unfold tables. rewrite !elem_of_cons in *. tauto.
  - intros q. unfold pte. apply E; [apply d_pt_in|apply slot_idx].
Qed.

Lemma kernel_ok_keep s s' :
  kernel_ok s -> statics s s' -> (forall b, reserved (frames s) b -> reserved (frames s') b) ->
  kernel_ok s'.
Proof.
  intros (K1 & K2 & K3) (_ & _ & E1 & _ & _ & _ & E2 & E3) Hr. unfold kernel_ok.
  rewrite E1, E2, E3. split_and!; by apply Hr.
Qed.

(** ** Changes of the list of processes *)

(** A process gives up its region as a whole. *)
Lemma forget_extra s d b : countb (region_extra s (Proc d 0) b) 1024 = 0.
Proof. apply countb_none. done. Qed.

Lemma forget_lookup (ps : list proc) i p j x :
  ps !! i = Some p -> <[i := Proc (p_dir p) 0]> ps !! j = Some x ->
  exists y, ps !! j = Some y /\ p_dir y = p_dir x /\ (p_base x = p_base y \/ p_base x = 0).
Proof.
  intros Hi. destruct (decide (i = j)) as [<-|Hij].
  - rewrite list_lookup_insert_eq by (by apply lookup_lt_Some in Hi). intros [= <-]. exists p. tauto.
  - rewrite list_lookup_insert_ne by done. intros Hx. exists x. tauto.
Qed.

Lemma inv_forget s (ps : list proc) i p :
  inv s ps -> ps !! i = Some p -> inv s (<[i := Proc (p_dir p) 0]> ps).
Proof.
  intros Hinv Hi.
  assert (forall x, x ∈ <[i := Proc (p_dir p) 0]> ps ->
    exists y, y ∈ ps /\ p_dir y = p_dir x /\ (p_base x = p_base y \/ p_base x = 0)) as Hin.
  { intros x [j Hj]%list_elem_of_lookup. destruct (forget_lookup ps i p j x Hi Hj) as (y & Hy & E).
    exists y. split; [by apply (iv_in ps j)|done]. }
  split; try apply Hinv.
  - intros x Hx. destruct (Hin x Hx) as (y & Hy & <- & _). by apply Hinv.
  - intros b. rewrite (refs_update s ps i p) by done. unfold proc_refs. cbn [p_dir].
    rewrite forget_extra. pose proof (countb_bound (region_extra s p b) 1024).
    pose proof (iv_refs _ _ Hinv b). lia.
  - intros x t Hx. destruct (Hin x Hx) as (y & Hy & <- & _). by apply Hinv.
  - intros x q Hx. destruct (Hin x Hx) as (y & Hy & <- & _). by apply Hinv.
  - intros x q Hx. destruct (Hin x Hx) as (y & Hy & <- & _). by apply Hinv.
  - intros x q Hx Hb. destruct (Hin x Hx) as (y & Hy & _ & [E|E]); [rewrite E in *; by apply Hinv|done].
  - intros j k x y q q' Hj Hk. destruct (forget_lookup _ _ _ _ _ Hi Hj) as (x' & Hx' & <- & _).
    destruct (forget_lookup _ _ _ _ _ Hi Hk) as (y' & Hy' & <- & _). by apply (iv_excl _ _ Hinv).
Qed.

(** A new process. *)
Record joins (s : paging) (ps : list proc) (c : proc) : Prop := Joins {
  jn_dir : dir_ok s (p_dir c);
  jn_refs b : refs s ps b + proc_refs s c b <= rc (frames s) b;
  jn_tables t : t ∈ tables (p_dir c) -> held (frames s) t /\ rc (frames s) t = 1;
  jn_frames q : upage q -> bit (pte s (p_dir c) q) PG_PRESENT = true ->
    vframe (frames s) (paddr (pte s (p_dir c) q)) /\ bit (pte s (p_dir c) q) PG_USER = true;
  jn_region q : p_base c <> 0 -> upage q -> vframe (frames s) (p_base c + q * 4096);
  jn_self q q' : upage q -> upage q' ->
    bit (pte s (p_dir c) q) PG_PRESENT = true -> bit (pte s (p_dir c) q) PG_WRITABLE = true ->
    bit (pte s (p_dir c) q') PG_PRESENT = true ->
    paddr (pte s (p_dir c) q') = paddr (pte s (p_dir c) q) -> q = q';
  jn_others j x q q' : ps !! j = Some x -> upage q -> upage q' ->
    bit (pte s (p_dir x) q) PG_PRESENT = true -> bit (pte s (p_dir c) q') PG_PRESENT = true ->
    paddr (pte s (p_dir x) q) = paddr (pte s (p_dir c) q') ->
    bit (pte s (p_dir x) q) PG_WRITABLE = false /\ bit (pte s (p_dir c) q') PG_WRITABLE = false;
}.

Lemma snoc_lookup (ps : list proc) c j x :
  (ps ++ [c]) !! j = Some x -> ps !! j = Some x \/ (j = length ps /\ x = c).
Proof.
  intros H. apply lookup_app_Some in H as [H|[Hl H]]; [by left|right].
  apply list_lookup_singleton_Some in H as [H ->]. split; [lia|done].
Qed.

Lemma inv_extend s ps c : inv s ps -> joins s ps c -> inv s (ps ++ [c]).
Proof.
  intros Hinv [J1 J2 J3 J4 J5 J6 J7]. split; try apply Hinv.
  - intros x [Hx|Hx]%elem_of_app; [by apply Hinv|]. by apply list_elem_of_singleton in Hx as ->.
  - intros b. rewrite refs_snoc. apply J2.
  - intros x t [Hx|Hx]%elem_of_app; [by apply Hinv|]. apply list_elem_of_singleton in Hx as ->. apply J3.
  - intros x q [Hx|Hx]%elem_of_app; [by apply Hinv|]. apply list_elem_of_singleton in Hx as ->.
    intros. by apply J4.
  - intros x q [Hx|Hx]%elem_of_app; [by apply Hinv|]. apply list_elem_of_singleton in Hx as ->.
    intros. by apply J4.
  - intros x q [Hx|Hx]%elem_of_app; [by apply Hinv|]. apply list_elem_of_singleton in Hx as ->. apply J5.
  - intros j k x y q q' [Hj|[-> ->]]%snoc_lookup [Hk|[-> ->]]%snoc_lookup Hq Hq' B1 B2 B3 E.
    + by apply (iv_excl _ _ Hinv j k x y).
    + destruct (J7 j x q q') as [Hf _]; [done..|]. congruence.
    + destruct (J7 k y q' q) as [_ Hf]; [done..|]. congruence.
    + split; [done|]. by apply J6.
Qed.

(** A process leaves, giving back at most its references. *)
Lemma delete_lookup (ps : list proc) i j x :
  delete i ps !! j = Some x -> exists k, ps !! k = Some x /\ k <> i /\ k = (if decide (j < i)%nat then j else S j).
Proof.
  intros Hj. case_decide.
  - exists j. rewrite list_lookup_delete_lt in Hj by lia. split_and!; [done|lia|done].
  - exists (S j). rewrite list_lookup_delete_ge in Hj by lia. split_and!; [done|lia|done].
Qed.

Section leave.
Context (s s' : paging) (ps : list proc) (Hinv : inv s ps).
Context (i : nat) (p : proc) (Hi : ps !! i = Some p).
Context (Hwf' : wf (frames s')) (Hst : statics s s')
  (Htot : total_frames (frames s') = total_frames (frames s))
  (Hres : forall b, reserved (frames s) b -> reserved (frames s') b).
Context (Hrd : forall t l, tab t -> idx l -> t ∉ tables (p_dir p) -> rd s' t l = rd s t l).
Context (Hrc : forall b, rc (frames s) b - proc_refs s p b <= rc (frames s') b <= rc (frames s) b).

Lemma leave_keeps j x : ps !! j = Some x -> j <> i ->
  dir_ok s' (p_dir x) /\ forall q, pte s' (p_dir x) q = pte s (p_dir x) q.
Proof.
  intros Hj Hji. pose proof (iv_dir _ _ Hinv x (iv_in ps j x Hj)) as Hd. apply keep_dir; [done|].
  intros t l Ht Hl. pose proof (dk_tab _ _ Hd) as HT. rewrite Forall_forall in HT.
  apply Hrd; [by apply HT|done|]. intros Hp. exact (tables_apart s ps Hinv j i x p t Hj Hi Hji Ht Hp).
Qed.

Lemma leave_table_rc j x t : ps !! j = Some x -> j <> i -> t ∈ tables (p_dir x) ->
  rc (frames s') t = rc (frames s) t.
Proof.
  intros Hj Hji Ht. pose proof (refs_two s ps j i x p t Hj Hi Hji) as H2.
  pose proof (table_refs s x t Ht). pose proof (iv_refs _ _ Hinv t).
  destruct (iv_tables _ _ Hinv x t (iv_in ps j x Hj) Ht) as [_ E].
  pose proof (Hrc t). pose proof (proc_refs_nonneg s p t). lia.
Qed.

Lemma leave_inv : inv s' (delete i ps).
Proof.
  assert (forall x, x ∈ delete i ps -> exists j, ps !! j = Some x /\ j <> i) as Hin.
  { intros x [j Hj]%list_elem_of_lookup. destruct (delete_lookup _ _ _ _ Hj) as (k & ? & ? & _). eauto. }
  split.
  - done.
  - by apply (kernel_ok_keep s); [apply Hinv|..].
  - intros x Hx. destruct (Hin x Hx) as (j & Hj & Hne). by apply (leave_keeps j).
  - intros b. rewrite (refs_ext s).
    + rewrite (refs_delete s ps i p b Hi). pose proof (iv_refs _ _ Hinv b). pose proof (Hrc b). lia.
    + intros x Hx. destruct (Hin x Hx) as (j & Hj & Hne). apply proc_refs_ext. intros q _.
      by apply (leave_keeps j).
  - intros x t Hx Ht. destruct (Hin x Hx) as (j & Hj & Hne).
    destruct (iv_tables _ _ Hinv x t (iv_in ps j x Hj) Ht) as [Hh E].
    rewrite held_iff in Hh |- *. rewrite (leave_table_rc j x) by done. unfold vframe in *.
    rewrite Htot. done.
  - intros x q Hx Hq. destruct (Hin x Hx) as (j & Hj & Hne).
    rewrite (proj2 (leave_keeps j x Hj Hne)). intros Hb. unfold vframe. rewrite Htot.
    by apply (iv_frames _ _ Hinv x q (iv_in ps j x Hj)).
  - intros x q Hx Hq. destruct (Hin x Hx) as (j & Hj & Hne).
    rewrite (proj2 (leave_keeps j x Hj Hne)). by apply (iv_user _ _ Hinv x q (iv_in ps j x Hj)).
  - intros x q Hx Hb Hq. destruct (Hin x Hx) as (j & Hj & Hne). unfold vframe. rewrite Htot.
    by apply (iv_region _ _ Hinv x q (iv_in ps j x Hj)).
  - intros j k x y q q' Hj Hk Hq Hq'.
    destruct (delete_lookup _ _ _ _ Hj) as (j' & Hj' & Nj & Ej).
    destruct (delete_lookup _ _ _ _ Hk) as (k' & Hk' & Nk & Ek).
    rewrite (proj2 (leave_keeps j' x Hj' Nj)), (proj2 (leave_keeps k' y Hk' Nk)).
    intros B1 B2 B3 E. destruct (iv_excl _ _ Hinv j' k' x y q q') as [Ejk ->]; [done..|].
    split; [|done]. repeat case_decide; lia.
Qed.

End leave.

(** ** A store of a process *)

Lemma write_word_idx va : 0 <= va -> idx ((va mod 4096) / 8).
Proof. intros. unfold idx. zlia. Qed.

Lemma user_write_spec s d va v s' :
  user_write s d va v = Some s' ->
  in_user_range va = true /\ va mod 8 = 0 /\
  bit (pte s d (page_no va)) PG_PRESENT = true /\ bit (pte s d (page_no va)) PG_USER = true /\
  bit (pte s d (page_no va)) PG_WRITABLE = true /\
  s' = wr s (paddr (pte s d (page_no va))) ((va mod 4096) / 8) v.
Proof.
  unfold user_write. case_if; [|done]. bool_to_prop. intros [= <-]. done.
Qed.

Section write.
Context (s : paging) (ps : list proc) (Hinv : inv s ps).
Context (i : nat) (p : proc) (Hi : ps !! i = Some p).
Context (va v : Z) (s' : paging) (Hw : user_write s (p_dir p) va v = Some s').
Local Notation a := (paddr (pte s (p_dir p) (page_no va))).

Lemma write_page : upage (page_no va).
Proof. destruct (user_write_spec _ _ _ _ _ Hw) as (Hr & _). by destruct (in_range_page _ Hr). Qed.

(** No table of a process is written. *)
Lemma write_keeps j p' : ps !! j = Some p' ->
  dir_ok s' (p_dir p') /\ forall q, pte s' (p_dir p') q = pte s (p_dir p') q.
Proof.
  intros Hj. destruct (user_write_spec _ _ _ _ _ Hw) as (Hr & _ & Hb & _ & _ & E). rewrite E.
  apply keep_dir; [apply (iv_dir _ _ Hinv), (iv_in ps j), Hj|]. intros t k Ht Hk.
  pose proof (mapped_not_table s ps Hinv i j p p' (page_no va) Hi Hj write_page Hb) as Hn.
  pose proof (mapped_tab s ps Hinv i p (page_no va) Hi write_page Hb) as Ta.
  pose proof (dk_tab _ _ (iv_dir _ _ Hinv p' (iv_in ps j p' Hj))) as HT.
  rewrite Forall_forall in HT. pose proof (HT t Ht) as Tt.
  rewrite rd_wr_tab; [|by apply tab_mod|by apply tab_mod| |done].
  - rewrite decide_False; [done|]. intros [<- _]. done.
  - apply write_word_idx. apply in_range_iff in Hr. lia.
Qed.

Lemma write_inv : inv s' ps.
Proof.
  pose proof write_keeps as Hk.
  destruct (user_write_spec _ _ _ _ _ Hw) as (_ & _ & _ & _ & _ & E).
  assert (frames s' = frames s) as Ef by (by rewrite E). assert (statics s s') as Hs by (by rewrite E).
  clear E.
  assert (forall x, x ∈ ps -> exists j, ps !! j = Some x) as Hin
    by (intros x Hx; by apply list_elem_of_lookup).
  split; rewrite ?Ef.
  - apply Hinv.
  - apply (kernel_ok_keep s); [apply Hinv|done|by rewrite Ef].
  - intros x Hx. destruct (Hin x Hx) as [j Hj]. by apply (Hk j).
  - intros b. rewrite (refs_ext s); [apply Hinv|]. intros x Hx. destruct (Hin x Hx) as [j Hj].
    apply proc_refs_ext. intros. by apply (Hk j).
  - apply Hinv.
  - intros x q Hx Hq. destruct (Hin x Hx) as [j Hj]. rewrite (proj2 (Hk j x Hj)).
    by apply (iv_frames _ _ Hinv).
  - intros x q Hx Hq. destruct (Hin x Hx) as [j Hj]. rewrite (proj2 (Hk j x Hj)).
    by apply (iv_user _ _ Hinv).
  - apply Hinv.
  - intros j k x y q q' Hj Hkk Hq Hq'. rewrite (proj2 (Hk j x Hj)), (proj2 (Hk k y Hkk)).
    by apply (iv_excl _ _ Hinv).
Qed.

(** What the other processes, and the writer elsewhere, read is unchanged. *)
Lemma write_view j p' va' : ps !! j = Some p' -> (j <> i \/ va' <> va) ->
  user_read s' (p_dir p') va' = user_read s (p_dir p') va'.
Proof.
  intros Hj Hne. unfold user_read. rewrite (proj2 (write_keeps j p' Hj)).
  destruct (_ && _) eqn:Eg; [|done]. bool_to_prop. f_equal.
  destruct (user_write_spec _ _ _ _ _ Hw) as (Hr & Hal & Hb & _ & Hwr & E). rewrite E.
  assert (upage (page_no va')) as Hq' by (by apply in_range_page).
  pose proof (mapped_tab s ps Hinv i p (page_no va) Hi write_page Hb) as Ta.
  pose proof (mapped_tab s ps Hinv j p' (page_no va') Hj Hq' ltac:(done)) as Tb.
  apply in_range_iff in Hr as Hr1. match goal with H : in_user_range va' = true |- _ =>
    apply in_range_iff in H as Hr2 end.
  rewrite rd_wr_tab; [|by apply tab_mod|by apply tab_mod|apply write_word_idx; lia..].
  rewrite decide_False; [done|]. intros [Ea Eo].
  destruct (iv_excl _ _ Hinv i j p p' (page_no va) (page_no va')) as [<- Eq]; try done.
  { exact write_page. }
  destruct Hne as [?|Hne]; [done|]. apply Hne. unfold page_no, PAGING_USER_BASE in Eq.
  clear - Eo Eq Hal Hr1 Hr2 H2. zlia.
Qed.

End write.

(** ** A change of one entry

    The common part of the two outcomes of a copy-on-write fault: page [q0] of
    process [i] maps the frame [x], writable, instead of its shared frame. *)
Lemma bit7 x k : tab x -> 0 <= k < 4096 -> bit (user_entry x) k = bit 7 k.
Proof. apply user_entry_bit. Qed.

Lemma ne_pair (k i : nat) (q q0 : Z) : ~ (k = i /\ q = q0) -> k <> i \/ q <> q0.
Proof. destruct (decide (k = i)); tauto. Qed.

Section slot.
Context (s s' : paging) (ps : list proc) (Hinv : inv s ps).
Context (i : nat) (p : proc) (Hi : ps !! i = Some p) (q0 : Z) (Hq0 : upage q0) (x : Z).
Local Notation e0 := (pte s (p_dir p) q0).
Context (Hpres : bit e0 PG_PRESENT = true) (Hcow : bit e0 PG_COW = true).
Context (Hx : tab x) (Hvx : vframe (frames s') x).
Context (Hwf' : wf (frames s')) (Hst : statics s s')
  (Htot : total_frames (frames s') = total_frames (frames s)).
Context (Hrc : forall b, rc (frames s') b = rc (frames s) b - b2z (paddr e0 =? b) + b2z (x =? b)).
Context (Hres : forall b, reserved (frames s) b -> reserved (frames s') b).
Context (Hrd : forall j p' t k, ps !! j = Some p' -> t ∈ tables (p_dir p') -> idx k ->
  rd s' t k = if decide (t = d_pt (p_dir p) q0 /\ k = q0 mod 512) then user_entry x else rd s t k).
Context (Hxt : forall j p', ps !! j = Some p' -> x ∉ tables (p_dir p')).
Context (Hfresh : forall j p' q, ps !! j = Some p' -> upage q -> (j <> i \/ q <> q0) ->
  maps s (p_dir p') x q = false).

Lemma slot_dir j p' : ps !! j = Some p' -> dir_ok s' (p_dir p').
Proof.
  intros Hj. pose proof (iv_dir _ _ Hinv p' (iv_in ps j p' Hj)) as Hd.
  apply (dir_ok_ext s); [done|]. intros t k Ht Hk.
  assert (t ∈ tables (p_dir p')) as Htt by by apply upper_in_tables.
  rewrite (Hrd j p') by done. rewrite decide_False; [done|]. intros [-> _].
  destruct (decide (i = j)) as [<-|Hij].
  - rewrite Hi in Hj. injection Hj as <-. by apply (pt_not_upper s (p_dir p) q0 Hd).
  - exact (tables_apart s ps Hinv i j p p' _ Hi Hj Hij (d_pt_in (p_dir p) q0) Htt).
Qed.

Lemma slot_pte j p' q : ps !! j = Some p' -> upage q ->
  pte s' (p_dir p') q = if decide (j = i /\ q = q0) then user_entry x else pte s (p_dir p') q.
Proof.
  intros Hj Hq. unfold pte. rewrite (Hrd j p') by (done || apply d_pt_in || apply slot_idx).
  destruct (decide (j = i)) as [->|Hij].
  - rewrite Hi in Hj. injection Hj as <-.
    pose proof (iv_dir _ _ Hinv p (iv_in ps i p Hi)) as Hd.
    destruct (decide (q = q0)) as [->|Hne]; [by rewrite !decide_True|].
    rewrite !decide_False; [done|tauto|]. intros [E1 E2]. apply Hne.
    by apply (slot_inj s (p_dir p)).
  - rewrite (decide_False (P := j = i /\ _)) by tauto. rewrite decide_False; [done|]. intros [E _].
    apply (tables_apart s ps Hinv j i p' p (d_pt (p_dir p') q) Hj Hi Hij); [apply d_pt_in|].
    rewrite E. apply d_pt_in.
Qed.

Lemma slot_maps b :
  countb (maps s' (p_dir p) b) 1024 =
  countb (maps s (p_dir p) b) 1024 - b2z (paddr e0 =? b) + b2z (x =? b).
Proof.
  assert (maps s (p_dir p) b q0 = (paddr e0 =? b)) as E0 by (unfold maps; by rewrite Hpres).
  assert (maps s' (p_dir p) b q0 = (x =? b)) as E1.
  { unfold maps. rewrite (slot_pte i p q0 Hi Hq0), decide_True by done.
    rewrite bit7 by (done || (unfold PG_PRESENT; lia)). change (bit 7 PG_PRESENT) with true.
    unfold paddr. by rewrite user_entry_addr. }
  rewrite <- E0, <- E1. apply countb_update; rewrite n1024; [done|].
  intros q Hq Hne. unfold maps. rewrite (slot_pte i p q Hi Hq). by rewrite decide_False by tauto.
Qed.

Lemma slot_extra b : countb (region_extra s' p b) 1024 <= countb (region_extra s p b) 1024.
Proof.
  apply countb_le. rewrite n1024. intros q Hq. unfold region_extra.
  rewrite (slot_pte i p q Hi Hq). case_decide as Hd; [|done]. destruct Hd as [_ ->].
  intros E. apply andb_prop in E as [-> _]. cbn [andb]. apply negb_true_iff, Z.eqb_neq.
  intros E. pose proof Hcow as Hc. rewrite E, user_entry_lor in Hc.
  destruct (decide (p_base p = 0)) as [Hb|Hb].
  - rewrite Hb, Z.add_0_l, entry_bit in Hc; [done|rewrite Z.mod_mul; lia|unfold PG_COW; lia].
  - destruct (iv_region _ _ Hinv p q0 (iv_in ps i p Hi) Hb Hq0) as [Hm _].
    rewrite entry_bit in Hc; [done|done|unfold PG_COW; lia].
Qed.

Lemma slot_refs b : refs s' ps b <= refs s ps b - b2z (paddr e0 =? b) + b2z (x =? b).
Proof.
  assert (refs s' (delete i ps) b = refs s (delete i ps) b) as E.
  { apply refs_ext. intros y Hy. apply list_elem_of_lookup in Hy as [j Hj].
    apply proc_refs_ext. intros q Hq.
    assert (exists k, ps !! k = Some y /\ k <> i) as (k & Hk & Hki).
    { destruct (decide (j < i)%nat).
      - exists j. rewrite list_lookup_delete_lt in Hj by lia. split; [done|lia].
      - exists (S j). rewrite list_lookup_delete_ge in Hj by lia. split; [done|lia]. }
    rewrite (slot_pte k y q Hk Hq). by rewrite decide_False by tauto. }
  rewrite !(refs_delete _ ps i p b Hi) in E. pose proof (slot_maps b). pose proof (slot_extra b).
  unfold proc_refs in E. lia.
Qed.

Lemma slot_table_rc j p' t : ps !! j = Some p' -> t ∈ tables (p_dir p') -> rc (frames s') t = rc (frames s) t.
Proof.
  intros Hj Ht. rewrite Hrc.
  pose proof (mapped_not_table s ps Hinv i j p p' q0 Hi Hj Hq0 Hpres) as N1. pose proof (Hxt j p' Hj) as N2.
  rewrite !(proj2 (Z.eqb_neq _ t)); [change (b2z false) with 0; lia| |]; by intros <-.
Qed.

Lemma slot_inv : inv s' ps.
Proof.
  assert (forall y, y ∈ ps -> exists j, ps !! j = Some y) as Hin
    by (intros y Hy; by apply list_elem_of_lookup).
  split.
  - done.
  - by apply (kernel_ok_keep s); [apply Hinv|..].
  - intros y Hy. destruct (Hin y Hy) as [j Hj]. by apply (slot_dir j).
  - intros b. rewrite Hrc. pose proof (slot_refs b). pose proof (iv_refs _ _ Hinv b). lia.
  - intros y t Hy Ht. destruct (Hin y Hy) as [j Hj].
    destruct (iv_tables _ _ Hinv y t Hy Ht) as [Hh E].
    rewrite held_iff in Hh |- *. rewrite (slot_table_rc j y) by done. unfold vframe in *.
    rewrite Htot. done.
  - intros y q Hy Hq. destruct (Hin y Hy) as [j Hj]. rewrite (slot_pte j y) by done.
    case_decide.
    + intros _. unfold paddr. by rewrite user_entry_addr.
    + intros Hb. unfold vframe. rewrite Htot. by apply (iv_frames _ _ Hinv).
  - intros y q Hy Hq. destruct (Hin y Hy) as [j Hj]. rewrite (slot_pte j y) by done.
    case_decide; [|by apply (iv_user _ _ Hinv)].
    intros _. rewrite bit7 by (done || (unfold PG_USER; lia)). done.
  - intros y q Hy Hb Hq. unfold vframe. rewrite Htot. by apply (iv_region _ _ Hinv).
  - intros j k y z q q' Hj Hk Hq Hq'. rewrite (slot_pte j y q), (slot_pte k z q') by done.
    destruct (decide (j = i /\ q = q0)) as [[-> ->]|Nj], (decide (k = i /\ q' = q0)) as [[-> ->]|Nk].
    + done.
    + intros _ _ Hb E. exfalso. unfold paddr at 2 in E. rewrite user_entry_addr in E by done.
      pose proof (Hfresh k z q' Hk Hq' (ne_pair _ _ _ _ Nk)) as Hf. unfold maps in Hf. rewrite Hb in Hf.
      by rewrite (proj2 (Z.eqb_eq _ _) E) in Hf.
    + intros Hb _ _ E. exfalso. unfold paddr at 1 in E. rewrite user_entry_addr in E by done.
      pose proof (Hfresh j y q Hj Hq (ne_pair _ _ _ _ Nj)) as Hf. unfold maps in Hf. rewrite Hb in Hf.
      by rewrite (proj2 (Z.eqb_eq _ _) (eq_sym E)) in Hf.
    + by apply (iv_excl _ _ Hinv).
Qed.

End slot.

(** ** A copy-on-write fault *)

Section fault.
Context (s s' : paging) (ps : list proc) (Hinv : inv s ps).
Context (i : nat) (p : proc) (Hi : ps !! i = Some p) (va r : Z) (Hva : 0 <= va < 2 ^ 64).
Context (Hf : paging_cow_resolve s (d_pml4 (p_dir p)) va = (s', r)).
Local Notation q0 := (page_no va).
Local Notation e0 := (pte s (p_dir p) q0).

Lemma fault_cases :
  (r = 0 /\ s' = s) \/
  (r = 1 /\ upage q0 /\ in_user_range va = true /\
   bit e0 PG_PRESENT = true /\ bit e0 PG_COW = true /\
   (resolve_own s s' (p_dir p) q0 (paddr e0) \/
    exists n, resolve_copy s s' (p_dir p) q0 (paddr e0) n)).
Proof.
  destruct (decide (in_user_range va = true)) as [Hr|Hr].
  - pose proof (in_range_page _ Hr) as [Hq _].
    pose proof (resolve_directory s (p_dir p) va (iv_wf _ _ Hinv)
      (iv_dir _ _ Hinv p (iv_in ps i p Hi)) (fun t => tables_counted s ps Hinv i p t Hi) Hva) as H.
    rewrite Hf in H. destruct H as [H|(? & ? & ? & ? & H)]; [|by left|right; done].
    intros Hb. by apply (mapped_held s ps Hinv i).
  - left. apply not_true_is_false in Hr. revert Hf. unfold paging_cow_resolve.
    rewrite (pml4_nonzero s (p_dir p) (iv_dir _ _ Hinv p (iv_in ps i p Hi))).
    rewrite align_down64_page by done. destruct (align_page va Hva) as [Er _].
    rewrite Hr in Er. unfold in_user_range in Er. apply negb_false_iff in Er. rewrite Er.
    by intros [= <- <-].
Qed.

(** A frame a process maps keeps its words, but for the entry of the fault. *)
Lemma fault_own_tables :
  resolve_own s s' (p_dir p) q0 (paddr e0) -> upage q0 -> bit e0 PG_PRESENT = true -> bit e0 PG_COW = true ->
  inv s' ps /\
  forall j p' q, ps !! j = Some p' -> upage q ->
    pte s' (p_dir p') q = if decide (j = i /\ q = q0) then user_entry (paddr e0) else pte s (p_dir p') q.
Proof.
  intros [O1 O2 O3 O4] Hq Hb Hc. pose proof (mapped_tab s ps Hinv i p q0 Hi Hq Hb) as Ta.
  assert (forall j p' t k, ps !! j = Some p' -> t ∈ tables (p_dir p') -> idx k ->
    rd s' t k = if decide (t = d_pt (p_dir p) q0 /\ k = q0 mod 512) then user_entry (paddr e0) else rd s t k) as Hrd.
  { intros j p' t k Hj Ht Hk. apply O4; [|done].
    pose proof (dk_tab _ _ (iv_dir _ _ Hinv p' (iv_in ps j p' Hj))) as HT.
    rewrite Forall_forall in HT. by apply HT. }
  split; [|intros j p' q Hj Hq'; by apply (slot_pte s s' ps Hinv i p Hi q0 Hq (paddr e0) Hrd)].
  apply (slot_inv s s' ps Hinv i p Hi q0 Hq (paddr e0)); try done; rewrite ?O1; try done.
  - by apply (iv_frames _ _ Hinv p); [apply (iv_in ps i)|..].
  - apply Hinv.
  - intros b. lia.
  - intros j p' Hj. by apply (mapped_not_table s ps Hinv i j p p').
  - intros j p' q Hj Hq' Hne. destruct (maps s (p_dir p') (paddr e0) q) eqn:Em; [|done]. exfalso.
    assert (maps s (p_dir p) (paddr e0) q0 = true) as Em0 by (unfold maps; by rewrite Hb, Z.eqb_refl).
    pose proof (maps_maps_refs s ps j i p' p q q0 _ Hj Hi Hq' Hq Hne Em Em0).
    pose proof (iv_refs _ _ Hinv (paddr e0)). lia.
Qed.

Lemma fault_copy_tables n :
  resolve_copy s s' (p_dir p) q0 (paddr e0) n -> upage q0 -> bit e0 PG_PRESENT = true ->
  bit e0 PG_COW = true ->
  inv s' ps /\
  forall j p' q, ps !! j = Some p' -> upage q ->
    pte s' (p_dir p') q = if decide (j = i /\ q = q0) then user_entry n else pte s (p_dir p') q.
Proof.
  intros [V1 V2 V3 V4 [V5 V5'] Vv V6 V7 V8 V9] Hq Hb Hc.
  pose proof (mapped_held s ps Hinv i p q0 Hi Hq Hb) as Ha. apply held_iff in Ha as [_ Ha].
  assert (n <> paddr e0) as Hna by (intros ->; lia).
  assert (forall j p', ps !! j = Some p' -> n ∉ tables (p_dir p')) as Hnt
    by (intros j p' Hj; by apply (free_unused s ps Hinv j p' n Hj V5)).
  assert (forall j p' t k, ps !! j = Some p' -> t ∈ tables (p_dir p') -> idx k ->
    rd s' t k = if decide (t = d_pt (p_dir p) q0 /\ k = q0 mod 512) then user_entry n else rd s t k) as Hrd.
  { intros j p' t k Hj Ht Hk.
    pose proof (dk_tab _ _ (iv_dir _ _ Hinv p' (iv_in ps j p' Hj))) as HT.
    rewrite Forall_forall in HT. rewrite V9 by (done || by apply HT).
    case_decide; [done|]. rewrite decide_False; [done|]. intros ->. by apply (Hnt j p' Hj). }
  split; [|intros j p' q Hj Hq'; by apply (slot_pte s s' ps Hinv i p Hi q0 Hq n Hrd)].
  apply (slot_inv s s' ps Hinv i p Hi q0 Hq n); try done.
  - unfold vframe in *. by rewrite V3.
  - intros b. rewrite V7. destruct (decide (b = n)) as [->|Hbn].
    + rewrite Z.eqb_refl, (proj2 (Z.eqb_neq _ _)) by congruence. rewrite V5. done.
    + rewrite (proj2 (Z.eqb_neq n b)) by congruence. change (b2z false) with 0.
      destruct (decide (b = paddr e0)) as [->|Hba].
      * rewrite Z.eqb_refl. change (b2z true) with 1. lia.
      * rewrite (proj2 (Z.eqb_neq _ b)) by congruence. change (b2z false) with 0. lia.
  - intros j p' q Hj Hq' _. by apply (free_unused s ps Hinv j p' n Hj V5).
Qed.

(** Every process reads what it read before. *)
Definition same_view (u u' : paging) (d : dirt) : Prop :=
  forall va', user_read u' d va' = user_read u d va'.

(** The view of a process from its entries and the words they lead to. *)
Lemma view_intro u u' d :
  (forall q, upage q -> bit (pte u' d q) PG_PRESENT && bit (pte u' d q) PG_USER
                      = bit (pte u d q) PG_PRESENT && bit (pte u d q) PG_USER) ->
  (forall q k, upage q -> idx k -> bit (pte u d q) PG_PRESENT = true ->
     rd u' (paddr (pte u' d q)) k = rd u (paddr (pte u d q)) k) ->
  same_view u u' d.
Proof.
  intros Hb Hw va'. unfold user_read. destruct (in_user_range va') eqn:Hr; [|done].
  destruct (va' mod 8 =? 0); [|done]. cbn [andb].
  pose proof (in_range_page _ Hr) as [Hq _]. rewrite Hb by done.
  destruct (bit (pte u d (page_no va')) PG_PRESENT) eqn:Hp; [|done].
  destruct (bit (pte u d (page_no va')) PG_USER); [|done]. cbn [andb]. f_equal.
  apply Hw; [done| |done]. apply in_range_iff in Hr. unfold idx. clear - Hr. zlia.
Qed.

Lemma fault_spec :
  inv s' ps /\ (forall j p', ps !! j = Some p' -> same_view s s' (p_dir p')) /\
  (r = 0 /\ s' = s \/
   r = 1 /\ bit e0 PG_COW = true /\ bit (pte s' (p_dir p) q0) PG_WRITABLE = true).
Proof.
  destruct fault_cases as [[-> ->]|(-> & Hq & Hr & Hb & Hc & Hcase)].
  { split_and!; [done|done|by left]. }
  assert (tab (paddr e0)) as Ta by (by apply (mapped_tab s ps Hinv i p q0)).
  destruct Hcase as [Ho|[n Hn]].
  - destruct (fault_own_tables Ho Hq Hb Hc) as [Hinv' Hpte]. split_and!; [done| |].
    + intros j p' Hj. apply view_intro.
      * intros q Hq'. rewrite (Hpte j p') by done. case_decide as Hd; [|done].
        destruct Hd as [-> ->]. rewrite Hi in Hj. injection Hj as <-.
        rewrite !bit7 by (done || (unfold PG_PRESENT, PG_USER; lia)).
        by rewrite Hb, (iv_user _ _ Hinv p q0 (iv_in ps i p Hi) Hq Hb).
      * intros q k Hq' Hk Hbq. pose proof (mapped_tab s ps Hinv j p' q Hj Hq' Hbq) as Tq.
        pose proof (mapped_not_table s ps Hinv j i p' p q Hj Hi Hq' Hbq) as Hnt.
        assert (paddr (pte s' (p_dir p') q) = paddr (pte s (p_dir p') q)) as ->.
        { rewrite (Hpte j p') by done. case_decide as Hd; [|done]. destruct Hd as [-> ->].
          rewrite Hi in Hj. injection Hj as <-. unfold paddr at 1. by rewrite user_entry_addr. }
        rewrite (ro_rd _ _ _ _ _ Ho) by done. rewrite decide_False; [done|]. intros [E _].
        apply Hnt. rewrite E. apply d_pt_in.
    + right. split_and!; [done|done|]. rewrite (Hpte i p), decide_True by done.
      by rewrite bit7 by (done || (unfold PG_WRITABLE; lia)).
  - destruct (fault_copy_tables n Hn Hq Hb Hc) as [Hinv' Hpte].
    pose proof (rv_tab _ _ _ _ _ _ Hn) as Tn. destruct (rv_fresh _ _ _ _ _ _ Hn) as [Fn _].
    assert (forall j p' t, ps !! j = Some p' -> t ∈ tables (p_dir p') -> t <> n) as Hnt.
    { intros j p' t Hj Ht ->. by apply (free_unused s ps Hinv j p' n Hj Fn). }
    split_and!; [done| |].
    + intros j p' Hj. apply view_intro.
      * intros q Hq'. rewrite (Hpte j p') by done. case_decide as Hd; [|done].
        destruct Hd as [-> ->]. rewrite Hi in Hj. injection Hj as <-.
        rewrite !bit7 by (done || (unfold PG_PRESENT, PG_USER; lia)).
        by rewrite Hb, (iv_user _ _ Hinv p q0 (iv_in ps i p Hi) Hq Hb).
      * intros q k Hq' Hk Hbq. rewrite (Hpte j p') by done. case_decide as Hd.
        -- destruct Hd as [-> ->]. rewrite Hi in Hj. injection Hj as <-.
           unfold paddr at 1. rewrite user_entry_addr by done. rewrite (rv_rd _ _ _ _ _ _ Hn) by done.
           rewrite decide_False; [by rewrite decide_True|]. intros [E _].
           by apply (Hnt i p (d_pt (p_dir p) q0) Hi (d_pt_in _ _)).
        -- pose proof (mapped_tab s ps Hinv j p' q Hj Hq' Hbq) as Tq.
           pose proof (mapped_not_table s ps Hinv j i p' p q Hj Hi Hq' Hbq) as Hmt.
           rewrite (rv_rd _ _ _ _ _ _ Hn) by done.
           rewrite !decide_False; [done| |].
           ++ intros E. pose proof (mapped_held s ps Hinv j p' q Hj Hq' Hbq) as Hh.
              apply held_iff in Hh as [_ Hh]. rewrite E in Hh. lia.
           ++ intros [E _]. apply Hmt. rewrite E. apply d_pt_in.
    + right. split_and!; [done|done|]. rewrite (Hpte i p), decide_True by done.
      by rewrite bit7 by (done || (unfold PG_WRITABLE; lia)).
Qed.

End fault.
