(* ===== verification/Process.v ===== *)
(** Processes: fork, exit and creation of address spaces, the system they form
    with the stores of the processes and their copy-on-write faults, and the
    theorems on it: the invariant of the reference counts, the isolation of the
    processes, and what fork, creation and stores do to the memory a process
    sees. *)
From S2P Require Import Prelude.
From S2P Require Import Interfaces.
From S2P Require Import Elf.
From S2P Require Import Physmem.
From S2P Require Import Paging.
From S2P Require Import UserDir.
From S2P Require Import AddrSpace.
From Stdlib Require Import ZArith Lia.
From stdpp Require Import base numbers list gmap.

Open Scope Z_scope.
Open Scope lyth_scope.

Local Opaque countb for_loop.

(** * Fork *)

Lemma cow_bits a k : tab a -> 0 <= k < 4096 -> bit (cow_entry a) k = bit 517 k.
Proof. intros Ha Hk. rewrite cow_entry_lor. apply entry_bit; [by apply tab_mod|done]. Qed.

Lemma cow_addr a : tab a -> paddr (cow_entry a) = a.
Proof.
  intros Ha. pose proof (tab_range _ Ha) as [? ?]. unfold paddr. rewrite cow_entry_lor.
  apply entry_addr; [done|done|lia].
Qed.

Lemma cloned_present q e : cloned q e = true -> bit e PG_PRESENT = true.
Proof. unfold cloned. intros. by bool_to_prop. Qed.

Lemma b2z_false_le x y : b2z false <= b2z x + b2z y.
Proof. pose proof (b2z_bound x). pose proof (b2z_bound y). change (b2z false) with 0. lia. Qed.

(** The parent's entry leads to the same frame as before. *)
Lemma parent_entry_spec q e :
  (bit e PG_PRESENT = true -> tab (paddr e) /\ bit e PG_USER = true) ->
  bit (parent_entry q e) PG_PRESENT = bit e PG_PRESENT /\
  (bit e PG_PRESENT = true -> bit (parent_entry q e) PG_USER = true) /\
  paddr (parent_entry q e) = paddr e /\
  (bit (parent_entry q e) PG_WRITABLE = true -> cloned q e = false /\ parent_entry q e = e).
Proof.
  intros He. unfold parent_entry. destruct (cloned q e) eqn:Ec.
  - pose proof (cloned_present q e Ec) as Hb. destruct (He Hb) as [Ht _].
    rewrite !cow_bits by (done || (unfold PG_PRESENT, PG_USER, PG_WRITABLE; lia)).
    rewrite cow_addr, Hb by done. done.
  - split_and!; [done|intros Hb; by apply He|done|done].
Qed.

Section fork.
Context (s s' : paging) (ps : list proc) (Hinv : inv s ps).
Context (i : nat) (p : proc) (Hi : ps !! i = Some p).
Local Notation d := (p_dir p).

Lemma fork_pre q : upage q -> bit (pte s d q) PG_PRESENT = true ->
  tab (paddr (pte s d q)) /\ bit (pte s d q) PG_USER = true.
Proof.
  intros Hq Hb. split; [by apply (mapped_tab s ps Hinv i p)|].
  by apply (iv_user _ _ Hinv p q (iv_in ps i p Hi)).
Qed.

Section effect.
Context (k : nat) (new : list Z) (He : clone_eff s s' d k new).

Definition fork_entry (q : Z) : Z :=
  if q <? Z.of_nat k then parent_entry q (pte s d q) else pte s d q.

Lemma fork_entry_spec q : upage q ->
  bit (fork_entry q) PG_PRESENT = bit (pte s d q) PG_PRESENT /\
  (bit (pte s d q) PG_PRESENT = true -> bit (fork_entry q) PG_USER = true) /\
  paddr (fork_entry q) = paddr (pte s d q) /\
  (bit (fork_entry q) PG_WRITABLE = true ->
   fork_entry q = pte s d q /\ (q < Z.of_nat k -> cloned q (pte s d q) = false)).
Proof.
  intros Hq. unfold fork_entry. destruct (Z.ltb_spec q (Z.of_nat k)).
  - destruct (parent_entry_spec q (pte s d q) (fork_pre q Hq)) as (? & ? & ? & Hw).
    split_and!; [done..|]. intros Hb. destruct (Hw Hb). done.
  - split_and!; [done|intros Hb; by apply fork_pre|done|]. intros _. split; [done|lia].
Qed.

(** The words of the tables of the processes. *)
Lemma fork_keeps j p' : ps !! j = Some p' ->
  dir_ok s' (p_dir p') /\
  forall q, upage q -> pte s' (p_dir p') q = if decide (j = i) then fork_entry q else pte s (p_dir p') q.
Proof.
  intros Hj. pose proof (iv_dir _ _ Hinv p' (iv_in ps j p' Hj)) as Hd.
  pose proof (dk_tab _ _ Hd) as HT. rewrite Forall_forall in HT.
  pose proof (fun t => tables_counted s ps Hinv j p' t Hj) as Hc.
  destruct (decide (j = i)) as [->|Hij].
  - rewrite Hi in Hj. injection Hj as <-. split.
    + apply (dir_ok_ext s); [done|]. intros t l Ht Hl. pose proof (upper_in_tables d t Ht) as Htt.
      apply (ce_rd _ _ _ _ _ He); [by apply HT|done|left; by apply Hc|..]; intros ->.
      * exact (pt_not_upper s d 0 Hd Ht).
      * exact (pt_not_upper s d 512 Hd Ht).
    + intros q Hq. by apply (ce_pte _ _ _ _ _ He).
  - destruct (keep_dir s s' (p_dir p') Hd) as [H1 H2]; [|by split].
    intros t l Ht Hl. apply (ce_rd _ _ _ _ _ He); [by apply HT|done|left; by apply Hc|..]; intros ->.
    + apply (tables_apart s ps Hinv j i p' p _ Hj Hi Hij Ht (d_pt_in d 0)).
    + apply (tables_apart s ps Hinv j i p' p _ Hj Hi Hij Ht (d_pt_in d 512)).
Qed.

Lemma fork_maps j p' b q : ps !! j = Some p' -> upage q ->
  maps s' (p_dir p') b q = maps s (p_dir p') b q.
Proof.
  intros Hj Hq. unfold maps. rewrite (proj2 (fork_keeps j p' Hj)) by done. case_decide as E; [|done].
  subst j. rewrite Hi in Hj. injection Hj as <-.
  destruct (fork_entry_spec q Hq) as (-> & _ & -> & _). done.
Qed.

(** The view of the processes that exist. *)
Lemma fork_view j p' : ps !! j = Some p' -> same_view s s' (p_dir p').
Proof.
  intros Hj. destruct (fork_keeps j p' Hj) as [_ Hp]. apply view_intro.
  - intros q Hq. rewrite Hp by done. case_decide as E; [|done]. subst j.
    rewrite Hi in Hj. injection Hj as <-. destruct (fork_entry_spec q Hq) as (E1 & E2 & _).
    rewrite E1. destruct (bit (pte s d q) PG_PRESENT) eqn:Hb; [|done].
    rewrite E2 by done. by destruct (fork_pre q Hq Hb) as [_ ->].
  - intros q l Hq Hl Hb. rewrite Hp by done.
    assert (paddr (if decide (j = i) then fork_entry q else pte s (p_dir p') q)
            = paddr (pte s (p_dir p') q)) as ->.
    { case_decide as E; [|done]. subst j. rewrite Hi in Hj. injection Hj as <-. by apply fork_entry_spec. }
    pose proof (mapped_not_table s ps Hinv j i p' p q Hj Hi Hq Hb) as Hnt.
    pose proof (mapped_held s ps Hinv j p' q Hj Hq Hb) as Hh. apply held_iff in Hh as [_ Hh].
    apply (ce_rd _ _ _ _ _ He); [by apply (mapped_tab s ps Hinv j p')|done|by left|..]; intros E; apply Hnt; rewrite E.
    + apply (d_pt_in d 0).
    + apply (d_pt_in d 512).
Qed.

Lemma fork_extra b :
  countb (region_extra s' p b) 1024 <= countb (region_extra s p b) 1024 + countb (shares_page s d b) (min k 1024).
Proof.
  rewrite <- (countb_trunc (shares_page s d b) (min k 1024) 1024) by lia.
  apply countb_sum_le. rewrite n1024. intros q Hq.
  assert (pte s' d q = fork_entry q) as E.
  { rewrite (proj2 (fork_keeps i p Hi)) by done. by rewrite decide_True. }
  unfold region_extra. rewrite E. destruct (negb (p_base p =? 0)) eqn:Hb0; [|by apply b2z_false_le].
  destruct (Z.eqb_spec b (p_base p + q * 4096)) as [->|]; [|by apply b2z_false_le].
  cbn [andb]. destruct (Z.eqb_spec (pte s d q) (user_entry (p_base p + q * 4096))) as [Eu|Nu].
  2: { cbn [negb]. change (b2z true) with 1. match goal with |- b2z ?x <= 1 + b2z ?y =>
         pose proof (b2z_bound x); pose proof (b2z_bound y) end. lia. }
  cbn [negb]. change (b2z false) with 0. unfold fork_entry.
  destruct (Z.ltb_spec q (Z.of_nat k)) as [Hlt|Hge].
  2: { rewrite Eu, Z.eqb_refl. cbn [negb]. match goal with |- _ <= 0 + b2z ?y => pose proof (b2z_bound y) end.
       change (b2z false) with 0. lia. }
  unfold parent_entry. destruct (cloned q (pte s d q)) eqn:Ec.
  - assert (shares_page s d (p_base p + q * 4096) q = true) as ->.
    { unfold shares_page. rewrite Ec. rewrite Eu. unfold paddr. rewrite user_entry_addr.
      - by rewrite Z.eqb_refl.
      - bool_to_prop. apply (vframe_tab (frames s)); [apply Hinv|].
        by apply (iv_region _ _ Hinv p q (iv_in ps i p Hi)). }
    rewrite (proj2 (Z.ltb_lt q _)) by lia. cbn [andb]. change (b2z true) with 1.
    match goal with |- b2z ?x <= _ => pose proof (b2z_bound x) end. lia.
  - rewrite Eu, Z.eqb_refl. cbn [negb]. match goal with |- _ <= 0 + b2z ?y => pose proof (b2z_bound y) end.
    change (b2z false) with 0. lia.
Qed.

(** The frames that become shared are those the parent maps. *)
Lemma shares_maps b : countb (shares_page s d b) 1024 <= countb (maps s d b) 1024.
Proof.
  apply countb_le. intros q _. unfold shares_page, maps, cloned. intros H.
  apply andb_prop in H as [[-> _]%andb_prop ->]. reflexivity.
Qed.

Lemma shares_none b : refs s ps b = 0 -> countb (shares_page s d b) 1024 = 0.
Proof.
  intros H0. pose proof (shares_maps b). pose proof (countb_bound (shares_page s d b) 1024).
  pose proof (refs_ge s ps i p b Hi). pose proof (proc_refs_parts s p b). unfold proc_refs in *. lia.
Qed.

Lemma shares_table j x t : ps !! j = Some x -> t ∈ tables (p_dir x) ->
  countb (shares_page s d t) 1024 = 0.
Proof.
  intros Hj Ht. apply countb_none. rewrite n1024. intros q Hq.
  destruct (shares_page s d t q) eqn:E; [|done]. unfold shares_page in E.
  apply andb_prop in E as [Ec E]. apply Z.eqb_eq in E.
  destruct (mapped_not_table s ps Hinv i j p x q Hi Hj Hq (cloned_present _ _ Ec)). by rewrite E.
Qed.

Context (Hk : (k <= 1024)%nat).

Lemma shares_upto b : 0 <= countb (shares_page s d b) k <= countb (shares_page s d b) 1024.
Proof. pose proof (countb_bound (shares_page s d b) k). split; [lia|by apply countb_mono]. Qed.

Lemma fork_proc_refs b :
  proc_refs s' p b <= proc_refs s p b + countb (shares_page s d b) k.
Proof.
  unfold proc_refs. rewrite (countb_ext (maps s' d b) (maps s d b)).
  - pose proof (fork_extra b) as E. rewrite Nat.min_l in E by done. lia.
  - rewrite n1024. intros q Hq. by apply (fork_maps i).
Qed.

Lemma fork_other_refs j x b : ps !! j = Some x -> j <> i -> proc_refs s' x b = proc_refs s x b.
Proof.
  intros Hj Hji. apply proc_refs_ext. intros q Hq. rewrite (proj2 (fork_keeps j x Hj)) by done.
  by rewrite decide_False.
Qed.

Lemma fork_delete_refs b : refs s' (delete i ps) b = refs s (delete i ps) b.
Proof.
  apply refs_ext. intros x [j Hj]%list_elem_of_lookup.
  destruct (delete_lookup _ _ _ _ Hj) as (l & Hl & Hne & _). by apply (fork_other_refs l).
Qed.

Lemma fork_rc_ge b : refs s ps b + countb (shares_page s d b) k <= rc (frames s') b.
Proof.
  rewrite (ce_rc _ _ _ _ _ He). pose proof (iv_refs _ _ Hinv b) as Hr. case_decide as Hn; [|lia].
  destruct (ce_new _ _ _ _ _ He b Hn) as (_ & H0 & _). pose proof (refs_nonneg s ps b).
  pose proof (shares_upto b). pose proof (shares_none b). lia.
Qed.

Lemma fork_table_rc j x t : ps !! j = Some x -> t ∈ tables (p_dir x) ->
  rc (frames s') t = 1 /\ held (frames s') t.
Proof.
  intros Hj Ht. destruct (iv_tables _ _ Hinv x t (iv_in ps j x Hj) Ht) as [Hh E].
  assert (rc (frames s') t = 1) as E1.
  { rewrite (ce_rc _ _ _ _ _ He). case_decide; [done|]. pose proof (shares_upto t).
    rewrite (shares_table j x t Hj Ht) in *. lia. }
  split; [done|]. rewrite held_iff in Hh |- *. unfold vframe in *.
  rewrite (ce_total _ _ _ _ _ He). split; [apply Hh|lia].
Qed.

(** The invariant of the processes that exist. *)
Lemma fork_inv : inv s' ps.
Proof.
  assert (forall x, x ∈ ps -> exists j, ps !! j = Some x) as Hin
    by (intros x Hx; by apply list_elem_of_lookup).
  assert (forall j x q, ps !! j = Some x -> upage q ->
    bit (pte s' (p_dir x) q) PG_PRESENT = bit (pte s (p_dir x) q) PG_PRESENT /\
    (bit (pte s (p_dir x) q) PG_PRESENT = true -> bit (pte s' (p_dir x) q) PG_USER = true) /\
    paddr (pte s' (p_dir x) q) = paddr (pte s (p_dir x) q) /\
    (bit (pte s' (p_dir x) q) PG_WRITABLE = true -> bit (pte s (p_dir x) q) PG_WRITABLE = true)) as Hp.
  { intros j x q Hj Hq. rewrite (proj2 (fork_keeps j x Hj)) by done. case_decide as E.
    - subst j. rewrite Hi in Hj. injection Hj as <-.
      destruct (fork_entry_spec q Hq) as (E1 & E2 & E3 & E4). split_and!; [done..|].
      intros Hw. by destruct (E4 Hw) as [<- _].
    - split_and!; try done. by apply (iv_user _ _ Hinv x q (iv_in ps j x Hj)). }
  split.
  - apply He.
  - apply (kernel_ok_keep s); [apply Hinv|apply He|apply (ce_res _ _ _ _ _ He)].
  - intros x Hx. destruct (Hin x Hx) as [j Hj]. by apply (fork_keeps j).
  - intros b. pose proof (fork_rc_ge b). pose proof (fork_proc_refs b). pose proof (fork_delete_refs b) as E.
    rewrite !(refs_delete _ ps i p b Hi) in E. lia.
  - intros x t Hx Ht. destruct (Hin x Hx) as [j Hj]. by destruct (fork_table_rc j x t Hj Ht).
  - intros x q Hx Hq. destruct (Hin x Hx) as [j Hj]. destruct (Hp j x q Hj Hq) as (-> & _ & -> & _).
    unfold vframe. rewrite (ce_total _ _ _ _ _ He). by apply (iv_frames _ _ Hinv).
  - intros x q Hx Hq. destruct (Hin x Hx) as [j Hj]. destruct (Hp j x q Hj Hq) as (-> & Hu & _). done.
  - intros x q Hx Hb Hq. unfold vframe. rewrite (ce_total _ _ _ _ _ He). by apply (iv_region _ _ Hinv).
  - intros j l x y q q' Hj Hl Hq Hq'. destruct (Hp j x q Hj Hq) as (-> & _ & -> & Hw).
    destruct (Hp l y q' Hl Hq') as (-> & _ & -> & _). intros B1 B2. apply (iv_excl _ _ Hinv); auto.
Qed.

End effect.

(** *** A fork that succeeds *)

Section child.
Context (d' : dirt) (Hc : clone_child s d s' d').
Local Notation c := (Proc d' 0).
Local Notation He := (cc_eff _ _ _ _ Hc).

Lemma child_entry_bits q : upage q ->
  bit (pte s' d' q) PG_PRESENT = cloned q (pte s d q) /\
  (cloned q (pte s d q) = true ->
   paddr (pte s' d' q) = paddr (pte s d q) /\ bit (pte s' d' q) PG_USER = true /\
   bit (pte s' d' q) PG_WRITABLE = false).
Proof.
  intros Hq. rewrite (cc_pte _ _ _ _ Hc) by done. unfold child_entry.
  destruct (cloned q (pte s d q)) eqn:E; [|done].
  destruct (fork_pre q Hq (cloned_present _ _ E)) as [Ht _].
  rewrite !cow_bits by (done || (unfold PG_PRESENT, PG_USER, PG_WRITABLE; lia)).
  by rewrite cow_addr.
Qed.

Lemma child_maps b : countb (maps s' d' b) 1024 = countb (shares_page s d b) 1024.
Proof.
  apply countb_ext. rewrite n1024. intros q Hq. unfold maps, shares_page.
  destruct (child_entry_bits q Hq) as [-> E]. destruct (cloned q (pte s d q)); [|done].
  by destruct E as [-> _].
Qed.

Lemma child_refs b :
  proc_refs s' c b = countb (shares_page s d b) 1024 + b2z (bool_decide (b ∈ tables d')).
Proof. unfold proc_refs. rewrite forget_extra. cbn [p_dir]. rewrite child_maps. lia. Qed.

(** The references of the parent without its region. *)
Lemma parent_refs b : proc_refs s' (Proc d 0) b <= proc_refs s p b.
Proof.
  unfold proc_refs. rewrite forget_extra. cbn [p_dir].
  rewrite (countb_ext (maps s' d b) (maps s d b)).
  - pose proof (proc_refs_parts s p b). lia.
  - rewrite n1024. intros q Hq. by apply (fork_maps 1024 (tables d') He i).
Qed.

Lemma fork_joins : joins s' (<[i := Proc d 0]> ps) c.
Proof.
  pose proof He as E.
  assert (forall t, t ∈ tables d' -> rc (frames s') t = 1 /\ rc (frames s) t = 0 /\ held (frames s') t) as Ht.
  { intros t Ht. destruct (ce_new _ _ _ _ _ E t Ht) as (_ & H0 & _ & Hh). split_and!; [|done|done].
    rewrite (ce_rc _ _ _ _ _ E). by rewrite decide_True. }
  split; cbn [p_dir p_base].
  - apply Hc.
  - intros b. rewrite (refs_update s' ps i p _ b Hi), child_refs. pose proof (parent_refs b).
    pose proof (fork_delete_refs 1024 (tables d') E b) as Ed. rewrite !(refs_delete _ ps i p b Hi) in Ed.
    pose proof (iv_refs _ _ Hinv b) as Hr. rewrite (ce_rc _ _ _ _ _ E).
    destruct (decide (b ∈ tables d')) as [Hb|Hb].
    + rewrite bool_decide_true by done. change (b2z true) with 1. destruct (Ht b Hb) as (_ & H0 & _).
      pose proof (refs_nonneg s ps b). rewrite (shares_none b) by lia. lia.
    + rewrite bool_decide_false by done. change (b2z false) with 0. lia.
  - intros t Htt. by destruct (Ht t Htt) as (? & _ & ?).
  - intros q Hq Hb. destruct (child_entry_bits q Hq) as [Eb Ec]. rewrite Hb in Eb. symmetry in Eb.
    destruct (Ec Eb) as (-> & -> & _). split; [|done]. unfold vframe. rewrite (ce_total _ _ _ _ _ E).
    by apply (iv_frames _ _ Hinv p q (iv_in ps i p Hi)), (cloned_present q).
  - done.
  - intros q q' Hq _ Hb Hw _ _. destruct (child_entry_bits q Hq) as [Eb Ec]. rewrite Hb in Eb.
    destruct (Ec (eq_sym Eb)) as (_ & _ & Hf). congruence.
  - intros j x q q' Hj Hq Hq' B1 B2 Ea. destruct (forget_lookup _ _ _ _ _ Hi Hj) as (y & Hy & Ey & _).
    rewrite <- Ey in *. destruct (child_entry_bits q' Hq') as [Eb Ec]. rewrite B2 in Eb. symmetry in Eb.
    destruct (Ec Eb) as (Ea' & _ & Hf). split; [|done]. apply not_true_is_false. intros Hw.
    rewrite Ea' in Ea. revert B1 Hw Ea. rewrite (proj2 (fork_keeps 1024 (tables d') E j y Hy)) by done.
    case_decide as Eji.
    + subst j. rewrite Hi in Hy. injection Hy as <-.
      destruct (fork_entry_spec 1024 q Hq) as (-> & _ & -> & Ew). intros B1 Hw Ea.
      destruct (Ew Hw) as [Ef En]. rewrite Ef in Hw.
      destruct (iv_excl _ _ Hinv i i p p q q') as [_ <-]; try done; [by apply (cloned_present q')|].
      rewrite n1024 in En. unfold upage in Hq. rewrite En in Eb by lia. done.
    + intros B1 Hw Ea. destruct (iv_excl _ _ Hinv j i y p q q') as [-> _]; try done.
      by apply (cloned_present q').
Qed.

Lemma fork_child_inv : inv s' (<[i := Proc d 0]> ps ++ [c]).
Proof.
  apply inv_extend; [|apply fork_joins].
  apply inv_forget; [|done]. by apply (fork_inv 1024 (tables d') He).
Qed.

(** The child reads what the parent read before the fork, but for the pages of
    shared memory. *)
Lemma fork_child_view va : in_user_range va = true -> shm_page (page_no va) = false ->
  user_read s' d' va = user_read s d va.
Proof.
  intros Hr Hs. unfold user_read. rewrite Hr. destruct (va mod 8 =? 0); [|done]. cbn [andb].
  destruct (in_range_page _ Hr) as [Hq _]. destruct (child_entry_bits _ Hq) as [-> Ec].
  unfold cloned in *. rewrite Hs in *. cbn [negb] in *. rewrite andb_true_r in *.
  destruct (bit (pte s d (page_no va)) PG_PRESENT) eqn:Hb; [|done]. cbn [andb].
  destruct (Ec eq_refl) as (-> & -> & _). destruct (fork_pre _ Hq Hb) as [Ht ->]. f_equal.
  pose proof (mapped_held s ps Hinv i p _ Hi Hq Hb) as Hh. apply held_iff in Hh as [_ Hh].
  pose proof (mapped_not_table s ps Hinv i i p p _ Hi Hi Hq Hb) as Hnt.
  apply in_range_iff in Hr.
  apply (ce_rd _ _ _ _ _ He); [done|apply write_word_idx; lia|by left|..]; intros E; apply Hnt; rewrite E.
  - apply (d_pt_in d 0).
  - apply (d_pt_in d 512).
Qed.

End child.
End fork.

(** * Exit *)

Section exit.
Context (s : paging) (ps : list proc) (Hinv : inv s ps).
Context (i : nat) (p : proc) (Hi : ps !! i = Some p).
Local Notation d := (p_dir p).

Lemma exit_not_kernel s1 : statics s s1 -> d_pml4 d <> kernel_pml4 s1.
Proof.
  intros (_ & _ & -> & _) E. destruct (iv_kernel _ _ Hinv) as (Hr & _).
  pose proof (tables_counted s ps Hinv i p (d_pml4 d) Hi (list_elem_of_here _ _)).
  symmetry in E. by apply (reserved_ne (frames s) (d_pml4 d) (kernel_pml4 s)).
Qed.

(** The first half of the exit gives back references of the process. *)
Record gave_back (s1 : paging) : Prop := GaveBack {
  gb_wf : wf (frames s1);
  gb_statics : statics s s1;
  gb_total : total_frames (frames s1) = total_frames (frames s);
  gb_dir : dir_ok s1 d;
  gb_rd t l : tab t -> idx l -> t ∉ tables d -> rd s1 t l = rd s t l;
  gb_rc b : rc (frames s) b - proc_refs s p b + b2z (bool_decide (b ∈ tables d))
            <= rc (frames s1) b <= rc (frames s) b;
  gb_res b : reserved (frames s) b -> reserved (frames s1) b;
}.

Lemma exit_pages : gave_back (paging_release_user_pages s (d_pml4 d)).
Proof.
  destruct (release_directory s d (iv_wf _ _ Hinv) (iv_dir _ _ Hinv p (iv_in ps i p Hi))) as [Hd He].
  - intros q Hq. by apply (iv_frames _ _ Hinv p q (iv_in ps i p Hi)).
  - intros b. pose proof (refs_ge s ps i p b Hi). pose proof (iv_refs _ _ Hinv b).
    pose proof (proc_refs_parts s p b). unfold proc_refs in *. lia.
  - set (s1 := paging_release_user_pages s (d_pml4 d)) in *. clearbody s1.
    split; try apply He; [done| |].
    + intros t l Ht Hl Hn. apply (re_rd _ _ _ He); [done|done|..]; intros ->; apply Hn.
      * apply (d_pt_in d 0).
      * apply (d_pt_in d 512).
    + intros b. rewrite (re_rc _ _ _ He). pose proof (proc_refs_parts s p b). unfold proc_refs. lia.
Qed.

(** Every frame of the region is mapped or kept by the process. *)
Lemma region_refs q : upage q -> p_base p <> 0 ->
  1 <= countb (maps s d (p_base p + q * 4096)) 1024 + countb (region_extra s p (p_base p + q * 4096)) 1024.
Proof.
  intros Hq Hb. set (b := p_base p + q * 4096). pose proof (proc_refs_parts s p b).
  pose proof (vframe_tab _ _ (iv_wf _ _ Hinv) (iv_region _ _ Hinv p q (iv_in ps i p Hi) Hb Hq)) as Ht.
  fold b in Ht. destruct (Z.eqb_spec (pte s d q) (user_entry b)) as [E|E].
  - assert (maps s d b q = true) as Hm.
    { unfold maps. rewrite E, bit7 by (done || (unfold PG_PRESENT; lia)). unfold paddr.
      rewrite user_entry_addr by done. by rewrite Z.eqb_refl. }
    pose proof (countb_pos (maps s d b) 1024 q) as Hp. rewrite n1024 in Hp. specialize (Hp Hq Hm). lia.
  - assert (region_extra s p b q = true) as Hm.
    { unfold region_extra. fold b. by rewrite Z.eqb_refl, !(proj2 (Z.eqb_neq _ _)). }
    pose proof (countb_pos (region_extra s p b) 1024 q) as Hp. rewrite n1024 in Hp. specialize (Hp Hq Hm). lia.
Qed.

Lemma exit_region : p_base p <> 0 ->
  gave_back (set_frames s (physmem_free_region (frames s) (p_base p) PAGING_USER_SIZE)).
Proof.
  intros Hb. pose proof (fun q => iv_region _ _ Hinv p q (iv_in ps i p Hi) Hb) as Hv.
  destruct (Hv 0 ltac:(unfold upage; lia)) as [Hm Hlow]. rewrite Z.add_0_r in Hm, Hlow.
  unfold LOW_FRAMES in Hlow.
  assert (0 <= p_base p) as H0 by (clear - Hlow; zlia).
  destruct (free_region_rc (frames s) (p_base p) (iv_wf _ _ Hinv) Hm H0) as [R1 R2 R3 R4].
  { intros q Hq. rewrite held_iff. split; [by apply Hv|]. pose proof (region_refs q Hq Hb).
    pose proof (refs_ge s ps i p (p_base p + q * 4096) Hi).
    pose proof (iv_refs _ _ Hinv (p_base p + q * 4096)).
    pose proof (proc_refs_parts s p (p_base p + q * 4096)). unfold proc_refs in *. lia. }
  set (f := physmem_free_region (frames s) (p_base p) PAGING_USER_SIZE) in *. clearbody f.
  split; cbn [frames set_frames]; try done.
  - by apply (keep_dir s); [apply (iv_dir _ _ Hinv p (iv_in ps i p Hi))|].
  - intros b. rewrite R3. pose proof (b2z_bound (in_region (p_base p) b)). split; [|lia].
    pose proof (proc_refs_parts s p b). unfold proc_refs.
    destruct (in_region (p_base p) b) eqn:Er; [|change (b2z false) with 0; lia].
    destruct (in_region_inv _ _ Hm Er) as (q & Hq & ->). pose proof (region_refs q Hq Hb).
    change (b2z true) with 1. lia.
Qed.

Lemma exit_inv :
  let s' := release_address_space s (d_pml4 d) (p_base p) true in
  inv s' (delete i ps) /\ forall j x, delete i ps !! j = Some x -> same_view s s' (p_dir x).
Proof.
  unfold release_address_space. rewrite (pml4_nonzero s d (iv_dir _ _ Hinv p (iv_in ps i p Hi))).
  cbv zeta.
  match goal with |- context [paging_destroy_user_directory ?x _] =>
    assert (gave_back x) as [G1 G2 G3 G4 G5 G6 G7]; [|set (s1 := x) in *; clearbody s1] end.
  { destruct (Z.eqb_spec (p_base p) 0); [exact exit_pages|by apply exit_region]. }
  assert (forall t, t ∈ tables d -> rc (frames s1) t = 1 /\ held (frames s1) t) as Ht1.
  { intros t Ht. destruct (iv_tables _ _ Hinv p t (iv_in ps i p Hi) Ht) as [Hh E].
    pose proof (G6 t) as G. rewrite bool_decide_true in G by done. change (b2z true) with 1 in G.
    pose proof (refs_ge s ps i p t Hi). pose proof (iv_refs _ _ Hinv t).
    pose proof (table_refs s p t Ht). split; [lia|]. rewrite held_iff in Hh |- *.
    unfold vframe in *. rewrite G3. split; [apply Hh|lia]. }
  destruct (destroy_directory s1 d G1 G4 (exit_not_kernel s1 G2)) as [D1 D2 D3 D4 D5].
  { intros t Ht. by apply Ht1. }
  set (s' := paging_destroy_user_directory s1 (d_pml4 d)) in *. clearbody s'.
  assert (statics s s') as Hst by (rewrite D2; done).
  assert (forall t l, tab t -> idx l -> t ∉ tables d -> rd s' t l = rd s t l) as Hrd
    by (intros t l Ht Hl Hn; rewrite D2; by apply G5).
  assert (forall b, rc (frames s) b - proc_refs s p b <= rc (frames s') b <= rc (frames s) b) as Hrc.
  { intros b. rewrite D4. pose proof (G6 b) as G. pose proof (rc_bound (frames s) b (iv_wf _ _ Hinv)).
    destruct (decide (b ∈ tables d)) as [Hb|Hb].
    - pose proof (table_refs s p b Hb). destruct (iv_tables _ _ Hinv p b (iv_in ps i p Hi) Hb) as [_ E].
      lia.
    - rewrite bool_decide_false in G by done. change (b2z false) with 0 in G. lia. }
  split.
  - apply (leave_inv s s' ps Hinv i p Hi); try done; [congruence|auto].
  - intros j x Hj. destruct (delete_lookup _ _ _ _ Hj) as (k & Hk & Hne & _).
    destruct (leave_keeps s s' ps Hinv i p Hi Hrd k x Hk Hne) as [_ Hp].
    apply view_intro; [intros q _; by rewrite Hp|].
    intros q l Hq Hl Hb. rewrite Hp. apply Hrd; [by apply (mapped_tab s ps Hinv k x)|done|].
    by apply (mapped_not_table s ps Hinv k i x p).
Qed.

End exit.

(** * Creation *)

Section grow.
Context (s s' : paging) (ps : list proc) (Hinv : inv s ps).
Context (Hwf' : wf (frames s')) (Hst : statics s s')
  (Htot : total_frames (frames s') = total_frames (frames s))
  (Hres : forall b, reserved (frames s) b -> reserved (frames s') b).
Context (Hrc : forall b, 0 < rc (frames s) b -> rc (frames s') b = rc (frames s) b).
Context (Hrd : forall t l, tab t -> idx l -> 0 < rc (frames s) t -> rd s' t l = rd s t l).

Lemma grow_keeps x : x ∈ ps -> dir_ok s' (p_dir x) /\ forall q, pte s' (p_dir x) q = pte s (p_dir x) q.
Proof.
  intros Hx. pose proof (iv_dir _ _ Hinv x Hx) as Hd. apply keep_dir; [done|].
  intros t l Ht Hl. pose proof (dk_tab _ _ Hd) as HT. rewrite Forall_forall in HT.
  apply Hrd; [by apply HT|done|]. destruct (iv_tables _ _ Hinv x t Hx Ht). lia.
Qed.

Lemma grow_refs b : refs s' ps b = refs s ps b.
Proof. apply refs_ext. intros x Hx. apply proc_refs_ext. intros q _. by apply grow_keeps. Qed.

Lemma grow_rc b : rc (frames s) b <= rc (frames s') b.
Proof.
  pose proof (rc_bound (frames s) b (iv_wf _ _ Hinv)). pose proof (rc_bound (frames s') b Hwf').
  destruct (decide (0 < rc (frames s) b)); [rewrite Hrc by done|]; lia.
Qed.

Lemma grow_inv : inv s' ps.
Proof.
  split.
  - done.
  - by apply (kernel_ok_keep s); [apply Hinv|..].
  - intros x Hx. by apply grow_keeps.
  - intros b. rewrite grow_refs. pose proof (iv_refs _ _ Hinv b). pose proof (grow_rc b). lia.
  - intros x t Hx Ht. destruct (iv_tables _ _ Hinv x t Hx Ht) as [Hh E].
    rewrite held_iff in Hh |- *. rewrite Hrc by lia. unfold vframe in *. rewrite Htot. done.
  - intros x q Hx Hq. rewrite (proj2 (grow_keeps x Hx)). intros Hb. unfold vframe. rewrite Htot.
    by apply (iv_frames _ _ Hinv x q).
  - intros x q Hx Hq. rewrite (proj2 (grow_keeps x Hx)). by apply (iv_user _ _ Hinv x q).
  - intros x q Hx Hb Hq. unfold vframe. rewrite Htot. by apply (iv_region _ _ Hinv x q).
  - intros j k x y q q' Hj Hk Hq Hq'.
    rewrite (proj2 (grow_keeps x (iv_in ps j x Hj))), (proj2 (grow_keeps y (iv_in ps k y Hk))).
    by apply (iv_excl _ _ Hinv).
Qed.

Lemma grow_view j x : ps !! j = Some x -> same_view s s' (p_dir x).
Proof.
  intros Hj. pose proof (proj2 (grow_keeps x (iv_in ps j x Hj))) as Hp.
  apply view_intro; [intros q _; by rewrite Hp|]. intros q l Hq Hl Hb. rewrite Hp.
  pose proof (mapped_held s ps Hinv j x q Hj Hq Hb) as Hh. apply held_iff in Hh as [_ Hh].
  by apply Hrd; [apply (mapped_tab s ps Hinv j x)|..].
Qed.

End grow.

(** A loop over the pages of a region whose body puts [w] of the offset and the
    old word in the words of one page does so in the whole region and nowhere
    else. *)
Lemma region_loop_spec s base (body : Z -> paging -> paging) (w : Z -> Z -> Z) :
  base mod 4096 = 0 ->
  (forall p t, same_but_words t (body p t)) ->
  (forall p t a l, 0 <= p < 1024 -> tab a -> idx l ->
     rd (body p t) a l = if decide (base + p * 4096 = a) then w (a - base + 8 * l) (rd t a l) else rd t a l) ->
  same_but_words s (for_loop body 1024 0 s) /\
  forall t l, tab t -> idx l ->
    rd (for_loop body 1024 0 s) t l = if in_region base t then w (t - base + 8 * l) (rd s t l) else rd s t l.
Proof.
  intros Hm Hbw Hbr.
  pose (I := fun (k : Z) (u : paging) => same_but_words s u /\
    forall t l, tab t -> idx l ->
      rd u t l = if in_region base t && (t <? base + k * 4096) then w (t - base + 8 * l) (rd s t l)
                 else rd s t l).
  assert (I (0 + Z.of_nat 1024) (for_loop body 1024 0 s)) as [H1 H2].
  { apply (for_loop_ind I).
    - split; [apply sbw_refl|]. intros t l Ht Hl. unfold in_region.
      destruct (Z.leb_spec base t), (Z.ltb_spec t (base + 0 * 4096)); try lia;
        by rewrite ?andb_false_r.
    - rewrite n1024. intros j u Hj [U1 U2]. split; [by eapply sbw_trans; [exact U1|apply Hbw]|].
      intros t l Ht Hl. rewrite Hbr, U2 by done.
      pose proof (tab_mod _ Ht) as Hmt. unfold in_region. rewrite Hmt. cbn [Z.eqb]. rewrite andb_true_r.
      case_decide as E.
      + rewrite (proj2 (Z.leb_le base t)), !(proj2 (Z.ltb_lt t (base + (j + 1) * 4096))) by lia.
        rewrite (proj2 (Z.ltb_lt t (base + 4194304))) by lia.
        by rewrite (proj2 (Z.ltb_ge t (base + j * 4096))) by lia.
      + replace (t <? base + (j + 1) * 4096) with (t <? base + j * 4096); [done|].
        apply eq_true_iff_eq. rewrite !Z.ltb_lt. clear - E Hm Hmt. zlia. }
  split; [exact H1|]. intros t l Ht Hl. rewrite H2 by done. change (0 + Z.of_nat 1024) with 1024.
  unfold in_region. destruct (Z.ltb_spec t (base + 4194304)), (Z.ltb_spec t (base + 1024 * 4096));
    try lia; by rewrite ?andb_true_r, ?andb_false_r.
Qed.

(** The zeroed region. *)
Lemma zero_region_spec s base :
  base mod 4096 = 0 ->
  same_but_words s (zero_region s base) /\
  forall t l, tab t -> idx l -> rd (zero_region s base) t l = if in_region base t then 0 else rd s t l.
Proof.
  intros Hm. apply (region_loop_spec s base (fun p t => fill_table t (base + p * 4096) 0) (fun _ _ => 0) Hm).
  - intros. apply sbw_fill.
  - intros p t a l Hp Ha Hl. apply fill_table_rd; [|by apply tab_mod|done]. by rewrite Z.mod_add by lia.
Qed.

(** The word at an offset after the program is stored over [old]. *)
Definition loaded_word (bs : sarr Z) (off old : Z) : Z := if written bs off then word_at bs off else old.

Lemma fill_page_rd s page bs off t l :
  page mod 4096 = 0 -> t mod 4096 = 0 -> idx l ->
  rd (fill_page s page bs off) t l =
  if decide (page = t) then loaded_word bs (off + 8 * l) (rd s t l) else rd s t l.
Proof.
  intros Hp Ht Hl. unfold fill_page. unfold idx in Hl.
  pose (I := fun (k : Z) (u : paging) =>
    rd u t l = if decide (page = t /\ l < k) then loaded_word bs (off + 8 * l) (rd s t l) else rd s t l).
  match goal with |- rd (for_loop ?f 512 0 s) _ _ = _ => assert (I (0 + Z.of_nat 512) (for_loop f 512 0 s)) as HI end.
  { apply (for_loop_ind I).
    - unfold I. rewrite decide_False; [done|]. lia.
    - intros j u Hj HI. unfold I in *.
      destruct (decide (page = t /\ l = j)) as [[-> ->]|Hne].
      + rewrite (decide_False (P := t = t /\ j < j)) in HI by lia.
        rewrite (decide_True (P := t = t /\ j < j + 1)) by (split; [done|lia]).
        unfold loaded_word. destruct (written bs (off + 8 * j)); [|done].
        rewrite rd_wr_tab by (done || (unfold idx; lia)). by rewrite decide_True.
      + rewrite (decide_ext (page = t /\ l < j + 1) (page = t /\ l < j)) by naive_solver lia.
        rewrite <- HI. destruct (written bs (off + 8 * j)); [|done].
        rewrite rd_wr_tab by (done || (unfold idx; lia)). rewrite decide_False; [done|]. naive_solver. }
  unfold I in HI. rewrite HI. apply decide_ext. split; [tauto|]. intros ->. split; [done|lia].
Qed.

(** The region with the program in it. *)
Lemma fill_region_spec s base bs :
  base mod 4096 = 0 ->
  same_but_words s (fill_region s base bs) /\
  forall t l, tab t -> idx l ->
    rd (fill_region s base bs) t l =
    if in_region base t then loaded_word bs (t - base + 8 * l) (rd s t l) else rd s t l.
Proof.
  intros Hm. apply (region_loop_spec s base (fun p t => fill_page t (base + p * 4096) bs (p * 4096))
    (loaded_word bs) Hm).
  - intros. apply sbw_for. intros. case_match; [by apply sbw_wr|done].
  - intros p t a l Hp Ha Hl. rewrite fill_page_rd; [|by rewrite Z.mod_add by lia|by apply tab_mod|done].
    case_decide as E; [|done]. f_equal. lia.
Qed.

(** The state after a successful creation: the tables [d] and the region at
    [base] were free, are held once, and only their words changed.  [holds]
    tells the words of the region. *)
Definition holds (s : paging) (base : Z) (w : Z -> Z) : Prop :=
  forall t l, tab t -> idx l -> in_region base t = true -> rd s t l = w (t - base + 8 * l).

Record spawned (s s' : paging) (d : dirt) (base : Z) : Prop := Spawned {
  sw_wf : wf (frames s');
  sw_statics : statics s s';
  sw_total : total_frames (frames s') = total_frames (frames s);
  sw_base : base mod 4096 = 0 /\ 1048576 <= base;
  sw_free b : in_region base b = true \/ b ∈ tables d -> rc (frames s) b = 0;
  sw_frame q : upage q -> vframe (frames s) (base + q * 4096);
  sw_dir : dir_ok s' d;
  sw_held t : t ∈ tables d -> held (frames s') t;
  sw_apart t : t ∈ tables d -> in_region base t = false;
  sw_rc b : rc (frames s') b = rc (frames s) b + b2z (in_region base b) + b2z (bool_decide (b ∈ tables d));
  sw_res b : reserved (frames s) b -> reserved (frames s') b;
  sw_pte q : upage q -> pte s' d q = created_pte base q;
  sw_rd t l : tab t -> idx l -> in_region base t = false -> t ∉ tables d -> rd s' t l = rd s t l;
}.

Lemma spawn_directory s f base s2 dir :
  wf (frames s) -> kernel_ok s -> region_taken (frames s) f base ->
  paging_create_user_directory (set_frames s f) base = (s2, dir) -> dir <> 0 ->
  exists d, dir = d_pml4 d /\ spawned s (zero_region s2 base) d base /\
    holds (zero_region s2 base) base (fun _ => 0).
Proof.
  intros Hwf Hk [R1 R2 (R3 & R3' & _) R4 R5 R6] Hc Hnz.
  assert (kernel_ok (set_frames s f)) as Hk1 by (by apply (kernel_ok_keep s)).
  pose proof (create_directory (set_frames s f) base R1 Hk1) as H. rewrite Hc in H.
  destruct H as [[? _]|(d & -> & HT & HN & Hnt & Hap & Hrc & Hrd)]; [done|].
  destruct (built_dir _ d base s2 HT HN Hap Hrd) as (Hd & Hp & _ & _ & _ & Hkeep).
  destruct (zero_region_spec s2 base R3) as [Z1 Z2].
  set (s' := zero_region s2 base) in *. clearbody s'. rewrite Forall_forall in HT.
  destruct Hnt as [N1 N2 N3 N4 N5 N6]. cbn [frames set_frames] in *.
  assert (frames s' = frames s2) as Ef by (by rewrite Z1).
  assert (forall t, t ∈ tables d -> in_region base t = false) as Hout.
  { intros t Ht. destruct (N4 t Ht) as [H0 _]. rewrite R5 in H0. by destruct (in_region base t). }
  destruct (keep_dir s2 s' d Hd) as [Hd' Hp'].
  { intros t l Ht Hl. rewrite Z2 by (done || by apply HT). by rewrite Hout. }
  exists d. split; [done|]. split; [|intros t l Ht Hl Hr; by rewrite Z2, Hr by done].
  split; rewrite ?Ef; try done.
  - rewrite Z1, N2. done.
  - by rewrite N3, R2.
  - intros b [Hb|Hb].
    + destruct (in_region_inv _ _ R3 Hb) as (q & Hq & ->). by apply R4.
    + destruct (N4 b Hb) as [H0 _]. by rewrite R5, Hout in H0.
  - intros q Hq. by apply R4.
  - intros b. rewrite Hrc, R5. destruct (decide (b ∈ tables d)) as [Hb|Hb].
    + destruct (N4 b Hb) as [H0 _]. rewrite R5 in H0. rewrite Hout in * by done.
      rewrite bool_decide_true by done. rewrite H0. done.
    + rewrite bool_decide_false by done. change (b2z false) with 0.
      destruct (in_region base b) eqn:Er; [|change (b2z false) with 0; lia].
      destruct (in_region_inv _ _ R3 Er) as (q & Hq & ->). destruct (R4 q Hq) as (_ & -> & _). done.
  - auto.
  - intros q Hq. rewrite Hp'. by apply Hp.
  - intros t l Ht Hl Hr Hn. rewrite Z2 by done. rewrite Hr. by apply Hkeep.
Qed.

Section spawn.
Context (s s' : paging) (ps : list proc) (Hinv : inv s ps).
Context (d : dirt) (base : Z) (Hs : spawned s s' d base).
Local Notation c := (Proc d base).

Lemma spawn_keeps_rc b : 0 < rc (frames s) b -> rc (frames s') b = rc (frames s) b.
Proof.
  intros Hb. rewrite (sw_rc _ _ _ _ Hs). pose proof (sw_free _ _ _ _ Hs b) as H0.
  destruct (in_region base b) eqn:E1; [rewrite H0 in Hb by tauto; lia|].
  destruct (decide (b ∈ tables d)) as [E2|E2]; [rewrite H0 in Hb by tauto; lia|].
  rewrite bool_decide_false by done. change (b2z false) with 0. lia.
Qed.

Lemma spawn_keeps_words t l : tab t -> idx l -> 0 < rc (frames s) t -> rd s' t l = rd s t l.
Proof.
  intros Ht Hl Hb. pose proof (sw_free _ _ _ _ Hs t) as H0.
  apply (sw_rd _ _ _ _ Hs); [done|done|..].
  - apply not_true_is_false. intros E. rewrite H0 in Hb by tauto. lia.
  - intros E. rewrite H0 in Hb by tauto. lia.
Qed.

Lemma spawn_old : inv s' ps /\ forall j x, ps !! j = Some x -> same_view s s' (p_dir x).
Proof.
  split.
  - apply (grow_inv s s' ps Hinv); [apply Hs..| |apply spawn_keeps_rc|apply spawn_keeps_words].
    apply (sw_res _ _ _ _ Hs).
  - intros j x Hj. by apply (grow_view s s' ps Hinv spawn_keeps_words j).
Qed.

Lemma spawn_tab q : upage q -> tab (base + q * 4096).
Proof. intros Hq. apply (vframe_tab (frames s)); [apply Hinv|]. by apply Hs. Qed.

(** The entries of the new process. *)
Lemma spawn_present q : upage q -> bit (pte s' d q) PG_PRESENT = true ->
  q <> 1022 /\ pte s' d q = user_entry (base + q * 4096) /\
  paddr (pte s' d q) = base + q * 4096.
Proof.
  intros Hq. rewrite (sw_pte _ _ _ _ Hs) by done. unfold created_pte. case_decide; [done|].
  intros _. split_and!; [done|done|]. unfold paddr. by rewrite user_entry_addr by by apply spawn_tab.
Qed.

Lemma spawn_page_refs b q : upage q ->
  b2z (maps s' d b q) + b2z (region_extra s' c b q) = b2z (b =? base + q * 4096).
Proof.
  intros Hq. pose proof (spawn_tab q Hq) as Ht. destruct (sw_base _ _ _ _ Hs) as [_ Hb0].
  unfold maps, region_extra. cbn [p_dir p_base].
  rewrite (sw_pte _ _ _ _ Hs) by done. unfold created_pte. rewrite (proj2 (Z.eqb_neq base 0)) by lia.
  cbn [negb andb]. case_decide as E.
  - subst q. change (bit 0 PG_PRESENT) with false. cbn [andb].
    rewrite (proj2 (Z.eqb_neq 0 (user_entry _))).
    + cbn [negb]. rewrite andb_true_r. done.
    + intros E. assert (bit (user_entry (base + 1022 * 4096)) PG_PRESENT = true) as Hb.
      { by rewrite bit7 by (done || (unfold PG_PRESENT; lia)). }
      by rewrite <- E in Hb.
  - rewrite bit7 by (done || (unfold PG_PRESENT; lia)). change (bit 7 PG_PRESENT) with true. cbn [andb].
    unfold paddr. rewrite user_entry_addr by done. rewrite Z.eqb_refl. cbn [negb].
    rewrite andb_false_r. change (b2z false) with 0. rewrite Z.add_0_r. f_equal. apply Z.eqb_sym.
Qed.

Lemma spawn_refs b :
  proc_refs s' c b <= b2z (in_region base b) + b2z (bool_decide (b ∈ tables d)).
Proof.
  unfold proc_refs. cbn [p_dir]. destruct (sw_base _ _ _ _ Hs) as [Hm _].
  pose proof (countb_bound (maps s' d b) 1024). pose proof (countb_bound (region_extra s' c b) 1024).
  assert (countb (maps s' d b) 1024 + countb (region_extra s' c b) 1024 <= b2z (in_region base b)); [|lia].
  rewrite <- (countb_sum (maps s' d b) (region_extra s' c b) (fun q => b =? base + q * 4096)).
  2: { rewrite n1024. intros q Hq. by apply spawn_page_refs. }
  destruct (in_region base b) eqn:E.
  - destruct (in_region_inv _ _ Hm E) as (q & Hq & ->). rewrite (countb_single _ 1024 q).
    + done.
    + by rewrite n1024.
    + intros j _. rewrite Z.eqb_eq. lia.
  - rewrite countb_none; [done|]. rewrite n1024. intros q Hq. apply Z.eqb_neq. intros ->.
    by rewrite in_region_page in E.
Qed.

Lemma spawn_joins : joins s' ps c.
Proof.
  pose proof (sw_free _ _ _ _ Hs) as H0.
  split; cbn [p_dir p_base].
  - apply Hs.
  - intros b. rewrite (grow_refs s s' ps Hinv spawn_keeps_words), (sw_rc _ _ _ _ Hs).
    pose proof (iv_refs _ _ Hinv b). pose proof (spawn_refs b). lia.
  - intros t Ht. split; [by apply Hs|]. rewrite (sw_rc _ _ _ _ Hs), H0 by tauto.
    rewrite (sw_apart _ _ _ _ Hs), bool_decide_true by done. done.
  - intros q Hq Hb. destruct (spawn_present q Hq Hb) as (_ & E & ->). split.
    + unfold vframe. rewrite (sw_total _ _ _ _ Hs). by apply Hs.
    + rewrite E, bit7 by (by apply spawn_tab || (unfold PG_USER; lia)). done.
  - intros q _ Hq. unfold vframe. rewrite (sw_total _ _ _ _ Hs). by apply Hs.
  - intros q q' Hq Hq' Hb _ Hb' E. destruct (spawn_present q Hq Hb) as (_ & _ & E1).
    destruct (spawn_present q' Hq' Hb') as (_ & _ & E2). lia.
  - intros j x q q' Hj Hq Hq' B1 B2 E. exfalso.
    destruct (spawn_present q' Hq' B2) as (_ & _ & E2). rewrite E2 in E.
    rewrite (proj2 (grow_keeps s s' ps Hinv spawn_keeps_words x (iv_in ps j x Hj))) in B1, E.
    pose proof (mapped_held s ps Hinv j x q Hj Hq B1) as Hh. apply held_iff in Hh as [_ Hh].
    rewrite E, H0 in Hh; [lia|]. left. apply in_region_page; [apply Hs|done].
Qed.

Lemma spawn_inv : inv s' (ps ++ [c]).
Proof. apply inv_extend; [apply spawn_old|apply spawn_joins]. Qed.

(** The new process reads the words of the region, and faults on the guard page. *)
Lemma spawn_view w va : holds s' base w -> in_user_range va = true -> va mod 8 = 0 ->
  user_read s' d va = if decide (page_no va = 1022) then None else Some (w (va - PAGING_USER_BASE)).
Proof.
  intros Hw Hr Hal. unfold user_read. rewrite Hr, Hal. cbn [Z.eqb andb].
  destruct (in_range_page _ Hr) as [Hq _]. rewrite (sw_pte _ _ _ _ Hs) by done. unfold created_pte.
  case_decide; [done|]. pose proof (spawn_tab _ Hq) as Ht.
  rewrite !bit7 by (done || (unfold PG_PRESENT, PG_USER; lia)).
  change (bit 7 PG_PRESENT && bit 7 PG_USER) with true. cbv iota. f_equal.
  unfold paddr. rewrite user_entry_addr by done. apply in_range_iff in Hr.
  rewrite (Hw _ _ Ht (write_word_idx va ltac:(lia))).
  2: { apply in_region_page; [apply Hs|done]. }
  f_equal. unfold page_no, PAGING_USER_BASE in *. clear - Hr Hal. zlia.
Qed.

End spawn.

(** A step that gave back every frame it took: the counts and the words of the
    frames in use are those of before. *)
Record undone (s s' : paging) : Prop := Undone {
  ud_wf : wf (frames s');
  ud_statics : statics s s';
  ud_total : total_frames (frames s') = total_frames (frames s);
  ud_res b : reserved (frames s) b -> reserved (frames s') b;
  ud_rc b : rc (frames s') b = rc (frames s) b;
  ud_rd t l : tab t -> idx l -> 0 < rc (frames s) t -> rd s' t l = rd s t l;
}.

(** The processes read what they read before. *)
Lemma undone_inv s s' ps : inv s ps -> undone s s' ->
  inv s' ps /\ forall j x, ps !! j = Some x -> same_view s s' (p_dir x).
Proof.
  intros Hinv [U1 U2 U3 U4 U5 U6]. split.
  - by apply (grow_inv s s' ps Hinv).
  - intros j x. by apply (grow_view s s' ps Hinv).
Qed.

(** The frames of a region that is held once go back to the allocator. *)
Lemma undo_region s f s2 base :
  region_taken (frames s) f base -> wf (frames s2) -> statics s s2 ->
  total_frames (frames s2) = total_frames f -> (forall b, rc (frames s2) b = rc f b) ->
  (forall b, reserved f b -> reserved (frames s2) b) ->
  (forall t l, tab t -> idx l -> 0 < rc (frames s) t -> rd s2 t l = rd s t l) ->
  undone s (set_frames s2 (physmem_free_region (frames s2) base PAGING_USER_SIZE)).
Proof.
  intros Hr U1 U2 U3 U4 U5 U6. pose proof (rt_base _ _ _ Hr) as (Hm & Hlo & _).
  destruct (free_region_rc (frames s2) base U1 Hm ltac:(lia)) as [F1 F2 F3 F4].
  { intros q Hq. rewrite held_iff. destruct (rt_frames _ _ _ Hr q Hq) as (Hv & _).
    unfold vframe in *. rewrite U3, (rt_total _ _ _ Hr), U4, (rt_rc _ _ _ Hr).
    rewrite in_region_page by done. split; [done|lia]. }
  set (g := physmem_free_region (frames s2) base PAGING_USER_SIZE) in *. clearbody g.
  split; cbn [frames set_frames]; try done.
  - by rewrite F2, U3, (rt_total _ _ _ Hr).
  - intros x Hx. by apply F4, U5, (rt_res _ _ _ Hr).
  - intros x. rewrite F3, U4, (rt_rc _ _ _ Hr). destruct (in_region base x) eqn:Ex; [|change (b2z false) with 0; lia].
    destruct (in_region_inv _ _ Hm Ex) as (q & Hq & ->).
    destruct (rt_frames _ _ _ Hr q Hq) as (_ & -> & _). done.
Qed.

Lemma spawn_spec s ps s' dir base :
  inv s ps -> spawn_address_space s = (s', dir, base) ->
  (dir = 0 /\ base = 0 /\ undone s s') \/
  exists d, dir = d_pml4 d /\ dir <> 0 /\ spawned s s' d base /\ holds s' base (fun _ => 0).
Proof.
  intros Hinv. unfold spawn_address_space.
  destruct (physmem_alloc_region _ _ _) as [f b] eqn:Ea.
  destruct (alloc_region_rc _ _ _ (iv_wf _ _ Hinv) Ea) as [[-> ->]|Hr].
  { rewrite Z.eqb_refl. intros [= <- <- <-]. left. split_and!; [done..|].
    pose proof (iv_wf _ _ Hinv). by destruct s. }
  pose proof (rt_base _ _ _ Hr) as (Hm & Hlo & _). rewrite (proj2 (Z.eqb_neq b 0)) by lia.
  destruct (paging_create_user_directory _ b) as [s2 dr] eqn:Ec.
  destruct (Z.eqb_spec dr 0) as [->|Hnz].
  - intros E. apply pair_equal_spec in E as [[<- <-]%pair_equal_spec <-]. left.
    assert (kernel_ok (set_frames s f)) as Hk
      by (apply (kernel_ok_keep s); [apply Hinv|done|apply Hr]).
    pose proof (create_directory (set_frames s f) b (rt_wf _ _ _ Hr) Hk) as H. rewrite Ec in H.
    destruct H as [[_ [U1 U2 U3 U4 U5]]|(d & E & HT & _)].
    2: { exfalso. unfold tables in HT. rewrite Forall_cons in HT. unfold tab in HT. lia. }
    cbn [frames set_frames] in *. split_and!; [done..|].
    apply (undo_region s f s2 b Hr); try done.
    + by rewrite U2.
    + intros t l _ _ _. by rewrite U2.
  - intros E. apply pair_equal_spec in E as [[<- <-]%pair_equal_spec <-]. right.
    destruct (spawn_directory s f b s2 dr (iv_wf _ _ Hinv) (iv_kernel _ _ Hinv) Hr Ec Hnz) as (d & -> & Hs & Hw).
    exists d. split_and!; [done|done|exact Hs|exact Hw].
Qed.

(** Loading the program changes only the region of the new process. *)
Lemma spawned_fill s s' d base bs :
  spawned s s' d base -> holds s' base (fun _ => 0) ->
  spawned s (fill_region s' base bs) d base /\
  holds (fill_region s' base bs) base (fun off => loaded_word bs off 0).
Proof.
  intros Hs Hz. destruct (fill_region_spec s' base bs (proj1 (sw_base _ _ _ _ Hs))) as [F1 F2].
  set (s2 := fill_region s' base bs) in *. clearbody s2.
  assert (frames s2 = frames s') as Ef by (by rewrite F1).
  pose proof (dk_tab _ _ (sw_dir _ _ _ _ Hs)) as HT. rewrite Forall_forall in HT.
  destruct (keep_dir s' s2 d (sw_dir _ _ _ _ Hs)) as [Hd Hp].
  { intros t l Ht Hl. rewrite F2 by (done || by apply HT). by rewrite (sw_apart _ _ _ _ Hs t Ht). }
  split; [|intros t l Ht Hl Hr; by rewrite F2, Hr, Hz by done].
  split; rewrite ?Ef; try apply Hs; try done.
  - pose proof (sw_statics _ _ _ _ Hs) as Hst. rewrite F1. exact Hst.
  - intros q Hq. rewrite Hp. by apply Hs.
  - intros t l Ht Hl Hr Hn. rewrite F2, Hr by done. by apply Hs.
Qed.

(** The error paths give back the tables and the region, in either order. *)
Section give_back.
Context (s s' : paging) (ps : list proc) (Hinv : inv s ps).
Context (d : dirt) (base : Z) (Hs : spawned s s' d base).

Lemma spawned_not_kernel s1 : statics s s1 -> d_pml4 d <> kernel_pml4 s1.
Proof.
  intros (_ & _ & -> & _) Ek. destruct (iv_kernel _ _ Hinv) as (Hr & _). symmetry in Ek.
  pose proof (sw_held _ _ _ _ Hs (d_pml4 d) (list_elem_of_here _ _)) as Hh. apply held_iff in Hh as [_ Hh].
  by apply (reserved_ne (frames s') (d_pml4 d) (kernel_pml4 s)); [apply (sw_res _ _ _ _ Hs)|..].
Qed.

(** The counts without the tables are those with the region, and conversely. *)
Lemma spawned_without_tables b :
  (if decide (b ∈ tables d) then 0 else rc (frames s') b) = rc (frames s) b + b2z (in_region base b).
Proof.
  rewrite (sw_rc _ _ _ _ Hs). destruct (decide (b ∈ tables d)) as [Hb|Hb].
  - rewrite (sw_apart _ _ _ _ Hs b Hb), (sw_free _ _ _ _ Hs b) by tauto. done.
  - rewrite bool_decide_false by done. change (b2z false) with 0. lia.
Qed.

Lemma spawned_region_held f :
  total_frames f = total_frames (frames s) ->
  (forall b, in_region base b = true -> 0 < rc f b) -> forall q, upage q -> held f (base + q * 4096).
Proof.
  intros Ht Hrc q Hq. rewrite held_iff. unfold vframe. rewrite Ht. split; [by apply (sw_frame _ _ _ _ Hs)|].
  apply Hrc, in_region_page; [apply Hs|done].
Qed.

Lemma spawned_base : base mod 4096 = 0 /\ 0 <= base.
Proof. destruct (sw_base _ _ _ _ Hs). split; [done|lia]. Qed.

Lemma discard_spec : undone s (discard_address_space s' (d_pml4 d) base).
Proof.
  pose proof (sw_statics _ _ _ _ Hs) as Hst. destruct spawned_base as [Hm Hb0].
  destruct (destroy_directory s' d (sw_wf _ _ _ _ Hs) (sw_dir _ _ _ _ Hs) (spawned_not_kernel s' Hst))
    as [D1 D2 D3 D4 D5]; [apply Hs|].
  unfold discard_address_space. cbv zeta.
  set (s2 := paging_destroy_user_directory s' (d_pml4 d)) in *. clearbody s2.
  assert (total_frames (frames s2) = total_frames (frames s)) as Ht by (by rewrite D3, (sw_total _ _ _ _ Hs)).
  assert (forall b, rc (frames s2) b = rc (frames s) b + b2z (in_region base b)) as Hrc
    by (intros b; rewrite D4; apply spawned_without_tables).
  destruct (free_region_rc (frames s2) base D1 Hm Hb0) as [F1 F2 F3 F4].
  { apply spawned_region_held; [done|]. intros b Hb. rewrite Hrc, Hb.
    pose proof (rc_bound (frames s) b (iv_wf _ _ Hinv)). change (b2z true) with 1. lia. }
  set (g := physmem_free_region (frames s2) base PAGING_USER_SIZE) in *. clearbody g.
  split; cbn [frames set_frames]; try done.
  - rewrite D2. exact Hst.
  - by rewrite F2.
  - intros b Hb. by apply F4, D5, (sw_res _ _ _ _ Hs).
  - intros b. rewrite F3, Hrc. lia.
  - intros t l Ht' Hl Hp. rewrite D2. by apply (spawn_keeps_words s s' d base Hs).
Qed.

Lemma release_spec :
  undone s (release_address_space s' (d_pml4 d) base true) /\
  dir_ok (release_address_space s' (d_pml4 d) base true) d.
Proof.
  pose proof (sw_statics _ _ _ _ Hs) as Hst. destruct spawned_base as [Hm Hb0].
  unfold release_address_space. rewrite (pml4_nonzero s' d (sw_dir _ _ _ _ Hs)).
  destruct (sw_base _ _ _ _ Hs) as [_ Hlo]. rewrite (proj2 (Z.eqb_neq base 0)) by lia. cbn [negb]. cbv zeta.
  destruct (free_region_rc (frames s') base (sw_wf _ _ _ _ Hs) Hm Hb0) as [F1 F2 F3 F4].
  { apply spawned_region_held; [apply (sw_total _ _ _ _ Hs)|]. intros b Hb. rewrite (sw_rc _ _ _ _ Hs), Hb.
    pose proof (rc_bound (frames s) b (iv_wf _ _ Hinv)). pose proof (b2z_bound (bool_decide (b ∈ tables d))).
    change (b2z true) with 1. lia. }
  set (g := physmem_free_region (frames s') base PAGING_USER_SIZE) in *. clearbody g.
  assert (dir_ok (set_frames s' g) d) as Hd by (apply (keep_dir s'); [apply Hs|done]).
  destruct (destroy_directory (set_frames s' g) d F1 Hd (spawned_not_kernel (set_frames s' g) Hst))
    as [D1 D2 D3 D4 D5].
  { intros t Ht. pose proof (sw_held _ _ _ _ Hs t Ht) as Hh. rewrite held_iff in Hh |- *.
    cbn [frames set_frames]. unfold vframe in *. rewrite F2, F3, (sw_apart _ _ _ _ Hs t Ht).
    change (b2z false) with 0. rewrite Z.sub_0_r. exact Hh. }
  set (s2 := paging_destroy_user_directory (set_frames s' g) (d_pml4 d)) in *. clearbody s2.
  cbn [frames set_frames] in *. split; [split|].
  - done.
  - rewrite D2. exact Hst.
  - by rewrite D3, F2, (sw_total _ _ _ _ Hs).
  - intros b Hb. by apply D5, F4, (sw_res _ _ _ _ Hs).
  - intros b. rewrite D4, F3. pose proof (spawned_without_tables b) as E.
    destruct (decide (b ∈ tables d)) as [Hb|Hb]; [rewrite (sw_apart _ _ _ _ Hs b Hb) in E|]; [|lia].
    change (b2z false) with 0 in E. lia.
  - intros t l Ht' Hl Hp. rewrite D2. by apply (spawn_keeps_words s s' d base Hs).
  - apply (keep_dir (set_frames s' g)); [exact Hd|]. intros. by rewrite D2.
Qed.

(** Giving back once more what is already free changes nothing. *)
Lemma discard_again s1 : undone s s1 -> dir_ok s1 d -> undone s (discard_address_space s1 (d_pml4 d) base).
Proof.
  intros [U1 U2 U3 U4 U5 U6] Hd. destruct spawned_base as [Hm Hb0].
  unfold discard_address_space. cbv zeta.
  rewrite (destroy_directory_eq s1 d Hd (spawned_not_kernel s1 U2)).
  assert (forall a, a ∈ [d_pt0 d; d_pt1 d; d_pd d; d_pdpt d; d_pml4 d] -> a ∈ tables d) as Hin
    by (intros a; unfold tables; set_solver).
  destruct (free_nonzero_again [d_pt0 d; d_pt1 d; d_pd d; d_pdpt d; d_pml4 d] s1 U1) as (F1 & F2 & F3 & F4 & F5).
  { intros a Ha%Hin. pose proof (held_vframe _ _ (sw_held _ _ _ _ Hs a Ha)) as Hv. unfold vframe in *.
    rewrite U3, <- (sw_total _ _ _ _ Hs), U5. split; [done|]. apply (sw_free _ _ _ _ Hs). by right. }
  set (s2 := free_nonzero s1 _) in *. clearbody s2.
  rewrite (free_region_again (frames s2) base F1 Hm Hb0).
  2: { intros q Hq. unfold vframe. rewrite F3, U3, F4, U5. split; [by apply (sw_frame _ _ _ _ Hs)|].
       apply (sw_free _ _ _ _ Hs). left. apply in_region_page; done. }
  replace (set_frames s2 (frames s2)) with s2 by (by destruct s2).
  split; [done|by rewrite F2|by rewrite F3| |intros b; by rewrite F4|intros t l Ht Hl Hp; rewrite F2; by apply U6].
  intros b Hb. apply F5; [|by apply U4]. intros Hn%Hin.
  destruct (sw_res _ _ _ _ Hs b Hb) as (_ & _ & H0).
  pose proof (sw_held _ _ _ _ Hs b Hn) as Hh. apply held_iff in Hh as [_ Hh]. lia.
Qed.

End give_back.

(** A process made from an executable: it is refused with everything given
    back, or holds the words of its program. *)
Lemma spawn_elf_spec s ps image task s' dir base :
  inv s ps -> spawn_elf s image task = Some (s', dir, base) ->
  (dir = 0 /\ undone s s') \/
  exists d bs heap hsize, dir = d_pml4 d /\ dir <> 0 /\ spawned s s' d base /\
    load_image image (Z.of_nat (length image)) = Some (Some (bs, heap, hsize)) /\
    holds s' base (fun off => loaded_word bs off 0).
Proof.
  intros Hinv. unfold spawn_elf. cbv zeta.
  assert (undone s s) as Hsame by (by pose proof (iv_wf _ _ Hinv)).
  destruct (elf_parse_image _ _) as [[info|]|]; cbn [mbind option_bind]; [|by intros [= <- <- <-]; left|done].
  destruct (spawn_address_space s) as [[s1 dr] b] eqn:E.
  destruct (spawn_spec s ps s1 dr b Hinv E) as [(-> & -> & H1)|(d & -> & Hnz & Hs & Hz)].
  { rewrite Z.eqb_refl. intros [= <- <- <-]. by left. }
  rewrite (proj2 (Z.eqb_neq _ _) Hnz).
  destruct (load_image _ _) as [[[[bs heap] hs]|]|] eqn:El; cbn [mbind option_bind]; [| |done].
  - destruct (spawned_fill s s1 d b bs Hs Hz) as [Hs2 Hw].
    set (s2 := fill_region s1 b bs) in *. clearbody s2.
    destruct task; intros Eq; apply Some_inj in Eq; apply pair_equal_spec in Eq as [[<- <-]%pair_equal_spec <-].
    + right. exists d, bs, heap, hs. split_and!; done.
    + left. split; [done|]. by apply (discard_spec s s2 ps).
    + left. split; [done|]. destruct (release_spec s s2 ps Hinv d b Hs2) as [Hu Hd].
      by apply (discard_again s s2 ps Hinv d b Hs2).
  - intros Eq; apply Some_inj in Eq; apply pair_equal_spec in Eq as [[<- <-]%pair_equal_spec <-].
    left. split; [done|]. by apply (discard_spec s s1 ps).
Qed.

(** The words of the region, by the bytes of the program. *)
Lemma loaded_word_bytes bs m va :
  sdef bs = 0 -> (forall a, sget bs (a - PAGING_USER_BASE) = m a) ->
  loaded_word bs (va - PAGING_USER_BASE) 0 = le_value ((fun i => m (va + i)) <$> seqZ 0 8).
Proof.
  intros Hd Hm. set (off := va - PAGING_USER_BASE).
  assert (forall i, sget bs (off + i) = m (va + i)) as Hb
    by (intros i; rewrite <- Hm; f_equal; unfold off; lia).
  unfold loaded_word, word_at. destruct (written bs off) eqn:Ew; [f_equal; by apply list_fmap_ext|].
  assert (forall i, 0 <= i < 8 -> m (va + i) = 0) as Hz.
  { intros i Hi. rewrite <- Hb. unfold sget. destruct (scells bs !! (off + i)) eqn:Ei; [exfalso|done].
    apply not_true_iff_false in Ew. apply Ew. unfold written. apply existsb_exists. exists i.
    split; [apply list_elem_of_In, elem_of_seqZ; lia|]. apply bool_decide_eq_true. by eexists. }
  change (seqZ 0 8) with [0; 1; 2; 3; 4; 5; 6; 7]. cbn. by rewrite !Hz by lia.
Qed.

Definition made (task : task_result) : bool := match task with TaskMade => true | _ => false end.

(** When [spawn_elf] makes a process of a well-formed executable. *)
Lemma spawn_elf_verdict s image h task :
  bytes image -> Z.of_nat (length image) < 4294967296 ->
  class_of image = Some class64 -> elf64_header image = Some h -> well_formed class64 image h = true ->
  let segs := List.filter loadable (table class64 image h) in
  let heap := align16 (segments_end segs PAGING_USER_BASE) in
  let good := negb ((spawn_address_space s).1.2 =? 0) &&
    (forallb Elf.in_region segs && (heap <? PAGING_USER_STACK_GUARD_BASE)) && made task in
  exists s' dir base bs, spawn_elf s image task = Some (s', dir, base) /\ good = negb (dir =? 0) /\
    (good = true ->
     load_image image (Z.of_nat (length image)) = Some (Some (bs, heap, PAGING_USER_STACK_GUARD_BASE - heap)) /\
     forall a, sget bs (a - PAGING_USER_BASE) = memory_of image segs a 0).
Proof.
  intros Hb Hs Hc Eh Hw segs heap. destruct (class_of_size image _ Hc) as [H64 _].
  change (c_ehsize class64) with 64 in H64. unfold spawn_elf. cbv zeta.
  pose proof (load_image_spec image h Hb Hs H64 Eh Hw) as HL. cbv zeta in HL. fold segs heap in HL.
  destruct (parse_well_formed image h Hb Hs Hc Eh Hw) as (info & -> & _). cbn [mbind option_bind].
  destruct (spawn_address_space s) as [[s1 dr] b1]. cbn [fst snd].
  destruct (Z.eqb_spec dr 0) as [->|Hnz]; cbn [negb andb].
  { eexists _, _, _, (sfill 0). split; [done|]. by rewrite Z.eqb_refl. }
  destruct (forallb Elf.in_region segs && _); cbn [andb].
  - destruct HL as (bs & -> & Hmem). cbn [mbind option_bind]. destruct task; eexists _, _, _, bs; (split; [done|]).
    + by rewrite (proj2 (Z.eqb_neq _ _) Hnz).
    + by rewrite Z.eqb_refl.
    + by rewrite Z.eqb_refl.
  - rewrite HL. cbn [mbind option_bind]. eexists _, _, _, (sfill 0). split; [done|]. by rewrite Z.eqb_refl.
Qed.

(** * The system *)

(** The tables of a directory, read from memory. *)
Definition dirt_of (s : paging) (dir : Z) : dirt :=
  let pdpt := paddr (rd s dir 0) in
  let pd := paddr (rd s pdpt 0) in
  Dirt dir pdpt pd (paddr (rd s pd 8)) (paddr (rd s pd 9)).

Lemma dirt_of_dir s d : dir_ok s d -> dirt_of s (d_pml4 d) = d.
Proof.
  intros Hd. pose proof (dk_tabs _ _ Hd) as (T1 & T2 & T3 & T4 & T5). unfold dirt_of, paddr.
  rewrite (dk_pml4 _ _ Hd), user_entry_addr by done.
  rewrite (dk_pdpt _ _ Hd), user_entry_addr by done.
  rewrite (dk_pd0 _ _ Hd), (dk_pd1 _ _ Hd), !user_entry_addr by done. by destruct d.
Qed.

Record sys := Sys { mem : paging; procs : list proc }.

(** A store instruction of a process: the processor faults when the page is not
    writable, with the error code of a write to a present page from user mode,
    and the instruction is restarted when the handler has resolved the fault.
    The result tells whether the store was done. *)
Definition store (s : paging) (d : dirt) (va v : Z) : paging * bool :=
  match user_write s d va v with
  | Some s' => (s', true)
  | None =>
      if bit (pte s d (page_no va)) PG_PRESENT && bit (pte s d (page_no va)) PG_USER then
        let '(s', restart) := user_page_fault s (d_pml4 d) va 7 in
        if restart then
          match user_write s' d va v with Some s'' => (s'', true) | None => (s', false) end
        else (s', false)
      else (s, false)
  end.

Inductive event :=
  | Spawn (image : list Z) (task : task_result)
  | Fork (i : nat) (kstack_ok : bool)
  | Exit (i : nat)
  | Store (i : nat) (va v : Z).

Definition run (e : event) (σ : sys) : sys :=
  let s := mem σ in
  let ps := procs σ in
  match e with
  | Spawn image task =>
      match spawn_elf s image task with
      | Some (s', dir, base) =>
          if dir =? 0 then Sys s' ps else Sys s' (ps ++ [Proc (dirt_of s' dir) base])
      | None => σ
      end
  | Fork i kstack_ok =>
      match ps !! i with
      | Some p =>
          let '(s', child, base) := fork_address_space s (d_pml4 (p_dir p)) (p_base p) kstack_ok in
          let ps := <[i := Proc (p_dir p) base]> ps in
          if child =? 0 then Sys s' ps else Sys s' (ps ++ [Proc (dirt_of s' child) 0])
      | None => σ
      end
  | Exit i =>
      match ps !! i with
      | Some p => Sys (release_address_space s (d_pml4 (p_dir p)) (p_base p) true) (delete i ps)
      | None => σ
      end
  | Store i va v =>
      match ps !! i with
      | Some p => Sys (store s (p_dir p) va v).1 ps
      | None => σ
      end
  end.

(** A fork of [d] keeps every reference count below the maximum of a byte. *)
Definition fits (s : paging) (d : dirt) : Prop :=
  forall b, rc (frames s) b + countb (shares_page s d b) 1024 <= 255.

(** The steps of the system: the loader does not read outside the image, the
    counts of a fork fit a byte, and addresses have 64 bits. *)
Definition allowed (e : event) (σ : sys) : Prop :=
  match e with
  | Spawn image _ => load_elf image (Z.of_nat (length image)) true <> None
  | Fork i _ => forall p, procs σ !! i = Some p -> fits (mem σ) (p_dir p)
  | Store _ va _ => 0 <= va < 2 ^ 64
  | _ => True
  end.

(** The states that are reached from a boot state, which has no process. *)
Inductive reachable : sys -> Prop :=
  | reach_boot s : wf (frames s) -> kernel_ok s -> reachable (Sys s [])
  | reach_run e σ : reachable σ -> allowed e σ -> reachable (run e σ).

(** The processes of [σ] that [e] leaves, in order. *)
Definition survivors (e : event) (ps : list proc) : list proc :=
  match e with Exit i => delete i ps | _ => ps end.

(** The address a process changes by itself. *)
Definition stores_at (e : event) (j : nat) (va : Z) : Prop :=
  match e with Store i va' _ => i = j /\ va' = va | _ => False end.

(** ** The steps *)

Lemma clone_spec s ps i p s' r :
  inv s ps -> ps !! i = Some p -> fits s (p_dir p) ->
  paging_cow_clone_user_directory s (d_pml4 (p_dir p)) = (s', r) ->
  (r = 0 /\ exists k, (k <= 1024)%nat /\ clone_eff s s' (p_dir p) k []) \/
  exists d', r = d_pml4 d' /\ r <> 0 /\ clone_child s (p_dir p) s' d'.
Proof.
  intros Hinv Hi Hfit E. pose proof (iv_dir _ _ Hinv p (iv_in ps i p Hi)) as Hd.
  pose proof (clone_directory s (p_dir p) (iv_wf _ _ Hinv) Hd
    (fun t => tables_counted s ps Hinv i p t Hi)) as H.
  rewrite E in H. destruct H as [[-> H]|(d' & -> & H)].
  - intros q Hq Hc. by apply (mapped_held s ps Hinv i p q Hi Hq), (cloned_present q).
  - exact Hfit.
  - destruct (iv_kernel _ _ Hinv) as (([_ ?] & _) & _). lia.
  - left. split; [done|]. destruct H as [H|H]; [exists 0%nat|exists 512%nat]; (split; [lia|done]).
  - right. exists d'. split_and!; [done| |done].
    pose proof (dk_tabs _ _ (cc_dir _ _ _ _ H)) as (T & _). unfold tab in T. lia.
Qed.

Lemma base_same (ps : list proc) i p : ps !! i = Some p -> <[i := Proc (p_dir p) (p_base p)]> ps = ps.
Proof. intros Hi. apply list_insert_id. rewrite Hi. by destruct p. Qed.

Lemma snoc_delete (ps : list proc) c : delete (length ps) (ps ++ [c]) = ps.
Proof. rewrite delete_middle. apply app_nil_r. Qed.

Lemma same_view_trans s1 s2 s3 d : same_view s1 s2 d -> same_view s2 s3 d -> same_view s1 s3 d.
Proof. intros H1 H2 va. by rewrite H2. Qed.

(** What a fork does, in all its outcomes. *)
Lemma fork_spec s ps i p k s' child base :
  inv s ps -> ps !! i = Some p -> fits s (p_dir p) ->
  fork_address_space s (d_pml4 (p_dir p)) (p_base p) k = (s', child, base) ->
  (forall j x, ps !! j = Some x -> same_view s s' (p_dir x)) /\
  ((child = 0 /\ inv s' (<[i := Proc (p_dir p) base]> ps)) \/
   exists d', child = d_pml4 d' /\ child <> 0 /\ base = 0 /\ k = true /\ dir_ok s' d' /\
     inv s' (<[i := Proc (p_dir p) 0]> ps ++ [Proc d' 0]) /\
     forall va, in_user_range va = true -> shm_page (page_no va) = false ->
       user_read s' d' va = user_read s (p_dir p) va).
Proof.
  intros Hinv Hi Hfit. unfold fork_address_space.
  destruct (paging_cow_clone_user_directory _ _) as [s1 r] eqn:Ec.
  destruct (clone_spec s ps i p s1 r Hinv Hi Hfit Ec) as [(-> & n & Hn & He)|(d' & -> & Hnz & Hc)].
  - rewrite Z.eqb_refl. intros [= <- <- <-]. split.
    + intros j x Hj. by apply (fork_view s s1 ps Hinv i p Hi n [] He j).
    + left. split; [done|]. rewrite base_same by done. by apply (fork_inv s s1 ps Hinv i p Hi n [] He).
  - rewrite (proj2 (Z.eqb_neq _ _) Hnz).
    assert (forall j x, ps !! j = Some x -> same_view s s1 (p_dir x)) as Hv
      by (intros j x Hj; by apply (fork_view s s1 ps Hinv i p Hi 1024 _ (cc_eff _ _ _ _ Hc) j)).
    pose proof (fork_child_inv s s1 ps Hinv i p Hi d' Hc) as Hinv1.
    destruct k; cbn [negb]; intros E; apply pair_equal_spec in E as [[<- <-]%pair_equal_spec <-].
    + split; [done|]. right. exists d'. split_and!; try done.
      * apply Hc.
      * intros va. by apply (fork_child_view s s1 ps Hinv i p Hi d' Hc).
    + destruct (exit_inv s1 _ Hinv1 (length (<[i := Proc (p_dir p) 0]> ps)) (Proc d' 0)) as [H1 H2].
      { by apply list_lookup_middle. }
      rewrite snoc_delete in H1, H2. unfold release_address_space in H1, H2. cbn [p_dir p_base] in H1, H2.
      rewrite (proj2 (Z.eqb_neq _ _) Hnz) in H1, H2. change (negb (0 =? 0)) with false in H1, H2. cbv iota zeta in H1, H2.
      split; [|by left]. intros j x Hj. apply (same_view_trans _ s1); [by apply (Hv j)|].
      assert (exists y, <[i := Proc (p_dir p) 0]> ps !! j = Some y /\ p_dir y = p_dir x) as (y & Hy & <-).
      { destruct (decide (i = j)) as [<-|Hij].
        - exists (Proc (p_dir p) 0). rewrite list_lookup_insert_eq by (by apply lookup_lt_Some in Hi).
          split; [done|]. rewrite Hi in Hj. by injection Hj as <-.
        - exists x. by rewrite list_lookup_insert_ne. }
      by apply (H2 j).
Qed.

Lemma user_write_read s d va v s' :
  user_write s d va v = Some s' -> tab (paddr (pte s d (page_no va))) ->
  (forall q, pte s' d q = pte s d q) -> user_read s' d va = Some v.
Proof.
  intros Hw Ht Hp. destruct (user_write_spec _ _ _ _ _ Hw) as (Hr & Hal & Hb & Hu & _ & E).
  unfold user_read. rewrite Hp, Hr, Hb, Hu, Hal. cbn [Z.eqb andb]. f_equal. rewrite E.
  apply in_range_iff in Hr.
  rewrite rd_wr_tab; [|by apply tab_mod|by apply tab_mod|apply write_word_idx; lia..].
  by rewrite decide_True.
Qed.

Section store.
Context (s : paging) (ps : list proc) (Hinv : inv s ps).
Context (i : nat) (p : proc) (Hi : ps !! i = Some p) (va v : Z) (Hva : 0 <= va < 2 ^ 64).

Lemma write_spec t t' : inv t ps -> user_write t (p_dir p) va v = Some t' ->
  inv t' ps /\ user_read t' (p_dir p) va = Some v /\
  forall j x va', ps !! j = Some x -> (j <> i \/ va' <> va) ->
    user_read t' (p_dir x) va' = user_read t (p_dir x) va'.
Proof.
  intros Ht Hw. split_and!.
  - by apply (write_inv t ps Ht i p Hi va v t').
  - apply (user_write_read t _ va v t' Hw).
    + destruct (user_write_spec _ _ _ _ _ Hw) as (Hr & _ & Hb & _).
      apply (mapped_tab t ps Ht i p); [done|by apply in_range_page|done].
    + by apply (write_keeps t ps Ht i p Hi va v t' Hw i).
  - intros j x va'. by apply (write_view t ps Ht i p Hi va v t').
Qed.

Lemma fault_eq t : dir_ok t (p_dir p) ->
  user_page_fault t (d_pml4 (p_dir p)) va 7 =
  let '(t', r) := paging_cow_resolve t (d_pml4 (p_dir p)) va in (t', negb (r =? 0)).
Proof.
  intros Hd. unfold user_page_fault. rewrite (pml4_nonzero t (p_dir p) Hd). done.
Qed.

Lemma store_spec s' ok : store s (p_dir p) va v = (s', ok) ->
  inv s' ps /\
  (forall j x va', ps !! j = Some x -> (j <> i \/ va' <> va \/ ok = false) ->
     user_read s' (p_dir x) va' = user_read s (p_dir x) va') /\
  (ok = true -> user_read s' (p_dir p) va = Some v).
Proof.
  unfold store. destruct (user_write s (p_dir p) va v) as [t|] eqn:Hw.
  { intros [= <- <-]. destruct (write_spec s t Hinv Hw) as (H1 & H2 & H3).
    split_and!; [done| |done]. intros j x va' Hj [?|[?|?]]; [apply (H3 j)..|done]; auto. }
  destruct (_ && _); [|by intros [= <- <-]].
  rewrite fault_eq by apply (iv_dir _ _ Hinv p (iv_in ps i p Hi)).
  destruct (paging_cow_resolve s _ va) as [t r] eqn:Ef.
  destruct (fault_spec s t ps Hinv i p Hi va r Hva Ef) as (Ht & Hv & _).
  assert (forall j x va', ps !! j = Some x -> user_read t (p_dir x) va' = user_read s (p_dir x) va') as Hv'
    by (intros j x va' Hj; by apply (Hv j)).
  destruct (negb (r =? 0)); [|intros [= <- <-]; split_and!; [done| |done]; eauto].
  destruct (user_write t (p_dir p) va v) as [u|] eqn:Hw'; intros [= <- <-].
  - destruct (write_spec t u Ht Hw') as (H1 & H2 & H3). split_and!; [done| |done].
    intros j x va' Hj [?|[?|?]]; [rewrite (H3 j x va') by auto; eauto..|done].
  - split_and!; [done| |done]. eauto.
Qed.

(** A fault on a shared page is resolved when the process is its only user or
    a frame is free. *)
Lemma resolve_succeeds :
  in_user_range va = true -> bit (pte s (p_dir p) (page_no va)) PG_PRESENT = true ->
  bit (pte s (p_dir p) (page_no va)) PG_COW = true ->
  rc (frames s) (paddr (pte s (p_dir p) (page_no va))) = 1 \/ (physmem_alloc_frame (frames s)).2 <> 0 ->
  (paging_cow_resolve s (d_pml4 (p_dir p)) va).2 = 1.
Proof.
  intros Hr Hb Hc Hm. pose proof (iv_dir _ _ Hinv p (iv_in ps i p Hi)) as Hd.
  pose proof (in_range_page _ Hr) as [Hq _]. pose proof (mapped_tab s ps Hinv i p _ Hi Hq Hb) as Ta.
  unfold paging_cow_resolve. rewrite (pml4_nonzero s (p_dir p) Hd), align_down64_page by done. cbv zeta.
  destruct (align_page va Hva) as [Er Ep]. rewrite Hr in Er.
  destruct (range_guards _ Er) as [-> ->]. cbn [orb]. rewrite user_pt_for_dir by done.
  destruct (user_idx _ Er) as (_ & _ & _ & ->). rewrite Ep. set (q := page_no va) in *.
  pose proof (d_pt_tab s (p_dir p) q Hd) as Tp.
  rewrite (proj2 (Z.eqb_neq (d_pt (p_dir p) q) 0)) by (unfold tab in Tp; lia).
  change (rd s (d_pt (p_dir p) q) (q mod 512)) with (pte s (p_dir p) q).
  change (Z.land (pte s (p_dir p) q) PG_ADDR_MASK) with (paddr (pte s (p_dir p) q)).
  rewrite Hb, Hc. cbn [negb orb]. rewrite u32_small by (unfold tab in Ta; lia).
  destruct (Z.eqb_spec (rc (frames s) (paddr (pte s (p_dir p) q))) 1); [done|].
  destruct Hm as [?|Hm]; [done|]. unfold alloc.
  destruct (physmem_alloc_frame (frames s)) as [f m]. cbn [snd] in Hm.
  by rewrite (proj2 (Z.eqb_neq _ _) Hm).
Qed.

Lemma store_progress :
  in_user_range va = true -> va mod 8 = 0 -> bit (pte s (p_dir p) (page_no va)) PG_PRESENT = true ->
  bit (pte s (p_dir p) (page_no va)) PG_WRITABLE = true \/
  (bit (pte s (p_dir p) (page_no va)) PG_COW = true /\
   (rc (frames s) (paddr (pte s (p_dir p) (page_no va))) = 1 \/ (physmem_alloc_frame (frames s)).2 <> 0)) ->
  (store s (p_dir p) va v).2 = true.
Proof.
  intros Hr Hal Hb Hc. pose proof (in_range_page _ Hr) as [Hq _].
  pose proof (iv_user _ _ Hinv p _ (iv_in ps i p Hi) Hq Hb) as Hu. unfold store, user_write.
  rewrite Hr, Hal, Hb, Hu. cbn [Z.eqb andb].
  destruct (bit (pte s (p_dir p) (page_no va)) PG_WRITABLE) eqn:Hwr; [done|].
  destruct Hc as [?|[Hc Hm]]; [done|]. cbv iota.
  pose proof (resolve_succeeds Hr Hb Hc Hm) as H1.
  rewrite fault_eq by apply (iv_dir _ _ Hinv p (iv_in ps i p Hi)).
  destruct (paging_cow_resolve s _ va) as [t r] eqn:Ef. cbn [snd] in H1. rewrite H1 in *. clear H1.
  destruct (fault_spec s t ps Hinv i p Hi va 1 Hva Ef) as (Ht & Hv & Hcase).
  destruct Hcase as [[? _]|(_ & _ & Hw)]; [done|]. change (negb (1 =? 0)) with true. cbv iota.
  assert (user_read t (p_dir p) va <> None) as Hne.
  { rewrite (Hv i p Hi va). unfold user_read. by rewrite Hr, Hal, Hb, Hu. }
  unfold user_read in Hne. rewrite Hr, Hal in Hne. cbn [Z.eqb andb] in Hne.
  destruct (bit (pte t (p_dir p) (page_no va)) PG_PRESENT); [|done].
  destruct (bit (pte t (p_dir p) (page_no va)) PG_USER); [|done]. by rewrite Hw.
Qed.

End store.

(** One step from a state with the invariant: the invariant holds after it, and
    the processes that remain read what they read before. *)
Lemma survivor_step e σ :
  inv (mem σ) (procs σ) -> allowed e σ ->
  inv (mem (run e σ)) (procs (run e σ)) /\
  forall j x, survivors e (procs σ) !! j = Some x ->
    (exists y, procs (run e σ) !! j = Some y /\ p_dir y = p_dir x) /\
    forall va, ~ stores_at e j va -> user_read (mem (run e σ)) (p_dir x) va = user_read (mem σ) (p_dir x) va.
Proof.
  destruct σ as [s ps]. cbn [mem procs]. intros Hinv Ha.
  destruct e as [image ok|i k|i|i va v]; cbn [run survivors stores_at allowed mem procs] in *.
  - destruct (spawn_elf s image ok) as [[[s' dir] base]|] eqn:E.
    2: { cbn [mem procs]. split; [done|]. intros j x Hj. split; [by exists x|done]. }
    destruct (spawn_elf_spec s ps image ok s' dir base Hinv E)
      as [[-> [H1 H2]%(undone_inv s s' ps Hinv)]|(d & bs & heap & hs & -> & Hnz & Hs & _ & _)].
    + rewrite Z.eqb_refl. cbn [mem procs]. split; [done|]. intros j x Hj. split; [by exists x|].
      intros va _. by apply (H2 j).
    + rewrite (proj2 (Z.eqb_neq _ _) Hnz). cbn [mem procs].
      rewrite dirt_of_dir by apply Hs. split; [by apply (spawn_inv s)|].
      intros j x Hj. split; [exists x; split; [by apply lookup_app_l_Some|done]|].
      intros va _. by apply (proj2 (spawn_old s s' ps Hinv d base Hs) j).
  - destruct (ps !! i) as [p|] eqn:Hi.
    2: { cbn [mem procs]. split; [done|]. intros j x Hj. split; [by exists x|done]. }
    destruct (fork_address_space _ _ _ _) as [[s' child] base] eqn:E.
    destruct (fork_spec s ps i p k s' child base Hinv Hi (Ha p eq_refl) E) as [Hv Hcase].
    assert (forall b j x, ps !! j = Some x ->
      exists y, <[i := Proc (p_dir p) b]> ps !! j = Some y /\ p_dir y = p_dir x) as Hl.
    { intros b j x Hj. destruct (decide (i = j)) as [<-|Hij].
      - exists (Proc (p_dir p) b). rewrite list_lookup_insert_eq by (by apply lookup_lt_Some in Hi).
        split; [done|]. rewrite Hi in Hj. by injection Hj as <-.
      - exists x. by rewrite list_lookup_insert_ne. }
    destruct Hcase as [[-> Hinv']|(d' & -> & Hnz & -> & _ & Hd & Hinv' & _)].
    + rewrite Z.eqb_refl. cbn [mem procs]. split; [done|]. intros j x Hj. split; [by apply Hl|].
      intros va _. by apply (Hv j).
    + rewrite (proj2 (Z.eqb_neq _ _) Hnz). cbn [mem procs]. rewrite dirt_of_dir by done.
      split; [done|]. intros j x Hj. destruct (Hl 0 j x Hj) as (y & Hy & Ey). split.
      * exists y. split; [by apply lookup_app_l_Some|done].
      * intros va _. by apply (Hv j).
  - destruct (ps !! i) as [p|] eqn:Hi; cbn [mem procs].
    + destruct (exit_inv s ps Hinv i p Hi) as [H1 H2]. split; [done|]. intros j x Hj.
      split; [by exists x|]. intros va _. by apply (H2 j).
    + split; [done|]. apply lookup_ge_None in Hi.
      rewrite delete_take_drop, take_ge, drop_ge, app_nil_r by lia.
      intros j x Hj. split; [by exists x|done].
  - destruct (ps !! i) as [p|] eqn:Hi; cbn [mem procs].
    2: { split; [done|]. intros j x Hj. split; [by exists x|done]. }
    destruct (store s (p_dir p) va v) as [s' ok] eqn:E.
    destruct (store_spec s ps Hinv i p Hi va v Ha s' ok E) as (H1 & H2 & _). split; [done|].
    intros j x Hj. split; [by exists x|]. intros va' Hn. apply (H2 j); [done|].
    destruct (decide (i = j)), (decide (va = va')); tauto || (left; congruence) || (right; left; congruence).
Qed.

Lemma reachable_inv σ : reachable σ -> inv (mem σ) (procs σ).
Proof.
  induction 1 as [s Hwf Hk|e σ _ IH Ha]; cbn [mem procs].
  - split; try done; try (intros ? ? H; by apply elem_of_nil in H).
    + intros x H. by apply elem_of_nil in H.
    + intros b. change (refs s [] b) with 0. by apply rc_bound.
  - by apply survivor_step.
Qed.

(** * Theorems *)

(** C2: In every state the system reaches from boot by creating, forking and
    ending processes and by their stores, each frame's reference count covers
    the references of all page tables, the tables of each process are its own
    and form its directory, and a page some process can write is mapped nowhere
    else. *)
Theorem addr_space_invariant σ : reachable σ -> inv (mem σ) (procs σ).
Proof. apply reachable_inv. Qed.

(** C1: Isolation of the processes: whatever step the system takes, a process
    that is still alive after it keeps its directory and reads the same value
    at every user address, except at the address of its own store. *)
Theorem process_isolation e σ j x va :
  reachable σ -> allowed e σ -> survivors e (procs σ) !! j = Some x -> ~ stores_at e j va ->
  (exists y, procs (run e σ) !! j = Some y /\ p_dir y = p_dir x) /\
  user_read (mem (run e σ)) (p_dir x) va = user_read (mem σ) (p_dir x) va.
Proof.
  intros Hr Ha Hj Hn. destruct (survivor_step e σ (reachable_inv σ Hr) Ha) as [_ H].
  destruct (H j x Hj) as [H1 H2]. split; [done|by apply H2].
Qed.

(** C13: A fork either adds no process or adds one child, last, which reads at
    every user address what the parent read before the fork, the addresses of
    the shared-memory window apart. *)
Theorem fork_copies_memory σ i p :
  reachable σ -> procs σ !! i = Some p -> fits (mem σ) (p_dir p) ->
  forall kstack_ok, let σ' := run (Fork i kstack_ok) σ in
  length (procs σ') = length (procs σ) \/
  exists c, last (procs σ') = Some c /\ length (procs σ') = S (length (procs σ)) /\
    forall va, in_user_range va = true -> shm_page (page_no va) = false ->
      user_read (mem σ') (p_dir c) va = user_read (mem σ) (p_dir p) va.
Proof.
  intros Hr Hi Hfit k. apply reachable_inv in Hr. destruct σ as [s ps]. cbn [run mem procs] in *.
  rewrite Hi. destruct (fork_address_space _ _ _ _) as [[s' child] base] eqn:E.
  destruct (fork_spec s ps i p k s' child base Hr Hi Hfit E) as [_ Hcase].
  destruct Hcase as [[-> _]|(d' & -> & Hnz & -> & _ & Hd & _ & Hv)].
  - left. rewrite Z.eqb_refl. cbn [procs]. by rewrite length_insert.
  - right. rewrite (proj2 (Z.eqb_neq _ _) Hnz). cbn [mem procs]. rewrite dirt_of_dir by done.
    exists (Proc d' 0). split_and!; [by rewrite last_snoc| |done].
    rewrite length_app, length_insert. simpl. lia.
Qed.

(** C15: What a new process starts with.  A well-formed 64-bit executable
    becomes a process exactly when a region and a directory can be allocated,
    its segments lie in the user region and end, rounded up to 16, below the
    stack guard, and [task_spawn_user] makes the task.  The process then reads at
    every aligned user address the word whose bytes are those of the last
    segment that covers them, zero past its file size and where there is no
    segment, and faults on the stack guard page.  Otherwise no process is added
    and every frame that was taken is given back, also when the kernel stack of
    the task cannot be allocated and both [clear_task] and the loader free the
    memory of the process. *)
Theorem spawn_memory_is_image σ image h task :
  reachable σ -> bytes image -> Z.of_nat (length image) < 4294967296 ->
  class_of image = Some class64 -> elf64_header image = Some h -> well_formed class64 image h = true ->
  let segs := List.filter loadable (table class64 image h) in
  let heap := align16 (segments_end segs PAGING_USER_BASE) in
  let σ' := run (Spawn image task) σ in
  if negb ((spawn_address_space (mem σ)).1.2 =? 0) &&
     (forallb Elf.in_region segs && (heap <? PAGING_USER_STACK_GUARD_BASE)) && made task then
    exists c, procs σ' = procs σ ++ [c] /\
    forall va, in_user_range va = true -> va mod 8 = 0 ->
      user_read (mem σ') (p_dir c) va =
      if decide (page_no va = page_no PAGING_USER_STACK_GUARD_BASE) then None
      else Some (le_value ((fun i => memory_of image segs (va + i) 0) <$> seqZ 0 8))
  else procs σ' = procs σ /\ forall b, rc (frames (mem σ')) b = rc (frames (mem σ)) b.
Proof.
  intros Hr Hb Hs Hc Eh Hw segs heap. apply reachable_inv in Hr.
  destruct σ as [s ps]. cbn [run mem procs] in *.
  pose proof (spawn_elf_verdict s image h task Hb Hs Hc Eh Hw) as (s' & dir & base & bs & E & Hv & Hmem).
  cbv zeta in Hv, Hmem. fold segs heap in Hv, Hmem. rewrite E.
  destruct (spawn_elf_spec s ps image task s' dir base Hr E)
    as [[-> Hu]|(d & bs' & hp & hs & -> & Hnz & Hsd & El' & Hh)].
  - rewrite Hv. cbn [negb]. rewrite Z.eqb_refl. cbn [mem procs]. split; [done|apply Hu].
  - rewrite Hv, (proj2 (Z.eqb_neq _ _) Hnz). cbn [negb mem procs]. rewrite dirt_of_dir by apply Hsd.
    exists (Proc d base). split; [done|]. intros va Hva Hal. cbn [p_dir].
    rewrite (spawn_view s _ ps Hr d base Hsd _ va Hh Hva Hal).
    change (page_no PAGING_USER_STACK_GUARD_BASE) with 1022. case_decide; [done|]. f_equal.
    destruct (Hmem ltac:(rewrite Hv; by apply negb_true_iff, Z.eqb_neq)) as [El Hm]. rewrite El in El'.
    injection El' as <- _ _.
    apply (loaded_word_bytes bs (fun a => memory_of image segs a 0) va); [by eapply load_image_sdef|exact Hm].
Qed.

(** C14: Stores make progress: a store of a process to an aligned user word whose
    page is mapped, and either writable or copy on write, is done, if need be
    after the page fault handler has given the process its own copy, provided a
    frame is free or the page is no longer shared; the process then reads the
    stored value. *)
Theorem store_completes σ i p va v :
  reachable σ -> procs σ !! i = Some p ->
  in_user_range va = true -> va mod 8 = 0 ->
  bit (pte (mem σ) (p_dir p) (page_no va)) PG_PRESENT = true ->
  bit (pte (mem σ) (p_dir p) (page_no va)) PG_WRITABLE = true \/
  (bit (pte (mem σ) (p_dir p) (page_no va)) PG_COW = true /\
   (rc (frames (mem σ)) (paddr (pte (mem σ) (p_dir p) (page_no va))) = 1 \/
    (physmem_alloc_frame (frames (mem σ))).2 <> 0)) ->
  user_read (mem (run (Store i va v) σ)) (p_dir p) va = Some v.
Proof.
  intros Hr Hi Hu Hal Hb Hc. apply reachable_inv in Hr. destruct σ as [s ps]. cbn [run mem procs] in *.
  rewrite Hi. cbn [mem].
  assert (0 <= va < 2 ^ 64) as Hva
    by (apply in_range_iff in Hu; change (2 ^ 64) with 18446744073709551616; lia).
  pose proof (store_progress s ps Hr i p Hi va v Hva Hu Hal Hb Hc) as Hok.
  destruct (store s (p_dir p) va v) as [s' ok] eqn:E. cbn [fst snd] in *.
  destruct (store_spec s ps Hr i p Hi va v Hva s' ok E) as (_ & _ & H). by apply H.
Qed.

(** * A run *)

(** One process, then a child of it. *)
Definition demo_one : sys := run (Spawn demo_image TaskMade) (Sys demo_paging []).
Definition demo_two : sys := run (Fork 0 true) demo_one.

Lemma demo_rc b : rc demo_boot b = 0.
Proof.
  assert (frame_refcount demo_boot = sfill 0) as E by (vm_compute; reflexivity).
  unfold rc. rewrite E. by repeat case_if.
Qed.

Lemma demo_reach_boot : reachable (Sys demo_paging []).
Proof. constructor; [exact demo_boot_wf|exact demo_kernel]. Qed.

(** The executable of [Elf.v] is loaded. *)
Lemma demo_image_segments : exists h, elf64_header demo_image = Some h /\
  well_formed class64 demo_image h = true /\
  List.filter loadable (table class64 demo_image h) = [ProgramHeader 1 120 16777216 3 5].
Proof. eexists. split; [vm_compute; reflexivity|]. split; vm_compute; reflexivity. Qed.

Lemma demo_image_bytes : bytes demo_image.
Proof. by apply bytes_of_bool. Qed.

Lemma demo_image_class : class_of demo_image = Some class64.
Proof. by apply class_of_64. Qed.

Lemma demo_reach_one : reachable demo_one.
Proof.
  apply reach_run; [exact demo_reach_boot|]. cbn [allowed].
  assert (match load_elf demo_image (Z.of_nat (length demo_image)) true with None => false | _ => true end = true)
    as H by (vm_compute; reflexivity).
  by destruct (load_elf _ _ _).
Qed.

(** A process that has just been created can be forked. *)
Lemma spawn_fits s s' ps d base :
  inv s ps -> spawned s s' d base -> (forall b, rc (frames s) b <= 250) -> fits s' d.
Proof.
  intros Hinv Hs Hrc b. rewrite (sw_rc _ _ _ _ Hs).
  pose proof (spawn_refs s s' ps Hinv d base Hs b) as Hr. unfold proc_refs in Hr. cbn [p_dir] in Hr.
  pose proof (countb_bound (region_extra s' (Proc d base) b) 1024).
  assert (countb (shares_page s' d b) 1024 <= countb (maps s' d b) 1024).
  { apply countb_le. intros q _. unfold shares_page, maps, cloned. intros H'.
    apply andb_prop in H' as [[-> _]%andb_prop ->]. reflexivity. }
  pose proof (b2z_bound (in_region base b)). pose proof (b2z_bound (bool_decide (b ∈ tables d))).
  pose proof (Hrc b). lia.
Qed.

Lemma demo_spawn_succeeds : (spawn_address_space demo_paging).1.2 <> 0.
Proof.
  assert ((spawn_address_space demo_paging).1.2 = 2097152) as E by (vm_compute; reflexivity).
  rewrite E. discriminate.
Qed.

Lemma demo_one_spec :
  exists s' d base, demo_one = Sys s' [Proc d base] /\ spawned demo_paging s' d base.
Proof.
  pose proof demo_spawn_succeeds as Hd.
  pose proof (reachable_inv _ demo_reach_boot) as Hinv. cbn [mem procs] in Hinv.
  unfold demo_one, run. cbn [mem procs]. set (boot := demo_paging) in *. clearbody boot.
  destruct demo_image_segments as (h & Eh & Hw & Hsegs).
  destruct (spawn_elf_verdict boot demo_image h TaskMade demo_image_bytes ltac:(done) demo_image_class Eh Hw)
    as (s' & dir & base & bs & E & Hv & _).
  rewrite Hsegs, (proj2 (Z.eqb_neq _ _) Hd) in Hv. symmetry in Hv. apply negb_true_iff, Z.eqb_neq in Hv.
  pose proof (spawn_elf_spec boot [] demo_image TaskMade s' dir base Hinv E) as Hsp. rewrite E.
  clear E. destruct Hsp as [[? _]|(d & bs' & hp & hs & -> & Hnz & Hs & _)]; [done|].
  rewrite (proj2 (Z.eqb_neq _ _) Hnz). rewrite dirt_of_dir by apply Hs. by exists s', d, base.
Qed.

(** Its first page is mapped writable, and it can be forked. *)
Lemma demo_one_proc :
  exists p, procs demo_one = [p] /\ fits (mem demo_one) (p_dir p) /\
    bit (pte (mem demo_one) (p_dir p) 0) PG_PRESENT = true /\
    bit (pte (mem demo_one) (p_dir p) 0) PG_WRITABLE = true.
Proof.
  destruct demo_one_spec as (s' & d & base & -> & Hs). cbn [mem procs].
  pose proof (reachable_inv _ demo_reach_boot) as Hinv. cbn [mem procs] in Hinv.
  exists (Proc d base). cbn [p_dir]. split; [done|]. split.
  - apply (spawn_fits demo_paging s' [] d base Hinv Hs).
    intros b. cbn [frames demo_paging]. rewrite demo_rc. lia.
  - assert (upage 0) as H0 by (unfold upage; lia).
    rewrite (sw_pte _ _ _ _ Hs) by done. unfold created_pte. rewrite decide_False by lia.
    rewrite !bit7 by (by apply (spawn_tab demo_paging s' [] Hinv d base Hs) ||
                      (unfold PG_PRESENT, PG_WRITABLE; lia)). done.
Qed.

Lemma demo_fits p : procs demo_one !! 0%nat = Some p -> fits (mem demo_one) (p_dir p).
Proof. destruct demo_one_proc as (q & -> & H & _). by intros [= <-]. Qed.

Lemma demo_reach_two : reachable demo_two.
Proof. apply reach_run; [exact demo_reach_one|]. cbn [allowed]. exact demo_fits. Qed.

Lemma addr_space_invariant_witness : inv (mem demo_two) (procs demo_two).
Proof. apply (addr_space_invariant demo_two). exact demo_reach_two. Defined.

(** A fork does not change what the parent reads. *)
Lemma process_isolation_witness :
  exists p, procs demo_one = [p] /\
    user_read (mem demo_two) (p_dir p) 16777216 = user_read (mem demo_one) (p_dir p) 16777216.
Proof.
  destruct demo_one_proc as (p & E & _). exists p. split; [exact E|].
  apply (process_isolation (Fork 0 true) demo_one 0 p 16777216).
  - exact demo_reach_one.
  - exact demo_fits.
  - cbn [survivors]. by rewrite E.
  - intros [].
Defined.

(** The fork of the first process succeeds: the child reads what the parent read. *)
Lemma demo_fork_succeeds : length (procs demo_two) = 2%nat.
Proof. vm_compute. reflexivity. Qed.

Lemma fork_copies_memory_witness :
  exists p c, procs demo_one = [p] /\ last (procs demo_two) = Some c /\ length (procs demo_two) = 2%nat /\
    forall va, in_user_range va = true -> shm_page (page_no va) = false ->
      user_read (mem demo_two) (p_dir c) va = user_read (mem demo_one) (p_dir p) va.
Proof.
  destruct demo_one_proc as (p & E & H & _). exists p.
  assert (procs demo_one !! 0%nat = Some p) as E0 by (by rewrite E).
  pose proof demo_fork_succeeds as H2.
  destruct (fork_copies_memory demo_one 0 p demo_reach_one E0 H true) as [Hl|(c & Hc & Hl & Hr)].
  - exfalso. rewrite E in Hl. change (run (Fork 0 true) demo_one) with demo_two in Hl.
    rewrite H2 in Hl. discriminate.
  - exists c. split_and!; [exact E|exact Hc|exact H2|exact Hr].
Defined.

(** The process of the executable reads its three bytes, then zeros; without a
    kernel stack nothing is added and nothing is lost. *)
Lemma spawn_memory_is_image_witness :
  (exists c, procs demo_one = [] ++ [c] /\
    user_read (mem demo_one) (p_dir c) 16777216 = Some (11 + 256 * (22 + 256 * 33)) /\
    user_read (mem demo_one) (p_dir c) 16777224 = Some 0 /\
    user_read (mem demo_one) (p_dir c) PAGING_USER_STACK_GUARD_BASE = None) /\
  procs (run (Spawn demo_image NoKernelStack) (Sys demo_paging [])) = [] /\
  forall b, rc (frames (mem (run (Spawn demo_image NoKernelStack) (Sys demo_paging [])))) b = rc demo_boot b.
Proof.
  destruct demo_image_segments as (h & Eh & Hw & Hsegs).
  pose proof (fun ok => spawn_memory_is_image (Sys demo_paging []) demo_image h ok demo_reach_boot
    demo_image_bytes ltac:(done) demo_image_class Eh Hw) as H. cbv zeta in H.
  pose proof demo_spawn_succeeds as Hd. rewrite Hsegs in H. cbn [mem procs] in H.
  rewrite (proj2 (Z.eqb_neq _ _) Hd) in H. split; [|exact (H NoKernelStack)].
  destruct (H TaskMade) as (c & Ec & Hread). exists c. split; [exact Ec|].
  split; [|split]; (rewrite Hread by reflexivity; reflexivity).
Defined.

Lemma store_completes_witness :
  exists p, procs demo_one = [p] /\
    user_read (mem (run (Store 0 16777216 42) demo_one)) (p_dir p) 16777216 = Some 42.
Proof.
  destruct demo_one_proc as (p & E & _ & H1 & H2). exists p. split; [exact E|].
  apply (store_completes demo_one 0 p 16777216 42).
  - exact demo_reach_one.
  - by rewrite E.
  - reflexivity.
  - reflexivity.
  - exact H1.
  - left. exact H2.
Defined.
