(* ===== verification/Task.v ===== *)
(** Tasks: [kernel/task/task.c] and the tick counter of [kernel/task/timer.c].

    The state is the file's static variables: the table of 16 slots, the four
    ready queues linked through the slots, and the identifiers.  Every function
    is a definition of the same name.  The calls on other components (the heap,
    file descriptors, shared memory, page directories, the terminal) are entries
    of a log; what they return is an argument of the operation.  An assertion
    that fails and a walk of a queue that does not end set [stuck]. *)
From S2P Require Import Prelude.
From S2P Require Import Mmap.
From S2P Require Import Paging.
From Stdlib Require Import ZArith Lia.
From stdpp Require Import base numbers list gmap.

Open Scope Z_scope.
Open Scope lyth_scope.

Definition TASK_MAX_COUNT : Z := 16.
Definition TASK_NAME_MAX : Z := 24.
Definition TASK_STACK_SIZE : Z := 16384.
Definition TASK_USER_STACK_SIZE : Z := 4096.
Definition SCHED_PRIO_COUNT : Z := 4.
Definition TASK_MAX_SUPP_GROUPS : Z := 8.
Definition TASK_PRIORITY_HIGH : Z := 0.
Definition TASK_PRIORITY_NORMAL : Z := 1.
Definition TASK_PRIORITY_LOW : Z := 2.
Definition TASK_PRIORITY_IDLE : Z := 3.
Definition LYTH_SIGKILL : Z := 9.
Definition LYTH_SIGALRM : Z := 14.
Definition LYTH_SIGTERM : Z := 15.
Definition LYTH_SIGCHLD : Z := 17.
Definition LYTH_SIGNAL_MAX : Z := 31.
Definition LYTH_SIG_DFL : Z := 0.
Definition LYTH_SIG_IGN : Z := 1.
Definition LYTH_SIG_BLOCK : Z := 0.
Definition LYTH_SIG_UNBLOCK : Z := 1.
Definition LYTH_SIG_SETMASK : Z := 2.
Definition RLIM_NOFILE_DEFAULT : Z := 32.
Definition RLIM_NOFILE_HARD_MAX : Z := 32.
Definition PAGING_USER_SIGNAL_TRAMPOLINE_SIZE : Z := 16.

(** * Data *)

Inductive task_state :=
  | TASK_STATE_FREE | TASK_STATE_READY | TASK_STATE_RUNNING | TASK_STATE_SLEEPING
  | TASK_STATE_BLOCKED | TASK_STATE_FINISHED | TASK_STATE_ZOMBIE | TASK_STATE_CANCELLED.

#[export] Instance task_state_eq_dec : EqDecision task_state.
Proof. solve_decision. Defined.

Definition state_is (a b : task_state) : bool := bool_decide (a = b).

(** User and group identity. *)
Record creds := Creds {
  uid : Z; gid : Z; euid : Z; egid : Z; supp_groups : list Z; supp_group_count : Z }.
#[export] Instance creds_fields : Fields creds :=
  fun c => Creds (uid c) (gid c) (euid c) (egid c) (supp_groups c) (supp_group_count c).

(** Signals: bit masks, and a disposition per signal number. *)
Record signals := Signals {
  pending_signals : Z; signal_mask : Z; signal_handlers : sarr Z; signal_trampoline_va : Z }.
#[export] Instance signals_fields : Fields signals :=
  fun g => Signals (pending_signals g) (signal_mask g) (signal_handlers g) (signal_trampoline_va g).

(** The user image: addresses, 0 is NULL. *)
Record user_image := UserImage {
  user_stack : Z; user_entry : Z; user_mode : bool; user_physical_base : Z;
  user_heap_base : Z; user_heap_size : Z; user_initial_esp : Z; page_directory : Z }.
#[export] Instance user_image_fields : Fields user_image :=
  fun u => UserImage (user_stack u) (user_entry u) (user_mode u) (user_physical_base u)
    (user_heap_base u) (user_heap_size u) (user_initial_esp u) (page_directory u).

(** A task slot.  The name is the text before its terminator; the file
    descriptors and shared-memory slots of a task are known only by the calls on
    them. *)
Record task_entry := Task {
  used : bool; id : Z; name : list Z; state : task_state; foreground : bool;
  cancel_requested : bool; wake_tick : Z; blocked_event_id : Z; priority : Z; step : Z;
  data : Z; data_size : Z; exit_code : Z; saved_rsp : Z; stack : Z; img : user_image;
  fd_limit_soft : Z; fd_limit_hard : Z; k_errno : Z; parent_id : Z; sigs : signals;
  waitpid_status_uptr : Z; sched_next : Z; who : creds; mmap_regions : list mmap_region;
  alarm_tick : Z; itimer_interval_ticks : Z; output_vc : Z }.
#[export] Instance task_entry_fields : Fields task_entry :=
  fun t => Task (used t) (id t) (name t) (state t) (foreground t) (cancel_requested t)
    (wake_tick t) (blocked_event_id t) (priority t) (step t) (data t) (data_size t) (exit_code t)
    (saved_rsp t) (stack t) (img t) (fd_limit_soft t) (fd_limit_hard t) (k_errno t) (parent_id t)
    (sigs t) (waitpid_status_uptr t) (sched_next t) (who t) (mmap_regions t) (alarm_tick t)
    (itimer_interval_ticks t) (output_vc t).

(** The part of an interrupt frame that the file reads or writes. *)
Record frame := Frame { rdi : Z; rax : Z; rip : Z; cs : Z; rflags : Z; rsp : Z; ss : Z }.
#[export] Instance frame_fields : Fields frame :=
  fun f => Frame (rdi f) (rax f) (rip f) (cs f) (rflags f) (rsp f) (ss f).

(** Calls on other components.  Slots are table indices. *)
Inductive effect :=
  | Kfree (p : Z)
  | FdInit (slot : Z) | FdCloseAll (slot : Z) | FdInherit (slot parent : Z)
  | ShmReset (slot : Z) | ShmDetachAll (dir slot : Z)
  | FreeRegion (base : Z) | ReleasePages (dir : Z) | DestroyDirectory (dir : Z)
  | SwitchDirectory (dir : Z) | OutputVc (vc : Z)
  | ForegroundComplete (id : Z) (cancelled : bool) | JobMessage (id : Z) (ok : bool)
  | WriteUserInt (address value : Z) | WriteUserWord (address value : Z)
  | SetRax (saved_rsp value : Z) | InitFrame (address : Z) (f : frame).

(** The static variables of the file. *)
Record tasks_state := TasksState {
  tasks : sarr task_entry; current_task_index : Z; next_task_id : Z; foreground_task_id : Z;
  sched_ready_head : sarr Z; sched_ready_tail : sarr Z; idle_task_id : Z; idle_tick_count : Z;
  ctx_switch_count : Z; idle_context_rsp : Z; foreground_complete_handler : Z; sys_init_pid : Z;
  stuck : bool; log : list effect }.
#[export] Instance tasks_state_fields : Fields tasks_state :=
  fun s => TasksState (tasks s) (current_task_index s) (next_task_id s) (foreground_task_id s)
    (sched_ready_head s) (sched_ready_tail s) (idle_task_id s) (idle_tick_count s)
    (ctx_switch_count s) (idle_context_rsp s) (foreground_complete_handler s) (sys_init_pid s)
    (stuck s) (log s).

(** What the file relies on: the segment selectors and the address of the entry
    code of kernel threads, and the check of user memory. *)
Class TaskEnv := {
  kernel_code_selector : Z; user_code_selector : Z; user_data_selector : Z;
  task_thread_bootstrap : Z; idle_task_step : Z; paging_kernel_dir : Z;
  user_buffer_is_accessible : Z -> Z -> Z -> bool }.

Definition tk (s : tasks_state) (i : Z) : task_entry := sget (tasks s) i.

Definition upd (i : Z) (f : task_entry -> task_entry) (s : tasks_state) : tasks_state :=
  s <| tasks := sset (tasks s) i (f (tk s i)) |>.

Definition emit (e : effect) (s : tasks_state) : tasks_state := s <| log := log s ++ [e] |>.

Definition in_table (idx : Z) : bool := (0 <=? idx) && (idx <? TASK_MAX_COUNT).
Definition in_prio (prio : Z) : bool := (0 <=? prio) && (prio <? SCHED_PRIO_COUNT).

(** The number of slots, the bound of the scans of the table. *)
Definition table : nat := Z.to_nat TASK_MAX_COUNT.

(** * Ready queues *)

Fixpoint queued_loop (fuel : nat) (s : tasks_state) (cur idx : Z) : option bool :=
  match fuel with
  | O => None
  | S fuel' =>
      if cur <? 0 then Some false
      else if cur =? idx then Some true
      else queued_loop fuel' s (sched_next (tk s cur)) idx
  end.

Definition sched_is_queued (s : tasks_state) (idx prio : Z) : option bool :=
  if negb (in_table idx) || negb (in_prio prio) then Some false
  else queued_loop (S table) s (sget (sched_ready_head s) prio) idx.

Definition set_head (prio v : Z) (s : tasks_state) : tasks_state :=
  s <| sched_ready_head := sset (sched_ready_head s) prio v |>.
Definition set_tail (prio v : Z) (s : tasks_state) : tasks_state :=
  s <| sched_ready_tail := sset (sched_ready_tail s) prio v |>.

Definition sched_enqueue_ready (idx : Z) (s : tasks_state) : tasks_state :=
  if negb (in_table idx) || negb (used (tk s idx)) then s
  else if negb (state_is (state (tk s idx)) TASK_STATE_READY) then s <| stuck := true |>
  else
    let prio := priority (tk s idx) in
    if negb (in_prio prio) then s
    else
      match sched_is_queued s idx prio with
      | None => s <| stuck := true |>
      | Some true => s
      | Some false =>
          let s := upd idx (fun t => t <| sched_next := -1 |>) s in
          let tail := sget (sched_ready_tail s) prio in
          if tail <? 0 then set_tail prio idx (set_head prio idx s)
          else set_tail prio idx (upd tail (fun t => t <| sched_next := idx |>) s)
      end.

Definition sched_dequeue_ready (prio : Z) (s : tasks_state) : tasks_state * Z :=
  if negb (in_prio prio) then (s, -1)
  else
    let idx := sget (sched_ready_head s) prio in
    if idx <? 0 then (s, -1)
    else
      let s := set_head prio (sched_next (tk s idx)) s in
      let s := if sget (sched_ready_head s) prio <? 0 then set_tail prio (-1) s else s in
      (upd idx (fun t => t <| sched_next := -1 |>) s, idx).

Fixpoint remove_loop (fuel : nat) (s : tasks_state) (prio idx prev cur : Z) : tasks_state :=
  match fuel with
  | O => s <| stuck := true |>
  | S fuel' =>
      if cur <? 0 then upd idx (fun t => t <| sched_next := -1 |>) s
      else if cur =? idx then
        let next := sched_next (tk s cur) in
        let s := if prev <? 0 then set_head prio next s
                 else upd prev (fun t => t <| sched_next := next |>) s in
        let s := if sget (sched_ready_tail s) prio =? idx then set_tail prio prev s else s in
        upd idx (fun t => t <| sched_next := -1 |>) s
      else remove_loop fuel' s prio idx cur (sched_next (tk s cur))
  end.

Definition sched_remove_from_ready (idx : Z) (s : tasks_state) : tasks_state :=
  if negb (in_table idx) || negb (used (tk s idx)) then s
  else
    let prio := priority (tk s idx) in
    if negb (in_prio prio) then s
    else remove_loop (S table) s prio idx (-1) (sget (sched_ready_head s) prio).

(** A waiting task becomes ready: the lines that follow its other updates. *)
Definition make_ready (i : Z) (s : tasks_state) : tasks_state :=
  sched_enqueue_ready i (upd i (fun t => t <| state := TASK_STATE_READY |>) s).

(** * Helpers *)

(** [copy_text]: the text up to its terminator, cut to [max_length - 1]. *)
Fixpoint copy_text (max : nat) (src : list Z) : list Z :=
  match max, src with
  | S max', c :: src' => if c =? 0 then [] else c :: copy_text max' src'
  | _, _ => []
  end.
Definition task_name (text : list Z) : list Z := copy_text (Z.to_nat (TASK_NAME_MAX - 1)) text.

Definition encode_child_status (t : task_entry) : Z :=
  if 128 <=? exit_code t then Z.land (exit_code t - 128) 127
  else Z.shiftl (Z.land (exit_code t) 255) 8.

Definition signal_is_valid (signum : Z) : bool := (0 <? signum) && (signum <=? LYTH_SIGNAL_MAX).
Definition signal_is_fatal_by_default (signum : Z) : bool := negb (signum =? LYTH_SIGCHLD).
Definition signal_default_is_ignore (signum : Z) : bool := signum =? LYTH_SIGCHLD.
Definition signal_bit (signum : Z) : Z := if signal_is_valid signum then Z.shiftl 1 signum else 0.
Definition signal_mask_sanitize (mask : Z) : Z := Z.land mask (not32 (signal_bit LYTH_SIGKILL)).

Definition signal_is_blocked (t : task_entry) (signum : Z) : bool :=
  if signum =? LYTH_SIGKILL then false
  else negb (signal_bit signum =? 0) && negb (Z.land (signal_mask (sigs t)) (signal_bit signum) =? 0).

Definition default_handlers : sarr Z := sfill LYTH_SIG_DFL.

Definition task_signal_handlers_init (t : task_entry) : task_entry :=
  t <| sigs := Signals 0 0 default_handlers 0 |>.

Definition task_signal_handlers_copy (dst src : task_entry) : task_entry :=
  dst <| sigs := Signals 0 (signal_mask_sanitize (signal_mask (sigs src)))
                   (sset (signal_handlers (sigs src)) LYTH_SIGKILL LYTH_SIG_DFL)
                   (signal_trampoline_va (sigs src)) |>.

Definition task_install_signal_trampoline (t : task_entry) : task_entry :=
  t <| sigs := (sigs t) <| signal_trampoline_va :=
         (if negb (user_mode (img t)) || (user_physical_base (img t) =? 0) then 0
          else PAGING_USER_STACK_TOP - PAGING_USER_SIGNAL_TRAMPOLINE_SIZE) |> |>.

Definition find_task_by_id (s : tasks_state) (i : Z) : option Z :=
  find_first (fun k => used (tk s k) && (id (tk s k) =? i)) table 0.

Definition find_free_slot (s : tasks_state) : option Z :=
  find_first (fun k => negb (used (tk s k))) table 0.

Section operations.
Context {ENV : TaskEnv}.

(** The status of a child is written through the physical region of the task. *)
Definition write_user_int32 (i vaddr value : Z) (s : tasks_state) : tasks_state :=
  let u := img (tk s i) in
  if (user_physical_base u =? 0) || (vaddr =? 0) then s
  else if (vaddr <? PAGING_USER_BASE) || (PAGING_USER_BASE + PAGING_USER_SIZE <? u64 (vaddr + 4)) then s
  else if negb (page_directory u =? 0) &&
          negb (user_buffer_is_accessible (page_directory u) vaddr 4) then s
  else emit (WriteUserInt (user_physical_base u + (vaddr - PAGING_USER_BASE)) value) s.

(** * The end of a task *)

(** The memory of a user image. *)
Definition release_image (i : Z) (s : tasks_state) : tasks_state :=
  let u := img (tk s i) in
  if page_directory u =? 0 then s
  else
    let s := emit (ShmDetachAll (page_directory u) i) s in
    let s := if user_mode u
             then if negb (user_physical_base u =? 0) then emit (FreeRegion (user_physical_base u)) s
                  else emit (ReleasePages (page_directory u)) s
             else s in
    emit (DestroyDirectory (page_directory u)) s.

Definition kfree_if (c : bool) (p : Z) (s : tasks_state) : tasks_state :=
  if c && negb (p =? 0) then emit (Kfree p) s else s.

(** The fields of a free slot; the descriptor limits, the mappings and the
    virtual console are left as they are. *)
Definition cleared (t : task_entry) : task_entry :=
  Task false 0 [] TASK_STATE_FREE false false 0 (-1) TASK_PRIORITY_NORMAL 0 0 0 0 0 0
    (UserImage 0 0 false 0 0 0 0 0) (fd_limit_soft t) (fd_limit_hard t) 0 0
    (Signals 0 0 default_handlers 0) 0 (-1) (Creds 0 0 0 0 (repeat 0 8) 0) (mmap_regions t) 0 0
    (output_vc t).

Definition clear_task (i : Z) (s : tasks_state) : tasks_state :=
  let s := sched_remove_from_ready i s in
  let s := emit (FdCloseAll i) s in
  let t := tk s i in
  let s := kfree_if true (data t) s in
  let s := kfree_if true (stack t) s in
  let s := kfree_if (negb (user_mode (img t))) (user_stack (img t)) s in
  let s := release_image i s in
  emit (ShmReset i) (upd i cleared s).

(** What a zombie loses: its pointers are cleared with the memory they name. *)
Definition buried (t : task_entry) : task_entry :=
  let u := img t in
  let u := if negb (user_stack u =? 0) && negb (user_mode u) then u <| user_stack := 0 |> else u in
  let u := u <| page_directory := 0 |> <| user_physical_base := 0 |> in
  t <| data := 0 |> <| stack := 0 |> <| img := u |> <| state := TASK_STATE_ZOMBIE |>.

Definition zombify_task (i : Z) (s : tasks_state) : tasks_state :=
  let s := sched_remove_from_ready i s in
  let s := emit (FdCloseAll i) s in
  let t := tk s i in
  let s := kfree_if true (data t) s in
  let s := kfree_if true (stack t) s in
  let s := kfree_if (negb (user_mode (img t))) (user_stack (img t)) s in
  let s := release_image i s in
  upd i buried s.

Definition reparent_children (old_parent_id new_parent_id : Z) (s : tasks_state) : tasks_state :=
  if old_parent_id <=? 0 then s
  else for_loop (fun i s =>
         if used (tk s i) && (parent_id (tk s i) =? old_parent_id)
         then upd i (fun t => t <| parent_id := new_parent_id |>) s else s) table 0 s.

Definition task_signal_event (event_id : Z) (s : tasks_state) : tasks_state * Z :=
  if event_id <? 0 then (s, 0)
  else for_loop (fun i '(s, woken) =>
         let t := tk s i in
         if used t && state_is (state t) TASK_STATE_BLOCKED && (blocked_event_id t =? event_id)
         then (make_ready i (upd i (fun t => t <| blocked_event_id := -1 |> <| wake_tick := 0 |>) s),
               woken + 1)
         else (s, woken)) table 0 (s, 0).

(** Queueing a signal; [complete] ends a task that is killed. *)
Definition queue_signal_with (complete : Z -> tasks_state -> tasks_state) (i signum : Z)
    (s : tasks_state) : tasks_state * Z :=
  let t := tk s i in
  if negb (used t) || negb (signal_is_valid signum) then (s, 0)
  else if state_is (state t) TASK_STATE_ZOMBIE then (s, 0)
  else if id t =? idle_task_id s then (s, 0)
  else if signum =? LYTH_SIGKILL then
    let s := upd i (fun t => t <| cancel_requested := true |> <| exit_code := 128 + signum |>) s in
    if state_is (state t) TASK_STATE_RUNNING
    then (upd i (fun t => t <| state := TASK_STATE_CANCELLED |>) s, 1)
    else (complete i (upd i (fun t => t <| state := TASK_STATE_CANCELLED |>) s), 1)
  else
    let s := upd i (fun t => t <| sigs := (sigs t) <| pending_signals :=
               Z.lor (pending_signals (sigs t)) (signal_bit signum) |> |>) s in
    if state_is (state t) TASK_STATE_SLEEPING || state_is (state t) TASK_STATE_BLOCKED
    then (make_ready i (upd i (fun t => t <| blocked_event_id := -1 |>) s), 1)
    else (s, 1).

(** The messages printed for two programs of the test suite, by their names. *)
Definition name_stackok : list Z := [115; 116; 97; 99; 107; 111; 107].
Definition name_shmread : list Z := [115; 104; 109; 114; 101; 97; 100].

Definition job_messages (t : task_entry) (cancelled : bool) (s : tasks_state) : tasks_state :=
  let s := if negb cancelled && bool_decide (name t = name_stackok)
           then emit (JobMessage (id t) true) s else s in
  if bool_decide (name t = name_shmread)
  then emit (JobMessage (id t) (negb cancelled && (exit_code t =? 0))) s else s.

(** The parent is told of the end of its child with [SIGCHLD], a signal that
    never ends the parent. *)
Definition notify_parent (p task_id : Z) (s : tasks_state) : tasks_state :=
  if used (tk s p) && negb (id (tk s p) =? task_id)
  then (queue_signal_with (fun _ s => s) p LYTH_SIGCHLD s).1 else s.

(** A parent that waits for its child is given the identifier and the status. *)
Definition hand_over (p i task_id : Z) (s : tasks_state) : tasks_state :=
  let s := if negb (saved_rsp (tk s p) =? 0)
           then emit (SetRax (saved_rsp (tk s p)) (u32 task_id)) s else s in
  let s := if negb (waitpid_status_uptr (tk s p) =? 0) then
             upd p (fun t => t <| waitpid_status_uptr := 0 |>)
               (write_user_int32 p (waitpid_status_uptr (tk s p)) (encode_child_status (tk s i)) s)
           else s in
  clear_task i (task_signal_event (blocked_event_id (tk s p)) s).1.

Definition complete_task (i : Z) (s : tasks_state) : tasks_state :=
  let t := tk s i in
  if negb (used t) then s
  else if id t =? idle_task_id s then make_ready i s
  else
    let s := sched_remove_from_ready i s in
    let cancelled := cancel_requested t || state_is (state t) TASK_STATE_CANCELLED in
    let notify_foreground := foreground t && (foreground_task_id s =? id t) in
    let s := if notify_foreground then s <| foreground_task_id := -1 |> else s in
    let s := if notify_foreground && negb (foreground_complete_handler s =? 0)
             then emit (ForegroundComplete (id t) cancelled) s else s in
    let s := job_messages t cancelled s in
    let s := reparent_children (id t) (sys_init_pid s) s in
    let s := (task_signal_event (id t) s).1 in
    match (if 0 <? parent_id t then find_task_by_id s (parent_id t) else None) with
    | None => clear_task i s
    | Some p =>
        let s := notify_parent p (id t) s in
        let e := blocked_event_id (tk s p) in
        if state_is (state (tk s p)) TASK_STATE_BLOCKED && ((e =? id t) || (e =? id (tk s p)))
        then hand_over p i (id t) s
        else if negb (state_is (state (tk s p)) TASK_STATE_ZOMBIE)
        then (task_signal_event (parent_id t) (zombify_task i s)).1
        else clear_task i s
    end.

Definition task_queue_signal_locked (i signum : Z) (s : tasks_state) : tasks_state * Z :=
  queue_signal_with complete_task i signum s.

(** * Delivery of signals *)

(** The scan over the signal numbers from [signum]. *)
Fixpoint pop_loop (n : nat) (t : task_entry) (signum : Z) : option Z :=
  match n with
  | O => None
  | S n' =>
      if negb (Z.land (pending_signals (sigs t)) (signal_bit signum) =? 0) &&
         negb (signal_is_blocked t signum)
      then Some signum
      else pop_loop n' t (signum + 1)
  end.

Definition task_pop_pending_signal (i : Z) (s : tasks_state) : tasks_state * Z :=
  match pop_loop (Z.to_nat LYTH_SIGNAL_MAX) (tk s i) 1 with
  | Some signum =>
      (upd i (fun t => t <| sigs := (sigs t) <| pending_signals :=
         Z.land (pending_signals (sigs t)) (not32 (signal_bit signum)) |> |>) s, signum)
  | None => (s, 0)
  end.

(** The frame of the handler: the interrupted address is pushed on the user
    stack. [None]: the stack pointer is out of range. *)
Definition task_push_user_signal_frame (i : Z) (f : frame) (handler signum : Z) (s : tasks_state)
    : option (tasks_state * frame) :=
  let t := tk s i in
  if (handler <=? LYTH_SIG_IGN) || (signal_trampoline_va (sigs t) =? 0) then None
  else if (rsp f <? PAGING_USER_STACK_BOTTOM + 16) || (PAGING_USER_STACK_TOP <? rsp f) then None
  else
    let new_user_rsp := u64 (Z.land (rsp f) (u64 (Z.lnot 15)) - 8) in
    if new_user_rsp <? PAGING_USER_STACK_BOTTOM then None
    else
      let offset := new_user_rsp - PAGING_USER_BASE in
      if PAGING_USER_SIZE <? offset + 8 then None
      else Some (emit (WriteUserWord (user_physical_base (img t) + offset) (rip f)) s,
                 f <| rsp := new_user_rsp |> <| rdi := signum |> <| rip := handler |>).

(** The default action of a fatal signal. *)
Definition kill_by (i signum : Z) (s : tasks_state) : tasks_state :=
  upd i (fun t => t <| cancel_requested := true |> <| exit_code := 128 + signum |>
                    <| state := TASK_STATE_CANCELLED |>) s.

Definition task_deliver_signals_current (i : Z) (f : frame) (s : tasks_state) : tasks_state * frame :=
  let t := tk s i in
  if negb (used t) || negb (user_mode (img t)) || negb (state_is (state t) TASK_STATE_RUNNING)
  then (s, f)
  else
    let '(s, signum) := task_pop_pending_signal i s in
    if signum =? 0 then (s, f)
    else
      let handler := sget (signal_handlers (sigs (tk s i))) signum in
      if handler =? LYTH_SIG_IGN then (s, f)
      else if (handler =? LYTH_SIG_DFL) || (signum =? LYTH_SIGKILL) then
        if signal_default_is_ignore signum then (s, f)
        else if signal_is_fatal_by_default signum || (signum =? LYTH_SIGKILL)
        then (kill_by i signum s, f)
        else (s, f)
      else
        match task_push_user_signal_frame i f handler signum s with
        | Some (s, f) => (s, f)
        | None => (kill_by i signum s, f)
        end.

(** * Scheduling *)

Definition select_next_ready_task (s : tasks_state) : Z :=
  match find_first (fun prio => 0 <=? sget (sched_ready_head s) prio) (Z.to_nat SCHED_PRIO_COUNT) TASK_PRIORITY_HIGH with
  | Some prio => sget (sched_ready_head s) prio
  | None => -1
  end.

Definition schedule_from_idle (current_esp : Z) (s : tasks_state) : tasks_state * Z :=
  let selected := select_next_ready_task s in
  if selected <? 0 then (s, current_esp)
  else
    let s := (sched_dequeue_ready (priority (tk s selected)) s).1 in
    let s := s <| idle_context_rsp := current_esp |> <| current_task_index := selected |> in
    let s := upd selected (fun t => t <| state := TASK_STATE_RUNNING |>) s in
    let s := s <| ctx_switch_count := u32 (ctx_switch_count s + 1) |> in
    let s := emit (OutputVc (output_vc (tk s selected))) s in
    let dir := page_directory (img (tk s selected)) in
    let s := emit (SwitchDirectory (if negb (dir =? 0) then dir else paging_kernel_dir)) s in
    (s, saved_rsp (tk s selected)).

Definition schedule_back_to_idle (current_esp : Z) (s : tasks_state) : tasks_state * Z :=
  let c := current_task_index s in
  if c <? 0 then (s, current_esp)
  else
    let s := upd c (fun t => t <| saved_rsp := current_esp |>) s in
    let s := emit (SwitchDirectory paging_kernel_dir) (emit (OutputVc (-1)) s) in
    let s := if state_is (state (tk s c)) TASK_STATE_RUNNING || state_is (state (tk s c)) TASK_STATE_READY
             then make_ready c s else s in
    let t := tk s c in
    let s := if used t && (state_is (state t) TASK_STATE_FINISHED || state_is (state t) TASK_STATE_CANCELLED)
             then complete_task c s else s in
    let s := s <| current_task_index := -1 |> in
    (s, if negb (idle_context_rsp s =? 0) then idle_context_rsp s else current_esp).

Definition task_schedule_on_timer (current_esp : Z) (f : frame) (s : tasks_state)
    : tasks_state * Z * frame :=
  if 0 <=? current_task_index s then
    let '(s, f) := task_deliver_signals_current (current_task_index s) f s in
    (schedule_back_to_idle current_esp s, f)
  else (schedule_from_idle current_esp s, f).

Definition task_schedule_on_syscall (current_esp : Z) (f : frame) (s : tasks_state)
    : tasks_state * Z * frame :=
  let c := current_task_index s in
  if 0 <=? c then
    let '(s, f) := task_deliver_signals_current c f s in
    if negb (state_is (state (tk s c)) TASK_STATE_RUNNING)
    then (schedule_back_to_idle current_esp s, f)
    else (s, current_esp, f)
  else (s, current_esp, f).

(** * Creation *)

Definition sizeof_frame : Z := 176.

(** The first frame of a task, at the top of its kernel stack. *)
Definition initialize_task_stack (i : Z) (s : tasks_state) : tasks_state :=
  let t := tk s i in
  let stack_top := stack t + TASK_STACK_SIZE - sizeof_frame in
  let u := img t in
  let f :=
    if user_mode u then
      let user_stack_top :=
        if negb (user_initial_esp u =? 0) then user_initial_esp u
        else user_stack u + TASK_USER_STACK_SIZE - PAGING_USER_SIGNAL_TRAMPOLINE_SIZE in
      Frame 0 0 (user_entry u) (Z.lor user_code_selector 3) 514 user_stack_top
        (Z.lor user_data_selector 3)
    else Frame 0 0 task_thread_bootstrap kernel_code_selector 514 (stack_top + sizeof_frame) 16 in
  upd i (fun t => t <| saved_rsp := stack_top |>) (emit (InitFrame stack_top f) s).

(** The state at boot; the slot of the idle task is the first, and [kstack] is
    its stack, 0 when there is no memory. *)
Definition empty_slot : task_entry :=
  Task false 0 [] TASK_STATE_FREE false false 0 0 0 0 0 0 0 0 0 (UserImage 0 0 false 0 0 0 0 0) 0 0 0 0
    (Signals 0 0 default_handlers 0) 0 (-1) (Creds 0 0 0 0 (repeat 0 8) 0)
    (mmap_init_regions (repeat (MmapRegion 0 0 false) 16)) 0 0 0.

Definition name_idle : list Z := [91; 105; 100; 108; 101; 93].

Definition idle_slot (kstack : Z) : task_entry :=
  empty_slot <| used := true |> <| id := 1 |> <| name := task_name name_idle |>
    <| state := TASK_STATE_READY |> <| blocked_event_id := -1 |> <| priority := TASK_PRIORITY_IDLE |>
    <| step := idle_task_step |> <| output_vc := -1 |> <| stack := kstack |>.

Definition task_system_init (kstack : Z) : tasks_state :=
  let s := TasksState (sfill empty_slot) (-1) 1 (-1) (sfill (-1)) (sfill (-1)) (-1) 0 0 0 0 (-1) false
             (concat (map (fun i => [FdInit i; ShmReset i]) (seqZ 0 16)) ++ [FdInit 0]) in
  let s := upd 0 (fun _ => idle_slot kstack) (s <| next_task_id := 2 |>) in
  if negb (kstack =? 0) then
    sched_enqueue_ready 0 (initialize_task_stack 0 s) <| idle_task_id := 1 |>
  else upd 0 (fun t => t <| used := false |>) s <| stuck := true |>.

(** The identity a new task takes from the task that runs. *)
Definition inherited_creds (s : tasks_state) : creds :=
  if 0 <=? current_task_index s then who (tk s (current_task_index s))
  else Creds 0 0 0 0 (repeat 0 8) 0.

Definition creator_id (s : tasks_state) : Z :=
  if 0 <=? current_task_index s then id (tk s (current_task_index s)) else 0.

(** The fields that both kinds of creation set. *)
Definition new_task (s : tasks_state) (text : list Z) (fg : bool) (vc : Z) (t : task_entry) : task_entry :=
  let t := t <| used := true |> <| id := next_task_id s |> <| name := task_name text |>
             <| state := TASK_STATE_READY |> <| foreground := fg |> <| cancel_requested := false |>
             <| wake_tick := 0 |> <| blocked_event_id := -1 |>
             <| priority := (if fg then TASK_PRIORITY_NORMAL else TASK_PRIORITY_LOW) |>
             <| data := 0 |> <| exit_code := 0 |> <| output_vc := vc |> <| saved_rsp := 0 |>
             <| parent_id := creator_id s |> <| waitpid_status_uptr := 0 |> <| sched_next := -1 |>
             <| fd_limit_soft := RLIM_NOFILE_DEFAULT |> <| fd_limit_hard := RLIM_NOFILE_DEFAULT |>
             <| who := inherited_creds s |> in
  task_signal_handlers_init t.

(** A kernel task; [kstack] and [block] are the results of the two allocations. *)
Definition task_spawn (text : list Z) (fn size : Z) (fg : bool) (vc kstack block : Z) (s : tasks_state)
    : tasks_state * Z :=
  if fn =? 0 then (s, -1)
  else if fg && negb (foreground_task_id s =? -1) then (s, -1)
  else
    match find_free_slot s with
    | None => (s, -1)
    | Some slot =>
        let s1 := s <| next_task_id := next_task_id s + 1 |> in
        let s1 := upd slot (fun t =>
          new_task s text fg vc
            (t <| step := fn |> <| data_size := size |> <| stack := 0 |>
               <| img := (img t) <| user_stack := 0 |> <| user_entry := 0 |> <| user_mode := false |> |>)) s1 in
        let s1 := emit (FdInit slot) (emit (ShmReset slot) s1) in
        let s1 := upd slot (fun t => t <| stack := kstack |>) s1 in
        if kstack =? 0 then (clear_task slot s1, -1)
        else if (0 <? size) && (block =? 0) then (clear_task slot s1, -1)
        else
          let s1 := if 0 <? size then upd slot (fun t => t <| data := block |>) s1 else s1 in
          let s1 := initialize_task_stack slot s1 in
          let s1 := if fg then s1 <| foreground_task_id := id (tk s1 slot) |> else s1 in
          let s1 := sched_enqueue_ready slot s1 in
          (s1, id (tk s1 slot))
    end.

(** A user task; [attached] is the result of [shm_attach] when a segment is
    passed on. *)
Definition task_spawn_user_common (text : list Z) (entry_point physical_base heap_base heap_size
    directory initial_user_esp shm_segment_id : Z) (fg : bool) (vc kstack attached : Z)
    (s : tasks_state) : tasks_state * Z :=
  if (entry_point =? 0) || (physical_base =? 0) || (directory =? 0) then (s, -1)
  else if fg && negb (foreground_task_id s =? -1) then (s, -1)
  else
    match find_free_slot s with
    | None => (s, -1)
    | Some slot =>
        let s1 := s <| next_task_id := next_task_id s + 1 |> in
        let s1 := upd slot (fun t =>
          new_task s text fg vc
            (t <| step := 0 |> <| data_size := 0 |> <| stack := kstack |>
               <| img := UserImage 0 entry_point true physical_base heap_base heap_size
                           initial_user_esp directory |>)) s1 in
        let s1 := emit (FdInit slot) (emit (ShmReset slot) s1) in
        if kstack =? 0 then (clear_task slot s1, -1)
        else
          let s1 := upd slot (fun t => task_install_signal_trampoline
            (t <| img := (img t) <| user_stack := PAGING_USER_STACK_BOTTOM |> |>)) s1 in
          if (0 <? shm_segment_id) && (attached =? 0) then (clear_task slot s1, -1)
          else
            let s1 := initialize_task_stack slot s1 in
            let s1 := if fg then s1 <| foreground_task_id := id (tk s1 slot) |> else s1 in
            let s1 := sched_enqueue_ready slot s1 in
            (s1, id (tk s1 slot))
    end.

Definition task_spawn_user text entry_point physical_base heap_base heap_size directory
    initial_user_esp fg vc kstack (s : tasks_state) : tasks_state * Z :=
  task_spawn_user_common text entry_point physical_base heap_base heap_size directory
    initial_user_esp (-1) fg vc kstack 0 s.

Definition task_spawn_user_shm1 text entry_point physical_base heap_base heap_size directory
    initial_user_esp shm_segment_id fg vc kstack attached (s : tasks_state) : tasks_state * Z :=
  task_spawn_user_common text entry_point physical_base heap_base heap_size directory
    initial_user_esp shm_segment_id fg vc kstack attached s.

(** ** Fork *)

(** The child's slot as [task_fork_from_frame] fills it. *)
Definition forked (s : tasks_state) (parent : task_entry) (child_dir kstack : Z) (t : task_entry)
    : task_entry :=
  let u := img parent in
  let t := t <| used := true |> <| id := next_task_id s |> <| name := task_name (name parent) |>
             <| state := TASK_STATE_READY |> <| foreground := false |> <| cancel_requested := false |>
             <| wake_tick := 0 |> <| blocked_event_id := -1 |> <| priority := priority parent |>
             <| step := 0 |> <| data := 0 |> <| data_size := 0 |> <| exit_code := 0 |>
             <| output_vc := output_vc parent |> <| stack := kstack |>
             <| img := UserImage (user_stack u) (user_entry u) true 0 (user_heap_base u)
                         (user_heap_size u) (user_initial_esp (img t)) child_dir |>
             <| k_errno := 0 |> <| parent_id := id parent |> <| sched_next := -1 |>
             <| fd_limit_soft := fd_limit_soft parent |> <| fd_limit_hard := fd_limit_hard parent |>
             <| who := who parent |> <| alarm_tick := 0 |> <| itimer_interval_ticks := 0 |> in
  task_signal_handlers_copy t parent.

(** The outcome of the calls a fork makes: the directory of the child and its
    kernel stack (0 is a failure), and whether the shared memory was cloned. *)
Definition task_fork_from_frame (f : frame) (child_dir kstack : Z) (shm_ok : bool) (s : tasks_state)
    : tasks_state * Z :=
  let c := current_task_index s in
  if c <? 0 then (s, -1)
  else if negb (user_mode (img (tk s c))) then (s, -1)
  else
    match find_free_slot s with
    | None => (s, -1)
    | Some slot =>
        if child_dir =? 0 then (s, -1)
        else
          let s := upd c (fun t => t <| img := (img t) <| user_physical_base := 0 |> |>) s in
          let parent := tk s c in
          if kstack =? 0 then (emit (DestroyDirectory child_dir) (emit (ReleasePages child_dir) s), -1)
          else
            let s1 := s <| next_task_id := next_task_id s + 1 |> in
            let s1 := emit (ShmReset slot) (upd slot (forked s parent child_dir kstack) s1) in
            if negb shm_ok then
              let s1 := emit (DestroyDirectory child_dir)
                          (emit (ReleasePages child_dir) (emit (Kfree kstack) s1)) in
              (upd slot (fun t => t <| used := false |>) s1, -1)
            else
              let s1 := upd slot (fun t =>
                t <| mmap_regions := mmap_clone_regions (mmap_regions parent) (mmap_regions t) |>) s1 in
              let s1 := emit (FdInherit slot c) s1 in
              let s1 := upd slot task_install_signal_trampoline s1 in
              let top := kstack + TASK_STACK_SIZE - sizeof_frame in
              let s1 := emit (InitFrame top (f <| rax := 0 |>)) s1 in
              let s1 := upd slot (fun t => t <| saved_rsp := top |>) s1 in
              let s1 := sched_enqueue_ready slot s1 in
              (s1, id (tk s1 slot))
    end.

(** ** Exec *)

Definition reset_caught (h : sarr Z) : sarr Z :=
  for_loop (fun n h => if LYTH_SIG_IGN <? sget h n then sset h n LYTH_SIG_DFL else h)
    (Z.to_nat LYTH_SIGNAL_MAX) 1 h.

Definition task_exec_current_user_from_frame (f : frame) (new_name : option (list Z))
    (entry_point physical_base heap_base heap_size directory initial_user_esp : Z)
    (s : tasks_state) : tasks_state * frame * Z :=
  let c := current_task_index s in
  if (c <? 0) || (entry_point =? 0) || (physical_base =? 0) || (directory =? 0) then (s, f, 0)
  else
    let old := tk s c in
    if negb (used old) || negb (user_mode (img old)) then (s, f, 0)
    else
      let top_user_esp := PAGING_USER_STACK_TOP - PAGING_USER_SIGNAL_TRAMPOLINE_SIZE in
      let esp := if initial_user_esp =? 0 then top_user_esp else initial_user_esp in
      if (esp <? PAGING_USER_STACK_BOTTOM) || (top_user_esp <? esp) then (s, f, 0)
      else
        let s := kfree_if true (data old) s in
        let s := upd c (fun t => task_install_signal_trampoline
          (t <| name := match new_name with Some n => task_name n | None => name t end |>
             <| data := 0 |> <| state := TASK_STATE_RUNNING |> <| cancel_requested := false |>
             <| wake_tick := 0 |> <| blocked_event_id := -1 |> <| step := 0 |> <| data_size := 0 |>
             <| exit_code := 0 |>
             <| img := UserImage PAGING_USER_STACK_BOTTOM entry_point true physical_base heap_base
                         heap_size esp directory |>
             <| k_errno := 0 |> <| alarm_tick := 0 |> <| itimer_interval_ticks := 0 |>
             <| sigs := (sigs t) <| pending_signals := 0 |>
                          <| signal_handlers := reset_caught (signal_handlers (sigs t)) |> |>)) s in
        let f := f <| rax := 0 |> <| rip := entry_point |> <| cs := Z.lor user_code_selector 3 |>
                   <| rflags := Z.lor (rflags f) 512 |> <| rsp := esp |>
                   <| ss := Z.lor user_data_selector 3 |> in
        let s := emit (SwitchDirectory directory) s in
        let s :=
          if page_directory (img old) =? 0 then s
          else
            let s := emit (ShmReset c) (emit (ShmDetachAll (page_directory (img old)) c) s) in
            let s := upd c (fun t => t <| mmap_regions := mmap_init_regions (mmap_regions t) |>) s in
            let s := if negb (user_physical_base (img old) =? 0)
                     then emit (FreeRegion (user_physical_base (img old))) s
                     else emit (ReleasePages (page_directory (img old))) s in
            emit (DestroyDirectory (page_directory (img old))) s in
        (s, f, 1).

(** * Time *)

(** [(int)(now - tick) >= 0] *)
Definition tick_reached (now tick : Z) : bool := u32 (now - tick) <? 2147483648.

Definition tick_task (now i : Z) (s : tasks_state) : tasks_state :=
  if negb (used (tk s i)) then s
  else
    let s := if state_is (state (tk s i)) TASK_STATE_SLEEPING && tick_reached now (wake_tick (tk s i))
             then make_ready i (upd i (fun t => t <| wake_tick := 0 |>) s) else s in
    let s := if state_is (state (tk s i)) TASK_STATE_BLOCKED && negb (wake_tick (tk s i) =? 0) &&
                tick_reached now (wake_tick (tk s i))
             then make_ready i (upd i (fun t => t <| wake_tick := 0 |> <| blocked_event_id := -1 |>) s)
             else s in
    if negb (alarm_tick (tk s i) =? 0) && tick_reached now (alarm_tick (tk s i)) then
      let s := upd i (fun t =>
        t <| alarm_tick := (if negb (itimer_interval_ticks t =? 0)
                            then u32 (now + itimer_interval_ticks t) else 0) |>
          <| sigs := (sigs t) <| pending_signals :=
               Z.lor (pending_signals (sigs t)) (Z.shiftl 1 LYTH_SIGALRM) |> |>) s in
      if state_is (state (tk s i)) TASK_STATE_SLEEPING || state_is (state (tk s i)) TASK_STATE_BLOCKED
      then make_ready i (upd i (fun t => t <| blocked_event_id := -1 |>) s) else s
    else s.

Definition task_on_tick (now : Z) (s : tasks_state) : tasks_state :=
  for_loop (tick_task now) table 0 s.

Definition task_has_runnable (s : tasks_state) : bool :=
  match find_first (fun p => 0 <=? sget (sched_ready_head s) p) 3 TASK_PRIORITY_HIGH with
  | Some _ => true | None => false
  end.

(** * Calls of the running task *)

(** An update of the running task; nothing happens without one. *)
Definition on_current (f : task_entry -> task_entry) (s : tasks_state) : tasks_state :=
  if current_task_index s <? 0 then s else upd (current_task_index s) f s.

Definition task_sleep (now ticks : Z) (s : tasks_state) : tasks_state :=
  on_current (fun t =>
    if ticks =? 0 then t <| state := TASK_STATE_READY |>
    else t <| wake_tick := u32 (now + ticks) |> <| blocked_event_id := -1 |>
           <| state := TASK_STATE_SLEEPING |>) s.

(** Some zombie has the identifier [event_id]. *)
Definition zombie_with_id (s : tasks_state) (event_id : Z) : bool :=
  match find_first (fun i => used (tk s i) && (id (tk s i) =? event_id) &&
                                     state_is (state (tk s i)) TASK_STATE_ZOMBIE) table 0 with
  | Some _ => true | None => false
  end.

Definition task_wait_event (event_id : Z) (s : tasks_state) : tasks_state :=
  if (current_task_index s <? 0) || (event_id <? 0) then s
  else if zombie_with_id s event_id then s
  else on_current (fun t => t <| blocked_event_id := event_id |> <| wake_tick := 0 |>
                              <| state := TASK_STATE_BLOCKED |>) s.

Definition task_wait_event_timeout (now event_id timeout_ticks : Z) (s : tasks_state) : tasks_state :=
  if (current_task_index s <? 0) || (event_id <? 0) then s
  else if timeout_ticks =? 0 then task_wait_event event_id s
  else if zombie_with_id s event_id then s
  else on_current (fun t => t <| blocked_event_id := event_id |>
                              <| wake_tick := u32 (now + timeout_ticks) |>
                              <| state := TASK_STATE_BLOCKED |>) s.

Definition task_yield (s : tasks_state) : tasks_state :=
  on_current (fun t => if state_is (state t) TASK_STATE_RUNNING
                       then t <| state := TASK_STATE_READY |> else t) s.

Definition task_exit (code : Z) (s : tasks_state) : tasks_state :=
  on_current (fun t => t <| exit_code := code |> <| state := TASK_STATE_FINISHED |>) s.

(** The request to end the task in slot [i], which is woken. *)
Definition request_cancel (i : Z) (s : tasks_state) : tasks_state :=
  let s := upd i (fun t => t <| cancel_requested := true |>) s in
  if state_is (state (tk s i)) TASK_STATE_SLEEPING || state_is (state (tk s i)) TASK_STATE_BLOCKED
  then make_ready i (upd i (fun t => t <| blocked_event_id := -1 |>) s) else s.

Definition task_request_cancel (s : tasks_state) : tasks_state :=
  if current_task_index s <? 0 then s else request_cancel (current_task_index s) s.

Definition task_request_foreground_cancel (s : tasks_state) : tasks_state :=
  if foreground_task_id s =? -1 then s
  else match find_task_by_id s (foreground_task_id s) with
       | Some i => request_cancel i s
       | None => s
       end.

Definition task_cancel_requested (s : tasks_state) : bool :=
  if 0 <=? current_task_index s then cancel_requested (tk s (current_task_index s))
  else if foreground_task_id s =? -1 then false
  else match find_task_by_id s (foreground_task_id s) with
       | Some i => cancel_requested (tk s i)
       | None => false
       end.

Definition task_clear_cancel (s : tasks_state) : tasks_state :=
  if 0 <=? current_task_index s then on_current (fun t => t <| cancel_requested := false |>) s
  else if foreground_task_id s =? -1 then s
  else match find_task_by_id s (foreground_task_id s) with
       | Some i => upd i (fun t => t <| cancel_requested := false |>) s
       | None => s
       end.

Definition task_current_id (s : tasks_state) : Z :=
  if current_task_index s <? 0 then -1 else id (tk s (current_task_index s)).

Definition task_set_priority (i prio : Z) (s : tasks_state) : tasks_state * Z :=
  if (prio <? TASK_PRIORITY_HIGH) || (TASK_PRIORITY_LOW <? prio) then (s, 0)
  else
    match find_task_by_id s i with
    | None => (s, 0)
    | Some k =>
        if id (tk s k) =? idle_task_id s then (s, 0)
        else if priority (tk s k) =? prio then (s, 1)
        else if state_is (state (tk s k)) TASK_STATE_READY then
          (sched_enqueue_ready k
             (upd k (fun t => t <| priority := prio |>) (sched_remove_from_ready k s)), 1)
        else (upd k (fun t => t <| priority := prio |>) s, 1)
    end.

Definition task_set_output_vc (i vc : Z) (s : tasks_state) : tasks_state :=
  match find_task_by_id s i with
  | Some k => upd k (fun t => t <| output_vc := vc |>) s
  | None => s
  end.

Definition task_set_foreground (i : Z) (s : tasks_state) : tasks_state * Z :=
  let s :=
    if foreground_task_id s =? -1 then s
    else
      (match find_task_by_id s (foreground_task_id s) with
       | Some k => upd k (fun t => t <| foreground := false |>) s
       | None => s
       end) <| foreground_task_id := -1 |> in
  if i <? 0 then (s, 1)
  else
    match find_task_by_id s i with
    | None => (s, 0)
    | Some k =>
        let st := state (tk s k) in
        if state_is st TASK_STATE_FREE || state_is st TASK_STATE_FINISHED ||
           state_is st TASK_STATE_ZOMBIE || state_is st TASK_STATE_CANCELLED
        then (s, 0)
        else (upd k (fun t => t <| foreground := true |>) s <| foreground_task_id := i |>, 1)
    end.

(** ** Timers of the running task *)

Definition task_alarm (now freq seconds : Z) (s : tasks_state) : tasks_state * Z :=
  let c := current_task_index s in
  if c <? 0 then (s, 0)
  else
    let a := alarm_tick (tk s c) in
    let remaining :=
      if a =? 0 then 0
      else if 0 <? freq then u32 (u32 (a - now) + freq - 1) / freq else 0 in
    (upd c (fun t => t <| alarm_tick := (if seconds =? 0 then 0 else u32 (now + seconds * freq)) |>
                       <| itimer_interval_ticks := 0 |>) s, remaining).

(** The remaining time and the interval of the timer, in microseconds. *)
Definition itimer_state (now freq : Z) (t : task_entry) : Z * Z :=
  (if negb (alarm_tick t =? 0) && (0 <? freq)
   then u32 (u32 (alarm_tick t - now) * 1000000) / freq else 0,
   if 0 <? freq then u32 (itimer_interval_ticks t * 1000000) / freq else 0).

Definition task_setitimer (now freq value_us interval_us : Z) (s : tasks_state)
    : tasks_state * Z * (Z * Z) :=
  let c := current_task_index s in
  if c <? 0 then (s, -1, (0, 0))
  else
    let old := itimer_state now freq (tk s c) in
    let us_per_tick := if 0 <? freq then 1000000 / freq else 0 in
    if value_us =? 0 then
      (upd c (fun t => t <| alarm_tick := 0 |> <| itimer_interval_ticks := 0 |>) s, 0, old)
    else if us_per_tick =? 0 then (s, -1, old)
    else
      let value_ticks := u32 (value_us + us_per_tick - 1) / us_per_tick in
      let value_ticks := if value_ticks =? 0 then 1 else value_ticks in
      (upd c (fun t => t <| alarm_tick := u32 (now + value_ticks) |>
                         <| itimer_interval_ticks := interval_us / us_per_tick |>) s, 0, old).

Definition task_getitimer (now freq : Z) (s : tasks_state) : Z * Z :=
  if current_task_index s <? 0 then (0, 0)
  else itimer_state now freq (tk s (current_task_index s)).

(** ** Signals *)

Definition task_send_signal (i signum : Z) (s : tasks_state) : tasks_state * Z :=
  if negb (signal_is_valid signum) then (s, 0)
  else match find_task_by_id s i with
       | None => (s, 0)
       | Some k => task_queue_signal_locked k signum s
       end.

Definition task_kill (i : Z) (s : tasks_state) : tasks_state * Z := task_send_signal i LYTH_SIGTERM s.

(** The old disposition is the second result. *)
Definition task_set_signal_handler (signum handler : Z) (s : tasks_state) : tasks_state * Z * Z :=
  let c := current_task_index s in
  if (c <? 0) || negb (signal_is_valid signum) || (signum =? LYTH_SIGKILL) then (s, 0, 0)
  else if negb (user_mode (img (tk s c))) then (s, 0, 0)
  else
    (upd c (fun t => t <| sigs := (sigs t) <| signal_handlers :=
       sset (signal_handlers (sigs t)) signum handler |> |>) s,
     1, sget (signal_handlers (sigs (tk s c))) signum).

Definition task_pending_signals (s : tasks_state) : Z :=
  if current_task_index s <? 0 then 0 else pending_signals (sigs (tk s (current_task_index s))).

Definition task_sigprocmask (how mask : Z) (s : tasks_state) : tasks_state * Z :=
  let c := current_task_index s in
  if c <? 0 then (s, 0)
  else
    let mask := signal_mask_sanitize mask in
    let set (m : Z -> Z) :=
      (upd c (fun t => t <| sigs := (sigs t) <| signal_mask :=
         signal_mask_sanitize (m (signal_mask (sigs t))) |> |>) s, 1) in
    if how =? LYTH_SIG_BLOCK then set (fun old => Z.lor old mask)
    else if how =? LYTH_SIG_UNBLOCK then set (fun old => Z.land old (not32 mask))
    else if how =? LYTH_SIG_SETMASK then set (fun _ => mask)
    else (s, 0).

(** ** Children *)

Definition task_set_init_pid (pid : Z) (s : tasks_state) : tasks_state := s <| sys_init_pid := pid |>.

Definition task_reap_zombies_for (parent : Z) (s : tasks_state) : tasks_state * Z :=
  for_loop (fun i '(s, count) =>
    if used (tk s i) && state_is (state (tk s i)) TASK_STATE_ZOMBIE && (parent_id (tk s i) =? parent)
    then (clear_task i s, count + 1) else (s, count)) table 0 (s, 0).

Definition is_child (s : tasks_state) (self i : Z) : bool := used (tk s i) && (parent_id (tk s i) =? self).

(** The first child that is a zombie, and whether there is a child at all. *)
Definition zombie_child (s : tasks_state) (self : Z) : option Z :=
  find_first (fun i => is_child s self i && state_is (state (tk s i)) TASK_STATE_ZOMBIE) table 0.
Definition has_child (s : tasks_state) (self : Z) : bool :=
  match find_first (is_child s self) table 0 with Some _ => true | None => false end.

Definition block_on (event : Z) (s : tasks_state) : tasks_state :=
  on_current (fun t => t <| blocked_event_id := event |> <| state := TASK_STATE_BLOCKED |>) s.

Definition task_wait_id (target_id : Z) (s : tasks_state) : tasks_state :=
  if current_task_index s <? 0 then s
  else
    let self_id := id (tk s (current_task_index s)) in
    if target_id =? -1 then
      match zombie_child s self_id with
      | Some i => clear_task i s
      | None => if has_child s self_id then block_on self_id s else s
      end
    else if target_id <? 0 then s
    else
      match find_task_by_id s target_id with
      | None => s
      | Some k =>
          if state_is (state (tk s k)) TASK_STATE_ZOMBIE then
            if parent_id (tk s k) =? self_id then clear_task k s else s
          else block_on target_id s
      end.

Definition task_set_errno (e : Z) (s : tasks_state) : tasks_state := on_current (fun t => t <| k_errno := e |>) s.

(** The zombie in slot [k] is collected by the running task. *)
Definition collect (k status_uptr : Z) (s : tasks_state) : tasks_state * Z :=
  let child_pid := id (tk s k) in
  let child_stat := encode_child_status (tk s k) in
  let s := clear_task k s in
  (if negb (status_uptr =? 0) then write_user_int32 (current_task_index s) status_uptr child_stat s
   else s, child_pid).

Definition task_waitpid (target_id status_uptr : Z) (s : tasks_state) : tasks_state * Z :=
  if current_task_index s <? 0 then (s, -1)
  else
    let self_id := id (tk s (current_task_index s)) in
    let block event :=
      (block_on event (on_current (fun t => t <| waitpid_status_uptr := status_uptr |>) s), 0) in
    if target_id =? -1 then
      match zombie_child s self_id with
      | Some i => collect i status_uptr s
      | None => if has_child s self_id then block self_id else (task_set_errno 10 s, -1)
      end
    else if target_id <=? 0 then (task_set_errno 22 s, -1)
    else
      match find_task_by_id s target_id with
      | None => (task_set_errno 10 s, -1)
      | Some k =>
          if negb (parent_id (tk s k) =? self_id) then (task_set_errno 10 s, -1)
          else if state_is (state (tk s k)) TASK_STATE_ZOMBIE then collect k status_uptr s
          else block target_id
      end.

Definition task_parent_id (s : tasks_state) (i : Z) : Z :=
  match find_task_by_id s i with Some k => parent_id (tk s k) | None => -1 end.

(** ** Identity and limits *)

Definition task_has_group_locked (c : creds) (g : Z) : bool :=
  (egid c =? g) || existsb (Z.eqb g) (take (Z.to_nat (supp_group_count c)) (supp_groups c)).

Definition on_creds (f : creds -> creds) (s : tasks_state) : tasks_state :=
  on_current (fun t => t <| who := f (who t) |>) s.

Definition task_set_current_uid (new_uid : Z) (s : tasks_state) : tasks_state * Z :=
  if current_task_index s <? 0 then (s, -1)
  else
    let c := who (tk s (current_task_index s)) in
    if euid c =? 0 then (on_creds (fun c => c <| uid := new_uid |> <| euid := new_uid |>) s, 0)
    else if new_uid =? uid c then (on_creds (fun c => c <| euid := new_uid |>) s, 0)
    else (s, -1).

Definition task_set_current_gid (new_gid : Z) (s : tasks_state) : tasks_state * Z :=
  if current_task_index s <? 0 then (s, -1)
  else
    let c := who (tk s (current_task_index s)) in
    if euid c =? 0 then (on_creds (fun c => c <| gid := new_gid |> <| egid := new_gid |>) s, 0)
    else if (new_gid =? gid c) || task_has_group_locked c new_gid
    then (on_creds (fun c => c <| egid := new_gid |>) s, 0)
    else (s, -1).

Definition task_force_identity (u g : Z) (s : tasks_state) : tasks_state :=
  on_creds (fun _ => Creds u g u g (repeat 0 8) 0) s.

Definition task_in_group (g : Z) (s : tasks_state) : bool :=
  if current_task_index s <? 0 then false
  else task_has_group_locked (who (tk s (current_task_index s))) g.

(** [None] is a null pointer. *)
Definition task_set_groups (gids : option (list Z)) (count : Z) (s : tasks_state) : tasks_state * Z :=
  if current_task_index s <? 0 then (s, -1)
  else if (count <? 0) || (TASK_MAX_SUPP_GROUPS <? count) then (s, -1)
  else if negb (euid (who (tk s (current_task_index s))) =? 0) then (s, -1)
  else
    (on_creds (fun c => c <| supp_group_count := count |>
       <| supp_groups := map (fun i => if i <? count
            then match gids with Some l => nth (Z.to_nat i) l 0 | None => 0 end else 0) (seqZ 0 8) |>) s, 0).

Definition task_set_fd_rlimit (new_soft new_hard : Z) (s : tasks_state) : tasks_state * Z :=
  if current_task_index s <? 0 then (s, -1)
  else if fd_limit_hard (tk s (current_task_index s)) <? new_hard then (s, -1)
  else if RLIM_NOFILE_HARD_MAX <? new_hard then (s, -1)
  else if new_hard <? new_soft then (s, -1)
  else if new_soft <? 3 then (s, -1)
  else (on_current (fun t => t <| fd_limit_soft := new_soft |> <| fd_limit_hard := new_hard |>) s, 0).

(** ** Mappings of the running task *)

Definition task_mmap (length : Z) (s : tasks_state) : tasks_state * Z :=
  if current_task_index s <? 0 then (s, MMAP_FAILED)
  else
    let t := tk s (current_task_index s) in
    if negb (user_mode (img t)) then (s, MMAP_FAILED)
    else
      let mmap_low := align_up_page (user_heap_base (img t) + user_heap_size (img t) / 2) in
      if PAGING_USER_SHM_BASE <=? mmap_low then (s, MMAP_FAILED)
      else
        let '(regions, a, _) := mmap_anonymous (mmap_regions t) PAGING_USER_SHM_BASE mmap_low length in
        (on_current (fun t => t <| mmap_regions := regions |>) s, a).

Definition task_munmap (addr length : Z) (s : tasks_state) : tasks_state * Z :=
  if current_task_index s <? 0 then (s, -1)
  else
    let '(regions, r) := mmap_unmap (mmap_regions (tk s (current_task_index s))) addr length in
    (on_current (fun t => t <| mmap_regions := regions |>) s, r).

(** The idle task. *)
Definition idle_task_run (s : tasks_state) : tasks_state :=
  s <| idle_tick_count := u32 (idle_tick_count s + 1) |>.

End operations.
