(* ===== verification/Sched.v ===== *)
(** The ready queues of [kernel/task/task.c] as lists: the links through the
    task table represent, for every priority, the list of the ready tasks in the
    order in which they became ready. *)
From S2P Require Import Prelude.
From S2P Require Import Mmap.
From S2P Require Import Paging.
From S2P Require Import Task.
From Stdlib Require Import ZArith Lia.
From stdpp Require Import base numbers list gmap.

Open Scope Z_scope.
Open Scope lyth_scope.

(** * Access to the table *)

Lemma tk_upd i f s j : tk (upd i f s) j = if decide (i = j) then f (tk s i) else tk s j.
Proof. unfold tk, upd. cbn. by rewrite sget_sset. Qed.

Lemma tk_upd_eq i f s : tk (upd i f s) i = f (tk s i).
Proof. rewrite tk_upd. by rewrite decide_True. Qed.

Lemma tk_upd_ne i f s j : i <> j -> tk (upd i f s) j = tk s j.
Proof. intros. rewrite tk_upd. by rewrite decide_False. Qed.

Lemma state_is_true a b : state_is a b = true <-> a = b.
Proof. apply bool_decide_eq_true. Qed.

Lemma state_is_false a b : state_is a b = false <-> a <> b.
Proof. apply bool_decide_eq_false. Qed.

Lemma state_is_refl a : state_is a a = true.
Proof. by apply state_is_true. Qed.

Definition slot (i : Z) : Prop := 0 <= i < TASK_MAX_COUNT.
Definition prio_ok (p : Z) : Prop := 0 <= p < SCHED_PRIO_COUNT.

Lemma in_table_slot i : in_table i = true <-> slot i.
Proof. unfold in_table, slot. rewrite andb_true_iff, Z.leb_le, Z.ltb_lt. done. Qed.

Lemma in_prio_ok p : in_prio p = true <-> prio_ok p.
Proof. unfold in_prio, prio_ok. rewrite andb_true_iff, Z.leb_le, Z.ltb_lt. done. Qed.

(** * Linked lists *)

(** Following [nx] from [h] gives the slots of [l] and then -1. *)
Fixpoint chain (nx : Z -> Z) (h : Z) (l : list Z) : Prop :=
  match l with
  | [] => h = -1
  | x :: l' => h = x /\ slot x /\ chain nx (nx x) l'
  end.

Definition last_or (l : list Z) : Z := default (-1) (last l).

Lemma chain_same nx nx' h l :
  (forall j, j ∈ l -> nx' j = nx j) -> chain nx h l -> chain nx' h l.
Proof.
  revert h. induction l as [|x l IH]; intros h E; [done|]. intros (-> & Hs & H).
  split; [done|]. split; [done|]. rewrite E by left. apply IH; [|done]. intros j Hj. apply E. by right.
Qed.

Lemma chain_slot nx h l j : chain nx h l -> j ∈ l -> slot j.
Proof.
  revert h. induction l as [|x l IH]; intros h H Hj; [by apply elem_of_nil in Hj|].
  destruct H as (_ & Hs & H). apply elem_of_cons in Hj as [->|Hj]; [done|by apply (IH _ H)].
Qed.

Lemma slot_list_length l : NoDup l -> (forall j, j ∈ l -> slot j) -> (length l <= table)%nat.
Proof.
  intros Hn Hs. replace table with (length (seqZ 0 16)) by reflexivity.
  apply submseteq_length, NoDup_submseteq; [done|]. intros j Hj. apply elem_of_seqZ.
  apply Hs in Hj. unfold slot, TASK_MAX_COUNT in Hj. lia.
Qed.

Lemma last_or_snoc l x : last_or (l ++ [x]) = x.
Proof. unfold last_or. by rewrite last_snoc. Qed.

Lemma list_end {A} (l : list A) : l = [] \/ exists l' x, l = l' ++ [x].
Proof. destruct l as [|y l' _] using rev_ind; [by left|right; eauto]. Qed.

Lemma last_or_neg nx h l : chain nx h l -> (last_or l <? 0) = bool_decide (l = []).
Proof.
  intros H. destruct (list_end l) as [->|(l' & x & ->)]; [done|].
  rewrite last_or_snoc. rewrite bool_decide_false by (by destruct l').
  apply Z.ltb_ge. assert (slot x) as [? _]; [|done]. apply (chain_slot _ _ _ _ H). set_solver.
Qed.

Lemma last_or_in l : l <> [] -> last_or l ∈ l.
Proof. destruct (list_end l) as [->|(l' & x & ->)]; [done|]. rewrite last_or_snoc. set_solver. Qed.

(** Appending an element behind the last. *)
Lemma chain_snoc nx nx' h l x :
  chain nx h l -> NoDup l -> x ∉ l -> slot x -> nx' x = -1 ->
  (l <> [] -> nx' (last_or l) = x) -> (forall j, j ∈ l -> j <> last_or l -> nx' j = nx j) ->
  chain nx' (if bool_decide (l = []) then x else h) (l ++ [x]).
Proof.
  revert h. induction l as [|y l IH]; intros h Hc Hn Hx Hs Hx1 Hlast Hrest.
  - rewrite bool_decide_true by done. done.
  - destruct Hc as (-> & Hy & Hc). rewrite bool_decide_false by done.
    apply NoDup_cons in Hn as [Hyl Hn]. split; [done|]. split; [done|].
    destruct (decide (l = [])) as [->|Hne].
    + cbn [app]. change (last_or [y]) with y in Hlast. rewrite Hlast by done. cbn. done.
    + assert (last_or (y :: l) = last_or l) as El by (unfold last_or; by destruct l).
      rewrite El in *. specialize (IH (nx y)). rewrite bool_decide_false in IH by done.
      rewrite Hrest; [|left|intros ->; apply Hyl; by apply last_or_in].
      apply IH; try done; [set_solver|by intros; apply Hlast|]. intros j Hj. apply Hrest. by right.
Qed.

(** Unlinking the element between [l1] and [l2]. *)
Lemma chain_unlink nx nx' h l1 x l2 :
  chain nx h (l1 ++ x :: l2) -> NoDup (l1 ++ x :: l2) ->
  (l1 <> [] -> nx' (last_or l1) = nx x) ->
  (forall j, j ∈ l1 ++ l2 -> j <> last_or l1 -> nx' j = nx j) ->
  chain nx' (if bool_decide (l1 = []) then nx x else h) (l1 ++ l2).
Proof.
  revert h. induction l1 as [|y l1 IH]; intros h Hc Hn Hlast Hrest.
  - rewrite bool_decide_true by done. cbn [app] in *. destruct Hc as (_ & _ & Hc).
    apply (chain_same nx); [|done]. intros j Hj. apply Hrest; [done|]. unfold last_or. cbn.
    pose proof (chain_slot _ _ _ _ Hc Hj) as [? _]. lia.
  - rewrite bool_decide_false by done. cbn [app] in *. destruct Hc as (-> & Hy & Hc).
    apply NoDup_cons in Hn as [Hyl Hn]. split; [done|]. split; [done|].
    destruct (decide (l1 = [])) as [->|Hne].
    + cbn [app] in *. change (last_or [y]) with y in *. rewrite Hlast by done. destruct Hc as (_ & _ & Hc).
      apply (chain_same nx); [|done]. intros j Hj. apply Hrest; [by right|].
      intros ->. apply Hyl. by right.
    + assert (last_or (y :: l1) = last_or l1) as El by (unfold last_or; by destruct l1).
      rewrite El in *. specialize (IH (nx y)). rewrite bool_decide_false in IH by done.
      rewrite Hrest; [|left|].
      * apply IH; try done; [by intros; apply Hlast|]. intros j Hj. apply Hrest. by right.
      * intros ->. apply Hyl. apply elem_of_app. left. by apply last_or_in.
Qed.

Lemma last_or_unlink l1 x l2 :
  NoDup (l1 ++ x :: l2) ->
  last_or (l1 ++ l2) = if decide (last_or (l1 ++ x :: l2) = x) then last_or l1 else last_or (l1 ++ x :: l2).
Proof.
  intros Hn. destruct (list_end l2) as [->|(l2' & y & ->)].
  - rewrite app_nil_r, last_or_snoc. by rewrite decide_True.
  - rewrite app_comm_cons, !app_assoc, !last_or_snoc. rewrite decide_False; [done|]. intros ->.
    rewrite app_comm_cons, app_assoc in Hn. apply NoDup_app in Hn as (_ & H & _). apply (H x); set_solver.
Qed.

(** * The queues of a state *)

Definition nx (s : tasks_state) (j : Z) : Z := sched_next (tk s j).

Definition queue (s : tasks_state) (p : Z) (l : list Z) : Prop :=
  chain (nx s) (sget (sched_ready_head s) p) l /\ sget (sched_ready_tail s) p = last_or l /\ NoDup l.

Definition ready (t : task_entry) : Prop := used t = true /\ state t = TASK_STATE_READY.

(** The queues hold the ready tasks other than the running one, each in the
    queue of its priority; slot [e] is exempt: a task whose state is being
    changed.  With [e = -1] there is no exception. *)
Record sched_ok (e : Z) (q : Z -> list Z) (s : tasks_state) : Prop := SchedOk {
  so_stuck : stuck s = false;
  so_queue p : prio_ok p -> queue s p (q p);
  so_member p i : prio_ok p -> i ∈ q p ->
    used (tk s i) = true /\ priority (tk s i) = p /\ (i <> e -> state (tk s i) = TASK_STATE_READY);
  so_ready i : slot i -> ready (tk s i) -> i <> current_task_index s -> i <> e ->
    i ∈ q (priority (tk s i));
  so_prio i : slot i -> used (tk s i) = true -> prio_ok (priority (tk s i));
}.

(** Only the links changed. *)
Record links_only (s s' : tasks_state) : Prop := LinksOnly {
  lo_task j : (tk s' j) <| sched_next := 0 |> = (tk s j) <| sched_next := 0 |>;
  lo_rest : s' = s <| tasks := tasks s' |> <| sched_ready_head := sched_ready_head s' |>
                   <| sched_ready_tail := sched_ready_tail s' |> <| stuck := stuck s' |>;
}.

Lemma links_refl s : links_only s s.
Proof. split; [done|by destruct s]. Qed.

Lemma links_trans s1 s2 s3 : links_only s1 s2 -> links_only s2 s3 -> links_only s1 s3.
Proof.
  intros [A1 A2] [B1 B2]. split; [intros j; by rewrite B1|]. rewrite B2. rewrite A2. by cbn.
Qed.

Lemma links_upd i v s : links_only s (upd i (fun t => t <| sched_next := v |>) s).
Proof. split; [|done]. intros j. rewrite tk_upd. case_decide; [|done]. by subst. Qed.

Lemma links_head p v s : links_only s (set_head p v s).
Proof. by split. Qed.

Lemma links_tail p v s : links_only s (set_tail p v s).
Proof. by split. Qed.

(** Reading a field that is not a link. *)
Lemma links_field {A} (f : task_entry -> A) s s' j :
  (forall t, f (t <| sched_next := 0 |>) = f t) -> links_only s s' -> f (tk s' j) = f (tk s j).
Proof. intros Hf [H _]. by rewrite <- (Hf (tk s' j)), <- (Hf (tk s j)), H. Qed.

Section links.
Context (s s' : tasks_state) (H : links_only s s').

Lemma lo_used j : used (tk s' j) = used (tk s j).
Proof. by apply (links_field used). Qed.
Lemma lo_state j : state (tk s' j) = state (tk s j).
Proof. by apply (links_field state). Qed.
Lemma lo_priority j : priority (tk s' j) = priority (tk s j).
Proof. by apply (links_field priority). Qed.
Lemma lo_current : current_task_index s' = current_task_index s.
Proof. rewrite (lo_rest _ _ H). done. Qed.

End links.

Lemma queue_other s s' p l :
  queue s p l -> sget (sched_ready_head s') p = sget (sched_ready_head s) p ->
  sget (sched_ready_tail s') p = sget (sched_ready_tail s) p ->
  (forall j, j ∈ l -> nx s' j = nx s j) -> queue s' p l.
Proof. intros (Hc & Ht & Hn) Eh Et En. split; [|by rewrite Et]. rewrite Eh. by apply (chain_same (nx s)). Qed.

(** ** Walking a queue *)

Lemma queued_loop_spec fuel s h l idx :
  chain (nx s) h l -> (length l < fuel)%nat ->
  queued_loop fuel s h idx = Some (bool_decide (idx ∈ l)).
Proof.
  revert h fuel. induction l as [|x l IH]; intros h fuel Hc Hl; (destruct fuel as [|fuel]; [cbn in Hl; lia|]).
  - cbn in Hc. subst h. done.
  - destruct Hc as (-> & [Hx _] & Hc). cbn [queued_loop]. rewrite (proj2 (Z.ltb_ge _ _)) by done.
    destruct (Z.eqb_spec x idx) as [->|Hne].
    + rewrite bool_decide_true by left. done.
    + fold (nx s x). rewrite (IH (nx s x)) by (done || (cbn in Hl; lia)). f_equal.
      apply bool_decide_ext. set_solver.
Qed.

Section ops.
Context (e : Z) (q : Z -> list Z) (s : tasks_state) (Hs : sched_ok e q s).

Lemma queue_fuel p : prio_ok p -> (length (q p) < S table)%nat.
Proof.
  intros Hp. destruct (so_queue _ _ _ Hs p Hp) as (Hc & _ & Hn).
  pose proof (slot_list_length _ Hn (fun j => chain_slot _ _ _ j Hc)). lia.
Qed.

Lemma member_slot p i : prio_ok p -> i ∈ q p -> slot i.
Proof. intros Hp. destruct (so_queue _ _ _ Hs p Hp) as (Hc & _). by apply (chain_slot _ _ _ _ Hc). Qed.

Lemma not_exempt i idx : slot i -> e = idx \/ e = -1 -> i <> idx -> i <> e.
Proof. intros [? _] He Hne. lia. Qed.

Lemma is_queued_spec idx p :
  slot idx -> prio_ok p -> sched_is_queued s idx p = Some (bool_decide (idx ∈ q p)).
Proof.
  intros Hi Hp. unfold sched_is_queued.
  rewrite (proj2 (in_table_slot _) Hi), (proj2 (in_prio_ok _) Hp). cbn [negb orb].
  destruct (so_queue _ _ _ Hs p Hp) as (Hc & _). apply queued_loop_spec; [done|by apply queue_fuel].
Qed.

Definition q_snoc (p i : Z) (p' : Z) : list Z := if decide (p' = p) then q p ++ [i] else q p'.

(** ** Enqueue *)

Lemma enqueue_links idx : links_only s (sched_enqueue_ready idx s).
Proof.
  unfold sched_enqueue_ready. cbv zeta. repeat case_match; try apply links_refl; try (by split).
  - eapply links_trans; [apply links_upd|]. eapply links_trans; [apply links_head|apply links_tail].
  - eapply links_trans; [apply links_upd|]. eapply links_trans; [apply links_upd|apply links_tail].
Qed.

(** A ready task joins the queue of its priority at the end, unless it is in it. *)
Lemma sched_enqueue_spec idx :
  slot idx -> ready (tk s idx) -> e = idx \/ e = -1 ->
  let p := priority (tk s idx) in
  exists q', sched_ok (-1) q' (sched_enqueue_ready idx s) /\
    forall p', prio_ok p' -> q' p' = if decide (p' = p /\ idx ∉ q p) then q p ++ [idx] else q p'.
Proof.
  intros Hi [Hu Hr] He p. pose proof (so_prio _ _ _ Hs idx Hi Hu) as Hp. fold p in Hp.
  pose proof (enqueue_links idx) as HL. revert HL. unfold sched_enqueue_ready.
  rewrite (proj2 (in_table_slot _) Hi), Hu, Hr, state_is_refl. cbn [negb orb]. cbv zeta. fold p.
  rewrite (proj2 (in_prio_ok _) Hp). cbn [negb]. rewrite (is_queued_spec idx p Hi Hp).
  destruct (decide (idx ∈ q p)) as [Hin|Hin].
  { rewrite bool_decide_true by done. intros _. exists q. split.
    - pose proof Hs as [S1 S2 S3 S4 S5]. split; try done.
      + intros p' i Hp' Hi'. destruct (S3 p' i Hp' Hi') as (? & ? & HR). split_and!; [done..|].
        intros _. destruct (decide (i = idx)) as [->|]; [done|].
        apply HR, (not_exempt i idx); [by apply (member_slot p')|done|done].
      + intros i Hi' HR Hc _. destruct (decide (i = idx)) as [->|]; [done|].
        apply S4; [done..|]. by apply (not_exempt i idx).
    - intros p' _. rewrite decide_False by tauto. done. }
  rewrite bool_decide_false by done.
  set (s1 := upd idx (fun t => t <| sched_next := -1 |>) s).
  destruct (so_queue _ _ _ Hs p Hp) as (Hc & Ht & Hn).
  change (sget (sched_ready_tail s1) p) with (sget (sched_ready_tail s) p). rewrite Ht.
  rewrite (last_or_neg _ _ _ Hc).
  match goal with |- links_only s ?x -> _ => set (s' := x) end. intros HL.
  assert (stuck s' = false) as Est by (unfold s'; case_bool_decide; apply Hs).
  assert (forall p', sget (sched_ready_tail s') p' = if decide (p' = p) then idx else sget (sched_ready_tail s) p') as Et.
  { intros p'. unfold s'. case_bool_decide; cbn; rewrite sget_sset; repeat case_decide; congruence. }
  assert (forall p', sget (sched_ready_head s') p' =
    if decide (p' = p) then (if bool_decide (q p = []) then idx else sget (sched_ready_head s) p)
    else sget (sched_ready_head s) p') as Eh.
  { intros p'. unfold s'. case_bool_decide; cbn; rewrite ?sget_sset; repeat case_decide; congruence. }
  assert (forall j, nx s' j = if decide (q p <> [] /\ j = last_or (q p)) then idx
                              else if decide (j = idx) then -1 else nx s j) as En.
  { intros j. unfold nx, s', s1. case_bool_decide as Eq.
    - rewrite decide_False by tauto. unfold set_tail, set_head.
      change (tk (update _ _ (update _ _ ?x)) j) with (tk x j). rewrite tk_upd.
      repeat case_decide; subst; done.
    - unfold set_tail. change (tk (update sched_ready_tail _ ?x) j) with (tk x j). rewrite !tk_upd.
      destruct (decide (last_or (q p) = j)) as [<-|Hne].
      + rewrite (decide_True (P := q p <> [] /\ _)) by done. done.
      + rewrite (decide_False (P := _ /\ _)) by (intros [_ ->]; done). repeat case_decide; subst; done. }
  clearbody s'. exists (q_snoc p idx). split.
  - split; [done|..].
    + intros p' Hp'. unfold q_snoc. destruct (decide (p' = p)) as [->|Hne].
      * split; [|split].
        -- rewrite Eh, decide_True by done. apply (chain_snoc (nx s)); try done.
           ++ rewrite En. case_decide as Ed; [|by rewrite decide_True].
              destruct Ed as [Hq El]. exfalso. apply Hin. rewrite El. by apply last_or_in.
           ++ intros Hq. rewrite En. by rewrite decide_True.
           ++ intros j Hj Hl. rewrite En, !decide_False; [done| |tauto]. by intros ->.
        -- rewrite Et, decide_True by done. by rewrite last_or_snoc.
        -- apply NoDup_app. split_and!; [done| |apply NoDup_singleton]. set_solver.
      * apply (queue_other s); [by apply Hs|by rewrite Eh, decide_False|by rewrite Et, decide_False|].
        intros j Hj. destruct (so_member _ _ _ Hs p' j Hp' Hj) as (_ & Ej & _). rewrite En, !decide_False; [done| |].
        -- intros ->. done.
        -- intros [Hq ->]. destruct (so_member _ _ _ Hs p (last_or (q p)) Hp (last_or_in _ Hq)) as (_ & E & _).
           congruence.
    + intros p' i Hp' Hi'. rewrite (lo_used s), (lo_priority s), (lo_state s) by done.
      unfold q_snoc in Hi'. case_decide as Ed.
      * subst p'. apply elem_of_app in Hi' as [Hi'|Hi'].
        -- destruct (so_member _ _ _ Hs p i Hp Hi') as (? & ? & HR). split_and!; [done..|]. intros _.
           apply HR, (not_exempt i idx); [by apply (member_slot p)|done|]. by intros ->.
        -- apply list_elem_of_singleton in Hi' as ->. done.
      * destruct (so_member _ _ _ Hs p' i Hp' Hi') as (? & Ei & HR). split_and!; [done..|]. intros _.
        apply HR, (not_exempt i idx); [by apply (member_slot p')|done|]. by intros ->.
    + intros i Hi' HR Hc' _. unfold ready in HR. rewrite (lo_used s), (lo_state s) in HR by done.
      rewrite (lo_current s) in Hc' by done. rewrite (lo_priority s) by done. unfold q_snoc.
      destruct (decide (i = idx)) as [->|Hne].
      * fold p. rewrite decide_True by done. set_solver.
      * assert (i <> e) as Hie by (by apply (not_exempt i idx)).
        pose proof (so_ready _ _ _ Hs i Hi' HR Hc' Hie) as Hq. case_decide as Ed; [|done].
        rewrite Ed in Hq. set_solver.
    + intros i Hi'. rewrite (lo_used s), (lo_priority s) by done. by apply Hs.
  - intros p' _. unfold q_snoc. repeat case_decide; try done; tauto.
Qed.

End ops.

(** ** Removal *)

(** The body of the loop at the element that is removed. *)
Definition unlink (s : tasks_state) (prio idx prev : Z) : tasks_state :=
  let s1 := if prev <? 0 then set_head prio (nx s idx) s
            else upd prev (fun t => t <| sched_next := nx s idx |>) s in
  let s1 := if sget (sched_ready_tail s1) prio =? idx then set_tail prio prev s1 else s1 in
  upd idx (fun t => t <| sched_next := -1 |>) s1.

Lemma remove_loop_spec fuel s prio idx l1 cur l2 :
  chain (nx s) cur l2 -> (length l2 < fuel)%nat ->
  (idx ∉ l2 /\ remove_loop fuel s prio idx (last_or l1) cur = upd idx (fun t => t <| sched_next := -1 |>) s) \/
  exists m l3, l2 = m ++ idx :: l3 /\
    remove_loop fuel s prio idx (last_or l1) cur = unlink s prio idx (last_or (l1 ++ m)).
Proof.
  revert fuel l1 cur. induction l2 as [|x l2 IH]; intros fuel l1 cur Hc Hl;
    (destruct fuel as [|fuel]; [cbn in Hl; lia|]).
  - cbn in Hc. subst cur. left. split; [apply not_elem_of_nil|done].
  - destruct Hc as (-> & [Hx _] & Hc). cbn [remove_loop]. rewrite (proj2 (Z.ltb_ge _ _)) by done.
    destruct (Z.eqb_spec x idx) as [->|Hne].
    + right. exists [], l2. rewrite app_nil_r. done.
    + fold (nx s x). pose proof (IH fuel (l1 ++ [x]) (nx s x) Hc ltac:(cbn in Hl; lia)) as H.
      rewrite last_or_snoc in H. destruct H as [[Hn ->]|(m & l3 & -> & ->)].
      * left. split; [set_solver|done].
      * right. exists (x :: m), l3. split; [done|]. by rewrite <- app_assoc.
Qed.

Lemma unlink_links s prio idx prev : links_only s (unlink s prio idx prev).
Proof.
  unfold unlink. cbv zeta. case_match; case_match;
    repeat (eapply links_trans; [|apply links_upd]); try apply links_refl;
    try (eapply links_trans; [|apply links_tail]); try apply links_head; apply links_upd.
Qed.

Lemma filter_ne_notin (l : list Z) x : x ∉ l -> filter (fun y => y <> x) l = l.
Proof.
  induction l as [|y l IH]; intros H; [done|]. rewrite filter_cons_True by set_solver.
  f_equal. apply IH. set_solver.
Qed.

Lemma filter_ne_split (l1 l2 : list Z) x :
  NoDup (l1 ++ x :: l2) -> filter (fun y => y <> x) (l1 ++ x :: l2) = l1 ++ l2.
Proof.
  intros Hn. apply NoDup_app in Hn as (_ & H1 & H2). apply NoDup_cons in H2 as [H2 _].
  rewrite filter_app, filter_cons_False by tauto. rewrite !filter_ne_notin; [done|done|].
  intros Hx. apply (H1 x Hx). left.
Qed.

Definition q_remove (q : Z -> list Z) (i p : Z) : list Z := filter (fun y => y <> i) (q p).

Section remove.
Context (q : Z -> list Z) (s : tasks_state) (idx : Z) (Hs : sched_ok idx q s).
Context (Hi : slot idx) (Hu : used (tk s idx) = true).
Local Notation p := (priority (tk s idx)).

Lemma q_remove_other p' : prio_ok p' -> p' <> p -> q_remove q idx p' = q p'.
Proof.
  intros Hp' Hne. apply filter_ne_notin. intros Hin.
  destruct (so_member _ _ _ Hs p' idx Hp' Hin) as (_ & E & _). congruence.
Qed.

(** What is left to show about the queue of the removed task. *)
Lemma remove_intro s' :
  links_only s s' -> stuck s' = false -> queue s' p (q_remove q idx p) ->
  (forall p', p' <> p -> sget (sched_ready_head s') p' = sget (sched_ready_head s) p' /\
                         sget (sched_ready_tail s') p' = sget (sched_ready_tail s) p') ->
  (forall j, j ∉ q p -> j <> idx -> nx s' j = nx s j) ->
  sched_ok idx (q_remove q idx) s'.
Proof.
  intros HL Est Hq Hother Hnx. split; [done|..].
  - intros p' Hp'. destruct (decide (p' = p)) as [->|Hne]; [done|].
    rewrite q_remove_other by done. destruct (Hother p' Hne).
    apply (queue_other s); [by apply Hs|done|done|]. intros j Hj.
    destruct (so_member _ _ _ Hs p' j Hp' Hj) as (_ & Ej & _). apply Hnx.
    + intros Hj'. destruct (so_member _ _ _ Hs p j) as (_ & Ej' & _); [by apply Hs|done|congruence].
    + intros ->. done.
  - intros p' i Hp' Hin. apply list_elem_of_filter in Hin as [Hne Hin].
    rewrite (lo_used s), (lo_priority s), (lo_state s) by done. by apply Hs.
  - intros i Hi' HR Hc Hne. unfold ready in HR. rewrite (lo_used s), (lo_state s) in HR by done.
    rewrite (lo_current s) in Hc by done. rewrite (lo_priority s) by done.
    apply list_elem_of_filter. split; [done|]. by apply Hs.
  - intros i Hi'. rewrite (lo_used s), (lo_priority s) by done. by apply Hs.
Qed.

Lemma unlink_stuck prio prev : stuck (unlink s prio idx prev) = stuck s.
Proof. unfold unlink. cbv zeta. by repeat case_match. Qed.

Lemma unlink_spec l1 l2 :
  q p = l1 ++ idx :: l2 -> sched_ok idx (q_remove q idx) (unlink s p idx (last_or l1)).
Proof.
  intros Eq. pose proof (so_prio _ _ _ Hs idx Hi Hu) as Hp.
  destruct (so_queue _ _ _ Hs p Hp) as (Hc & Ht & Hn). rewrite Eq in Hc, Ht, Hn.
  assert ((last_or l1 <? 0) = bool_decide (l1 = [])) as Eneg.
  { destruct (list_end l1) as [->|(l' & x & ->)]; [done|]. rewrite last_or_snoc.
    rewrite bool_decide_false by (by destruct l'). apply Z.ltb_ge.
    assert (slot x) as [? _]; [|done]. apply (chain_slot _ _ _ _ Hc). set_solver. }
  set (s' := unlink s p idx (last_or l1)).
  assert (forall p', sget (sched_ready_head s') p' =
    if decide (p' = p) then (if bool_decide (l1 = []) then nx s idx else sget (sched_ready_head s) p)
    else sget (sched_ready_head s) p') as Eh.
  { intros p'. unfold s', unlink. cbv zeta. rewrite Eneg.
    destruct (bool_decide (l1 = [])); case_match; cbn; rewrite ?sget_sset; repeat case_decide; congruence. }
  assert (forall p', sget (sched_ready_tail s') p' =
    if decide (p' = p) then (if decide (last_or (l1 ++ idx :: l2) = idx) then last_or l1
                             else last_or (l1 ++ idx :: l2))
    else sget (sched_ready_tail s) p') as Et.
  { intros p'. unfold s', unlink. cbv zeta. rewrite Eneg.
    destruct (bool_decide (l1 = []));
      (match goal with |- context [sget (sched_ready_tail ?x) p =? idx] =>
         change (sget (sched_ready_tail x) p) with (sget (sched_ready_tail s) p) end);
      rewrite Ht; destruct (Z.eqb_spec (last_or (l1 ++ idx :: l2)) idx) as [El|El];
      cbn; rewrite ?sget_sset; repeat case_decide; congruence. }
  assert (forall j, nx s' j = if decide (j = idx) then -1
                              else if decide (l1 <> [] /\ j = last_or l1) then nx s idx else nx s j) as En.
  { intros j. unfold s', unlink. cbv zeta. rewrite Eneg. unfold nx at 1.
    rewrite tk_upd. destruct (decide (idx = j)) as [<-|Hne]; [by rewrite decide_True|].
    rewrite (decide_False (P := j = idx)) by congruence.
    match goal with |- sched_next (tk (if ?b then set_tail p ?v ?x else ?x) j) = _ =>
      transitivity (sched_next (tk x j)); [by destruct b|] end.
    case_bool_decide as El.
    - rewrite decide_False by tauto. done.
    - rewrite tk_upd. destruct (decide (last_or l1 = j)) as [<-|Hj].
      + by rewrite decide_True.
      + rewrite decide_False; [done|]. intros [_ ->]. done. }
  apply remove_intro.
  - apply unlink_links.
  - unfold s'. rewrite unlink_stuck. apply Hs.
  - unfold q_remove. rewrite Eq, filter_ne_split by done. split; [|split].
    + rewrite Eh, decide_True by done. apply (chain_unlink (nx s) _ _ _ idx); try done.
      * intros Hl. rewrite En. rewrite decide_False, decide_True; [done|done|]. intros E.
        apply NoDup_app in Hn as (_ & H & _). apply (H idx); [|left]. rewrite <- E. by apply last_or_in.
      * intros j Hj Hl. rewrite En, !decide_False; [done|tauto|]. intros ->.
        apply elem_of_app in Hj as [Hj|Hj]; apply NoDup_app in Hn as (_ & H1 & H2).
        -- apply (H1 idx Hj). left.
        -- apply NoDup_cons in H2 as [H2 _]. done.
    + rewrite Et, decide_True by done. symmetry. by apply last_or_unlink.
    + apply NoDup_app in Hn as (? & H1 & H2). apply NoDup_cons in H2 as [_ H2].
      apply NoDup_app. split_and!; [done| |done]. intros x Hx Hx'. apply (H1 x Hx). by right.
  - intros p' Hne. rewrite Eh, Et, !decide_False by done. done.
  - intros j Hj Hne. rewrite En, decide_False by done. rewrite decide_False; [done|].
    intros [Hl ->]. apply Hj. rewrite Eq. apply elem_of_app. left. by apply last_or_in.
Qed.

Lemma remove_spec :
  sched_ok idx (q_remove q idx) (sched_remove_from_ready idx s) /\
  links_only s (sched_remove_from_ready idx s).
Proof.
  pose proof (so_prio _ _ _ Hs idx Hi Hu) as Hp.
  unfold sched_remove_from_ready. rewrite (proj2 (in_table_slot _) Hi), Hu. cbn [negb orb]. cbv zeta.
  rewrite (proj2 (in_prio_ok _) Hp). cbn [negb].
  destruct (so_queue _ _ _ Hs p Hp) as (Hc & Ht & Hn).
  destruct (remove_loop_spec (S table) s p idx [] _ _ Hc (queue_fuel _ _ _ Hs p Hp))
    as [[Hin E]|(l1 & l2 & Eq & E)]; change (last_or []) with (-1) in E; rewrite E.
  - split; [|apply links_upd]. apply remove_intro; [apply links_upd|apply (so_stuck _ _ _ Hs)|..].
    + unfold q_remove. rewrite filter_ne_notin by done.
      apply (queue_other s); [by apply Hs|done|done|]. intros j Hj. unfold nx.
      rewrite tk_upd_ne; [done|]. by intros ->.
    + done.
    + intros j _ Hne. unfold nx. by rewrite tk_upd_ne.
  - split; [|apply unlink_links]. by apply unlink_spec with l2.
Qed.

End remove.

Lemma remove_nx q s i :
  sched_ok i q s -> slot i -> used (tk s i) = true -> nx (sched_remove_from_ready i s) i = -1.
Proof.
  intros Hs Hi Hu. pose proof (so_prio _ _ _ Hs i Hi Hu) as Hp. unfold sched_remove_from_ready.
  rewrite (proj2 (in_table_slot _) Hi), Hu. cbn [negb orb]. cbv zeta.
  rewrite (proj2 (in_prio_ok _) Hp). cbn [negb].
  destruct (so_queue _ _ _ Hs _ Hp) as (Hc & _).
  destruct (remove_loop_spec (S table) s (priority (tk s i)) i [] _ _ Hc (queue_fuel _ _ _ Hs _ Hp))
    as [[Hin E]|(l1 & l2 & Eq & E)]; change (last_or []) with (-1) in E; rewrite E; unfold nx;
    unfold unlink; cbv zeta; by rewrite tk_upd_eq.
Qed.

(** ** Dequeue *)

Lemma chain_head nx h l : chain nx h l -> h = match l with [] => -1 | x :: _ => x end.
Proof. destruct l as [|x l]; [done|]. by intros [-> _]. Qed.

(** Taking the head of a queue is removing it. *)
Lemma dequeue_unlink e q s p x l :
  sched_ok e q s -> prio_ok p -> q p = x :: l ->
  sched_dequeue_ready p s = (unlink s p x (-1), x).
Proof.
  intros Hs Hp Eq. destruct (so_queue _ _ _ Hs p Hp) as (Hc & Ht & Hn). rewrite Eq in Hc, Ht, Hn.
  destruct Hc as (Eh & [Hx Hx'] & Hc). unfold sched_dequeue_ready, unlink.
  rewrite (proj2 (in_prio_ok _) Hp). cbn [negb]. rewrite Eh, (proj2 (Z.ltb_ge x 0)) by done.
  change (-1 <? 0) with true. cbv zeta iota. f_equal. fold (nx s x).
  change (sget (sched_ready_tail (set_head p (nx s x) s)) p) with (sget (sched_ready_tail s) p).
  rewrite Ht. cbn [set_head sched_ready_head update]. rewrite sget_sset_eq.
  rewrite (chain_head _ _ _ Hc). destruct l as [|y l]; cbn.
  - change (last_or [x]) with x. by rewrite Z.eqb_refl.
  - destruct Hc as (_ & [Hy _] & _). rewrite (proj2 (Z.ltb_ge y 0)) by done.
    rewrite (proj2 (Z.eqb_neq _ _)); [done|]. intros E. apply NoDup_cons in Hn as [Hn _].
    apply Hn. rewrite <- E. change (last_or (x :: y :: l)) with (last_or (y :: l)). by apply last_or_in.
Qed.

(** The queue that is served: the first that is not empty. *)
Lemma select_spec e q s :
  sched_ok e q s ->
  (select_next_ready_task s = -1 /\ forall p, prio_ok p -> q p = []) \/
  exists p x l, prio_ok p /\ q p = x :: l /\ select_next_ready_task s = x /\
    forall p', 0 <= p' < p -> q p' = [].
Proof.
  intros Hs. unfold select_next_ready_task.
  assert (forall p, prio_ok p -> (0 <=? sget (sched_ready_head s) p) = negb (bool_decide (q p = []))) as Hh.
  { intros p Hp. destruct (so_queue _ _ _ Hs p Hp) as (Hc & _). rewrite (chain_head _ _ _ Hc).
    destruct (q p) as [|x l]; [done|]. destruct Hc as (_ & [Hx _] & _).
    rewrite bool_decide_false by done. by apply Z.leb_le. }
  unfold prio_ok, SCHED_PRIO_COUNT, TASK_PRIORITY_HIGH in *. change (Z.to_nat 4) with 4%nat.
  destruct (find_first _ 4 0) as [p|] eqn:E.
  - right. apply find_first_Some in E as (Hp & HP & Hmin). change (0 + Z.of_nat 4) with 4 in Hp.
    rewrite Hh in HP by done. apply negb_true_iff, bool_decide_eq_false in HP.
    destruct (q p) as [|x l] eqn:Eq; [done|]. exists p, x, l. split_and!; [lia..|done| |].
    + destruct (so_queue _ _ _ Hs p Hp) as (Hc & _). rewrite Eq in Hc. by destruct Hc as [-> _].
    + intros p' Hp'. specialize (Hmin p' Hp'). rewrite Hh in Hmin by lia.
      apply negb_false_iff, bool_decide_eq_true in Hmin. done.
  - left. split; [done|]. rewrite find_first_None in E. change (0 + Z.of_nat 4) with 4 in E.
    intros p Hp. specialize (E p Hp). rewrite Hh in E by done.
    apply negb_false_iff, bool_decide_eq_true in E. done.
Qed.

(** ** Changes that are not links *)

(** A change of the task table and the other variables that keeps what the
    queues depend on, but for the exempt slot. *)
Lemma sched_ok_change e q s s' :
  sched_ok e q s -> sched_ready_head s' = sched_ready_head s ->
  sched_ready_tail s' = sched_ready_tail s -> stuck s' = stuck s ->
  (forall j, slot j -> nx s' j = nx s j /\ used (tk s' j) = used (tk s j) /\
     priority (tk s' j) = priority (tk s j) /\ (j <> e -> state (tk s' j) = state (tk s j))) ->
  (forall j, slot j -> j = current_task_index s -> j <> current_task_index s' -> j <> e ->
     ready (tk s j) -> j ∈ q (priority (tk s j))) ->
  sched_ok e q s'.
Proof.
  intros [S1 S2 S3 S4 S5] Eh Et Es Hj Hcur. split.
  - by rewrite Es.
  - intros p Hp. apply (queue_other s); [by apply S2|by rewrite Eh|by rewrite Et|].
    intros j Hin. destruct (S2 p Hp) as (Hc & _). by destruct (Hj j (chain_slot _ _ _ _ Hc Hin)).
  - intros p i Hp Hin. destruct (S2 p Hp) as (Hc & _).
    destruct (Hj i (chain_slot _ _ _ _ Hc Hin)) as (_ & -> & -> & Hst).
    destruct (S3 p i Hp Hin) as (? & ? & HR). split_and!; [done..|]. intros Hne. rewrite Hst; auto.
  - intros i Hi [HU HR] Hc Hne. destruct (Hj i Hi) as (_ & Eu & Ep & Hst). rewrite Ep.
    rewrite Eu in HU. rewrite Hst in HR by done. assert (ready (tk s i)) as HR' by done.
    destruct (decide (i = current_task_index s)); [by apply Hcur|by apply S4].
  - intros i Hi. destruct (Hj i Hi) as (_ & -> & -> & _). by apply S5.
Qed.

(** The exemption of a slot. *)
Lemma sched_ok_open e q s : sched_ok (-1) q s -> sched_ok e q s.
Proof.
  intros [S1 S2 S3 S4 S5]. split; try done.
  - intros p i Hp Hin. destruct (S3 p i Hp Hin) as (? & ? & HR). split_and!; [done..|]. intros _.
    apply HR. destruct (S2 p Hp) as (Hc & _). pose proof (chain_slot _ _ _ _ Hc Hin) as [? _]. lia.
  - intros i Hi HR Hc Hne. apply S4; [done..|]. destruct Hi as [? _]. lia.
Qed.

Lemma sched_ok_close e q s :
  sched_ok e q s -> (forall p, prio_ok p -> e ∉ q p) ->
  (ready (tk s e) -> e = current_task_index s \/ ~ slot e) -> sched_ok (-1) q s.
Proof.
  intros [S1 S2 S3 S4 S5] Hn Hr. split; try done.
  - intros p i Hp Hin. destruct (S3 p i Hp Hin) as (? & ? & HR). split_and!; [done..|]. intros _.
    apply HR. intros ->. by apply (Hn p).
  - intros i Hi HR Hc _. apply S4; [done..|]. intros ->. destruct (Hr HR); done.
Qed.

(** * The queues as a function of the state *)

Fixpoint walk (fuel : nat) (s : tasks_state) (cur : Z) : list Z :=
  match fuel with
  | O => []
  | S fuel' => if cur <? 0 then [] else cur :: walk fuel' s (nx s cur)
  end.

Definition ready_queue (s : tasks_state) (p : Z) : list Z := walk table s (sget (sched_ready_head s) p).

Lemma walk_chain fuel s h l : chain (nx s) h l -> (length l <= fuel)%nat -> walk fuel s h = l.
Proof.
  revert fuel h. induction l as [|x l IH]; intros fuel h Hc Hl.
  - cbn in Hc. subst h. by destruct fuel.
  - destruct fuel as [|fuel]; [cbn in Hl; lia|]. destruct Hc as (-> & [Hx _] & Hc). cbn [walk].
    rewrite (proj2 (Z.ltb_ge _ _)) by done. f_equal. apply IH; [done|]. cbn in Hl. lia.
Qed.

Lemma walk_ext fuel s s' h : (forall j, nx s' j = nx s j) -> walk fuel s' h = walk fuel s h.
Proof.
  intros E. revert h. induction fuel as [|fuel IH]; intros h; cbn [walk]; [done|].
  rewrite E. case_match; [done|]. by rewrite IH.
Qed.

Lemma ready_queue_eq e q s p : sched_ok e q s -> prio_ok p -> ready_queue s p = q p.
Proof.
  intros Hs Hp. apply walk_chain.
  - by destruct (so_queue _ _ _ Hs p Hp).
  - pose proof (queue_fuel _ _ _ Hs p Hp). lia.
Qed.

(** Tasks only joined the queues, at their ends. *)
Definition grows (s s' : tasks_state) : Prop :=
  forall p, prio_ok p -> ready_queue s p `prefix_of` ready_queue s' p.

Lemma grows_trans s1 s2 s3 : grows s1 s2 -> grows s2 s3 -> grows s1 s3.
Proof. intros H1 H2 p Hp. by transitivity (ready_queue s2 p); [apply H1|apply H2]. Qed.

Lemma grows_same s s' :
  sched_ready_head s' = sched_ready_head s ->
  (forall j, sched_next (tk s' j) = sched_next (tk s j)) -> grows s s'.
Proof.
  intros Eh En p _. unfold ready_queue. rewrite Eh, (walk_ext _ s s') by done. reflexivity.
Qed.

Lemma grows_enqueue e q s i :
  sched_ok e q s -> slot i -> ready (tk s i) -> e = i \/ e = -1 -> grows s (sched_enqueue_ready i s).
Proof.
  intros Hs Hi Hr He p Hp. destruct (sched_enqueue_spec e q s Hs i Hi Hr He) as (q' & Hs' & Eq).
  rewrite (ready_queue_eq e q s), (ready_queue_eq _ _ _ _ Hs'), Eq by done.
  destruct (decide (_ /\ _)) as [[-> _]|_]; [by exists [i]|reflexivity].
Qed.
