(* ===== verification/TaskInv.v ===== *)
(** The invariant of the task table: queues, identifiers, the running task, the
    idle task and the signals that cannot be blocked; every operation of
    [Task.v] keeps it. *)
From S2P Require Import Prelude.
From S2P Require Import Mmap.
From S2P Require Import Paging.
From S2P Require Import Task.
From S2P Require Import Sched.
From Stdlib Require Import ZArith Lia.
From stdpp Require Import base numbers list gmap.

Open Scope Z_scope.
Open Scope lyth_scope.

(** * The invariant *)

(** [SIGKILL] is neither blocked nor caught. *)
Definition kill_safe (t : task_entry) : Prop :=
  Z.testbit (signal_mask (sigs t)) LYTH_SIGKILL = false /\
  sget (signal_handlers (sigs t)) LYTH_SIGKILL = LYTH_SIG_DFL.

(** A state in which the idle task can be. *)
Definition alive_idle (s : tasks_state) (t : task_entry) : Prop :=
  used t = true /\ id t = idle_task_id s /\ priority t = TASK_PRIORITY_IDLE /\
  user_mode (img t) = false /\
  (state t = TASK_STATE_READY \/ state t = TASK_STATE_RUNNING).

Record core (s : tasks_state) : Prop := Core {
  c_id i : slot i -> used (tk s i) = true -> 0 < id (tk s i) < next_task_id s;
  c_uniq i j : slot i -> slot j -> used (tk s i) = true -> used (tk s j) = true ->
    id (tk s i) = id (tk s j) -> i = j;
  c_run i : slot i -> used (tk s i) = true -> state (tk s i) = TASK_STATE_RUNNING ->
    i = current_task_index s;
  c_idle : exists k, slot k /\ alive_idle s (tk s k);
  c_kill i : slot i -> used (tk s i) = true -> kill_safe (tk s i);
}.

(** There is no running task, or it is live. *)
Definition cur_ok (s : tasks_state) : Prop :=
  current_task_index s = -1 \/
  (slot (current_task_index s) /\ used (tk s (current_task_index s)) = true /\
   state (tk s (current_task_index s)) <> TASK_STATE_FREE /\
   state (tk s (current_task_index s)) <> TASK_STATE_ZOMBIE).

(** The queues and the table agree, slot [e] apart. *)
Definition good (e : Z) (s : tasks_state) : Prop := (exists q, sched_ok e q s) /\ core s.

(** The same for given queues. *)
Definition good_q (e : Z) (q : Z -> list Z) (s : tasks_state) : Prop := sched_ok e q s /\ core s.

Lemma good_q_good e q s : good_q e q s -> good e s.
Proof. intros [Hq C]. split; [by exists q|done]. Qed.

Lemma good_good_q e s : good e s -> exists q, good_q e q s.
Proof. intros [[q Hq] C]. by exists q. Qed.

(** The same with slot [e] in no queue. *)
Definition good_out (e : Z) (q : Z -> list Z) (s : tasks_state) : Prop :=
  good_q e q s /\ forall p, prio_ok p -> e ∉ q p.

Definition inv (s : tasks_state) : Prop := good (-1) s /\ cur_ok s.

(** * Changes of one slot *)

(** Only slot [i] of the table, and variables the invariant does not depend on,
    changed. *)
Record elsewhere (i : Z) (s s' : tasks_state) : Prop := Elsewhere {
  el_task j : j <> i -> tk s' j = tk s j;
  el_head : sched_ready_head s' = sched_ready_head s;
  el_tail : sched_ready_tail s' = sched_ready_tail s;
  el_stuck : stuck s' = stuck s;
  el_current : current_task_index s' = current_task_index s;
  el_idle : idle_task_id s' = idle_task_id s;
}.

Lemma elsewhere_upd i f s : elsewhere i s (upd i f s).
Proof. split; try done. intros j Hj. by apply tk_upd_ne. Qed.

Lemma elsewhere_refl i s : elsewhere i s s.
Proof. by split. Qed.

Lemma elsewhere_trans i s1 s2 s3 : elsewhere i s1 s2 -> elsewhere i s2 s3 -> elsewhere i s1 s3.
Proof. intros [A1 A2 A3 A4 A5 A6] [B1 B2 B3 B4 B5 B6]. split; try congruence. intros j Hj. by rewrite B1, A1. Qed.

Lemma elsewhere_emit i ef s : elsewhere i s (emit ef s).
Proof. by split. Qed.

Lemma tk_emit ef s j : tk (emit ef s) j = tk s j.
Proof. done. Qed.

Lemma core_replace i s s' :
  core s -> elsewhere i s s' -> next_task_id s <= next_task_id s' ->
  (used (tk s' i) = true ->
     0 < id (tk s' i) < next_task_id s' /\
     (forall j, slot j -> j <> i -> used (tk s j) = true -> id (tk s j) <> id (tk s' i)) /\
     (state (tk s' i) = TASK_STATE_RUNNING -> i = current_task_index s) /\ kill_safe (tk s' i)) ->
  (alive_idle s (tk s i) -> alive_idle s' (tk s' i)) ->
  core s'.
Proof.
  intros [C1 C2 C3 (k & Hk & C4) C5] [E1 E2 E3 E4 E5 E6] Hnext Hi Hidle. split.
  - intros j Hj Hu. destruct (decide (j = i)) as [->|Hne]; [by apply Hi|]. rewrite E1 in * by done.
    specialize (C1 j Hj Hu). lia.
  - intros j l Hj Hl Huj Hul E. destruct (decide (j = i)) as [->|Hne], (decide (l = i)) as [->|Hnl]; try done.
    + rewrite (E1 l Hnl) in *. destruct (Hi Huj) as (_ & Hf & _). by destruct (Hf l Hl Hnl Hul).
    + rewrite (E1 j Hne) in *. destruct (Hi Hul) as (_ & Hf & _). by destruct (Hf j Hj Hne Huj).
    + rewrite !E1 in * by done. by apply C2.
  - intros j Hj Hu Hr. rewrite E5. destruct (decide (j = i)) as [->|Hne].
    + by apply Hi.
    + rewrite E1 in * by done. by apply C3.
  - exists k. split; [done|]. destruct (decide (k = i)) as [->|Hne]; [by apply Hidle|].
    rewrite E1 by done. unfold alive_idle in *. by rewrite E6.
  - intros j Hj Hu. destruct (decide (j = i)) as [->|Hne]; [by apply Hi|].
    rewrite E1 in * by done. by apply C5.
Qed.

(** The slot that is in no queue may change at will. *)
Lemma sched_ok_replace i q s s' :
  sched_ok i q s -> (forall p, prio_ok p -> i ∉ q p) -> elsewhere i s s' ->
  (used (tk s' i) = true -> prio_ok (priority (tk s' i))) -> sched_ok i q s'.
Proof.
  intros [S1 S2 S3 S4 S5] Hn [E1 E2 E3 E4 E5 E6] Hp. split.
  - by rewrite E4.
  - intros p Hpp. apply (queue_other s); [by apply S2|by rewrite E2|by rewrite E3|].
    intros j Hj. unfold nx. rewrite E1; [done|]. intros ->. by apply (Hn p).
  - intros p j Hpp Hj. rewrite E1; [by apply S3|]. intros ->. by apply (Hn p).
  - intros j Hj HR Hc Hne. rewrite E1 in * by done. rewrite E5 in Hc. by apply S4.
  - intros j Hj. destruct (decide (j = i)) as [->|Hne]; [done|]. rewrite E1 by done. by apply S5.
Qed.

(** ** Changes that keep what the invariant reads *)

Definition quiet (t t' : task_entry) : Prop :=
  used t' = used t /\ id t' = id t /\ priority t' = priority t /\ state t' = state t /\
  sched_next t' = sched_next t /\ user_mode (img t') = user_mode (img t) /\
  (kill_safe t -> kill_safe t').

Lemma quiet_refl t : quiet t t.
Proof. by split_and!. Qed.

(** The state of slot [i] changes and nothing else that the invariant reads. *)
Definition restate (t t' : task_entry) : Prop :=
  used t' = used t /\ id t' = id t /\ priority t' = priority t /\ sched_next t' = sched_next t /\
  user_mode (img t') = user_mode (img t) /\ (kill_safe t -> kill_safe t').

Lemma quiet_restate t t' : quiet t t' -> restate t t'.
Proof. unfold quiet, restate. tauto. Qed.

(** Variables the invariant does not read, and [next_task_id] growing. *)
Record globals (s s' : tasks_state) : Prop := Globals {
  gl_tasks : tasks s' = tasks s;
  gl_head : sched_ready_head s' = sched_ready_head s;
  gl_tail : sched_ready_tail s' = sched_ready_tail s;
  gl_stuck : stuck s' = stuck s;
  gl_current : current_task_index s' = current_task_index s;
  gl_idle : idle_task_id s' = idle_task_id s;
  gl_next : next_task_id s <= next_task_id s';
}.

Lemma globals_elsewhere i s s' : globals s s' -> elsewhere i s s'.
Proof. intros []. split; try done. intros j _. unfold tk. congruence. Qed.

Lemma core_globals s s' : globals s s' -> core s -> core s'.
Proof.
  intros [G1 G2 G3 G4 G5 G6 G7] [C1 C2 C3 C4 C5].
  assert (forall j, tk s' j = tk s j) as E by (intros j; unfold tk; by rewrite G1).
  split.
  - intros i Hi. rewrite E. intros Hu. specialize (C1 i Hi Hu). lia.
  - intros i j. rewrite !E. by apply C2.
  - intros i. rewrite E, G5. by apply C3.
  - destruct C4 as (k & Hk & Ha). exists k. rewrite E. unfold alive_idle in *. by rewrite G6.
  - intros i. rewrite E. by apply C5.
Qed.

Lemma good_globals e s s' : globals s s' -> good e s -> good e s'.
Proof.
  intros G [[q Hq] C]. split; [|by apply (core_globals s)]. exists q.
  assert (forall j, tk s' j = tk s j) as E by (intros j; unfold tk; by rewrite (gl_tasks _ _ G)).
  apply (sched_ok_change e q s); try apply G; [done| |].
  - intros j _. unfold nx. by rewrite !E.
  - intros j _ -> Hne. by rewrite (gl_current _ _ G) in Hne.
Qed.

Lemma cur_globals s s' : globals s s' -> cur_ok s -> cur_ok s'.
Proof.
  intros G. assert (forall j, tk s' j = tk s j) as E by (intros j; unfold tk; by rewrite (gl_tasks _ _ G)).
  unfold cur_ok. by rewrite (gl_current _ _ G), E.
Qed.

Lemma globals_emit ef s : globals s (emit ef s).
Proof. by split; cbn. Qed.

(** ** A change of the state of one task *)

Section restate.
Context (i : Z) (f : task_entry -> task_entry) (s : tasks_state).
Context (Hf : restate (tk s i) (f (tk s i))).
Context (Hrun : used (tk s i) = true -> state (f (tk s i)) = TASK_STATE_RUNNING -> i = current_task_index s).
Context (Hidle : alive_idle s (tk s i) ->
  state (f (tk s i)) = TASK_STATE_READY \/ state (f (tk s i)) = TASK_STATE_RUNNING).

Lemma core_restate : slot i -> core s -> core (upd i f s).
Proof.
  destruct Hf as (F1 & F2 & F3 & F4 & Fm & F5). intros Hi C.
  apply (core_replace i s); [done|apply elsewhere_upd|cbn; lia|..]; rewrite tk_upd_eq.
  - rewrite F1, F2. intros Hu. split_and!.
    + by apply (c_id _ C).
    + by apply (c_id _ C).
    + intros j Hj Hne Huj E. apply Hne. by apply (c_uniq _ C).
    + by apply Hrun.
    + by apply F5, (c_kill _ C).
  - intros Ha. pose proof (Hidle Ha). unfold alive_idle in *. rewrite F1, F2, F3, Fm. cbn.
    destruct Ha as (? & ? & ? & ? & ?). tauto.
Qed.

Lemma good_restate : slot i -> good i s -> good i (upd i f s).
Proof.
  intros Hi [[q Hq] C]. split; [|by apply core_restate]. exists q.
  destruct Hf as (F1 & F2 & F3 & F4 & Fm & F5).
  apply (sched_ok_change i q s); try done.
  intros j Hj. unfold nx. rewrite tk_upd. case_decide as E; [|done]. subst j. split_and!; done.
Qed.

End restate.

Lemma good_quiet e i f s : slot i -> quiet (tk s i) (f (tk s i)) -> good e s -> good e (upd i f s).
Proof.
  intros Hi Hq [[q Hs] C]. pose proof (quiet_restate _ _ Hq) as Hre.
  destruct Hq as (F1 & F2 & F3 & F4 & F5 & Fm & F6). split.
  - exists q. apply (sched_ok_change e q s); try done.
    intros j Hj. unfold nx. rewrite tk_upd. case_decide as E; [|done]. subst j. by split_and!.
  - apply core_restate; try done.
    + rewrite F4. intros Hu Hr. by apply (c_run _ C).
    + rewrite F4. by intros (_ & _ & _ & _ & ?).
Qed.

Lemma cur_quiet i f s : quiet (tk s i) (f (tk s i)) -> cur_ok s -> cur_ok (upd i f s).
Proof.
  intros (F1 & _ & _ & F4 & _). unfold cur_ok. cbn. rewrite tk_upd. case_decide as E; [|done].
  rewrite <- E, F1, F4. done.
Qed.

Lemma inv_quiet i f s : slot i -> quiet (tk s i) (f (tk s i)) -> inv s -> inv (upd i f s).
Proof. intros Hi Hq [Hg Hc]. split; [by apply good_quiet|by apply cur_quiet]. Qed.

Lemma inv_globals s s' : globals s s' -> inv s -> inv s'.
Proof. intros G [Hg Hc]. split; [by apply (good_globals _ s)|by apply (cur_globals s)]. Qed.

Lemma inv_emit ef s : inv s -> inv (emit ef s).
Proof. apply inv_globals, globals_emit. Qed.

(** * The primitives *)

Lemma links_core s s' : links_only s s' -> core s -> core s'.
Proof.
  intros L [C1 C2 C3 C4 C5]. pose proof (lo_rest _ _ L) as E.
  assert (forall j, id (tk s' j) = id (tk s j)) as Ei by (intros; by apply (links_field id)).
  assert (forall j, sigs (tk s' j) = sigs (tk s j)) as Es by (intros; by apply (links_field sigs)).
  assert (forall j, img (tk s' j) = img (tk s j)) as Em by (intros; by apply (links_field img)).
  assert (next_task_id s' = next_task_id s) as En by (by rewrite E).
  assert (idle_task_id s' = idle_task_id s) as Ed by (by rewrite E).
  split.
  - intros i. rewrite (lo_used _ _ L), Ei, En. by apply C1.
  - intros i j. rewrite !(lo_used _ _ L), !Ei. by apply C2.
  - intros i. rewrite (lo_used _ _ L), (lo_state _ _ L), (lo_current _ _ L). by apply C3.
  - destruct C4 as (k & Hk & Ha). exists k. unfold alive_idle in *.
    by rewrite (lo_used _ _ L), Ei, Em, (lo_state _ _ L), (lo_priority _ _ L), Ed.
  - intros i. unfold kill_safe. rewrite (lo_used _ _ L), Es. by apply C5.
Qed.

Lemma links_cur s s' : links_only s s' -> cur_ok s -> cur_ok s'.
Proof. intros L. unfold cur_ok. by rewrite (lo_current _ _ L), (lo_used _ _ L), (lo_state _ _ L) by done. Qed.

(** A task that is exempt is enqueued. *)
Lemma good_enqueue e i s :
  slot i -> ready (tk s i) -> e = i \/ e = -1 -> good e s -> good (-1) (sched_enqueue_ready i s).
Proof.
  intros Hi Hr He [[q Hq] C]. split.
  - destruct (sched_enqueue_spec e q s Hq i Hi Hr He) as (q' & Hq' & _). by exists q'.
  - apply (links_core s); [|done]. apply enqueue_links.
Qed.

Lemma good_open e s : good (-1) s -> good e s.
Proof. intros [[q Hq] C]. split; [|done]. exists q. by apply sched_ok_open. Qed.

(** A live task other than the running one becomes ready. *)
Lemma good_make_ready i s :
  slot i -> used (tk s i) = true -> good (-1) s -> good (-1) (make_ready i s).
Proof.
  intros Hi Hu Hg. unfold make_ready.
  apply (good_enqueue i); [done|rewrite tk_upd_eq; by split|by left|].
  apply good_restate; [by split_and!|done|by left|done|by apply good_open].
Qed.

Lemma make_ready_tk i s j :
  (tk (make_ready i s) j) <| sched_next := 0 |> =
  (if decide (i = j) then (tk s i) <| state := TASK_STATE_READY |> else tk s j) <| sched_next := 0 |>.
Proof.
  unfold make_ready. rewrite (lo_task _ _ (enqueue_links _ _)). rewrite tk_upd. by case_decide.
Qed.

(** Reading a field after [make_ready]. *)
Lemma make_ready_field {A} (f : task_entry -> A) i s j :
  (forall t, f (t <| sched_next := 0 |>) = f t) ->
  f (tk (make_ready i s) j) = f (if decide (i = j) then (tk s i) <| state := TASK_STATE_READY |> else tk s j).
Proof. intros Hf. rewrite <- Hf, make_ready_tk. by apply Hf. Qed.

Lemma make_ready_rest i s :
  make_ready i s = s <| tasks := tasks (make_ready i s) |>
    <| sched_ready_head := sched_ready_head (make_ready i s) |>
    <| sched_ready_tail := sched_ready_tail (make_ready i s) |> <| stuck := stuck (make_ready i s) |>.
Proof. unfold make_ready at 1. rewrite (lo_rest _ _ (enqueue_links _ _)) at 1. done. Qed.

Lemma make_ready_current i s : current_task_index (make_ready i s) = current_task_index s.
Proof. by rewrite make_ready_rest. Qed.

Lemma cur_make_ready i s : cur_ok s -> cur_ok (make_ready i s).
Proof.
  unfold cur_ok. rewrite make_ready_current.
  rewrite (make_ready_field used), (make_ready_field state) by done.
  case_decide as E; [|done]. rewrite <- E. intros [H|(H1 & H2 & _)]; [by left|right].
  split_and!; done.
Qed.

Lemma inv_make_ready i s : slot i -> used (tk s i) = true -> inv s -> inv (make_ready i s).
Proof. intros Hi Hu [Hg Hc]. split; [by apply good_make_ready|by apply cur_make_ready]. Qed.

(** A task that is made ready joins the queue of its priority at the end, unless
    it is in it already. *)
Lemma make_ready_queue i s p :
  slot i -> used (tk s i) = true -> good (-1) s -> prio_ok p ->
  ready_queue (make_ready i s) p =
    if decide (p = priority (tk s i) /\ i ∉ ready_queue s p) then ready_queue s p ++ [i] else ready_queue s p.
Proof.
  intros Hi Hu Hg Hp. unfold make_ready. set (s1 := upd i _ s).
  assert (tk s1 i = (tk s i) <| state := TASK_STATE_READY |>) as Et by (unfold s1; by rewrite tk_upd_eq).
  assert (ready_queue s1 p = ready_queue s p) as E1.
  { apply walk_ext. intros j. unfold nx, s1. rewrite tk_upd. by case_decide as E; [rewrite <- E|]. }
  assert (good i s1) as [[q Hq] _].
  { apply good_restate; [by split_and!|done|by left|done|by apply good_open]. }
  destruct (sched_enqueue_spec i q s1 Hq i Hi) as (q' & Hq' & E'); [rewrite Et; by split|by left|].
  rewrite Et in E'. cbn in E'. rewrite (ready_queue_eq _ _ _ _ Hq'), E', <- E1 by done.
  rewrite (ready_queue_eq _ _ _ _ Hq Hp). destruct (decide (p = priority (tk s i))) as [->|Hne].
  - destruct (decide (i ∈ q (priority (tk s i)))); [by rewrite !decide_False by tauto|by rewrite !decide_True].
  - by rewrite !decide_False by tauto.
Qed.

Lemma grows_make_ready i s :
  slot i -> used (tk s i) = true -> good (-1) s -> grows s (make_ready i s).
Proof. intros Hi Hu Hg p Hp. rewrite make_ready_queue by done. case_decide; [by exists [i]|reflexivity]. Qed.

(** A task leaves its queue. *)
Lemma good_remove i q s :
  slot i -> used (tk s i) = true -> good_q i q s ->
  good_out i (q_remove q i) (sched_remove_from_ready i s).
Proof.
  intros Hi Hu [Hq C]. destruct (remove_spec q s i Hq Hi Hu) as [Hs L]. split; [split|].
  - done.
  - by apply (links_core s).
  - intros p _ Hin. apply list_elem_of_filter in Hin as [? _]. done.
Qed.

(** What is in no queue, and not ready, needs no exemption. *)
Lemma good_close i q s : good_out i q s -> state (tk s i) <> TASK_STATE_READY -> good_q (-1) q s.
Proof.
  intros [[Hq C] Hn] Hr. split; [|done]. apply (sched_ok_close i); [done|done|]. intros [_ ?]. done.
Qed.

Lemma grows_remove i s s' :
  good i s -> (forall q, good_q i q s -> good_q (-1) (q_remove q i) s') ->
  (forall p, prio_ok p -> i ∉ ready_queue s p) -> grows s s'.
Proof.
  intros [q Hq]%good_good_q H Hn p Hp. specialize (Hn p Hp). pose proof (H q Hq) as [Hq' _].
  rewrite (ready_queue_eq _ _ _ _ Hq') by done. destruct Hq as [Hq _].
  rewrite (ready_queue_eq _ _ _ _ Hq) in * by done. unfold q_remove.
  rewrite filter_ne_notin by done. reflexivity.
Qed.

(** * The end of a task *)

(** Nothing but links changed outside slot [i]. *)
Record others (i : Z) (s s' : tasks_state) : Prop := Others {
  ot_task j : j <> i -> (tk s' j) <| sched_next := 0 |> = (tk s j) <| sched_next := 0 |>;
  ot_current : current_task_index s' = current_task_index s;
  ot_idle : idle_task_id s' = idle_task_id s;
  ot_next : next_task_id s' = next_task_id s;
  ot_init : sys_init_pid s' = sys_init_pid s;
}.

Lemma others_refl i s : others i s s.
Proof. by split. Qed.

Lemma others_trans i s1 s2 s3 : others i s1 s2 -> others i s2 s3 -> others i s1 s3.
Proof. intros [A1 A2 A3 A4 A5] [B1 B2 B3 B4 B5]. split; try congruence. intros j Hj. by rewrite B1, A1. Qed.

Lemma others_links i s s' : links_only s s' -> others i s s'.
Proof. intros L. split; [intros; apply L|..]; by rewrite (lo_rest _ _ L). Qed.

Lemma others_upd i f s : others i s (upd i f s).
Proof. split; try done. intros j Hj. by rewrite tk_upd_ne. Qed.

Lemma others_emit i ef s : others i s (emit ef s).
Proof. by split. Qed.

Lemma others_field {A} (f : task_entry -> A) i s s' j :
  (forall t, f (t <| sched_next := 0 |>) = f t) -> others i s s' -> j <> i -> f (tk s' j) = f (tk s j).
Proof. intros Hf H Hj. by rewrite <- (Hf (tk s' j)), <- (Hf (tk s j)), (ot_task _ _ _ H j Hj). Qed.

Lemma cur_others i s s' : others i s s' -> current_task_index s <> i -> cur_ok s -> cur_ok s'.
Proof.
  intros H Hc. unfold cur_ok. rewrite (ot_current _ _ _ H).
  by rewrite (others_field used i s s'), (others_field state i s s').
Qed.

(** Steps that only write to the log. *)
Definition logged (s s' : tasks_state) : Prop := s' = s <| log := log s' |>.

Lemma logged_refl s : logged s s.
Proof. by destruct s. Qed.

Lemma logged_trans s1 s2 s3 : logged s1 s2 -> logged s2 s3 -> logged s1 s3.
Proof. unfold logged. intros E1 E2. rewrite E2, E1. done. Qed.

Lemma logged_emit ef s : logged s (emit ef s).
Proof. done. Qed.

Lemma logged_tk s s' j : logged s s' -> tk s' j = tk s j.
Proof. unfold logged. intros ->. done. Qed.

Lemma logged_globals s s' : logged s s' -> globals s s'.
Proof. unfold logged. intros ->. by split; cbn. Qed.

Lemma logged_others i s s' : logged s s' -> others i s s'.
Proof. unfold logged. intros ->. by split. Qed.

#[export] Hint Resolve logged_refl logged_emit others_refl others_upd others_emit : task.

Lemma logged_kfree_if c p s : logged s (kfree_if c p s).
Proof. unfold kfree_if. case_match; auto with task. Qed.

Lemma logged_release_image i s : logged s (release_image i s).
Proof.
  unfold release_image. cbv zeta. repeat case_match; try apply logged_refl;
    repeat (eapply logged_trans; [|apply logged_emit]); apply logged_refl.
Qed.

Lemma good_out_logged e q s s' : logged s s' -> good_out e q s -> good_out e q s'.
Proof.
  intros E [[Hq C] Hn]. pose proof (logged_globals _ _ E) as G.
  assert (forall j, tk s' j = tk s j) as Et by (intros; by apply logged_tk).
  split; [split; [|by apply (core_globals s)]|done].
  apply (sched_ok_change e q s); try apply G; [done| |].
  - intros j _. unfold nx. by rewrite !Et.
  - intros j _ -> Hne. by rewrite (gl_current _ _ G) in Hne.
Qed.

(** The slot of a task that is in no queue is freed or changed for good. *)
Lemma good_out_replace i f q s :
  slot i -> good_out i q s -> ~ alive_idle s (tk s i) ->
  (used (f (tk s i)) = true -> restate (tk s i) (f (tk s i)) /\
     state (f (tk s i)) <> TASK_STATE_RUNNING /\ state (f (tk s i)) <> TASK_STATE_READY) ->
  good_q (-1) q (upd i f s).
Proof.
  intros Hi [[Hq C] Hn] Hni Hf. split.
  - apply (sched_ok_close i); [|done|].
    + apply (sched_ok_replace i q s); [done|done|apply elsewhere_upd|]. rewrite tk_upd_eq. intros Hu.
      destruct (Hf Hu) as [(E1 & _ & E2 & _) _]. rewrite E2. apply (so_prio _ _ _ Hq i Hi). congruence.
    + rewrite tk_upd_eq. intros [Hu Hr]. destruct (Hf Hu) as (_ & _ & ?). done.
  - apply (core_replace i s); [done|apply elsewhere_upd|cbn; lia|..]; rewrite tk_upd_eq.
    + intros Hu. destruct (Hf Hu) as [(E1 & E2 & E3 & E4 & _ & E5) [Hnr _]].
      assert (used (tk s i) = true) as Hu0 by congruence. rewrite E2. split_and!.
      * by apply (c_id _ C).
      * by apply (c_id _ C).
      * intros j Hj Hne Huj E. apply Hne. by apply (c_uniq _ C).
      * done.
      * by apply E5, (c_kill _ C).
    + done.
Qed.

Section end_of_task.
Context {ENV : TaskEnv}.
Context (i : Z) (s : tasks_state) (Hi : slot i) (Hu : used (tk s i) = true).

(** Both endings free the same things first. *)
Definition released (s : tasks_state) : tasks_state :=
  let s := emit (FdCloseAll i) (sched_remove_from_ready i s) in
  let t := tk s i in
  release_image i (kfree_if (negb (user_mode (img t))) (user_stack (img t))
    (kfree_if true (stack t) (kfree_if true (data t) s))).

Lemma clear_task_eq : clear_task i s = emit (ShmReset i) (upd i cleared (released s)).
Proof. done. Qed.

Lemma zombify_task_eq : zombify_task i s = upd i buried (released s).
Proof. done. Qed.

Lemma released_logged : logged (sched_remove_from_ready i s) (released s).
Proof.
  unfold released. cbv zeta. set (s0 := sched_remove_from_ready i s). clearbody s0.
  refine (logged_trans _ _ _ (logged_emit (FdCloseAll i) s0) _).
  set (s1 := emit (FdCloseAll i) s0). clearbody s1. set (t := tk s1 i).
  refine (logged_trans _ _ _ (logged_kfree_if true (data t) s1) _).
  set (s2 := kfree_if true (data t) s1). clearbody s2.
  refine (logged_trans _ _ _ (logged_kfree_if true (stack t) s2) _).
  set (s3 := kfree_if true (stack t) s2). clearbody s3.
  refine (logged_trans _ _ _ (logged_kfree_if _ (user_stack (img t)) s3) _).
  apply logged_release_image.
Qed.

(** Links change even when the slot is not used. *)
Lemma remove_links : links_only s (sched_remove_from_ready i s).
Proof.
  unfold sched_remove_from_ready. cbv zeta. repeat case_match; try apply links_refl.
  generalize (S table) (-1) (sget (sched_ready_head s) (priority (tk s i))). intros n.
  induction n as [|n IH]; intros prev cur; cbn [remove_loop]; [by split|].
  case_match; [apply links_upd|]. case_match; [|apply IH].
  apply Z.eqb_eq in H2 as ->. apply (unlink_links s (priority (tk s i)) i prev).
Qed.

Lemma released_others : others i s (released s).
Proof.
  eapply others_trans; [apply others_links, remove_links|apply logged_others, released_logged].
Qed.

Lemma released_tk : (tk (released s) i) <| sched_next := 0 |> = (tk s i) <| sched_next := 0 |>.
Proof. rewrite (logged_tk _ _ _ released_logged). apply remove_links. Qed.

Lemma released_good q : good_q i q s -> good_out i (q_remove q i) (released s).
Proof.
  intros Hg. apply (good_out_logged i _ (sched_remove_from_ready i s)); [apply released_logged|].
  by apply good_remove.
Qed.

Lemma released_field {A} (f : task_entry -> A) :
  (forall t, f (t <| sched_next := 0 |>) = f t) -> f (tk (released s) i) = f (tk s i).
Proof. intros Hf. by rewrite <- Hf, released_tk, Hf. Qed.

Context (Hidle : id (tk s i) <> idle_task_id s).

Lemma released_not_idle : ~ alive_idle (released s) (tk (released s) i).
Proof.
  intros (_ & E & _). rewrite (released_field id) in E by done.
  by rewrite (ot_idle _ _ _ released_others) in E.
Qed.

Lemma clear_good_q q : good_q i q s -> good_q (-1) (q_remove q i) (clear_task i s).
Proof.
  intros Hg. rewrite clear_task_eq. pose proof (globals_emit (ShmReset i) (upd i cleared (released s))) as G.
  assert (good_q (-1) (q_remove q i) (upd i cleared (released s))) as [Hq C].
  { apply good_out_replace; [done|by apply released_good|apply released_not_idle|done]. }
  split; [|by apply (core_globals _ _ G)]. by apply (sched_ok_change (-1) _ (upd i cleared (released s))).
Qed.

Lemma clear_good : good i s -> good (-1) (clear_task i s).
Proof. intros [q Hq]%good_good_q. by eapply good_q_good, clear_good_q. Qed.

Lemma clear_others : others i s (clear_task i s).
Proof.
  rewrite clear_task_eq. eapply others_trans; [apply released_others|].
  eapply others_trans; [apply others_upd|apply others_emit].
Qed.

Lemma zombify_good_q q : good_q i q s -> good_q (-1) (q_remove q i) (zombify_task i s).
Proof.
  intros Hg. rewrite zombify_task_eq.
  apply good_out_replace; [done|by apply released_good|apply released_not_idle|].
  intros _. split; [|done]. split_and!; try done. cbn. by case_match.
Qed.

Lemma zombify_good : good i s -> good (-1) (zombify_task i s).
Proof. intros [q Hq]%good_good_q. by eapply good_q_good, zombify_good_q. Qed.

Lemma zombify_others : others i s (zombify_task i s).
Proof. rewrite zombify_task_eq. eapply others_trans; [apply released_others|apply others_upd]. Qed.

End end_of_task.

(** * Steps that wake tasks *)

(** A step that leaves identities alone and moves tasks at most from waiting to
    ready. *)
Record mild (s s' : tasks_state) : Prop := Mild {
  mi_good : good (-1) s -> good (-1) s';
  mi_cur : cur_ok s -> cur_ok s';
  mi_used j : used (tk s' j) = used (tk s j);
  mi_id j : id (tk s' j) = id (tk s j);
  mi_state j : state (tk s' j) = state (tk s j) \/
    ((state (tk s j) = TASK_STATE_BLOCKED \/ state (tk s j) = TASK_STATE_SLEEPING) /\
     state (tk s' j) = TASK_STATE_READY);
  mi_current : current_task_index s' = current_task_index s;
  mi_idle : idle_task_id s' = idle_task_id s;
  mi_next : next_task_id s <= next_task_id s';
  mi_queue : good (-1) s -> grows s s';
}.

Lemma mild_refl s : mild s s.
Proof. split; auto; [lia|]. intros _ p _. reflexivity. Qed.

Lemma mild_trans s1 s2 s3 : mild s1 s2 -> mild s2 s3 -> mild s1 s3.
Proof.
  intros [A1 A2 A3 A4 A5 A6 A7 A8 A9] [B1 B2 B3 B4 B5 B6 B7 B8 B9]. split; try congruence; try lia; auto.
  2: { intros Hg. eapply grows_trans; auto. }
  intros j. destruct (A5 j) as [E|[E1 E2]], (B5 j) as [F|[F1 F2]]; rewrite ?E in *; auto.
  all: right; split; [done|congruence].
Qed.

Lemma mild_inv s s' : mild s s' -> inv s -> inv s'.
Proof. intros M [H1 H2]. split; by apply M. Qed.

Lemma mild_globals s s' : globals s s' -> mild s s'.
Proof.
  intros G. assert (forall j, tk s' j = tk s j) as E by (intros j; unfold tk; by rewrite (gl_tasks _ _ G)).
  split; try apply G; try (intros; rewrite E; auto).
  - by apply good_globals.
  - by apply cur_globals.
  - intros _. apply grows_same; [apply G|]. intros j. by rewrite E.
Qed.

Lemma mild_emit ef s : mild s (emit ef s).
Proof. apply mild_globals, globals_emit. Qed.

Lemma mild_quiet i f s : slot i -> (forall t, quiet t (f t)) -> mild s (upd i f s).
Proof.
  intros Hi Hf. split; [by apply good_quiet|by apply cur_quiet|..]; try done.
  - intros j. rewrite tk_upd. case_decide as E; [rewrite <- E|done]. by apply Hf.
  - intros j. rewrite tk_upd. case_decide as E; [rewrite <- E|done]. by apply Hf.
  - intros j. rewrite tk_upd. case_decide as E; [rewrite <- E|auto]. left. by apply Hf.
  - intros _. apply grows_same; [done|]. intros j. rewrite tk_upd.
    case_decide as E; [rewrite <- E|done]. by apply Hf.
Qed.

Lemma mild_make_ready i s :
  slot i -> used (tk s i) = true ->
  state (tk s i) = TASK_STATE_BLOCKED \/ state (tk s i) = TASK_STATE_SLEEPING -> mild s (make_ready i s).
Proof.
  intros Hi Hu Hst. split.
  - by apply good_make_ready.
  - apply cur_make_ready.
  - intros j. rewrite (make_ready_field used) by done. case_decide as E; [by rewrite <- E|done].
  - intros j. rewrite (make_ready_field id) by done. case_decide as E; [by rewrite <- E|done].
  - intros j. rewrite (make_ready_field state) by done. case_decide as E; [rewrite <- E|auto]. right. done.
  - apply make_ready_current.
  - by rewrite make_ready_rest.
  - rewrite make_ready_rest. cbn. lia.
  - by apply grows_make_ready.
Qed.

(** A loop over the table whose body is mild. *)
Lemma mild_loop (body : Z -> tasks_state -> tasks_state) s :
  (forall j t, slot j -> mild t (body j t)) -> mild s (for_loop body table 0 s).
Proof.
  intros Hb. apply (for_loop_ind (fun _ t => mild s t)); [apply mild_refl|].
  intros j t Hj Ht. eapply mild_trans; [exact Ht|]. apply Hb. unfold slot, TASK_MAX_COUNT.
  change (Z.of_nat table) with 16 in Hj. lia.
Qed.

Lemma mild_loop_pair {A} (body : Z -> tasks_state * A -> tasks_state * A) s a :
  (forall j t b, slot j -> mild t (body j (t, b)).1) -> mild s (for_loop body table 0 (s, a)).1.
Proof.
  intros Hb. apply (for_loop_ind (fun _ t => mild s t.1)); [apply mild_refl|].
  intros j [t b] Hj Ht. eapply mild_trans; [exact Ht|]. apply Hb. unfold slot, TASK_MAX_COUNT.
  change (Z.of_nat table) with 16 in Hj. lia.
Qed.

(** Field updates of the code that are quiet. *)
Ltac quiet_tac := let x := fresh in intros x; unfold quiet, kill_safe; cbn; split_and!; auto.

Section wakes.
Context {ENV : TaskEnv}.

Lemma mild_reparent old new s : mild s (reparent_children old new s).
Proof.
  unfold reparent_children. case_match; [apply mild_refl|]. apply mild_loop. intros j t Hj.
  case_match; [|apply mild_refl]. apply mild_quiet; [done|quiet_tac].
Qed.

(** The wake-up of a waiting task with other updates of its fields. *)
Lemma mild_wake i f s :
  slot i -> used (tk s i) = true ->
  state (tk s i) = TASK_STATE_BLOCKED \/ state (tk s i) = TASK_STATE_SLEEPING ->
  (forall t, quiet t (f t)) -> mild s (make_ready i (upd i f s)).
Proof.
  intros Hi Hu Hst Hf. pose proof (Hf (tk s i)) as (E1 & _ & _ & E4 & _).
  eapply mild_trans; [by apply (mild_quiet i f)|].
  apply mild_make_ready; [done|..]; rewrite tk_upd_eq; [by rewrite E1|by rewrite E4].
Qed.

Lemma mild_signal_event ev s : mild s (task_signal_event ev s).1.
Proof.
  unfold task_signal_event. case_match; [apply mild_refl|]. apply mild_loop_pair.
  intros j t b Hj. cbv beta iota zeta. destruct (_ && _ && _) eqn:E; [|apply mild_refl]. cbn [fst].
  apply andb_prop in E as [[Hu Hs]%andb_prop _]. apply state_is_true in Hs.
  apply mild_wake; [done|done|by left|quiet_tac].
Qed.

(** Queueing a signal other than [SIGKILL]. *)
Lemma mild_queue complete i signum s :
  slot i -> signum <> LYTH_SIGKILL -> mild s (queue_signal_with complete i signum s).1.
Proof.
  intros Hi Hk. unfold queue_signal_with. cbv zeta.
  destruct (negb (used (tk s i)) || negb (signal_is_valid signum)) eqn:Eu; [apply mild_refl|].
  apply orb_false_iff in Eu as [Eu _]. apply negb_false_iff in Eu.
  destruct (state_is (state (tk s i)) TASK_STATE_ZOMBIE); [apply mild_refl|].
  destruct (id (tk s i) =? idle_task_id s); [apply mild_refl|].
  rewrite (proj2 (Z.eqb_neq _ _) Hk).
  set (f := fun t : task_entry => t <| sigs := (sigs t) <| pending_signals :=
               Z.lor (pending_signals (sigs t)) (signal_bit signum) |> |>).
  assert (forall t, quiet t (f t)) as Hf by quiet_tac.
  destruct (_ || _) eqn:Es; cbn [fst]; [|by apply mild_quiet].
  eapply mild_trans; [by apply (mild_quiet i f)|].
  apply mild_wake; [done|..]; rewrite ?tk_upd_eq.
  - done.
  - apply orb_prop in Es as [Es|Es]; apply state_is_true in Es; [by right|by left].
  - quiet_tac.
Qed.

Lemma mild_notify p ti s : slot p -> mild s (notify_parent p ti s).
Proof.
  intros Hp. unfold notify_parent. case_match; [|apply mild_refl]. apply mild_queue; [done|].
  unfold LYTH_SIGCHLD, LYTH_SIGKILL. lia.
Qed.

Lemma mild_write_user i va v s : mild s (write_user_int32 i va v s).
Proof. unfold write_user_int32. cbv zeta. repeat case_match; try apply mild_refl. apply mild_emit. Qed.

Lemma mild_job_messages t c s : mild s (job_messages t c s).
Proof.
  unfold job_messages. cbv zeta. eapply mild_trans; [|case_match; [apply mild_emit|apply mild_refl]].
  case_match; [apply mild_emit|apply mild_refl].
Qed.

End wakes.

(** * Completion *)

Definition over (st : task_state) : Prop := st = TASK_STATE_FINISHED \/ st = TASK_STATE_CANCELLED.

Lemma over_not st : over st ->
  st <> TASK_STATE_READY /\ st <> TASK_STATE_RUNNING /\ st <> TASK_STATE_BLOCKED /\
  st <> TASK_STATE_SLEEPING /\ st <> TASK_STATE_ZOMBIE.
Proof. by intros [-> | ->]. Qed.

(** The idle task is never over. *)
Lemma over_not_idle i s :
  slot i -> used (tk s i) = true -> over (state (tk s i)) -> core s -> id (tk s i) <> idle_task_id s.
Proof.
  intros Hi Hu Ho C E. destruct (c_idle _ C) as (k & Hk & Hku & Hkid & _ & _ & Hks).
  assert (i = k) as -> by (apply (c_uniq _ C); congruence).
  pose proof (over_not _ Ho). tauto.
Qed.

(** The outcome for the task in slot [i] and for the others. *)
Record ended (i : Z) (s s' : tasks_state) : Prop := Ended {
  en_good : good (-1) s';
  en_current : current_task_index s' = current_task_index s;
  en_idle : idle_task_id s' = idle_task_id s;
  en_next : next_task_id s <= next_task_id s';
  en_cur : current_task_index s <> i -> cur_ok s -> cur_ok s';
  en_gone : used (tk s' i) = false \/ (state (tk s' i) = TASK_STATE_ZOMBIE /\ id (tk s' i) = id (tk s i));
  en_others j : j <> i -> used (tk s' j) = used (tk s j) /\ id (tk s' j) = id (tk s j);
  en_queue : (forall p, prio_ok p -> i ∉ ready_queue s p) -> grows s s';
}.

(** What is not ready is in no queue. *)
Lemma not_queued i s p :
  good (-1) s -> slot i -> prio_ok p -> state (tk s i) <> TASK_STATE_READY -> i ∉ ready_queue s p.
Proof.
  intros [[q Hq] _] Hi Hp Hst Hin. rewrite (ready_queue_eq _ _ _ _ Hq) in Hin by done.
  destruct (so_member _ _ _ Hq p i Hp Hin) as (_ & _ & Hr). apply Hst, Hr. destruct Hi. lia.
Qed.

Lemma mild_over i s0 s : mild s0 s -> over (state (tk s0 i)) -> over (state (tk s i)).
Proof.
  intros M Ho. destruct (mi_state _ _ M i) as [->|[[E|E] _]]; [done|..]; rewrite E in Ho; by destruct Ho.
Qed.

Section completion.
Context {ENV : TaskEnv}.

(** From a mild change of the state, with the task still over, to its end. *)
Lemma ended_clear i s0 s :
  slot i -> mild s0 s -> good (-1) s0 -> used (tk s0 i) = true -> over (state (tk s0 i)) ->
  ended i s0 (clear_task i s).
Proof.
  intros Hi M Hg Hu Ho. pose proof (mi_good _ _ M Hg) as Hg'.
  assert (used (tk s i) = true) as Hu' by (by rewrite (mi_used _ _ M)).
  assert (id (tk s i) <> idle_task_id s) as Hid.
  { rewrite (mi_id _ _ M), (mi_idle _ _ M). apply over_not_idle; [done..|]. apply Hg. }
  pose proof (clear_others i s) as Ho'. split.
  - apply clear_good; [done..|by apply good_open].
  - by rewrite (ot_current _ _ _ Ho'), (mi_current _ _ M).
  - by rewrite (ot_idle _ _ _ Ho'), (mi_idle _ _ M).
  - rewrite (ot_next _ _ _ Ho'). apply M.
  - intros Hc Hcur. apply (cur_others i s); [done|by rewrite (mi_current _ _ M)|]. by apply M.
  - left. rewrite clear_task_eq. rewrite tk_emit, tk_upd_eq. done.
  - intros j Hj. rewrite (others_field used i s _ j), (others_field id i s _ j) by done.
    by rewrite (mi_used _ _ M), (mi_id _ _ M).
  - intros _. eapply grows_trans; [by apply M|].
    apply (grows_remove i); [by apply good_open|intros; by apply clear_good_q|].
    intros p Hp. apply not_queued; [done..|]. by apply over_not, (mild_over i s0).
Qed.

Lemma ended_zombify i s0 s :
  slot i -> mild s0 s -> good (-1) s0 -> used (tk s0 i) = true -> over (state (tk s0 i)) ->
  ended i s0 (zombify_task i s) /\ state (tk (zombify_task i s) i) = TASK_STATE_ZOMBIE.
Proof.
  intros Hi M Hg Hu Ho. pose proof (mi_good _ _ M Hg) as Hg'.
  assert (used (tk s i) = true) as Hu' by (by rewrite (mi_used _ _ M)).
  assert (id (tk s i) <> idle_task_id s) as Hid.
  { rewrite (mi_id _ _ M), (mi_idle _ _ M). apply over_not_idle; [done..|]. apply Hg. }
  pose proof (zombify_others i s) as Ho'.
  assert (state (tk (zombify_task i s) i) = TASK_STATE_ZOMBIE) as Hz
    by (rewrite zombify_task_eq, tk_upd_eq; done).
  split; [|done]. split.
  - apply zombify_good; [done..|by apply good_open].
  - by rewrite (ot_current _ _ _ Ho'), (mi_current _ _ M).
  - by rewrite (ot_idle _ _ _ Ho'), (mi_idle _ _ M).
  - rewrite (ot_next _ _ _ Ho'). apply M.
  - intros Hc Hcur. apply (cur_others i s); [done|by rewrite (mi_current _ _ M)|]. by apply M.
  - right. split; [done|]. rewrite zombify_task_eq, tk_upd_eq. cbn.
    rewrite (released_field i s id) by done. exact (mi_id _ _ M i).
  - intros j Hj. rewrite (others_field used i s _ j), (others_field id i s _ j) by done.
    by rewrite (mi_used _ _ M), (mi_id _ _ M).
  - intros _. eapply grows_trans; [by apply M|].
    apply (grows_remove i); [by apply good_open|intros; by apply zombify_good_q|].
    intros p Hp. apply not_queued; [done..|]. by apply over_not, (mild_over i s0).
Qed.

(** A mild step after the end. *)
Lemma ended_mild i s0 s s' : ended i s0 s -> mild s s' -> ended i s0 s'.
Proof.
  intros [E1 E2 E3 E4 E5 E6 E7 E8] M. split.
  - by apply M.
  - by rewrite (mi_current _ _ M).
  - by rewrite (mi_idle _ _ M).
  - pose proof (mi_next _ _ M). lia.
  - intros. apply M. auto.
  - rewrite (mi_used _ _ M), (mi_id _ _ M). destruct E6 as [E6|[E6 ?]]; [by left|right].
    split; [|done]. destruct (mi_state _ _ M i) as [->|[[HB|HB] _]]; [done|congruence..].
  - intros j Hj. rewrite (mi_used _ _ M), (mi_id _ _ M). auto.
  - intros Hn. eapply grows_trans; [by apply E8|by apply M].
Qed.

Lemma find_task_slot s k i : find_task_by_id s k = Some i -> slot i /\ used (tk s i) = true /\ id (tk s i) = k.
Proof.
  intros E. apply find_first_Some in E as (Hr & HP & _). apply andb_prop in HP as [Hu He].
  split; [|split; [done|by apply Z.eqb_eq]]. unfold slot, TASK_MAX_COUNT.
  change (Z.of_nat table) with 16 in Hr. lia.
Qed.

(** ** The steps of a completion *)

(** What is told of the end of [t], before its parent is looked up. *)
Definition announced (t : task_entry) (s : tasks_state) : tasks_state :=
  let cancelled := cancel_requested t || state_is (state t) TASK_STATE_CANCELLED in
  let notify_foreground := foreground t && (foreground_task_id s =? id t) in
  let s := if notify_foreground then s <| foreground_task_id := -1 |> else s in
  let s := if notify_foreground && negb (foreground_complete_handler s =? 0)
           then emit (ForegroundComplete (id t) cancelled) s else s in
  let s := job_messages t cancelled s in
  (task_signal_event (id t) (reparent_children (id t) (sys_init_pid s) s)).1.

(** The parent of the task that ended is given the zombie. *)
Definition given (p i : Z) (t : task_entry) (s : tasks_state) : tasks_state :=
  let s := notify_parent p (id t) s in
  let e := blocked_event_id (tk s p) in
  if state_is (state (tk s p)) TASK_STATE_BLOCKED && ((e =? id t) || (e =? id (tk s p)))
  then hand_over p i (id t) s
  else if negb (state_is (state (tk s p)) TASK_STATE_ZOMBIE)
  then (task_signal_event (parent_id t) (zombify_task i s)).1
  else clear_task i s.

Lemma complete_task_eq i s :
  used (tk s i) = true -> id (tk s i) <> idle_task_id s ->
  complete_task i s =
    let t := tk s i in
    let s := announced t (sched_remove_from_ready i s) in
    match (if 0 <? parent_id t then find_task_by_id s (parent_id t) else None) with
    | None => clear_task i s
    | Some p => given p i t s
    end.
Proof. intros Hu Hid. unfold complete_task. rewrite Hu, (proj2 (Z.eqb_neq _ _) Hid). reflexivity. Qed.

(** A step that composes with what follows it. *)
Lemma mild_announced t s : mild s (announced t s).
Proof.
  unfold announced. cbv zeta. eapply mild_trans; [|apply mild_signal_event].
  match goal with |- mild _ (reparent_children _ _ ?x) => assert (mild s x) as M end.
  { eapply mild_trans; [|apply mild_job_messages].
    eapply mild_trans; [|case_match; [apply mild_emit|apply mild_refl]].
    case_match; [|apply mild_refl]. apply mild_globals. split; try done. }
  eapply mild_trans; [exact M|apply mild_reparent].
Qed.

Lemma mild_hand_over p i ti s :
  slot p -> exists s', mild s s' /\ hand_over p i ti s = clear_task i s'.
Proof.
  intros Hp. unfold hand_over. cbv zeta. eexists. split; [|reflexivity].
  eapply mild_trans; [|apply mild_signal_event].
  match goal with |- context [if negb (saved_rsp (tk s p) =? 0) then ?x else ?y] =>
    assert (mild s (if negb (saved_rsp (tk s p) =? 0) then x else y)) as M7;
    [|set (s7 := if negb (saved_rsp (tk s p) =? 0) then x else y) in *; clearbody s7] end.
  { case_match; [apply mild_emit|apply mild_refl]. }
  eapply mild_trans; [exact M7|]. case_match; [|apply mild_refl].
  eapply mild_trans; [apply mild_write_user|]. apply mild_quiet; [done|quiet_tac].
Qed.

Lemma ended_given p i t s0 s :
  slot p -> slot i -> mild s0 s -> good (-1) s0 -> used (tk s0 i) = true -> over (state (tk s0 i)) ->
  ended i s0 (given p i t s).
Proof.
  intros Hp Hi M Hg Hu Ho. unfold given. cbv zeta.
  assert (mild s0 (notify_parent p (id t) s)) as M6 by (eapply mild_trans; [exact M|by apply mild_notify]).
  generalize dependent (notify_parent p (id t) s). intros s6 M6. destruct (_ && _).
  - destruct (mild_hand_over p i (id t) s6 Hp) as (s' & M' & ->). apply ended_clear; try done.
    by eapply mild_trans.
  - case_match; [|by apply ended_clear]. destruct (ended_zombify i s0 s6) as [He _]; [done..|].
    eapply ended_mild; [exact He|apply mild_signal_event].
Qed.

(** The end is reached from the state in which the task has left its queue. *)
Section removed.
Context (i : Z) (s : tasks_state) (Hi : slot i) (Hu : used (tk s i) = true).
Context (Ho : over (state (tk s i))) (Hg : good i s).
Local Notation s0 := (sched_remove_from_ready i s).

Lemma removed_good_q q : good_q i q s -> good_q (-1) (q_remove q i) s0.
Proof.
  intros Hq. apply (good_close i); [by apply good_remove|]. rewrite (lo_state _ _ (remove_links i s)).
  by apply over_not.
Qed.

Lemma removed_good : good (-1) s0.
Proof. destruct (good_good_q _ _ Hg) as [q Hq]. eapply good_q_good, removed_good_q, Hq. Qed.

Lemma ended_removed s' : ended i s0 s' -> ended i s s'.
Proof.
  pose proof (remove_links i s) as L. intros [E1 E2 E3 E4 E5 E6 E7 E8]. pose proof (lo_rest _ _ L) as ER. split.
  - done.
  - by rewrite E2, (lo_current _ _ L).
  - rewrite E3, ER. done.
  - rewrite ER in E4. done.
  - intros Hc Hcur. apply E5; [by rewrite (lo_current _ _ L)|by apply (links_cur s)].
  - rewrite <- (links_field id s s0) by done. done.
  - intros j Hj. rewrite <- (lo_used _ _ L), <- (links_field id s s0) by done. by apply E7.
  - intros Hn. eapply grows_trans; [apply (grows_remove i s _ Hg removed_good_q Hn)|].
    apply E8. intros p Hp. apply not_queued; [apply removed_good|done|done|].
    rewrite (lo_state _ _ L). by apply over_not.
Qed.

Lemma complete_removed : ended i s0 (complete_task i s).
Proof.
  pose proof (remove_links i s) as L. pose proof removed_good as Hg0.
  rewrite complete_task_eq by (done || by apply over_not_idle, Hg). cbv zeta.
  rewrite <- (lo_used _ _ L) in Hu. rewrite <- (lo_state _ _ L) in Ho.
  pose proof (mild_announced (tk s i) s0) as M. generalize dependent (announced (tk s i) s0). intros s5 M.
  destruct (if _ : bool then _ else _) as [p|] eqn:Ep; [|by apply ended_clear].
  apply ended_given; try done. case_match; [|done]. by apply find_task_slot in Ep as [? _].
Qed.

Lemma complete_spec : ended i s (complete_task i s).
Proof. apply ended_removed, complete_removed. Qed.

End removed.

End completion.
