(* ===== verification/TaskOps.v ===== *)
(** Every operation of [kernel/task/task.c] keeps the invariant of [TaskInv.v]:
    signals, scheduling, creation, time, and the calls of the running task. *)
From S2P Require Import Prelude.
From S2P Require Import Mmap.
From S2P Require Import Paging.
From S2P Require Import Task.
From S2P Require Import Sched.
From S2P Require Import TaskInv.
From Stdlib Require Import ZArith Lia.
From stdpp Require Import base numbers list gmap.

Open Scope Z_scope.
Open Scope lyth_scope.

(** Calls are made outside tasks, or by a task that is running and is not the
    idle task. *)
Definition callable (s : tasks_state) : Prop :=
  current_task_index s = -1 \/
  (state (tk s (current_task_index s)) = TASK_STATE_RUNNING /\
   id (tk s (current_task_index s)) <> idle_task_id s).

Lemma current_slot s : cur_ok s -> 0 <= current_task_index s ->
  slot (current_task_index s) /\ used (tk s (current_task_index s)) = true.
Proof. intros [E|(? & ? & _)] Hc; [lia|done]. Qed.

Ltac restate_tac := unfold restate, kill_safe; cbn; split_and!; auto.

(** * The running task *)

Lemma mild_on_current f s : cur_ok s -> (forall t, quiet t (f t)) -> mild s (on_current f s).
Proof.
  intros Hc Hf. unfold on_current. destruct (Z.ltb_spec (current_task_index s) 0); [apply mild_refl|].
  apply mild_quiet; [|done]. by apply current_slot.
Qed.

Lemma inv_on_current_quiet f s : (forall t, quiet t (f t)) -> inv s -> inv (on_current f s).
Proof. intros Hf Hi. eapply mild_inv; [|exact Hi]. apply mild_on_current; [by apply Hi|done]. Qed.

(** The state of the running task changes: it is in no queue. *)
Lemma good_restate_current i f s :
  slot i -> i = current_task_index s -> used (tk s i) = true -> state (tk s i) <> TASK_STATE_READY ->
  id (tk s i) <> idle_task_id s -> restate (tk s i) (f (tk s i)) ->
  good (-1) s -> good (-1) (upd i f s).
Proof.
  intros Hi Hc Hu Hst Hid Hf Hg. destruct (good_restate i f s) as [[q Hq] C]; [done| |..].
  - by intros _ _.
  - intros (_ & E & _). done.
  - done.
  - by apply good_open.
  - split; [|done]. exists (ready_queue s). destruct Hg as [[q' Hq'] Cg].
    pose proof (fun p => ready_queue_eq _ _ _ p Hq') as Eq.
    assert (forall p, prio_ok p -> q p = ready_queue s p) as Eq'.
    { intros p Hp. rewrite <- (ready_queue_eq _ _ _ p Hq Hp). unfold ready_queue. symmetry.
      apply walk_ext. intros j. unfold nx. rewrite tk_upd. destruct (decide (i = j)) as [<-|]; [|done].
      symmetry. apply Hf. }
    apply (sched_ok_close i).
    + destruct Hq as [S1 S2 S3 S4 S5]. split; [done|..].
      * intros p Hp. rewrite <- Eq' by done. by apply S2.
      * intros p j Hp. rewrite <- Eq' by done. by apply S3.
      * intros j Hj HR Hne He. rewrite <- Eq' by (apply S5; [done|apply HR]). by apply S4.
      * done.
    + intros p Hp. apply not_queued; [|done..]. split; [by exists q'|done].
    + intros _. left. done.
Qed.

Lemma inv_restate_current f s :
  0 <= current_task_index s -> state (tk s (current_task_index s)) <> TASK_STATE_READY ->
  id (tk s (current_task_index s)) <> idle_task_id s ->
  (forall t, restate t (f t)) ->
  state (f (tk s (current_task_index s))) <> TASK_STATE_FREE ->
  state (f (tk s (current_task_index s))) <> TASK_STATE_ZOMBIE ->
  inv s -> inv (upd (current_task_index s) f s).
Proof.
  intros Hc Hst Hid Hf N1 N2 [Hg Hcur]. destruct (current_slot s Hcur Hc) as [Hi Hu]. split.
  - by apply good_restate_current.
  - right. change (current_task_index (upd _ f s)) with (current_task_index s). rewrite tk_upd_eq.
    split_and!; [done| |done|done]. destruct (Hf (tk s (current_task_index s))) as (-> & _). done.
Qed.

Lemma inv_on_current f s :
  callable s -> (forall t, restate t (f t)) ->
  (forall t, state t = TASK_STATE_RUNNING ->
     state (f t) <> TASK_STATE_FREE /\ state (f t) <> TASK_STATE_ZOMBIE) ->
  inv s -> inv (on_current f s).
Proof.
  intros Ha Hf Hn Hi. unfold on_current. destruct (Z.ltb_spec (current_task_index s) 0); [done|].
  destruct Ha as [E|[Er Hid]]; [lia|]. destruct (Hn _ Er).
  apply inv_restate_current; try done. congruence.
Qed.

(** * Signals *)

Section operations.
Context {ENV : TaskEnv}.

Lemma idle_state s i : core s -> slot i -> used (tk s i) = true -> id (tk s i) = idle_task_id s ->
  alive_idle s (tk s i).
Proof.
  intros C Hi Hu Hid. destruct (c_idle _ C) as (k & Hk & Hidle).
  assert (i = k) as -> by (apply (c_uniq _ C); try done; destruct Hidle as (? & ? & _); congruence). done.
Qed.

Lemma inv_queue_signal i signum s :
  slot i -> (i = current_task_index s -> state (tk s i) = TASK_STATE_RUNNING) ->
  inv s -> inv (task_queue_signal_locked i signum s).1.
Proof.
  intros Hi Hrun Hinv. unfold task_queue_signal_locked.
  destruct (decide (signum = LYTH_SIGKILL)) as [->|Hk].
  2: { eapply mild_inv; [|exact Hinv]. by apply mild_queue. }
  unfold queue_signal_with. cbv zeta. destruct (used (tk s i)) eqn:Hu; [|done].
  change (signal_is_valid LYTH_SIGKILL) with true. cbn [negb orb].
  destruct (state_is (state (tk s i)) TASK_STATE_ZOMBIE) eqn:Ez; [done|].
  destruct (Z.eqb_spec (id (tk s i)) (idle_task_id s)) as [Eid|Eid]; [done|].
  rewrite Z.eqb_refl.
  set (f := fun t => t <| cancel_requested := true |> <| exit_code := 128 + LYTH_SIGKILL |>).
  assert (forall t, quiet t (f t)) as Hf by quiet_tac.
  assert (inv (upd i f s)) as [Hg1 Hc1] by (by apply inv_quiet).
  destruct (state_is (state (tk s i)) TASK_STATE_RUNNING) eqn:Er; cbn [fst].
  - apply state_is_true in Er. assert (i = current_task_index s) as ->
      by (destruct Hinv as [[_ C] _]; by apply (c_run _ C)).
    apply (inv_restate_current _ (upd (current_task_index s) f s)).
    + destruct Hi; done.
    + cbn. rewrite tk_upd_eq. cbn. congruence.
    + cbn. rewrite tk_upd_eq. done.
    + intros t. restate_tac.
    + done.
    + done.
    + done.
  - apply state_is_false in Er.
    assert (i <> current_task_index s) as Hne by (intros E; apply Er; auto).
    set (g := fun t => t <| state := TASK_STATE_CANCELLED |>).
    assert (good i (upd i g (upd i f s))) as Hg2.
    { apply good_restate; [restate_tac|done| |done|by apply good_open].
      rewrite tk_upd_eq. intros (_ & E & _). done. }
    destruct (complete_spec i (upd i g (upd i f s))) as [E1 _ _ _ E5 _ _ _]; [done| | |done|].
    + by rewrite !tk_upd_eq.
    + rewrite tk_upd_eq. by right.
    + split; [done|]. apply E5; [done|]. clear -Hc1 Hne. unfold cur_ok in *.
      change (current_task_index (upd i g (upd i f s))) with (current_task_index s).
      change (current_task_index (upd i f s)) with (current_task_index s) in Hc1.
      by rewrite tk_upd_ne by congruence.
Qed.

Lemma find_current_running s k i : callable s -> inv s -> find_task_by_id s k = Some i ->
  slot i /\ (i = current_task_index s -> state (tk s i) = TASK_STATE_RUNNING).
Proof.
  intros Ha Hi (Hs & _)%find_task_slot. split; [done|]. intros ->. destruct Ha as [E|[? _]]; [|done].
  rewrite E in Hs. by destruct Hs.
Qed.

Lemma inv_send_signal k signum s : callable s -> inv s -> inv (task_send_signal k signum s).1.
Proof.
  intros Ha Hi. unfold task_send_signal. case_match; [done|]. destruct (find_task_by_id s k) as [i|] eqn:E; [|done].
  destruct (find_current_running s k i Ha Hi E). by apply inv_queue_signal.
Qed.

Lemma mild_pop i s : slot i -> mild s (task_pop_pending_signal i s).1.
Proof. intros Hi. unfold task_pop_pending_signal. case_match; [apply mild_quiet; [done|quiet_tac]|apply mild_refl]. Qed.

Lemma push_frame_emit i f handler n s s' f' :
  task_push_user_signal_frame i f handler n s = Some (s', f') -> exists ef, s' = emit ef s.
Proof.
  unfold task_push_user_signal_frame. cbv zeta. repeat (case_match; [done|]). intros [= <- _]. eauto.
Qed.

(** What the delivery of a signal does to the state. *)
Record delivered (s s' : tasks_state) : Prop := Delivered {
  de_inv : inv s';
  de_current : current_task_index s' = current_task_index s;
  de_queue : grows s s';
}.

Lemma delivered_kill n s s1 :
  mild s s1 -> inv s -> 0 <= current_task_index s ->
  state (tk s (current_task_index s)) = TASK_STATE_RUNNING ->
  id (tk s (current_task_index s)) <> idle_task_id s -> delivered s (kill_by (current_task_index s) n s1).
Proof.
  intros M Hinv Hc Er Hid. pose proof (mild_inv _ _ M Hinv) as H1. pose proof (mi_current _ _ M) as Ec.
  assert (state (tk s1 (current_task_index s)) = TASK_STATE_RUNNING) as Er1.
  { destruct (mi_state _ _ M (current_task_index s)) as [->|[[E|E] _]]; [done|congruence..]. }
  split.
  - rewrite <- Ec. apply inv_restate_current; rewrite ?Ec; try done; [congruence|].
    by rewrite (mi_id _ _ M), (mi_idle _ _ M).
  - exact Ec.
  - apply (grows_trans _ s1); [by apply M, Hinv|]. apply grows_same; [done|]. intros j.
    unfold kill_by. rewrite tk_upd. case_decide as E; [by rewrite <- E|done].
Qed.

Lemma inv_deliver f s :
  0 <= current_task_index s -> inv s ->
  delivered s (task_deliver_signals_current (current_task_index s) f s).1.
Proof.
  intros Hc Hinv. set (c := current_task_index s) in *. unfold task_deliver_signals_current. cbv zeta.
  assert (delivered s s) as Hsame by (split; [done|done|by apply grows_same]).
  destruct (current_slot s (proj2 Hinv) Hc) as [Hi Hu]. fold c in Hi, Hu. rewrite Hu. cbn [negb orb].
  destruct (user_mode (img (tk s c))) eqn:Hm; [|done]. cbn [negb orb].
  destruct (state_is (state (tk s c)) TASK_STATE_RUNNING) eqn:Er; [|done]. cbn [negb].
  apply state_is_true in Er.
  assert (id (tk s c) <> idle_task_id s) as Hid.
  { intros E. destruct (idle_state s c) as (_ & _ & _ & Em & _); [apply Hinv|done..|]. congruence. }
  pose proof (mild_pop c s Hi) as M. destruct (task_pop_pending_signal c s) as [s1 n]. cbn [fst] in M.
  assert (forall s2, mild s s2 -> delivered s s2) as Hmild.
  { intros s2 M2. split; [by apply (mild_inv _ _ M2)|by apply mi_current|by apply (mi_queue _ _ M2), Hinv]. }
  assert (delivered s (kill_by c n s1)) as Hkill by (by apply delivered_kill).
  assert (delivered s s1) as H1 by auto.
  repeat case_match; subst; cbn [fst]; try done.
  match goal with H : task_push_user_signal_frame _ _ _ _ _ = Some _ |- _ =>
    apply push_frame_emit in H as [ef ->] end.
  apply Hmild. eapply mild_trans; [exact M|apply mild_emit].
Qed.

(** * Scheduling *)

(** Taking the head of a queue: a ready task is made the running one. *)
Section dispatch.
Context (q : Z -> list Z) (s : tasks_state) (p x : Z) (l : list Z).
Context (Hq : sched_ok (-1) q s) (Hp : prio_ok p) (Eq : q p = x :: l).

Lemma head_facts : slot x /\ used (tk s x) = true /\ priority (tk s x) = p /\ state (tk s x) = TASK_STATE_READY.
Proof.
  assert (x ∈ q p) as Hin by (rewrite Eq; left). pose proof (member_slot _ _ _ Hq p x Hp Hin) as Hx.
  destruct (so_member _ _ _ Hq p x Hp Hin) as (Hu & Epr & Hst). split_and!; [done..|].
  apply Hst. destruct Hx. lia.
Qed.

Lemma unlinked : sched_ok x (q_remove q x) (unlink s p x (-1)) /\ links_only s (unlink s p x (-1)).
Proof.
  destruct head_facts as (Hx & Hu & Epr & _). split; [|apply unlink_links].
  rewrite <- Epr. apply (unlink_spec q s x (sched_ok_open x _ _ Hq) Hx Hu [] l). by rewrite Epr.
Qed.

Lemma q_remove_head : q_remove q x p = l.
Proof.
  destruct (so_queue _ _ _ Hq p Hp) as (_ & _ & Hn). unfold q_remove. rewrite Eq in *.
  apply (filter_ne_split [] l x). done.
Qed.

Lemma q_remove_rest p' : prio_ok p' -> p' <> p -> q_remove q x p' = q p'.
Proof.
  destruct head_facts as (Hx & Hu & Epr & _). intros. apply (q_remove_other q s x); [|done|congruence].
  by apply sched_ok_open.
Qed.

End dispatch.

(** The variables a dispatch changes. *)
Definition dispatched (esp x : Z) (s : tasks_state) : tasks_state :=
  let s := s <| idle_context_rsp := esp |> <| current_task_index := x |> in
  let s := upd x (fun t => t <| state := TASK_STATE_RUNNING |>) s in
  let s := s <| ctx_switch_count := u32 (ctx_switch_count s + 1) |> in
  let s := emit (OutputVc (output_vc (tk s x))) s in
  emit (SwitchDirectory (if negb (page_directory (img (tk s x)) =? 0)
                         then page_directory (img (tk s x)) else paging_kernel_dir)) s.

Lemma dispatched_tk esp x s j :
  tk (dispatched esp x s) j = if decide (x = j) then (tk s x) <| state := TASK_STATE_RUNNING |> else tk s j.
Proof. unfold dispatched. cbv zeta. rewrite !tk_emit. exact (tk_upd x _ s j). Qed.

Lemma dispatched_field {A} (f : task_entry -> A) esp x s j :
  (forall t, f (t <| state := TASK_STATE_RUNNING |>) = f t) -> f (tk (dispatched esp x s) j) = f (tk s j).
Proof. intros Hf. rewrite dispatched_tk. case_decide as E; [rewrite <- E; apply Hf|done]. Qed.

Lemma good_dispatched esp x q s :
  slot x -> used (tk s x) = true -> current_task_index s = -1 -> good_out x q s ->
  good_q (-1) q (dispatched esp x s).
Proof.
  intros Hx Hu Hc [[Hq C] Hn]. split.
  - apply (sched_ok_close x); [|done|rewrite dispatched_tk, decide_True by done; by intros [_ ?]].
    apply (sched_ok_change x q s); try done.
    + intros j Hj. unfold nx. rewrite dispatched_tk. case_decide as E; [subst j|done]. split_and!; done.
    + intros j [Hj _] ->. lia.
  - destruct C as [C1 C2 C3 (k & Hk & C4) C5]. split.
    + intros i. rewrite (dispatched_field used), (dispatched_field id) by done. apply C1.
    + intros i j. rewrite !(dispatched_field used), !(dispatched_field id) by done. apply C2.
    + intros i Hi. rewrite (dispatched_field used), dispatched_tk by done. intros Hui.
      destruct (decide (x = i)) as [<-|Hne]; [done|]. intros Hr.
      rewrite (C3 i Hi Hui Hr), Hc in Hi. by destruct Hi.
    + exists k. split; [done|]. unfold alive_idle in *. rewrite dispatched_tk.
      case_decide as E; [subst k|done]. cbn. destruct C4 as (? & ? & ? & ? & _). split_and!; auto.
    + intros i. unfold kill_safe. rewrite (dispatched_field used), (dispatched_field sigs) by done. apply C5.
Qed.

Lemma idle_queued s : current_task_index s = -1 -> good (-1) s -> ready_queue s TASK_PRIORITY_IDLE <> [].
Proof.
  intros Hc [[q Hq] C]. rewrite (ready_queue_eq _ _ _ _ Hq) by done.
  destruct (c_idle _ C) as (k & Hk & Hu & _ & Hp & _ & Hst).
  assert (state (tk s k) = TASK_STATE_READY) as Hr.
  { destruct Hst as [|E]; [done|]. pose proof (c_run _ C k Hk Hu E) as Ek. destruct Hk. lia. }
  assert (k ∈ q (priority (tk s k))) as Hin.
  { apply Hq; [done|done|..]; destruct Hk; lia. }
  rewrite Hp in Hin. intros E. rewrite E in Hin. by apply elem_of_nil in Hin.
Qed.

(** Without a running task a task is dispatched: the first of the first queue
    that is not empty. *)
Lemma schedule_from_idle_spec esp s :
  current_task_index s = -1 -> good (-1) s ->
  exists p x l, prio_ok p /\ ready_queue s p = x :: l /\ slot x /\ used (tk s x) = true /\
    priority (tk s x) = p /\ (forall p', 0 <= p' < p -> ready_queue s p' = []) /\
    let s' := (schedule_from_idle esp s).1 in
    (schedule_from_idle esp s).2 = saved_rsp (tk s x) /\ inv s' /\ current_task_index s' = x /\
    (forall j, tk s' j = (tk s j) <| sched_next := sched_next (tk s' j) |>
                           <| state := (if decide (x = j) then TASK_STATE_RUNNING else state (tk s j)) |>) /\
    ready_queue s' p = l /\ (forall p', prio_ok p' -> p' <> p -> ready_queue s' p' = ready_queue s p').
Proof.
  intros Hc Hg. destruct (good_good_q _ _ Hg) as [q [Hq C]].
  destruct (select_spec _ _ _ Hq) as [[_ Hall]|(p & x & l & Hp & Eq & Es & Hfirst)].
  { destruct (idle_queued s Hc Hg). rewrite (ready_queue_eq _ _ _ _ Hq) by done. by apply Hall. }
  destruct (head_facts q s p x l Hq Hp Eq) as (Hx & Hu & Epr & Hst).
  destruct (unlinked q s p x l Hq Hp Eq) as [Hq1 L].
  assert (schedule_from_idle esp s =
    (dispatched esp x (unlink s p x (-1)), saved_rsp (tk s x))) as Erun.
  { unfold schedule_from_idle. rewrite Es, Epr, (proj2 (Z.ltb_ge x 0)) by (by destruct Hx). cbv zeta.
    rewrite (dequeue_unlink _ _ _ _ _ _ Hq Hp Eq). cbn [fst]. fold (dispatched esp x (unlink s p x (-1))).
    f_equal. change (saved_rsp (tk (dispatched esp x (unlink s p x (-1))) x) = saved_rsp (tk s x)).
    rewrite (dispatched_field saved_rsp) by done. by apply (links_field saved_rsp). }
  assert (good_q (-1) (q_remove q x) (dispatched esp x (unlink s p x (-1)))) as [Hq2 C2].
  { apply good_dispatched; [done|by rewrite (lo_used _ _ L)|by rewrite (lo_current _ _ L)|].
    split; [split; [done|by apply (links_core s)]|]. intros p' _ Hin.
    apply list_elem_of_filter in Hin as [? _]. done. }
  exists p, x, l. rewrite (ready_queue_eq _ _ _ _ Hq) by done. do 5 (split; [done|]).
  split. { intros p' Hp'. rewrite (ready_queue_eq _ _ _ _ Hq); [by apply Hfirst|]. destruct Hp. split; lia. }
  cbv zeta. rewrite Erun. cbn [fst snd]. split; [done|]. split.
  { split; [by eapply good_q_good; split|]. right. cbn. rewrite dispatched_tk, decide_True by done.
    split_and!; try done. by rewrite <- (lo_used _ _ L) in Hu. }
  split; [done|]. split.
  { intros j. rewrite dispatched_tk. pose proof (lo_task _ _ L j) as Ej. pose proof (lo_task _ _ L x) as Ex.
    case_decide as E; [subst j|];
      destruct (tk (unlink s p x (-1)) _), (tk s _); cbn in *; by simplify_eq. }
  split.
  - rewrite (ready_queue_eq _ _ _ _ Hq2) by done. by apply (q_remove_head q s).
  - intros p' Hp' Hne. rewrite (ready_queue_eq _ _ _ _ Hq2), (ready_queue_eq _ _ _ _ Hq) by done.
    by apply (q_remove_rest q s p x l).
Qed.

(** The running task leaves the processor. *)
Lemma inv_leave s :
  good (-1) s ->
  (used (tk s (current_task_index s)) = true -> state (tk s (current_task_index s)) <> TASK_STATE_RUNNING) ->
  (slot (current_task_index s) -> ready (tk s (current_task_index s)) ->
     current_task_index s ∈ ready_queue s (priority (tk s (current_task_index s)))) ->
  inv (s <| current_task_index := -1 |>).
Proof.
  intros [[q Hq] C] Hr Hin. set (s' := s <| current_task_index := -1 |>).
  assert (forall j, tk s' j = tk s j) as E by done. split; [|by left]. split.
  - exists q. apply (sched_ok_change (-1) q s); try done. intros j Hj -> _ _ HR.
    rewrite <- (ready_queue_eq _ _ _ _ Hq); [by apply Hin|]. apply Hq; [done|by destruct HR].
  - destruct C as [C1 C2 C3 C4 C5]. split; try done. intros i Hi Hu Hst. exfalso.
    pose proof (C3 i Hi Hu Hst) as ->. by apply Hr.
Qed.

(** A task that is made ready is in the queue of its priority. *)
Lemma make_ready_queued i s :
  slot i -> used (tk s i) = true -> good (-1) s -> i ∈ ready_queue (make_ready i s) (priority (tk s i)).
Proof.
  intros Hi Hu Hg. assert (prio_ok (priority (tk s i))) as Hp by (destruct Hg as [[q Hq] _]; by apply Hq).
  rewrite make_ready_queue by done. destruct (decide (_ /\ _)) as [_|Ed]; [set_solver|].
  apply not_and_r in Ed as [Ed|Ed]; [done|]. by apply dec_stable in Ed.
Qed.

(** What the switch away from a task does to the others. *)
Record departed (c : Z) (s s' : tasks_state) : Prop := Departed {
  le_inv : inv s';
  le_current : current_task_index s' = -1;
  le_idle : idle_task_id s' = idle_task_id s;
  le_others j : j <> c -> used (tk s' j) = used (tk s j) /\ id (tk s' j) = id (tk s j);
  le_queue : grows s s';
  le_last : state (tk s c) = TASK_STATE_RUNNING -> c ∈ ready_queue s' (priority (tk s c)) /\
    used (tk s' c) = true /\ id (tk s' c) = id (tk s c) /\ priority (tk s' c) = priority (tk s c);
  le_gone : over (state (tk s c)) -> used (tk s' c) = false \/ state (tk s' c) = TASK_STATE_ZOMBIE;
}.

Lemma back_to_idle_spec esp s :
  0 <= current_task_index s -> inv s -> departed (current_task_index s) s (schedule_back_to_idle esp s).1.
Proof.
  intros Hc Hinv. destruct (current_slot s (proj2 Hinv) Hc) as [Hi Hu]. unfold schedule_back_to_idle.
  set (c := current_task_index s) in *. rewrite (proj2 (Z.ltb_ge c 0)) by done. cbv zeta. cbn [fst].
  set (s1 := emit (SwitchDirectory _) _).
  assert (mild s s1) as M.
  { unfold s1. eapply mild_trans; [|apply mild_emit]. eapply mild_trans; [|apply mild_emit].
    apply mild_quiet; [done|quiet_tac]. }
  assert (forall (A : Type) (f : task_entry -> A) j, (forall t, f (t <| saved_rsp := esp |>) = f t) ->
            f (tk s1 j) = f (tk s j)) as Ef.
  { intros A f j Hf. unfold s1. rewrite !tk_emit, tk_upd. case_decide as E; [by rewrite <- E|done]. }
  assert (current_task_index s1 = c) as Ec by done. clearbody s1.
  pose proof (mild_inv _ _ M Hinv) as [Hg1 Hc1]. pose proof (mi_queue _ _ M (proj1 Hinv)) as Hgr.
  assert (used (tk s1 c) = true) as Hu1 by (by rewrite (Ef _ used)).
  destruct (state_is _ TASK_STATE_RUNNING || state_is _ TASK_STATE_READY) eqn:Er.
  - (* it goes back to its queue *)
    set (s2 := make_ready c s1).
    assert (state (tk s2 c) = TASK_STATE_READY) as E2
      by (unfold s2; rewrite (make_ready_field state) by done; by rewrite decide_True).
    assert (forall (A : Type) (f : task_entry -> A) j, (forall t, f (t <| sched_next := 0 |>) = f t) ->
              (forall t, f (t <| state := TASK_STATE_READY |>) = f t) ->
              (forall t, f (t <| saved_rsp := esp |>) = f t) -> f (tk s2 j) = f (tk s j)) as E2f.
    { intros A f j H1 H2 H3. unfold s2. rewrite (make_ready_field f), <- (Ef _ f) by done.
      case_decide as E; [by rewrite <- E, H2|done]. }
    pose proof (make_ready_queued c s1 Hi Hu1 Hg1) as Hin. fold s2 in Hin.
    rewrite (Ef _ priority) in Hin by done.
    pose proof (good_make_ready c s1 Hi Hu1 Hg1) as Hg2. fold s2 in Hg2.
    pose proof (grows_make_ready c s1 Hi Hu1 Hg1) as Hgr2. fold s2 in Hgr2.
    assert (current_task_index s2 = c) as Ec2 by (unfold s2; by rewrite make_ready_current).
    assert (idle_task_id s2 = idle_task_id s) as Ei2
      by (unfold s2; rewrite make_ready_rest; apply (mi_idle _ _ M)).
    clearbody s2. rewrite E2. change (state_is TASK_STATE_READY TASK_STATE_FINISHED) with false.
    change (state_is TASK_STATE_READY TASK_STATE_CANCELLED) with false. rewrite andb_false_r. split.
    + apply inv_leave; rewrite ?Ec2; [done|by rewrite E2|]. intros _ _. by rewrite (E2f _ priority).
    + done.
    + done.
    + intros j Hj. split; [by apply (E2f _ used)|by apply (E2f _ id)].
    + apply (grows_trans _ s1); [done|]. apply (grows_trans _ s2); [done|by apply grows_same].
    + intros _. split; [exact Hin|]. split_and!; [rewrite <- Hu; by apply (E2f _ used c)|by apply (E2f _ id c)|by apply (E2f _ priority c)].
    + intros Ho. rewrite (Ef _ state) in Er by done. by destruct Ho as [E|E]; rewrite E in Er.
  - apply orb_false_iff in Er as [Er1 Er2]. apply state_is_false in Er1, Er2.
    assert (state (tk s c) <> TASK_STATE_RUNNING) as Er0 by (by rewrite <- (Ef _ state)).
    rewrite Hu1. cbn [andb]. destruct (_ || _) eqn:Eo.
    + (* it ends *)
      assert (over (state (tk s1 c))) as Ho.
      { apply orb_prop in Eo as [Eo|Eo]; apply state_is_true in Eo; [by left|by right]. }
      destruct (complete_spec c s1 Hi Hu1 Ho (good_open c _ Hg1)) as [E1 E2 E3 E4 E5 E6 E7 E8].
      split.
      * apply inv_leave; rewrite ?E2, ?Ec; [done|..].
        -- intros Hux. destruct E6 as [E6|[E6 _]]; congruence.
        -- intros _ [HU HR]. destruct E6 as [E6|[E6 _]]; congruence.
      * done.
      * cbn. by rewrite E3, (mi_idle _ _ M).
      * intros j Hj. destruct (E7 j Hj) as [F1 F2]. split; [exact (eq_trans F1 (mi_used _ _ M j))|exact (eq_trans F2 (mi_id _ _ M j))].
      * apply (grows_trans _ s1); [done|].
        apply (grows_trans _ (complete_task c s1)); [|by apply grows_same].
        apply E8. intros p Hp. by apply not_queued.
      * done.
      * intros _. destruct E6 as [E6|[E6 _]]; [by left|by right].
    + split.
      * apply inv_leave; rewrite ?Ec; [done|done|]. intros _ [_ ?]. done.
      * done.
      * apply (mi_idle _ _ M).
      * intros j _. split; [apply (mi_used _ _ M)|apply (mi_id _ _ M)].
      * apply (grows_trans _ s1); [done|by apply grows_same].
      * done.
      * intros Ho. rewrite (Ef _ state) in Eo by done. by destruct Ho as [E|E]; rewrite E in Eo.
Qed.

Lemma inv_on_timer esp f s : inv s -> inv (task_schedule_on_timer esp f s).1.1.
Proof.
  intros Hi. unfold task_schedule_on_timer. destruct (Z.leb_spec 0 (current_task_index s)) as [Hc|Hc].
  - destruct (inv_deliver f s Hc Hi) as [H1 E1 _]. destruct (task_deliver_signals_current _ f s) as [s1 f1].
    cbn [fst] in *. apply back_to_idle_spec; [lia|done].
  - destruct Hi as [Hg [E|(? & _)]]; [|by destruct H; lia].
    destruct (schedule_from_idle_spec esp s E Hg) as (p & x & l & _ & _ & _ & _ & _ & _ & _ & H & _). done.
Qed.

Lemma inv_on_syscall esp f s : inv s -> inv (task_schedule_on_syscall esp f s).1.1.
Proof.
  intros Hi. unfold task_schedule_on_syscall. destruct (Z.leb_spec 0 (current_task_index s)) as [Hc|Hc]; [|done].
  destruct (inv_deliver f s Hc Hi) as [H1 E1 _]. destruct (task_deliver_signals_current _ f s) as [s1 f1].
  cbn [fst] in *. case_match; cbn [fst]; [|done]. apply back_to_idle_spec; [lia|done].
Qed.

(** * Time *)

Lemma mild_tick_task now i s : slot i -> mild s (tick_task now i s).
Proof.
  intros Hi. unfold tick_task. destruct (used (tk s i)) eqn:Hu; [|apply mild_refl]. cbn [negb].
  assert (forall (b : bool) f s, used (tk s i) = true ->
    (b = true -> state (tk s i) = TASK_STATE_BLOCKED \/ state (tk s i) = TASK_STATE_SLEEPING) ->
    (forall t, quiet t (f t)) -> mild s (if b then make_ready i (upd i f s) else s)) as Hwake.
  { intros b f s0 Hu0 Hb Hf. destruct b; [|apply mild_refl]. apply mild_wake; auto. }
  cbv zeta. match goal with |- context [upd i (fun t => t <| wake_tick := 0 |>) s] =>
    match goal with |- context [if ?b then make_ready i (upd i ?f s) else s] =>
      set (s1 := if b then make_ready i (upd i f s) else s) end end.
  assert (mild s s1) as M1.
  { apply Hwake; [done| |quiet_tac]. intros [Hs _]%andb_prop. apply state_is_true in Hs. by right. }
  assert (used (tk s1 i) = true) as Hu1 by (by rewrite (mi_used _ _ M1)). clearbody s1.
  match goal with |- context [if ?b then make_ready i (upd i ?f s1) else s1] =>
    set (s2 := if b then make_ready i (upd i f s1) else s1) end.
  assert (mild s1 s2) as M2.
  { apply Hwake; [done| |quiet_tac]. intros [[Hs _]%andb_prop _]%andb_prop. apply state_is_true in Hs. by left. }
  assert (used (tk s2 i) = true) as Hu2 by (by rewrite (mi_used _ _ M2)). clearbody s2.
  apply (mild_trans _ _ _ M1), (mild_trans _ _ _ M2). case_match; [|apply mild_refl].
  match goal with |- context [if _ then make_ready i (upd i _ ?x) else _] => set (s3 := x) end.
  assert (mild s2 s3) as M3 by (apply mild_quiet; [done|quiet_tac]).
  assert (used (tk s3 i) = true) as Hu3 by (by rewrite (mi_used _ _ M3)). clearbody s3.
  apply (mild_trans _ _ _ M3). apply Hwake; [done| |quiet_tac].
  intros [Hs|Hs]%orb_prop; apply state_is_true in Hs; auto.
Qed.

Lemma mild_on_tick now s : mild s (task_on_tick now s).
Proof. apply mild_loop. intros. by apply mild_tick_task. Qed.

(** * Creation *)

Lemma free_slot s i : find_free_slot s = Some i -> slot i /\ used (tk s i) = false.
Proof.
  intros (Hr & HP & _)%find_first_Some. apply negb_true_iff in HP. split; [|done].
  unfold slot, TASK_MAX_COUNT. change (Z.of_nat table) with 16 in Hr. lia.
Qed.

(** A free slot has been filled with a new ready task that is in no queue. *)
Record fresh (i : Z) (s s1 : tasks_state) : Prop := Fresh {
  fr_elsewhere : elsewhere i s s1;
  fr_next : next_task_id s < next_task_id s1;
  fr_used : used (tk s1 i) = true;
  fr_id : id (tk s1 i) = next_task_id s;
  fr_state : state (tk s1 i) = TASK_STATE_READY;
  fr_prio : prio_ok (priority (tk s1 i));
  fr_kill : kill_safe (tk s1 i);
}.

Lemma fresh_upd i f s s1 : (forall t, quiet t (f t)) -> fresh i s s1 -> fresh i s (upd i f s1).
Proof.
  intros Hf [F1 F2 F3 F4 F5 F6 F7]. destruct (Hf (tk s1 i)) as (Q1 & Q2 & Q3 & Q4 & _ & _ & Q7).
  split; rewrite ?tk_upd_eq, ?Q1, ?Q2, ?Q3, ?Q4; auto.
  eapply elsewhere_trans; [exact F1|apply elsewhere_upd].
Qed.

Lemma fresh_globals i s s1 s2 : globals s1 s2 -> fresh i s s1 -> fresh i s s2.
Proof.
  intros G [F1 F2 F3 F4 F5 F6 F7].
  assert (tk s2 i = tk s1 i) as E by (unfold tk; by rewrite (gl_tasks _ _ G)).
  split; rewrite ?E; try done.
  - eapply elsewhere_trans; [exact F1|]. by apply globals_elsewhere.
  - pose proof (gl_next _ _ G). lia.
Qed.

Lemma fresh_emit i ef s s1 : fresh i s s1 -> fresh i s (emit ef s1).
Proof. apply fresh_globals, globals_emit. Qed.

Lemma fresh_init_stack i s s1 : fresh i s s1 -> fresh i s (initialize_task_stack i s1).
Proof. intros F. unfold initialize_task_stack. cbv zeta. apply fresh_upd; [quiet_tac|]. by apply fresh_emit. Qed.

Lemma fresh_foreground i v s s1 (b : bool) :
  fresh i s s1 -> fresh i s (if b then s1 <| foreground_task_id := v |> else s1).
Proof. intros F. destruct b; [|done]. apply (fresh_globals i s s1); [|done]. by split. Qed.

Section fresh.
Context (i : Z) (s s1 : tasks_state) (Hi : slot i) (Hu : used (tk s i) = false) (F : fresh i s s1).

Lemma fresh_not_current : cur_ok s -> i <> current_task_index s.
Proof. intros [E|(_ & Hc & _)] ->; [rewrite E in Hi; by destruct Hi|congruence]. Qed.

Lemma fresh_cur : cur_ok s -> cur_ok s1.
Proof.
  intros Hc. pose proof (fresh_not_current Hc) as Hne. destruct F as [[E1 _ _ _ E5 _] _ _ _ _ _ _].
  unfold cur_ok in *. rewrite E5, E1 by congruence. done.
Qed.

Lemma fresh_not_idle : core s -> id (tk s1 i) <> idle_task_id s1.
Proof.
  intros C. destruct (c_idle _ C) as (k & Hk & Hku & Hid & _). pose proof (c_id _ C k Hk Hku).
  destruct F as [[E1 _ _ _ _ E6] _ _ E _ _ _]. rewrite E, E6. lia.
Qed.

Lemma fresh_good : good (-1) s -> exists q, good_out i q s1.
Proof.
  intros [[q Hq] C]. destruct F as [F1 F2 F3 F4 F5 F6 F7].
  assert (forall p, prio_ok p -> i ∉ q p) as Hn.
  { intros p Hp Hin. destruct (so_member _ _ _ Hq p i Hp Hin) as (? & _). congruence. }
  exists q. split; [split|done].
  - apply (sched_ok_replace i q s); [by apply sched_ok_open|done|done|done].
  - apply (core_replace i s); [done|done|lia|..].
    + intros _. rewrite F4. split_and!.
      * destruct (c_idle _ C) as (k & Hk & Hku & _). pose proof (c_id _ C k Hk Hku). lia.
      * lia.
      * intros j Hj Hne Huj E. pose proof (c_id _ C j Hj Huj). lia.
      * rewrite F5. done.
      * done.
    + intros (? & _). congruence.
Qed.

Lemma fresh_clear : inv s -> inv (clear_task i s1).
Proof.
  intros [Hg Hc]. destruct (fresh_good Hg) as (q & Hq & _). pose proof (good_q_good _ _ _ Hq) as Hg1. split.
  - apply clear_good; [done|by apply F|by apply fresh_not_idle, Hg|done].
  - apply (cur_others i s1); [apply clear_others| |by apply fresh_cur].
    rewrite (el_current _ _ _ (fr_elsewhere _ _ _ F)). pose proof (fresh_not_current Hc). congruence.
Qed.

Lemma fresh_enqueue : inv s -> inv (sched_enqueue_ready i s1).
Proof.
  intros [Hg Hc]. destruct (fresh_good Hg) as (q & Hq & _). split.
  - apply (good_enqueue i); [done|split; apply F|by left|]. by apply good_q_good in Hq.
  - apply (links_cur s1); [apply enqueue_links|]. by apply fresh_cur.
Qed.

Lemma fresh_drop : inv s -> inv (upd i (fun t => t <| used := false |>) s1).
Proof.
  intros [Hg Hc]. destruct (fresh_good Hg) as (q & Hq). split.
  - eapply good_q_good, good_out_replace; [done|exact Hq|..].
    + intros (_ & E & _). by apply fresh_not_idle in E; [|apply Hg].
    + done.
  - apply (cur_others i s1); [apply others_upd| |by apply fresh_cur].
    rewrite (el_current _ _ _ (fr_elsewhere _ _ _ F)). pose proof (fresh_not_current Hc). congruence.
Qed.

End fresh.

(** The first update of the slot. *)
Lemma fresh_fill i f s :
  used (f (tk s i)) = true -> id (f (tk s i)) = next_task_id s -> state (f (tk s i)) = TASK_STATE_READY ->
  prio_ok (priority (f (tk s i))) -> kill_safe (f (tk s i)) ->
  fresh i s (upd i f (s <| next_task_id := next_task_id s + 1 |>)).
Proof.
  intros. split; rewrite ?tk_upd_eq; try done; [|cbn; lia]. split; try done.
  intros j Hj. by rewrite tk_upd_ne.
Qed.

Lemma kill_safe_init t : kill_safe (task_signal_handlers_init t).
Proof. split; [apply Z.testbit_0_l|done]. Qed.

Lemma fresh_new_task i g text fg vc s :
  fresh i s (upd i (fun t => new_task s text fg vc (g t)) (s <| next_task_id := next_task_id s + 1 |>)).
Proof.
  apply fresh_fill; [done|done|done| |apply kill_safe_init]. cbn. destruct fg; by split.
Qed.

Lemma inv_spawn text fn size fg vc kstack block s :
  inv s -> inv (task_spawn text fn size fg vc kstack block s).1.
Proof.
  intros Hinv. unfold task_spawn. do 2 (case_match; [done|]).
  destruct (find_free_slot s) as [i|] eqn:Ef; [|done]. destruct (free_slot s i Ef) as [Hi Hu]. cbv zeta.
  set (s1 := upd i (fun t => t <| stack := kstack |>) _).
  assert (fresh i s s1) as F1.
  { apply fresh_upd; [quiet_tac|]. apply fresh_emit, fresh_emit, fresh_new_task. }
  clearbody s1. case_match; [by apply (fresh_clear i s)|]. case_match; [by apply (fresh_clear i s)|].
  cbn [fst]. apply (fresh_enqueue i s); [done|done| |done]. apply fresh_foreground, fresh_init_stack.
  case_match; [|done]. by apply fresh_upd; [quiet_tac|].
Qed.

Lemma inv_spawn_user text entry base hb hs dir esp seg fg vc kstack attached s :
  inv s -> inv (task_spawn_user_common text entry base hb hs dir esp seg fg vc kstack attached s).1.
Proof.
  intros Hinv. unfold task_spawn_user_common. do 2 (case_match; [done|]).
  destruct (find_free_slot s) as [i|] eqn:Ef; [|done]. destruct (free_slot s i Ef) as [Hi Hu]. cbv zeta.
  set (s1 := emit (FdInit i) _).
  assert (fresh i s s1) as F1 by (apply fresh_emit, fresh_emit, fresh_new_task).
  clearbody s1. case_match; [by apply (fresh_clear i s)|]. set (s2 := upd i _ s1).
  assert (fresh i s s2) as F2 by (apply fresh_upd; [quiet_tac|done]). clearbody s2.
  case_match; [by apply (fresh_clear i s)|].
  cbn [fst]. apply (fresh_enqueue i s); [done|done| |done]. by apply fresh_foreground, fresh_init_stack.
Qed.

Lemma sanitized_bit m : Z.testbit (signal_mask_sanitize m) LYTH_SIGKILL = false.
Proof. unfold signal_mask_sanitize. rewrite Z.land_spec. cbn. by rewrite andb_false_r. Qed.

Lemma kill_safe_copy t p : kill_safe (task_signal_handlers_copy t p).
Proof. split; [apply sanitized_bit|]. cbn. by rewrite sget_sset_eq. Qed.

Lemma inv_fork f dir kstack ok s : inv s -> inv (task_fork_from_frame f dir kstack ok s).1.
Proof.
  intros Hinv. unfold task_fork_from_frame. cbv zeta. set (c := current_task_index s).
  destruct (Z.ltb_spec c 0) as [Hc|Hc]; [done|]. destruct (current_slot s (proj2 Hinv) Hc) as [Hs Huc].
  fold c in Hs, Huc. case_match; [done|].
  destruct (find_free_slot s) as [i|] eqn:Ef; [|done]. destruct (free_slot s i Ef) as [Hi Hu].
  case_match; [done|]. set (s0 := upd c _ s).
  assert (mild s s0) as M by (apply mild_quiet; [done|quiet_tac]).
  pose proof (mild_inv _ _ M Hinv) as Hinv0. rewrite <- (mi_used _ _ M) in Hu, Huc.
  assert (current_task_index s0 = c) as Ec by done. clearbody s0.
  case_match; [by apply inv_emit, inv_emit|].
  set (s1 := emit (ShmReset i) _).
  assert (fresh i s0 s1) as F1.
  { apply fresh_emit, fresh_fill; [done|done|done| |apply kill_safe_copy].
    destruct Hinv0 as [[[q Hq] _] _]. by apply Hq. }
  clearbody s1. case_match.
  - cbn [fst]. apply (fresh_drop i s0); [done|done| |done]. by apply fresh_emit, fresh_emit, fresh_emit.
  - cbn [fst]. apply (fresh_enqueue i s0); [done|done| |done].
    apply fresh_upd; [quiet_tac|]. apply fresh_emit. apply fresh_upd; [quiet_tac|].
    apply fresh_emit. by apply fresh_upd; [quiet_tac|].
Qed.

(** * Calls of the running task *)

Lemma reset_caught_kill h : sget h LYTH_SIGKILL = LYTH_SIG_DFL -> sget (reset_caught h) LYTH_SIGKILL = LYTH_SIG_DFL.
Proof.
  intros Hh. unfold reset_caught. apply (for_loop_ind (fun _ h => sget h LYTH_SIGKILL = LYTH_SIG_DFL)); [done|].
  intros n h' _ H'. case_match; [|done]. rewrite sget_sset. by case_decide.
Qed.

Lemma inv_exec f nm entry base hb hs dir esp s :
  callable s -> inv s -> inv (task_exec_current_user_from_frame f nm entry base hb hs dir esp s).1.1.
Proof.
  intros Ha Hinv. unfold task_exec_current_user_from_frame. cbv zeta. set (c := current_task_index s).
  destruct ((c <? 0) || _ || _ || _) eqn:E0; [done|].
  assert (0 <= c) as Hc by (repeat apply orb_false_iff in E0 as [E0 _]; by apply Z.ltb_ge in E0).
  destruct (current_slot s (proj2 Hinv) Hc) as [Hs Hu]. fold c in Hs, Hu.
  destruct Ha as [E|[Er _]]; [fold c in E; lia|]. fold c in Er.
  destruct (negb (used (tk s c)) || _) eqn:E1; [done|].
  apply orb_false_iff in E1 as [_ Hm]. apply negb_false_iff in Hm.
  set (esp' := if esp =? 0 then _ else esp). destruct ((esp' <? _) || _); [done|]. cbn [fst]. set (s1 := kfree_if true (data (tk s c)) s).
  pose proof (logged_kfree_if true (data (tk s c)) s) as L. fold s1 in L.
  assert (inv s1) as H1 by (apply (inv_globals s); [by apply logged_globals|done]).
  assert (tk s1 c = tk s c) as Et by (by apply logged_tk). clearbody s1.
  match goal with |- context [emit (SwitchDirectory dir) ?x] => set (s2 := x) end.
  assert (inv s2) as H2.
  { apply inv_quiet; [done| |done]. rewrite Et. unfold quiet, kill_safe. cbn. split_and!; try done.
    intros [K1 K2]. split; [done|by apply reset_caught_kill]. }
  clearbody s2 esp'. case_match; [by apply inv_emit|]. apply inv_emit.
  case_match; apply inv_emit; (apply inv_quiet; [done|unfold quiet, kill_safe; cbn; split_and!; auto|]);
    by apply inv_emit, inv_emit, inv_emit.
Qed.

(** ** Cancellation and the terminal *)

Lemma mild_request_cancel i s : slot i -> used (tk s i) = true -> mild s (request_cancel i s).
Proof.
  intros Hi Hu. unfold request_cancel. cbv zeta. set (s1 := upd i _ s).
  assert (mild s s1) as M by (apply mild_quiet; [done|quiet_tac]).
  rewrite <- (mi_used _ _ M) in Hu. clearbody s1. apply (mild_trans _ _ _ M).
  destruct (_ || _) eqn:E; [|apply mild_refl]. apply mild_wake; [done|done| |quiet_tac].
  apply orb_prop in E as [E|E]; apply state_is_true in E; auto.
Qed.

Lemma mild_foreground_cancel s : mild s (task_request_foreground_cancel s).
Proof.
  unfold task_request_foreground_cancel. case_match; [apply mild_refl|].
  destruct (find_task_by_id s _) as [i|] eqn:E; [|apply mild_refl].
  apply find_task_slot in E as (Hi & Hu & _). by apply mild_request_cancel.
Qed.

Lemma inv_request_cancel s : inv s -> inv (task_request_cancel s).
Proof.
  intros Hinv. unfold task_request_cancel. destruct (Z.ltb_spec (current_task_index s) 0) as [|Hc]; [done|].
  destruct (current_slot s (proj2 Hinv) Hc). eapply mild_inv; [|done]. by apply mild_request_cancel.
Qed.

(** An update of a task that is looked up. *)
Lemma inv_find_quiet k f s :
  (forall t, quiet t (f t)) -> inv s ->
  inv (match find_task_by_id s k with Some i => upd i f s | None => s end).
Proof.
  intros Hf Hinv. destruct (find_task_by_id s k) as [i|] eqn:E; [|done].
  apply find_task_slot in E as (Hi & _). by apply inv_quiet.
Qed.

Lemma inv_clear_cancel s : inv s -> inv (task_clear_cancel s).
Proof.
  intros Hinv. unfold task_clear_cancel. case_match; [by apply inv_on_current_quiet; [quiet_tac|]|].
  case_match; [done|]. apply inv_find_quiet; [quiet_tac|done].
Qed.

Lemma inv_set_foreground i s : inv s -> inv (task_set_foreground i s).1.
Proof.
  intros Hinv. unfold task_set_foreground. cbv zeta.
  match goal with |- context [if ?b then s else ?x] => set (s1 := if b then s else x) end.
  assert (inv s1) as H1.
  { unfold s1. case_match; [done|].
    apply (inv_globals (match find_task_by_id s (foreground_task_id s) with
                        | Some k => upd k (fun t => t <| foreground := false |>) s | None => s end)).
    - by split.
    - apply inv_find_quiet; [quiet_tac|done]. }
  clearbody s1. case_match; [done|]. destruct (find_task_by_id s1 i) as [k|] eqn:E; [|done].
  apply find_task_slot in E as (Hk & _). case_match; [done|]. cbn [fst].
  apply (inv_globals (upd k (fun t => t <| foreground := true |>) s1)); [by split|].
  apply inv_quiet; [done|unfold quiet, kill_safe; cbn; split_and!; auto|done].
Qed.

(** ** Priorities *)

(** The priority of a task that is in no queue. *)
Lemma good_out_priority i v q s :
  slot i -> used (tk s i) = true -> id (tk s i) <> idle_task_id s -> prio_ok v -> good_out i q s ->
  good_out i q (upd i (fun t => t <| priority := v |>) s).
Proof.
  intros Hi Hu Hid Hv [[Hq C] Hn]. split; [split|done].
  - apply (sched_ok_replace i q s); [done|done|apply elsewhere_upd|]. by rewrite tk_upd_eq.
  - apply (core_replace i s); [done|apply elsewhere_upd|cbn; lia|..]; rewrite tk_upd_eq; cbn.
    + intros _. split_and!.
      * by apply (c_id _ C).
      * by apply (c_id _ C).
      * intros j Hj Hne Huj E. apply Hne. by apply (c_uniq _ C).
      * by apply (c_run _ C).
      * by apply (c_kill _ C).
    + intros (_ & E & _). done.
Qed.

Lemma cur_priority i v s : cur_ok s -> cur_ok (upd i (fun t => t <| priority := v |>) s).
Proof. unfold cur_ok. cbn. rewrite tk_upd. case_decide as E; [|done]. by rewrite <- E. Qed.

Lemma inv_set_priority i prio s : inv s -> inv (task_set_priority i prio s).1.
Proof.
  intros [Hg Hc]. unfold task_set_priority. destruct (_ || _) eqn:Ep; [done|].
  assert (prio_ok prio) as Hp.
  { apply orb_false_iff in Ep as [E1%Z.ltb_ge E2%Z.ltb_ge]. unfold prio_ok, SCHED_PRIO_COUNT,
      TASK_PRIORITY_HIGH, TASK_PRIORITY_LOW in *. lia. }
  destruct (find_task_by_id s i) as [k|] eqn:E; [|done]. apply find_task_slot in E as (Hk & Hu & _).
  destruct (Z.eqb_spec (id (tk s k)) (idle_task_id s)) as [|Hid]; [done|]. case_match; [done|].
  destruct (state_is _ TASK_STATE_READY) eqn:Er; cbn [fst].
  - apply state_is_true in Er. set (s0 := sched_remove_from_ready k s).
    pose proof (remove_links k s) as L. fold s0 in L. destruct (good_good_q _ _ Hg) as [q Hq].
    assert (good_out k (q_remove q k) s0) as Ho.
    { apply good_remove; [done|done|]. destruct Hq. split; [by apply sched_ok_open|done]. }
    apply (good_out_priority k prio) in Ho; [|done|by rewrite (lo_used _ _ L)| |done].
    2: { rewrite (links_field id s s0), (lo_rest _ _ L) by done. done. }
    split.
    + apply (good_enqueue k); [done| |by left|by apply good_q_good with (q_remove q k), Ho].
      rewrite tk_upd_eq. split; cbn; [by rewrite (lo_used _ _ L)|by rewrite (lo_state _ _ L)].
    + eapply links_cur; [apply enqueue_links|]. apply cur_priority. by apply (links_cur s).
  - apply state_is_false in Er. split; [|by apply cur_priority].
    destruct Hg as [[q Hq] C].
    assert (good_out k q s) as Ho.
    { split; [split; [by apply sched_ok_open|done]|]. intros p Hp'.
      rewrite <- (ready_queue_eq _ _ _ _ Hq) by done. apply not_queued; try done. split; [by exists q|done]. }
    apply (good_q_good _ q), (good_close k); [by apply good_out_priority|]. by rewrite tk_upd_eq.
Qed.

(** ** Signals of the running task *)

Lemma inv_set_signal_handler n h s : inv s -> inv (task_set_signal_handler n h s).1.1.
Proof.
  intros Hinv. unfold task_set_signal_handler. cbv zeta. destruct (_ || _ || _) eqn:E; [done|].
  apply orb_false_iff in E as [[E1%Z.ltb_ge _]%orb_false_iff E2%Z.eqb_neq].
  case_match; [done|]. cbn [fst]. destruct (current_slot s (proj2 Hinv) E1).
  apply inv_quiet; [done| |done]. unfold quiet, kill_safe. cbn. split_and!; try done.
  intros [K1 K2]. split; [done|]. by rewrite sget_sset_ne.
Qed.

Lemma inv_sigprocmask how mask s : inv s -> inv (task_sigprocmask how mask s).1.
Proof.
  intros Hinv. unfold task_sigprocmask. cbv zeta.
  destruct (Z.ltb_spec (current_task_index s) 0) as [|Hc]; [done|].
  destruct (current_slot s (proj2 Hinv) Hc) as [Hi _].
  assert (forall m, inv (upd (current_task_index s) (fun t => t <| sigs := (sigs t) <| signal_mask :=
            signal_mask_sanitize (m (signal_mask (sigs t))) |> |>) s)) as Hset.
  { intros m. apply inv_quiet; [done| |done]. unfold quiet, kill_safe. cbn. split_and!; try done.
    intros [_ K]. split; [apply sanitized_bit|done]. }
  case_match; [apply (Hset (fun old => Z.lor old (signal_mask_sanitize mask)))|].
  case_match; [apply (Hset (fun old => Z.land old (not32 (signal_mask_sanitize mask))))|].
  case_match; [apply (Hset (fun _ => signal_mask_sanitize mask))|done].
Qed.

(** ** Children *)

Lemma inv_clear_zombie i s :
  slot i -> used (tk s i) = true -> state (tk s i) = TASK_STATE_ZOMBIE -> inv s -> inv (clear_task i s).
Proof.
  intros Hi Hu Hz [Hg Hc]. split.
  - apply clear_good; [done|done| |by apply good_open]. intros E.
    destruct (idle_state s i) as (_ & _ & _ & _ & Hst); [by apply Hg|done..|]. rewrite Hz in Hst. by destruct Hst.
  - apply (cur_others i s); [apply clear_others| |done]. intros E. rewrite <- E in *.
    destruct Hc as [E'|(_ & _ & _ & ?)]; [|done]. rewrite E' in Hi. by destruct Hi.
Qed.

Lemma inv_reap parent s : inv s -> inv (task_reap_zombies_for parent s).1.
Proof.
  intros Hinv. unfold task_reap_zombies_for. apply (for_loop_ind (fun _ x => inv x.1)); [done|].
  intros i [t n] Hi Ht. cbn [fst] in *. destruct (_ && _ && _) eqn:E; [|done]. cbn [fst].
  apply andb_prop in E as [[Hu Hz]%andb_prop _]. apply state_is_true in Hz.
  by apply inv_clear_zombie.
Qed.

Lemma zombie_child_spec s self i :
  zombie_child s self = Some i ->
  slot i /\ used (tk s i) = true /\ parent_id (tk s i) = self /\ state (tk s i) = TASK_STATE_ZOMBIE.
Proof.
  intros (Hr & HP & _)%find_first_Some. apply andb_prop in HP as [[Hu Hp]%andb_prop Hz].
  apply state_is_true in Hz. apply Z.eqb_eq in Hp. split_and!; try done.
Qed.

Lemma inv_block_on event s : callable s -> inv s -> inv (block_on event s).
Proof. intros Ha Hi. apply inv_on_current; [done|intros t; restate_tac|by intros|done]. Qed.

Lemma inv_wait_id target s : callable s -> inv s -> inv (task_wait_id target s).
Proof.
  intros Ha Hinv. unfold task_wait_id. case_match; [done|]. cbv zeta. case_match.
  - destruct (zombie_child s _) as [i|] eqn:E.
    + apply zombie_child_spec in E as (? & ? & _ & ?). by apply inv_clear_zombie.
    + case_match; [by apply inv_block_on|done].
  - case_match; [done|]. destruct (find_task_by_id s target) as [k|] eqn:E; [|done].
    apply find_task_slot in E as (? & ? & _). destruct (state_is _ _) eqn:Ez; [|by apply inv_block_on].
    apply state_is_true in Ez. case_match; [by apply inv_clear_zombie|done].
Qed.

Lemma inv_collect k uptr s :
  slot k -> used (tk s k) = true -> state (tk s k) = TASK_STATE_ZOMBIE -> inv s -> inv (collect k uptr s).1.
Proof.
  intros Hk Hu Hz Hinv. unfold collect. cbv zeta. cbn [fst].
  pose proof (inv_clear_zombie k s Hk Hu Hz Hinv) as H1. case_match; [|done].
  eapply mild_inv; [apply mild_write_user|done].
Qed.

Lemma callable_quiet f s : (forall t, quiet t (f t)) -> callable s -> callable (on_current f s).
Proof.
  intros Hf [E|[Hr Hid]]; unfold on_current.
  - rewrite E. by left.
  - case_match; [by right|]. right. change (current_task_index (upd _ f s)) with (current_task_index s).
    rewrite tk_upd_eq. destruct (Hf (tk s (current_task_index s))) as (_ & -> & _ & -> & _). done.
Qed.

Lemma inv_waitpid target uptr s : callable s -> inv s -> inv (task_waitpid target uptr s).1.
Proof.
  intros Ha Hinv. unfold task_waitpid. case_match; [done|]. cbv zeta.
  set (s1 := on_current (fun t => t <| waitpid_status_uptr := uptr |>) s).
  assert (inv s1) as H1 by (apply inv_on_current_quiet; [quiet_tac|done]).
  assert (callable s1) as Ha1 by (apply callable_quiet; [quiet_tac|done]). clearbody s1.
  assert (forall e, inv (task_set_errno e s)) as He.
  { intros e. apply inv_on_current_quiet; [quiet_tac|done]. }
  assert (forall e, inv (block_on e s1)) as Hb by (intros; by apply inv_block_on).
  case_match.
  - destruct (zombie_child s _) as [i|] eqn:E.
    + apply zombie_child_spec in E as (? & ? & _ & ?). by apply inv_collect.
    + case_match; cbn [fst]; auto.
  - case_match; [apply He|]. destruct (find_task_by_id s target) as [k|] eqn:E; [|apply He].
    apply find_task_slot in E as (? & ? & _). case_match; [apply He|].
    destruct (state_is _ _) eqn:Ez; [|apply Hb]. apply state_is_true in Ez. by apply inv_collect.
Qed.

(** ** Identity *)

Lemma inv_on_creds f s : inv s -> inv (on_creds f s).
Proof. apply inv_on_current_quiet. quiet_tac. Qed.

End operations.
