(* ===== verification/TaskSys.v ===== *)
(** The task component as a system: the calls other code makes, the interrupts,
    and the properties of every state they can reach. *)
From S2P Require Import Prelude.
From S2P Require Import Mmap.
From S2P Require Import Paging.
From S2P Require Import Task.
From S2P Require Import Sched.
From S2P Require Import TaskInv.
From S2P Require Import TaskOps.
From Stdlib Require Import ZArith Lia.
From stdpp Require Import base numbers list gmap.

Open Scope Z_scope.
Open Scope lyth_scope.

(** * Calls and interrupts *)

(** The functions of [task.h] that change the state, with their arguments and
    the results of the calls they make. *)
Inductive call :=
  | Spawn (text : list Z) (fn size : Z) (fg : bool) (vc kstack block : Z)
  | SpawnUser (text : list Z) (entry base heap_base heap_size dir esp segment : Z) (fg : bool)
      (vc kstack attached : Z)
  | Fork (f : frame) (dir kstack : Z) (shm_ok : bool)
  | Exec (f : frame) (new_name : option (list Z)) (entry base heap_base heap_size dir esp : Z)
  | Sleep (now ticks : Z) | WaitEvent (event : Z) | WaitEventTimeout (now event ticks : Z)
  | Yield | Exit (code : Z) | RequestCancel | ClearCancel
  | SetPriority (i prio : Z) | SetOutputVc (i vc : Z) | SetForeground (i : Z)
  | Alarm (now freq seconds : Z) | SetItimer (now freq value_us interval_us : Z)
  | SendSignal (i signum : Z) | SetSignalHandler (signum handler : Z) | SigProcMask (how mask : Z)
  | SetInitPid (pid : Z) | ReapZombiesFor (parent : Z) | WaitId (target : Z)
  | Waitpid (target status_uptr : Z) | SetErrno (e : Z)
  | SetUid (u : Z) | SetGid (g : Z) | ForceIdentity (u g : Z)
  | SetGroups (gids : option (list Z)) (count : Z) | SetFdRlimit (soft hard : Z)
  | MmapCall (length : Z) | MunmapCall (addr length : Z).

Inductive event :=
  | Call (c : call)
  | SignalEvent (id : Z)            (** a device wakes the tasks that wait for it *)
  | ForegroundCancel                (** Ctrl-C *)
  | Timer (now esp : Z) (f : frame) (** [timer_interrupt_handler] *)
  | Return (esp : Z) (f : frame)    (** the end of [syscall_interrupt_handler] *)
  | IdleStep.

Section system.
Context {ENV : TaskEnv}.

Definition do_call (c : call) (s : tasks_state) : tasks_state :=
  match c with
  | Spawn text fn size fg vc kstack block => (task_spawn text fn size fg vc kstack block s).1
  | SpawnUser text entry base hb hs dir esp seg fg vc kstack attached =>
      (task_spawn_user_common text entry base hb hs dir esp seg fg vc kstack attached s).1
  | Fork f dir kstack ok => (task_fork_from_frame f dir kstack ok s).1
  | Exec f nm entry base hb hs dir esp =>
      (task_exec_current_user_from_frame f nm entry base hb hs dir esp s).1.1
  | Sleep now ticks => task_sleep now ticks s
  | WaitEvent ev => task_wait_event ev s
  | WaitEventTimeout now ev ticks => task_wait_event_timeout now ev ticks s
  | Yield => task_yield s
  | Exit code => task_exit code s
  | RequestCancel => task_request_cancel s
  | ClearCancel => task_clear_cancel s
  | SetPriority i prio => (task_set_priority i prio s).1
  | SetOutputVc i vc => task_set_output_vc i vc s
  | SetForeground i => (task_set_foreground i s).1
  | Alarm now freq seconds => (task_alarm now freq seconds s).1
  | SetItimer now freq v i => (task_setitimer now freq v i s).1.1
  | SendSignal i signum => (task_send_signal i signum s).1
  | SetSignalHandler signum h => (task_set_signal_handler signum h s).1.1
  | SigProcMask how mask => (task_sigprocmask how mask s).1
  | SetInitPid pid => task_set_init_pid pid s
  | ReapZombiesFor parent => (task_reap_zombies_for parent s).1
  | WaitId target => task_wait_id target s
  | Waitpid target uptr => (task_waitpid target uptr s).1
  | SetErrno e => task_set_errno e s
  | SetUid u => (task_set_current_uid u s).1
  | SetGid g => (task_set_current_gid g s).1
  | ForceIdentity u g => task_force_identity u g s
  | SetGroups gids count => (task_set_groups gids count s).1
  | SetFdRlimit soft hard => (task_set_fd_rlimit soft hard s).1
  | MmapCall length => (task_mmap length s).1
  | MunmapCall addr length => (task_munmap addr length s).1
  end.

(** [timer_interrupt_handler]: the clock, then the scheduler. *)
Definition timer_interrupt_handler (now esp : Z) (f : frame) (s : tasks_state) : tasks_state * Z * frame :=
  task_schedule_on_timer esp f (task_on_tick now s).

Definition run_event (ev : event) (s : tasks_state) : tasks_state :=
  match ev with
  | Call c => do_call c s
  | SignalEvent i => (task_signal_event i s).1
  | ForegroundCancel => task_request_foreground_cancel s
  | Timer now esp f => (timer_interrupt_handler now esp f s).1.1
  | Return esp f => (task_schedule_on_syscall esp f s).1.1
  | IdleStep => idle_task_run s
  end.

(** The code of a task that has called [task_sleep] goes on until the next
    interrupt; the loops that wait for a pipe or a queue call it again. *)
Definition dozing (s : tasks_state) : Prop :=
  0 <= current_task_index s /\ state (tk s (current_task_index s)) = TASK_STATE_SLEEPING /\
  id (tk s (current_task_index s)) <> idle_task_id s.

(** Interrupts happen at any time; calls are made by running code, and
    [task_sleep] by code that has called it before as well. *)
Definition allowed (ev : event) (s : tasks_state) : Prop :=
  match ev with
  | Call (Sleep _ _) => callable s \/ dozing s
  | Call _ => callable s
  | _ => True
  end.

Inductive reachable : tasks_state -> Prop :=
  | ReachInit kstack : kstack <> 0 -> reachable (task_system_init kstack)
  | ReachStep s ev : reachable s -> allowed ev s -> reachable (run_event ev s).

(** * The invariant *)

(** The state at boot: the idle task, alone in its queue. *)
Section boot.
Context (kstack : Z) (Hk : kstack <> 0).
Local Notation s0 := (task_system_init kstack).

Lemma init_tk j : exists t, tk s0 j = (if decide (j = 0) then t else empty_slot) /\
  used t = true /\ id t = 1 /\ state t = TASK_STATE_READY /\ priority t = TASK_PRIORITY_IDLE /\
  user_mode (img t) = false /\ sched_next t = -1 /\ sigs t = sigs empty_slot.
Proof.
  unfold task_system_init. cbv zeta. rewrite (proj2 (Z.eqb_neq _ _) Hk). cbn [negb].
  set (s1 := upd 0 _ _). set (s2 := initialize_task_stack 0 s1).
  assert (forall i, tk s2 i = if decide (i = 0) then (idle_slot kstack) <| saved_rsp := kstack + TASK_STACK_SIZE - sizeof_frame |>
                              else empty_slot) as E2.
  { intros i. unfold s2, initialize_task_stack. cbv zeta. rewrite tk_upd, !tk_emit. unfold s1. rewrite !tk_upd.
    destruct (decide (0 = i)) as [<-|Hne]; [done|]. rewrite decide_False by congruence. done. }
  assert (sched_enqueue_ready 0 s2 = set_tail 3 0 (set_head 3 0 (upd 0 (fun t => t <| sched_next := -1 |>) s2))) as E.
  { unfold sched_enqueue_ready. rewrite E2. cbn. done. }
  rewrite E. clear E. clearbody s2. clear s1.
  exists ((idle_slot kstack) <| saved_rsp := kstack + TASK_STACK_SIZE - sizeof_frame |> <| sched_next := -1 |>).
  split; [|done]. etrans; [exact (tk_upd 0 (fun t => t <| sched_next := -1 |>) s2 j)|]. rewrite !E2.
  destruct (decide (0 = j)) as [<-|Hne]; [by rewrite decide_True|]. by rewrite !decide_False by congruence.
Qed.

Lemma init_rest :
  current_task_index s0 = -1 /\ idle_task_id s0 = 1 /\ next_task_id s0 = 2 /\ stuck s0 = false /\
  forall p, sget (sched_ready_head s0) p = (if decide (p = 3) then 0 else -1) /\
            sget (sched_ready_tail s0) p = (if decide (p = 3) then 0 else -1).
Proof.
  unfold task_system_init. cbv zeta. rewrite (proj2 (Z.eqb_neq _ _) Hk). cbn [negb].
  set (s1 := upd 0 _ _). set (s2 := initialize_task_stack 0 s1).
  assert (sched_enqueue_ready 0 s2 = set_tail 3 0 (set_head 3 0 (upd 0 (fun t => t <| sched_next := -1 |>) s2))) as E.
  { unfold sched_enqueue_ready, s2, initialize_task_stack. cbv zeta. rewrite !tk_upd_eq, !tk_emit. done. }
  rewrite E. split_and!; try done. intros p. cbn. rewrite !sget_sset. case_decide as E3.
  - by rewrite decide_True.
  - by rewrite decide_False.
Qed.

Lemma inv_init : inv s0.
Proof.
  destruct init_rest as (Ec & Eid & En & Es & Eq).
  assert (forall j, slot j -> used (tk s0 j) = true -> j = 0) as H0.
  { intros j _. destruct (init_tk j) as (t & -> & _). case_decide; done. }
  destruct (init_tk 0) as (t & Et & T1 & T2 & T3 & T4 & T5 & T6 & T7). rewrite decide_True in Et by done.
  split; [|by left]. split.
  - exists (fun p => if decide (p = 3) then [0] else []). split.
    + done.
    + intros p _. destruct (Eq p) as [Eh El]. unfold queue. rewrite Eh, El. unfold nx. case_decide.
      * split; [|split; [done|apply NoDup_singleton]]. cbn. split; [done|]. split; [done|]. by rewrite Et.
      * split; [done|]. split; [done|apply NoDup_nil_2].
    + intros p i _. case_decide as Ep; [|by intros ?%elem_of_nil].
      intros ->%list_elem_of_singleton. rewrite Et. split_and!; [done|by subst|done].
    + intros i Hi [Hu _] _ _. rewrite (H0 i Hi Hu), Et, T4. by left.
    + intros i Hi Hu. rewrite (H0 i Hi Hu), Et, T4. done.
  - split.
    + intros i Hi Hu. rewrite (H0 i Hi Hu), Et, T2, En. lia.
    + intros i j Hi Hj Hui Huj _. by rewrite (H0 i), (H0 j).
    + intros i Hi Hu. rewrite (H0 i Hi Hu), Et, T3. done.
    + exists 0. split; [done|]. rewrite Et. split_and!; try done; [by rewrite Eid|by left].
    + intros i Hi Hu. rewrite (H0 i Hi Hu), Et. unfold kill_safe. rewrite T7. done.
Qed.

End boot.

(** [task_sleep] from a task that is asleep already. *)
Lemma inv_sleep_again now ticks s : dozing s -> inv s -> inv (task_sleep now ticks s).
Proof.
  intros (Hc & Hs & Hid) Hinv. unfold task_sleep, on_current. rewrite (proj2 (Z.ltb_ge _ 0)) by done.
  apply inv_restate_current; [done|congruence|done| | |..]; try done; [intros t|..]; case_match; try done; restate_tac.
Qed.

Lemma inv_call c s : callable s -> inv s -> inv (do_call c s).
Proof.
  intros Ha Hinv.
  assert (forall f, (forall t, quiet t (f t)) -> inv (on_current f s)) as Hq
    by (intros; by apply inv_on_current_quiet).
  assert (forall f, inv (on_creds f s)) as Hcr by (intros; by apply inv_on_creds).
  assert (forall f, (forall t, restate t (f t)) ->
    (forall t, state t = TASK_STATE_RUNNING -> state (f t) <> TASK_STATE_FREE /\ state (f t) <> TASK_STATE_ZOMBIE) ->
    inv (on_current f s)) as Hst by (intros; by apply inv_on_current).
  assert (forall f, 0 <= current_task_index s -> (forall t, quiet t (f t)) ->
    inv (upd (current_task_index s) f s)) as Hc.
  { intros f Hc Hf. apply inv_quiet; [by apply current_slot; [apply Hinv|]|done|done]. }
  destruct c; cbn [do_call].
  - by apply inv_spawn.
  - by apply inv_spawn_user.
  - by apply inv_fork.
  - by apply inv_exec.
  - apply Hst; intros t; [case_match; restate_tac|by case_match].
  - unfold task_wait_event. do 2 (case_match; [done|]). apply Hst; intros t; [restate_tac|done].
  - unfold task_wait_event_timeout, task_wait_event.
    repeat (case_match; try done); (apply Hst; intros t; [restate_tac|done]).
  - apply Hst; intros t; [case_match; restate_tac|by intros ->].
  - apply Hst; intros t; [restate_tac|done].
  - by apply inv_request_cancel.
  - by apply inv_clear_cancel.
  - by apply inv_set_priority.
  - apply inv_find_quiet; [quiet_tac|done].
  - by apply inv_set_foreground.
  - unfold task_alarm. cbv zeta. destruct (Z.ltb_spec (current_task_index s) 0); [done|].
    apply Hc; [done|quiet_tac].
  - unfold task_setitimer. cbv zeta. destruct (Z.ltb_spec (current_task_index s) 0); [done|].
    repeat (destruct (_ =? 0)); cbn [fst]; try done; (apply Hc; [done|quiet_tac]).
  - by apply inv_send_signal.
  - by apply inv_set_signal_handler.
  - by apply inv_sigprocmask.
  - apply (inv_globals s); [by split|done].
  - by apply inv_reap.
  - by apply inv_wait_id.
  - by apply inv_waitpid.
  - apply Hq. quiet_tac.
  - unfold task_set_current_uid. cbv zeta. repeat (case_match; cbn [fst]; try done).
  - unfold task_set_current_gid. cbv zeta. repeat (case_match; cbn [fst]; try done).
  - apply Hcr.
  - unfold task_set_groups. repeat (case_match; cbn [fst]; try done).
  - unfold task_set_fd_rlimit. do 5 (case_match; [done|]). apply Hq. quiet_tac.
  - unfold task_mmap. cbv zeta. do 3 (case_match; [done|]). destruct (mmap_anonymous _ _ _ _) as [[r a] b].
    apply Hq. quiet_tac.
  - unfold task_munmap. case_match; [done|]. destruct (mmap_unmap _ _ _) as [r a]. apply Hq. quiet_tac.
Qed.

Lemma inv_event ev s : allowed ev s -> inv s -> inv (run_event ev s).
Proof.
  intros Ha IH. destruct ev; cbn [run_event] in *.
  - destruct c; try by apply inv_call. destruct Ha as [Ha|Ha]; [by apply inv_call|by apply inv_sleep_again].
  - eapply mild_inv; [apply mild_signal_event|done].
  - eapply mild_inv; [apply mild_foreground_cancel|done].
  - apply inv_on_timer. eapply mild_inv; [apply mild_on_tick|done].
  - by apply inv_on_syscall.
  - apply (inv_globals s); [by split|done].
Qed.

Lemma tasks_reachable_inv s : reachable s -> inv s.
Proof. induction 1; [by apply inv_init|by apply inv_event]. Qed.

(** What holds in every state: no assertion of the code failed and no walk of a
    queue ran on; the queue of a priority holds exactly the ready tasks of that
    priority, once each; identifiers are unique; only the current task is
    running, and it is live; the idle task is there, ready or running;
    [SIGKILL] can neither be blocked nor caught. *)
Record consistent (s : tasks_state) : Prop := Consistent {
  co_stuck : stuck s = false;
  co_once p : prio_ok p -> NoDup (ready_queue s p);
  co_queued p i : prio_ok p -> i ∈ ready_queue s p ->
    slot i /\ ready (tk s i) /\ priority (tk s i) = p;
  co_ready i : slot i -> ready (tk s i) -> i <> current_task_index s ->
    prio_ok (priority (tk s i)) /\ i ∈ ready_queue s (priority (tk s i));
  co_unique i j : slot i -> slot j -> used (tk s i) = true -> used (tk s j) = true ->
    id (tk s i) = id (tk s j) -> i = j;
  co_running i : slot i -> used (tk s i) = true -> state (tk s i) = TASK_STATE_RUNNING ->
    i = current_task_index s;
  co_current : 0 <= current_task_index s -> slot (current_task_index s) /\
    used (tk s (current_task_index s)) = true /\
    state (tk s (current_task_index s)) <> TASK_STATE_ZOMBIE;
  co_idle : exists k, slot k /\ used (tk s k) = true /\ id (tk s k) = idle_task_id s /\
    (state (tk s k) = TASK_STATE_READY \/ state (tk s k) = TASK_STATE_RUNNING);
  co_kill i : slot i -> used (tk s i) = true -> kill_safe (tk s i);
}.

Lemma inv_consistent s : inv s -> consistent s.
Proof.
  intros [[[q Hq] C] Hc]. split.
  - apply Hq.
  - intros p Hp. rewrite (ready_queue_eq _ _ _ _ Hq) by done. by destruct (so_queue _ _ _ Hq p Hp) as (_ & _ & ?).
  - intros p i Hp. rewrite (ready_queue_eq _ _ _ _ Hq) by done. intros Hin.
    pose proof (member_slot _ _ _ Hq p i Hp Hin) as Hi. split; [done|].
    destruct (so_member _ _ _ Hq p i Hp Hin) as (? & ? & Hr). split; [|done]. split; [done|].
    apply Hr. destruct Hi. lia.
  - intros i Hi Hr Hne. pose proof (so_prio _ _ _ Hq i Hi (proj1 Hr)) as Hp. split; [done|].
    rewrite (ready_queue_eq _ _ _ _ Hq) by done. apply Hq; [done..|]. destruct Hi. lia.
  - apply C.
  - apply C.
  - intros H0. destruct Hc as [E|(? & ? & _ & ?)]; [lia|done].
  - destruct (c_idle _ C) as (k & ? & ? & ? & _ & _ & ?). by exists k.
  - apply C.
Qed.

(** C3: in every state that calls and interrupts can reach from boot, in any
    order, the task table is consistent: the ready queues hold exactly the ready
    tasks, once each and in the queue of their priority, at most one task runs,
    identifiers are unique, the idle task is alive, [SIGKILL] is neither blocked
    nor caught, and neither an assertion nor the walk of a queue ever fails. *)
Theorem task_table_invariant s : reachable s -> consistent s.
Proof. intros H. by apply inv_consistent, tasks_reachable_inv. Qed.

(** * Dispatch *)

(** C20: when no task runs, the scheduler always finds a task (the idle task at
    least): it takes the first task of the best queue that is not empty, makes it
    the running task, and leaves all other queues and tasks as they were.  The
    queues are first in, first out: a waiting task that is made ready joins the
    queue of its priority at the end and no other queue. *)
Theorem dispatch_highest_first esp s :
  reachable s -> current_task_index s = -1 ->
  (exists p x l, prio_ok p /\ ready_queue s p = x :: l /\
    (forall p', 0 <= p' < p -> ready_queue s p' = []) /\
    let s' := (schedule_from_idle esp s).1 in
    (schedule_from_idle esp s).2 = saved_rsp (tk s x) /\
    current_task_index s' = x /\ state (tk s' x) = TASK_STATE_RUNNING /\
    ready_queue s' p = l /\ (forall p', prio_ok p' -> p' <> p -> ready_queue s' p' = ready_queue s p') /\
    (forall j, j <> x -> (tk s' j) <| sched_next := 0 |> = (tk s j) <| sched_next := 0 |>)) /\
  (forall i p, slot i -> used (tk s i) = true -> state (tk s i) <> TASK_STATE_READY -> prio_ok p ->
    ready_queue (make_ready i s) p =
      if decide (p = priority (tk s i)) then ready_queue s p ++ [i] else ready_queue s p).
Proof.
  intros [Hg _]%tasks_reachable_inv Hc. split.
  - destruct (schedule_from_idle_spec esp s Hc Hg) as
      (p & x & l & Hp & Eq & _ & _ & _ & Hbest & E1 & _ & E3 & E4 & E5 & E6).
    exists p, x, l. cbv zeta in *. split_and!; try done.
    + rewrite E4. by rewrite decide_True.
    + intros j Hj. rewrite E4. rewrite decide_False by done. by destruct (tk s j).
  - intros i p Hi Hu Hst Hp. rewrite make_ready_queue by done.
    pose proof (not_queued i s p Hg Hi Hp Hst). destruct (decide (p = priority (tk s i))) as [E|E].
    + by rewrite decide_True.
    + by rewrite decide_False by tauto.
Qed.

(** * Ending a task by force *)

(** No live task has the identifier [pid]. *)
Definition gone (pid : Z) (s : tasks_state) : Prop :=
  forall j, slot j -> used (tk s j) = true -> id (tk s j) = pid -> state (tk s j) = TASK_STATE_ZOMBIE.

(** The slot of the task ended and the others kept their identifiers. *)
Lemma gone_intro i pid s s' :
  core s -> slot i -> used (tk s i) = true -> id (tk s i) = pid ->
  (forall j, j <> i -> used (tk s' j) = used (tk s j) /\ id (tk s' j) = id (tk s j)) ->
  used (tk s' i) = false \/ state (tk s' i) = TASK_STATE_ZOMBIE -> gone pid s'.
Proof.
  intros C Hi Hu Hid Ho Hg j Hj Huj Hidj. destruct (decide (j = i)) as [->|Hne].
  - destruct Hg; congruence.
  - destruct (Ho j Hne) as [E1 E2]. exfalso. apply Hne. apply (c_uniq _ C); congruence.
Qed.

(** A task that is over is gone when it leaves the processor. *)
Lemma back_gone pid esp s :
  inv s -> 0 <= current_task_index s -> over (state (tk s (current_task_index s))) ->
  id (tk s (current_task_index s)) = pid -> gone pid (schedule_back_to_idle esp s).1.
Proof.
  intros Hinv Hc Ho Hid. destruct (current_slot s (proj2 Hinv) Hc) as [Hi Hu].
  destruct (back_to_idle_spec esp s Hc Hinv) as [_ _ _ L1 _ _ L2].
  apply (gone_intro (current_task_index s) pid s); try done; [by apply Hinv|by apply L2].
Qed.

Lemma deliver_not_running i f s :
  state (tk s i) <> TASK_STATE_RUNNING -> task_deliver_signals_current i f s = (s, f).
Proof.
  intros Hr. unfold task_deliver_signals_current. cbv zeta. apply state_is_false in Hr. rewrite Hr.
  by rewrite orb_true_r.
Qed.

Lemma over_scheduled pid esp f s :
  inv s -> 0 <= current_task_index s -> over (state (tk s (current_task_index s))) ->
  id (tk s (current_task_index s)) = pid ->
  gone pid (task_schedule_on_syscall esp f s).1.1 /\ gone pid (task_schedule_on_timer esp f s).1.1.
Proof.
  intros Hinv Hc Ho Hid. pose proof (over_not _ Ho) as (_ & Hr & _).
  pose proof (back_gone pid esp s Hinv Hc Ho Hid) as Hg. unfold task_schedule_on_syscall, task_schedule_on_timer.
  cbv zeta. rewrite (proj2 (Z.leb_le _ _) Hc), (deliver_not_running _ f s Hr).
  apply state_is_false in Hr. rewrite Hr. cbn [negb fst]. by split.
Qed.

Lemma send_kill pid i s :
  inv s -> callable s -> find_task_by_id s pid = Some i -> state (tk s i) <> TASK_STATE_ZOMBIE ->
  pid <> idle_task_id s ->
  let r := task_send_signal pid LYTH_SIGKILL s in
  r.2 = 1 /\ inv r.1 /\
  if decide (i = current_task_index s) then
    current_task_index r.1 = i /\ state (tk r.1 i) = TASK_STATE_CANCELLED /\ id (tk r.1 i) = pid
  else gone pid r.1.
Proof.
  intros Hinv Ha Hf Hz Hid. pose proof (find_task_slot _ _ _ Hf) as (Hi & Hu & Eid).
  pose proof (inv_send_signal pid LYTH_SIGKILL s Ha Hinv) as H1. cbv zeta. revert H1.
  unfold task_send_signal. change (signal_is_valid LYTH_SIGKILL) with true. cbn [negb]. rewrite Hf.
  unfold task_queue_signal_locked, queue_signal_with. cbv zeta.
  rewrite Hu. change (signal_is_valid LYTH_SIGKILL) with true. cbn [negb orb].
  apply state_is_false in Hz as Hz'. rewrite Hz', Eid, (proj2 (Z.eqb_neq _ _) Hid), Z.eqb_refl.
  destruct (state_is (state (tk s i)) TASK_STATE_RUNNING) eqn:Er; cbn [fst snd]; intros H1; (split; [done|split; [done|]]).
  - apply state_is_true in Er. destruct Hinv as [[_ C] _]. pose proof (c_run _ C i Hi Hu Er) as Ei.
    rewrite decide_True by done. rewrite !tk_upd_eq. split; [symmetry; exact Ei|done].
  - apply state_is_false in Er. rewrite decide_False.
    2: { intros ->. destruct Ha as [E|[E _]]; [rewrite E in Hi; by destruct Hi|done]. }
    clear H1. set (s1 := upd i _ (upd i _ s)).
    assert (good i s1) as Hg.
    { unfold s1. apply good_restate; [restate_tac|done|rewrite tk_upd_eq; intros (_ & E & _); cbn in E; congruence|done|].
      apply good_quiet; [done|unfold quiet, kill_safe; cbn; split_and!; auto|]. by apply good_open, Hinv. }
    assert (used (tk s1 i) = true /\ state (tk s1 i) = TASK_STATE_CANCELLED /\ id (tk s1 i) = pid) as (U1 & S1 & I1).
    { unfold s1. rewrite !tk_upd_eq. done. }
    clearbody s1. destruct (complete_spec i s1 Hi U1) as [_ _ _ _ _ E6 E7 _]; [by right|done|].
    apply (gone_intro i pid s1); try done; [by apply Hg|]. destruct E6 as [?|[? _]]; auto.
Qed.

(** C5: [SIGKILL] is final for every task but the idle task, whatever its signal
    mask and handlers: a task that is not running is gone (a zombie or a free
    slot) when the call returns; the running task is gone as soon as the
    scheduler is entered, at the end of the system call or on the next timer
    interrupt. *)
Theorem sigkill_is_final pid i s :
  reachable s -> callable s -> find_task_by_id s pid = Some i -> state (tk s i) <> TASK_STATE_ZOMBIE ->
  pid <> idle_task_id s ->
  let s1 := (task_send_signal pid LYTH_SIGKILL s).1 in
  (task_send_signal pid LYTH_SIGKILL s).2 = 1 /\
  (i <> current_task_index s -> gone pid s1) /\
  (i = current_task_index s -> forall esp f,
     gone pid (task_schedule_on_syscall esp f s1).1.1 /\ gone pid (task_schedule_on_timer esp f s1).1.1).
Proof.
  intros Hinv%tasks_reachable_inv Ha Hf Hz Hid. pose proof (find_task_slot _ _ _ Hf) as (Hi & _).
  destruct (send_kill pid i s Hinv Ha Hf Hz Hid) as (H1 & H2 & H3). split; [done|]. split.
  - intros Hne. by rewrite decide_False in H3.
  - intros E esp f. rewrite decide_True in H3 by done. destruct H3 as (Ec & Es & Ei).
    apply over_scheduled; rewrite ?Ec; try done; [by destruct Hi|by rewrite Es; right].
Qed.

(** * Executable runs *)

Definition callableb (s : tasks_state) : bool :=
  (current_task_index s =? -1) ||
  (state_is (state (tk s (current_task_index s))) TASK_STATE_RUNNING &&
   negb (id (tk s (current_task_index s)) =? idle_task_id s)).

Lemma callableb_true s : callableb s = true -> callable s.
Proof.
  unfold callableb, callable. intros [E|[E1 E2]%andb_prop]%orb_prop; [left; by apply Z.eqb_eq|right].
  split; [by apply state_is_true|]. by apply negb_true_iff, Z.eqb_neq in E2.
Qed.

Definition dozingb (s : tasks_state) : bool :=
  (0 <=? current_task_index s) &&
  state_is (state (tk s (current_task_index s))) TASK_STATE_SLEEPING &&
  negb (id (tk s (current_task_index s)) =? idle_task_id s).

Definition allowedb (ev : event) (s : tasks_state) : bool :=
  match ev with
  | Call (Sleep _ _) => callableb s || dozingb s
  | Call _ => callableb s
  | _ => true
  end.

Lemma allowedb_true ev s : allowedb ev s = true -> allowed ev s.
Proof.
  destruct ev as [c| | | | |]; try done. destruct c; try exact (callableb_true s).
  intros [H|H]%orb_prop; [left; by apply callableb_true|right].
  apply andb_prop in H as [[H1%Z.leb_le H2]%andb_prop H3]. apply negb_true_iff, Z.eqb_neq in H3.
  split_and!; [done|by apply state_is_true|done].
Qed.

Definition run (evs : list event) (s : tasks_state) : tasks_state := foldl (fun s ev => run_event ev s) s evs.

Fixpoint run_ok (evs : list event) (s : tasks_state) : bool :=
  match evs with
  | [] => true
  | ev :: evs' => allowedb ev s && run_ok evs' (run_event ev s)
  end.

Lemma run_reachable evs s : reachable s -> run_ok evs s = true -> reachable (run evs s).
Proof.
  revert s. induction evs as [|ev evs IH]; intros s Hr; [done|]. cbn [run_ok].
  intros [H1 H2]%andb_prop. apply IH; [|done]. apply ReachStep; [done|by apply allowedb_true].
Qed.

End system.

(** * Examples *)

Definition demo_env : TaskEnv := {|
  kernel_code_selector := 8; user_code_selector := 24; user_data_selector := 32;
  task_thread_bootstrap := 1048576; idle_task_step := 1052672; paging_kernel_dir := 2097152;
  user_buffer_is_accessible := fun _ _ _ => true |}.

Definition demo_frame : frame := Frame 0 0 0 8 514 0 16.

(** Two kernel tasks behind the idle task. *)
Definition demo_spawns : list event :=
  [Call (Spawn [97] 1 0 false (-1) 65536 0); Call (Spawn [98] 1 0 false (-1) 131072 0)].

Definition demo_tasks : tasks_state :=
  @run demo_env demo_spawns (@task_system_init demo_env 4096).

Lemma demo_reachable : @reachable demo_env demo_tasks.
Proof. apply run_reachable; [by apply ReachInit|]. vm_compute. reflexivity. Qed.

(** The first of the two is running. *)
Definition demo_running : tasks_state := @run_event demo_env (Timer 1 4000 demo_frame) demo_tasks.

Lemma demo_running_reachable : @reachable demo_env demo_running.
Proof. unfold demo_running. apply ReachStep; [apply demo_reachable|exact I]. Qed.

Lemma task_table_invariant_witness : @reachable demo_env demo_running /\ stuck demo_running = false.
Proof.
  split; [apply demo_running_reachable|].
  exact (co_stuck _ (@task_table_invariant demo_env _ demo_running_reachable)).
Defined.

(** The first of the two has gone to sleep. *)
Definition demo_asleep : tasks_state :=
  @run demo_env [Call (Sleep 1 5); Timer 2 4001 demo_frame] demo_running.

Lemma demo_asleep_reachable : @reachable demo_env demo_asleep.
Proof. apply run_reachable; [apply demo_running_reachable|]. vm_compute. reflexivity. Qed.

Lemma dispatch_highest_first_witness :
  current_task_index (@schedule_from_idle demo_env 4000 demo_asleep).1 = 2 /\
  ready_queue (make_ready 1 demo_asleep) TASK_PRIORITY_LOW = [2; 1].
Proof.
  destruct (@dispatch_highest_first demo_env 4000 demo_asleep demo_asleep_reachable) as
    [(p & x & l & Hp & Eq & Hbest & _ & H3 & _) Hfifo]; [vm_compute; reflexivity|].
  split.
  - rewrite H3. assert (p = 0 \/ p = 1 \/ p = 2 \/ p = 3) as Hcase
      by (clear -Hp; unfold prio_ok, SCHED_PRIO_COUNT in Hp; lia).
    destruct Hcase as [->|[->|[->| ->]]].
    + vm_compute in Eq. discriminate Eq.
    + vm_compute in Eq. discriminate Eq.
    + vm_compute in Eq. injection Eq as <- _. reflexivity.
    + assert (0 <= 2 < 3) as H23 by (split; [discriminate|reflexivity]).
      pose proof (Hbest 2 H23) as E. vm_compute in E. discriminate E.
  - rewrite (Hfifo 1 TASK_PRIORITY_LOW).
    + vm_compute. reflexivity.
    + split; [discriminate|reflexivity].
    + vm_compute. reflexivity.
    + vm_compute. discriminate.
    + split; [discriminate|reflexivity].
Defined.

Lemma sigkill_is_final_witness :
  find_task_by_id demo_running 3 = Some 2 /\ gone 3 (@task_send_signal demo_env 3 LYTH_SIGKILL demo_running).1.
Proof.
  split; [vm_compute; reflexivity|].
  destruct (@sigkill_is_final demo_env 3 2 demo_running demo_running_reachable) as (_ & H & _).
  - apply callableb_true. vm_compute. reflexivity.
  - vm_compute. reflexivity.
  - vm_compute. discriminate.
  - vm_compute. discriminate.
  - apply H. vm_compute. discriminate.
Defined.
