(* ===== verification/TaskFair.v ===== *)
(** Round robin over whole runs: calls, system call returns, device interrupts
    and timer interrupts in any order.  A queued task never moves back in its
    queue ([stays]), whatever the other tasks do; every timer interrupt brings it
    closer to the processor. *)
From S2P Require Import Prelude.
From S2P Require Import Mmap.
From S2P Require Import Paging.
From S2P Require Import Task.
From S2P Require Import Sched.
From S2P Require Import TaskInv.
From S2P Require Import TaskOps.
From S2P Require Import TaskSys.
From Stdlib Require Import ZArith Lia.
From stdpp Require Import base numbers list gmap.

Open Scope Z_scope.
Open Scope lyth_scope.

(** * Not moving back *)

(** Task [x] keeps its queue and does not move back in it; the running task
    stays the same. *)
Record stays (x : Z) (s s' : tasks_state) : Prop := Stays {
  st_current : current_task_index s' = current_task_index s;
  st_queue p n : prio_ok p -> ready_queue s p !! n = Some x ->
    exists m, (m <= n)%nat /\ ready_queue s' p !! m = Some x;
}.

(** Taking another task out of a queue brings the task forward. *)
Lemma filter_ne_lookup (l : list Z) i x n :
  x <> i -> l !! n = Some x -> exists m, (m <= n)%nat /\ filter (fun y => y <> i) l !! m = Some x.
Proof.
  intros Hx. revert n. induction l as [|y l IH]; intros n; [done|]. destruct n as [|n]; cbn [lookup].
  - intros [= ->]. exists 0%nat. rewrite filter_cons, decide_True by done. done.
  - intros (m & Hm & E)%IH. rewrite filter_cons. case_decide.
    + exists (S m). split; [lia|done].
    + exists m. split; [lia|done].
Qed.

Section stays.
Context {ENV : TaskEnv} (x : Z).

Lemma stays_grows s s' : current_task_index s' = current_task_index s -> grows s s' -> stays x s s'.
Proof.
  intros Hc Hg. split; [done|]. intros p n Hp Hn. exists n. split; [done|].
  by eapply prefix_lookup_Some, Hg.
Qed.

Lemma stays_refl s : stays x s s.
Proof. apply stays_grows; [done|]. by apply grows_same. Qed.

Lemma stays_trans s1 s2 s3 : stays x s1 s2 -> stays x s2 s3 -> stays x s1 s3.
Proof.
  intros [A1 A2] [B1 B2]. split; [congruence|]. intros p n Hp Hn.
  destruct (A2 p n Hp Hn) as (m & ? & Hm). destruct (B2 p m Hp Hm) as (k & ? & Hk). exists k. split; [lia|done].
Qed.

Lemma stays_mild s s' : good (-1) s -> mild s s' -> stays x s s'.
Proof. intros Hg M. apply stays_grows; [apply (mi_current _ _ M)|by apply (mi_queue _ _ M)]. Qed.

Lemma stays_globals s s' : globals s s' -> stays x s s'.
Proof.
  intros G. apply stays_grows; [apply G|]. apply grows_same; [apply G|]. intros j. unfold tk.
  by rewrite (gl_tasks _ _ G).
Qed.

Lemma stays_emit ef s : stays x s (emit ef s).
Proof. apply stays_globals, globals_emit. Qed.

(** Any update of a slot that keeps its link. *)
Lemma stays_upd i f s : (forall t, sched_next (f t) = sched_next t) -> stays x s (upd i f s).
Proof.
  intros Hf. apply stays_grows; [done|]. apply grows_same; [done|]. intros j. rewrite tk_upd.
  case_decide as E; [by rewrite <- E, Hf|done].
Qed.

Lemma stays_emit_after ef s s' : stays x s s' -> stays x s (emit ef s').
Proof. intros H. eapply stays_trans; [exact H|apply stays_emit]. Qed.

Lemma stays_upd_after i f s s' :
  (forall t, sched_next (f t) = sched_next t) -> stays x s s' -> stays x s (upd i f s').
Proof. intros Hf H. eapply stays_trans; [exact H|by apply stays_upd]. Qed.

Lemma stays_on_current f s : (forall t, sched_next (f t) = sched_next t) -> stays x s (on_current f s).
Proof. intros Hf. unfold on_current. case_match; [apply stays_refl|by apply stays_upd]. Qed.

Lemma stays_find k f s : (forall t, sched_next (f t) = sched_next t) ->
  stays x s (match find_task_by_id s k with Some i => upd i f s | None => s end).
Proof. intros Hf. case_match; [by apply stays_upd|apply stays_refl]. Qed.

Lemma stays_enqueue e q s i :
  sched_ok e q s -> slot i -> ready (tk s i) -> e = i \/ e = -1 -> stays x s (sched_enqueue_ready i s).
Proof.
  intros Hq Hi Hr He. apply stays_grows; [|by eapply grows_enqueue].
  apply lo_current, enqueue_links.
Qed.

(** Another task leaves the queues. *)
Lemma stays_remove i q e e' s s' :
  i <> x -> current_task_index s' = current_task_index s -> sched_ok e q s ->
  sched_ok e' (q_remove q i) s' -> stays x s s'.
Proof.
  intros Hx Hc Hq Hq'. split; [done|]. intros p n Hp.
  rewrite (ready_queue_eq _ _ _ _ Hq Hp), (ready_queue_eq _ _ _ _ Hq' Hp).
  intros Hn. apply filter_ne_lookup; [congruence|done].
Qed.

(** * The calls *)

Lemma queued_ready s p n : good (-1) s -> prio_ok p -> ready_queue s p !! n = Some x ->
  slot x /\ ready (tk s x) /\ priority (tk s x) = p.
Proof.
  intros [[q Hq] _] Hp Hx%list_elem_of_lookup_2. rewrite (ready_queue_eq _ _ _ _ Hq Hp) in Hx.
  pose proof (member_slot _ _ _ Hq p x Hp Hx) as Hi.
  destruct (so_member _ _ _ Hq p x Hp Hx) as (? & ? & Hr). split; [done|]. split; [|done]. split; [done|]. apply Hr. destruct Hi. lia.
Qed.

(** A slot that is cleared was of another task. *)
Lemma stays_clear i s :
  i <> x -> slot i -> used (tk s i) = true -> id (tk s i) <> idle_task_id s -> good i s ->
  stays x s (clear_task i s).
Proof.
  intros Hx Hi Hu Hid [q [Hq C]]%good_good_q. destruct (clear_good_q i s Hi Hu Hid q) as [Hq' _]; [done|].
  eapply stays_remove; [exact Hx|apply (ot_current _ _ _ (clear_others i s))|exact Hq|exact Hq'].
Qed.

Lemma stays_clear_zombie i s :
  ready (tk s x) -> slot i -> used (tk s i) = true -> state (tk s i) = TASK_STATE_ZOMBIE ->
  good (-1) s -> stays x s (clear_task i s).
Proof.
  intros [_ Hr] Hi Hu Hz Hg. apply stays_clear; [congruence|done|done| |by apply good_open]. intros E.
  destruct (idle_state s i) as (_ & _ & _ & _ & Hst); [by apply Hg|done..|]. rewrite Hz in Hst. by destruct Hst.
Qed.

(** ** Creation *)

Section new.
Context (i : Z) (s s1 : tasks_state) (Hi : slot i) (Hu : used (tk s i) = false) (F : TaskOps.fresh i s s1).
Context (Hinv : inv s) (Hx : i <> x).

Lemma fresh_stays : stays x s s1.
Proof.
  pose proof (fr_elsewhere _ _ _ F) as E. destruct Hinv as [[[q Hq] C] Hc].
  apply stays_grows; [apply E|]. intros p Hp.
  destruct (so_queue _ _ _ Hq p Hp) as (Hch & _ & _).
  rewrite (ready_queue_eq _ _ _ _ Hq Hp). unfold ready_queue. rewrite (el_head _ _ _ E).
  rewrite (walk_chain _ s1 _ (q p)); [reflexivity| |pose proof (queue_fuel _ _ _ Hq p Hp); lia].
  apply (chain_same (nx s)); [|done]. intros j Hj. unfold nx. rewrite (el_task _ _ _ E); [done|].
  intros ->. destruct (so_member _ _ _ Hq p i Hp Hj) as (Hu' & _). congruence.
Qed.

Lemma fresh_stays_clear : stays x s (clear_task i s1).
Proof.
  eapply stays_trans; [apply fresh_stays|].
  destruct (fresh_good i s s1 Hu F (proj1 Hinv)) as (q & Hq & _).
  apply stays_clear; [done|done|by apply F| |by eapply good_q_good].
  eapply fresh_not_idle; [exact F|]. by destruct Hinv as [[_ C] _].
Qed.

Lemma fresh_stays_enqueue : stays x s (sched_enqueue_ready i s1).
Proof.
  eapply stays_trans; [apply fresh_stays|].
  destruct (fresh_good i s s1 Hu F (proj1 Hinv)) as (q & [Hq _] & _).
  eapply stays_enqueue; [exact Hq|done|split; apply F|by left].
Qed.

End new.

Lemma not_fresh i s p n :
  inv s -> prio_ok p -> ready_queue s p !! n = Some x -> used (tk s i) = false -> i <> x.
Proof. intros [Hg _] Hp Hn Hu ->. destruct (queued_ready s p n Hg Hp Hn) as (_ & [Hu' _] & _). congruence. Qed.

(** The task in question is queued. *)
Definition queued (s : tasks_state) : Prop := exists p n, prio_ok p /\ ready_queue s p !! n = Some x.

Lemma queued_not_fresh i s : queued s -> inv s -> used (tk s i) = false -> i <> x.
Proof. intros (p & n & Hp & Hn) Hinv. by eapply not_fresh. Qed.

Lemma queued_is_ready s : queued s -> inv s -> ready (tk s x).
Proof. intros (p & n & Hp & Hn) [Hg _]. by apply (queued_ready s p n). Qed.

Lemma stays_spawn text fn size fg vc kstack block s :
  inv s -> queued s -> stays x s (task_spawn text fn size fg vc kstack block s).1.
Proof.
  intros Hinv Hx. unfold task_spawn. do 2 (case_match; [apply stays_refl|]).
  destruct (find_free_slot s) as [i|] eqn:Ef; [|apply stays_refl]. destruct (free_slot s i Ef) as [Hi Hu].
  pose proof (queued_not_fresh i s Hx Hinv Hu) as Hne. cbv zeta.
  set (s1 := upd i (fun t => t <| stack := kstack |>) _).
  assert (TaskOps.fresh i s s1) as F1.
  { apply fresh_upd; [quiet_tac|]. apply fresh_emit, fresh_emit, fresh_new_task. }
  clearbody s1. do 2 (case_match; [by apply fresh_stays_clear|]).
  cbn [fst]. apply fresh_stays_enqueue; [done|done| |done]. apply fresh_foreground, fresh_init_stack.
  case_match; [|done]. by apply fresh_upd; [quiet_tac|].
Qed.

Lemma stays_spawn_user text entry base hb hs dir esp seg fg vc kstack attached s :
  inv s -> queued s ->
  stays x s (task_spawn_user_common text entry base hb hs dir esp seg fg vc kstack attached s).1.
Proof.
  intros Hinv Hx. unfold task_spawn_user_common. do 2 (case_match; [apply stays_refl|]).
  destruct (find_free_slot s) as [i|] eqn:Ef; [|apply stays_refl]. destruct (free_slot s i Ef) as [Hi Hu].
  pose proof (queued_not_fresh i s Hx Hinv Hu) as Hne. cbv zeta. set (s1 := emit (FdInit i) _).
  assert (TaskOps.fresh i s s1) as F1 by (apply fresh_emit, fresh_emit, fresh_new_task).
  clearbody s1. case_match; [by apply fresh_stays_clear|]. set (s2 := upd i _ s1).
  assert (TaskOps.fresh i s s2) as F2 by (apply fresh_upd; [quiet_tac|done]). clearbody s2.
  case_match; [by apply fresh_stays_clear|].
  cbn [fst]. apply fresh_stays_enqueue; [done|done| |done]. by apply fresh_foreground, fresh_init_stack.
Qed.

Lemma stays_fork f dir kstack ok s :
  inv s -> queued s -> stays x s (task_fork_from_frame f dir kstack ok s).1.
Proof.
  intros Hinv Hx. unfold task_fork_from_frame. cbv zeta. set (c := current_task_index s).
  destruct (Z.ltb_spec c 0) as [Hc|Hc]; [apply stays_refl|].
  destruct (current_slot s (proj2 Hinv) Hc) as [Hs Huc].
  fold c in Hs, Huc. case_match; [apply stays_refl|].
  destruct (find_free_slot s) as [i|] eqn:Ef; [|apply stays_refl]. destruct (free_slot s i Ef) as [Hi Hu].
  pose proof (queued_not_fresh i s Hx Hinv Hu) as Hne.
  case_match; [apply stays_refl|]. set (s0 := upd c _ s).
  assert (mild s s0) as M by (apply mild_quiet; [done|quiet_tac]).
  pose proof (mild_inv _ _ M Hinv) as Hinv0. rewrite <- (mi_used _ _ M) in Hu, Huc.
  eapply stays_trans; [apply (stays_mild _ _ (proj1 Hinv) M)|]. clearbody s0.
  case_match; [eapply stays_trans; apply stays_emit|]. set (s1 := emit (ShmReset i) _).
  assert (TaskOps.fresh i s0 s1) as F1.
  { apply fresh_emit, fresh_fill; [done|done|done| |apply kill_safe_copy].
    destruct Hinv0 as [[[q Hq] _] _]. by apply Hq. }
  clearbody s1. case_match; cbn [fst].
  - eapply stays_trans; [|by apply stays_upd]. apply (fresh_stays i s0); [done| |done].
    by apply fresh_emit, fresh_emit, fresh_emit.
  - apply (fresh_stays_enqueue i s0); [done|done| |done].
    apply fresh_upd; [quiet_tac|]. apply fresh_emit. apply fresh_upd; [quiet_tac|].
    apply fresh_emit. by apply fresh_upd; [quiet_tac|].
Qed.

Lemma stays_exec f nm entry base hb hs dir esp s :
  stays x s (task_exec_current_user_from_frame f nm entry base hb hs dir esp s).1.1.
Proof.
  unfold task_exec_current_user_from_frame. cbv zeta. set (c := current_task_index s).
  do 3 (case_match; [apply stays_refl|]). cbn [fst].
  pose proof (stays_globals _ _ (logged_globals _ _ (logged_kfree_if true (data (tk s c)) s))) as Hs1.
  generalize dependent (kfree_if true (data (tk s c)) s). intros s1 Hs1.
  repeat first [case_match | apply stays_emit_after | apply stays_upd_after; [done|] | exact Hs1].
Qed.

(** ** Signals and priorities of another task *)

Lemma stays_set_priority k prio s :
  inv s -> find_task_by_id s k <> Some x -> stays x s (task_set_priority k prio s).1.
Proof.
  intros [Hg Hc] Hx. unfold task_set_priority. destruct (_ || _) eqn:Ep; [apply stays_refl|].
  assert (prio_ok prio) as Hp.
  { apply orb_false_iff in Ep as [E1%Z.ltb_ge E2%Z.ltb_ge]. unfold prio_ok, SCHED_PRIO_COUNT,
      TASK_PRIORITY_HIGH, TASK_PRIORITY_LOW in *. lia. }
  destruct (find_task_by_id s k) as [i|] eqn:E; [|apply stays_refl].
  apply find_task_slot in E as (Hi & Hu & _). assert (i <> x) as Hne by congruence.
  destruct (Z.eqb_spec (id (tk s i)) (idle_task_id s)) as [|Hid]; [apply stays_refl|].
  case_match; [apply stays_refl|].
  destruct (state_is _ TASK_STATE_READY) eqn:Er; cbn [fst]; [|by apply stays_upd].
  apply state_is_true in Er. set (s0 := sched_remove_from_ready i s).
  pose proof (remove_links i s) as L. fold s0 in L. destruct (good_good_q _ _ Hg) as [q [Hq C]].
  assert (good_out i (q_remove q i) s0) as Ho.
  { apply good_remove; [done|done|]. split; [by apply sched_ok_open|done]. }
  assert (stays x s s0) as H0.
  { eapply stays_remove; [exact Hne|apply (lo_current _ _ L)|exact Hq|apply Ho]. }
  apply (good_out_priority i prio) in Ho; [|done|by rewrite (lo_used _ _ L)| |done].
  2: { rewrite (links_field id s s0), (lo_rest _ _ L) by done. done. }
  apply (stays_trans _ (upd i (fun t => t <| priority := prio |>) s0)); [by apply stays_upd_after|].
  destruct Ho as [[Ho _] _]. eapply stays_enqueue; [exact Ho|done| |by left].
  rewrite tk_upd_eq. split; cbn; [by rewrite (lo_used _ _ L)|by rewrite (lo_state _ _ L)].
Qed.

(** Another task ends. *)
Lemma stays_complete i s :
  i <> x -> slot i -> used (tk s i) = true -> over (state (tk s i)) -> good i s -> stays x s (complete_task i s).
Proof.
  intros Hx Hi Hu Ho Hg. pose proof (remove_links i s) as L. set (s0 := sched_remove_from_ready i s) in *.
  destruct (good_good_q _ _ Hg) as [q [Hq C]].
  destruct (removed_good_q i s Hi Hu Ho q) as [Hq' C']; [done|]. fold s0 in Hq', C'.
  eapply (stays_trans _ s0).
  { eapply stays_remove; [exact Hx|apply (lo_current _ _ L)|exact Hq|exact Hq']. }
  destruct (complete_removed i s Hi Hu Ho Hg) as [_ E2 _ _ _ _ _ E8]. apply stays_grows; [exact E2|].
  apply E8. intros p Hp. apply not_queued; [split; [by eexists|done]|done|done|].
  rewrite (lo_state _ _ L). by apply over_not.
Qed.

Lemma stays_send_signal k signum s :
  inv s -> signum <> LYTH_SIGKILL \/ find_task_by_id s k <> Some x ->
  stays x s (task_send_signal k signum s).1.
Proof.
  intros Hinv Hx. unfold task_send_signal. case_match; [apply stays_refl|].
  destruct (find_task_by_id s k) as [i|] eqn:E; [|apply stays_refl].
  apply find_task_slot in E as (Hi & Hu & _). unfold task_queue_signal_locked.
  destruct (decide (signum = LYTH_SIGKILL)) as [->|Hk].
  2: { apply stays_mild; [apply Hinv|by apply mild_queue]. }
  assert (i <> x) as Hne by (destruct Hx; congruence).
  unfold queue_signal_with. cbv zeta. rewrite Hu. change (signal_is_valid LYTH_SIGKILL) with true. cbn [negb orb].
  do 2 (case_match; [apply stays_refl|]). rewrite Z.eqb_refl.
  set (s1 := upd i _ s). set (s2 := upd i _ s1).
  assert (stays x s s2) as H2 by (apply stays_upd_after; [done|]; by apply stays_upd).
  case_match; cbn [fst]; [done|]. eapply stays_trans; [exact H2|].
  apply stays_complete; [done|done|unfold s2, s1; by rewrite !tk_upd_eq|unfold s2; rewrite tk_upd_eq; by right|].
  apply good_restate; [restate_tac|done| |done|].
  - unfold s1. rewrite tk_upd_eq. intros (_ & Eid & _). cbn in Eid. by apply Z.eqb_neq in Eid.
  - apply good_open, inv_quiet; [done|by unfold quiet, kill_safe; cbn; split_and!|done].
Qed.

(** ** Children *)

Lemma stays_reap parent s :
  inv s -> queued s -> stays x s (task_reap_zombies_for parent s).1.
Proof.
  intros Hinv Hx. unfold task_reap_zombies_for.
  apply (for_loop_ind (fun _ y => inv y.1 /\ stays x s y.1)); [split; [done|apply stays_refl]|].
  intros i [t n] Hi [Ht Hs]. cbn [fst] in *. destruct (_ && _ && _) eqn:E; [|done]. cbn [fst].
  apply andb_prop in E as [[Hu Hz]%andb_prop _]. apply state_is_true in Hz.
  split; [by apply inv_clear_zombie|]. eapply stays_trans; [exact Hs|].
  apply stays_clear_zombie; [|done|done|done|apply Ht]. apply queued_is_ready; [|done].
  destruct Hx as (p & k & Hp & Hk). destruct (st_queue _ _ _ Hs p k Hp Hk) as (m & _ & Hm). by exists p, m.
Qed.

Lemma stays_wait_id target s : inv s -> queued s -> stays x s (task_wait_id target s).
Proof.
  intros Hinv Hx. pose proof (queued_is_ready s Hx Hinv) as Hr. pose proof (proj1 Hinv) as Hg.
  assert (forall e, stays x s (block_on e s)) as Hb by (intros; by apply stays_on_current).
  unfold task_wait_id. case_match; [apply stays_refl|]. cbv zeta. case_match.
  - destruct (zombie_child s _) as [i|] eqn:E; [|case_match; [apply Hb|apply stays_refl]].
    apply zombie_child_spec in E as (? & ? & _ & ?). by apply stays_clear_zombie.
  - case_match; [apply stays_refl|]. destruct (find_task_by_id s target) as [k|] eqn:E; [|apply stays_refl].
    apply find_task_slot in E as (? & ? & _). destruct (state_is _ _) eqn:Ez; [|apply Hb].
    apply state_is_true in Ez. case_match; [by apply stays_clear_zombie|apply stays_refl].
Qed.

Lemma stays_waitpid target uptr s : inv s -> queued s -> stays x s (task_waitpid target uptr s).1.
Proof.
  intros Hinv Hx. unfold task_waitpid. case_match; [apply stays_refl|]. cbv zeta.
  pose proof (queued_is_ready s Hx Hinv) as Hr. pose proof (proj1 Hinv) as Hg.
  assert (forall e, stays x s (task_set_errno e s)) as He by (intros; by apply stays_on_current).
  assert (forall e, stays x s (block_on e (on_current (fun t => t <| waitpid_status_uptr := uptr |>) s))) as Hb.
  { intros e. eapply stays_trans; by apply stays_on_current. }
  assert (forall k, slot k -> used (tk s k) = true -> state (tk s k) = TASK_STATE_ZOMBIE ->
            stays x s (collect k uptr s).1) as Hcl.
  { intros k Hk Hu Hz. unfold collect. cbv zeta. cbn [fst].
    pose proof (stays_clear_zombie k s Hr Hk Hu Hz Hg) as H1. case_match; [|done].
    eapply stays_trans; [exact H1|]. apply stays_mild; [|apply mild_write_user]. by apply inv_clear_zombie. }
  case_match.
  - destruct (zombie_child s _) as [i|] eqn:E; [|case_match; cbn [fst]; auto].
    apply zombie_child_spec in E as (? & ? & _ & ?). by apply Hcl.
  - case_match; [apply He|]. destruct (find_task_by_id s target) as [k|] eqn:E; [|apply He].
    apply find_task_slot in E as (? & ? & _). case_match; [apply He|].
    destruct (state_is _ _) eqn:Ez; [|apply Hb]. apply state_is_true in Ez. by apply Hcl.
Qed.

Lemma stays_set_foreground i s : stays x s (task_set_foreground i s).1.
Proof.
  unfold task_set_foreground. cbv zeta.
  match goal with |- context [if ?b then s else ?y] => set (s1 := if b then s else y) end.
  assert (stays x s s1) as H1.
  { unfold s1. case_match; [apply stays_refl|].
    apply (stays_trans _ (match find_task_by_id s (foreground_task_id s) with
                          | Some k => upd k (fun t => t <| foreground := false |>) s | None => s end)).
    - by apply stays_find.
    - apply stays_globals. by split. }
  clearbody s1. case_match; [done|]. destruct (find_task_by_id s1 i) as [k|] eqn:E; [|done].
  case_match; [done|]. cbn [fst].
  apply (stays_trans _ (upd k (fun t => t <| foreground := true |>) s1)); [by apply stays_upd_after|].
  apply stays_globals. by split.
Qed.

(** ** Every call *)

(** The calls that are about task [x]: its priority, and [SIGKILL]. *)
Definition spares (ev : event) (s : tasks_state) : bool :=
  match ev with
  | Call (SetPriority i _) => negb (bool_decide (find_task_by_id s i = Some x))
  | Call (SendSignal i signum) =>
      negb ((signum =? LYTH_SIGKILL) && bool_decide (find_task_by_id s i = Some x))
  | _ => true
  end.

Lemma stays_call c s :
  inv s -> queued s -> spares (Call c) s = true -> stays x s (do_call c s).
Proof.
  intros Hinv Hx Hsp. pose proof (proj1 Hinv) as Hg.
  assert (forall f, (forall t, sched_next (f t) = sched_next t) -> stays x s (on_current f s)) as Hc
    by (intros; by apply stays_on_current).
  destruct c; cbn [do_call].
  - by apply stays_spawn.
  - by apply stays_spawn_user.
  - by apply stays_fork.
  - apply stays_exec.
  - apply Hc. intros t. by case_match.
  - unfold task_wait_event. do 2 (case_match; [apply stays_refl|]). by apply Hc.
  - unfold task_wait_event_timeout, task_wait_event.
    repeat (case_match; try apply stays_refl); by apply Hc.
  - apply Hc. intros t. by case_match.
  - by apply Hc.
  - unfold task_request_cancel. destruct (Z.ltb_spec (current_task_index s) 0) as [|H0]; [apply stays_refl|].
    destruct (current_slot s (proj2 Hinv) H0). apply stays_mild; [done|by apply mild_request_cancel].
  - unfold task_clear_cancel. case_match; [by apply Hc|]. case_match; [apply stays_refl|by apply stays_find].
  - apply stays_set_priority; [done|]. apply negb_true_iff, bool_decide_eq_false in Hsp. done.
  - by apply stays_find.
  - apply stays_set_foreground.
  - unfold task_alarm. cbv zeta. case_match; [apply stays_refl|by apply stays_upd].
  - unfold task_setitimer. cbv zeta. repeat (case_match; cbn [fst]; try apply stays_refl); by apply stays_upd.
  - apply stays_send_signal; [done|]. apply negb_true_iff, andb_false_iff in Hsp as [H%Z.eqb_neq|H]; [by left|right].
    by apply bool_decide_eq_false in H.
  - unfold task_set_signal_handler. cbv zeta. do 2 (case_match; [apply stays_refl|]). by apply stays_upd.
  - unfold task_sigprocmask. cbv zeta. repeat (case_match; try apply stays_refl); by apply stays_upd.
  - apply stays_globals. by split.
  - by apply stays_reap.
  - by apply stays_wait_id.
  - by apply stays_waitpid.
  - by apply Hc.
  - unfold task_set_current_uid. cbv zeta. repeat (case_match; cbn [fst]; try apply stays_refl); by apply Hc.
  - unfold task_set_current_gid. cbv zeta. repeat (case_match; cbn [fst]; try apply stays_refl); by apply Hc.
  - by apply Hc.
  - unfold task_set_groups. repeat (case_match; cbn [fst]; try apply stays_refl); by apply Hc.
  - unfold task_set_fd_rlimit. do 5 (case_match; [apply stays_refl|]). by apply Hc.
  - unfold task_mmap. cbv zeta. do 3 (case_match; [apply stays_refl|]).
    destruct (mmap_anonymous _ _ _ _) as [[r a] b]. by apply Hc.
  - unfold task_munmap. case_match; [apply stays_refl|]. destruct (mmap_unmap _ _ _) as [r a]. by apply Hc.
Qed.

End stays.

(** * Timer interrupts *)

Section fair.
Context {ENV : TaskEnv}.

(** A timer interrupt with a running task sends it away; the queues only grow. *)
Lemma timer_away now esp f s :
  inv s -> 0 <= current_task_index s ->
  let s' := run_event (Timer now esp f) s in
  current_task_index s' = -1 /\ grows s s'.
Proof.
  intros Hinv Hc. cbn [run_event]. unfold timer_interrupt_handler, task_schedule_on_timer. cbv zeta.
  pose proof (mild_on_tick now s) as M. set (s1 := task_on_tick now s) in *. clearbody s1.
  pose proof (mild_inv _ _ M Hinv) as H1. rewrite <- (mi_current _ _ M) in Hc.
  pose proof (mi_queue _ _ M (proj1 Hinv)) as G1. rewrite (proj2 (Z.leb_le _ _) Hc).
  destruct (inv_deliver f s1 Hc H1) as [D1 D2 D3]. destruct (task_deliver_signals_current _ f s1) as [s2 f2].
  cbn [fst] in *. rewrite <- D2 in Hc. destruct (back_to_idle_spec esp s2 Hc D1) as [_ B2 _ _ B3 _ _].
  split; [done|]. by apply (grows_trans _ s1), (grows_trans _ s2).
Qed.

(** A timer interrupt without a running task dispatches one. *)
Lemma timer_dispatch now esp f s p n x :
  inv s -> current_task_index s = -1 -> prio_ok p -> ready_queue s p !! n = Some x ->
  let s' := run_event (Timer now esp f) s in
  0 <= current_task_index s' /\
  (p <= priority (tk s' (current_task_index s')) ->
     current_task_index s' = x \/ exists m, n = S m /\ ready_queue s' p !! m = Some x).
Proof.
  intros Hinv Hc Hp Hx. cbn [run_event]. unfold timer_interrupt_handler, task_schedule_on_timer. cbv zeta.
  pose proof (mild_on_tick now s) as M. rewrite <- (mi_current _ _ M) in Hc. rewrite Hc. cbn [Z.leb Z.compare fst].
  revert M Hc. generalize (task_on_tick now s). intros s1 M Hc. pose proof (mild_inv _ _ M Hinv) as H1.
  pose proof (prefix_lookup_Some _ _ _ _ Hx (mi_queue _ _ M (proj1 Hinv) p Hp)) as Hx1.
  destruct (schedule_from_idle_spec esp s1 Hc (proj1 H1)) as
    (p' & x' & l & Hp' & Eq & Hs & _ & Epr & Hbest & _ & _ & Ec & Etk & El & _).
  destruct (schedule_from_idle esp s1) as [s2 r]. cbn [fst] in *.
  rewrite Ec. split; [by destruct Hs|].
  assert (priority (tk s2 x') = p') as -> by (rewrite Etk; exact Epr). intros Hle.
  assert (p' = p) as ->.
  { destruct (Z.lt_trichotomy p p') as [Hlt|[->|Hlt]]; [|done|lia].
    rewrite (Hbest p) in Hx1; [done|]. destruct Hp. lia. }
  rewrite Eq in Hx1. destruct n as [|m]; [left; cbn in Hx1; congruence|right].
  exists m. split; [done|]. by rewrite El.
Qed.

(** Returning from a system call keeps the running task or sends it away. *)
Lemma return_grows esp f s :
  inv s -> let s' := run_event (Return esp f) s in
  (current_task_index s' = current_task_index s \/ current_task_index s' = -1) /\ grows s s'.
Proof.
  intros Hinv. cbn [run_event]. unfold task_schedule_on_syscall. cbv zeta.
  destruct (Z.leb_spec 0 (current_task_index s)) as [Hc|Hc]; [|split; [by left|by apply grows_same]].
  destruct (inv_deliver f s Hc Hinv) as [D1 D2 D3]. destruct (task_deliver_signals_current _ f s) as [s1 f1].
  cbn [fst] in *. case_match; cbn [fst]; [|split; [by left|done]].
  destruct (back_to_idle_spec esp s1) as [_ B2 _ _ B3 _ _]; [lia|done|].
  split; [by right|by eapply grows_trans].
Qed.

(** * Whole runs *)

Definition is_timer (ev : event) : bool := match ev with Timer _ _ _ => true | _ => false end.

Fixpoint timer_count (evs : list event) : nat :=
  match evs with [] => 0 | ev :: evs' => (if is_timer ev then 1 else 0) + timer_count evs' end%nat.

(** No call of the run changes the priority of [x] or kills it. *)
Fixpoint spared (x : Z) (evs : list event) (s : tasks_state) : bool :=
  match evs with [] => true | ev :: evs' => spares x ev s && spared x evs' (run_event ev s) end.

(** No task of a better priority than [p] is dispatched in the run. *)
Fixpoint undisturbed (p : Z) (evs : list event) (s : tasks_state) : bool :=
  match evs with
  | [] => true
  | ev :: evs' =>
      let s' := run_event ev s in
      ((0 <=? current_task_index s) || (current_task_index s' <? 0) ||
       (p <=? priority (tk s' (current_task_index s')))) && undisturbed p evs' s'
  end.

(** [r] timer interrupts are enough for [x] to run. *)
Definition waits (x p : Z) (r : nat) (s : tasks_state) : Prop :=
  exists n, ready_queue s p !! n = Some x /\
    (2 * n + (if decide (0 <= current_task_index s)%Z then 2 else 1) <= r)%nat.

Lemma waits_not_further x p r s s' :
  prio_ok p -> (current_task_index s' = current_task_index s \/ current_task_index s' = -1) ->
  (forall n, ready_queue s p !! n = Some x -> exists m, (m <= n)%nat /\ ready_queue s' p !! m = Some x) ->
  waits x p r s -> waits x p r s'.
Proof.
  intros Hp Hc Hq (n & Hn & Hr). destruct (Hq n Hn) as (m & Hm & E). exists m. split; [done|].
  destruct Hc as [-> | ->]; [lia|]. rewrite decide_False by lia. case_decide; lia.
Qed.

Lemma waits_grows x p r s s' :
  prio_ok p -> (current_task_index s' = current_task_index s \/ current_task_index s' = -1) -> grows s s' ->
  waits x p r s -> waits x p r s'.
Proof.
  intros Hp Hc Hg. apply waits_not_further; [done|done|]. intros n Hn. exists n. split; [done|].
  by eapply prefix_lookup_Some, Hg.
Qed.

(** What is not a timer interrupt does not delay the task. *)
Lemma waits_event x p r ev s :
  inv s -> prio_ok p -> is_timer ev = false -> spares x ev s = true ->
  waits x p r s -> waits x p r (run_event ev s).
Proof.
  intros Hinv Hp Ht Hsp Hw.
  assert (forall s', mild s s' -> waits x p r s') as Hmild.
  { intros s' M. apply (waits_grows x p r s); [done|left; apply (mi_current _ _ M)| |done].
    by apply (mi_queue _ _ M), Hinv. }
  destruct ev as [c| | | | |]; try done; cbn [run_event].
  - assert (queued x s) as Hq by (destruct Hw as (n & Hn & _); by exists p, n).
    destruct (stays_call x c s Hinv Hq Hsp) as [Hc Hn].
    apply (waits_not_further x p r s); [done|by left| |done]. intros n. by apply Hn.
  - apply Hmild, mild_signal_event.
  - apply Hmild, mild_foreground_cancel.
  - destruct (return_grows esp f s Hinv) as [Hc Hg]. by apply (waits_grows x p r s).
Qed.

(** A timer interrupt brings it closer. *)
Lemma waits_timer x p r now esp f s s' :
  s' = run_event (Timer now esp f) s -> inv s -> prio_ok p ->
  (0 <= current_task_index s \/ current_task_index s' < 0 \/
   p <= priority (tk s' (current_task_index s'))) ->
  waits x p (S r) s -> current_task_index s' = x \/ waits x p r s'.
Proof.
  intros Es Hinv Hp Hun (n & Hn & Hr). destruct (proj2 Hinv) as [Hc|([Hc _] & _)].
  - rewrite decide_False in Hr by lia. pose proof (timer_dispatch now esp f s p n x Hinv Hc Hp Hn) as Hd.
    cbv zeta in Hd. rewrite <- Es in Hd. clear Es. destruct Hd as [H0 Hd].
    destruct Hd as [?|(m & -> & Hm)]; [lia|by left|right]. exists m. split; [done|]. case_decide; lia.
  - right. pose proof (timer_away now esp f s Hinv Hc) as Hd. cbv zeta in Hd. rewrite <- Es in Hd. clear Es.
    destruct Hd as [Hc' Hg]. exists n. split; [by eapply prefix_lookup_Some, Hg|]. rewrite Hc'.
    rewrite decide_True in Hr by done. rewrite decide_False by lia. lia.
Qed.

Lemma run_take_cons k ev evs s : run (take (S k) (ev :: evs)) s = run (take k evs) (run_event ev s).
Proof. reflexivity. Qed.

Lemma waits_run x p evs : forall r s,
  inv s -> prio_ok p -> waits x p r s -> run_ok evs s = true -> spared x evs s = true ->
  undisturbed p evs s = true -> (r <= timer_count evs)%nat ->
  exists k, (timer_count (take k evs) <= r)%nat /\ current_task_index (run (take k evs) s) = x.
Proof.
  induction evs as [|ev evs IH]; intros r s Hinv Hp Hw Hok Hsp Hun Hr.
  { destruct Hw as (n & _ & H). cbn [timer_count] in Hr. case_decide; lia. }
  cbn [run_ok spared undisturbed timer_count] in *.
  apply andb_prop in Hok as [Ha%allowedb_true Hok], Hsp as [Hsp1 Hsp], Hun as [Hun1 Hun].
  pose proof (inv_event ev s Ha Hinv) as Hinv'.
  destruct (is_timer ev) eqn:Et.
  - destruct ev as [| | |now esp f| |]; try done.
    destruct r as [|r]; [destruct Hw as (n & _ & H); case_decide; lia|].
    destruct (waits_timer x p r now esp f s _ eq_refl Hinv Hp) as [E|Hw']; [|done| |].
    { apply orb_prop in Hun1 as [[?%Z.leb_le|?%Z.ltb_lt]%orb_prop|?%Z.leb_le]; tauto. }
    + exists 1%nat. split; [|by rewrite run_take_cons].
      cbn [take timer_count is_timer]. change (timer_count (take 0 evs)) with 0%nat. lia.
    + destruct (IH r _ Hinv' Hp Hw' Hok Hsp Hun) as (k & Hk & E); [lia|].
      exists (S k). split; [cbn [take timer_count is_timer]; lia|by rewrite run_take_cons].
  - apply (waits_event x p r ev s Hinv Hp Et Hsp1) in Hw.
    destruct (IH r _ Hinv' Hp Hw Hok Hsp Hun) as (k & Hk & E); [lia|].
    exists (S k). split; [cbn [take timer_count]; rewrite Et; lia|by rewrite run_take_cons].
Qed.

(** C4: round robin: take any run of calls, system call returns, device
    interrupts and timer interrupts, with at least 2n + 2 timer interrupts, from a
    state in which a task has [n] tasks before it in the ready queue of its
    priority.  When no task of a better priority is dispatched in the run and no
    call kills the task or sets its priority, then the task runs after at most
    2n + 2 timer interrupts: nothing else that tasks or interrupts do moves it
    back. *)
Theorem round_robin s p x n evs :
  reachable s -> prio_ok p -> ready_queue s p !! n = Some x ->
  run_ok evs s = true -> spared x evs s = true -> undisturbed p evs s = true ->
  (2 * n + 2 <= timer_count evs)%nat ->
  exists k, (timer_count (take k evs) <= 2 * n + 2)%nat /\ current_task_index (run (take k evs) s) = x.
Proof.
  intros Hinv%tasks_reachable_inv Hp Hx Hok Hsp Hun Hl.
  apply (waits_run x p evs (2 * n + 2)); try done. exists n. split; [done|]. case_decide; lia.
Qed.

End fair.

(** * Example *)

(** The first task runs, sets an alarm, starts a task and goes to sleep twice,
    and a device signals an event, while the second task waits. *)
Definition demo_run : list event :=
  [Timer 1 4000 demo_frame; Call (Alarm 1 100 3); Call (Spawn [99] 1 0 false (-1) 196608 0);
   Call (Sleep 1 5); Call (Sleep 1 6); Return 4001 demo_frame; SignalEvent 7;
   Timer 2 4002 demo_frame; Timer 3 4003 demo_frame; Timer 4 4004 demo_frame].

Lemma round_robin_witness :
  ready_queue demo_tasks TASK_PRIORITY_LOW !! 1%nat = Some 2 /\
  exists k, (timer_count (take k demo_run) <= 4)%nat /\
    current_task_index (@run demo_env (take k demo_run) demo_tasks) = 2.
Proof.
  split; [vm_compute; reflexivity|].
  apply (@round_robin demo_env demo_tasks TASK_PRIORITY_LOW 2 1 demo_run demo_reachable).
  - split; [discriminate|reflexivity].
  - vm_compute. reflexivity.
  - vm_compute. reflexivity.
  - vm_compute. reflexivity.
  - vm_compute. reflexivity.
  - apply le_n.
Defined.
