(* ===== verification/TaskCalls.v ===== *)
(** What the system calls on tasks give their callers: the status of a child
    through [exit] and [waitpid], user identities, and signals after [fork]. *)
From S2P Require Import Prelude.
From S2P Require Import Mmap.
From S2P Require Import Paging.
From S2P Require Import Task.
From S2P Require Import Sched.
From S2P Require Import TaskInv.
From S2P Require Import TaskOps.
From S2P Require Import TaskSys.
From Stdlib Require Import ZArith Lia.
From stdpp Require Import base numbers list gmap.

Open Scope Z_scope.
Open Scope lyth_scope.

(** * Steps that leave a task and its parent's registers alone *)

(** The effects by which a parent is handed the result of [waitpid]. *)
Definition handed (e : effect) : bool :=
  match e with SetRax _ _ | WriteUserInt _ _ => true | _ => false end.

Definition hands (s : tasks_state) : list effect := filter (fun e => handed e = true) (log s).

(** Slot [i] keeps all but its link, and nothing is handed over. *)
Record calm (i : Z) (s s' : tasks_state) : Prop := Calm {
  ca_task : (tk s' i) <| sched_next := 0 |> = (tk s i) <| sched_next := 0 |>;
  ca_log : hands s' = hands s;
}.

Lemma calm_refl i s : calm i s s.
Proof. by split. Qed.

Lemma calm_trans i s1 s2 s3 : calm i s1 s2 -> calm i s2 s3 -> calm i s1 s3.
Proof. intros [A1 A2] [B1 B2]. split; congruence. Qed.

Lemma calm_field {A} (f : task_entry -> A) i s s' :
  (forall t, f (t <| sched_next := 0 |>) = f t) -> calm i s s' -> f (tk s' i) = f (tk s i).
Proof. intros Hf H. by rewrite <- (Hf (tk s' i)), <- (Hf (tk s i)), (ca_task _ _ _ H). Qed.

Lemma calm_links i s s' : links_only s s' -> calm i s s'.
Proof. intros L. split; [apply L|]. unfold hands. by rewrite (lo_rest _ _ L). Qed.

Lemma calm_upd i j f s : j <> i -> calm i s (upd j f s).
Proof. intros H. split; [by rewrite tk_upd_ne|done]. Qed.

Lemma calm_make_ready i j s : j <> i -> calm i s (make_ready j s).
Proof.
  intros H. apply (calm_trans _ _ (upd j (fun t => t <| state := TASK_STATE_READY |>) s)); [by apply calm_upd|].
  apply calm_links, enqueue_links.
Qed.

Lemma calm_emit i e s : handed e = false -> calm i s (emit e s).
Proof.
  intros He. split; [done|]. unfold hands. cbn. rewrite filter_app, filter_cons_False by (by rewrite He).
  by rewrite filter_nil, app_nil_r.
Qed.

Lemma calm_if i (b : bool) s s1 s2 : calm i s s1 -> calm i s s2 -> calm i s (if b then s1 else s2).
Proof. by destruct b. Qed.

Lemma calm_reparent i old new s : parent_id (tk s i) <> old -> calm i s (reparent_children old new s).
Proof.
  intros Hp. unfold reparent_children. case_match; [apply calm_refl|].
  apply (for_loop_ind (fun _ t => calm i s t)); [apply calm_refl|]. intros j t _ Ht.
  destruct (used (tk t j) && (parent_id (tk t j) =? old)) eqn:E; [|done].
  apply (calm_trans _ _ _ _ Ht), calm_upd. intros ->. apply Hp.
  rewrite <- (calm_field parent_id i s t) by done. apply andb_prop in E as [_ E]. by apply Z.eqb_eq.
Qed.

Lemma calm_signal_event i ev s :
  state (tk s i) <> TASK_STATE_BLOCKED -> calm i s (task_signal_event ev s).1.
Proof.
  intros Hst. unfold task_signal_event. case_match; [apply calm_refl|].
  apply (for_loop_ind (fun _ t => calm i s t.1)); [apply calm_refl|]. intros j [t n] _ Ht. cbn [fst] in Ht.
  cbv beta iota zeta. destruct (_ && _ && _) eqn:E; [|done]. cbn [fst]. apply (calm_trans _ _ _ _ Ht).
  assert (j <> i) as Hne.
  { intros ->. apply Hst. rewrite <- (calm_field state i s t) by done.
    apply andb_prop in E as [[_ E]%andb_prop _]. by apply state_is_true. }
  eapply calm_trans; [by apply calm_upd|by apply calm_make_ready].
Qed.

Section operations.
Context {ENV : TaskEnv}.

Lemma calm_notify i p ti s : p <> i -> calm i s (notify_parent p ti s).
Proof.
  intros Hne. unfold notify_parent. case_match; [|apply calm_refl]. unfold queue_signal_with. cbv zeta.
  change (LYTH_SIGCHLD =? LYTH_SIGKILL) with false. repeat (case_match; try apply calm_refl); cbn [fst].
  - eapply calm_trans; [by apply calm_upd|]. eapply calm_trans; [by apply calm_upd|by apply calm_make_ready].
  - by apply calm_upd.
Qed.

Lemma calm_job_messages i t c s : calm i s (job_messages t c s).
Proof.
  unfold job_messages. cbv zeta. eapply calm_trans; [|apply calm_if; [by apply calm_emit|apply calm_refl]].
  apply calm_if; [by apply calm_emit|apply calm_refl].
Qed.

Lemma hands_kfree_if c p s : hands (kfree_if c p s) = hands s.
Proof. unfold kfree_if. case_match; [|done]. by apply (calm_emit 0). Qed.

Lemma hands_release_image i s : hands (release_image i s) = hands s.
Proof.
  unfold release_image. cbv zeta.
  assert (forall e t, handed e = false -> hands (emit e t) = hands t) as He by (intros; by apply (calm_emit 0)).
  repeat case_match; rewrite ?He by done; done.
Qed.

Lemma hands_zombify i s : hands (zombify_task i s) = hands s.
Proof.
  rewrite zombify_task_eq. change (hands (upd i buried ?x)) with (hands x). unfold released. cbv zeta.
  rewrite hands_release_image, !hands_kfree_if. rewrite (ca_log i _ _ (calm_emit i (FdCloseAll i) _ eq_refl)).
  apply (ca_log i), calm_links, remove_links.
Qed.

(** * The parent of a task that ends *)

Lemma find_task_unique s p :
  core s -> slot p -> used (tk s p) = true -> find_task_by_id s (id (tk s p)) = Some p.
Proof.
  intros C Hp Hu. destruct (find_task_by_id s _) as [k|] eqn:E.
  - apply find_task_slot in E as (Hk & Huk & Eid). f_equal. by apply (c_uniq _ C).
  - unfold find_task_by_id in E. rewrite find_first_None in E. specialize (E p). change (Z.of_nat table) with 16 in E.
    unfold slot, TASK_MAX_COUNT in Hp. rewrite Hu, Z.eqb_refl in E. by specialize (E ltac:(lia)).
Qed.

(** The parent is woken by [SIGCHLD] before it is asked whether it waits. *)
Lemma notified_state p ti s :
  core s -> slot p -> used (tk s p) = true -> id (tk s p) <> ti -> state (tk s p) <> TASK_STATE_ZOMBIE ->
  state (tk (notify_parent p ti s) p) <> TASK_STATE_BLOCKED /\
  state (tk (notify_parent p ti s) p) <> TASK_STATE_ZOMBIE /\
  (state (tk s p) = TASK_STATE_BLOCKED -> state (tk (notify_parent p ti s) p) = TASK_STATE_READY).
Proof.
  intros C Hp Hu Hid Hz. unfold notify_parent. rewrite Hu, (proj2 (Z.eqb_neq _ _) Hid). cbn [negb andb].
  unfold queue_signal_with. cbv zeta. rewrite Hu. apply state_is_false in Hz as Hz'. rewrite Hz'. cbn [negb orb].
  change (signal_is_valid LYTH_SIGCHLD) with true. change (LYTH_SIGCHLD =? LYTH_SIGKILL) with false.
  cbn [negb]. cbv iota. destruct (Z.eqb_spec (id (tk s p)) (idle_task_id s)) as [E|E].
  { cbn [fst]. destruct (idle_state s p C Hp Hu E) as (_ & _ & _ & _ & [Hst|Hst]); by rewrite Hst. }
  destruct (_ || _) eqn:Es; cbn [fst].
  - rewrite (make_ready_field state) by done. by rewrite decide_True.
  - rewrite tk_upd_eq. cbn. apply orb_false_iff in Es as [_ Es%state_is_false]. by split_and!.
Qed.

Lemma calm_announced i t s :
  parent_id (tk s i) <> id t -> state (tk s i) <> TASK_STATE_BLOCKED -> calm i s (announced t s).
Proof.
  intros Hp Hst. unfold announced. cbv zeta.
  match goal with |- calm _ _ (task_signal_event _ (reparent_children _ _ ?x)).1 => assert (calm i s x) as K end.
  { eapply calm_trans; [|apply calm_job_messages].
    eapply calm_trans; [|apply calm_if; [by apply calm_emit|apply calm_refl]]. by apply calm_if. }
  match goal with |- context [reparent_children _ (sys_init_pid ?x) ?x] => generalize dependent x; intros s1 K end.
  assert (calm i s (reparent_children (id t) (sys_init_pid s1) s1)) as K1.
  { eapply calm_trans; [exact K|]. apply calm_reparent. by rewrite (calm_field parent_id i s s1). }
  eapply calm_trans; [exact K1|]. apply calm_signal_event.
  by rewrite (calm_field state i s) by done.
Qed.

(** What the parent finds: the task without its memory, and no result. *)
Definition zombie_of (t : task_entry) (i : Z) (s s' : tasks_state) : Prop :=
  (tk s' i) <| sched_next := 0 |> = (buried t) <| sched_next := 0 |> /\ hands s' = hands s.

Lemma buried_link t : buried (t <| sched_next := 0 |>) = (buried t) <| sched_next := 0 |>.
Proof. by destruct t. Qed.

Lemma zombify_zombie i ev s :
  zombie_of (tk s i) i s (task_signal_event ev (zombify_task i s)).1.
Proof.
  destruct (calm_signal_event i ev (zombify_task i s)) as [S1 S2].
  { rewrite zombify_task_eq, tk_upd_eq. done. }
  split; [|by rewrite S2, hands_zombify]. rewrite S1, zombify_task_eq, tk_upd_eq.
  by rewrite <- !buried_link, (released_tk i s).
Qed.

(** A task that ends with a live parent becomes a zombie, even when the parent
    waits for it, and keeps what the parent will ask for. *)
Lemma complete_zombie i p s :
  slot i -> used (tk s i) = true -> over (state (tk s i)) -> good i s ->
  slot p -> p <> i -> used (tk s p) = true -> state (tk s p) <> TASK_STATE_ZOMBIE ->
  parent_id (tk s i) = id (tk s p) ->
  zombie_of (tk s i) i s (complete_task i s) /\
  (state (tk s p) = TASK_STATE_BLOCKED -> state (tk (complete_task i s) p) = TASK_STATE_READY).
Proof.
  intros Hi Hu Ho Hg Hp Hne Hup Hzp Epar. pose proof (over_not _ Ho) as (N1 & N2 & N3 & N4 & N5).
  pose proof (remove_links i s) as L. pose proof (removed_good i s Hi Hu Ho Hg) as Hg0.
  assert (id (tk s p) <> id (tk s i)) as Hids by (intros E; apply Hne; by apply (c_uniq _ (proj2 Hg))).
  pose proof (c_id _ (proj2 Hg) p Hp Hup) as [Hpos _].
  rewrite complete_task_eq by (done || by apply over_not_idle, Hg). cbv zeta.
  pose proof (mild_announced (tk s i) (sched_remove_from_ready i s)) as M.
  pose proof (calm_announced i (tk s i) (sched_remove_from_ready i s)) as K.
  rewrite (links_field parent_id s), (lo_state _ _ L) in K by done. rewrite Epar in K. specialize (K Hids N3).
  pose proof (calm_trans _ _ _ _ (calm_links i s _ L) K) as K5. clear K.
  generalize dependent (announced (tk s i) (sched_remove_from_ready i s)). intros s5 M K5.
  pose proof (mi_good _ _ M Hg0) as [_ C5].
  assert (id (tk s5 p) = id (tk s p)) as Eid5 by (rewrite (mi_id _ _ M); by apply (links_field id)).
  assert (used (tk s5 p) = true) as Hu5 by (by rewrite (mi_used _ _ M), (lo_used _ _ L)).
  rewrite Epar, (proj2 (Z.ltb_lt _ _) Hpos).
  pose proof (find_task_unique s5 p C5 Hp Hu5) as Ef. rewrite Eid5 in Ef. rewrite Ef. clear Ef.
  assert (state (tk s5 p) <> TASK_STATE_ZOMBIE) as Hz5.
  { destruct (mi_state _ _ M p) as [->|[_ ->]]; [|done]. by rewrite (lo_state _ _ L). }
  destruct (notified_state p (id (tk s i)) s5) as (B1 & B2 & B3); [done|done|done|by rewrite Eid5|done|].
  assert (state (tk s p) = TASK_STATE_BLOCKED ->
          state (tk (notify_parent p (id (tk s i)) s5) p) = TASK_STATE_READY) as B4.
  { intros E. rewrite <- (lo_state _ _ L) in E. destruct (mi_state _ _ M p) as [E5|[_ E5]]; [apply B3; congruence|].
    destruct (mi_state _ _ (mild_notify p (id (tk s i)) s5 Hp) p) as [->|[_ ->]]; done. }
  pose proof (calm_trans _ _ _ _ K5 (calm_notify i p (id (tk s i)) s5 Hne)) as [K7 K8].
  unfold given. cbv zeta. generalize dependent (notify_parent p (id (tk s i)) s5). intros s6 B1 B2 _ B4 K7 K8.
  apply state_is_false in B1, B2. rewrite B1, B2. cbn [negb andb]. split.
  - destruct (zombify_zombie i (parent_id (tk s i)) s6) as [Z1 Z2]. split; [|by rewrite Z2].
    rewrite Z1. by rewrite <- !buried_link, K7.
  - intros E. cbn [fst]. match goal with |- state (tk (task_signal_event ?e _).1 p) = _ =>
      destruct (mi_state _ _ (mild_signal_event e (zombify_task i s6)) p) as [->|[_ ->]]; [|done] end.
    rewrite (others_field state i s6) by (done || apply zombify_others). by apply B4.
Qed.

(** * Exit and wait *)

(** The state in which the scheduler ends a task that is over. *)
Definition stored (esp : Z) (s : tasks_state) : tasks_state :=
  emit (SwitchDirectory paging_kernel_dir) (emit (OutputVc (-1))
    (upd (current_task_index s) (fun t => t <| saved_rsp := esp |>) s)).

Lemma back_over esp f s :
  0 <= current_task_index s -> used (tk s (current_task_index s)) = true ->
  over (state (tk s (current_task_index s))) ->
  (task_schedule_on_syscall esp f s).1.1 =
    complete_task (current_task_index s) (stored esp s) <| current_task_index := -1 |>.
Proof.
  intros Hc Hu Ho. pose proof (over_not _ Ho) as (N1 & N2 & _). unfold task_schedule_on_syscall. cbv zeta.
  rewrite (proj2 (Z.leb_le _ _) Hc), (deliver_not_running _ f s N2). apply state_is_false in N1, N2.
  rewrite N2. cbn [negb fst]. unfold schedule_back_to_idle. rewrite (proj2 (Z.ltb_ge _ _) Hc). cbv zeta.
  fold (stored esp s).
  assert (forall (A : Type) (g : task_entry -> A), (forall t, g (t <| saved_rsp := esp |>) = g t) ->
    g (tk (stored esp s) (current_task_index s)) = g (tk s (current_task_index s))) as Ef.
  { intros A g Hf. unfold stored. by rewrite !tk_emit, tk_upd_eq. }
  rewrite !(Ef _ state), N1, N2 by done. cbn [orb]. rewrite (Ef _ used), Hu, !(Ef _ state) by done. cbn [andb].
  destruct Ho as [E|E]; rewrite E; reflexivity.
Qed.

(** The running task [current_task_index s] exits; its parent is in slot [p]. *)
Section exiting.
Context (s : tasks_state) (p code esp : Z) (f : frame).
Context (Hinv : inv s) (Ha : callable s) (Hc : 0 <= current_task_index s).
Context (Hp : slot p) (Hne : p <> current_task_index s) (Hup : used (tk s p) = true).
Context (Hzp : state (tk s p) <> TASK_STATE_ZOMBIE).
Context (Hpar : parent_id (tk s (current_task_index s)) = id (tk s p)).
Local Notation c := (current_task_index s).
Local Notation s2 := ((task_schedule_on_syscall esp f (task_exit code s)).1.1).

Lemma exit_eq :
  task_exit code s = upd c (fun t => t <| exit_code := code |> <| state := TASK_STATE_FINISHED |>) s.
Proof. unfold task_exit, on_current. by rewrite (proj2 (Z.ltb_ge _ _) Hc). Qed.

Lemma exit_zombie :
  used (tk s2 c) = true /\ state (tk s2 c) = TASK_STATE_ZOMBIE /\ id (tk s2 c) = id (tk s c) /\
  parent_id (tk s2 c) = parent_id (tk s c) /\ exit_code (tk s2 c) = code /\ hands s2 = hands s /\
  (state (tk s p) = TASK_STATE_BLOCKED -> state (tk s2 p) = TASK_STATE_READY).
Proof.
  destruct (current_slot s (proj2 Hinv) Hc) as [Hi Hu].
  pose proof (inv_call (Exit code) s Ha Hinv) as H1. cbn [do_call] in H1. rewrite exit_eq in *.
  set (s1 := upd c _ s) in *.
  assert (tk s1 c = (tk s c) <| exit_code := code |> <| state := TASK_STATE_FINISHED |>) as E1 by apply tk_upd_eq.
  assert (tk s1 p = tk s p) as E1p by (by apply tk_upd_ne).
  pose proof (back_over esp f s1) as Eb. change (current_task_index s1) with c in Eb.
  rewrite E1 in Eb. rewrite Eb by (done || by left). clear Eb. set (s1' := stored esp s1).
  assert (tk s1' c = (tk s1 c) <| saved_rsp := esp |>) as E2 by apply tk_upd_eq.
  assert (tk s1' p = tk s p) as E2p by (rewrite <- E1p; by apply tk_upd_ne).
  rewrite E1 in E2.
  assert (good c s1') as Hg.
  { apply good_open. unfold s1', stored. eapply good_globals; [apply globals_emit|].
    eapply good_globals; [apply globals_emit|]. apply good_quiet; [done| |apply H1].
    unfold quiet, kill_safe; cbn; split_and!; auto. }
  assert (hands s1' = hands s) as Eh.
  { unfold s1', stored.
    rewrite (ca_log c _ _ (calm_emit c (SwitchDirectory paging_kernel_dir) _ eq_refl)).
    by rewrite (ca_log c _ _ (calm_emit c (OutputVc (-1)) _ eq_refl)). }
  clearbody s1'. clear H1 E1 E1p. clearbody s1.
  destruct (complete_zombie c p s1') as [[Z1 Z2] Z3]; try done; rewrite ?E2, ?E2p; try done; [by left|].
  set (s' := complete_task c s1') in *. clearbody s'.
  assert (forall (A : Type) (g : task_entry -> A), (forall t, g (t <| sched_next := 0 |>) = g t) ->
            g (tk s' c) = g (buried (tk s1' c))) as Eg.
  { intros A g Hf. by rewrite <- (Hf (tk s' c)), <- (Hf (buried _)), Z1. }
  change (tk (s' <| current_task_index := -1 |>)) with (tk s').
  change (hands (s' <| current_task_index := -1 |>)) with (hands s').
  rewrite (Eg _ used), (Eg _ state), (Eg _ id), (Eg _ parent_id), (Eg _ exit_code), Z2, E2 by done.
  rewrite E2p in Z3. split_and!; done.
Qed.

End exiting.

(** Where the status is stored for the parent in slot [p]: nowhere when it has no
    physical region of its own (a parent that has forked), when the pointer is
    null or outside the user area, or when the page is not mapped. *)
Definition status_address (p uptr : Z) (s : tasks_state) : option Z :=
  let u := img (tk s p) in
  if bool_decide (user_physical_base u <> 0 /\ uptr <> 0 /\
       PAGING_USER_BASE <= uptr /\ uptr + 4 <= PAGING_USER_BASE + PAGING_USER_SIZE) &&
     ((page_directory u =? 0) || user_buffer_is_accessible (page_directory u) uptr 4)
  then Some (user_physical_base u + (uptr - PAGING_USER_BASE)) else None.

Lemma write_user_log p uptr v s :
  0 <= uptr < 2 ^ 63 ->
  log (write_user_int32 p uptr v s) =
    log s ++ match status_address p uptr s with Some a => [WriteUserInt a v] | None => [] end.
Proof.
  intros Hr. unfold write_user_int32, status_address. cbv zeta.
  assert (u64 (uptr + 4) = uptr + 4) as -> by (apply Z.mod_small; lia).
  destruct (Z.eqb_spec (user_physical_base (img (tk s p))) 0), (Z.eqb_spec uptr 0),
    (Z.ltb_spec uptr PAGING_USER_BASE), (Z.ltb_spec (PAGING_USER_BASE + PAGING_USER_SIZE) (uptr + 4)); cbn [orb].
  all: try (rewrite bool_decide_false by lia; cbn [andb]; by rewrite app_nil_r).
  rewrite bool_decide_true by lia. cbn [andb].
  destruct (page_directory _ =? 0), (user_buffer_is_accessible _ _ _); cbn; by rewrite ?app_nil_r.
Qed.

Lemma encode_exit t code : exit_code t = code -> 0 <= code < 128 ->
  Z.land (encode_child_status t) 127 = 0 /\ Z.shiftr (encode_child_status t) 8 = code.
Proof.
  intros E Hcode. unfold encode_child_status. rewrite E. rewrite (proj2 (Z.leb_gt _ _)) by lia.
  assert (Z.land code 255 = code) as ->.
  { change 255 with (Z.ones 8). rewrite Z.land_ones by lia. apply Z.mod_small. lia. }
  split; [|by rewrite Z.shiftr_shiftl_l by lia].
  change 127 with (Z.ones 7). rewrite Z.land_ones, Z.shiftl_mul_pow2 by lia.
  change (2 ^ 8) with (2 * 2 ^ 7). rewrite Z.mul_assoc. apply Z.mod_mul. done.
Qed.

Lemma encode_signal t code : exit_code t = code -> 128 <= code < 256 -> encode_child_status t = code - 128.
Proof.
  intros E Hcode. unfold encode_child_status. rewrite E. rewrite (proj2 (Z.leb_le _ _)) by lia.
  change 127 with (Z.ones 7). rewrite Z.land_ones by lia. apply Z.mod_small. lia.
Qed.

(** C6: the exit code of a child reaches a parent that asks for it afterwards.  A
    task that exits while its parent lives becomes a zombie that keeps its
    identifier, parent and code.  When the parent later calls [waitpid] for it,
    the call returns the child's identifier, frees the slot, and writes the
    status at the address of the given pointer in the parent's physical region,
    or writes nothing when the parent has no such region (it has forked) or the
    pointer is null, outside the user area or not mapped.  The status decodes to
    the code: bits 8 and up for a code below 128, and for 128 to 255, a death by
    signal, the low bits are the signal number. *)
Theorem exit_waitpid_roundtrip s p code esp f :
  reachable s -> callable s -> 0 <= current_task_index s -> slot p -> p <> current_task_index s ->
  used (tk s p) = true -> state (tk s p) <> TASK_STATE_ZOMBIE ->
  parent_id (tk s (current_task_index s)) = id (tk s p) ->
  let c := current_task_index s in
  let s2 := (task_schedule_on_syscall esp f (task_exit code s)).1.1 in
  state (tk s2 c) = TASK_STATE_ZOMBIE /\ id (tk s2 c) = id (tk s c) /\ exit_code (tk s2 c) = code /\
  forall s3 uptr, reachable s3 -> current_task_index s3 = p -> id (tk s3 p) = id (tk s p) ->
    tk s3 c = tk s2 c -> 0 <= uptr < 2 ^ 63 ->
    let r := task_waitpid (id (tk s c)) uptr s3 in
    r.2 = id (tk s c) /\ used (tk r.1 c) = false /\
    exists status,
      log r.1 = log (clear_task c s3) ++
        match status_address p uptr s3 with Some a => [WriteUserInt a status] | None => [] end /\
      (0 <= code < 128 -> Z.land status 127 = 0 /\ Z.shiftr status 8 = code) /\
      (128 <= code < 256 -> status = code - 128).
Proof.
  intros Hinv%tasks_reachable_inv Ha Hc Hp Hne Hup Hzp Hpar c s2.
  destruct (exit_zombie s p code esp f Hinv Ha Hc Hp Hne Hup Hzp Hpar) as (Z1 & Z2 & Z3 & Z4 & Z5 & _).
  fold c s2 in Z1, Z2, Z3, Z4, Z5. split_and!; [done..|].
  intros s3 uptr Hinv3%tasks_reachable_inv Ec Eid Et Hup3. clearbody s2. cbv zeta.
  destruct (current_slot s (proj2 Hinv) Hc) as [Hi Hu]. fold c in Hi, Hu, Hpar, Hne. rewrite <- Et in *.
  pose proof (c_id _ (proj2 (proj1 Hinv)) c Hi Hu) as [Hpos _].
  assert (find_task_by_id s3 (id (tk s c)) = Some c) as Ef.
  { rewrite <- Z3. by apply find_task_unique; [apply Hinv3|..]. }
  pose proof (clear_others c s3) as Ho.
  assert (current_task_index (clear_task c s3) = p) as Ecc by (by rewrite (ot_current _ _ _ Ho)).
  assert (used (tk (clear_task c s3) c) = false) as Hfree by (by rewrite clear_task_eq, tk_emit, tk_upd_eq).
  assert (status_address p uptr (clear_task c s3) = status_address p uptr s3) as Ea.
  { unfold status_address. by rewrite (others_field img c s3) by done. }
  assert (task_waitpid (id (tk s c)) uptr s3 = collect c uptr s3) as ->.
  { unfold task_waitpid. rewrite Ec, (proj2 (Z.ltb_ge p 0)) by (by destruct Hp). cbv zeta.
    rewrite (proj2 (Z.eqb_neq _ (-1))), (proj2 (Z.leb_gt _ 0)) by lia. rewrite Ef, Z4, Eid, Hpar, Z.eqb_refl. cbn [negb].
    by rewrite Z2, state_is_refl. }
  unfold collect. cbv zeta. cbn [fst snd]. rewrite Ecc.
  split; [exact Z3|]. split.
  { case_match; [|done]. by rewrite (mi_used _ _ (mild_write_user p uptr _ (clear_task c s3))). }
  exists (encode_child_status (tk s3 c)).
  split; [|split; [by apply encode_exit|by apply encode_signal]]. rewrite <- Ea.
  destruct (Z.eqb_spec uptr 0) as [->|Hz]; cbn [negb]; [|by apply write_user_log].
  unfold status_address. rewrite bool_decide_false by lia. cbn [andb]. by rewrite app_nil_r.
Qed.

(** C37: a parent that is already blocked in [waitpid] when its child exits is
    woken but never given the result: [SIGCHLD] makes it ready before the code
    asks whether it is blocked, so the branch that stores the identifier in the
    saved registers and writes the status is not taken; the child stays a
    zombie. *)
Theorem blocked_waitpid_gets_no_status s p code esp f :
  reachable s -> callable s -> 0 <= current_task_index s -> slot p -> p <> current_task_index s ->
  used (tk s p) = true -> state (tk s p) = TASK_STATE_BLOCKED ->
  parent_id (tk s (current_task_index s)) = id (tk s p) ->
  let c := current_task_index s in
  let s2 := (task_schedule_on_syscall esp f (task_exit code s)).1.1 in
  state (tk s2 p) = TASK_STATE_READY /\ state (tk s2 c) = TASK_STATE_ZOMBIE /\ used (tk s2 c) = true /\
  forall e, handed e = true -> e ∈ log s2 -> e ∈ log s.
Proof.
  intros Hinv%tasks_reachable_inv Ha Hc Hp Hne Hup Hb Hpar c s2.
  destruct (exit_zombie s p code esp f Hinv Ha Hc Hp Hne Hup ltac:(congruence) Hpar)
    as (Z1 & Z2 & _ & _ & _ & Z6 & Z7).
  fold c s2 in Z1, Z2, Z6, Z7. split_and!; [by apply Z7|done|done|]. intros e He Hin.
  assert (e ∈ hands s) as Hs by (rewrite <- Z6; apply list_elem_of_filter; by split).
  by apply list_elem_of_filter in Hs as [_ ?].
Qed.

(** * Identity *)

Definition identity_call (c : call) : Prop :=
  match c with SetUid _ | SetGid _ | SetGroups _ _ => True | _ => False end.

Lemma has_group_elem w g :
  task_has_group_locked w g = true -> g = egid w \/ g ∈ take (Z.to_nat (supp_group_count w)) (supp_groups w).
Proof.
  unfold task_has_group_locked. intros [E|E]%orb_prop; [left; by apply Z.eqb_eq in E|right].
  apply existsb_exists in E as (x & Hin & ->%Z.eqb_eq). by apply list_elem_of_In.
Qed.

(** C21: a task whose real and effective user are not root cannot become root, nor
    gain a group, by [setuid], [setgid] or [setgroups]: its real identity and its
    supplementary groups stay, its effective user becomes at most its real user,
    and its effective group is one it already had. *)
Theorem identity_calls_unprivileged c s :
  identity_call c -> 0 <= current_task_index s ->
  let w := who (tk s (current_task_index s)) in
  let w' := who (tk (do_call c s) (current_task_index s)) in
  uid w <> 0 -> euid w <> 0 ->
  uid w' = uid w /\ gid w' = gid w /\ supp_groups w' = supp_groups w /\
  supp_group_count w' = supp_group_count w /\ (euid w' = euid w \/ euid w' = uid w) /\ euid w' <> 0 /\
  (egid w' = egid w \/ egid w' = gid w \/
   egid w' ∈ take (Z.to_nat (supp_group_count w)) (supp_groups w)).
Proof.
  intros Hcall Hc w w' Hu He. unfold w'. clear w'. pose proof (proj2 (Z.ltb_ge _ _) Hc) as Hc'.
  assert (forall g, who (tk (on_creds g s) (current_task_index s)) = g w) as Eg.
  { intros g. unfold on_creds, on_current. by rewrite Hc', tk_upd_eq. }
  apply Z.eqb_neq in He as He'.
  destruct c as [| | | | | | | | | | | | | | | | | | | | | | | |u|g| |gids n| | |]; try done; cbn [do_call].
  - unfold task_set_current_uid. rewrite Hc'. fold w. cbv zeta. rewrite He'. destruct (Z.eqb_spec u (uid w)); cbn [fst].
    + rewrite Eg. cbn. subst u. split_and!; auto.
    + fold w. split_and!; auto.
  - unfold task_set_current_gid. rewrite Hc'. fold w. cbv zeta. rewrite He'.
    destruct ((g =? gid w) || task_has_group_locked w g) eqn:E; cbn [fst].
    + rewrite Eg. cbn. split_and!; auto.
      apply orb_prop in E as [->%Z.eqb_eq|[->|?]%has_group_elem]; auto.
    + fold w. split_and!; auto.
  - unfold task_set_groups. rewrite Hc'. fold w. rewrite He'. cbn [negb].
    destruct (_ || _); cbn [fst]; fold w; split_and!; auto.
Qed.

(** * Signals after fork *)








End operations.

(** * Examples *)

Local Notation run := (@TaskSys.run demo_env).

Definition demo_user_frame : frame := Frame 0 0 16777300 27 514 20971000 35.

(** A user task, running. *)
Definition demo_parent : tasks_state :=
  run [Call (SpawnUser [105] 16777216 33554432 17825792 1048576 8192 0 (-1) true (-1) 65536 0);
       Timer 1 4000 demo_user_frame] (@task_system_init demo_env 4096).

Lemma demo_parent_reachable : @reachable demo_env demo_parent.
Proof. apply run_reachable; [by apply ReachInit|]. vm_compute. reflexivity. Qed.

(** Its child runs; the parent is ready, or waits for the child. *)
Definition demo_child (wait : event) : tasks_state :=
  run [Call (Fork demo_user_frame 12288 131072 true); wait; Return 4001 demo_user_frame;
       Timer 2 4002 demo_user_frame] demo_parent.

Lemma demo_child_reachable : @reachable demo_env (demo_child (Call Yield)).
Proof. apply run_reachable; [apply demo_parent_reachable|]. vm_compute. reflexivity. Qed.

Lemma demo_waited_reachable : @reachable demo_env (demo_child (Call (Waitpid 3 16777400))).
Proof. apply run_reachable; [apply demo_parent_reachable|]. vm_compute. reflexivity. Qed.

(** A child the parent has created from an executable; the parent sleeps. *)
Definition demo_kid : tasks_state :=
  run [Call (SpawnUser [107] 16777216 50331648 17825792 1048576 16384 0 (-1) false (-1) 131072 0);
       Call (Sleep 1 5); Return 4001 demo_user_frame; Timer 2 4002 demo_user_frame] demo_parent.

Lemma demo_kid_reachable : @reachable demo_env demo_kid.
Proof. apply run_reachable; [apply demo_parent_reachable|]. vm_compute. reflexivity. Qed.

(** The child has exited, and the parent runs again. *)
Definition demo_kid_gone : tasks_state :=
  run [Call (Exit 7); Return 4003 demo_user_frame; Timer 50 4004 demo_user_frame] demo_kid.

Lemma demo_kid_gone_reachable : @reachable demo_env demo_kid_gone.
Proof. apply run_reachable; [apply demo_kid_reachable|]. vm_compute. reflexivity. Qed.

Lemma exit_waitpid_roundtrip_witness :
  (current_task_index demo_kid = 2 /\ current_task_index demo_kid_gone = 1) /\
  (@task_waitpid demo_env 3 16777400 demo_kid_gone).2 = 3 /\
  exists status,
    log (@task_waitpid demo_env 3 16777400 demo_kid_gone).1 =
      log (clear_task 2 demo_kid_gone) ++ [WriteUserInt 33554616 status] /\
    Z.shiftr status 8 = 7.
Proof.
  split; [vm_compute; by split|].
  destruct (@exit_waitpid_roundtrip demo_env demo_kid 1 7 4003 demo_user_frame demo_kid_reachable)
    as (_ & _ & _ & H).
  - apply callableb_true. vm_compute. reflexivity.
  - vm_compute. discriminate.
  - split; [discriminate|reflexivity].
  - vm_compute. discriminate.
  - vm_compute. reflexivity.
  - vm_compute. discriminate.
  - vm_compute. reflexivity.
  - destruct (H demo_kid_gone 16777400 demo_kid_gone_reachable) as (H1 & _ & status & H2 & H3 & _).
    + vm_compute. reflexivity.
    + vm_compute. reflexivity.
    + vm_compute. reflexivity.
    + split; [discriminate|reflexivity].
    + split; [exact H1|]. exists status. split; [exact H2|].
      apply H3. split; [discriminate|reflexivity].
Defined.

Lemma blocked_waitpid_gets_no_status_witness :
  state (tk (demo_child (Call (Waitpid 3 16777400))) 1) = TASK_STATE_BLOCKED /\
  state (tk (@task_schedule_on_syscall demo_env 4003 demo_user_frame
               (task_exit 7 (demo_child (Call (Waitpid 3 16777400))))).1.1 1) = TASK_STATE_READY.
Proof.
  split; [vm_compute; reflexivity|].
  refine (proj1 (@blocked_waitpid_gets_no_status demo_env (demo_child (Call (Waitpid 3 16777400))) 1 7 4003
            demo_user_frame demo_waited_reachable _ _ _ _ _ _ _)).
  - apply callableb_true. vm_compute. reflexivity.
  - vm_compute. discriminate.
  - split; [discriminate|reflexivity].
  - vm_compute. discriminate.
  - vm_compute. reflexivity.
  - vm_compute. reflexivity.
  - vm_compute. reflexivity.
Defined.

(** The parent has given up root. *)
Definition demo_user : tasks_state := run [Call (ForceIdentity 1000 100)] demo_parent.

Lemma identity_calls_unprivileged_witness :
  euid (who (tk demo_user (current_task_index demo_user))) = 1000 /\
  euid (who (tk (@do_call demo_env (SetUid 0) demo_user) (current_task_index demo_user))) <> 0.
Proof.
  split; [vm_compute; reflexivity|].
  destruct (@identity_calls_unprivileged demo_env (SetUid 0) demo_user) as (_ & _ & _ & _ & _ & H & _).
  - exact I.
  - vm_compute. discriminate.
  - vm_compute. discriminate.
  - vm_compute. discriminate.
  - exact H.
Defined.







