(* ===== verification/Vfs.v ===== *)
(** The virtual file system of [fs/vfs.c] over the RAM file system: mounts, path
    resolution with its caches, permissions by path, and descriptor tables.

    Nodes are addresses in the store of [Ramfs]; 0 is NULL.  A path is the list of
    its bytes.  The descriptor tables of all contexts are a map, with the key of
    the current one in the state; the caller's identity is the [creds] of [Task],
    [None] when no task runs.  The operation tables are those of [Ramfs]; a node
    with another table has no operations here. *)
From S2P Require Import Prelude.
From S2P Require Import Interfaces.
From S2P Require Import KString.
From S2P Require Import Vnode.
From S2P Require Import Fs.
From S2P Require Import Ramfs.
From S2P Require Import Task.
From Stdlib Require Import ZArith Lia.
From stdpp Require Import base numbers list gmap.

Open Scope Z_scope.
Open Scope lyth_scope.

Definition VFS_PERM_MAX : Z := 256.
Definition VFS_VNODE_CACHE_MAX : Z := 64.
Definition VFS_DENTRY_CACHE_MAX : Z := 128.

Record vfs_mount_entry := Mount { m_path : list Z; m_root : Z; m_used : bool }.
Record vfs_perm_entry := Perm { p_used : bool; p_path : list Z; p_mode : Z; p_uid : Z; p_gid : Z }.
Record vfs_vnode_cache_entry := VCache { v_used : bool; v_age : Z; v_path : list Z; v_node : Z }.
Record vfs_dentry_cache_entry := Dentry {
  e_used : bool; e_age : Z; e_gen : Z; e_parent : Z; e_name : list Z; e_node : Z; e_negative : bool }.
Record vfs_fd_entry := FdEntry { fd_node : Z; fd_offset : Z; fd_flags : Z; fd_used : bool }.

#[export] Instance mount_inhabited : Inhabited vfs_mount_entry := populate (Mount [] 0 false).
#[export] Instance perm_inhabited : Inhabited vfs_perm_entry := populate (Perm false [] 0 0 0).
#[export] Instance vcache_inhabited : Inhabited vfs_vnode_cache_entry := populate (VCache false 0 [] 0).
#[export] Instance dentry_inhabited : Inhabited vfs_dentry_cache_entry := populate (Dentry false 0 0 0 [] 0 false).
#[export] Instance fd_inhabited : Inhabited vfs_fd_entry := populate (FdEntry 0 0 0 false).

Record vfs (H : Type) := Vfs {
  disk : store H;
  mounts : list vfs_mount_entry;
  vfs_perm_table : list vfs_perm_entry;
  vnode_cache : list vfs_vnode_cache_entry;
  dentry_cache : list vfs_dentry_cache_entry;
  vnode_cache_tick : Z; dentry_cache_tick : Z; dentry_cache_gen : Z;
  fd_tables : gmap Z (list vfs_fd_entry);
  current_table : Z;
  g_tty_node : Z;
  caller : option creds }.
Arguments Vfs {H}.
Arguments disk {H} _.
Arguments mounts {H} _.
Arguments vfs_perm_table {H} _.
Arguments vnode_cache {H} _.
Arguments dentry_cache {H} _.
Arguments vnode_cache_tick {H} _.
Arguments dentry_cache_tick {H} _.
Arguments dentry_cache_gen {H} _.
Arguments fd_tables {H} _.
Arguments current_table {H} _.
Arguments g_tty_node {H} _.
Arguments caller {H} _.
#[export] Instance vfs_fields {H} : Fields (vfs H) :=
  fun s => Vfs (disk s) (mounts s) (vfs_perm_table s) (vnode_cache s) (dentry_cache s) (vnode_cache_tick s)
             (dentry_cache_tick s) (dentry_cache_gen s) (fd_tables s) (current_table s) (g_tty_node s) (caller s).

(** [tick++; if (tick == 0) tick = 1] *)
Definition next_tick (t : Z) : Z := if u32 (t + 1) =? 0 then 1 else u32 (t + 1).

(** The slot to replace: the first free one, else the one of least age. *)
Fixpoint victim_slot (free : Z -> bool) (age : Z -> Z) (n : nat) (i best slot : Z) : Z :=
  match n with
  | O => slot
  | S n' =>
      if free i then i
      else if age i <? best then victim_slot free age n' (i + 1) (age i) i
      else victim_slot free age n' (i + 1) best slot
  end.

(** * Paths *)

(** [strip p s] is what follows the prefix [p] in [s]. *)
Fixpoint strip (p s : list Z) : option (list Z) :=
  match p, s with
  | [], _ => Some s
  | a :: p', b :: s' => if a =? b then strip p' s' else None
  | _ :: _, [] => None
  end.

Definition skip_slash (s : list Z) : list Z :=
  match s with c :: s' => if c =? SLASH then s' else s | [] => [] end.

(** The next component, of at most [n] bytes, and the rest. *)
Fixpoint take_component (n : nat) (s : list Z) : list Z * list Z :=
  match n, s with
  | S n', c :: s' =>
      if c =? SLASH then ([], s)
      else let '(a, b) := take_component n' s' in (c :: a, b)
  | _, _ => ([], s)
  end.

(** The last index below [n] that holds a slash, or -1. *)
Definition last_slash (path : list Z) (n : nat) : Z :=
  for_loop (fun i l => if path.[i] =? SLASH then i else l) n 0 (-1).

(** The length without trailing slashes, at least 1. *)
Fixpoint strip_trailing (path : list Z) (len : nat) : nat :=
  match len with
  | S (S _ as len') => if path.[Z.of_nat len'] =? SLASH then strip_trailing path len' else len
  | _ => len
  end.

Definition split_path (path : list Z) : option (list Z * list Z) :=
  if negb (rd path 0 =? SLASH) then None
  else
    let len := strip_trailing path (length path) in
    let last := last_slash path len in
    if last <? 0 then None
    else
      let src := drop (Z.to_nat (last + 1)) path in
      if rd src 0 =? 0 then None
      else
        Some (if last =? 0 then [SLASH] else take (Z.to_nat (Z.min last (VFS_PATH_MAX - 1))) path,
              bounded VFS_NAME_MAX src).

Section vfs.
Context {H : Type} `{KAllocator H}.
Implicit Types s : vfs H.

Definition node_at s (p : Z) : vfs_node := get_node (disk s) p.
Definition set_node (p : Z) (n : vfs_node) s : vfs H :=
  s <| disk := disk s <| nodes := <[p := n]> (nodes (disk s)) |> |>.
Definition kfree_node (p : Z) s : vfs H := s <| disk := free_node p (disk s) |>.

(** * Caches *)

Definition vfs_vnode_cache_init s : vfs H := s <| vnode_cache := repeat (VCache false 0 [] 0) 64 |>.
Definition vfs_dentry_cache_init s : vfs H := s <| dentry_cache := repeat (Dentry false 0 0 0 [] 0 false) 128 |>.

Definition vfs_cache_invalidate_all s : vfs H :=
  let s := vfs_vnode_cache_init s in
  vfs_dentry_cache_init (s <| dentry_cache_gen := next_tick (dentry_cache_gen s) |>).

Definition vfs_vnode_cache_remove_node (node : Z) s : vfs H :=
  if node =? 0 then s
  else s <| vnode_cache := map (fun e => if v_used e && (v_node e =? node) then VCache false 0 [] 0 else e)
                             (vnode_cache s) |>.

Definition set_vcache (i : Z) (e : vfs_vnode_cache_entry) s : vfs H :=
  s <| vnode_cache := (vnode_cache s).[i <- e] |> <| vnode_cache_tick := next_tick (vnode_cache_tick s) |>.

Definition find_vcache (path : list Z) s : option Z :=
  find_first (fun i => v_used (vnode_cache s).[i] && str_equals (v_path (vnode_cache s).[i]) path)
    (Z.to_nat VFS_VNODE_CACHE_MAX) 0.

Definition vfs_vnode_cache_insert (path : list Z) (node : Z) s : vfs H :=
  if (node =? 0) || bool_decide (path = []) then s
  else
    match find_vcache path s with
    | Some i => set_vcache i (VCache true (vnode_cache_tick s) (v_path (vnode_cache s).[i]) node) s
    | None =>
        let slot := victim_slot (fun i => negb (v_used (vnode_cache s).[i])) (fun i => v_age (vnode_cache s).[i])
                      (Z.to_nat VFS_VNODE_CACHE_MAX) 0 4294967295 (-1) in
        if slot <? 0 then s
        else set_vcache slot (VCache true (vnode_cache_tick s) (bounded VFS_PATH_MAX path) node) s
    end.

Definition vfs_vnode_cache_lookup (path : list Z) s : vfs H * Z :=
  match find_vcache path s with
  | Some i =>
      let e := (vnode_cache s).[i] in
      (set_vcache i (VCache true (vnode_cache_tick s) (v_path e) (v_node e)) s, v_node e)
  | None => (s, 0)
  end.

Definition set_dentry (i : Z) (e : vfs_dentry_cache_entry) s : vfs H :=
  s <| dentry_cache := (dentry_cache s).[i <- e] |> <| dentry_cache_tick := next_tick (dentry_cache_tick s) |>.

Definition find_dentry (parent : Z) (name : list Z) s : option Z :=
  find_first (fun i => let e := (dentry_cache s).[i] in
      e_used e && (e_gen e =? dentry_cache_gen s) && (e_parent e =? parent) && str_equals (e_name e) name)
    (Z.to_nat VFS_DENTRY_CACHE_MAX) 0.

(** The cached node and whether it is a cached miss. *)
Definition vfs_dentry_cache_lookup (parent : Z) (name : list Z) s : vfs H * option (Z * bool) :=
  if parent =? 0 then (s, None)
  else
    match find_dentry parent name s with
    | Some i =>
        let e := (dentry_cache s).[i] in
        (set_dentry i (Dentry true (dentry_cache_tick s) (e_gen e) (e_parent e) (e_name e) (e_node e) (e_negative e)) s,
         Some (e_node e, e_negative e))
    | None => (s, None)
    end.

Definition vfs_dentry_cache_insert (parent : Z) (name : list Z) (node : Z) (negative : bool) s : vfs H :=
  if (parent =? 0) || bool_decide (name = []) then s
  else
    match find_dentry parent name s with
    | Some i =>
        let e := (dentry_cache s).[i] in
        set_dentry i (Dentry true (dentry_cache_tick s) (e_gen e) (e_parent e) (e_name e) node negative) s
    | None =>
        let slot := victim_slot
                      (fun i => negb (e_used (dentry_cache s).[i]) ||
                                negb (e_gen (dentry_cache s).[i] =? dentry_cache_gen s))
                      (fun i => e_age (dentry_cache s).[i]) (Z.to_nat VFS_DENTRY_CACHE_MAX) 0 4294967295 (-1) in
        if slot <? 0 then s
        else set_dentry slot (Dentry true (dentry_cache_tick s) (dentry_cache_gen s) parent
               (bounded VFS_NAME_MAX name) node negative) s
    end.

(** * Operations on nodes *)

Definition vfs_effective (d : store H) (node : Z) : Z :=
  if negb (node =? 0) && negb (n_mountpoint (get_node d node) =? 0) then n_mountpoint (get_node d node) else node.

Definition vfs_node_read (node offset size : Z) (d : store H) : store H * Z * list Z :=
  if (node =? 0) || (size =? 0) then (d, -1, [])
  else
    let n := get_node d (vfs_effective d node) in
    match n_ops n with
    | OpsRamfsFile => ramfs_file_read n offset size d
    | _ => (d, -1, [])
    end.

Definition vfs_node_write (node offset size : Z) (buf : list Z) (d : store H) : store H * Z :=
  if (node =? 0) || (size =? 0) then (d, -1)
  else
    let p := vfs_effective d node in
    match n_ops (get_node d p) with
    | OpsRamfsFile => ramfs_file_write p offset size buf d
    | _ => (d, -1)
    end.

Definition vfs_node_readdir (node index name_max : Z) (d : store H) : option (list Z) :=
  if (node =? 0) || (name_max =? 0) then None
  else
    let n := get_node d (vfs_effective d node) in
    match n_ops n with
    | OpsRamfsVdir => ramfs_vdir_readdir n index name_max d
    | OpsRamfsDir => ramfs_dir_readdir index name_max d
    | _ => None
    end.

Definition vfs_node_finddir (node : Z) (name : list Z) (d : store H) : store H * Z :=
  if node =? 0 then (d, 0)
  else
    let n := get_node d (vfs_effective d node) in
    match n_ops n with
    | OpsRamfsVdir => ramfs_vdir_finddir n name d
    | OpsRamfsDir => ramfs_dir_finddir name d
    | _ => (d, 0)
    end.

Definition vfs_node_create (dir : Z) (name : list Z) (flags : Z) (d : store H) : store H * Z :=
  if dir =? 0 then (d, 0)
  else
    let n := get_node d (vfs_effective d dir) in
    match n_ops n with
    | OpsRamfsVdir => ramfs_vdir_create n name flags d
    | OpsRamfsDir => ramfs_dir_create name flags d
    | _ => (d, 0)
    end.

Definition vfs_node_unlink (dir : Z) (name : list Z) (d : store H) : store H * Z :=
  if dir =? 0 then (d, -1)
  else
    let n := get_node d (vfs_effective d dir) in
    match n_ops n with
    | OpsRamfsVdir => ramfs_vdir_unlink n name d
    | OpsRamfsDir => ramfs_dir_unlink name d
    | _ => (d, -1)
    end.

(** * Resolution *)

(** The scan of the mounts: the best root and the length it matches. *)
Definition mount_step (path : list Z) s (i : Z) (best : Z * Z) : Z * Z :=
  let m := (mounts s).[i] in
  if negb (m_used m) then best
  else if bool_decide (m_path m = [SLASH]) then
    if (rd path 0 =? SLASH) && (best.2 =? 0) then (m_root m, 1) else best
  else
    match strip (m_path m) path with
    | Some after =>
        let j := Z.of_nat (length (m_path m)) in
        if (best.2 <? j) && ((rd after 0 =? SLASH) || (rd after 0 =? 0)) then (m_root m, j) else best
    | None => best
    end.

Definition vfs_find_mount (path : list Z) s : Z * list Z :=
  let '(root, len) := for_loop (mount_step path s) (Z.to_nat VFS_MAX_MOUNTS) 0 (0, 0) in
  (root, skip_slash (drop (Z.to_nat len) path)).

Definition free_if_dynamic (p : Z) s : vfs H := if dynamic (node_at s p) then kfree_node p s else s.

(** The walk over the components of [rest] from the node [current]. *)
Fixpoint resolve_loop (fuel : nat) (current : Z) (rest : list Z) s : vfs H * Z :=
  match fuel with
  | O => (s, 0)
  | S fuel' =>
      if bool_decide (rest = []) then (s, current)
      else
        let '(component, rest) := take_component (Z.to_nat (VFS_NAME_MAX - 1)) rest in
        let rest := skip_slash rest in
        if bool_decide (component = []) then resolve_loop fuel' current rest s
        else
          let '(s, hit) := vfs_dentry_cache_lookup current component s in
          match hit with
          | Some (_, true) => (free_if_dynamic current s, 0)
          | Some (next, false) =>
              let s := free_if_dynamic current s in
              if next =? 0 then (s, 0) else resolve_loop fuel' next rest s
          | None =>
              let '(d, next) := vfs_node_finddir current component (disk s) in
              let s := s <| disk := d |> in
              let s :=
                if next =? 0 then vfs_dentry_cache_insert current component 0 true s
                else if negb (dynamic (node_at s next)) then vfs_dentry_cache_insert current component next false s
                else s in
              let s := free_if_dynamic current s in
              if next =? 0 then (s, 0) else resolve_loop fuel' next rest s
          end
  end.

Definition vfs_resolve (path : list Z) s : vfs H * Z :=
  let '(current, rest) := vfs_find_mount path s in
  if current =? 0 then (s, 0) else resolve_loop (S (length rest)) current rest s.

(** * Permissions *)

Definition vfs_perm_find (path : list Z) s : option Z :=
  find_first (fun i => p_used (vfs_perm_table s).[i] && str_equals (p_path (vfs_perm_table s).[i]) path)
    (Z.to_nat VFS_PERM_MAX) 0.

Definition set_perm (i : Z) (e : vfs_perm_entry) s : vfs H :=
  s <| vfs_perm_table := (vfs_perm_table s).[i <- e] |>.

Definition vfs_perm_set (path : list Z) (mode uid gid : Z) s : vfs H * Z :=
  let mode := Z.land mode 511 in
  match vfs_perm_find path s with
  | Some i => (set_perm i (Perm true (p_path (vfs_perm_table s).[i]) mode uid gid) s, 0)
  | None =>
      match find_first (fun i => negb (p_used (vfs_perm_table s).[i])) (Z.to_nat VFS_PERM_MAX) 0 with
      | Some i => (set_perm i (Perm true (bounded VFS_PATH_MAX path) mode uid gid) s, 0)
      | None => (s, -1)
      end
  end.

Definition vfs_perm_remove (path : list Z) s : vfs H :=
  match vfs_perm_find path s with
  | Some i => set_perm i (Perm false [] 0 0 0) s
  | None => s
  end.

Definition vfs_default_mode_for_path (path : list Z) (flags : Z) : Z :=
  if str_equals path [SLASH] then VFS_MODE_ROOT_DEFAULT
  else if has_flag flags VFS_FLAG_DIR then VFS_MODE_DIR_DEFAULT
  else VFS_MODE_FILE_DEFAULT.

Definition task_current_euid s : Z := match caller s with Some c => euid c | None => 0 end.
Definition task_current_egid s : Z := match caller s with Some c => egid c | None => 0 end.
Definition in_group (g : Z) s : bool :=
  match caller s with Some c => task_has_group_locked c g | None => false end.

(** The three checks differ in the bits of the owner, the group and the others. *)
Definition mode_check (user group other : Z) (mode owner_uid owner_gid : Z) s : bool :=
  if task_current_euid s =? 0 then true
  else if task_current_euid s =? owner_uid then has_flag mode user
  else if in_group owner_gid s then has_flag mode group
  else has_flag mode other.
Definition vfs_mode_check_read := mode_check VFS_MODE_IRUSR VFS_MODE_IRGRP VFS_MODE_IROTH.
Definition vfs_mode_check_write := mode_check VFS_MODE_IWUSR VFS_MODE_IWGRP VFS_MODE_IWOTH.
Definition vfs_mode_check_exec := mode_check VFS_MODE_IXUSR VFS_MODE_IXGRP VFS_MODE_IXOTH.

Definition vfs_perm_get_owner (path : list Z) s : option (Z * Z) :=
  match vfs_perm_find path s with
  | Some i => Some (p_uid (vfs_perm_table s).[i], p_gid (vfs_perm_table s).[i])
  | None => None
  end.

(** A resolved node that nobody holds is freed after use. *)
Definition release_node (p : Z) s : vfs H :=
  if dynamic (node_at s p) && (n_ref_count (node_at s p) =? 0) then kfree_node p s else s.

Definition vfs_chmod (path : list Z) (mode : Z) s : vfs H * Z :=
  let '(s, node) := vfs_resolve path s in
  if node =? 0 then (s, -1)
  else
    let '(uid, gid) := default (0, 0) (vfs_perm_get_owner path s) in
    if negb (task_current_euid s =? 0) && negb (task_current_euid s =? uid) then (release_node node s, -1)
    else
      let '(s, r) := vfs_perm_set path (Z.land mode 511) uid gid s in
      if negb (r =? 0) then (release_node node s, -1) else (release_node node s, 0).

(** [None] is failure. *)
Definition vfs_get_mode (path : list Z) s : vfs H * option Z :=
  match vfs_perm_find path s with
  | Some i => (s, Some (p_mode (vfs_perm_table s).[i]))
  | None =>
      let '(s, node) := vfs_resolve path s in
      if node =? 0 then (s, None)
      else
        let mode := vfs_default_mode_for_path path (n_flags (node_at s node)) in
        let '(s, r) := vfs_perm_set path mode 0 0 s in
        let s := release_node node s in
        if negb (r =? 0) then (s, None) else (s, Some mode)
  end.

(** The index of the entry of a path, made if there is none. *)
Definition perm_entry (path : list Z) s : vfs H * option Z :=
  match vfs_perm_find path s with
  | Some i => (s, Some i)
  | None =>
      let '(s, mode) := vfs_get_mode path s in
      match mode with
      | None => (s, None)
      | Some _ => (s, vfs_perm_find path s)
      end
  end.

Definition vfs_chown (path : list Z) (uid gid : Z) s : vfs H * Z :=
  if negb (task_current_euid s =? 0) then (s, -1)
  else
    let '(s, i) := perm_entry path s in
    match i with
    | None => (s, -1)
    | Some i =>
        let e := (vfs_perm_table s).[i] in (set_perm i (Perm (p_used e) (p_path e) (p_mode e) uid gid) s, 0)
    end.

Definition vfs_get_owner (path : list Z) s : vfs H * option (Z * Z) :=
  let '(s, i) := perm_entry path s in
  match i with
  | None => (s, None)
  | Some i => (s, Some (p_uid (vfs_perm_table s).[i], p_gid (vfs_perm_table s).[i]))
  end.

(** * Creation and removal *)

(** The caller may change the entries of the directory. *)
Definition dir_writable (dir : list Z) s : vfs H * bool :=
  let '(s, mode) := vfs_get_mode dir s in
  match mode with
  | None => (s, false)
  | Some m =>
      let '(s, owner) := vfs_get_owner dir s in
      match owner with
      | None => (s, false)
      | Some (u, g) => (s, vfs_mode_check_write m u g s && vfs_mode_check_exec m u g s)
      end
  end.

Definition vfs_create (path : list Z) (flags : Z) s : vfs H * Z :=
  match split_path path with
  | None => (s, -1)
  | Some (dir_buf, name_buf) =>
      let '(s, ok) := dir_writable dir_buf s in
      if negb ok then (s, -1)
      else
        let '(s, dir) := vfs_resolve dir_buf s in
        if dir =? 0 then (s, -1)
        else
          let '(d, result) := vfs_node_create dir name_buf flags (disk s) in
          let s := free_if_dynamic dir (s <| disk := d |>) in
          if result =? 0 then (s, -1)
          else
            let '(s, _) := vfs_perm_set path
                 (if has_flag flags VFS_FLAG_DIR then VFS_MODE_DIR_DEFAULT else VFS_MODE_FILE_DEFAULT)
                 (task_current_euid s) (task_current_egid s) s in
            (vfs_cache_invalidate_all (free_if_dynamic result s), 0)
  end.

Definition vfs_delete (path : list Z) s : vfs H * Z :=
  match split_path path with
  | None => (s, -1)
  | Some (dir_buf, name_buf) =>
      let '(s, ok) := dir_writable dir_buf s in
      if negb ok then (s, -1)
      else
        let '(s, dir) := vfs_resolve dir_buf s in
        if dir =? 0 then (s, -1)
        else
          let '(d, result) := vfs_node_unlink dir name_buf (disk s) in
          let s := free_if_dynamic dir (s <| disk := d |>) in
          if result =? 0 then (vfs_cache_invalidate_all (vfs_perm_remove path s), result) else (s, result)
  end.

Definition vfs_unlink := vfs_delete.

Record vfs_stat_t := Stat { st_size : Z; st_flags : Z; st_mode : Z; st_uid : Z; st_gid : Z }.

Definition vfs_stat (path : list Z) s : vfs H * option vfs_stat_t :=
  let '(s, node) := vfs_resolve path s in
  if node =? 0 then (s, None)
  else
    let n := node_at s node in
    let '(s, mode) := vfs_get_mode path s in
    let m := default (vfs_default_mode_for_path path (n_flags n)) mode in
    let '(s, owner) := vfs_get_owner path s in
    let '(u, g) := default (0, 0) owner in
    (release_node node s, Some (Stat (n_size n) (n_flags n) m u g)).

(** * Mounts *)

(** The descriptor table of a context; 0 is the kernel's. *)
Definition table_of (k : Z) s : list vfs_fd_entry :=
  default (repeat (FdEntry 0 0 0 false) 32) (fd_tables s !! k).

Definition vfs_init s : vfs H :=
  let s := s <| mounts := repeat (Mount [] 0 false) 16 |>
             <| fd_tables := <[0 := (fun e => FdEntry 0 0 (fd_flags e) false) <$> table_of 0 s]> (fd_tables s) |>
             <| vfs_perm_table := repeat (Perm false [] 0 0 0) 256 |> in
  vfs_dentry_cache_init (vfs_vnode_cache_init s).

Definition vfs_mount (path : list Z) (root : Z) s : vfs H * Z :=
  if root =? 0 then (s, -1)
  else
    match find_first (fun i => negb (m_used (mounts s).[i])) (Z.to_nat VFS_MAX_MOUNTS) 0 with
    | None => (s, -1)
    | Some i =>
        let p := bounded VFS_PATH_MAX path in
        let s := s <| mounts := (mounts s).[i <- Mount p root true] |> in
        let '(s, _) := vfs_perm_set p (vfs_default_mode_for_path p (n_flags (node_at s root))) 0 0 s in
        (vfs_cache_invalidate_all s, 0)
    end.

(** * Descriptors *)

Definition fdt s : list vfs_fd_entry := table_of (current_table s) s.
Definition set_table (k : Z) (t : list vfs_fd_entry) s : vfs H := s <| fd_tables := <[k := t]> (fd_tables s) |>.
Definition set_fd (fd : Z) (e : vfs_fd_entry) s : vfs H :=
  set_table (current_table s) (fdt s).[fd <- e] s.

Definition vfs_set_tty_node (node : Z) s : vfs H := s <| g_tty_node := node |>.

Definition vfs_node_ref (p : Z) s : vfs H :=
  if p =? 0 then s
  else set_node p (node_at s p <| n_ref_count := u32 (n_ref_count (node_at s p) + 1) |>) s.

Definition vfs_node_unref (p : Z) s : vfs H :=
  if p =? 0 then s
  else
    let n := node_at s p in
    let s := if 0 <? n_ref_count n then set_node p (n <| n_ref_count := n_ref_count n - 1 |>) s else s in
    if n_ref_count (node_at s p) =? 0 then free_if_dynamic p (vfs_vnode_cache_remove_node p s) else s.

(** The access mode of each of the standard descriptors. *)
Definition stdio_flags (i : Z) : Z := if i =? 0 then VFS_O_RDONLY else VFS_O_WRONLY.

Definition vfs_install_stdio (k : Z) s : vfs H :=
  if g_tty_node s =? 0 then s
  else
    for_loop (fun i s =>
      if fd_used (table_of k s).[i] then s
      else
        let s := vfs_node_ref (g_tty_node s) s in
        set_table k (table_of k s).[i <- FdEntry (g_tty_node s) 0 (stdio_flags i) true] s) 3 0 s.

Definition vfs_open_sanitize_flags (open_flags : Z) : Z :=
  if Z.land open_flags VFS_O_ACCMODE =? 0 then Z.lor open_flags VFS_O_RDWR else open_flags.

(** A reference for a new descriptor. *)
Definition take_ref (p : Z) s : vfs H :=
  if dynamic (node_at s p) then
    if n_ref_count (node_at s p) =? 0 then set_node p (node_at s p <| n_ref_count := 1 |>) s else vfs_node_ref p s
  else vfs_node_ref p s.

(** The first free descriptor gets the node, which has a reference already. *)
Definition install_fd (node offset flags : Z) s : vfs H * Z :=
  match find_first (fun i => negb (fd_used (fdt s).[i])) (Z.to_nat VFS_MAX_FD) 0 with
  | Some i => (set_fd i (FdEntry node offset flags true) s, i)
  | None => (vfs_node_unref node s, -1)
  end.

(** The checks of an open, on the node found. *)
Definition open_allowed (open_flags mode uid gid : Z) (n : vfs_node) s : bool :=
  let need_read := has_flag open_flags VFS_O_RDONLY in
  let need_write := has_flag open_flags VFS_O_WRONLY || has_flag open_flags (Z.lor VFS_O_TRUNC VFS_O_APPEND) in
  negb (need_read && negb (vfs_mode_check_read mode uid gid s)) &&
  negb (need_write && negb (vfs_mode_check_write mode uid gid s)) &&
  negb (is_dir n && negb (vfs_mode_check_exec mode uid gid s)) &&
  negb (has_flag open_flags VFS_O_DIRECTORY && negb (is_dir n)) &&
  negb (is_dir n && (Z.land open_flags VFS_O_ACCMODE =? VFS_O_WRONLY)).

(** The file is deleted and made anew. *)
Definition truncate (path : list Z) (node : Z) s : vfs H * Z :=
  let s := release_node node s in
  let '(s, r) := vfs_delete path s in
  if negb (r =? 0) then (s, 0)
  else
    let '(s, r) := vfs_create path VFS_FLAG_FILE s in
    if negb (r =? 0) then (s, 0) else vfs_resolve path s.

Definition open_node (path : list Z) (open_flags node : Z) s : vfs H * Z :=
  let '(s, mode) := vfs_get_mode path s in
  match mode with
  | None => (release_node node s, -1)
  | Some mode =>
      let '(s, owner) := vfs_get_owner path s in
      match owner with
      | None => (release_node node s, -1)
      | Some (uid, gid) =>
          if negb (open_allowed open_flags mode uid gid (node_at s node) s) then (release_node node s, -1)
          else
            let '(s, node) :=
              if has_flag open_flags VFS_O_TRUNC && has_flag open_flags VFS_O_WRONLY &&
                 has_flag (n_flags (node_at s node)) VFS_FLAG_FILE
              then truncate path node s else (s, node) in
            if node =? 0 then (s, -1)
            else
              let s := vfs_vnode_cache_insert path node (take_ref node s) in
              install_fd node (if has_flag open_flags VFS_O_APPEND then n_size (node_at s node) else 0) open_flags s
      end
  end.

Definition vfs_open_flags (path : list Z) (open_flags : Z) s : vfs H * Z :=
  let open_flags := vfs_open_sanitize_flags open_flags in
  let '(s, node) := vfs_vnode_cache_lookup path s in
  let '(s, node) := if node =? 0 then vfs_resolve path s else (s, node) in
  if negb (node =? 0) && has_flag open_flags VFS_O_CREAT && has_flag open_flags VFS_O_EXCL then
    (release_node node s, -1)
  else if (node =? 0) && has_flag open_flags VFS_O_CREAT then
    let '(s, r) := vfs_create path VFS_FLAG_FILE s in
    if negb (r =? 0) then (s, -1)
    else
      let '(s, node) := vfs_resolve path s in
      if node =? 0 then (s, -1) else open_node path open_flags node s
  else if node =? 0 then (s, -1)
  else open_node path open_flags node s.

Definition vfs_open (path : list Z) s : vfs H * Z := vfs_open_flags path VFS_O_RDWR s.

Definition vfs_fd_install_node (node open_flags : Z) s : vfs H * Z :=
  if node =? 0 then (s, -1) else install_fd node 0 open_flags (take_ref node s).

Definition bad_fd (fd : Z) : bool := (fd <? 0) || (VFS_MAX_FD <=? fd).

Definition vfs_close (fd : Z) s : vfs H :=
  if bad_fd fd then s
  else if negb (fd_used (fdt s).[fd]) then s
  else set_fd fd (FdEntry 0 0 0 false) (vfs_node_unref (fd_node (fdt s).[fd]) s).

Definition advance (fd by_ : Z) s : vfs H :=
  let e := (fdt s).[fd] in set_fd fd (FdEntry (fd_node e) (u32 (fd_offset e + by_)) (fd_flags e) (fd_used e)) s.

Definition vfs_read (fd size : Z) s : vfs H * Z * list Z :=
  if bad_fd fd then (s, -1, [])
  else if size =? 0 then (s, 0, [])
  else
    let e := (fdt s).[fd] in
    if negb (fd_used e) then (s, -1, [])
    else if negb (has_flag (fd_flags e) VFS_O_RDONLY) then (s, -1, [])
    else
      let '(d, result, bytes) := vfs_node_read (fd_node e) (fd_offset e) size (disk s) in
      let s := s <| disk := d |> in
      (if 0 <? result then advance fd result s else s, result, bytes).

Definition vfs_write (fd : Z) (buf : list Z) (size : Z) s : vfs H * Z :=
  if bad_fd fd then (s, -1)
  else if size =? 0 then (s, 0)
  else
    let e := (fdt s).[fd] in
    if negb (fd_used e) then (s, -1)
    else if negb (has_flag (fd_flags e) VFS_O_WRONLY) then (s, -1)
    else
      let node := fd_node e in
      let e := if has_flag (fd_flags e) VFS_O_APPEND && negb (node =? 0)
               then FdEntry node (n_size (node_at s node)) (fd_flags e) true else e in
      let s := set_fd fd e s in
      let '(d, result) := vfs_node_write node (fd_offset e) size buf (disk s) in
      let s := s <| disk := d |> in
      if 0 <? result then
        let s := advance fd result s in
        let offset := fd_offset (fdt s).[fd] in
        (if node =? 0 then s
         else set_node node (node_at s node <| n_size := if n_size (node_at s node) <? offset
                                                          then offset else n_size (node_at s node) |>) s,
         result)
      else (s, result).

Definition vfs_seek (fd offset whence : Z) s : vfs H * Z :=
  if bad_fd fd then (s, -1)
  else
    let e := (fdt s).[fd] in
    if negb (fd_used e) then (s, -1)
    else
      let new_offset :=
        if whence =? VFS_SEEK_SET then if offset <? 0 then None else Some (u32 offset)
        else if whence =? VFS_SEEK_CUR then Some (u32 (s32 (fd_offset e) + offset))
        else if whence =? VFS_SEEK_END then
          if fd_node e =? 0 then None else Some (u32 (s32 (n_size (node_at s (fd_node e))) + offset))
        else None in
      match new_offset with
      | None => (s, -1)
      | Some o => (set_fd fd (FdEntry (fd_node e) o (fd_flags e) (fd_used e)) s, s32 o)
      end.

Definition vfs_readdir (fd index name_max : Z) s : option (list Z) :=
  if bad_fd fd then None
  else if negb (fd_used (fdt s).[fd]) then None
  else vfs_node_readdir (fd_node (fdt s).[fd]) index name_max (disk s).

Definition vfs_fd_valid (fd : Z) s : bool := if bad_fd fd then false else fd_used (fdt s).[fd].
Definition vfs_fd_node (fd : Z) s : Z :=
  if bad_fd fd then 0 else if negb (fd_used (fdt s).[fd]) then 0 else fd_node (fdt s).[fd].
Definition vfs_fd_offset (fd : Z) s : Z :=
  if bad_fd fd then 0 else if negb (fd_used (fdt s).[fd]) then 0 else fd_offset (fdt s).[fd].

(** * Tables of tasks *)

Definition vfs_task_fd_init (k : Z) s : vfs H :=
  vfs_install_stdio k (set_table k (repeat (FdEntry 0 0 0 false) 32) s).

Definition vfs_task_fd_close_all (k : Z) s : vfs H :=
  for_loop (fun i s =>
    if negb (fd_used (table_of k s).[i]) then s
    else
      let s := vfs_node_unref (fd_node (table_of k s).[i]) s in
      set_table k (table_of k s).[i <- FdEntry 0 0 0 false] s) (Z.to_nat VFS_MAX_FD) 0 s.

Definition vfs_task_fd_inherit (dst src : Z) s : vfs H :=
  for_loop (fun i s =>
    let e := (table_of src s).[i] in
    let s := set_table dst (table_of dst s).[i <- e] s in
    if fd_used e && negb (fd_node e =? 0) then vfs_node_ref (fd_node e) s else s) (Z.to_nat VFS_MAX_FD) 0 s.

(** * Renaming *)

(** The copy of the file, 512 bytes at a time: [None] when it fails, else
    whether anything was copied. *)
Fixpoint rename_copy (fuel : nat) (src_fd dst_fd : Z) (copied_any : bool) s : vfs H * option bool :=
  match fuel with
  | O => (s, None)
  | S fuel' =>
      let '(s, n, buf) := vfs_read src_fd 512 s in
      if n <? 0 then (s, None)
      else if n =? 0 then (s, Some copied_any)
      else
        let '(s, w) := vfs_write dst_fd buf n s in
        if negb (w =? n) then (s, None) else rename_copy fuel' src_fd dst_fd true s
  end.

(** The target is made, after a removal if the creation fails. *)
Definition rename_target (new_path : list Z) s : vfs H * bool :=
  let '(s, r) := vfs_create new_path VFS_FLAG_FILE s in
  if r =? 0 then (s, true)
  else
    let '(s, r) := vfs_delete new_path s in
    if negb (r =? 0) then (s, false)
    else let '(s, r) := vfs_create new_path VFS_FLAG_FILE s in (s, r =? 0).

Definition rename_finish (old_path new_path : list Z) (old_mode : Z) s : vfs H * Z :=
  let '(s, r) := vfs_delete old_path s in
  if negb (r =? 0) then (s, -1)
  else
    let s :=
      if old_mode =? 0 then s
      else let '(u, g) := default (0, 0) (vfs_perm_get_owner old_path s) in
           (vfs_perm_set new_path old_mode u g s).1 in
    (vfs_cache_invalidate_all s, 0).

Definition vfs_rename (old_path new_path : list Z) s : vfs H * Z :=
  if str_equals old_path new_path then (s, 0)
  else
    match split_path old_path, split_path new_path with
    | Some (old_dir, _), Some (new_dir, _) =>
        let '(s, ok) := dir_writable old_dir s in
        if negb ok then (s, -1)
        else
          let '(s, ok) := dir_writable new_dir s in
          if negb ok then (s, -1)
          else
            let '(s, old_mode) := vfs_get_mode old_path s in
            let '(s, src_fd) := vfs_open old_path s in
            if src_fd <? 0 then (s, -1)
            else if negb (vfs_fd_node src_fd s =? 0) && is_dir (node_at s (vfs_fd_node src_fd s)) then
              (vfs_close src_fd s, -1)
            else
              let '(s, ok) := rename_target new_path s in
              if negb ok then (vfs_close src_fd s, -1)
              else
                let '(s, dst_fd) := vfs_open new_path s in
                if dst_fd <? 0 then (vfs_close src_fd s, -1)
                else
                  let size := fs_size (flat (disk s)) (n_name (node_at s (vfs_fd_node src_fd s))) in
                  let '(s, copied) := rename_copy (S (Z.to_nat size)) src_fd dst_fd false s in
                  let s := vfs_close src_fd (vfs_close dst_fd s) in
                  match copied with
                  | None => (s, -1)
                  | Some copied_any =>
                      let s :=
                        if negb copied_any then
                          let '(s, dst_open) := vfs_open new_path s in
                          if 0 <=? dst_open then vfs_close dst_open s else s
                        else s in
                      rename_finish old_path new_path (default 0 old_mode) s
                  end
    | _, _ => (s, -1)
    end.

End vfs.
