(* ===== verification/VfsInv.v ===== *)
(** The invariant of the VFS layer: reference counts equal the number of
    descriptors, heap nodes are exactly those that descriptors hold, and caches
    refer to live nodes only.

    An operation holds nodes while it runs; [inv s h] is the invariant of a state
    in which the nodes [h] are held by the operation and nobody else. *)
From S2P Require Import Prelude.
From S2P Require Import Interfaces.
From S2P Require Import KString.
From S2P Require Import Vnode.
From S2P Require Import Fs.
From S2P Require Import Ramfs.
From S2P Require Import Task.
From S2P Require Import Vfs.
From Stdlib Require Import ZArith Lia.
From stdpp Require Import base numbers list gmap.

Open Scope Z_scope.
Open Scope lyth_scope.

(** The tables of the kernel (key 0) and of the 16 task slots. *)
Definition TABLES : Z := 17.

Definition points (e : vfs_fd_entry) (p : Z) : bool := fd_used e && (fd_node e =? p).

(** The descriptor with number [j] of all tables together. *)
Definition slot_of {H} (s : vfs H) (j : Z) : vfs_fd_entry := (table_of (j / 32) s).[j mod 32].

(** The number of descriptors that refer to a node. *)
Definition refs {H} (s : vfs H) (p : Z) : Z :=
  countb (fun j => points (slot_of s j) p) (Z.to_nat (TABLES * 32)).

Lemma countb_exists P n : 0 < countb P n -> exists j, 0 <= j < Z.of_nat n /\ P j = true.
Proof.
  induction n as [|n IH]; cbn [countb]; [lia|]. destruct (P (Z.of_nat n)) eqn:E.
  - intros _. exists (Z.of_nat n). split; [lia|done].
  - cbn [b2z]. intros Hc. destruct IH as (j & Hj & Hp); [lia|]. exists j. split; [lia|done].
Qed.

#[local] Opaque countb.

Section inv.
Context {H : Type} `{KAllocatorLaws H} `{!SmallBlocks H}.
Implicit Types s : vfs H.
Implicit Types h : gset Z.

Definition tables_ok s : Prop := forall k, length (table_of k s) = 32%nat.

Definition node_ok s h (p : Z) (n : vfs_node) : Prop :=
  n_mountpoint n = 0 /\ n_ref_count n = refs s p /\ (dynamic n = true -> refs s p = 0 -> p ∈ h).

Definition static_node s (p : Z) : Prop := exists n, nodes (disk s) !! p = Some n /\ dynamic n = false.

Record inv s h : Prop := Inv {
  i_store : store_ok (disk s);
  i_tables : tables_ok s;
  i_current : 0 <= current_table s < TABLES;
  i_nodes : forall p n, nodes (disk s) !! p = Some n -> node_ok s h p n;
  i_held : forall p, p ∈ h -> exists n, nodes (disk s) !! p = Some n /\ dynamic n = true /\ refs s p = 0;
  i_fds : forall p, 0 < refs s p -> p <> 0 /\ exists n, nodes (disk s) !! p = Some n;
  i_vcache : forall e, e ∈ vnode_cache s -> v_used e = true -> 0 < refs s (v_node e);
  i_dcache : forall e, e ∈ dentry_cache s -> e_used e = true -> e_negative e = false -> static_node s (e_node e);
  i_mounts : forall m, m ∈ mounts s -> m_used m = true -> static_node s (m_root m);
  i_tty : g_tty_node s = 0 \/ static_node s (g_tty_node s) }.

(** What an operation that opens and closes nothing leaves as it is. *)
Record frame s s' : Prop := Frame {
  f_fds : fd_tables s' = fd_tables s;
  f_current : current_table s' = current_table s;
  f_tty : g_tty_node s' = g_tty_node s;
  f_caller : caller s' = caller s;
  f_nodes : forall p n, nodes (disk s) !! p = Some n -> dynamic n = false \/ 0 < refs s p ->
    exists n', nodes (disk s') !! p = Some n' /\ n_flags n' = n_flags n }.

Lemma refs_tables s s' p : fd_tables s' = fd_tables s -> refs s' p = refs s p.
Proof. intros E. unfold refs, slot_of, table_of. by rewrite E. Qed.

Lemma fd_refs_nonneg s p : 0 <= refs s p.
Proof. apply countb_bound. Qed.

Lemma refs_bound s p : refs s p <= 544.
Proof. unfold refs. pose proof (countb_bound (fun j => points (slot_of s j) p) (Z.to_nat (TABLES * 32))). change (Z.of_nat (Z.to_nat (TABLES * 32))) with 544 in *. lia. Qed.

Lemma refs_zero s p : (forall k i, 0 <= k < TABLES -> 0 <= i < 32 -> points (table_of k s).[i] p = false) -> refs s p = 0.
Proof.
  intros Hall. apply countb_none. intros j Hj. apply Hall; [|apply Z.mod_pos_bound; lia].
  change (Z.of_nat (Z.to_nat (TABLES * 32))) with (TABLES * 32) in Hj. unfold TABLES in *. zlia.
Qed.

Lemma refs_pos s k i p :
  0 <= k < TABLES -> 0 <= i < 32 -> points (table_of k s).[i] p = true -> 0 < refs s p.
Proof.
  intros Hk Hi Hp. apply (countb_pos _ _ (k * 32 + i)).
  - change (Z.of_nat (Z.to_nat (TABLES * 32))) with 544. unfold TABLES in *. lia.
  - unfold slot_of. replace ((k * 32 + i) / 32) with k by zlia. replace ((k * 32 + i) mod 32) with i by zlia. done.
Qed.

Lemma refs_exists s p :
  0 < refs s p -> exists k i, 0 <= k < TABLES /\ 0 <= i < 32 /\ points (table_of k s).[i] p = true.
Proof.
  intros (j & Hj & Hp)%countb_exists. change (Z.of_nat (Z.to_nat (TABLES * 32))) with 544 in Hj.
  exists (j / 32), (j mod 32). split; [unfold TABLES; zlia|]. split; [zlia|exact Hp].
Qed.

Lemma table_of_set k t s k' : table_of k' (set_table k t s) = if decide (k' = k) then t else table_of k' s.
Proof.
  unfold table_of, set_table; cbn. case_decide; [subst; by rewrite lookup_insert_eq|by rewrite lookup_insert_ne].
Qed.

(** Changing one descriptor. *)
Lemma refs_set k i e s p :
  tables_ok s -> 0 <= k < TABLES -> 0 <= i < 32 ->
  refs (set_table k (table_of k s).[i <- e] s) p =
    refs s p - b2z (points (table_of k s).[i] p) + b2z (points e p).
Proof.
  intros Ht Hk Hi. unfold refs.
  rewrite (countb_update (fun j => points (slot_of s j) p) _ _ (k * 32 + i)).
  - unfold slot_of. replace ((k * 32 + i) / 32) with k by zlia. replace ((k * 32 + i) mod 32) with i by zlia.
    rewrite table_of_set, decide_True by done. by rewrite aget_aset_eq by (rewrite Ht; lia).
  - change (Z.of_nat (Z.to_nat (TABLES * 32))) with 544. unfold TABLES in *. lia.
  - intros j Hj Hne. unfold slot_of. rewrite table_of_set. case_decide as Ek; [|done].
    rewrite aget_aset_ne; [by subst k|..]; zlia.
Qed.

Lemma tables_set k i e s : tables_ok s -> tables_ok (set_table k (table_of k s).[i <- e] s).
Proof. intros Ht k'. rewrite table_of_set. case_decide; [by rewrite aset_length|done]. Qed.

Lemma frame_refl s : frame s s.
Proof. constructor; eauto. Qed.

Lemma frame_trans s1 s2 s3 : frame s1 s2 -> frame s2 s3 -> frame s1 s3.
Proof.
  intros [A1 B1 C1 D1 E1] [A2 B2 C2 D2 E2]. constructor; try congruence.
  intros p n Hp Hr. destruct (E1 p n Hp Hr) as (n' & Hp' & Ef).
  destruct (E2 p n' Hp') as (n'' & Hp'' & Ef'').
  - unfold dynamic in *. rewrite Ef. by rewrite (refs_tables s1 s2).
  - exists n''. split; [done|congruence].
Qed.

Lemma static_frame s s' p : frame s s' -> static_node s p -> static_node s' p.
Proof.
  intros Hf (n & Hp & Hd). destruct (f_nodes _ _ Hf p n Hp (or_introl Hd)) as (n' & Hp' & Ef).
  exists n'. split; [done|]. unfold dynamic in *. by rewrite Ef.
Qed.

(** * Primitive steps *)

Definition kept s s' h' : Prop := inv s' h' /\ frame s s'.

Lemma kept_trans s1 s2 s3 h2 h3 : kept s1 s2 h2 -> kept s2 s3 h3 -> kept s1 s3 h3.
Proof. intros [_ F1] [I F2]. split; [done|]. by eapply frame_trans. Qed.

Lemma kept_refl s h : inv s h -> kept s s h.
Proof. intros I. split; [done|apply frame_refl]. Qed.

(** Steps on the caches and the permission table. *)
Lemma meta_kept s s' h :
  inv s h -> disk s' = disk s -> fd_tables s' = fd_tables s -> current_table s' = current_table s ->
  g_tty_node s' = g_tty_node s -> caller s' = caller s -> mounts s' = mounts s ->
  (forall e, e ∈ vnode_cache s' -> v_used e = true -> 0 < refs s (v_node e)) ->
  (forall e, e ∈ dentry_cache s' -> e_used e = true -> e_negative e = false -> static_node s (e_node e)) ->
  kept s s' h.
Proof.
  intros [I1 I2 I3 I4 I5 I6 I7 I8 I9 I10] Ed Ef Ec Et Ea Em Hv Hd.
  assert (forall p, refs s' p = refs s p) as Er by (intros; by apply refs_tables).
  assert (forall p, static_node s' p <-> static_node s p) as Es by (intros; unfold static_node; by rewrite Ed).
  split; [constructor|constructor]; try congruence.
  - intros k. unfold table_of. rewrite Ef. apply I2.
  - intros p n. rewrite Ed. unfold node_ok. rewrite Er. apply I4.
  - intros p. rewrite Ed, Er. apply I5.
  - intros p. rewrite Ed, Er. apply I6.
  - intros e He Hu. rewrite Er. by apply Hv.
  - intros e He Hu Hn. apply Es. by apply Hd.
  - intros m. rewrite Em. intros ? ?. apply Es. by apply I9.
  - rewrite Et. destruct I10 as [?|?]; [by left|right; by apply Es].
  - rewrite Ed. intros p n Hp _. eauto.
Qed.

(** A back end hands out a new node, or none. *)
Lemma returned_kept s d p h :
  inv s h -> returns (disk s) d p ->
  kept s (s <| disk := d |>) (if p =? 0 then h else {[p]} ∪ h) /\
  (p <> 0 -> p ∉ h /\ dynamic (node_at (s <| disk := d |>) p) = true /\ exists n, nodes d !! p = Some n).
Proof.
  intros [I1 I2 I3 I4 I5 I6 I7 I8 I9 I10] [Hok [[-> En]|(Hp & Hnone & n & En & Hd & Hr & Hm)]].
  - split; [|done]. cbn [Z.eqb]. split; [constructor|constructor]; try done; cbn; rewrite ?En.
    + intros p n Hp. by apply I4.
    + intros p Hp. by apply I5.
    + intros p Hp. by apply I6.
    + intros e He Hu Hn. unfold static_node; cbn. rewrite En. by apply I8.
    + intros m Hm Hu. unfold static_node; cbn. rewrite En. by apply I9.
    + unfold static_node; cbn. rewrite En. done.
    + intros p n Hp _. eauto.
  - rewrite (proj2 (Z.eqb_neq p 0)) by done.
    assert (refs s p = 0) as Er.
    { pose proof (fd_refs_nonneg s p). destruct (decide (refs s p = 0)); [done|].
      destruct (I6 p ltac:(lia)) as [_ [n' E]]. congruence. }
    assert (p ∉ h) as Hph. { intros Hin. destruct (I5 p Hin) as (n' & E & _). congruence. }
    assert (forall q, static_node s q -> static_node (s <| disk := d |>) q) as Es.
    { intros q (n' & Hq & Hs). exists n'. cbn. rewrite En. split; [|done]. rewrite lookup_insert_ne; [done|congruence]. }
    split; [split; constructor|]; try done; cbn; rewrite ?En.
    + intros q n' Hq. unfold node_ok. change (refs (s <| disk := d |>) q) with (refs s q).
      destruct (decide (q = p)) as [->|Hne].
      * rewrite lookup_insert_eq in Hq. injection Hq as <-. rewrite Er. split_and!; try done. set_solver.
      * rewrite lookup_insert_ne in Hq by done. destruct (I4 q n' Hq) as (? & ? & Hh). split_and!; try done.
        intros ? ?. set_solver.
    + intros q. change (refs (s <| disk := d |>) q) with (refs s q).
      rewrite elem_of_union, elem_of_singleton. intros [->|Hq].
      * exists n. by rewrite lookup_insert_eq.
      * destruct (I5 q Hq) as (n' & ? & ? & ?). exists n'. rewrite lookup_insert_ne by congruence. done.
    + intros q Hq. destruct (I6 q Hq) as [? [n' E]]. split; [done|]. exists n'.
      rewrite lookup_insert_ne by congruence. done.
    + intros e He Hu Hn. by apply Es, I8.
    + intros m' Hm' Hu. by apply Es, I9.
    + destruct I10 as [?|?]; [by left|right; by apply Es].
    + intros q n' Hq _. exists n'. rewrite lookup_insert_ne by congruence. done.
    + intros _. split; [done|]. unfold node_at, get_node; cbn. rewrite En, lookup_total_insert_eq.
      split; [done|]. exists n. by rewrite lookup_insert_eq.
Qed.

(** The store changes but for the sizes of nodes. *)
Lemma disk_kept s d h :
  inv s h -> store_ok d ->
  (forall p, (fun n => n <| n_size := 0 |>) <$> nodes d !! p = (fun n => n <| n_size := 0 |>) <$> nodes (disk s) !! p) ->
  kept s (s <| disk := d |>) h.
Proof.
  intros [I1 I2 I3 I4 I5 I6 I7 I8 I9 I10] Hok En.
  assert (forall p n, nodes d !! p = Some n -> exists n0, nodes (disk s) !! p = Some n0 /\ n_flags n = n_flags n0 /\
    n_ref_count n = n_ref_count n0 /\ n_mountpoint n = n_mountpoint n0) as Eto.
  { intros p n Hp. specialize (En p). rewrite Hp in En. destruct (nodes (disk s) !! p) as [n0|]; [|done].
    exists n0. split; [done|]. injection En. by destruct n, n0; cbn; intros; subst. }
  assert (forall p n, nodes (disk s) !! p = Some n -> exists n0, nodes d !! p = Some n0 /\ n_flags n0 = n_flags n) as Efro.
  { intros p n Hp. specialize (En p). rewrite Hp in En. destruct (nodes d !! p) as [n0|]; [|done].
    exists n0. split; [done|]. injection En. by destruct n, n0; cbn; intros; subst. }
  assert (forall q, static_node s q -> static_node (s <| disk := d |>) q) as Es.
  { intros q (n' & Hq & Hs). destruct (Efro q n' Hq) as (n0 & ? & Ef). exists n0. split; [done|].
    unfold dynamic in *. by rewrite Ef. }
  split; constructor; try done; cbn.
  - intros p n Hp. destruct (Eto p n Hp) as (n0 & Hp0 & Ef & Er & Em). destruct (I4 p n0 Hp0) as (? & ? & Hh).
    unfold node_ok, dynamic in *. rewrite Ef, Er, Em. done.
  - intros p Hp. destruct (I5 p Hp) as (n & Hn & Hd & Hr). destruct (Efro p n Hn) as (n0 & ? & Ef). exists n0.
    unfold dynamic in *. rewrite Ef. done.
  - intros p Hp. destruct (I6 p Hp) as [? [n Hn]]. split; [done|]. destruct (Efro p n Hn) as (n0 & ? & _). eauto.
  - intros e He Hu Hn. by apply Es, I8.
  - intros m' Hm' Hu. by apply Es, I9.
  - destruct I10 as [?|?]; [by left|right; by apply Es].
  - intros p n Hp _. by apply Efro.
Qed.

(** A held node is freed. *)
Lemma kfree_kept s p h :
  inv s h -> p ∈ h -> kept s (kfree_node p s) (h ∖ {[p]}).
Proof.
  intros [I1 I2 I3 I4 I5 I6 I7 I8 I9 I10] Hp. destruct (I5 p Hp) as (n & Hn & Hd & Hr).
  assert (forall q, static_node s q -> static_node (kfree_node p s) q) as Es.
  { intros q (n' & Hq & Hs). exists n'. cbn. split; [|done]. apply lookup_delete_Some. split; [congruence|done]. }
  split; constructor; try done; cbn.
  - by apply (free_node_ok p n).
  - intros q n' Hq. apply lookup_delete_Some in Hq as [Hne Hq]. destruct (I4 q n' Hq) as (? & ? & Hh).
    split_and!; try done. intros ? ?. set_solver.
  - intros q [Hq Hne]%elem_of_difference. destruct (I5 q Hq) as (n' & ? & ? & ?). exists n'.
    split; [|done]. apply lookup_delete_Some. split; [set_solver|done].
  - intros q Hq. change (refs (kfree_node p s) q) with (refs s q) in Hq. destruct (I6 q Hq) as [? [n' E]].
    split; [done|]. exists n'. apply lookup_delete_Some. split; [|done]. intros ->. lia.
  - intros e He Hu Hn'. by apply Es, I8.
  - intros m' Hm' Hu. by apply Es, I9.
  - destruct I10 as [?|?]; [by left|right; by apply Es].
  - intros q n' Hq Hor. exists n'. split; [|done]. apply lookup_delete_Some. split; [|done].
    intros ->. rewrite Hn in Hq. injection Hq as <-. destruct Hor; [congruence|lia].
Qed.

(** * Caches *)

Lemma elem_of_aset {A} (l : list A) i (x y : A) : x ∈ l.[i <- y] -> x = y \/ x ∈ l.
Proof.
  unfold aset. intros [j Hj]%list_elem_of_lookup.
  apply list_lookup_insert_Some in Hj as [(_ & -> & _)|(_ & Hj)]; [by left|right].
  by eapply list_elem_of_lookup_2.
Qed.

Lemma aget_in {A} `{Inhabited A} (P : A -> bool) (l : list A) i :
  P l.[i] = true -> P inhabitant = false -> l.[i] ∈ l.
Proof.
  intros Hp Hn. unfold aget in *. destruct (l !! Z.to_nat i) as [x|] eqn:E.
  - rewrite (list_lookup_total_correct _ _ _ E). by eapply list_elem_of_lookup_2.
  - rewrite list_lookup_total_alt, E in Hp. cbn in Hp. congruence.
Qed.

Lemma set_dentry_kept s h i e :
  inv s h -> (e_used e = true -> e_negative e = false -> static_node s (e_node e)) -> kept s (set_dentry i e s) h.
Proof.
  intros I He. apply meta_kept; try done; [apply I|]. intros e' [->|Hin]%elem_of_aset; [done|].
  by apply (i_dcache _ _ I).
Qed.

Lemma dentry_lookup_kept s h parent name :
  inv s h -> let '(s', hit) := vfs_dentry_cache_lookup parent name s in
  kept s s' h /\ disk s' = disk s /\ forall p, hit = Some (p, false) -> static_node s p.
Proof.
  intros I. unfold vfs_dentry_cache_lookup. destruct (parent =? 0); [split; [by apply kept_refl|done]|].
  destruct (find_dentry parent name s) as [i|] eqn:E; [|split; [by apply kept_refl|done]].
  assert (forall p, Some (e_node (dentry_cache s).[i], e_negative (dentry_cache s).[i]) = Some (p, false) ->
    static_node s p) as Hs.
  { intros p [= <- Hneg]. apply find_first_Some in E as (_ & Hu & _).
    apply andb_prop in Hu as [[[Hu _]%andb_prop _]%andb_prop _].
    apply (i_dcache _ _ I); [by apply (aget_in e_used)|done|done]. }
  split; [|done]. apply set_dentry_kept; [done|]. cbn. intros _ Hneg. apply Hs. by rewrite Hneg.
Qed.

Lemma dentry_insert_kept s h parent name node negative :
  inv s h -> (negative = false -> static_node s node) ->
  kept s (vfs_dentry_cache_insert parent name node negative s) h /\
  disk (vfs_dentry_cache_insert parent name node negative s) = disk s.
Proof.
  intros I Hn. unfold vfs_dentry_cache_insert. destruct (_ || _); [split; [by apply kept_refl|done]|].
  destruct (find_dentry _ _ _); [split; [by apply set_dentry_kept|done]|].
  destruct (_ <? 0); split; done || (by apply kept_refl) || (by apply set_dentry_kept).
Qed.

Lemma elem_of_repeat {A} (x y : A) n : x ∈ repeat y n -> x = y.
Proof. induction n; cbn; [by intros ?%elem_of_nil|]. intros [?|?]%elem_of_cons; auto. Qed.

Lemma invalidate_kept s h : inv s h -> kept s (vfs_cache_invalidate_all s) h.
Proof.
  intros I. apply meta_kept; try done.
  - intros e ->%elem_of_repeat. done.
  - intros e ->%elem_of_repeat. done.
Qed.

(** * Nodes an operation owns *)

Definition owned s (p : Z) : gset Z := if dynamic (node_at s p) then {[p]} else ∅.

Lemma node_at_lookup s p n : nodes (disk s) !! p = Some n -> node_at s p = n.
Proof. intros E. unfold node_at, get_node. by apply lookup_total_correct. Qed.

Lemma owned_disk s s' p : disk s' = disk s -> owned s' p = owned s p.
Proof. intros E. unfold owned, node_at. by rewrite E. Qed.

Lemma owned_zero s h : inv s h -> owned s 0 = ∅.
Proof.
  intros I. unfold owned, node_at, get_node. destruct (nodes (disk s) !! 0) as [n|] eqn:E.
  - by destruct (so_nodes _ (i_store _ _ I) 0 n E).
  - rewrite lookup_total_alt, E. done.
Qed.

Lemma owned_static s p : static_node s p -> owned s p = ∅.
Proof. intros (n & E & Hd). unfold owned. by rewrite (node_at_lookup s p n E), Hd. Qed.

Lemma free_if_dynamic_kept s p h :
  inv s (owned s p ∪ h) -> p ∉ h -> kept s (free_if_dynamic p s) h.
Proof.
  intros I Hp. unfold free_if_dynamic, owned in *. destruct (dynamic (node_at s p)).
  - pose proof (kfree_kept s p _ I ltac:(set_solver)) as K.
    replace (({[p]} ∪ h) ∖ {[p]}) with h in K by set_solver. done.
  - rewrite (left_id_L ∅ (∪)) in I. by apply kept_refl.
Qed.

Lemma held_not_zero s h : inv s h -> 0 ∉ h.
Proof.
  intros I Hin. destruct (i_held _ _ I 0 Hin) as (n & E & _). by destruct (so_nodes _ (i_store _ _ I) 0 n E).
Qed.

(** * Resolution *)

Lemma take_component_spec n l :
  let '(c, r) := take_component n l in
  l = c ++ r /\ (c = [] -> (0 < n)%nat -> l = [] \/ exists l', l = SLASH :: l').
Proof.
  revert l. induction n as [|n IH]; intros l; cbn [take_component].
  { destruct l; split; try done; intros _ ?; lia. }
  destruct l as [|c l]; [split; [done|]; by left|].
  destruct (Z.eqb_spec c SLASH) as [->|Hne]; [split; [done|]; eauto|].
  specialize (IH l). destruct (take_component n l) as [a b]. destruct IH as [-> _]. split; done.
Qed.

Lemma skip_slash_spec l : (exists p, l = p ++ skip_slash l) /\ (length (skip_slash l) <= length l)%nat.
Proof.
  destruct l as [|c l]; cbn; [split; [by exists []|done]|]. destruct (c =? SLASH); [|split; [by exists []|done]].
  split; [by exists [c]|]. cbn. lia.
Qed.

Lemma resolve_progress rest :
  rest <> [] -> text rest -> let '(c, r) := take_component (Z.to_nat (VFS_NAME_MAX - 1)) rest in
  (length (skip_slash r) < length rest)%nat /\ text c /\ text (skip_slash r).
Proof.
  intros Hne Ht. pose proof (take_component_spec (Z.to_nat (VFS_NAME_MAX - 1)) rest) as Hc.
  destruct (take_component _ rest) as [c r]. destruct Hc as [E Hc]. destruct (skip_slash_spec r) as [[p Ep] Hl].
  assert (text c /\ text (skip_slash r)) as [Htc Htr].
  { unfold text in *. rewrite E, Forall_app in Ht. destruct Ht as [? Ht]. split; [done|].
    rewrite Ep, Forall_app in Ht. apply Ht. }
  split; [|done]. destruct c as [|a c].
  - destruct (Hc eq_refl ltac:(unfold VFS_NAME_MAX; lia)) as [->|[l' El]]; [done|]. cbn in E. subst r. rewrite El. cbn. lia.
  - rewrite E. cbn. rewrite length_app. lia.
Qed.

Lemma finddir_returns s node name :
  store_ok (disk s) -> text name ->
  let '(d, p) := vfs_node_finddir node name (disk s) in returns (disk s) d p.
Proof.
  intros Hok Ht. unfold vfs_node_finddir. pose proof (returns_none (disk s) Hok) as Hnone.
  destruct (node =? 0); [done|].
  destruct (ramfs_finddir_spec (get_node (disk s) (vfs_effective (disk s) node)) name (disk s) Hok Ht) as [Ha Hb].
  by destruct (n_ops _).
Qed.

Lemma resolve_loop_kept fuel : forall current rest s h,
  (length rest < fuel)%nat -> text rest -> inv s (owned s current ∪ h) -> current ∉ h ->
  (exists n, nodes (disk s) !! current = Some n) ->
  let '(s', r) := resolve_loop fuel current rest s in
  kept s s' (owned s' r ∪ h) /\ r ∉ h /\ (r <> 0 -> exists n, nodes (disk s') !! r = Some n).
Proof.
  induction fuel as [|fuel IH]; intros current rest s h Hlen Ht I Hcur Hin; [lia|]. cbn [resolve_loop].
  case_bool_decide as Er; [split; [by apply kept_refl|done]|].
  pose proof (resolve_progress rest Er Ht) as Hp. destruct (take_component _ rest) as [c r]. destruct Hp as (Hl & Htc & Htr).
  case_bool_decide as Ec; [apply IH; [lia|done..]|].
  pose proof (dentry_lookup_kept s _ current c I) as Hd. destruct (vfs_dentry_cache_lookup current c s) as [s1 hit].
  destruct Hd as (K1 & E1 & Hhit). assert (0 ∉ h) as H0h.
  { pose proof (held_not_zero _ _ I). set_solver. }
  assert (inv s1 (owned s1 current ∪ h)) as I1 by (rewrite (owned_disk s s1) by done; apply K1).
  destruct hit as [[next [|]]|].
  - pose proof (free_if_dynamic_kept s1 current h I1 Hcur) as K2. split; [|done].
    rewrite (owned_zero _ h) by apply K2. rewrite (left_id_L ∅ (∪)). by eapply kept_trans.
  - pose proof (free_if_dynamic_kept s1 current h I1 Hcur) as K2.
    pose proof (static_frame _ _ _ (frame_trans _ _ _ (proj2 K1) (proj2 K2)) (Hhit next eq_refl)) as Hst.
    assert (next <> 0 /\ next ∉ h) as [Hn0 Hnh].
    { destruct Hst as (n & En & Hdn). split.
      - by destruct (so_nodes _ (i_store _ _ (proj1 K2)) next n En).
      - intros Hin'. destruct (i_held _ _ (proj1 K2) next Hin') as (n' & ? & ? & _). congruence. }
    rewrite (proj2 (Z.eqb_neq next 0)) by done.
    specialize (IH next (skip_slash r) (free_if_dynamic current s1) h ltac:(lia) Htr).
    rewrite (owned_static _ _ Hst), (left_id_L ∅ (∪)) in IH. destruct Hst as (n & En & _).
    specialize (IH (proj1 K2) Hnh (ex_intro _ n En)).
    destruct (resolve_loop _ _ _ _) as [s' r']. destruct IH as (K3 & ? & ?). split; [|done].
    eapply kept_trans; [exact K1|]. by eapply kept_trans.
  - pose proof (finddir_returns s1 current c (i_store _ _ I1) Htc) as Hf.
    destruct (vfs_node_finddir current c (disk s1)) as [d next].
    destruct (returned_kept s1 d next _ I1 Hf) as [K2 Hnew]. set (s2 := s1 <| disk := d |>) in *.
    destruct (Z.eqb_spec next 0) as [->|Hne].
    + destruct (dentry_insert_kept s2 _ current c 0 true (proj1 K2) ltac:(done)) as [K3 E3].
      set (s3 := vfs_dentry_cache_insert current c 0 true s2) in *.
      assert (owned s3 current = owned s1 current) as Eo.
      { rewrite (owned_disk s2 s3) by done. destruct Hin as [n Hn].
        assert (nodes (disk s1) !! current = Some n) as Hn1 by (by rewrite E1).
        destruct Hf as [_ [[_ En]|[? _]]]; [|done]. unfold owned, node_at, get_node, s2; cbn. by rewrite En. }
      assert (inv s3 (owned s3 current ∪ h)) as I3 by (rewrite Eo; apply K3).
      pose proof (free_if_dynamic_kept s3 current h I3 Hcur) as K4. split; [|done].
      rewrite (owned_zero _ h) by apply K4. rewrite (left_id_L ∅ (∪)).
      eapply kept_trans; [exact K1|]. eapply kept_trans; [exact K2|]. by eapply kept_trans.
    + destruct (Hnew Hne) as (Hnin & Hdyn & Hex). rewrite Hdyn. cbn [negb].
      assert (next <> current) as Hnc.
      { intros ->. destruct Hf as [_ [[? _]|(_ & Hnone & _)]]; [done|]. destruct Hin as [n Hn]. rewrite <- E1 in Hn. congruence. }
      assert (owned s2 current = owned s1 current) as Eo.
      { destruct Hf as [_ [[? _]|(_ & _ & n & En & _)]]; [done|]. unfold owned, node_at, get_node, s2; cbn.
        by rewrite En, lookup_total_insert_ne. }
      assert (inv s2 (owned s2 current ∪ ({[next]} ∪ h))) as I2.
      { rewrite Eo. replace (owned s1 current ∪ ({[next]} ∪ h)) with ({[next]} ∪ (owned s1 current ∪ h)) by set_solver.
        apply K2. }
      pose proof (free_if_dynamic_kept s2 current _ I2 ltac:(set_solver)) as K3.
      set (s3 := free_if_dynamic current s2) in *.
      assert (node_at s3 next = node_at s2 next) as En3.
      { unfold s3, free_if_dynamic. destruct (dynamic (node_at s2 current)); [|done].
        unfold node_at, get_node; cbn. by rewrite lookup_total_delete_ne. }
      assert (owned s3 next = {[next]}) as Eo3 by (unfold owned; by rewrite En3, Hdyn).
      specialize (IH next (skip_slash r) s3 h ltac:(lia) Htr). rewrite Eo3 in IH.
      destruct (i_held _ _ (proj1 K3) next ltac:(set_solver)) as (n & Hn & _).
      specialize (IH (proj1 K3) ltac:(set_solver) (ex_intro _ n Hn)).
      destruct (resolve_loop _ _ _ _) as [s' r']. destruct IH as (K4 & ? & ?). split; [|done].
      eapply kept_trans; [exact K1|]. eapply kept_trans; [exact K2|]. by eapply kept_trans.
Qed.

Lemma strip_spec p l after : strip p l = Some after -> l = p ++ after.
Proof.
  revert l. induction p as [|a p IH]; intros [|b l]; cbn; try done; [by intros [= <-]..|].
  destruct (Z.eqb_spec a b) as [->|]; [|done]. intros E. by rewrite (IH l E).
Qed.

Lemma find_mount_kept s h path :
  inv s h -> text path ->
  let '(root, rest) := vfs_find_mount path s in text rest /\ (root = 0 \/ static_node s root).
Proof.
  intros I Ht. unfold vfs_find_mount.
  assert (forall best : Z * Z, best = for_loop (mount_step path s) (Z.to_nat VFS_MAX_MOUNTS) 0 (0, 0) ->
    best.1 = 0 \/ static_node s best.1) as Hloop.
  { intros best ->. apply (for_loop_ind (fun _ (b : Z * Z) => b.1 = 0 \/ static_node s b.1)); [by left|].
    intros i b _ Hb. unfold mount_step. destruct (m_used (mounts s).[i]) eqn:Hu; cbn [negb]; [|done].
    assert (static_node s (m_root (mounts s).[i])) as Hst.
    { apply (i_mounts _ _ I); [|done]. by apply (aget_in m_used). }
    destruct (bool_decide _); [destruct (_ && _); auto|]. destruct (strip _ _); [|done].
    destruct (_ && _); auto. }
  specialize (Hloop _ eq_refl). destruct (for_loop _ _ _ _) as [root len]. split; [|done].
  destruct (skip_slash_spec (drop (Z.to_nat len) path)) as [[q Eq] _].
  assert (text (drop (Z.to_nat len) path)) as Hd by (by apply Forall_drop).
  unfold text in *. rewrite Eq, Forall_app in Hd. apply Hd.
Qed.

(** The node of an operation: held if nobody refers to it. *)
Definition temp s (p : Z) : gset Z :=
  if dynamic (node_at s p) && (n_ref_count (node_at s p) =? 0) then {[p]} else ∅.

Definition present s (p : Z) : Prop := exists n, nodes (disk s) !! p = Some n.

(** The operation has the node [p], besides the nodes [h]. *)
Definition has s (p : Z) h : Prop := inv s (temp s p ∪ h) /\ p ∉ h /\ present s p.

Lemma owned_temp s p h : inv s (owned s p ∪ h) -> present s p -> temp s p = owned s p.
Proof.
  intros I (n & E). unfold owned, temp in *. rewrite (node_at_lookup s p n E) in *.
  destruct (dynamic n) eqn:Ed; [|done]. cbn [andb].
  destruct (i_held _ _ I p ltac:(set_solver)) as (n' & E' & _ & Hr).
  destruct (i_nodes _ _ I p n E) as (_ & -> & _). by rewrite Hr.
Qed.

Lemma vfs_resolve_kept s h path :
  inv s h -> text path ->
  let '(s', r) := vfs_resolve path s in
  frame s s' /\ if r =? 0 then inv s' h else has s' r h /\ owned s' r = temp s' r.
Proof.
  intros I Ht. unfold vfs_resolve. pose proof (find_mount_kept s h path I Ht) as Hm.
  destruct (vfs_find_mount path s) as [root rest]. destruct Hm as [Hrest Hroot].
  destruct (Z.eqb_spec root 0) as [->|Hne]; [split; [apply frame_refl|done]|].
  destruct Hroot as [?|Hst]; [done|].
  pose proof (resolve_loop_kept (S (length rest)) root rest s h ltac:(lia) Hrest) as Hl.
  rewrite (owned_static s root Hst), (left_id_L ∅ (∪)) in Hl. destruct Hst as (n & En & Hd).
  specialize (Hl I). destruct (resolve_loop _ _ _ _) as [s' r].
  destruct Hl as ([I' F] & Hr & Hp); [|by exists n|].
  { intros Hin. destruct (i_held _ _ I root Hin) as (n' & ? & ? & _). congruence. }
  split; [done|]. destruct (Z.eqb_spec r 0) as [->|Hr0].
  - by rewrite (owned_zero s' _ I'), (left_id_L ∅ (∪)) in I'.
  - destruct (Hp Hr0) as [n' Hn']. pose proof (owned_temp s' r h I' (ex_intro _ n' Hn')) as Eo.
    split; [|done]. split; [by rewrite Eo|]. split; [done|by exists n'].
Qed.

Lemma release_kept s p h : has s p h -> kept s (release_node p s) h.
Proof.
  intros (I & Hp & _). unfold release_node, temp in *. destruct (dynamic _ && _).
  - pose proof (kfree_kept s p _ I ltac:(set_solver)) as K.
    replace (({[p]} ∪ h) ∖ {[p]}) with h in K by set_solver. done.
  - rewrite (left_id_L ∅ (∪)) in I. by apply kept_refl.
Qed.

Lemma free_kept s p h : inv s (temp s p ∪ h) -> p ∉ h -> owned s p = temp s p -> kept s (free_if_dynamic p s) h.
Proof. intros I Hp E. apply free_if_dynamic_kept; [by rewrite E|done]. Qed.

(** A node stays at hand across an operation that keeps it. *)
Lemma has_kept s s' p h h' :
  has s p h -> kept s s' (temp s p ∪ h') -> p ∉ h' ->
  has s' p h' /\ (owned s p = temp s p -> owned s' p = temp s' p).
Proof.
  intros (I & _ & n & En) [I' F] Hp.
  assert (present s' p /\ temp s' p = temp s p /\ (owned s p = temp s p -> owned s' p = temp s' p)) as (Hpr & Et & Eo);
    [|split; [split; [by rewrite Et|done]|done]].
  unfold temp, owned in *. rewrite (node_at_lookup s p n En) in *.
  destruct (dynamic n && (n_ref_count n =? 0)) eqn:Ed.
  - destruct (i_held _ _ I' p ltac:(set_solver)) as (n' & En' & Hd' & Hr'). split; [by exists n'|].
    rewrite (node_at_lookup s' p n' En'), Hd'. destruct (i_nodes _ _ I' p n' En') as (_ & -> & _). by rewrite Hr'.
  - destruct (i_nodes _ _ I p n En) as (_ & Hc & _).
    assert (dynamic n = false \/ 0 < refs s p) as Hor.
    { destruct (dynamic n) eqn:Hd; [right|by left]. cbn in Ed. apply Z.eqb_neq in Ed.
      pose proof (fd_refs_nonneg s p). lia. }
    destruct (f_nodes _ _ F p n En Hor) as (n' & En' & Ef). split; [by exists n'|].
    rewrite (node_at_lookup s' p n' En'). destruct (i_nodes _ _ I' p n' En') as (_ & -> & _).
    rewrite (refs_tables s s' p (f_fds _ _ F)), <- Hc. unfold dynamic in *. by rewrite Ef, Ed.
Qed.

(** * Permissions *)

Lemma set_perm_kept s h i e : inv s h -> kept s (set_perm i e s) h.
Proof. intros I. apply meta_kept; try done; apply I. Qed.

Lemma perm_set_kept s h path mode uid gid : inv s h -> kept s (vfs_perm_set path mode uid gid s).1 h.
Proof.
  intros I. unfold vfs_perm_set. destruct (vfs_perm_find path s); [by apply set_perm_kept|].
  destruct (find_first _ _ _); [by apply set_perm_kept|by apply kept_refl].
Qed.

Lemma perm_remove_kept s h path : inv s h -> kept s (vfs_perm_remove path s) h.
Proof. intros I. unfold vfs_perm_remove. destruct (vfs_perm_find _ _); [by apply set_perm_kept|by apply kept_refl]. Qed.

Lemma get_mode_kept s h path : inv s h -> text path -> kept s (vfs_get_mode path s).1 h.
Proof.
  intros I Ht. unfold vfs_get_mode. destruct (vfs_perm_find path s); [by apply kept_refl|].
  pose proof (vfs_resolve_kept s h path I Ht) as Hr. destruct (vfs_resolve path s) as [s1 node].
  destruct Hr as [F1 Hr]. destruct (node =? 0); [done|]. destruct Hr as [Hr _].
  pose proof (perm_set_kept s1 _ path (vfs_default_mode_for_path path (n_flags (node_at s1 node))) 0 0 (proj1 Hr)) as K2.
  destruct (vfs_perm_set _ _ _ _ s1) as [s2 r]. cbn [fst] in K2.
  pose proof (release_kept s2 node h (proj1 (has_kept s1 s2 node h h Hr K2 (proj1 (proj2 Hr))))) as K3.
  assert (kept s (release_node node s2) h).
  { split; [apply K3|]. eapply frame_trans; [exact F1|]. eapply frame_trans; [apply K2|apply K3]. }
  by destruct (negb (r =? 0)).
Qed.

Lemma perm_entry_kept s h path : inv s h -> text path -> kept s (perm_entry path s).1 h.
Proof.
  intros I Ht. unfold perm_entry. destruct (vfs_perm_find path s); [by apply kept_refl|].
  pose proof (get_mode_kept s h path I Ht) as K. destruct (vfs_get_mode path s) as [s1 [m|]]; done.
Qed.

Lemma get_owner_kept s h path : inv s h -> text path -> kept s (vfs_get_owner path s).1 h.
Proof.
  intros I Ht. unfold vfs_get_owner. pose proof (perm_entry_kept s h path I Ht) as K.
  by destruct (perm_entry path s) as [s1 [i|]].
Qed.

Lemma dir_writable_kept s h path : inv s h -> text path -> kept s (dir_writable path s).1 h.
Proof.
  intros I Ht. unfold dir_writable. pose proof (get_mode_kept s h path I Ht) as K.
  destruct (vfs_get_mode path s) as [s1 [m|]]; [|done]. cbn [fst] in K.
  pose proof (get_owner_kept s1 h path (proj1 K) Ht) as K2.
  destruct (vfs_get_owner path s1) as [s2 [[u g]|]]; by eapply kept_trans.
Qed.

Lemma chmod_kept s h path mode : inv s h -> text path -> kept s (vfs_chmod path mode s).1 h.
Proof.
  intros I Ht. unfold vfs_chmod. pose proof (vfs_resolve_kept s h path I Ht) as Hr.
  destruct (vfs_resolve path s) as [s1 node]. destruct Hr as [F1 Hr]. destruct (node =? 0); [done|]. destruct Hr as [Hr _].
  destruct (default (0, 0) (vfs_perm_get_owner path s1)) as [uid gid].
  assert (forall s2, kept s1 s2 (temp s1 node ∪ h) -> kept s (release_node node s2) h) as Hfin.
  { intros s2 K2. pose proof (release_kept s2 node h (proj1 (has_kept s1 s2 node h h Hr K2 (proj1 (proj2 Hr))))) as K3.
    split; [apply K3|]. eapply frame_trans; [exact F1|]. eapply frame_trans; [apply K2|apply K3]. }
  destruct (_ && _); [apply Hfin, kept_refl, Hr|].
  pose proof (perm_set_kept s1 _ path (Z.land mode 511) uid gid (proj1 Hr)) as K2.
  destruct (vfs_perm_set _ _ _ _ s1) as [s2 r]. by destruct (negb (r =? 0)); apply Hfin.
Qed.

Lemma chown_kept s h path uid gid : inv s h -> text path -> kept s (vfs_chown path uid gid s).1 h.
Proof.
  intros I Ht. unfold vfs_chown. destruct (negb _); [by apply kept_refl|].
  pose proof (perm_entry_kept s h path I Ht) as K. destruct (perm_entry path s) as [s1 [i|]]; [|done].
  eapply kept_trans; [exact K|]. apply set_perm_kept, K.
Qed.

(** * Creation, removal, information *)

Lemma split_path_text path dir name : text path -> split_path path = Some (dir, name) -> text dir /\ text name.
Proof.
  intros Ht. unfold split_path. destruct (negb _); [done|]. destruct (_ <? 0); [done|]. destruct (rd _ 0 =? 0); [done|].
  intros [= <- <-]. split; [|by apply text_take, Forall_drop]. destruct (_ =? 0); [by repeat constructor|by apply text_take].
Qed.

Lemma create_returns s node name flags :
  store_ok (disk s) -> text name ->
  let '(d, p) := vfs_node_create node name flags (disk s) in returns (disk s) d p.
Proof.
  intros Hok Ht. unfold vfs_node_create. pose proof (returns_none (disk s) Hok) as Hnone.
  destruct (node =? 0); [done|].
  destruct (ramfs_create_spec (get_node (disk s) (vfs_effective (disk s) node)) name flags (disk s) Hok Ht) as [Ha Hb].
  by destruct (n_ops _).
Qed.

Lemma unlink_kept s h node name :
  inv s h -> text name -> kept s (s <| disk := (vfs_node_unlink node name (disk s)).1 |>) h.
Proof.
  intros I Ht. assert (store_ok (vfs_node_unlink node name (disk s)).1 /\
    nodes (vfs_node_unlink node name (disk s)).1 = nodes (disk s)) as [Hok En].
  { unfold vfs_node_unlink. pose proof (i_store _ _ I) as Hok. destruct (node =? 0); [done|].
    destruct (ramfs_unlink_spec (get_node (disk s) (vfs_effective (disk s) node)) name (disk s) Hok Ht) as [Ha Hb].
    destruct (ramfs_dir_unlink name (disk s)), (ramfs_vdir_unlink _ name (disk s)).
    by destruct (n_ops _). }
  apply disk_kept; [done|done|]. by rewrite En.
Qed.

Lemma has_zero s p h : has s p h -> p <> 0.
Proof. intros (I & _ & n & En). by destruct (so_nodes _ (i_store _ _ I) p n En). Qed.

Lemma create_kept s h path flags : inv s h -> text path -> kept s (vfs_create path flags s).1 h.
Proof.
  intros I Ht. unfold vfs_create. destruct (split_path path) as [[dir_buf name_buf]|] eqn:Es; [|by apply kept_refl].
  destruct (split_path_text path _ _ Ht Es) as [Htd Htn].
  pose proof (dir_writable_kept s h dir_buf I Htd) as K1. destruct (dir_writable dir_buf s) as [s1 ok]. cbn [fst] in K1.
  destruct (negb ok); [done|].
  pose proof (vfs_resolve_kept s1 h dir_buf (proj1 K1) Htd) as Hr. destruct (vfs_resolve dir_buf s1) as [s2 dir].
  destruct Hr as [F2 Hr]. pose proof (frame_trans _ _ _ (proj2 K1) F2) as F02.
  destruct (dir =? 0); [done|]. destruct Hr as [Hd Eo].
  pose proof (create_returns s2 dir name_buf flags (i_store _ _ (proj1 Hd)) Htn) as Hc.
  destruct (vfs_node_create dir name_buf flags (disk s2)) as [d result].
  destruct (returned_kept s2 d result _ (proj1 Hd) Hc) as [K3 Hnew]. set (s3 := s2 <| disk := d |>) in *.
  set (h3 := if result =? 0 then h else {[result]} ∪ h).
  assert ((if result =? 0 then temp s2 dir ∪ h else {[result]} ∪ (temp s2 dir ∪ h)) = temp s2 dir ∪ h3) as Eh.
  { unfold h3. destruct (result =? 0); set_solver. }
  rewrite Eh in K3.
  assert (dir ∉ h3) as Hdh.
  { unfold h3. destruct (Z.eqb_spec result 0) as [|Hne]; [apply Hd|].
    destruct Hc as [_ [[? _]|(_ & Hnone & _)]]; [done|]. destruct Hd as (_ & ? & n & En). set_solver. }
  destruct (has_kept s2 s3 dir h h3 Hd K3 Hdh) as [Hd3 Eo3]. specialize (Eo3 Eo).
  pose proof (free_kept s3 dir h3 (proj1 Hd3) Hdh Eo3) as K4. set (s4 := free_if_dynamic dir s3) in *.
  assert (frame s s4) as F04.
  { eapply frame_trans; [exact F02|]. eapply frame_trans; [apply K3|apply K4]. }
  destruct (Z.eqb_spec result 0) as [->|Hne]; [split; [apply K4|done]|]. unfold h3 in K4.
  pose proof (perm_set_kept s4 _ path (if has_flag flags VFS_FLAG_DIR then VFS_MODE_DIR_DEFAULT else VFS_MODE_FILE_DEFAULT)
    (task_current_euid s4) (task_current_egid s4) (proj1 K4)) as K5.
  destruct (vfs_perm_set _ _ _ _ s4) as [s5 r]. cbn [fst] in K5.
  destruct (i_held _ _ (proj1 K5) result ltac:(set_solver)) as (n5 & En5 & Hd5 & _).
  destruct (Hnew Hne) as (Hrh & _).
  assert (owned s5 result = {[result]}) as Eo5 by (unfold owned; by rewrite (node_at_lookup s5 _ _ En5), Hd5).
  pose proof (free_if_dynamic_kept s5 result h) as K6. rewrite Eo5 in K6.
  specialize (K6 (proj1 K5) ltac:(set_solver)).
  pose proof (invalidate_kept _ h (proj1 K6)) as K7.
  split; [apply K7|]. eapply frame_trans; [exact F04|]. eapply frame_trans; [apply K5|].
  eapply frame_trans; [apply K6|apply K7].
Qed.

Lemma delete_kept s h path : inv s h -> text path -> kept s (vfs_delete path s).1 h.
Proof.
  intros I Ht. unfold vfs_delete. destruct (split_path path) as [[dir_buf name_buf]|] eqn:Es; [|by apply kept_refl].
  destruct (split_path_text path _ _ Ht Es) as [Htd Htn].
  pose proof (dir_writable_kept s h dir_buf I Htd) as K1. destruct (dir_writable dir_buf s) as [s1 ok]. cbn [fst] in K1.
  destruct (negb ok); [done|].
  pose proof (vfs_resolve_kept s1 h dir_buf (proj1 K1) Htd) as Hr. destruct (vfs_resolve dir_buf s1) as [s2 dir].
  destruct Hr as [F2 Hr]. pose proof (frame_trans _ _ _ (proj2 K1) F2) as F02.
  destruct (dir =? 0); [done|]. destruct Hr as [Hd Eo].
  pose proof (unlink_kept s2 _ dir name_buf (proj1 Hd) Htn) as K3.
  destruct (vfs_node_unlink dir name_buf (disk s2)) as [d result]. cbn [fst] in K3.
  destruct (has_kept s2 _ dir h h Hd K3 (proj1 (proj2 Hd))) as [Hd3 Eo3].
  pose proof (free_kept _ dir h (proj1 Hd3) (proj1 (proj2 Hd3)) (Eo3 Eo)) as K4.
  set (s4 := free_if_dynamic dir (s2 <| disk := d |>)) in *.
  assert (kept s s4 h) as K04.
  { split; [apply K4|]. eapply frame_trans; [exact F02|]. eapply frame_trans; [apply K3|apply K4]. }
  destruct (result =? 0); [|done]. eapply kept_trans; [exact K04|].
  pose proof (perm_remove_kept s4 h path (proj1 K4)) as K5. eapply kept_trans; [exact K5|].
  apply invalidate_kept, K5.
Qed.

Lemma stat_kept s h path : inv s h -> text path -> kept s (vfs_stat path s).1 h.
Proof.
  intros I Ht. unfold vfs_stat. pose proof (vfs_resolve_kept s h path I Ht) as Hr.
  destruct (vfs_resolve path s) as [s1 node]. destruct Hr as [F1 Hr]. destruct (node =? 0); [done|]. destruct Hr as [Hd _].
  pose proof (get_mode_kept s1 _ path (proj1 Hd) Ht) as K2. destruct (vfs_get_mode path s1) as [s2 m]. cbn [fst] in K2.
  pose proof (get_owner_kept s2 _ path (proj1 K2) Ht) as K3. destruct (vfs_get_owner path s2) as [s3 o]. cbn [fst] in K3.
  destruct (default (0, 0) o) as [u g]. pose proof (kept_trans _ _ _ _ _ K2 K3) as K13.
  destruct (has_kept s1 s3 node h h Hd K13 (proj1 (proj2 Hd))) as [Hd3 _].
  pose proof (release_kept s3 node h Hd3) as K4. split; [apply K4|].
  eapply frame_trans; [exact F1|]. eapply frame_trans; [apply K13|apply K4].
Qed.

(** * Descriptors *)

Lemma store_set_node d p n n' :
  store_ok d -> nodes d !! p = Some n -> n_name n' = n_name n ->
  store_ok (d <| nodes := <[p := n']> (nodes d) |> : store H).
Proof.
  intros [Hfs Hsz Hd Hnm Hnodes] Hp En. constructor; try done; cbn. intros q m Hq.
  destruct (decide (q = p)) as [->|Hne].
  - rewrite lookup_insert_eq in Hq. injection Hq as <-. rewrite En. by apply (Hnodes p n).
  - rewrite lookup_insert_ne in Hq by done. by apply (Hnodes q m).
Qed.

Lemma tables_of_eq s s' k t : fd_tables s' = <[k := t]> (fd_tables s) ->
  forall k', table_of k' s' = table_of k' (set_table k t s).
Proof. intros E k'. unfold table_of. by rewrite E. Qed.

Lemma refs_step s s' k i e p :
  tables_ok s -> 0 <= k < TABLES -> 0 <= i < 32 -> fd_tables s' = <[k := (table_of k s).[i <- e]]> (fd_tables s) ->
  refs s' p = refs s p - b2z (points (table_of k s).[i] p) + b2z (points e p).
Proof.
  intros Ht Hk Hi E. rewrite <- (refs_set k i e s p Ht Hk Hi). by apply refs_tables.
Qed.

Lemma tables_step s s' k i e :
  tables_ok s -> fd_tables s' = <[k := (table_of k s).[i <- e]]> (fd_tables s) -> tables_ok s'.
Proof. intros Ht E k'. rewrite (tables_of_eq s s' _ _ E). by apply (tables_set k i e s Ht). Qed.

(** A free descriptor gets a node, whose count goes up. *)
Lemma attach_inv s s' h k i e p n :
  inv s (temp s p ∪ h) -> p ∉ h -> nodes (disk s) !! p = Some n ->
  0 <= k < TABLES -> 0 <= i < 32 -> fd_used (table_of k s).[i] = false -> fd_used e = true -> fd_node e = p ->
  disk s' = disk s <| nodes := <[p := n <| n_ref_count := n_ref_count n + 1 |>]> (nodes (disk s)) |> ->
  fd_tables s' = <[k := (table_of k s).[i <- e]]> (fd_tables s) ->
  current_table s' = current_table s -> g_tty_node s' = g_tty_node s -> mounts s' = mounts s ->
  dentry_cache s' = dentry_cache s ->
  (forall e, e ∈ vnode_cache s' -> v_used e = true -> e ∈ vnode_cache s \/ v_node e = p) ->
  inv s' h.
Proof.
  intros [I1 I2 I3 I4 I5 I6 I7 I8 I9 I10] Hp En Hk Hi Hfree Hu Hnode Ed Ef Ec Et Em Edc Hvc.
  assert (forall q, refs s' q = refs s q + (if decide (q = p) then 1 else 0)) as Er.
  { intros q. rewrite (refs_step s s' k i e q I2 Hk Hi Ef). unfold points. rewrite Hfree, Hu, Hnode. cbn [andb].
    unfold b2z. case_decide as Eq; [subst; rewrite Z.eqb_refl|rewrite (proj2 (Z.eqb_neq p q)) by done]; lia. }
  pose proof (fd_refs_nonneg s p) as Hrp.
  assert (p <> 0) as Hp0 by (by destruct (so_nodes _ I1 p n En)).
  assert (forall q, static_node s q -> static_node s' q) as Es.
  { intros q (m & Hq & Hs). unfold static_node. rewrite Ed; cbn. destruct (decide (q = p)) as [->|Hne].
    - eexists. rewrite lookup_insert_eq. split; [done|]. rewrite En in Hq. by injection Hq as <-.
    - exists m. by rewrite lookup_insert_ne. }
  assert (forall q, q ∈ temp s p ∪ h -> q = p \/ q ∈ h) as Htemp.
  { intros q. unfold temp. destruct (_ && _); set_solver. }
  constructor; try congruence.
  - rewrite Ed. by apply (store_set_node _ p n).
  - by apply (tables_step s s' k i e).
  - intros q m. rewrite Ed; cbn. unfold node_ok. rewrite Er. case_decide as Eq.
    + subst q. rewrite lookup_insert_eq. intros [= <-]. destruct (I4 p n En) as (? & Hc & _). cbn.
      split_and!; [done|lia|]. intros _ ?. lia.
    + rewrite lookup_insert_ne by done. intros Hq. rewrite Z.add_0_r. destruct (I4 q m Hq) as (? & ? & Hh).
      split_and!; try done. intros Hd0 Hr0. destruct (Htemp q (Hh Hd0 Hr0)); done.
  - intros q Hq. destruct (I5 q ltac:(set_solver)) as (m & Hm & Hd & Hr). exists m. rewrite Ed; cbn.
    assert (q <> p) by congruence. rewrite lookup_insert_ne by done. rewrite Er, decide_False by done. split_and!; try done. lia.
  - intros q. rewrite Er, Ed; cbn. case_decide as Eq.
    + subst q. intros _. split; [done|]. eexists. by rewrite lookup_insert_eq.
    + rewrite lookup_insert_ne by done. intros Hq. apply I6. lia.
  - intros c Hc Hcu. rewrite Er. destruct (Hvc c Hc Hcu) as [Hin|Hin].
    + pose proof (I7 c Hin Hcu). case_decide; lia.
    + rewrite Hin, decide_True by done. lia.
  - intros c. rewrite Edc. intros ? ? ?. by apply Es, I8.
  - intros m. rewrite Em. intros ? ?. by apply Es, I9.
  - rewrite Et. destruct I10 as [?|?]; [by left|right; by apply Es].
Qed.

(** A descriptor is closed: the count goes down, and the node goes when it was
    the last one and the node is on the heap. *)
Lemma detach_inv s s' h k i e' p n :
  inv s h -> nodes (disk s) !! p = Some n ->
  0 <= k < TABLES -> 0 <= i < 32 -> points (table_of k s).[i] p = true -> fd_used e' = false ->
  disk s' = (if dynamic n && (refs s p =? 1) then free_node p (disk s)
             else disk s <| nodes := <[p := n <| n_ref_count := n_ref_count n - 1 |>]> (nodes (disk s)) |>) ->
  fd_tables s' = <[k := (table_of k s).[i <- e']]> (fd_tables s) ->
  current_table s' = current_table s -> g_tty_node s' = g_tty_node s -> mounts s' = mounts s ->
  dentry_cache s' = dentry_cache s ->
  (forall e, e ∈ vnode_cache s' -> v_used e = true -> e ∈ vnode_cache s /\ (refs s p = 1 -> v_node e <> p)) ->
  inv s' h.
Proof.
  intros I En Hk Hi Hpt Hu Ed Ef Ec Et Em Edc Hvc. pose proof (refs_pos s k i p Hk Hi Hpt) as Hpos.
  destruct I as [I1 I2 I3 I4 I5 I6 I7 I8 I9 I10].
  assert (p ∉ h) as Hph. { intros Hin. destruct (I5 p Hin) as (_ & _ & _ & ?). lia. }
  assert (forall q, refs s' q = refs s q - (if decide (q = p) then 1 else 0)) as Er.
  { intros q. rewrite (refs_step s s' k i e' q I2 Hk Hi Ef). unfold points in *.
    apply andb_prop in Hpt as [-> Hn%Z.eqb_eq]. rewrite Hu, Hn. cbn [andb].
    unfold b2z. case_decide as Eq; [subst q; rewrite Z.eqb_refl|rewrite (proj2 (Z.eqb_neq p q)) by done]; lia. }
  assert (forall q, q <> p -> nodes (disk s') !! q = nodes (disk s) !! q) as Eother.
  { intros q Hq. rewrite Ed. destruct (dynamic n && _); cbn; [by rewrite lookup_delete_ne|by rewrite lookup_insert_ne]. }
  assert (nodes (disk s') !! p = if dynamic n && (refs s p =? 1) then None
            else Some (n <| n_ref_count := n_ref_count n - 1 |>)) as Ep.
  { rewrite Ed. destruct (dynamic n && _); cbn; [by rewrite lookup_delete_eq|by rewrite lookup_insert_eq]. }
  assert (forall q, static_node s q -> static_node s' q) as Es.
  { intros q (m & Hq & Hs). destruct (decide (q = p)) as [->|Hne].
    - rewrite En in Hq. injection Hq as <-. rewrite Hs in Ep. eexists. split; [exact Ep|done].
    - exists m. by rewrite Eother. }
  constructor; try congruence.
  - rewrite Ed. destruct (dynamic n && _); [by apply (free_node_ok p n)|by apply (store_set_node _ p n)].
  - by apply (tables_step s s' k i e').
  - intros q m Hq. unfold node_ok. rewrite Er. case_decide as Eq.
    + subst q. rewrite Ep in Hq. destruct (dynamic n && (refs s p =? 1)) eqn:Edyn; [done|]. injection Hq as <-.
      destruct (I4 p n En) as (? & Hc & _). cbn. split_and!; [done|lia|]. intros Hdn Hr1.
      unfold dynamic in *. cbn in Hdn. rewrite Hdn in Edyn. cbn in Edyn. apply Z.eqb_neq in Edyn. lia.
    + rewrite Eother in Hq by done. rewrite Z.sub_0_r. by apply I4.
  - intros q Hq. destruct (I5 q Hq) as (m & Hm & Hd & Hr). assert (q <> p) by congruence.
    exists m. rewrite Eother, Er, decide_False by done. split_and!; try done. lia.
  - intros q. rewrite Er. case_decide as Eq.
    + subst q. intros Hr. destruct (I6 p Hpos) as [? _]. split; [done|]. rewrite Ep.
      rewrite (proj2 (Z.eqb_neq (refs s p) 1)) by lia. rewrite andb_false_r. eauto.
    + intros Hq. rewrite Eother by done. apply I6. lia.
  - intros c Hc Hcu. destruct (Hvc c Hc Hcu) as [Hin Hne]. rewrite Er. pose proof (I7 c Hin Hcu) as Hcp.
    case_decide as Eq; [|lia]. rewrite Eq in *. destruct (decide (refs s p = 1)) as [E1|E1]; [by destruct (Hne E1)|lia].
  - intros c. rewrite Edc. intros ? ? ?. by apply Es, I8.
  - intros m. rewrite Em. intros ? ?. by apply Es, I9.
  - rewrite Et. destruct I10 as [?|?]; [by left|right; by apply Es].
Qed.

(** A descriptor changes but for its node. *)
Lemma retable_inv s s' h k i e :
  inv s h -> 0 <= k < TABLES -> 0 <= i < 32 ->
  fd_used e = fd_used (table_of k s).[i] -> fd_node e = fd_node (table_of k s).[i] ->
  s' = set_table k (table_of k s).[i <- e] s -> inv s' h.
Proof.
  intros [I1 I2 I3 I4 I5 I6 I7 I8 I9 I10] Hk Hi Eu En ->.
  assert (forall q, refs (set_table k (table_of k s).[i <- e] s) q = refs s q) as Er.
  { intros q. rewrite refs_set by done. unfold points. rewrite Eu, En. lia. }
  constructor; try done.
  - by apply tables_set.
  - intros p n Hp. unfold node_ok. rewrite Er. by apply I4.
  - intros p Hp. rewrite Er. by apply I5.
  - intros p. rewrite Er. by apply I6.
  - intros c Hc Hu. rewrite Er. by apply I7.
Qed.

(** ** Opening *)

(** States that differ in the vnode cache only. *)
Record recached s s' : Prop := Recached {
  rc_disk : disk s' = disk s; rc_fds : fd_tables s' = fd_tables s; rc_current : current_table s' = current_table s;
  rc_tty : g_tty_node s' = g_tty_node s; rc_caller : caller s' = caller s; rc_mounts : mounts s' = mounts s;
  rc_dentry : dentry_cache s' = dentry_cache s }.

Lemma set_vcache_elem s i e e' :
  e' ∈ vnode_cache (set_vcache i e s) -> e' = e \/ e' ∈ vnode_cache s.
Proof. apply elem_of_aset. Qed.

Lemma vcache_insert_spec path node s :
  recached s (vfs_vnode_cache_insert path node s) /\
  forall e, e ∈ vnode_cache (vfs_vnode_cache_insert path node s) -> v_used e = true -> e ∈ vnode_cache s \/ v_node e = node.
Proof.
  unfold vfs_vnode_cache_insert. destruct (_ || _); [split; [done|auto]|].
  destruct (find_vcache path s); [|destruct (_ <? 0); [split; [done|auto]|]].
  all: split; [done|]; intros e [->|?]%set_vcache_elem; auto.
Qed.

Lemma vcache_lookup_kept s h path :
  inv s h -> let '(s', p) := vfs_vnode_cache_lookup path s in
  kept s s' h /\ (p <> 0 -> 0 < refs s' p).
Proof.
  intros I. unfold vfs_vnode_cache_lookup. destruct (find_vcache path s) as [i|] eqn:E; [|split; [by apply kept_refl|done]].
  assert (0 < refs s (v_node (vnode_cache s).[i])) as Hr.
  { apply find_first_Some in E as (_ & [Hu _]%andb_prop & _). apply (i_vcache _ _ I); [|done]. by apply (aget_in v_used). }
  split; [|by intros _]. apply meta_kept; [exact I|reflexivity..| |apply I].
  intros e [->|Hin]%set_vcache_elem Hu; [exact Hr|by apply (i_vcache _ _ I)].
Qed.

Lemma take_ref_eq s p n :
  nodes (disk s) !! p = Some n -> p <> 0 -> 0 <= n_ref_count n <= 544 ->
  take_ref p s = set_node p (n <| n_ref_count := n_ref_count n + 1 |>) s.
Proof.
  intros En Hp Hc. unfold take_ref, vfs_node_ref. rewrite (node_at_lookup s p n En), (proj2 (Z.eqb_neq p 0)) by done.
  rewrite u32_small by lia. destruct (dynamic n); [|done]. destruct (Z.eqb_spec (n_ref_count n) 0) as [E|]; [|done].
  by rewrite E.
Qed.

Lemma recount n c : n <| n_ref_count := n_ref_count n + c |> <| n_ref_count := n_ref_count n |> = n.
Proof. by destruct n. Qed.

Lemma remove_node_spec p s :
  recached s (vfs_vnode_cache_remove_node p s) /\
  forall e, e ∈ vnode_cache (vfs_vnode_cache_remove_node p s) -> v_used e = true ->
    e ∈ vnode_cache s /\ (p <> 0 -> v_node e <> p).
Proof.
  unfold vfs_vnode_cache_remove_node. destruct (Z.eqb_spec p 0); [split; [done|auto]|]. split; [done|].
  cbn. intros e [x [Ex Hx]]%list_elem_of_fmap Hu. destruct (v_used x && (v_node x =? p)) eqn:Ec; subst e; [done|].
  split; [done|]. intros _ Ev. rewrite Hu, Ev, Z.eqb_refl in Ec. done.
Qed.

Lemma install_fd_inv s s2 h p n offset flags :
  has s p h -> nodes (disk s) !! p = Some n ->
  recached (set_node p (n <| n_ref_count := n_ref_count n + 1 |>) s) s2 ->
  (forall e, e ∈ vnode_cache s2 -> v_used e = true -> e ∈ vnode_cache s \/ v_node e = p) ->
  inv (install_fd p offset flags s2).1 h.
Proof.
  intros (I & Hph & _) En [Rd Rf Rc Rt Ra Rm Re] Hvc.
  assert (p <> 0) as Hp0 by (by destruct (so_nodes _ (i_store _ _ I) p n En)).
  destruct (i_nodes _ _ I p n En) as (_ & Hcnt & _). pose proof (fd_refs_nonneg s p) as Hnn.
  assert (forall k, table_of k s2 = table_of k s) as Etab by (intros; unfold table_of; by rewrite Rf).
  unfold install_fd. destruct (find_first _ _ _) as [i|] eqn:Ef.
  - apply find_first_Some in Ef as (Hi & Hu%negb_true_iff & _). change (Z.to_nat VFS_MAX_FD) with 32%nat in Hi.
    unfold fdt in Hu. rewrite Etab, Rc in Hu. cbn in Hu.
    apply (attach_inv s _ h (current_table s) i (FdEntry p offset flags true) p n); try done.
    + apply I.
    + cbn. unfold fdt. by rewrite Etab, Rf, Rc.
  - unfold vfs_node_unref. rewrite (proj2 (Z.eqb_neq p 0)) by done.
    assert (node_at s2 p = n <| n_ref_count := n_ref_count n + 1 |>) as En2.
    { unfold node_at, get_node. rewrite Rd. cbn. by rewrite lookup_total_insert_eq. }
    rewrite En2. cbn [n_ref_count update]. rewrite (proj2 (Z.ltb_lt 0 _)) by (cbn; lia).
    set (s3 := set_node p _ s2).
    assert (disk s3 = disk s) as Ed3.
    { unfold s3, set_node; cbn. rewrite Rd. cbn. replace (n_ref_count n + 1 - 1) with (n_ref_count n) by lia.
      assert (forall m, m = n -> disk s <| nodes := <[p := n <| n_ref_count := n_ref_count n + 1 |>]> (nodes (disk s)) |>
        <| nodes := <[p := m]> (<[p := n <| n_ref_count := n_ref_count n + 1 |>]> (nodes (disk s))) |> = disk s) as Hm.
      { intros m ->. rewrite insert_insert_eq, insert_id by done. by destruct (disk s). }
      apply Hm. by destruct n. }
    assert (node_at s3 p = n) as En3 by (unfold node_at, get_node; rewrite Ed3; by apply lookup_total_correct).
    rewrite En3. cbn [fst].
    destruct (Z.eqb_spec (n_ref_count n) 0) as [E0|E0].
    + destruct (remove_node_spec p s3) as [[Q1 Q2 Q3 Q4 Q5 Q6 Q7] Qe]. set (s4 := vfs_vnode_cache_remove_node p s3) in *.
      assert (kept s s4 (temp s p ∪ h)) as K.
      { apply meta_kept; [exact I|by rewrite Q1|rewrite Q2; exact Rf|rewrite Q3; exact Rc|rewrite Q4; exact Rt|
          rewrite Q5; exact Ra|rewrite Q6; exact Rm| |].
        - intros e He Hu. destruct (Qe e He Hu) as [Hin Hne]. destruct (Hvc e Hin Hu) as [?|?]; [by apply (i_vcache _ _ I)|].
          by destruct (Hne Hp0).
        - rewrite Q7. change (dentry_cache s3) with (dentry_cache s2). rewrite Re. apply I. }
      apply free_kept; [|done|].
      * replace (temp s4 p) with (temp s p); [apply K|]. unfold temp, node_at. by rewrite Q1, Ed3.
      * unfold owned, temp. replace (node_at s4 p) with n by (unfold node_at; rewrite Q1; by rewrite <- En3).
        rewrite E0. by rewrite andb_true_r.
    + assert (temp s p = ∅) as Et.
      { unfold temp. rewrite (node_at_lookup s p n En), (proj2 (Z.eqb_neq _ 0)) by done. by rewrite andb_false_r. }
      rewrite Et, (left_id_L ∅ (∪)) in I.
      apply (meta_kept s s3 h I); [exact Ed3|exact Rf|exact Rc|exact Rt|exact Ra|exact Rm| |].
      * intros e He Hu. destruct (Hvc e He Hu) as [?| ->]; [by apply (i_vcache _ _ I)|lia].
      * change (dentry_cache s3) with (dentry_cache s2). rewrite Re. apply I.
Qed.

Lemma fd_install_inv s h p flags : has s p h -> inv (vfs_fd_install_node p flags s).1 h.
Proof.
  intros Hs. pose proof (has_zero _ _ _ Hs) as Hp0. destruct Hs as (I & Hp & n & En). unfold vfs_fd_install_node.
  rewrite (proj2 (Z.eqb_neq p 0)) by done.
  destruct (i_nodes _ _ I p n En) as (_ & Hc & _). pose proof (fd_refs_nonneg s p). pose proof (refs_bound s p).
  rewrite (take_ref_eq s p n) by (done || lia).
  apply (install_fd_inv s _ h p n); [|exact En|by constructor|intros e He _; by left].
  split; [done|]. split; [done|by exists n].
Qed.

(** ** Closing *)

Lemma unref_close_inv s h k i :
  inv s h -> 0 <= k < TABLES -> 0 <= i < 32 -> fd_used (table_of k s).[i] = true ->
  let s1 := vfs_node_unref (fd_node (table_of k s).[i]) s in
  table_of k s1 = table_of k s /\ current_table s1 = current_table s /\
  inv (set_table k (table_of k s).[i <- FdEntry 0 0 0 false] s1) h.
Proof.
  intros I Hk Hi Hu. set (p := fd_node (table_of k s).[i]).
  assert (points (table_of k s).[i] p = true) as Hpt by (unfold points, p; by rewrite Hu, Z.eqb_refl).
  pose proof (refs_pos s k i p Hk Hi Hpt) as Hpos. destruct (i_fds _ _ I p Hpos) as [Hp0 [n En]].
  destruct (i_nodes _ _ I p n En) as (_ & Hc & _). cbv zeta.
  unfold vfs_node_unref. rewrite (proj2 (Z.eqb_neq p 0)) by done. rewrite (node_at_lookup s p n En).
  rewrite (proj2 (Z.ltb_lt 0 (n_ref_count n))) by lia.
  set (s1 := set_node p (n <| n_ref_count := n_ref_count n - 1 |>) s).
  assert (node_at s1 p = n <| n_ref_count := n_ref_count n - 1 |>) as En1
    by (unfold s1, node_at, get_node; cbn; by rewrite lookup_total_insert_eq).
  rewrite En1. change (n_ref_count (n <| n_ref_count := n_ref_count n - 1 |>)) with (n_ref_count n - 1).
  destruct (Z.eqb_spec (n_ref_count n - 1) 0) as [E1|E1].
  - destruct (remove_node_spec p s1) as [[Q1 Q2 Q3 Q4 Q5 Q6 Q7] Qe]. set (s2 := vfs_vnode_cache_remove_node p s1) in *.
    assert (node_at s2 p = n <| n_ref_count := n_ref_count n - 1 |>) as En2 by (unfold node_at; rewrite Q1; exact En1).
    assert (disk (free_if_dynamic p s2) = if dynamic n then free_node p (disk s) else disk s1) as Ed.
    { unfold free_if_dynamic. rewrite En2. change (dynamic (n <| n_ref_count := n_ref_count n - 1 |>)) with (dynamic n).
      destruct (dynamic n); [|exact Q1]. cbn. rewrite Q1. unfold free_node, s1; cbn. by rewrite delete_insert_eq. }
    assert (recached s2 (free_if_dynamic p s2 <| disk := disk s2 |>) /\ vnode_cache (free_if_dynamic p s2) = vnode_cache s2) as [[R1 R2 R3 R4 R5 R6 R7] R8].
    { unfold free_if_dynamic. destruct (dynamic (node_at s2 p)); (split; [by constructor|done]). }
    assert (fd_tables (free_if_dynamic p s2) = fd_tables s) as Ef by (etrans; [exact R2|exact Q2]).
    split; [unfold table_of; by rewrite Ef|]. split; [etrans; [exact R3|exact Q3]|].
    apply (detach_inv s _ h k i (FdEntry 0 0 0 false) p n); [exact I|exact En|exact Hk|exact Hi|exact Hpt|reflexivity|..].
    + change (disk (set_table k (table_of k s).[i <- FdEntry 0 0 0 false] (free_if_dynamic p s2))) with (disk (free_if_dynamic p s2)).
      rewrite Ed. rewrite (proj2 (Z.eqb_eq (refs s p) 1)) by lia. rewrite andb_true_r. by destruct (dynamic n).
    + cbn. by rewrite Ef.
    + etrans; [exact R3|exact Q3].
    + etrans; [exact R4|exact Q4].
    + etrans; [exact R6|exact Q6].
    + etrans; [exact R7|exact Q7].
    + cbn. rewrite R8. intros e He Hue. destruct (Qe e He Hue) as [? Hne]. split; [done|]. intros _. by apply Hne.
  - split; [done|]. split; [done|].
    apply (detach_inv s _ h k i (FdEntry 0 0 0 false) p n); [exact I|exact En|exact Hk|exact Hi|exact Hpt|reflexivity|..|];
      try reflexivity.
    + rewrite (proj2 (Z.eqb_neq (refs s p) 1)) by lia. rewrite andb_false_r. done.
    + intros e He Hue. split; [exact He|]. intros ?. lia.
Qed.

Lemma bad_fd_false fd : bad_fd fd = false -> 0 <= fd < 32.
Proof. unfold bad_fd, VFS_MAX_FD. intros ?. bool_to_prop. lia. Qed.

Lemma close_inv s h fd : inv s h -> inv (vfs_close fd s) h.
Proof.
  intros I. unfold vfs_close. destruct (bad_fd fd) eqn:Eb; [done|]. apply bad_fd_false in Eb.
  destruct (fd_used (fdt s).[fd]) eqn:Eu; [|done]. cbn [negb]. unfold fdt in *.
  destruct (unref_close_inv s h (current_table s) fd I (i_current _ _ I) Eb Eu) as (Et & Ec & I').
  unfold set_fd, fdt. rewrite Ec, Et. exact I'.
Qed.

Lemma close_all_inv s h k : inv s h -> 0 <= k < TABLES -> inv (vfs_task_fd_close_all k s) h.
Proof.
  intros I Hk. unfold vfs_task_fd_close_all.
  apply (for_loop_ind (fun _ s => inv s h)); [done|]. intros i t Hi It.
  destruct (fd_used (table_of k t).[i]) eqn:Eu; [|done]. cbn [negb].
  destruct (unref_close_inv t h k i It Hk ltac:(unfold VFS_MAX_FD in Hi; lia) Eu) as (Et & Ec & I').
  cbv zeta in *. by rewrite Et.
Qed.

(** ** Reading, writing, seeking *)

Lemma set_fd_inv s h fd e :
  inv s h -> 0 <= fd < 32 -> fd_used e = fd_used (fdt s).[fd] -> fd_node e = fd_node (fdt s).[fd] ->
  inv (set_fd fd e s) h.
Proof.
  intros I Hfd Eu En. by apply (retable_inv s _ h (current_table s) fd e); [|apply I|..].
Qed.

Lemma refs_set_fd s h fd e p :
  inv s h -> 0 <= fd < 32 -> fd_used e = fd_used (fdt s).[fd] -> fd_node e = fd_node (fdt s).[fd] ->
  refs (set_fd fd e s) p = refs s p.
Proof.
  intros I Hfd Eu En. unfold set_fd, fdt in *. rewrite refs_set; [|apply I|apply I|done].
  unfold points. rewrite Eu, En. lia.
Qed.

Lemma advance_inv s h fd d : inv s h -> 0 <= fd < 32 -> inv (advance fd d s) h.
Proof. intros I Hfd. by apply set_fd_inv. Qed.

Lemma vfs_read_inv s h fd size : inv s h -> inv (vfs_read fd size s).1.1 h.
Proof.
  intros I. unfold vfs_read. destruct (bad_fd fd) eqn:Eb; [done|]. apply bad_fd_false in Eb.
  destruct (size =? 0); [done|]. destruct (negb _); [done|]. destruct (negb _); [done|].
  assert (forall r, r = vfs_node_read (fd_node (fdt s).[fd]) (fd_offset (fdt s).[fd]) size (disk s) ->
    store_ok r.1.1 /\ nodes r.1.1 = nodes (disk s)) as Hr.
  { intros r ->. unfold vfs_node_read. pose proof (i_store _ _ I) as Hok. destruct (_ || _); [done|].
    destruct (n_ops _); try done.
    pose proof (ramfs_file_read_ok (get_node (disk s) (vfs_effective (disk s) (fd_node (fdt s).[fd])))
      (fd_offset (fdt s).[fd]) size (disk s) Hok) as Hf.
    destruct (ramfs_file_read _ _ _ _) as [[d r] b]. by destruct Hf as (? & ? & _). }
  specialize (Hr _ eq_refl). destruct (vfs_node_read _ _ _ _) as [[d r] b]. cbn [fst] in Hr. destruct Hr as [Hok En].
  assert (inv (s <| disk := d |>) h) as I1 by (apply disk_kept; [done|done|by rewrite En]).
  cbn. destruct (0 <? r); [by apply advance_inv|done].
Qed.

Lemma set_size_inv s h p z : inv s h -> present s p -> inv (set_node p (node_at s p <| n_size := z |>) s) h.
Proof.
  intros I (n & En). rewrite (node_at_lookup s p n En).
  apply (disk_kept s (disk s <| nodes := <[p := n <| n_size := z |>]> (nodes (disk s)) |>) h I).
  - by apply (store_set_node _ p n); [apply I|..].
  - intros q. cbn. destruct (decide (q = p)) as [->|Hne]; [|by rewrite lookup_insert_ne].
    rewrite lookup_insert_eq, En. done.
Qed.

Lemma fd_present s h fd : inv s h -> 0 <= fd < 32 -> fd_used (fdt s).[fd] = true -> present s (fd_node (fdt s).[fd]).
Proof.
  intros I Hfd Hu. apply (i_fds _ _ I). apply (refs_pos s (current_table s) fd); [apply I|done|].
  unfold points. unfold fdt in Hu |- *. by rewrite Hu, Z.eqb_refl.
Qed.

Lemma node_write_kept s h p n offset size buf :
  inv s h -> nodes (disk s) !! p = Some n -> 0 <= size <= Z.of_nat (length buf) -> size < 1073741824 ->
  kept s (s <| disk := (vfs_node_write p offset size buf (disk s)).1 |>) h.
Proof.
  intros I En Hs Hs1. assert (vfs_effective (disk s) p = p) as Ee.
  { unfold vfs_effective, get_node. rewrite (lookup_total_correct _ _ _ En).
    destruct (i_nodes _ _ I p n En) as (-> & _). by rewrite andb_false_r. }
  assert (s <| disk := disk s |> = s) as Es by (by destruct s).
  unfold vfs_node_write. rewrite Ee. destruct (_ || _); [cbn [fst]; rewrite Es; by apply kept_refl|].
  destruct (n_ops _); try (cbn [fst]; rewrite Es; by apply kept_refl).
  pose proof (ramfs_file_write_ok p n offset size buf (disk s) (i_store _ _ I) En Hs Hs1) as Hw.
  destruct (ramfs_file_write _ _ _ _ _) as [d r]. destruct Hw as (Hok & _ & z & Ez).
  apply disk_kept; [done|done|]. intros q. cbn [fst]. rewrite Ez.
  destruct (decide (q = p)) as [->|Hne]; [|by rewrite lookup_insert_ne]. by rewrite lookup_insert_eq, En.
Qed.

Lemma vfs_write_inv s h fd buf size :
  inv s h -> 0 <= size <= Z.of_nat (length buf) -> size < 1073741824 -> inv (vfs_write fd buf size s).1 h.
Proof.
  intros I Hs Hs1. unfold vfs_write. destruct (bad_fd fd) eqn:Eb; [done|]. apply bad_fd_false in Eb.
  destruct (size =? 0); [done|]. destruct (fd_used (fdt s).[fd]) eqn:Eu; [|done]. cbn [negb]. destruct (negb _); [done|].
  set (e1 := if _ && _ then _ else (fdt s).[fd]).
  assert (fd_used e1 = true /\ fd_node e1 = fd_node (fdt s).[fd]) as [Eu1 En1] by (unfold e1; by destruct (_ && _)).
  assert (inv (set_fd fd e1 s) h) as I1 by (apply set_fd_inv; [done|done|congruence|done]).
  set (s1 := set_fd fd e1 s) in *. destruct (fd_present s h fd I Eb Eu) as [n En].
  pose proof (node_write_kept s1 h (fd_node (fdt s).[fd]) n (fd_offset e1) size buf I1 En Hs Hs1) as K.
  destruct (vfs_node_write _ _ _ _ (disk s1)) as [d r]. cbn [fst] in K.
  destruct (0 <? r); [|apply K]. cbn [fst].
  assert (inv (advance fd r (s1 <| disk := d |>)) h) as I2 by (apply advance_inv; [apply K|done]).
  destruct (fd_node (fdt s).[fd] =? 0); [done|]. apply set_size_inv; [done|].
  change (present (s1 <| disk := d |>) (fd_node (fdt s).[fd])).
  assert (0 < refs s1 (fd_node (fdt s).[fd])) as Hpos.
  { unfold s1. rewrite (refs_set_fd s h) by (done || congruence).
    apply (refs_pos s (current_table s) fd); [apply I|done|]. unfold points. unfold fdt in Eu |- *.
    by rewrite Eu, Z.eqb_refl. }
  destruct (f_nodes _ _ (proj2 K) _ n En (or_intror Hpos)) as (n' & ? & _). by exists n'.
Qed.

Lemma seek_inv s h fd offset whence : inv s h -> inv (vfs_seek fd offset whence s).1 h.
Proof.
  intros I. unfold vfs_seek. destruct (bad_fd fd) eqn:Eb; [done|]. apply bad_fd_false in Eb. destruct (negb _); [done|].
  match goal with |- context [match ?o with Some _ => _ | None => _ end] => destruct o end; [|done].
  by apply set_fd_inv.
Qed.
End inv.
