(* ===== verification/VfsSys.v ===== *)
(** The VFS as a system of calls: opening, standard descriptors, inheritance,
    mounts and renaming keep the invariant of [VfsInv], hence so does every
    sequence of calls of all contexts. *)
From S2P Require Import Prelude.
From S2P Require Import Interfaces.
From S2P Require Import KString.
From S2P Require Import Vnode.
From S2P Require Import Fs.
From S2P Require Import Ramfs.
From S2P Require Import Task.
From S2P Require Import Vfs.
From S2P Require Import VfsInv.
From Stdlib Require Import ZArith Lia.
From stdpp Require Import base numbers list gmap relations.

Open Scope Z_scope.
Open Scope lyth_scope.

#[local] Opaque countb.

Section sys.
Context {H : Type} `{KAllocatorLaws H} `{!SmallBlocks H}.
Implicit Types s : vfs H.
Implicit Types h : gset Z.

(** ** Opening *)

Lemma has_ref s p h : inv s h -> 0 < refs s p -> has s p h.
Proof.
  intros I Hr. destruct (i_fds _ _ I p Hr) as [Hp [n En]]. destruct (i_nodes _ _ I p n En) as (_ & Hc & _).
  assert (temp s p = ∅) as Et.
  { unfold temp. rewrite (node_at_lookup s p n En), Hc, (proj2 (Z.eqb_neq (refs s p) 0)) by lia. by rewrite andb_false_r. }
  split; [by rewrite Et, (left_id_L ∅ (∪))|]. split; [|by exists n].
  intros Hin. destruct (i_held _ _ I p Hin) as (_ & _ & _ & ?). lia.
Qed.

Lemma truncate_inv s node h path :
  has s node h -> text path ->
  let '(s', r) := truncate path node s in if r =? 0 then inv s' h else has s' r h.
Proof.
  intros Hn Ht. unfold truncate. pose proof (release_kept s node h Hn) as K1.
  pose proof (delete_kept _ h path (proj1 K1) Ht) as K2. destruct (vfs_delete path (release_node node s)) as [s2 r]. cbn [fst] in K2.
  destruct (negb (r =? 0)); [apply K2|].
  pose proof (create_kept s2 h path VFS_FLAG_FILE (proj1 K2) Ht) as K3. destruct (vfs_create path VFS_FLAG_FILE s2) as [s3 r3].
  cbn [fst] in K3. destruct (negb (r3 =? 0)); [apply K3|].
  pose proof (vfs_resolve_kept s3 h path (proj1 K3) Ht) as K4. destruct (vfs_resolve path s3) as [s4 r4].
  destruct K4 as [_ K4]. destruct (r4 =? 0); [done|apply K4].
Qed.

Lemma open_node_inv s node h path flags :
  has s node h -> text path -> inv (open_node path flags node s).1 h.
Proof.
  intros Hn Ht. unfold open_node.
  pose proof (get_mode_kept s _ path (proj1 Hn) Ht) as K1. destruct (vfs_get_mode path s) as [s1 mode]. cbn [fst] in K1.
  destruct (has_kept s s1 node h h Hn K1 (proj1 (proj2 Hn))) as [H1n _].
  destruct mode as [mode|]; [|apply release_kept, H1n].
  pose proof (get_owner_kept s1 _ path (proj1 H1n) Ht) as K2. destruct (vfs_get_owner path s1) as [s2 owner]. cbn [fst] in K2.
  destruct (has_kept s1 s2 node h h H1n K2 (proj1 (proj2 H1n))) as [H2n _].
  destruct owner as [[uid gid]|]; [|apply release_kept, H2n].
  destruct (negb (open_allowed _ _ _ _ _ _)); [apply release_kept, H2n|].
  set (cond := _ && _ && _).
  assert (let '(s', r) := if cond then truncate path node s2 else (s2, node) in if r =? 0 then inv s' h else has s' r h) as Hr.
  { destruct cond; [by apply truncate_inv|]. pose proof (has_zero _ _ _ H2n). by rewrite (proj2 (Z.eqb_neq node 0)). }
  destruct (if cond then _ else _) as [s3 r]. destruct (r =? 0) eqn:Er; [done|]. apply Z.eqb_neq in Er.
  destruct Hr as (I3 & Hrh & n & En). destruct (i_nodes _ _ I3 r n En) as (_ & Hc & _).
  pose proof (fd_refs_nonneg s3 r). pose proof (refs_bound s3 r). rewrite (take_ref_eq s3 r n) by (done || lia).
  destruct (vcache_insert_spec path r (set_node r (n <| n_ref_count := n_ref_count n + 1 |>) s3)) as [Rc Rv].
  apply (install_fd_inv s3 _ h r n); [by split; [|split; [|exists n]]|exact En|exact Rc|exact Rv].
Qed.

Lemma open_inv s path flags : inv s ∅ -> text path -> inv (vfs_open_flags path flags s).1 ∅.
Proof.
  intros I Ht. unfold vfs_open_flags. pose proof (vcache_lookup_kept s ∅ path I) as K1.
  destruct (vfs_vnode_cache_lookup path s) as [s1 n1]. destruct K1 as [K1 Hn1].
  assert (let '(s', r) := if n1 =? 0 then vfs_resolve path s1 else (s1, n1) in if r =? 0 then inv s' ∅ else has s' r ∅) as Hr.
  { destruct (n1 =? 0) eqn:E0.
    - pose proof (vfs_resolve_kept s1 ∅ path (proj1 K1) Ht) as K2. destruct (vfs_resolve path s1) as [s2 r].
      destruct K2 as [_ K2]. destruct (r =? 0); [done|apply K2].
    - rewrite E0. apply Z.eqb_neq in E0. apply has_ref; [apply K1|by apply Hn1]. }
  destruct (if n1 =? 0 then _ else _) as [s2 node].
  destruct (node =? 0) eqn:E0; cbn [negb andb].
  - destruct (has_flag _ VFS_O_CREAT); [|done].
    pose proof (create_kept s2 ∅ path VFS_FLAG_FILE Hr Ht) as K3. destruct (vfs_create path VFS_FLAG_FILE s2) as [s3 r3].
    cbn [fst] in K3. destruct (negb (r3 =? 0)); [apply K3|].
    pose proof (vfs_resolve_kept s3 ∅ path (proj1 K3) Ht) as K4. destruct (vfs_resolve path s3) as [s4 r4].
    destruct K4 as [_ K4]. destruct (r4 =? 0); [done|]. apply open_node_inv; [apply K4|done].
  - destruct (has_flag _ VFS_O_CREAT && has_flag _ VFS_O_EXCL); [by apply release_kept|]. by apply open_node_inv.
Qed.

(** ** Tables *)

Lemma swap_inv s h k i e :
  inv s h -> 0 <= k < TABLES -> 0 <= i < 32 -> (forall p, points e p = points (table_of k s).[i] p) ->
  inv (set_table k (table_of k s).[i <- e] s) h.
Proof.
  intros [I1 I2 I3 I4 I5 I6 I7 I8 I9 I10] Hk Hi Ep.
  assert (forall q, refs (set_table k (table_of k s).[i <- e] s) q = refs s q) as Er.
  { intros q. rewrite refs_set by done. rewrite Ep. lia. }
  constructor; try done.
  - by apply tables_set.
  - intros p n Hp. unfold node_ok. rewrite Er. by apply I4.
  - intros p Hp. rewrite Er. by apply I5.
  - intros p. rewrite Er. by apply I6.
  - intros c Hc Hu. rewrite Er. by apply I7.
Qed.

Definition all_free s (k : Z) : Prop := forall i, 0 <= i < 32 -> fd_used (table_of k s).[i] = false.

Lemma blank_inv s h k t :
  inv s h -> 0 <= k < TABLES -> all_free s k -> length t = 32%nat -> (forall i, 0 <= i < 32 -> fd_used t.[i] = false) ->
  inv (set_table k t s) h.
Proof.
  intros [I1 I2 I3 I4 I5 I6 I7 I8 I9 I10] Hk Hfree Hlen Ht.
  assert (forall q, refs (set_table k t s) q = refs s q) as Er.
  { intros q. unfold refs. apply countb_ext. intros j Hj. unfold slot_of. rewrite table_of_set. case_decide as E; [|done].
    pose proof (Z.mod_pos_bound j 32 ltac:(lia)). unfold points. rewrite E, Ht, (Hfree (j mod 32)) by lia. done. }
  constructor; try done.
  - intros k'. rewrite table_of_set. case_decide; [done|apply I2].
  - intros p n Hp. unfold node_ok. rewrite Er. by apply I4.
  - intros p Hp. rewrite Er. by apply I5.
  - intros p. rewrite Er. by apply I6.
  - intros c Hc Hu. rewrite Er. by apply I7.
Qed.

(** One more descriptor for a node that exists already, static or referred to. *)
Lemma share_inv s h k i e p :
  inv s h -> 0 <= k < TABLES -> 0 <= i < 32 -> fd_used (table_of k s).[i] = false ->
  fd_used e = true -> fd_node e = p -> static_node s p \/ 0 < refs s p ->
  inv (set_table k (table_of k s).[i <- e] (vfs_node_ref p s)) h.
Proof.
  intros I Hk Hi Hfree Hu En Hor.
  assert (present s p /\ temp s p = ∅ /\ p ∉ h) as ([n Hn] & Et & Hph).
  { destruct Hor as [(n & Hn & Hd)|Hr].
    - split; [by exists n|]. split; [unfold temp; by rewrite (node_at_lookup s p n Hn), Hd|].
      intros Hin. destruct (i_held _ _ I p Hin) as (n' & ? & ? & _). congruence.
    - destruct (has_ref s p h I Hr) as (_ & ? & ?). split; [done|]. split; [|done].
      destruct (i_fds _ _ I p Hr) as [_ [n Hn]]. destruct (i_nodes _ _ I p n Hn) as (_ & Hc & _).
      unfold temp. rewrite (node_at_lookup s p n Hn), Hc, (proj2 (Z.eqb_neq (refs s p) 0)) by lia. by rewrite andb_false_r. }
  assert (p <> 0) as Hp0 by (by destruct (so_nodes _ (i_store _ _ I) p n Hn)).
  destruct (i_nodes _ _ I p n Hn) as (_ & Hc & _). pose proof (fd_refs_nonneg s p). pose proof (refs_bound s p).
  assert (vfs_node_ref p s = set_node p (n <| n_ref_count := n_ref_count n + 1 |>) s) as ->.
  { unfold vfs_node_ref. rewrite (proj2 (Z.eqb_neq p 0)) by done. rewrite (node_at_lookup s p n Hn). by rewrite u32_small by lia. }
  apply (attach_inv s _ h k i e p n);
    [by rewrite Et, (left_id_L ∅ (∪))|exact Hph|exact Hn|exact Hk|exact Hi|exact Hfree|exact Hu|exact En|reflexivity..|].
  intros c Hin _. by left.
Qed.

Lemma install_stdio_inv s h k : inv s h -> 0 <= k < TABLES -> inv (vfs_install_stdio k s) h.
Proof.
  intros I Hk. unfold vfs_install_stdio. destruct (Z.eqb_spec (g_tty_node s) 0) as [|Hne]; [done|].
  apply (for_loop_ind (fun _ t => inv t h /\ g_tty_node t <> 0)); [done|]. intros i t Hi [It Ht].
  destruct (fd_used (table_of k t).[i]) eqn:Eu; [done|].
  assert (g_tty_node (vfs_node_ref (g_tty_node t) t) = g_tty_node t /\
          table_of k (vfs_node_ref (g_tty_node t) t) = table_of k t) as [Eg Etab]
    by (unfold vfs_node_ref; by destruct (_ =? 0)).
  cbv zeta. rewrite Eg, Etab. split; [|by cbn; rewrite Eg].
  apply share_inv; try done; [lia|]. left. by destruct (i_tty _ _ It).
Qed.

Lemma repeat_blank i : fd_used (repeat (FdEntry 0 0 0 false) 32).[i] = false.
Proof.
  unfold aget. destruct (repeat (FdEntry 0 0 0 false) 32 !! Z.to_nat i) as [e|] eqn:E.
  - rewrite (list_lookup_total_correct _ _ _ E). apply list_elem_of_lookup_2, elem_of_repeat in E. by subst.
  - by rewrite list_lookup_total_alt, E.
Qed.

Lemma fd_init_inv s h k : inv s h -> 0 <= k < TABLES -> all_free s k -> inv (vfs_task_fd_init k s) h.
Proof.
  intros I Hk Hf. apply install_stdio_inv; [|done]. apply blank_inv; try done. intros i _. apply repeat_blank.
Qed.

Lemma inherit_inv s h dst src :
  inv s h -> 0 <= dst < TABLES -> 0 <= src < TABLES -> dst <> src -> all_free s dst ->
  inv (vfs_task_fd_inherit dst src s) h.
Proof.
  intros I Hd Hs Hne Hfree. unfold vfs_task_fd_inherit. change (Z.to_nat VFS_MAX_FD) with 32%nat.
  pose (P := fun i t => inv t h /\ forall j, i <= j < 32 -> fd_used (table_of dst t).[j] = false).
  enough (P (0 + Z.of_nat 32) (for_loop (fun i s =>
    let e := (table_of src s).[i] in
    let s := set_table dst (table_of dst s).[i <- e] s in
    if fd_used e && negb (fd_node e =? 0) then vfs_node_ref (fd_node e) s else s) 32 0 s)) as [? _] by done.
  apply (for_loop_ind P); [split; [done|]; intros; by apply Hfree|].
  intros i t Hi [It Ht]. cbv zeta. set (e := (table_of src t).[i]).
  assert (forall j, i + 1 <= j < 32 -> (table_of dst (set_table dst (table_of dst t).[i <- e] t)).[j] = (table_of dst t).[j]) as Ej.
  { intros j Hj. rewrite table_of_set, decide_True by done. by rewrite aget_aset_ne by lia. }
  destruct (fd_used e) eqn:Eu; cbn [andb].
  - assert (0 < refs t (fd_node e)) as Hr.
    { apply (refs_pos t src i); [done|lia|]. unfold points. fold e. by rewrite Eu, Z.eqb_refl. }
    destruct (i_fds _ _ It _ Hr) as [Hn0 _]. rewrite (proj2 (Z.eqb_neq (fd_node e) 0)) by done. cbn [negb].
    assert (vfs_node_ref (fd_node e) (set_table dst (table_of dst t).[i <- e] t) =
            set_table dst (table_of dst t).[i <- e] (vfs_node_ref (fd_node e) t)) as ->.
    { unfold vfs_node_ref. by destruct (_ =? 0). }
    split.
    + apply share_inv; [done|done|lia|apply Ht; lia|done|done|by right].
    + intros j Hj. rewrite <- (Ht j) by lia. rewrite <- (Ej j) by lia. unfold table_of, vfs_node_ref. by destruct (_ =? 0).
  - split.
    + apply swap_inv; [done|done|lia|]. intros p. unfold points. rewrite Eu, (Ht i) by lia. done.
    + intros j Hj. rewrite Ej by lia. apply Ht. lia.
Qed.
(** ** Mounts and renaming *)

Lemma mount_inv s h path root :
  inv s h -> static_node s root -> inv (vfs_mount path root s).1 h.
Proof.
  intros I Hst. unfold vfs_mount. destruct (root =? 0); [done|].
  destruct (find_first _ _ _) as [i|]; [|done].
  set (s1 := s <| mounts := _ |>).
  assert (inv s1 h) as I1.
  { destruct I as [I1 I2 I3 I4 I5 I6 I7 I8 I9 I10]. constructor; try done.
    intros m [->|Hin]%elem_of_aset Hu; [exact Hst|by apply I9]. }
  pose proof (perm_set_kept s1 h (bounded VFS_PATH_MAX path)
    (vfs_default_mode_for_path (bounded VFS_PATH_MAX path) (n_flags (node_at s1 root))) 0 0 I1) as K2.
  destruct (vfs_perm_set _ _ _ _ s1) as [s2 r]. apply invalidate_kept, K2.
Qed.

Lemma read_length s h fd size : inv s h -> 0 < size < 2147483648 ->
  let '(s', n, buf) := vfs_read fd size s in n <= Z.of_nat (length buf) /\ n <= size.
Proof.
  intros I Hs. unfold vfs_read. destruct (bad_fd fd); [cbn; lia|]. rewrite (proj2 (Z.eqb_neq size 0)) by lia.
  destruct (negb _); [cbn; lia|]. destruct (negb _); [cbn; lia|].
  assert (let '(d, r, b) := vfs_node_read (fd_node (fdt s).[fd]) (fd_offset (fdt s).[fd]) size (disk s) in
    r <= Z.of_nat (length b) /\ r <= size) as Hr; [|by destruct (vfs_node_read _ _ _ _) as [[d r] b]].
  unfold vfs_node_read. destruct (_ || _); [cbn; lia|].
  destruct (n_ops _); try (cbn; lia). apply ramfs_file_read_length; [apply I|done].
Qed.

Lemma rename_copy_inv h src dst fuel : forall copied s, inv s h -> inv (rename_copy fuel src dst copied s).1 h.
Proof.
  induction fuel as [|fuel IH]; intros copied s I; [done|]. cbn [rename_copy].
  pose proof (vfs_read_inv s h src 512 I) as I1. pose proof (read_length s h src 512 I ltac:(lia)) as Hl.
  destruct (vfs_read src 512 s) as [[s1 n] buf]. cbn [fst] in I1.
  destruct (Z.ltb_spec n 0); [done|]. destruct (n =? 0); [done|].
  pose proof (vfs_write_inv s1 h dst buf n I1 ltac:(lia) ltac:(lia)) as I2.
  destruct (vfs_write dst buf n s1) as [s2 w]. destruct (negb _); [done|]. by apply IH.
Qed.

Lemma rename_target_inv s h path : inv s h -> text path -> inv (rename_target path s).1 h.
Proof.
  intros I Ht. unfold rename_target. pose proof (create_kept s h path VFS_FLAG_FILE I Ht) as [K1 _].
  destruct (vfs_create path _ s) as [s1 r1]. destruct (r1 =? 0); [done|].
  pose proof (delete_kept s1 h path K1 Ht) as [K2 _]. destruct (vfs_delete path s1) as [s2 r2]. destruct (negb _); [done|].
  pose proof (create_kept s2 h path VFS_FLAG_FILE K2 Ht) as [K3 _]. by destruct (vfs_create path _ s2) as [s3 r3].
Qed.

Lemma rename_finish_inv s h old new mode : inv s h -> text old -> inv (rename_finish old new mode s).1 h.
Proof.
  intros I Ht. unfold rename_finish. pose proof (delete_kept s h old I Ht) as [K1 _].
  destruct (vfs_delete old s) as [s1 r]. destruct (negb _); [done|]. apply invalidate_kept.
  destruct (mode =? 0); [done|]. destruct (default (0, 0) _) as [u g]. by apply perm_set_kept.
Qed.

Lemma rename_inv s old new : inv s ∅ -> text old -> text new -> inv (vfs_rename old new s).1 ∅.
Proof.
  intros I To Tn. unfold vfs_rename, vfs_open. destruct (str_equals old new); [done|].
  destruct (split_path old) as [[od on]|] eqn:Eo; [|done]. destruct (split_path new) as [[nd nn]|] eqn:En; [|done].
  pose proof (dir_writable_kept s ∅ od I (proj1 (split_path_text _ _ _ To Eo))) as [I1 _].
  destruct (dir_writable od s) as [s1 ok1]. destruct (negb ok1); [done|].
  pose proof (dir_writable_kept s1 ∅ nd I1 (proj1 (split_path_text _ _ _ Tn En))) as [I2 _].
  destruct (dir_writable nd s1) as [s2 ok2]. destruct (negb ok2); [done|].
  pose proof (get_mode_kept s2 ∅ old I2 To) as [I3 _]. destruct (vfs_get_mode old s2) as [s3 mode].
  pose proof (open_inv s3 old VFS_O_RDWR I3 To) as I4. destruct (vfs_open_flags old _ s3) as [s4 src].
  destruct (src <? 0); [done|]. destruct (_ && _); [by apply close_inv|].
  pose proof (rename_target_inv s4 ∅ new I4 Tn) as I5. destruct (rename_target new s4) as [s5 ok5].
  destruct (negb ok5); [by apply close_inv|].
  pose proof (open_inv s5 new VFS_O_RDWR I5 Tn) as I6. destruct (vfs_open_flags new _ s5) as [s6 dst].
  destruct (dst <? 0); [by apply close_inv|]. cbv zeta. set (fuel := S _).
  pose proof (rename_copy_inv ∅ src dst fuel false s6 I6) as I7. destruct (rename_copy fuel src dst false s6) as [s7 copied].
  pose proof (close_inv _ ∅ src (close_inv s7 ∅ dst I7)) as I8. destruct copied as [copied|]; [|done].
  apply rename_finish_inv; [|done]. destruct (negb copied); [|done].
  pose proof (open_inv _ new VFS_O_RDWR I8 Tn) as I9. destruct (vfs_open_flags new _ _) as [s9 fd9].
  destruct (0 <=? fd9); [by apply close_inv|done].
Qed.
(** A message queue makes a node for itself and opens it. *)
Definition install_new (n : vfs_node) (flags : Z) s : vfs H * Z :=
  let '(d, p) := kmalloc_node n (disk s) in vfs_fd_install_node p flags (s <| disk := d |>).

Definition fresh_node (n : vfs_node) : Prop :=
  dynamic n = true /\ n_ref_count n = 0 /\ n_mountpoint n = 0 /\ text (n_name n).

Lemma install_new_inv s h n flags : inv s h -> fresh_node n -> inv (install_new n flags s).1 h.
Proof.
  intros I (Hd & Hr & Hm & Ht). unfold install_new.
  pose proof (kmalloc_node_spec n (disk s) (i_store _ _ I) Ht Hd Hr Hm) as Hret.
  destruct (kmalloc_node n (disk s)) as [d p]. destruct (returned_kept s d p h I Hret) as [[I1 _] Hp].
  destruct (Z.eqb_spec p 0) as [->|Hne]; [done|]. destruct (Hp Hne) as (Hph & Hdyn & n' & En).
  assert (owned (s <| disk := d |>) p = {[p]}) as Eo by (unfold owned; by rewrite Hdyn).
  assert (present (s <| disk := d |>) p) as Hpr by (by exists n').
  apply fd_install_inv. split; [|done]. rewrite (owned_temp _ p h); [by rewrite Eo|by rewrite Eo|done].
Qed.

(** ** Sequences of calls *)

Inductive call :=
  | Open (path : list Z) (flags : Z) | Close (fd : Z)
  | Read (fd size : Z) | Write (fd : Z) (buf : list Z) (size : Z) | Seek (fd offset whence : Z)
  | Create (path : list Z) (flags : Z) | Delete (path : list Z) | Rename (old new : list Z)
  | StatPath (path : list Z) | Chmod (path : list Z) (mode : Z) | Chown (path : list Z) (uid gid : Z)
  | InstallNew (n : vfs_node) (flags : Z) | MountAt (path : list Z) (root : Z) | SetTty (node : Z)
  | FdInit (k : Z) | FdCloseAll (k : Z) | FdInherit (dst src : Z) | Switch (k : Z) (c : option creds).

Definition run (c : call) s : vfs H :=
  match c with
  | Open path flags => (vfs_open_flags path flags s).1
  | Close fd => vfs_close fd s
  | Read fd size => (vfs_read fd size s).1.1
  | Write fd buf size => (vfs_write fd buf size s).1
  | Seek fd offset whence => (vfs_seek fd offset whence s).1
  | Create path flags => (vfs_create path flags s).1
  | Delete path => (vfs_delete path s).1
  | Rename old new => (vfs_rename old new s).1
  | StatPath path => (vfs_stat path s).1
  | Chmod path mode => (vfs_chmod path mode s).1
  | Chown path uid gid => (vfs_chown path uid gid s).1
  | InstallNew n flags => (install_new n flags s).1
  | MountAt path root => (vfs_mount path root s).1
  | SetTty node => vfs_set_tty_node node s
  | FdInit k => vfs_task_fd_init k s
  | FdCloseAll k => vfs_task_fd_close_all k s
  | FdInherit dst src => vfs_task_fd_inherit dst src s
  | Switch k c => s <| current_table := k |> <| caller := c |>
  end.

(** What the callers see to: paths are strings, a buffer holds what is written
    from it, roots and the terminal are static nodes, and a slot that gets a new table has no open
    descriptor (the table of a finished task was closed). *)
Definition allowed (c : call) s : Prop :=
  match c with
  | Open path _ | Create path _ | Delete path | StatPath path | Chmod path _ | Chown path _ _ => text path
  | Rename old new => text old /\ text new
  | Write _ buf size => 0 <= size <= Z.of_nat (length buf) /\ size < 1073741824
  | Close _ | Read _ _ | Seek _ _ _ => True
  | InstallNew n _ => fresh_node n
  | MountAt _ root => static_node s root
  | SetTty node => node = 0 \/ static_node s node
  | FdInit k => 0 <= k < TABLES /\ all_free s k
  | FdCloseAll k | Switch k _ => 0 <= k < TABLES
  | FdInherit dst src => 0 <= dst < TABLES /\ 0 <= src < TABLES /\ dst <> src /\ all_free s dst
  end.

Inductive vstep : vfs H -> vfs H -> Prop :=
  | VStep c s : allowed c s -> vstep s (run c s).

Lemma run_inv c s : inv s ∅ -> allowed c s -> inv (run c s) ∅.
Proof.
  intros I Ha. destruct c; cbn [run allowed] in Ha |- *.
  - exact (open_inv s path flags I Ha).
  - exact (close_inv s ∅ fd I).
  - exact (vfs_read_inv s ∅ fd size I).
  - exact (vfs_write_inv s ∅ fd buf size I (proj1 Ha) (proj2 Ha)).
  - exact (seek_inv s ∅ fd offset whence I).
  - exact (proj1 (create_kept s ∅ path flags I Ha)).
  - exact (proj1 (delete_kept s ∅ path I Ha)).
  - exact (rename_inv s old new I (proj1 Ha) (proj2 Ha)).
  - exact (proj1 (stat_kept s ∅ path I Ha)).
  - exact (proj1 (chmod_kept s ∅ path mode I Ha)).
  - exact (proj1 (chown_kept s ∅ path uid gid I Ha)).
  - exact (install_new_inv s ∅ n flags I Ha).
  - exact (mount_inv s ∅ path root I Ha).
  - destruct I as [I1 I2 I3 I4 I5 I6 I7 I8 I9 I10].
    constructor; [exact I1|exact I2|exact I3|exact I4|exact I5|exact I6|exact I7|exact I8|exact I9|exact Ha].
  - exact (fd_init_inv s ∅ k I (proj1 Ha) (proj2 Ha)).
  - exact (close_all_inv s ∅ k I Ha).
  - destruct Ha as (Hd & Hs & Hne & Hf). exact (inherit_inv s ∅ dst src I Hd Hs Hne Hf).
  - destruct I as [I1 I2 I3 I4 I5 I6 I7 I8 I9 I10].
    constructor; [exact I1|exact I2|exact Ha|exact I4|exact I5|exact I6|exact I7|exact I8|exact I9|exact I10].
Qed.

(** The state after [vfs_init] and the mount of the RAM file system at the root,
    with the store [st] as the kernel's start left it. *)
Definition boot (st : store H) : vfs H :=
  let '(st, root) := ramfs_create_root st in
  (vfs_mount [SLASH] root (vfs_init (Vfs st [] [] [] [] 1 1 1 ∅ 0 0 None))).1.

(** The nodes that are there are static ones of other file systems, such as the
    terminal, without references. *)
Definition boot_ok (st : store H) : Prop :=
  store_ok st /\ ramfs_root_node ∈ ka_live (heap st) /\ ramfs_root_node ∉ blocks (flat st) /\
  (forall p n, nodes st !! p = Some n -> dynamic n = false /\ n_ref_count n = 0 /\ n_mountpoint n = 0).

Lemma boot_inv st : boot_ok st -> inv (boot st) ∅.
Proof.
  intros (Hok & Hl & Hb & Hst). unfold boot. cbn [ramfs_create_root]. set (s0 := vfs_init _).
  assert (forall p n, nodes (disk s0) !! p = Some n ->
    p = ramfs_root_node /\ text (n_name n) /\ n_ref_count n = 0 /\ n_mountpoint n = 0 /\ dynamic n = false \/
    p <> ramfs_root_node /\ nodes st !! p = Some n) as Hn.
  { assert (n_ref_count (get_node st ramfs_root_node) = 0) as Hc.
    { unfold get_node. destruct (nodes st !! ramfs_root_node) as [r|] eqn:Er.
      - rewrite (lookup_total_correct _ _ _ Er). by destruct (Hst _ r Er) as (_ & ? & _).
      - by rewrite lookup_total_alt, Er. }
    intros p n. cbn. rewrite lookup_insert_Some. intros [[<- <-]|[? ?]]; [left|by right].
    split_and!; [done|by repeat constructor|exact Hc|done|done]. }
  assert (forall k i, fd_used (table_of k s0).[i] = false) as Hf.
  { intros k i. unfold table_of. cbn. destruct (decide (k = 0)) as [->|].
    - rewrite lookup_insert_eq. cbn. apply (repeat_blank i).
    - rewrite lookup_insert_ne, lookup_empty by done. apply repeat_blank. }
  assert (forall p, refs s0 p = 0) as Hr.
  { intros p. apply refs_zero. intros k i _ _. unfold points. by rewrite Hf. }
  apply mount_inv.
  - constructor.
    + destruct Hok as [S1 S2 S3 S4 S5]. constructor; try done. intros p n Hp.
      destruct (Hn p n Hp) as [(-> & ? & _)|[_ Hp']]; [by split_and!|by apply S5].
    + intros k. unfold table_of. cbn. destruct (decide (k = 0)) as [->|].
      * by rewrite lookup_insert_eq.
      * by rewrite lookup_insert_ne, lookup_empty by done.
    + done.
    + intros p n Hp. unfold node_ok. rewrite Hr.
      destruct (Hn p n Hp) as [(_ & _ & Ec & Em & Ed)|[_ Hp']]; [split_and!; [done|done|congruence]|].
      destruct (Hst p n Hp') as (Ed & Ec & Em). split_and!; [done|done|congruence].
    + intros p Hp. set_solver.
    + intros p. rewrite Hr. lia.
    + intros e Hin%elem_of_repeat. by subst.
    + intros e Hin%elem_of_repeat. by subst.
    + intros m Hin%elem_of_repeat. by subst.
    + by left.
  - assert (exists n, nodes (disk s0) !! ramfs_root_node = Some n) as [n En] by (eexists; cbn; by rewrite lookup_insert_eq).
    exists n. split; [done|]. by destruct (Hn _ n En) as [(_ & _ & _ & _ & ?)|[? _]].
Qed.

Lemma vfs_reachable_inv st s : boot_ok st -> rtc vstep (boot st) s -> inv s ∅.
Proof.
  intros Hb Hr. pose proof (boot_inv st Hb) as I. induction Hr as [|s1 s2 s3 [c s Ha] _ IH]; [done|].
  apply IH. by apply run_inv.
Qed.
End sys.

(** C7: starting from the mounted RAM file system, after any sequence of calls by
    any contexts (opens, closes, reads, writes, seeks, creations, removals,
    renamings, changes of permissions and owners, mounts, the choice of the terminal,
    new tables with its three descriptors, closed tables and inherited tables), every open descriptor refers to a node that is
    allocated, whose reference count is exactly the number of descriptors that refer
    to it; every node allocated from the heap is referred to by a descriptor, so
    none is lost; and every entry of the path cache, and every positive entry of the
    directory cache, holds a node that is still there. *)
Theorem vfs_descriptors_sound {H : Type} `{KAllocatorLaws H} `{!SmallBlocks H} (st : store H) (s : vfs H) :
  boot_ok st -> rtc vstep (boot st) s ->
  (forall k i, 0 <= k < TABLES -> 0 <= i < 32 -> fd_used (table_of k s).[i] = true ->
     let p := fd_node (table_of k s).[i] in
     p <> 0 /\ p ∈ ka_live (heap (disk s)) /\ n_ref_count (node_at s p) = refs s p /\ 0 < refs s p) /\
  (forall p n, nodes (disk s) !! p = Some n -> dynamic n = true ->
     n_ref_count n = refs s p /\ exists k i, 0 <= k < TABLES /\ 0 <= i < 32 /\ points (table_of k s).[i] p = true) /\
  (forall e, e ∈ vnode_cache s -> v_used e = true -> present s (v_node e)) /\
  (forall e, e ∈ dentry_cache s -> e_used e = true -> e_negative e = false -> present s (e_node e)).
Proof.
  intros Hb Hr. pose proof (vfs_reachable_inv st s Hb Hr) as I. split; [|split; [|split]].
  - intros k i Hk Hi Hu. cbv zeta. assert (0 < refs s (fd_node (table_of k s).[i])) as Hpos.
    { apply (refs_pos s k i); [exact Hk|exact Hi|]. unfold points. by rewrite Hu, Z.eqb_refl. }
    destruct (i_fds _ _ I _ Hpos) as [Hp0 [n En]]. destruct (so_nodes _ (i_store _ _ I) _ n En) as (_ & Hl & _).
    rewrite (node_at_lookup s _ n En). destruct (i_nodes _ _ I _ n En) as (_ & Hc & _).
    split; [exact Hp0|]. split; [exact Hl|]. split; [exact Hc|exact Hpos].
  - intros p n En Hd. destruct (i_nodes _ _ I p n En) as (_ & Hc & Hh). split; [exact Hc|].
    assert (refs s p <> 0) as Hne by (intros E0; specialize (Hh Hd E0); set_solver).
    apply refs_exists. pose proof (fd_refs_nonneg s p). lia.
  - intros e He Hu. by destruct (i_fds _ _ I _ (i_vcache _ _ I e He Hu)).
  - intros e He Hu Hn. destruct (i_dcache _ _ I e He Hu Hn) as (n & En & _). by exists n.
Qed.

(** A store with one read-only file [a] and the node of a terminal. *)
Definition tty_node : Z := 65536.

Definition demo_store : store small_heap :=
  Store (SmallHeap {[ramfs_root_node; tty_node]} 64)
    {[ tty_node := VfsNode [116] VFS_FLAG_FILE 0 0 0 OpsOther 0 ]} demo_fs (repeat (VDir false []) 16).

Lemma demo_nodes p n : nodes demo_store !! p = Some n -> p = tty_node /\ n = VfsNode [116] VFS_FLAG_FILE 0 0 0 OpsOther 0.
Proof.
  unfold demo_store. cbn [nodes]. intros Hp. apply lookup_singleton_Some in Hp as [<- <-]. done.
Qed.

Lemma demo_boot_ok : boot_ok demo_store.
Proof.
  split; [|split; [cbn; set_solver|split]].
  - constructor; [|by repeat constructor|reflexivity|by repeat constructor|].
    + apply (fs_ok_more (SmallHeap ∅ 64)); [apply (demo_fs_ok 64)|]. intros p. cbn. set_solver.
    + intros p n Hp. destruct (demo_nodes p n Hp) as [-> ->]. split_and!; [done|cbn; set_solver| |by repeat constructor].
      intros Hin. by apply elem_of_nil in Hin.
  - intros Hin. by apply elem_of_nil in Hin.
  - intros p n Hp. by destruct (demo_nodes p n Hp) as [-> ->].
Qed.

(** The terminal is chosen, a task starts with its three descriptors and opens the
    file as the fourth. *)
Definition demo_calls : list call :=
  [SetTty tty_node; FdInit 1; Switch 1 None; Open [47; 97] VFS_O_RDWR].

Definition demo_tables : vfs small_heap := foldl (fun s c => run c s) (boot demo_store) demo_calls.

Lemma demo_tables_reachable : rtc vstep (boot demo_store) demo_tables.
Proof.
  apply (rtc_l _ _ (run (SetTty tty_node) (boot demo_store))); [apply VStep|].
  2: apply (rtc_l _ _ (run (FdInit 1) (run (SetTty tty_node) (boot demo_store)))); [apply VStep|].
  3: eapply (rtc_l _ _ (run (Switch 1 None) _)); [apply VStep|].
  4: apply rtc_once, (VStep (Open [47; 97] VFS_O_RDWR)).
  - right. exists (VfsNode [116] VFS_FLAG_FILE 0 0 0 OpsOther 0). vm_compute. by split.
  - split; [unfold TABLES; lia|]. intros i Hi.
    assert (forallb (fun e => negb (fd_used e)) (table_of 1 (run (SetTty tty_node) (boot demo_store))) = true) as Hf
      by (vm_compute; reflexivity).
    rewrite forallb_forall in Hf. apply negb_true_iff, Hf, list_elem_of_In, (list_elem_of_lookup_2 _ (Z.to_nat i)), aget_lookup.
    assert (length (table_of 1 (run (SetTty tty_node) (boot demo_store))) = 32%nat) as E by (vm_compute; reflexivity).
    rewrite E. lia.
  - cbn. unfold TABLES. lia.
  - by repeat constructor.
Qed.

Lemma vfs_descriptors_sound_witness :
  fd_node (table_of 1 demo_tables).[2] = tty_node /\
  n_ref_count (node_at demo_tables tty_node) = 3 /\ refs demo_tables tty_node = 3 /\
  fd_used (table_of 1 demo_tables).[3] = true /\ fd_node (table_of 1 demo_tables).[3] <> 0.
Proof.
  destruct (vfs_descriptors_sound demo_store demo_tables demo_boot_ok demo_tables_reachable) as [Hd _].
  assert (0 <= 1 < TABLES) as Hk by (split; [discriminate|reflexivity]).
  assert (0 <= 2 < 32) as H2 by (split; [discriminate|reflexivity]).
  assert (0 <= 3 < 32) as H3 by (split; [discriminate|reflexivity]).
  assert (fd_node (table_of 1 demo_tables).[2] = tty_node) as En by (vm_compute; reflexivity).
  assert (fd_used (table_of 1 demo_tables).[2] = true) as Hu2 by (vm_compute; reflexivity).
  assert (fd_used (table_of 1 demo_tables).[3] = true) as Hu3 by (vm_compute; reflexivity).
  pose proof (Hd 1 2 Hk H2 Hu2) as (_ & _ & Hc & _). rewrite En in Hc.
  pose proof (Hd 1 3 Hk H3 Hu3) as (Hp & _).
  assert (n_ref_count (node_at demo_tables tty_node) = 3) as E3 by (vm_compute; reflexivity).
  split; [exact En|]. split; [exact E3|]. split; [congruence|]. split; [exact Hu3|exact Hp].
Defined.
