(* ===== verification/VfsCalls.v ===== *)
(** What reads and writes through descriptors do to files, and what the VFS does
    at the edges: other spellings of a path, renaming, large files. *)
From S2P Require Import Prelude.
From S2P Require Import Interfaces.
From S2P Require Import KString.
From S2P Require Import Vnode.
From S2P Require Import Fs.
From S2P Require Import Ramfs.
From S2P Require Import Task.
From S2P Require Import Vfs.
From S2P Require Import VfsInv.
From S2P Require Import VfsSys.
From Stdlib Require Import ZArith Lia.
From stdpp Require Import base numbers list gmap relations.

Open Scope Z_scope.
Open Scope lyth_scope.

#[local] Opaque countb.

Section calls.
Context {H : Type} `{KAllocatorLaws H} `{!SmallBlocks H}.
Implicit Types s : vfs H.
Implicit Types h : gset Z.

(** A descriptor of the current context that is open on a file of the RAM file
    system, for reading and writing. *)
Record open_file s (fd : Z) : Prop := OpenFile {
  of_fd : 0 <= fd < 32;
  of_used : fd_used (fdt s).[fd] = true;
  of_read : has_flag (fd_flags (fdt s).[fd]) VFS_O_RDONLY = true;
  of_write : has_flag (fd_flags (fdt s).[fd]) VFS_O_WRONLY = true;
  of_append : has_flag (fd_flags (fdt s).[fd]) VFS_O_APPEND = false;
  of_ops : n_ops (node_at s (fd_node (fdt s).[fd])) = OpsRamfsFile }.

Definition file_name s (fd : Z) : list Z := n_name (node_at s (fd_node (fdt s).[fd])).

Lemma good_fd fd : 0 <= fd < 32 -> bad_fd fd = false.
Proof. intros. unfold bad_fd, VFS_MAX_FD. apply orb_false_intro; bool_to_prop; lia. Qed.

Lemma fdt_set_fd s fd e : tables_ok s -> 0 <= fd < 32 -> (fdt (set_fd fd e s)).[fd] = e.
Proof.
  intros Ht Hfd. change (fdt (set_fd fd e s)) with (table_of (current_table s) (set_fd fd e s)).
  unfold set_fd. rewrite table_of_set, decide_True by done. apply aget_aset_eq.
  pose proof (Ht (current_table s)) as Hl. unfold fdt. lia.
Qed.

Lemma node_static_read s h fd size :
  inv s h -> open_file s fd -> 0 < size ->
  vfs_node_read (fd_node (fdt s).[fd]) (fd_offset (fdt s).[fd]) size (disk s) =
    ramfs_file_read (node_at s (fd_node (fdt s).[fd])) (fd_offset (fdt s).[fd]) size (disk s).
Proof.
  intros I [Hfd Hu Hr Hw Ha Ho] Hs. destruct (fd_present s h fd I Hfd Hu) as [n En].
  destruct (so_nodes _ (i_store _ _ I) _ n En) as [Hp0 _]. destruct (i_nodes _ _ I _ n En) as (Hm & _).
  unfold vfs_node_read. rewrite (proj2 (Z.eqb_neq _ 0) Hp0), (proj2 (Z.eqb_neq size 0)) by lia. cbn [orb].
  assert (vfs_effective (disk s) (fd_node (fdt s).[fd]) = fd_node (fdt s).[fd]) as ->.
  { unfold vfs_effective. change (get_node (disk s)) with (node_at s). rewrite (node_at_lookup s _ n En), Hm. by rewrite andb_false_r. }
  change (get_node (disk s)) with (node_at s). by rewrite Ho.
Qed.

(** Reading: the bytes of the file from the offset on, as many as asked for and
    as there are, and the offset moves past them. *)
Lemma vfs_read_spec s h fd size c :
  inv s h -> open_file s fd -> 0 <= fd_offset (fdt s).[fd] -> 0 < size ->
  contents (flat (disk s)) (file_name s fd) = Some c -> Z.of_nat (length c) < 1073741824 ->
  let '(s', r, bytes) := vfs_read fd size s in
  flat (disk s') = flat (disk s) /\
  (r = Z.of_nat (length bytes) /\ bytes = window c (fd_offset (fdt s).[fd]) size \/
   r = -1 /\ 0 < fd_offset (fdt s).[fd] /\ (ka_malloc (heap (disk s)) (Z.of_nat (length c))).2 = 0).
Proof.
  intros I Hof Ho Hs Hc Hlen. unfold vfs_read. rewrite (good_fd fd) by apply Hof.
  rewrite (proj2 (Z.eqb_neq size 0)) by lia. rewrite (of_used _ _ Hof), (of_read _ _ Hof). cbn [negb].
  rewrite (node_static_read s h fd size I Hof Hs).
  assert (text (file_name s fd)) as Ht.
  { destruct (fd_present s h fd I (of_fd _ _ Hof) (of_used _ _ Hof)) as [n En]. unfold file_name.
    rewrite (node_at_lookup s _ n En). apply (so_nodes _ (i_store _ _ I) _ n En). }
  pose proof (ramfs_file_read_spec _ _ size (disk s) c (i_store _ _ I) Ht Ho Hs Hc Hlen) as Hr.
  destruct (ramfs_file_read _ _ _ _) as [[d r] b]. destruct Hr as (_ & _ & Ef & _ & Hr).
  split; [|exact Hr]. by destruct (0 <? r).
Qed.

(** The state in which a descriptor is written to. *)
Record writable_file s h (fd : Z) : Prop := WritableFile {
  wf_inv : inv s h;
  wf_open : open_file s fd;
  wf_unique : names_unique (flat (disk s));
  wf_name : 0 < Z.of_nat (length (file_name s fd)) <= 63;
  wf_null : file_name s fd <> null_text (flat (disk s)) }.

Lemma node_write_eq s h fd offset size buf :
  inv s h -> open_file s fd -> 0 < size ->
  vfs_node_write (fd_node (fdt s).[fd]) offset size buf (disk s) =
    ramfs_file_write (fd_node (fdt s).[fd]) offset size buf (disk s).
Proof.
  intros I [Hfd Hu Hr Hw Ha Ho] Hs. destruct (fd_present s h fd I Hfd Hu) as [n En].
  destruct (so_nodes _ (i_store _ _ I) _ n En) as [Hp0 _]. destruct (i_nodes _ _ I _ n En) as (Hm & _).
  unfold vfs_node_write. rewrite (proj2 (Z.eqb_neq _ 0) Hp0), (proj2 (Z.eqb_neq size 0)) by lia. cbn [orb].
  assert (vfs_effective (disk s) (fd_node (fdt s).[fd]) = fd_node (fdt s).[fd]) as ->.
  { unfold vfs_effective. change (get_node (disk s)) with (node_at s). rewrite (node_at_lookup s _ n En), Hm. by rewrite andb_false_r. }
  change (get_node (disk s)) with (node_at s). by rewrite Ho.
Qed.

(** What a write does to the state: to the flat store what [fs_write] does, which
    appends as soon as the offset is not 0, and the offset moves by the result. *)
Lemma vfs_write_eq s h fd buf size :
  inv s h -> open_file s fd -> 0 < size ->
  let e := (fdt s).[fd] in
  let '(_, f, r) := fs_write (file_name s fd) (Some buf) size (0 <? fd_offset e) (flat (disk s)) (heap (disk s)) in
  let '(s', r') := vfs_write fd buf size s in
  r' = r /\ flat (disk s') = f /\
  (0 < r ->
   (fdt s').[fd] = FdEntry (fd_node e) (u32 (fd_offset e + r)) (fd_flags e) true /\
   n_ops (node_at s' (fd_node e)) = OpsRamfsFile /\ n_name (node_at s' (fd_node e)) = file_name s fd /\
   n_size (node_at s' (fd_node e)) = Z.max (fs_size f (file_name s fd)) (u32 (fd_offset e + r))).
Proof.
  intros I Hof Hs e. unfold vfs_write. rewrite (good_fd fd) by apply Hof.
  rewrite (proj2 (Z.eqb_neq size 0)) by lia. rewrite (of_used _ _ Hof), (of_write _ _ Hof), (of_append _ _ Hof). cbn [negb andb].
  assert (tables_ok s) as Ht by apply I.
  assert (fd_node e <> 0) as Hp0.
  { destruct (fd_present s h fd I (of_fd _ _ Hof) (of_used _ _ Hof)) as [n En].
    by destruct (so_nodes _ (i_store _ _ I) _ n En). }
  change (disk (set_fd fd (fdt s).[fd] s)) with (disk s). fold e.
  pose proof (node_write_eq s h fd (fd_offset e) size buf I Hof Hs) as Eq. fold e in Eq. rewrite Eq. clear Eq. unfold ramfs_file_write.
  change (get_node (disk s) (fd_node e)) with (node_at s (fd_node e)). unfold file_name. fold e.
  destruct (fs_write _ _ _ _ _ _) as [[hp f] r]. cbv zeta.
  assert (forall d, tables_ok (set_fd fd e s <| disk := d |>) /\ (fdt (set_fd fd e s <| disk := d |>)).[fd] = e) as Hd.
  { intros d. split; [exact (tables_set (current_table s) fd e s Ht)|]. exact (fdt_set_fd s fd e Ht (of_fd _ _ Hof)). }
  destruct (0 <=? r) eqn:Er; destruct (0 <? r) eqn:Er'; bool_to_prop; try lia; try (split_and!; [done|done|lia]).
  set (d := _ <| nodes := _ |>). destruct (Hd d) as [Hd1 Hd2]. set (s1 := set_fd fd e s <| disk := d |>) in *.
  assert ((fdt (advance fd r s1)).[fd] = FdEntry (fd_node e) (u32 (fd_offset e + r)) (fd_flags e) true) as Ea.
  { unfold advance. rewrite Hd2, (fdt_set_fd s1 fd _ Hd1 (of_fd _ _ Hof)). f_equal. apply Hof. }
  rewrite Ea. cbn [fd_offset]. rewrite (proj2 (Z.eqb_neq (fd_node e) 0) Hp0).
  split; [done|]. split; [done|]. intros _. set (m := node_at (advance fd r s1) (fd_node e)).
  assert (m = node_at s (fd_node e) <| n_size := fs_size f (n_name (node_at s (fd_node e))) |>) as Em.
  { unfold m, node_at, get_node. cbn. by rewrite lookup_total_insert_eq. }
  split; [exact Ea|].
  assert (forall x, node_at (set_node (fd_node e) x (advance fd r s1)) (fd_node e) = x) as ->.
  { intros x. unfold node_at, get_node. cbn. by rewrite lookup_total_insert_eq. }
  rewrite Em. cbn. split; [apply Hof|]. split; [done|]. case_match; bool_to_prop; lia.
Qed.
(** There is room for the bytes, and a file to extend or a free entry. *)
Definition can_write s (fd size : Z) : Prop :=
  0 < size /\ room (flat (disk s)) size /\
  (overlay (flat (disk s)) (file_name s fd) <> None \/
   fd_offset (fdt s).[fd] <= 0 /\ used_count (flat (disk s)) < FS_WRITE_MAX).

(** The heap grants what a write asks for: the block of the name, when the file is
    not in the table yet, and the block of the data. *)
Definition granted s (fd size : Z) : bool :=
  (if overlay (flat (disk s)) (file_name s fd) then true else name_granted (heap (disk s))) &&
  data_granted (flat (disk s)) (file_name s fd) size (0 <? fd_offset (fdt s).[fd]) (heap (disk s)).

Definition written s (fd : Z) (buf : list Z) : list Z :=
  (if 0 <? fd_offset (fdt s).[fd] then default [] (overlay (flat (disk s)) (file_name s fd)) else []) ++ buf.

(** A write of a descriptor, and what the flat store makes of it. *)
Lemma vfs_write_store s h fd buf :
  writable_file s h fd -> can_write s fd (Z.of_nat (length buf)) ->
  let '(s', r) := vfs_write fd buf (Z.of_nat (length buf)) s in
  let f := flat (disk s) in let f' := flat (disk s') in
  inv s' h /\ names_unique f' /\ null_text f' = null_text f /\
  (overlay f' (file_name s fd), r, used_count f') =
    spec_write (overlay f (file_name s fd)) (used_count f) buf (0 <? fd_offset (fdt s).[fd])
      (name_granted (heap (disk s)))
      (data_granted f (file_name s fd) (Z.of_nat (length buf)) (0 <? fd_offset (fdt s).[fd]) (heap (disk s))) /\
  (forall n, text n -> n <> file_name s fd -> n <> null_text f -> contents f' n = contents f n) /\
  text (file_name s fd) /\
  (0 < r ->
   let e := (fdt s).[fd] in
   (fdt s').[fd] = FdEntry (fd_node e) (u32 (fd_offset e + r)) (fd_flags e) true /\
   n_ops (node_at s' (fd_node e)) = OpsRamfsFile /\ n_name (node_at s' (fd_node e)) = file_name s fd /\
   n_size (node_at s' (fd_node e)) = Z.max (fs_size f' (file_name s fd)) (u32 (fd_offset e + r))).
Proof.
  intros [I Hof Hun Hlen Hnull] (Hs & Hroom & _).
  assert (text (file_name s fd)) as Ht.
  { destruct (fd_present s h fd I (of_fd _ _ Hof) (of_used _ _ Hof)) as [n En]. unfold file_name.
    rewrite (node_at_lookup s _ n En). apply (so_nodes _ (i_store _ _ I) _ n En). }
  pose proof (write_refines (heap (disk s)) (flat (disk s)) (file_name s fd) buf (Z.of_nat (length buf))
    (0 <? fd_offset (fdt s).[fd]) (so_fs _ (i_store _ _ I)) Hun Ht Hlen Hnull ltac:(lia) Hroom) as Hw.
  pose proof (vfs_write_eq s h fd buf _ I Hof Hs) as He. cbv zeta in He.
  pose proof (vfs_write_inv s h fd buf (Z.of_nat (length buf)) I ltac:(lia) (proj1 Hroom)) as I'.
  destruct (fs_write _ _ _ _ _ _) as [[hp f] r]. destruct (vfs_write _ _ _ _) as [s' r']. cbn [fst] in I'.
  destruct Hw as ((_ & Efs & Enull & _) & Hun' & Hsp & Hoth). destruct He as (-> & <- & He).
  rewrite slice_all in Hsp. cbv zeta. split_and!; try done.
  intros n Hn Hne Hnn. rewrite !contents_overlay, Hoth by done. unfold static_contents.
  by rewrite (find_static_files _ _ _ Efs), Efs.
Qed.

Lemma vfs_write_spec s h fd buf :
  writable_file s h fd -> can_write s fd (Z.of_nat (length buf)) -> granted s fd (Z.of_nat (length buf)) = true ->
  0 <= fd_offset (fdt s).[fd] ->
  let e := (fdt s).[fd] in
  let c := written s fd buf in
  let '(s', r) := vfs_write fd buf (Z.of_nat (length buf)) s in
  r = Z.of_nat (length c) /\ writable_file s' h fd /\ file_name s' fd = file_name s fd /\
  null_text (flat (disk s')) = null_text (flat (disk s)) /\
  overlay (flat (disk s')) (file_name s fd) = Some c /\
  (fdt s').[fd] = FdEntry (fd_node e) (u32 (fd_offset e + r)) (fd_flags e) true /\
  n_size (node_at s' (fd_node e)) = Z.max r (u32 (fd_offset e + r)).
Proof.
  intros Hwf Hcan Hg Ho. cbv zeta. pose proof (vfs_write_store s h fd buf Hwf Hcan) as Hw.
  destruct Hwf as [I Hof Hun Hlen Hnull]. destruct Hcan as (Hs & Hroom & Hcan).
  destruct (vfs_write _ _ _ _) as [s' r]. cbv zeta in Hw. destruct Hw as (I' & Hun' & Enull & Hsp & _ & Ht & He).
  assert ((overlay (flat (disk s')) (file_name s fd), r) = (Some (written s fd buf), Z.of_nat (length (written s fd buf)))) as Hr.
  { assert (bool_decide (buf = []) = false) as Hb by (apply bool_decide_false; intros ->; cbn in Hs; lia).
    unfold granted in Hg. apply andb_prop in Hg as [Hg1 Hg2]. rewrite Hg2 in Hsp. revert Hsp.
    unfold spec_write, written, stored. rewrite Hb.
    destruct (overlay (flat (disk s)) (file_name s fd)) as [c|] eqn:Eov; cbn [default].
    - change (Datatypes.id c) with c.
      destruct (0 <? fd_offset (fdt s).[fd]); cbn [andb]; [|by intros [= -> -> _]].
      destruct (bool_decide_reflect (c = [])) as [->|]; cbn [negb]; by intros [= -> -> _].
    - destruct Hcan as [?|[Hz Hcnt]]; [done|]. rewrite (proj2 (Z.ltb_ge 0 _) Hz), (proj2 (Z.leb_gt _ _) Hcnt), Hg1.
      cbn [orb]. by intros [= -> -> _]. }
  injection Hr as Hov Hrl.
  assert (0 < r) as Hpos by (rewrite Hrl; unfold written; rewrite length_app; lia).
  destruct (He Hpos) as (Ef & Eo & En & Esz).
  assert (file_name s' fd = file_name s fd) as Efn by (unfold file_name at 1; by rewrite Ef).
  split; [exact Hrl|]. split; [|split; [exact Efn|split; [exact Enull|split; [exact Hov|split; [exact Ef|]]]]].
  - constructor; [exact I'| |exact Hun'|by rewrite Efn|by rewrite Efn, Enull].
    constructor; rewrite ?Ef; cbn; [apply Hof|done|apply Hof|apply Hof|apply Hof|done].
  - rewrite Esz. f_equal. rewrite (fs_size_contents (disk s') _ (i_store _ _ I') Ht), Hrl.
    rewrite contents_overlay, Hov. done.
Qed.

Lemma seek_start s h fd :
  inv s h -> open_file s fd ->
  vfs_seek fd 0 VFS_SEEK_SET s =
    (set_fd fd (FdEntry (fd_node (fdt s).[fd]) 0 (fd_flags (fdt s).[fd]) true) s, 0).
Proof.
  intros I Hof. unfold vfs_seek. rewrite (good_fd fd) by apply Hof. rewrite (of_used _ _ Hof). done.
Qed.

(** C8: what is written through a descriptor is read back through it.  For a file
    of the RAM file system opened for reading and writing at offset 0, with a name
    of at most 63 bytes, and while there is a free entry or the file has one: when
    the heap grants the blocks the write asks for, a write of any bytes, a seek to
    the start and a read of as many bytes succeed and return the bytes written, and
    the node's size is their number; when it refuses them, the write to a file that
    has an entry returns -1 and has emptied the file.  No other file changes in
    either case. *)
Theorem vfs_write_read_roundtrip s h fd buf :
  writable_file s h fd -> can_write s fd (Z.of_nat (length buf)) -> fd_offset (fdt s).[fd] = 0 ->
  let '(s1, w) := vfs_write fd buf (Z.of_nat (length buf)) s in
  let '(s2, o) := vfs_seek fd 0 VFS_SEEK_SET s1 in
  let '(s3, r, bytes) := vfs_read fd (Z.of_nat (length buf)) s2 in
  (if granted s fd (Z.of_nat (length buf)) then
     w = Z.of_nat (length buf) /\ o = 0 /\ r = w /\ bytes = buf /\
     n_size (node_at s1 (fd_node (fdt s).[fd])) = w /\ flat (disk s3) = flat (disk s1)
   else
     overlay (flat (disk s)) (file_name s fd) <> None ->
     w = -1 /\ contents (flat (disk s1)) (file_name s fd) = Some []) /\
  forall n, text n -> n <> file_name s fd -> n <> null_text (flat (disk s)) ->
    contents (flat (disk s1)) n = contents (flat (disk s)) n.
Proof.
  intros Hwf Hcan Ho. pose proof (vfs_write_store s h fd buf Hwf Hcan) as Hst.
  pose proof (fun Hg => vfs_write_spec s h fd buf Hwf Hcan Hg ltac:(lia)) as Hw. cbv zeta in Hw.
  destruct Hcan as (Hlen & [Hroom _] & _).
  destruct (vfs_write _ _ _ _) as [s1 w]. cbv zeta in Hst. destruct Hst as (_ & _ & _ & Hsp & Hoth & _).
  destruct (vfs_seek fd 0 VFS_SEEK_SET s1) as [s2 o] eqn:Es. destruct (vfs_read fd _ s2) as [[s3 r] bytes] eqn:Er.
  split; [|exact Hoth]. destruct (granted s fd (Z.of_nat (length buf))) eqn:Hg.
  2: { intros Hov. rewrite contents_overlay. unfold granted in Hg.
       destruct (overlay (flat (disk s)) (file_name s fd)) as [c|]; [|done]. cbn [andb] in Hg.
       rewrite Hg, Ho in Hsp. cbn [Z.ltb Z.compare spec_write andb] in Hsp. unfold stored in Hsp.
       rewrite bool_decide_false in Hsp by (intros ->; cbn in Hlen; lia). cbn [fst snd] in Hsp.
       injection Hsp as -> -> _. done. }
  specialize (Hw eq_refl). unfold written in Hw. rewrite Ho in Hw. cbn [Z.ltb app Z.compare] in Hw.
  rewrite Z.add_0_l in Hw. destruct Hw as (-> & [I1 Hof1 _ _ _] & Efn & _ & Hov & Ef & Esz).
  rewrite u32_small, Z.max_id in Esz by lia.
  rewrite (seek_start s1 h fd I1 Hof1), Ef in Es. cbn [fd_node fd_flags] in Es.
  set (e := FdEntry _ 0 _ true) in Es. injection Es as <- <-.
  assert ((fdt (set_fd fd e s1)).[fd] = e) as Ee by (apply fdt_set_fd; [apply I1|apply Hof1]).
  assert (inv (set_fd fd e s1) h) as I2.
  { apply set_fd_inv; [exact I1|apply Hof1|rewrite Ef; done|rewrite Ef; done]. }
  assert (file_name (set_fd fd e s1) fd = file_name s fd) as Efn2.
  { rewrite <- Efn. unfold file_name. rewrite Ee, Ef. done. }
  assert (open_file (set_fd fd e s1) fd) as Hof2.
  { destruct Hof1 as [O1 O2 O3 O4 O5 O6]. rewrite Ef in O2, O3, O4, O5, O6. constructor; rewrite ?Ee; done. }
  pose proof (vfs_read_spec (set_fd fd e s1) h fd (Z.of_nat (length buf)) buf I2 Hof2) as Hr. rewrite Ee in Hr.
  specialize (Hr ltac:(cbn; lia) Hlen). rewrite Efn2, contents_overlay in Hr. change (disk (set_fd fd e s1)) with (disk s1) in Hr.
  rewrite Hov in Hr. specialize (Hr eq_refl Hroom).
  rewrite Er in Hr. destruct Hr as [-> [[-> ->]|(_ & ? & _)]]; [|cbn in *; lia].
  assert (window buf (fd_offset e) (Z.of_nat (length buf)) = buf) as ->.
  { unfold window. cbn [fd_offset e]. rewrite Z.sub_0_r, Z.min_id, Z.max_r by lia. apply slice_all. }
  by split_and!.
Qed.

(** C36: a second write through the same descriptor loses count.  When the heap
    grants both, the bytes do go to the end of the file, but the second call
    returns the length of the whole file instead of the number of bytes written,
    and the offset moves by that: after writes of [a] and [b] the file holds
    [a ++ b], and the offset and the size of the node are [2 |a| + |b|]. *)
Theorem vfs_second_write_drifts s h fd a b :
  writable_file s h fd -> can_write s fd (Z.of_nat (length a)) -> granted s fd (Z.of_nat (length a)) = true ->
  fd_offset (fdt s).[fd] = 0 ->
  let '(s1, w1) := vfs_write fd a (Z.of_nat (length a)) s in
  can_write s1 fd (Z.of_nat (length b)) -> granted s1 fd (Z.of_nat (length b)) = true ->
  let '(s2, w2) := vfs_write fd b (Z.of_nat (length b)) s1 in
  w1 = Z.of_nat (length a) /\ w2 = Z.of_nat (length a) + Z.of_nat (length b) /\
  contents (flat (disk s2)) (file_name s fd) = Some (a ++ b) /\
  fd_offset (fdt s2).[fd] = 2 * Z.of_nat (length a) + Z.of_nat (length b) /\
  n_size (node_at s2 (fd_node (fdt s).[fd])) = 2 * Z.of_nat (length a) + Z.of_nat (length b).
Proof.
  intros Hwf Hcan Hg Ho. pose proof (vfs_write_spec s h fd a Hwf Hcan Hg ltac:(lia)) as Hw. cbv zeta in Hw.
  destruct Hcan as (Hlen & [Hroom _] & _).
  destruct (vfs_write _ _ _ s) as [s1 w]. unfold written in Hw. rewrite Ho in Hw. cbn [Z.ltb app Z.compare] in Hw.
  rewrite Z.add_0_l in Hw. destruct Hw as (-> & Hwf1 & Efn & _ & Hov & Ef & _). rewrite u32_small in Ef by lia.
  intros Hcan1 Hg1. assert (fd_offset (fdt s1).[fd] = Z.of_nat (length a)) as Eo by (by rewrite Ef).
  pose proof (vfs_write_spec s1 h fd b Hwf1 Hcan1 Hg1 ltac:(rewrite Eo; lia)) as Hw. cbv zeta in Hw.
  destruct Hcan1 as (Hlen1 & [Hroom1 Hroom2] & _).
  unfold written in Hw. rewrite Eo, Efn, Hov, (proj2 (Z.ltb_lt 0 _)) in Hw by lia. cbn [default] in Hw.
  destruct (vfs_write _ _ _ s1) as [s2 w2]. destruct Hw as (-> & _ & _ & _ & Hov2 & Ef2 & Esz2).
  rewrite Ef in Esz2. cbn [fd_node] in Esz2. rewrite Esz2, Ef2, contents_overlay, Hov2. cbn [fd_offset].
  change (Datatypes.id a) with a. rewrite length_app, Nat2Z.inj_add, u32_small by lia. split; [done|]. split; [done|]. split; [done|]. lia.
Qed.

(** Only the blocks in use of the heap matter. *)
Lemma writable_same_live s h hp fd :
  ka_live hp = ka_live (heap (disk s)) -> writable_file s h fd ->
  writable_file (s <| disk := (disk s) <| heap := hp |> |>) h fd.
Proof.
  intros El [[[S1 S2 S3 S4 S5] I2 I3 I4 I5 I6 I7 I8 I9 I10] [O1 O2 O3 O4 O5 O6] W3 W4 W5].
  constructor; [|constructor; assumption|assumption..]. constructor; [|assumption..].
  constructor; [|assumption..|]; cbn; rewrite ?El; [|assumption].
  unfold fs_ok in *. by rewrite El.
Qed.
End calls.

(** * Examples *)

(** The state after some calls, from the store with one read-only file [a]. *)
Definition after (cs : list call) : vfs small_heap := foldl (fun s c => run c s) (boot demo_store) cs.

(** The paths [/f], [//f] and [/g]. *)
Definition path_f : list Z := [SLASH; 102].
Definition path_ff : list Z := [SLASH; SLASH; 102].
Definition path_g : list Z := [SLASH; 103].

(** The empty file [/f] is open as descriptor 0. *)
Definition demo_open : vfs small_heap := after [Create path_f VFS_FLAG_FILE; Open path_f VFS_O_RDWR].

Lemma demo_open_inv : inv demo_open ∅.
Proof.
  assert (text path_f) as Ht by (repeat constructor; discriminate).
  refine (run_inv (Open path_f VFS_O_RDWR) _ (run_inv (Create path_f VFS_FLAG_FILE) _ (boot_inv _ demo_boot_ok) Ht) Ht).
Qed.

(** One entry of the store is in use. *)
Definition one_file (f : fs) : bool := forallb (fun e => negb (w_used e) && (w_size e =? 0)) (drop 1 (writable f)).

Lemma one_file_rest f i : one_file f = true -> length (writable f) = 32%nat -> 0 < i < 32 ->
  w_used (writable f).[i] = false /\ w_size (writable f).[i] = 0.
Proof.
  intros Ho Hl Hi. unfold one_file in Ho. rewrite forallb_forall in Ho.
  assert (drop 1 (writable f) !! (Z.to_nat i - 1)%nat = Some (writable f).[i]) as E.
  { rewrite lookup_drop. replace (1 + (Z.to_nat i - 1))%nat with (Z.to_nat i) by lia. apply aget_lookup. lia. }
  apply list_elem_of_lookup_2, list_elem_of_In in E. specialize (Ho _ E). cbv beta in Ho.
  apply andb_prop in Ho as [Hu%negb_true_iff Hz%Z.eqb_eq]. done.
Qed.

Lemma one_file_unique f : one_file f = true -> length (writable f) = 32%nat -> names_unique f.
Proof.
  intros Ho Hl i j Hi Hj [Hui _] [Huj _] _.
  destruct (decide (i = 0)) as [->|]; [|destruct (one_file_rest f i Ho Hl ltac:(lia)); congruence].
  destruct (decide (j = 0)) as [->|]; [done|]. destruct (one_file_rest f j Ho Hl ltac:(lia)). congruence.
Qed.

Lemma one_file_room f size : one_file f = true -> length (writable f) = 32%nat -> size < 1073741824 ->
  w_size (writable f).[0] + size < 1073741824 -> room f size.
Proof.
  intros Ho Hl Hs H0. split; [done|]. apply Forall_lookup. intros i e Hi.
  pose proof (lookup_lt_Some _ _ _ Hi) as Hlt. assert (e = (writable f).[Z.of_nat i]) as ->.
  { unfold aget. rewrite Nat2Z.id. symmetry. by apply list_lookup_total_correct. }
  destruct (decide (i = 0%nat)) as [->|]; [done|].
  destruct (one_file_rest f (Z.of_nat i) Ho Hl ltac:(lia)) as [_ ->]. lia.
Qed.

Lemma demo_open_writable : writable_file demo_open ∅ 0.
Proof.
  constructor; [exact demo_open_inv| |by apply one_file_unique|split; vm_compute; congruence|vm_compute; discriminate].
  constructor; vm_compute; split || reflexivity; congruence.
Qed.

(** The same in a heap that has no block left. *)
Definition demo_full : vfs small_heap :=
  demo_open <| disk := (disk demo_open) <| heap := SmallHeap (in_use (heap (disk demo_open))) 0 |> |>.

Lemma demo_full_writable : writable_file demo_full ∅ 0.
Proof. apply writable_same_live; [reflexivity|exact demo_open_writable]. Qed.

Lemma demo_can_write (s : vfs small_heap) : flat (disk s) = flat (disk demo_open) -> file_name s 0 = [102] -> can_write s 0 2.
Proof.
  intros Ef En. split; [lia|]. rewrite Ef, En. split; [by apply one_file_room|]. left. vm_compute. discriminate.
Qed.

Lemma vfs_write_read_roundtrip_witness :
  (let '(s1, w) := vfs_write 0 [7; 8] 2 demo_open in
   let '(s2, o) := vfs_seek 0 0 VFS_SEEK_SET s1 in
   let '(s3, r, bytes) := vfs_read 0 2 s2 in
   w = 2 /\ o = 0 /\ r = 2 /\ bytes = [7; 8]) /\
  (vfs_write 0 [7; 8] 2 demo_full).2 = -1.
Proof.
  split.
  - pose proof (vfs_write_read_roundtrip demo_open ∅ 0 [7; 8] demo_open_writable
      (demo_can_write demo_open eq_refl eq_refl) eq_refl) as Hr.
    change (Z.of_nat (length [7; 8])) with 2 in Hr.
    assert (granted demo_open 0 2 = true) as Hg by (vm_compute; reflexivity). rewrite Hg in Hr.
    destruct (vfs_write 0 [7; 8] 2 demo_open) as [s1 w]. destruct (vfs_seek 0 0 VFS_SEEK_SET s1) as [s2 o].
    destruct (vfs_read 0 2 s2) as [[s3 r] bytes]. destruct Hr as [(-> & -> & -> & -> & _) _]. repeat split.
  - pose proof (vfs_write_read_roundtrip demo_full ∅ 0 [7; 8] demo_full_writable
      (demo_can_write demo_full eq_refl eq_refl) eq_refl) as Hr.
    change (Z.of_nat (length [7; 8])) with 2 in Hr.
    assert (granted demo_full 0 2 = false) as Hg by (vm_compute; reflexivity). rewrite Hg in Hr.
    destruct (vfs_write 0 [7; 8] 2 demo_full) as [s1 w]. destruct (vfs_seek 0 0 VFS_SEEK_SET s1) as [s2 o].
    destruct (vfs_read 0 2 s2) as [[s3 r] bytes]. destruct Hr as [Hr _].
    destruct Hr as [-> _]; [vm_compute; discriminate|reflexivity].
Defined.

Lemma vfs_second_write_drifts_witness :
  let '(s1, w1) := vfs_write 0 [7; 8] 2 demo_open in
  let '(s2, w2) := vfs_write 0 [9] 1 s1 in
  w1 = 2 /\ w2 = 3 /\ contents (flat (disk s2)) [102] = Some [7; 8; 9] /\ fd_offset (fdt s2).[0] = 5.
Proof.
  assert (can_write (vfs_write 0 [7; 8] 2 demo_open).1 0 1) as Hc1.
  { split; [lia|]. split; [by apply one_file_room|]. left. vm_compute. discriminate. }
  assert (granted (vfs_write 0 [7; 8] 2 demo_open).1 0 1 = true) as Hg1 by (vm_compute; reflexivity).
  assert (granted demo_open 0 2 = true) as Hg by (vm_compute; reflexivity).
  pose proof (vfs_second_write_drifts demo_open ∅ 0 [7; 8] [9] demo_open_writable
    (demo_can_write demo_open eq_refl eq_refl) Hg eq_refl) as Hr.
  change (Z.of_nat (length [7; 8])) with 2 in Hr. change (Z.of_nat (length [9])) with 1 in Hr.
  assert (file_name demo_open 0 = [102]) as En by reflexivity. rewrite En in Hr.
  destruct (vfs_write 0 [7; 8] 2 demo_open) as [s1 w1]. specialize (Hr Hc1 Hg1).
  destruct (vfs_write 0 [9] 1 s1) as [s2 w2]. destruct Hr as (-> & -> & -> & -> & _). repeat split.
Defined.

(** Renaming a file to another spelling of its own path succeeds and loses it. *)
Example rename_other_spelling_loses_file :
  let s := after [Create path_f VFS_FLAG_FILE; Open path_f VFS_O_RDWR; Write 0 [7; 8] 2; Close 0] in
  let '(s', r) := vfs_rename path_f path_ff s in
  contents (flat (disk s)) [102] = Some [7; 8] /\ r = 0 /\ contents (flat (disk s')) [102] = None.
Proof. vm_compute. repeat split. Qed.

(** A file of more than 512 bytes is copied, but the renaming fails: both files
    are left. *)
Example rename_large_fails :
  let s := after [Create path_f VFS_FLAG_FILE; Open path_f VFS_O_RDWR; Write 0 (repeat 7 513) 513; Close 0] in
  let '(s', r) := vfs_rename path_f path_g s in
  r = -1 /\ fs_size (flat (disk s')) [102] = 513 /\ fs_size (flat (disk s')) [103] = 513.
Proof. vm_compute. repeat split. Qed.

(** A renamed file belongs to the superuser, whoever owned it. *)
Example rename_resets_owner :
  let s := after [Create path_f VFS_FLAG_FILE; Chown path_f 1000 1000] in
  let '(s', r) := vfs_rename path_f path_g s in
  (vfs_get_owner path_f s).2 = Some (1000, 1000) /\ r = 0 /\ (vfs_get_owner path_g s').2 = Some (0, 0).
Proof. vm_compute. repeat split. Qed.

(** A file that user 1000 may not read opens for reading under another spelling. *)
Example spelling_bypasses_mode :
  let s := after [Create path_f VFS_FLAG_FILE; Chmod path_f 0; Switch 0 (Some (Creds 1000 1000 1000 1000 [] 0))] in
  (vfs_open_flags path_f VFS_O_RDONLY s).2 = -1 /\ (vfs_open_flags path_ff VFS_O_RDONLY s).2 = 0.
Proof. vm_compute. repeat split. Qed.

(** With [/e/x] in place, a lookup of [/d/x] that fails makes it disappear: the miss
    is cached for the address of the node of [/d], which the node of [/e] gets next. *)
Example stale_negative_dentry :
  let s := after [Create [SLASH; 100] VFS_FLAG_DIR; Create [SLASH; 101] VFS_FLAG_DIR;
                  Create [SLASH; 101; SLASH; 120] VFS_FLAG_FILE] in
  let '(s', missing) := vfs_stat [SLASH; 100; SLASH; 120] s in
  (vfs_stat [SLASH; 101; SLASH; 120] s).2 <> None /\ missing = None /\
  contents (flat (disk s')) [101; SLASH; 120] = Some [] /\ (vfs_stat [SLASH; 101; SLASH; 120] s').2 = None.
Proof. vm_compute. repeat split. discriminate. Qed.
