(* ===== verification/Shm.v ===== *)
(** Shared-memory segments: [kernel/mem/shm.c].

    A segment owns page frames and counts its attachments; each task has a
    table of mappings and a page directory.  The theorems show that the count
    is the number of mappings over all tasks, so a segment that is attached
    anywhere is never released, and that the window allocator finds a free run
    of pages exactly when there is one.  Frames come from the frame-allocator
    interface; the page directory is used through [UserPaging] below. *)
From S2P Require Import Prelude.
From S2P Require Import Interfaces.
From Stdlib Require Import ZArith Lia.
From stdpp Require Import base numbers list gmap relations.

Open Scope Z_scope.
Open Scope lyth_scope.

Definition PAGING_PAGE_SIZE : Z := 4096.
Definition PAGING_USER_BASE : Z := 16777216.
Definition PAGING_USER_SIZE : Z := 4194304.
Definition PAGING_USER_STACK_SIZE : Z := 4096.
Definition PAGING_USER_SHM_SIZE : Z := 16 * PAGING_PAGE_SIZE.
Definition PAGING_USER_STACK_GUARD_BASE : Z :=
  PAGING_USER_BASE + PAGING_USER_SIZE - PAGING_USER_STACK_SIZE - PAGING_PAGE_SIZE.
Definition PAGING_USER_SHM_BASE : Z := PAGING_USER_STACK_GUARD_BASE - PAGING_USER_SHM_SIZE.

Definition SHM_MAX_SEGMENTS : Z := 16.
Definition SHM_MAX_MAPPINGS : Z := 8.
Definition SHM_MAX_PAGES : Z := PAGING_USER_SHM_SIZE / PAGING_PAGE_SIZE.

(** What the segments need of a page directory: [paging_map_user_page] and
    [paging_unmap_user_page]. *)
Class UserPaging (D : Type) := {
  up_map : D -> Z -> Z -> D * bool;
  up_unmap : D -> Z -> D;
  up_lookup : D -> Z -> option Z;
}.

Class UserPagingLaws (D : Type) `{UserPaging D} := {
  up_map_lookup d va pa d' : up_map d va pa = (d', true) ->
    forall v, up_lookup d' v = if decide (v = va) then Some pa else up_lookup d v;
  up_map_fail d va pa d' : up_map d va pa = (d', false) -> d' = d;
  up_unmap_lookup d va v : v <> va -> up_lookup (up_unmap d va) v = up_lookup d v;
}.

Record shm_segment := ShmSegment {
  used : bool;
  id : Z;
  size : Z;
  page_count : Z;
  ref_count : Z;
  marked_for_delete : bool;
  frames : list Z;
}.

Definition free_segment : shm_segment :=
  ShmSegment false 0 0 0 0 false (repeat 0 (Z.to_nat SHM_MAX_PAGES)).

#[export] Instance shm_segment_inhabited : Inhabited shm_segment := populate free_segment.

Record shm_mapping := ShmMapping { m_used : bool; segment_id : Z; base : Z; m_size : Z }.

Definition free_mapping : shm_mapping := ShmMapping false 0 0 0.

#[export] Instance shm_mapping_inhabited : Inhabited shm_mapping := populate free_mapping.

Definition shm_align_up (value alignment : Z) : Z :=
  Z.land (u32 (value + alignment - 1)) (not32 (alignment - 1)).

Definition shm_page_count_for_size (size : Z) : Z :=
  if (size =? 0) || (PAGING_USER_SHM_SIZE <? size) then -1
  else
    let aligned_size := shm_align_up size PAGING_PAGE_SIZE in
    if (aligned_size =? 0) || (PAGING_USER_SHM_SIZE <? aligned_size) then -1
    else aligned_size / PAGING_PAGE_SIZE.

Definition shm_slot_find_free (slots : list shm_mapping) (slot_count : Z) : option Z :=
  find_first (fun i => negb (m_used slots.[i])) (Z.to_nat slot_count) 0.

(** Lines 88-110: the window pages taken by the mappings of a task. *)
Definition shm_used_pages (slots : list shm_mapping) (slot_count : Z) : list Z :=
  for_loop (fun slot used_pages =>
    let s := slots.[slot] in
    if negb (m_used s) || (m_size s =? 0) then used_pages
    else if (base s <? PAGING_USER_SHM_BASE)
            || (PAGING_USER_SHM_BASE + PAGING_USER_SHM_SIZE <=? base s) then used_pages
    else
      let first_page := u32 ((base s - PAGING_USER_SHM_BASE) / PAGING_PAGE_SIZE) in
      let count := shm_align_up (m_size s) PAGING_PAGE_SIZE / PAGING_PAGE_SIZE in
      for_loop (fun page up =>
        if u32 (first_page + page) <? SHM_MAX_PAGES then up.[first_page + page <- 1] else up)
        (Z.to_nat count) 0 used_pages)
    (Z.to_nat slot_count) 0 (repeat 0 (Z.to_nat SHM_MAX_PAGES)).

(** Lines 112-126: the inner loop finds the first taken page of the run and the
    outer one continues after it. *)
Fixpoint shm_scan (fuel : nat) (used_pages : list Z) (page_count first_page : Z) : option Z :=
  match fuel with
  | O => None
  | S f =>
      if SHM_MAX_PAGES <? first_page + page_count then None
      else match find_first (fun page => negb (used_pages.[first_page + page] =? 0))
                   (Z.to_nat page_count) 0 with
           | Some page => shm_scan f used_pages page_count (first_page + page + 1)
           | None => Some first_page
           end
  end.

Definition shm_find_free_base (slots : list shm_mapping) (slot_count page_count : Z) : Z :=
  if (page_count =? 0) || (SHM_MAX_PAGES <? page_count) then 0
  else
    match shm_scan (S (Z.to_nat SHM_MAX_PAGES)) (shm_used_pages slots slot_count) page_count 0 with
    | Some first_page => PAGING_USER_SHM_BASE + first_page * PAGING_PAGE_SIZE
    | None => 0
    end.

Section shm.
Context {F : Type} `{FrameAllocator F}.
Context {D : Type} `{UserPaging D}.

(** The statics of the file, the frame allocator, and the pages the kernel
    cleared (frame to contents). *)
Record shms := Shms {
  shm_segments : list shm_segment;
  shm_next_id : Z;
  shm_frames : F;
  shm_pages : gmap Z (list Z);
}.

Definition set_segment (s : shms) (i : Z) (g : shm_segment) : shms :=
  Shms (shm_segments s).[i <- g] (shm_next_id s) (shm_frames s) (shm_pages s).

(** [shm_find_segment]: the index instead of the address. *)
Definition shm_find_segment (s : shms) (segment_id : Z) : option Z :=
  find_first (fun i => used (shm_segments s).[i] && (id (shm_segments s).[i] =? segment_id))
             (Z.to_nat SHM_MAX_SEGMENTS) 0.

(** Lines 54-59 of [shm_release_segment]: free and clear the frames. *)
Definition release_frames (fa : F) (fr : list Z) (n : Z) : F * list Z :=
  for_loop (fun page '(fa, fr) =>
    if negb (fr.[page] =? 0) then (fa_free fa fr.[page], fr.[page <- 0]) else (fa, fr))
    (Z.to_nat n) 0 (fa, fr).

Definition shm_release_segment (s : shms) (i : Z) : shms :=
  let g := (shm_segments s).[i] in
  if negb (used g) || negb (ref_count g =? 0) then s
  else
    let '(fa, fr) := release_frames (shm_frames s) (frames g) (page_count g) in
    Shms (shm_segments s).[i <- ShmSegment false 0 0 0 0 false fr] (shm_next_id s) fa (shm_pages s).

(** Lines 147-156: map the pages, undoing them when one fails. *)
Fixpoint map_pages (n : nat) (d : D) (bs : Z) (fr : list Z) (page : Z) : D * bool :=
  match n with
  | O => (d, true)
  | S n' =>
      let '(d', ok) := up_map d (bs + page * PAGING_PAGE_SIZE) fr.[page] in
      if ok then map_pages n' d' bs fr (page + 1)
      else (for_loop (fun k d => up_unmap d (bs + (page - 1 - k) * PAGING_PAGE_SIZE))
              (Z.to_nat page) 0 d', false)
  end.

(** [None] stands for a NULL directory. *)
Definition shm_attach_at (s : shms) (directory : option D) (slots : list shm_mapping)
    (slot_count : Z) (i : Z) (bs : Z) : shms * option D * list shm_mapping * bool :=
  let g := (shm_segments s).[i] in
  match directory with
  | None => (s, directory, slots, false)
  | Some d =>
      if negb (used g) then (s, directory, slots, false)
      else match shm_slot_find_free slots slot_count with
           | None => (s, directory, slots, false)
           | Some slot_index =>
               let '(d, ok) := map_pages (Z.to_nat (page_count g)) d bs (frames g) 0 in
               if negb ok then (s, Some d, slots, false)
               else
                 (set_segment s i (ShmSegment (used g) (id g) (size g) (page_count g)
                    (ref_count g + 1) (marked_for_delete g) (frames g)),
                  Some d, slots.[slot_index <- ShmMapping true (id g) bs (size g)], true)
           end
  end.

(** Lines 181-186: one reference less, and the deferred release. *)
Definition drop_ref (s : shms) (segment : option Z) : shms :=
  match segment with
  | None => s
  | Some i =>
      let g := (shm_segments s).[i] in
      if 0 <? ref_count g then
        let s := set_segment s i (ShmSegment (used g) (id g) (size g) (page_count g)
          (ref_count g - 1) (marked_for_delete g) (frames g)) in
        if marked_for_delete g && (ref_count g - 1 =? 0) then shm_release_segment s i else s
      else s
  end.

Definition shm_detach_slot (s : shms) (directory : option D) (slots : list shm_mapping) (k : Z)
    : shms * option D * list shm_mapping * Z :=
  match directory with
  | None => (s, directory, slots, 0)
  | Some d =>
      let slot := slots.[k] in
      if negb (m_used slot) then (s, directory, slots, 0)
      else
        let segment := shm_find_segment s (segment_id slot) in
        let pc := shm_align_up (m_size slot) PAGING_PAGE_SIZE / PAGING_PAGE_SIZE in
        let d := for_loop (fun page d => up_unmap d (base slot + page * PAGING_PAGE_SIZE))
                   (Z.to_nat pc) 0 d in
        let s := drop_ref s segment in
        (s, Some d, slots.[k <- free_mapping], 1)
  end.

Definition shm_init (s : shms) : shms :=
  Shms (for_loop (fun i gs => gs.[i <- ShmSegment false 0 0 0 0 false
          (blit (fun _ => 0) 0 SHM_MAX_PAGES (frames gs.[i]))])
          (Z.to_nat SHM_MAX_SEGMENTS) 0 (shm_segments s)) 1 (shm_frames s) (shm_pages s).

(** Lines 236-248: allocate and clear the frames of segment [i]; [false] when
    memory ran out. *)
Fixpoint create_frames (n : nat) (s : shms) (i page : Z) : shms * bool :=
  match n with
  | O => (s, true)
  | S n' =>
      let '(fa, frame) := fa_alloc (shm_frames s) in
      let s := Shms (shm_segments s) (shm_next_id s) fa (shm_pages s) in
      let g := (shm_segments s).[i] in
      if frame =? 0 then
        let s := set_segment s i (ShmSegment (used g) (id g) (size g) (page_count g) (ref_count g)
                   true (frames g)) in
        (shm_release_segment s i, false)
      else
        let g' := ShmSegment (used g) (id g) (size g) (page_count g) (ref_count g)
                    (marked_for_delete g) (frames g).[page <- frame] in
        create_frames n'
          (Shms (shm_segments s).[i <- g'] (shm_next_id s) fa
                (<[frame := repeat 0 (Z.to_nat PAGING_PAGE_SIZE)]> (shm_pages s))) i (page + 1)
  end.

Definition shm_create (s : shms) (sz : Z) : shms * Z :=
  let pc := shm_page_count_for_size sz in
  if pc <=? 0 then (s, -1)
  else match find_first (fun i => negb (used (shm_segments s).[i])) (Z.to_nat SHM_MAX_SEGMENTS) 0 with
       | None => (s, -1)
       | Some slot =>
           let g := (shm_segments s).[slot] in
           let sid := shm_next_id s in
           let s := Shms (shm_segments s).[slot <- ShmSegment true sid sz pc 0 false (frames g)]
                         (sid + 1) (shm_frames s) (shm_pages s) in
           let '(s, ok) := create_frames (Z.to_nat pc) s slot 0 in
           if ok then (s, id (shm_segments s).[slot]) else (s, -1)
       end.

Definition shm_attach (s : shms) (directory : option D) (slots : list shm_mapping)
    (slot_count sid : Z) : shms * option D * list shm_mapping * Z :=
  match shm_find_segment s sid with
  | None => (s, directory, slots, 0)
  | Some i =>
      let g := (shm_segments s).[i] in
      if marked_for_delete g then (s, directory, slots, 0)
      else
        let bs := shm_find_free_base slots slot_count (page_count g) in
        if bs =? 0 then (s, directory, slots, 0)
        else
          let '(s, directory, slots, ok) := shm_attach_at s directory slots slot_count i bs in
          if negb ok then (s, directory, slots, 0) else (s, directory, slots, bs)
  end.

Definition shm_detach (s : shms) (directory : option D) (slots : list shm_mapping)
    (slot_count address : Z) : shms * option D * list shm_mapping * Z :=
  match find_first (fun i => m_used slots.[i] && (base slots.[i] <=? address) &&
                             (address <? base slots.[i] + m_size slots.[i]))
          (Z.to_nat slot_count) 0 with
  | Some i => shm_detach_slot s directory slots i
  | None => (s, directory, slots, 0)
  end.

Definition shm_detach_all (s : shms) (directory : option D) (slots : list shm_mapping)
    (slot_count : Z) : shms * option D * list shm_mapping :=
  match directory with
  | None => (s, directory, slots)
  | Some _ =>
      for_loop (fun i '(s, directory, slots) =>
        if m_used slots.[i] then
          let '(s, directory, slots, _) := shm_detach_slot s directory slots i in
          (s, directory, slots)
        else (s, directory, slots)) (Z.to_nat slot_count) 0 (s, directory, slots)
  end.

(** Lines 322-340 of [shm_clone_mappings]. *)
Fixpoint clone_loop (n : nat) (i : Z) (s : shms) (cdir : option D) (cslots : list shm_mapping)
    (ccount : Z) (pslots : list shm_mapping) : shms * option D * list shm_mapping * bool :=
  match n with
  | O => (s, cdir, cslots, true)
  | S n' =>
      let p := pslots.[i] in
      if negb (m_used p) then clone_loop n' (i + 1) s cdir cslots ccount pslots
      else
        let fail '(s, cdir, cslots) :=
          let '(s, cdir, cslots) := shm_detach_all s cdir cslots ccount in
          (s, cdir, cslots, false) in
        match shm_find_segment s (segment_id p) with
        | None => fail (s, cdir, cslots)
        | Some k =>
            if marked_for_delete (shm_segments s).[k] then fail (s, cdir, cslots)
            else
              let '(s, cdir, cslots, ok) := shm_attach_at s cdir cslots ccount k (base p) in
              if negb ok then fail (s, cdir, cslots)
              else clone_loop n' (i + 1) s cdir cslots ccount pslots
        end
  end.

Definition shm_clone_mappings (s : shms) (cdir : option D) (cslots : list shm_mapping) (ccount : Z)
    (pslots : list shm_mapping) (pcount : Z) : shms * option D * list shm_mapping * bool :=
  match cdir with
  | None => (s, cdir, cslots, false)
  | Some _ =>
      let cslots := blit (fun _ => free_mapping) 0 ccount cslots in
      clone_loop (Z.to_nat pcount) 0 s cdir cslots ccount pslots
  end.

Definition shm_unlink (s : shms) (sid : Z) : shms * Z :=
  match shm_find_segment s sid with
  | None => (s, -1)
  | Some i =>
      let g := (shm_segments s).[i] in
      let s := set_segment s i (ShmSegment (used g) (id g) (size g) (page_count g) (ref_count g)
                 true (frames g)) in
      ((if ref_count g =? 0 then shm_release_segment s i else s), 0)
  end.

Record shm_segment_info := ShmInfo {
  si_id : Z; si_size : Z; si_ref_count : Z; si_marked : bool }.

Definition shm_list (s : shms) (out_valid : bool) (max_segments : Z) : list shm_segment_info :=
  if negb out_valid || (max_segments <=? 0) then []
  else for_loop (fun i out =>
         let g := (shm_segments s).[i] in
         if (Z.of_nat (length out) <? max_segments) && used g
         then out ++ [ShmInfo (id g) (size g) (ref_count g) (marked_for_delete g)]
         else out) (Z.to_nat SHM_MAX_SEGMENTS) 0 [].

End shm.
Arguments shms : clear implicits.

(** * The window allocator *)

(** Pages of a size, and the window pages a mapping takes. *)
Definition pages (n : Z) : Z := (n + 4095) / 4096.
Definition first_page (m : shm_mapping) : Z := (base m - PAGING_USER_SHM_BASE) / 4096.
Definition covers (m : shm_mapping) (k : Z) : Prop :=
  m_used m = true /\ first_page m <= k < first_page m + pages (m_size m).

Definition mapping_ok (m : shm_mapping) : Prop :=
  m_used m = true ->
  1 <= m_size m <= PAGING_USER_SHM_SIZE /\
  base m = PAGING_USER_SHM_BASE + 4096 * first_page m /\
  0 <= first_page m /\ first_page m + pages (m_size m) <= SHM_MAX_PAGES.

Definition slots_ok (slots : list shm_mapping) : Prop :=
  Z.of_nat (length slots) = SHM_MAX_MAPPINGS /\
  forall i, 0 <= i < SHM_MAX_MAPPINGS -> mapping_ok slots.[i].

Lemma shm_align_up_eq n :
  0 <= n <= 65536 -> shm_align_up n PAGING_PAGE_SIZE = 4096 * pages n.
Proof.
  intros Hn. unfold shm_align_up, PAGING_PAGE_SIZE, pages. rewrite u32_small by lia.
  change (4096 - 1) with (2 ^ 12 - 1). rewrite land_not32_pow2 by lia.
  change (2 ^ 12) with 4096. do 2 f_equal. lia.
Qed.

Lemma shm_page_count_eq n :
  0 <= n < 4294967296 ->
  shm_page_count_for_size n = if decide (1 <= n <= PAGING_USER_SHM_SIZE) then pages n else -1.
Proof.
  intros Hn. unfold shm_page_count_for_size. change PAGING_USER_SHM_SIZE with 65536.
  case_if. { rewrite decide_False; [done|]. destruct Hif; bool_to_prop; lia. }
  rewrite shm_align_up_eq by lia. rewrite decide_True by lia. unfold pages, PAGING_PAGE_SIZE.
  case_if; [destruct Hif; bool_to_prop; zlia|]. zlia.
Qed.

(** One slot's pages, marked in the array. *)
Lemma mark_pages_spec m (up : list Z) k :
  m_used m = true -> mapping_ok m -> length up = 16%nat -> 0 <= k < 16 ->
  (for_loop (fun page up => if u32 (first_page m + page) <? SHM_MAX_PAGES
     then up.[first_page m + page <- 1] else up) (Z.to_nat (pages (m_size m))) 0 up).[k]
  = if decide (covers m k) then 1 else up.[k].
Proof.
  intros Hu Hm Hl Hk. destruct (Hm Hu) as (Hs & Hb & Hf & Hp). unfold SHM_MAX_PAGES in Hp.
  change (PAGING_USER_SHM_SIZE / PAGING_PAGE_SIZE) with 16 in Hp.
  assert (0 <= pages (m_size m)) by (unfold pages; zlia).
  rewrite (for_loop_ext_range _ (fun page up => up.[first_page m + page <- 1])).
  - change (for_loop _ _ _ up) with (blit (fun _ => 1) (first_page m) (pages (m_size m)) up).
    rewrite blit_get by lia. unfold covers. repeat case_decide; tauto || done.
  - intros j t Hj. rewrite u32_small by lia. change SHM_MAX_PAGES with 16.
    by rewrite (proj2 (Z.ltb_lt _ _)) by lia.
Qed.

#[export] Instance covers_dec m k : Decision (covers m k).
Proof. unfold covers. apply _. Defined.

(** The array marks exactly the covered pages. *)
Lemma shm_used_pages_spec slots k :
  slots_ok slots -> 0 <= k < 16 ->
  (shm_used_pages slots SHM_MAX_MAPPINGS).[k] <> 0 <->
  exists i, 0 <= i < SHM_MAX_MAPPINGS /\ covers slots.[i] k.
Proof.
  intros [Hl Hok] Hk. unfold shm_used_pages.
  pose (I := fun (j : Z) (up : list Z) => length up = 16%nat /\ forall k, 0 <= k < 16 ->
    up.[k] <> 0 <-> exists i, 0 <= i < j /\ covers slots.[i] k).
  match goal with |- (for_loop ?b ?n 0 ?u).[_] <> 0 <-> _ =>
    enough (I (0 + Z.of_nat n) (for_loop b n 0 u)) as [_ HI] by (exact (HI k Hk)) end.
  apply (for_loop_ind I); unfold I.
  - split; [done|]. intros j Hj. split.
    + intros Hne. exfalso. apply Hne. unfold aget. rewrite list_lookup_total_alt.
      change (Z.to_nat SHM_MAX_PAGES) with 16%nat.
      by rewrite (lookup_replicate_2 16 0) by lia.
    + intros (i & ? & _). lia.
  - intros j up Hj [Hlen IH]. change (0 + Z.of_nat (Z.to_nat SHM_MAX_MAPPINGS)) with SHM_MAX_MAPPINGS in Hj.
    assert (mapping_ok slots.[j]) as Hm by (apply Hok; lia).
    assert (forall k, ~ covers slots.[j] k ->
      (exists i, 0 <= i < j + 1 /\ covers slots.[i] k) <-> (exists i, 0 <= i < j /\ covers slots.[i] k))
      as Hskip.
    { intros k' Hn. split; intros (i & Hi & Hc); exists i; (split; [|done]); [|lia].
      destruct (decide (i = j)) as [->|]; [done|lia]. }
    destruct (m_used slots.[j]) eqn:Hu; simpl.
    2: { split; [done|]. intros k' Hk'. rewrite IH by done. symmetry. apply Hskip.
         intros [? _]. congruence. }
    destruct (Hm Hu) as (Hs & Hb & Hf & Hp).
    assert (1 <= pages (m_size slots.[j])) by (unfold pages; zlia).
    change SHM_MAX_PAGES with 16 in Hp.
    rewrite (proj2 (Z.eqb_neq (m_size _) 0)) by lia.
    rewrite (proj2 (Z.ltb_ge _ PAGING_USER_SHM_BASE)) by lia.
    rewrite (proj2 (Z.leb_gt _ (base _))) by (change PAGING_USER_SHM_SIZE with 65536; lia).
    simpl. change ((base slots.[j] - PAGING_USER_SHM_BASE) / PAGING_PAGE_SIZE) with (first_page slots.[j]).
    rewrite (u32_small (first_page _)) by lia.
    rewrite shm_align_up_eq by (change PAGING_USER_SHM_SIZE with 65536 in Hs; lia).
    unfold PAGING_PAGE_SIZE. rewrite (Z.mul_comm 4096), Z.div_mul by lia.
    split.
    + match goal with |- length (for_loop ?b ?n 0 up) = _ =>
        apply (for_loop_ind (fun _ t => length t = 16%nat) b n 0 up) end; [done|].
      intros. case_if; [by rewrite aset_length|done].
    + intros k' Hk'. rewrite mark_pages_spec by done. case_decide as Hc.
      * split; [|done]. intros _. exists j. split; [lia|done].
      * rewrite IH by done. symmetry. by apply Hskip.
Qed.

(** The skipping scan finds the first free run and fails only without one. *)
Lemma shm_scan_spec (up : list Z) pc f p :
  0 < pc -> 0 <= p -> 17 <= Z.of_nat f + p ->
  match shm_scan f up pc p with
  | Some r => p <= r /\ r + pc <= 16 /\ (forall k, r <= k < r + pc -> up.[k] = 0)
  | None => forall r, p <= r -> r + pc <= 16 -> exists k, r <= k < r + pc /\ up.[k] <> 0
  end.
Proof.
  intros Hpc. revert p. induction f as [|f IH]; intros p Hp Hf; cbn [shm_scan].
  - intros; lia.
  - change SHM_MAX_PAGES with 16. case_if; [intros; lia|].
    destruct (find_first _ _ _) as [page|] eqn:E.
    + apply find_first_Some in E as (Hr & Hu & _). bool_to_prop.
      specialize (IH (p + page + 1)). destruct (shm_scan f up pc (p + page + 1)) as [r|].
      * destruct IH as (? & ? & ?); [lia|lia|]. split_and!; [lia|lia|done].
      * intros r Hr1 Hr2. destruct (decide (p + page + 1 <= r)); [apply IH; lia|].
        exists (p + page). split; [lia|done].
    + rewrite find_first_None in E. split_and!; [lia|lia|]. intros k Hk.
      specialize (E (k - p) ltac:(lia)). bool_to_prop. by replace (p + (k - p)) with k in E by lia.
Qed.

Lemma find_free_base_spec slots pc :
  slots_ok slots -> 1 <= pc <= 16 ->
  let b := shm_find_free_base slots SHM_MAX_MAPPINGS pc in
  (b = 0 /\ forall r, 0 <= r -> r + pc <= 16 ->
     exists k i, r <= k < r + pc /\ 0 <= i < SHM_MAX_MAPPINGS /\ covers slots.[i] k) \/
  (exists r, 0 <= r /\ r + pc <= 16 /\ b = PAGING_USER_SHM_BASE + 4096 * r /\
     forall k i, r <= k < r + pc -> 0 <= i < SHM_MAX_MAPPINGS -> ~ covers slots.[i] k).
Proof.
  intros Hok Hpc. unfold shm_find_free_base. change SHM_MAX_PAGES with 16.
  rewrite (proj2 (Z.eqb_neq pc 0)), (proj2 (Z.ltb_ge 16 pc)) by lia. cbn [orb].
  pose proof (shm_scan_spec (shm_used_pages slots SHM_MAX_MAPPINGS) pc (S (Z.to_nat 16)) 0) as Hs.
  destruct (shm_scan _ _ pc 0) as [r|].
  - destruct Hs as (Hr & Hr' & Hfree); [lia..|]. right. exists r.
    split_and!; [lia|lia|unfold PAGING_PAGE_SIZE; lia|]. intros k i Hk Hi Hc.
    apply (proj2 (shm_used_pages_spec slots k Hok ltac:(lia))); [by exists i|]. by apply Hfree.
  - left. split; [done|]. intros r Hr Hr'. destruct (Hs ltac:(lia) ltac:(lia) ltac:(lia) r Hr Hr') as (k & Hk & Hu).
    apply shm_used_pages_spec in Hu as (i & Hi & Hc); [|done|lia]. by exists k, i.
Qed.

(** * Segments, frames and references *)

Section props.
Context {F : Type} `{FrameAllocatorLaws F}.
Context {D : Type} `{UserPagingLaws D}.
Implicit Types (s : shms F) (refs : Z -> Z).

Notation seg s i := ((shm_segments s).[i]).

(** Frames: every nonzero cell belongs to a page of a used segment and is held
    from the frame allocator, and no frame occurs twice. *)
Record frames_ok s : Prop := FramesOk {
  f_inv : fa_inv (shm_frames s);
  f_segs : Z.of_nat (length (shm_segments s)) = SHM_MAX_SEGMENTS;
  f_len : forall i, 0 <= i < SHM_MAX_SEGMENTS -> Z.of_nat (length (frames (seg s i))) = SHM_MAX_PAGES;
  f_held : forall i k, 0 <= i < SHM_MAX_SEGMENTS -> 0 <= k < SHM_MAX_PAGES ->
    (frames (seg s i)).[k] <> 0 ->
    used (seg s i) = true /\ k < page_count (seg s i) /\ fa_held (shm_frames s) (frames (seg s i)).[k];
  f_inj : forall i j k l, 0 <= i < SHM_MAX_SEGMENTS -> 0 <= j < SHM_MAX_SEGMENTS ->
    0 <= k < SHM_MAX_PAGES -> 0 <= l < SHM_MAX_PAGES ->
    (frames (seg s i)).[k] <> 0 -> (frames (seg s i)).[k] = (frames (seg s j)).[l] -> i = j /\ k = l;
}.

(** The table: [refs] counts the mappings of each identifier. *)
Record shm_ok s refs : Prop := ShmOk {
  s_frames : frames_ok s;
  s_full : forall i k, 0 <= i < SHM_MAX_SEGMENTS -> used (seg s i) = true ->
    0 <= k < page_count (seg s i) -> (frames (seg s i)).[k] <> 0;
  s_geom : forall i, 0 <= i < SHM_MAX_SEGMENTS -> used (seg s i) = true ->
    1 <= size (seg s i) <= PAGING_USER_SHM_SIZE /\ page_count (seg s i) = pages (size (seg s i));
  s_ids : forall i, 0 <= i < SHM_MAX_SEGMENTS -> used (seg s i) = true ->
    1 <= id (seg s i) < shm_next_id s;
  s_uniq : forall i j, 0 <= i < SHM_MAX_SEGMENTS -> 0 <= j < SHM_MAX_SEGMENTS ->
    used (seg s i) = true -> used (seg s j) = true -> id (seg s i) = id (seg s j) -> i = j;
  s_refs : forall i, 0 <= i < SHM_MAX_SEGMENTS -> used (seg s i) = true ->
    ref_count (seg s i) = refs (id (seg s i));
  s_live : forall sid, refs sid <> 0 ->
    exists i, 0 <= i < SHM_MAX_SEGMENTS /\ used (seg s i) = true /\ id (seg s i) = sid;
  s_pos : forall sid, 0 <= refs sid;
  s_next : 1 <= shm_next_id s;
}.

Lemma pages_bound n : 1 <= n <= PAGING_USER_SHM_SIZE -> 1 <= pages n <= 16.
Proof. change PAGING_USER_SHM_SIZE with 65536. unfold pages. intros. zlia. Qed.

Lemma find_segment_spec s refs sid i :
  shm_ok s refs ->
  shm_find_segment s sid = Some i <->
  0 <= i < SHM_MAX_SEGMENTS /\ used (seg s i) = true /\ id (seg s i) = sid.
Proof.
  intros Hok. unfold shm_find_segment. split.
  - intros Hf. apply find_first_Some in Hf as (Hr & Hp & _). bool_to_prop.
    unfold SHM_MAX_SEGMENTS in *. split_and!; auto; lia.
  - intros (Hr & Hu & Hid). apply find_first_intro.
    + unfold SHM_MAX_SEGMENTS in *. lia.
    + by rewrite Hu, Hid, Z.eqb_refl.
    + intros j Hj. destruct (used (seg s j)) eqn:Hu'; [|done]. simpl.
      apply Z.eqb_neq. intros Hid'. enough (i = j) by lia.
      apply (s_uniq _ _ Hok); unfold SHM_MAX_SEGMENTS in *; try lia; congruence.
Qed.

Lemma find_segment_None s sid :
  shm_find_segment s sid = None ->
  forall i, 0 <= i < SHM_MAX_SEGMENTS -> used (seg s i) = true -> id (seg s i) <> sid.
Proof.
  unfold shm_find_segment. rewrite find_first_None. unfold SHM_MAX_SEGMENTS.
  intros Hn i Hi Hu. specialize (Hn i ltac:(lia)). rewrite Hu in Hn. simpl in Hn.
  by apply Z.eqb_neq.
Qed.

(** Freeing the first [n] cells of a frame array. *)
Lemma release_frames_spec (fa : F) (fr : list Z) n :
  0 <= n <= Z.of_nat (length fr) -> fa_inv fa ->
  (forall k, 0 <= k < n -> fr.[k] <> 0 -> fa_held fa fr.[k]) ->
  (forall k l, 0 <= k < n -> 0 <= l < n -> fr.[k] <> 0 -> fr.[k] = fr.[l] -> k = l) ->
  let '(fa', fr') := release_frames fa fr n in
  fa_inv fa' /\ length fr' = length fr /\
  (forall k, 0 <= k -> fr'.[k] = if decide (k < n) then 0 else fr.[k]) /\
  (forall b, fa_held fa' b <-> fa_held fa b /\ forall k, 0 <= k < n -> fr.[k] <> 0 -> fr.[k] <> b).
Proof.
  intros Hn Hinv Hheld Hinj. unfold release_frames.
  pose (I := fun (j : Z) (p : F * list Z) =>
    fa_inv p.1 /\ length p.2 = length fr /\
    (forall k, 0 <= k -> p.2.[k] = if decide (k < j) then 0 else fr.[k]) /\
    (forall b, fa_held p.1 b <-> fa_held fa b /\ forall k, 0 <= k < j -> fr.[k] <> 0 -> fr.[k] <> b)).
  match goal with |- context [for_loop ?bd ?m 0 ?p] =>
    enough (I (0 + Z.of_nat m) (for_loop bd m 0 p)) as HI end.
  { replace (0 + Z.of_nat (Z.to_nat n)) with n in HI by lia. by destruct (for_loop _ _ _ _). }
  apply (for_loop_ind I); unfold I; simpl.
  - split_and!; [done|done| |].
    + intros k Hk. by rewrite decide_False by lia.
    + intros b. split; [|by intros [? _]]. intros Hb. split; [done|]. intros; lia.
  - intros j [fa1 fr1] Hj (Hi1 & Hl1 & Hf1 & Hh1). simpl in *.
    assert (fr1.[j] = fr.[j]) as Ej by (rewrite Hf1 by lia; by rewrite decide_False by lia).
    rewrite Ej. destruct (decide (fr.[j] = 0)) as [E0|E0].
    + rewrite E0. simpl. split_and!; [done|done| |].
      * intros k Hk. rewrite Hf1 by done. destruct (decide (k = j)) as [->|].
        { rewrite decide_False, decide_True by lia. done. }
        repeat case_decide; done || lia.
      * intros b. rewrite Hh1. split; intros [Hb Hk]; (split; [done|]); intros k Hk' Hne.
        { destruct (decide (k = j)) as [->|]; [done|]. apply Hk; [lia|done]. }
        apply Hk; [lia|done].
    + rewrite (proj2 (Z.eqb_neq _ 0) E0). simpl.
      assert (fa_held fa1 fr.[j]) as Hhj.
      { apply Hh1. split; [apply Hheld; [lia|done]|]. intros k Hk Hne E.
        assert (k = j) by (apply Hinj; lia || done). lia. }
      pose proof (fa_held_range fa1 fr.[j] Hi1 Hhj).
      split_and!.
      * apply fa_free_inv; [done|lia].
      * by rewrite aset_length.
      * intros k Hk. destruct (decide (k = j)) as [->|].
        { rewrite aget_aset_eq by lia. by rewrite decide_True by lia. }
        rewrite aget_aset_ne by lia. rewrite Hf1 by done. repeat case_decide; done || lia.
      * intros b. rewrite fa_free_held by done. rewrite Hh1. split.
        { intros (Hne & Hb & Hk). split; [done|]. intros k Hk' Hz.
          destruct (decide (k = j)) as [->|]; [congruence|]. apply Hk; [lia|done]. }
        intros [Hb Hk]. split_and!; [|done|].
        { intros ->. by apply (Hk j); [lia|..]. }
        intros k Hk' Hz. apply Hk; [lia|done].
Qed.

(** Replacing segment [i] by one with the same frames. *)
Lemma set_segment_get s i g j :
  Z.of_nat (length (shm_segments s)) = SHM_MAX_SEGMENTS ->
  0 <= i < SHM_MAX_SEGMENTS -> 0 <= j < SHM_MAX_SEGMENTS ->
  (shm_segments s).[i <- g].[j] = if decide (i = j) then g else seg s j.
Proof.
  intros Hl Hi Hj. case_decide; [subst; apply aget_aset_eq; lia|apply aget_aset_ne; lia].
Qed.

(** Releasing segment [i] keeps the frame invariant and returns exactly its
    frames. *)
Lemma release_segment_frames s i :
  frames_ok s -> 0 <= i < SHM_MAX_SEGMENTS -> used (seg s i) = true -> ref_count (seg s i) = 0 ->
  0 <= page_count (seg s i) <= SHM_MAX_PAGES ->
  let s' := shm_release_segment s i in
  frames_ok s' /\ shm_next_id s' = shm_next_id s /\ used (seg s' i) = false /\
  (forall j, 0 <= j < SHM_MAX_SEGMENTS -> j <> i -> seg s' j = seg s j) /\
  (forall b, fa_held (shm_frames s') b <->
     fa_held (shm_frames s) b /\
     forall k, 0 <= k < page_count (seg s i) -> (frames (seg s i)).[k] <> 0 ->
       (frames (seg s i)).[k] <> b).
Proof.
  intros [Hinv Hlen Hfl Hheld Hinj] Hi Hu Hr Hpc. unfold shm_release_segment. rewrite Hu, Hr. simpl.
  pose proof (release_frames_spec (shm_frames s) (frames (seg s i)) (page_count (seg s i))) as Hrel.
  destruct (release_frames _ _ _) as [fa fr].
  destruct Hrel as (Hinv' & Hl' & Hfr & Hh).
  { rewrite Hfl by done. lia. }
  { done. }
  { intros k Hk Hz. apply Hheld; [done|lia|done]. }
  { intros k l Hk Hl Hz E. apply (Hinj i i); done || lia. }
  assert (forall k, 0 <= k < SHM_MAX_PAGES -> fr.[k] = 0) as Hz.
  { intros k Hk. rewrite Hfr by lia. case_decide; [done|].
    destruct (decide ((frames (seg s i)).[k] = 0)) as [|Hne]; [done|].
    apply Hheld in Hne as (_ & ? & _); [lia|done|done]. }
  cbn [shm_segments shm_next_id shm_frames].
  split_and!; [|done| | |exact Hh].
  - constructor; cbn [shm_segments shm_frames].
    + done.
    + by rewrite aset_length.
    + intros j Hj. rewrite set_segment_get by done. case_decide; [|by apply Hfl].
      cbn [frames]. rewrite Hl'. by apply Hfl.
    + intros j k Hj Hk. rewrite set_segment_get by done. case_decide as Eij.
      { cbn [frames]. by rewrite Hz. }
      intros Hne. destruct (Hheld j k Hj Hk Hne) as (? & ? & ?). split_and!; [done..|].
      apply Hh. split; [done|]. intros l Hl Hlz E.
      destruct (Hinj i j l k) as [? _]; try done; lia.
    + intros j1 j2 k l Hj1 Hj2 Hk Hl. rewrite !set_segment_get by done.
      repeat case_decide; cbn [frames]; rewrite ?Hz by done; try done.
      by apply Hinj.
  - rewrite set_segment_get by done. by rewrite decide_True by done.
  - intros j Hj Hne. rewrite set_segment_get by done. by rewrite decide_False by done.
Qed.

(** ** References *)

Definition add_ref refs (sid d : Z) : Z -> Z := fun x => if decide (x = sid) then refs x + d else refs x.

(** Segment [i] with its count moved by [d] and the delete mark [mk]. *)
Definition bump (g : shm_segment) (d : Z) (mk : bool) : shm_segment :=
  ShmSegment (used g) (id g) (size g) (page_count g) (ref_count g + d) mk (frames g).

Lemma bump_ok s refs i d mk :
  shm_ok s refs -> 0 <= i < SHM_MAX_SEGMENTS -> used (seg s i) = true ->
  0 <= refs (id (seg s i)) + d ->
  shm_ok (set_segment s i (bump (seg s i) d mk)) (add_ref refs (id (seg s i)) d).
Proof.
  intros [[Hinv Hlen Hfl Hheld Hinj] Hfull Hgeom Hids Huniq Hrefs Hlive Hpos Hnext] Hi Hu Hd.
  assert (forall j, 0 <= j < SHM_MAX_SEGMENTS ->
    let g := (shm_segments s).[i <- bump (seg s i) d mk].[j] in
    used g = used (seg s j) /\ id g = id (seg s j) /\ size g = size (seg s j) /\
    page_count g = page_count (seg s j) /\ frames g = frames (seg s j) /\
    ref_count g = if decide (i = j) then ref_count (seg s j) + d else ref_count (seg s j)) as Hg.
  { intros j Hj g. unfold g. rewrite set_segment_get by done. case_decide; subst; done. }
  constructor; [constructor|..]; cbn [set_segment shm_segments shm_frames shm_next_id].
  - done.
  - by rewrite aset_length.
  - intros j Hj. destruct (Hg j Hj) as (_ & _ & _ & _ & -> & _). by apply Hfl.
  - intros j k Hj Hk. destruct (Hg j Hj) as (-> & _ & _ & -> & -> & _). by apply Hheld.
  - intros j1 j2 k l Hj1 Hj2 Hk Hl. destruct (Hg j1 Hj1) as (_ & _ & _ & _ & -> & _).
    destruct (Hg j2 Hj2) as (_ & _ & _ & _ & -> & _). by apply Hinj.
  - intros j k Hj. destruct (Hg j Hj) as (-> & _ & _ & -> & -> & _). by apply Hfull.
  - intros j Hj. destruct (Hg j Hj) as (-> & _ & -> & -> & _ & _). by apply Hgeom.
  - intros j Hj. destruct (Hg j Hj) as (-> & -> & _ & _ & _ & _). by apply Hids.
  - intros j1 j2 Hj1 Hj2. destruct (Hg j1 Hj1) as (-> & -> & _ & _ & _ & _).
    destruct (Hg j2 Hj2) as (-> & -> & _ & _ & _ & _). by apply Huniq.
  - intros j Hj. destruct (Hg j Hj) as (-> & -> & _ & _ & _ & ->). intros Huj. unfold add_ref.
    rewrite Hrefs by done. destruct (decide (i = j)) as [->|Hne]; [by rewrite decide_True|].
    rewrite decide_False; [done|]. intros E. apply Hne. symmetry. by apply Huniq.
  - intros sid Hs. unfold add_ref in Hs. case_decide as E.
    + exists i. destruct (Hg i Hi) as (-> & -> & _). by rewrite E.
    + destruct (Hlive sid Hs) as (j & Hj & Huj & Hidj). exists j.
      destruct (Hg j Hj) as (-> & -> & _). done.
  - intros sid. unfold add_ref. case_decide; [by subst|]. apply Hpos.
  - done.
Qed.

Lemma shm_ok_ext s refs refs' : (forall x, refs x = refs' x) -> shm_ok s refs -> shm_ok s refs'.
Proof.
  intros E [? ? ? ? ? Hr Hl Hp ?]. constructor; try done.
  - intros i Hi Hu. by rewrite <- E, Hr.
  - intros sid. rewrite <- E. apply Hl.
  - intros sid. rewrite <- E. apply Hp.
Qed.

Lemma release_ok s refs i :
  shm_ok s refs -> 0 <= i < SHM_MAX_SEGMENTS -> used (seg s i) = true -> ref_count (seg s i) = 0 ->
  shm_ok (shm_release_segment s i) refs.
Proof.
  intros [Hf Hfull Hgeom Hids Huniq Hrefs Hlive Hpos Hnext] Hi Hu Hr.
  destruct (Hgeom i Hi Hu) as [Hsz Hpc]. pose proof (pages_bound _ Hsz) as Hpb.
  destruct (release_segment_frames s i Hf Hi Hu Hr) as (Hf' & Hn & Hu' & Hrest & _).
  { change SHM_MAX_PAGES with 16. lia. }
  assert (forall j, 0 <= j < SHM_MAX_SEGMENTS -> used (seg (shm_release_segment s i) j) = true ->
    seg (shm_release_segment s i) j = seg s j) as Hg.
  { intros j Hj Huj. apply Hrest; [done|]. intros ->. congruence. }
  constructor; try done; rewrite ?Hn.
  - intros j k Hj Huj. pose proof Huj as Huj'. rewrite Hg in Huj' |- * by done. by apply Hfull.
  - intros j Hj Huj. pose proof Huj as Huj'. rewrite Hg in Huj' |- * by done. by apply Hgeom.
  - intros j Hj Huj. pose proof Huj as Huj'. rewrite Hg in Huj' |- * by done. by apply Hids.
  - intros j1 j2 Hj1 Hj2 H1u H2u. pose proof H1u as H1u'. pose proof H2u as H2u'.
    rewrite Hg in H1u' |- * by done. rewrite Hg in H2u' |- * by done. by apply Huniq.
  - intros j Hj Huj. pose proof Huj as Huj'. rewrite Hg in Huj' |- * by done. by apply Hrefs.
  - intros sid Hs. destruct (Hlive sid Hs) as (j & Hj & Huj & Hidj). exists j.
    assert (j <> i). { intros ->. apply Hs. rewrite <- Hidj, <- Hrefs by done. done. }
    rewrite Hrest by done. done.
  - done.
Qed.

Lemma drop_ref_ok s refs sid :
  shm_ok s refs -> 0 < refs sid ->
  shm_ok (drop_ref s (shm_find_segment s sid)) (add_ref refs sid (-1)).
Proof.
  intros Hok Hpos. destruct (s_live _ _ Hok sid ltac:(lia)) as (i & Hi & Hu & Hid).
  rewrite (proj2 (find_segment_spec s refs sid i Hok)) by done. unfold drop_ref.
  rewrite (s_refs _ _ Hok i Hi Hu), Hid. rewrite (proj2 (Z.ltb_lt 0 _)) by done.
  assert (refs sid - 1 = ref_count (seg s i) + -1) as E
    by (rewrite (s_refs _ _ Hok i Hi Hu), Hid; lia).
  pose proof (bump_ok s refs i (-1) (marked_for_delete (seg s i)) Hok Hi Hu) as Hb.
  rewrite Hid in Hb. specialize (Hb ltac:(lia)). unfold bump in Hb. rewrite Hid in Hb.
  rewrite <- E in Hb. case_if; [|exact Hb].
  pose proof (f_segs _ (s_frames _ _ Hok)) as Hl.
  apply release_ok; [exact Hb|done|..]; cbn [set_segment shm_segments];
    rewrite set_segment_get, decide_True by done; [done|]. cbn [ref_count]. lia.
Qed.

(** ** Mapping tables *)

Definition maps_to (sid : Z) (m : shm_mapping) : bool := m_used m && (segment_id m =? sid).
Definition cnt (slots : list shm_mapping) (sid : Z) : Z :=
  foldr (fun m a => b2z (maps_to sid m) + a) 0 slots.

Lemma cnt_nonneg slots sid : 0 <= cnt slots sid.
Proof. induction slots as [|m l IH]; simpl; [lia|]. destruct (maps_to sid m); simpl; lia. Qed.

Lemma cnt_set slots k m sid :
  0 <= k < Z.of_nat (length slots) ->
  cnt slots.[k <- m] sid = cnt slots sid - b2z (maps_to sid slots.[k]) + b2z (maps_to sid m).
Proof.
  intros Hk. unfold aset, aget. replace k with (Z.of_nat (Z.to_nat k)) in Hk by lia.
  revert Hk. generalize (Z.to_nat k). clear k. intros k. revert k.
  induction slots as [|x l IH]; intros k Hk; [simpl in Hk; lia|].
  destruct k as [|k]; simpl; [lia|]. rewrite IH by (simpl in Hk; lia).
  change ((x :: l) !!! S k) with (l !!! k). lia.
Qed.

Lemma cnt_pos slots k :
  0 <= k < Z.of_nat (length slots) -> m_used slots.[k] = true ->
  0 < cnt slots (segment_id slots.[k]).
Proof.
  intros Hk Hu. pose proof (cnt_set slots k free_mapping (segment_id slots.[k]) Hk) as E.
  unfold maps_to at 1 in E. rewrite Hu, Z.eqb_refl in E. simpl in E.
  pose proof (cnt_nonneg slots.[k <- free_mapping] (segment_id slots.[k])). lia.
Qed.

(** Removing a used mapping, or filling a free slot. *)
Lemma cnt_clear slots k x :
  0 <= k < Z.of_nat (length slots) -> m_used slots.[k] = true ->
  cnt slots.[k <- free_mapping] x
  = if decide (x = segment_id slots.[k]) then cnt slots x - 1 else cnt slots x.
Proof.
  intros Hk Hu. rewrite cnt_set by done. unfold maps_to. rewrite Hu. simpl.
  case_decide; [subst; rewrite Z.eqb_refl|rewrite (proj2 (Z.eqb_neq _ x)) by done]; simpl; lia.
Qed.

Lemma cnt_fill slots k sid bs sz x :
  0 <= k < Z.of_nat (length slots) -> m_used slots.[k] = false ->
  cnt slots.[k <- ShmMapping true sid bs sz] x
  = if decide (x = sid) then cnt slots x + 1 else cnt slots x.
Proof.
  intros Hk Hu. rewrite cnt_set by done. unfold maps_to. rewrite Hu. simpl.
  case_decide; [subst; rewrite Z.eqb_refl|rewrite (proj2 (Z.eqb_neq _ x)) by done]; simpl; lia.
Qed.

(** No segment of [s'] is new to [s]. *)
Definition seg_sub s s' : Prop :=
  forall i, 0 <= i < SHM_MAX_SEGMENTS -> used (seg s' i) = true ->
    used (seg s i) = true /\ id (seg s' i) = id (seg s i) /\ size (seg s' i) = size (seg s i).

#[local] Instance seg_sub_refl : Reflexive seg_sub.
Proof. intros s i Hi Hu. done. Qed.

#[local] Instance seg_sub_trans : Transitive seg_sub.
Proof.
  intros s1 s2 s3 H12 H23 i Hi Hu. destruct (H23 i Hi Hu) as (Hu2 & -> & ->). by apply H12.
Qed.

(** A task's table: slots well formed, sizes those of the segments, and no
    window page mapped twice. *)
Record task_ok s (slots : list shm_mapping) : Prop := TaskOk {
  t_slots_ok : slots_ok slots;
  t_sizes : forall k i, 0 <= k < SHM_MAX_MAPPINGS -> 0 <= i < SHM_MAX_SEGMENTS ->
    m_used slots.[k] = true -> used (seg s i) = true -> id (seg s i) = segment_id slots.[k] ->
    size (seg s i) = m_size slots.[k];
  t_disj : forall k l p, 0 <= k < SHM_MAX_MAPPINGS -> 0 <= l < SHM_MAX_MAPPINGS -> k <> l ->
    ~ (covers slots.[k] p /\ covers slots.[l] p);
}.

Lemma task_ok_sub s s' slots : seg_sub s s' -> task_ok s slots -> task_ok s' slots.
Proof.
  intros Hsub [Hs Hz Hd]. constructor; try done. intros k i Hk Hi Hm Hu Hid.
  destruct (Hsub i Hi Hu) as (Hu' & Eid & ->). apply Hz; congruence.
Qed.

Lemma task_ok_clear s slots k :
  0 <= k < SHM_MAX_MAPPINGS -> task_ok s slots -> task_ok s slots.[k <- free_mapping].
Proof.
  intros Hk [[Hl Hs] Hz Hd].
  assert (forall j, 0 <= j < SHM_MAX_MAPPINGS ->
    slots.[k <- free_mapping].[j] = if decide (k = j) then free_mapping else slots.[j]) as Hg.
  { intros j Hj. case_decide; [subst; apply aget_aset_eq; lia|apply aget_aset_ne; lia]. }
  constructor; [split; [by rewrite aset_length|]|..].
  - intros j Hj. rewrite Hg by done. case_decide; [done|]. by apply Hs.
  - intros j i Hj Hi. rewrite Hg by done. case_decide; [done|]. by apply Hz.
  - intros j l p Hj Hl' Hne. rewrite !Hg by done.
    repeat case_decide; try (by intros [[? ?] [? ?]]). by apply Hd.
Qed.

Lemma task_ok_fill s slots k m :
  0 <= k < SHM_MAX_MAPPINGS -> task_ok s slots -> mapping_ok m ->
  (forall i, 0 <= i < SHM_MAX_SEGMENTS -> used (seg s i) = true ->
     id (seg s i) = segment_id m -> size (seg s i) = m_size m) ->
  (forall j p, 0 <= j < SHM_MAX_MAPPINGS -> j <> k -> ~ (covers slots.[j] p /\ covers m p)) ->
  task_ok s slots.[k <- m].
Proof.
  intros Hk [[Hl Hs] Hz Hd] Hm Hmz Hmd.
  assert (forall j, 0 <= j < SHM_MAX_MAPPINGS ->
    slots.[k <- m].[j] = if decide (k = j) then m else slots.[j]) as Hg.
  { intros j Hj. case_decide; [subst; apply aget_aset_eq; lia|apply aget_aset_ne; lia]. }
  constructor; [split; [by rewrite aset_length|]|..].
  - intros j Hj. rewrite Hg by done. case_decide; [done|]. by apply Hs.
  - intros j i Hj Hi. rewrite Hg by done. case_decide; [|by apply Hz]. intros _. by apply Hmz.
  - intros j l p Hj Hl' Hne. rewrite !Hg by done.
    repeat case_decide; subst; try done.
    + intros [? ?]. apply (Hmd l p); [done|congruence|done].
    + apply Hmd; [done|congruence].
    + by apply Hd.
Qed.

(** ** Operations on one task, the others' references being [other] *)

Definition plus (f g : Z -> Z) : Z -> Z := fun x => f x + g x.

Lemma release_sub s i : seg_sub s (shm_release_segment s i).
Proof.
  unfold shm_release_segment. case_if; [done|].
  destruct (release_frames _ _ _) as [fa fr]. intros j Hj. cbn [shm_segments].
  destruct (decide (0 <= i < Z.of_nat (length (shm_segments s)))) as [Hi|Hi].
  - destruct (decide (i = j)) as [->|]; [by rewrite aget_aset_eq|]. by rewrite aget_aset_ne by lia.
  - unfold aset. destruct (decide (i < 0)) as [Hn|Hn].
    + destruct (decide (j = 0)) as [->|].
      * destruct (shm_segments s); [done|]. replace (Z.to_nat i) with 0%nat by lia. done.
      * unfold aget. rewrite list_lookup_total_insert_ne by lia. done.
    + rewrite list_insert_ge by lia. done.
Qed.

Lemma set_bump_sub s i d mk : 0 <= i -> seg_sub s (set_segment s i (bump (seg s i) d mk)).
Proof.
  intros Hi j Hj. cbn [set_segment shm_segments].
  destruct (decide (Z.of_nat (length (shm_segments s)) <= i)) as [Ho|Ho].
  - by rewrite aset_outside.
  - destruct (decide (i = j)) as [->|]; [rewrite aget_aset_eq by lia; done|].
    by rewrite aget_aset_ne by lia.
Qed.

Lemma drop_ref_sub s refs sid : shm_ok s refs -> seg_sub s (drop_ref s (shm_find_segment s sid)).
Proof.
  intros Hok. unfold drop_ref. destruct (shm_find_segment s sid) as [i|] eqn:Hf; [|done].
  apply (find_segment_spec s refs sid i Hok) in Hf as (Hi & _ & _). case_if; [|done].
  pose proof (set_bump_sub s i (-1) (marked_for_delete (seg s i)) ltac:(lia)) as Hb.
  unfold bump in Hb. change (ref_count (seg s i) + -1) with (ref_count (seg s i) - 1) in Hb.
  case_if; [|done]. etrans; [exact Hb|]. apply release_sub.
Qed.

Lemma detach_slot_ok s dir slots other k :
  shm_ok s (plus (cnt slots) other) -> (forall x, 0 <= other x) -> task_ok s slots ->
  0 <= k < SHM_MAX_MAPPINGS ->
  let '(s', dir', slots', r) := shm_detach_slot s dir slots k in
  shm_ok s' (plus (cnt slots') other) /\ task_ok s' slots' /\ seg_sub s s' /\
  (dir = None <-> dir' = None) /\
  (dir <> None -> m_used slots'.[k] = false) /\
  (forall j, 0 <= j < SHM_MAX_MAPPINGS -> j <> k -> slots'.[j] = slots.[j]).
Proof.
  intros Hok Hoth Ht Hk. unfold shm_detach_slot. destruct dir as [d|].
  2: { split_and!; done. }
  pose proof (proj1 (t_slots_ok _ _ Ht)) as Hl.
  destruct (m_used slots.[k]) eqn:Hu; simpl; [|split_and!; done].
  pose proof (cnt_pos slots k ltac:(lia) Hu) as Hcp. specialize (Hoth (segment_id slots.[k])) as Ho.
  pose proof (drop_ref_sub s _ (segment_id slots.[k]) Hok) as Hsub.
  split_and!; try done.
  - eapply shm_ok_ext; [|apply (drop_ref_ok s _ (segment_id slots.[k]) Hok); unfold plus; lia].
    intros x. unfold add_ref, plus. rewrite cnt_clear by (done || lia). case_decide; lia.
  - apply task_ok_clear; [done|]. by eapply task_ok_sub.
  - rewrite aget_aset_eq by lia. done.
  - intros j Hj Hne. by rewrite aget_aset_ne by lia.
Qed.

Lemma detach_all_ok s dir slots other :
  shm_ok s (plus (cnt slots) other) -> (forall x, 0 <= other x) -> task_ok s slots ->
  let '(s', dir', slots') := shm_detach_all s dir slots SHM_MAX_MAPPINGS in
  shm_ok s' (plus (cnt slots') other) /\ task_ok s' slots' /\ seg_sub s s' /\
  (dir <> None -> forall j, 0 <= j < SHM_MAX_MAPPINGS -> m_used slots'.[j] = false).
Proof.
  intros Hok Hoth Ht. unfold shm_detach_all. destruct dir as [d|]; [|split_and!; done].
  pose (I := fun (n : Z) (st : shms F * option D * list shm_mapping) =>
    let '(s', dir', slots') := st in
    shm_ok s' (plus (cnt slots') other) /\ task_ok s' slots' /\ seg_sub s s' /\ dir' <> None /\
    forall j, 0 <= j < n -> m_used slots'.[j] = false).
  match goal with |- context [for_loop ?b ?m 0 ?st] =>
    enough (I (0 + Z.of_nat m) (for_loop b m 0 st)) as HI end.
  { destruct (for_loop _ _ _ _) as [[s' dir'] slots'].
    destruct HI as (? & ? & ? & ? & Hall). split_and!; done. }
  apply (for_loop_ind I); unfold I.
  - split_and!; try done. intros; lia.
  - intros j [[s1 d1] sl1] Hj (Hok1 & Ht1 & Hsub1 & Hd1 & Hall).
    change (0 + Z.of_nat (Z.to_nat SHM_MAX_MAPPINGS)) with SHM_MAX_MAPPINGS in Hj.
    destruct (m_used sl1.[j]) eqn:Hu.
    + pose proof (detach_slot_ok s1 d1 sl1 other j Hok1 Hoth Ht1 ltac:(lia)) as Hds.
      destruct (shm_detach_slot s1 d1 sl1 j) as [[[s2 d2] sl2] r].
      destruct Hds as (? & ? & ? & Hdn & Hcl & Hrest). split_and!; try done.
      * by etrans.
      * intros E. by apply Hd1, Hdn.
      * intros l Hl. destruct (decide (l = j)) as [->|]; [by apply Hcl|].
        rewrite Hrest by lia. apply Hall. lia.
    + split_and!; try done. intros l Hl. destruct (decide (l = j)) as [->|]; [done|].
      apply Hall. lia.
Qed.

Lemma attach_at_ok s dir slots other i bs :
  shm_ok s (plus (cnt slots) other) -> (forall x, 0 <= other x) -> task_ok s slots ->
  0 <= i < SHM_MAX_SEGMENTS -> used (seg s i) = true ->
  let m := ShmMapping true (id (seg s i)) bs (size (seg s i)) in
  mapping_ok m ->
  (forall j p, 0 <= j < SHM_MAX_MAPPINGS -> ~ (covers slots.[j] p /\ covers m p)) ->
  let '(s', dir', slots', ok) := shm_attach_at s dir slots SHM_MAX_MAPPINGS i bs in
  shm_ok s' (plus (cnt slots') other) /\ task_ok s' slots' /\ seg_sub s s' /\ seg_sub s' s /\
  (dir = None <-> dir' = None) /\
  (ok = false -> s' = s /\ slots' = slots) /\
  (ok = true -> exists k, 0 <= k < SHM_MAX_MAPPINGS /\ m_used slots.[k] = false /\
     slots' = slots.[k <- m]).
Proof.
  intros Hok Hoth Ht Hi Hu m Hm Hmd. unfold shm_attach_at. destruct dir as [d|].
  2: { split_and!; done. }
  rewrite Hu. simpl negb. cbv iota. destruct (shm_slot_find_free _ _) as [k|] eqn:Hf.
  2: { split_and!; done. }
  apply find_first_Some in Hf as (Hk & Hfree & _). bool_to_prop.
  change (0 + Z.of_nat (Z.to_nat SHM_MAX_MAPPINGS)) with SHM_MAX_MAPPINGS in Hk.
  destruct (map_pages _ _ _ _ _) as [d' ok]. destruct ok; simpl negb; cbv iota.
  2: { split_and!; done. }
  pose proof (proj1 (t_slots_ok _ _ Ht)) as Hl.
  pose proof (bump_ok s _ i 1 (marked_for_delete (seg s i)) Hok Hi Hu) as Hb.
  unfold bump in Hb. rewrite Hu in Hb.
  pose proof (set_bump_sub s i 1 (marked_for_delete (seg s i)) ltac:(lia)) as Hsub.
  unfold bump in Hsub. rewrite Hu in Hsub.
  pose proof (f_segs _ (s_frames _ _ Hok)) as Hsl.
  split_and!; try done.
  - eapply shm_ok_ext; [|apply Hb].
    + intros x. unfold add_ref, plus. rewrite cnt_fill by (done || lia). case_decide; lia.
    + pose proof (s_pos _ _ Hok (id (seg s i))). lia.
  - apply task_ok_fill; try done.
    + by eapply task_ok_sub.
    + intros j Hj Huj Hidj. destruct (Hsub j Hj Huj) as (Hu' & E1 & ->). simpl in *.
      f_equal. f_equal. apply (s_uniq _ _ Hok); try done. congruence.
    + intros j p Hj _. by apply Hmd.
  - intros j Hj Huj. cbn [set_segment shm_segments]. rewrite set_segment_get by done.
    case_decide; subst; done.
  - intros _. by exists k.
Qed.

(** A new attachment lies on the free run the window allocator found. *)
Lemma new_mapping_ok slots sid sz bs :
  slots_ok slots -> 1 <= sz <= PAGING_USER_SHM_SIZE ->
  bs = shm_find_free_base slots SHM_MAX_MAPPINGS (pages sz) -> bs <> 0 ->
  let m := ShmMapping true sid bs sz in
  mapping_ok m /\ forall j p, 0 <= j < SHM_MAX_MAPPINGS -> ~ (covers slots.[j] p /\ covers m p).
Proof.
  intros Hs Hsz Hb Hne m. pose proof (pages_bound sz Hsz).
  destruct (find_free_base_spec slots (pages sz) Hs ltac:(lia)) as [[E _]|(r & Hr & Hr' & E & Hfree)];
    [congruence|].
  assert (first_page m = r) as Hf by (unfold first_page; simpl; rewrite Hb, E; zlia).
  split.
  - intros _. rewrite Hf. change SHM_MAX_PAGES with 16. simpl. split_and!; try lia.
  - intros j p Hj [Hc [_ Hp]]. simpl in Hp. rewrite Hf in Hp. by apply (Hfree p j).
Qed.

Lemma attach_ok s dir slots other sid :
  shm_ok s (plus (cnt slots) other) -> (forall x, 0 <= other x) -> task_ok s slots ->
  let '(s', dir', slots', r) := shm_attach s dir slots SHM_MAX_MAPPINGS sid in
  shm_ok s' (plus (cnt slots') other) /\ task_ok s' slots' /\ seg_sub s s'.
Proof.
  intros Hok Hoth Ht. unfold shm_attach. destruct (shm_find_segment s sid) as [i|] eqn:Hf; [|done].
  apply (find_segment_spec s _ sid i Hok) in Hf as (Hi & Hu & Hid).
  case_if; [done|]. destruct (s_geom _ _ Hok i Hi Hu) as [Hsz Hpc]. rewrite Hpc.
  case_if; [done|].
  destruct (new_mapping_ok slots (id (seg s i)) (size (seg s i)) _ (t_slots_ok _ _ Ht) Hsz eq_refl)
    as [Hm Hmd]; [done|].
  pose proof (attach_at_ok s dir slots other i _ Hok Hoth Ht Hi Hu Hm Hmd) as Ha.
  destruct (shm_attach_at _ _ _ _ _ _) as [[[s' dir'] slots'] ok].
  destruct Ha as (? & ? & ? & _). by destruct ok.
Qed.

(** What a fork has copied after [i] parent slots. *)
Definition copied_upto (pslots cslots : list shm_mapping) (i : Z) : Prop :=
  forall k, 0 <= k < SHM_MAX_MAPPINGS -> m_used cslots.[k] = true ->
    exists j, 0 <= j < i /\ cslots.[k] = pslots.[j].

Lemma clone_loop_ok n i s cdir cslots other pslots :
  shm_ok s (plus (cnt cslots) other) -> (forall x, 0 <= other x) ->
  task_ok s cslots -> task_ok s pslots ->
  0 <= i -> i + Z.of_nat n <= SHM_MAX_MAPPINGS -> copied_upto pslots cslots i ->
  let '(s', cdir', cslots', ok) := clone_loop n i s cdir cslots SHM_MAX_MAPPINGS pslots in
  shm_ok s' (plus (cnt cslots') other) /\ task_ok s' cslots' /\ seg_sub s s'.
Proof.
  revert i s cdir cslots. induction n as [|n IH];
    intros i s cdir cslots Hok Hoth Htc Htp Hi Hn Hcp; cbn [clone_loop]; [done|].
  assert (forall s0 c0 sl0,
    shm_ok s0 (plus (cnt sl0) other) -> task_ok s0 sl0 -> seg_sub s s0 ->
    let '(s', cdir', cslots', ok) :=
      (let '(s1, c1, sl1) := shm_detach_all s0 c0 sl0 SHM_MAX_MAPPINGS in (s1, c1, sl1, false)) in
    shm_ok s' (plus (cnt cslots') other) /\ task_ok s' cslots' /\ seg_sub s s') as Hfail.
  { intros s0 c0 sl0 Hok0 Ht0 Hsub0.
    pose proof (detach_all_ok s0 c0 sl0 other Hok0 Hoth Ht0) as Hda.
    destruct (shm_detach_all s0 c0 sl0 _) as [[s1 c1] sl1].
    destruct Hda as (? & ? & ? & _). split_and!; [done|done|by etrans]. }
  cbv zeta. destruct (m_used pslots.[i]) eqn:Hup; simpl negb; cbv iota.
  2: { apply IH; try done; [lia|lia|]. intros k Hk Hu. destruct (Hcp k Hk Hu) as (j & ? & ?).
       exists j. split; [lia|done]. }
  destruct (shm_find_segment s (segment_id pslots.[i])) as [k|] eqn:Hf; [|by apply Hfail].
  apply (find_segment_spec s _ _ k Hok) in Hf as (Hk & Hu & Hid).
  case_if; [by apply Hfail|].
  destruct (t_slots_ok _ _ Htp) as [Hpl Hps].
  assert (size (seg s k) = m_size pslots.[i]) as Esz by (apply (t_sizes _ _ Htp); done || lia).
  assert (ShmMapping true (id (seg s k)) (base pslots.[i]) (size (seg s k)) = pslots.[i]) as Em.
  { rewrite Hid, Esz. destruct pslots.[i]; simpl in *. by subst. }
  pose proof (attach_at_ok s cdir cslots other k (base pslots.[i]) Hok Hoth Htc Hk Hu) as Ha.
  cbv zeta in Ha. rewrite Em in Ha. specialize (Ha (Hps i ltac:(lia))).
  destruct (shm_attach_at _ _ _ _ _ _) as [[[s' cdir'] cslots'] ok].
  destruct Ha as (Hok' & Ht' & Hsub & Hsub' & _ & Hfalse & Htrue).
  { intros j p Hj [Hc1 Hc2]. destruct (Hcp j Hj) as (j' & Hj' & E); [apply Hc1|].
    rewrite E in Hc1. apply (t_disj _ _ Htp j' i p); [lia|lia|lia|done]. }
  destruct ok; simpl negb; cbv iota; [|by apply Hfail].
  destruct Htrue as (q & Hq & _ & ->); [done|].
  pose proof (proj1 (t_slots_ok _ _ Htc)) as Hcl.
  specialize (IH (i + 1) s' cdir' cslots.[q <- pslots.[i]] Hok' Hoth Ht').
  destruct (clone_loop n (i + 1) s' cdir' _ _ _) as [[[s2 c2] sl2] ok2].
  destruct IH as (? & ? & ?); [by eapply task_ok_sub|lia|lia| |split_and!; [done|done|by etrans]].
  intros l Hl. destruct (decide (q = l)) as [->|].
  - rewrite aget_aset_eq by lia. intros _. exists i. split; [lia|done].
  - rewrite aget_aset_ne by lia. intros Hul. destruct (Hcp l Hl Hul) as (j & ? & ?).
    exists j. split; [lia|done].
Qed.

Lemma unlink_ok s refs sid :
  shm_ok s refs -> shm_ok (shm_unlink s sid).1 refs /\ seg_sub s (shm_unlink s sid).1.
Proof.
  intros Hok. unfold shm_unlink. destruct (shm_find_segment s sid) as [i|] eqn:Hf; [|done].
  apply (find_segment_spec s refs sid i Hok) in Hf as (Hi & Hu & Hid). cbn [fst].
  pose proof (bump_ok s refs i 0 true Hok Hi Hu) as Hb. unfold bump in Hb. rewrite !Z.add_0_r in Hb.
  pose proof (set_bump_sub s i 0 true ltac:(lia)) as Hsub. unfold bump in Hsub.
  rewrite Z.add_0_r in Hsub.
  assert (shm_ok (set_segment s i (ShmSegment (used (seg s i)) (id (seg s i)) (size (seg s i))
    (page_count (seg s i)) (ref_count (seg s i)) true (frames (seg s i)))) refs) as Hok'.
  { eapply shm_ok_ext; [|apply Hb].
    - intros x. unfold add_ref. case_decide; lia.
    - pose proof (s_pos _ _ Hok (id (seg s i))). lia. }
  case_if; [|done]. pose proof (f_segs _ (s_frames _ _ Hok)) as Hl. split.
  - apply release_ok; try done; cbn [set_segment shm_segments];
      rewrite set_segment_get, decide_True by done; done.
  - etrans; [exact Hsub|]. apply release_sub.
Qed.

(** ** Creation *)

(** State of [shm_create] on slot [i] after [page] frames, from state [s0]. *)
Record creating s0 s i sid sz pc page : Prop := Creating {
  c_frames : frames_ok s;
  c_next : shm_next_id s = shm_next_id s0 + 1;
  c_rest : forall j, 0 <= j < SHM_MAX_SEGMENTS -> j <> i -> seg s j = seg s0 j;
  c_seg : exists mk fr, seg s i = ShmSegment true sid sz pc 0 mk fr /\
    (forall k, 0 <= k < page -> fr.[k] <> 0) /\
    (forall b, fa_held (shm_frames s) b <->
       fa_held (shm_frames s0) b \/ exists k, 0 <= k < page /\ fr.[k] = b) /\
    (forall k, 0 <= k < page -> ~ fa_held (shm_frames s0) fr.[k]);
}.

(** One more frame in cell [page] of segment [i]. *)
Lemma add_frame_ok s i page (fa : F) frame pg g' :
  frames_ok s -> 0 <= i < SHM_MAX_SEGMENTS -> used (seg s i) = true ->
  0 <= page < page_count (seg s i) -> page_count (seg s i) <= SHM_MAX_PAGES ->
  fa_alloc (shm_frames s) = (fa, frame) -> frame <> 0 -> (frames (seg s i)).[page] = 0 ->
  used g' = true -> page_count g' = page_count (seg s i) -> frames g' = (frames (seg s i)).[page <- frame] ->
  frames_ok (Shms (shm_segments s).[i <- g'] (shm_next_id s) fa pg).
Proof.
  intros [Hinv Hlen Hfl Hheld Hinj] Hi Hu Hp Hpc Ha Hne Hz Hu' Hpc' Hfr.
  destruct (fa_alloc_fresh _ _ _ Hinv Ha Hne) as (_ & _ & _ & Hnh & Hh).
  pose proof (fa_alloc_inv _ Hinv) as Hinv'. rewrite Ha in Hinv'. simpl in Hinv'.
  pose proof (Hfl i Hi) as Hli.
  assert (forall j k, 0 <= j < SHM_MAX_SEGMENTS -> 0 <= k < SHM_MAX_PAGES ->
    (frames (shm_segments s).[i <- g'].[j]).[k]
    = if decide (i = j /\ page = k) then frame else (frames (seg s j)).[k]) as Hcell.
  { intros j k Hj Hk. rewrite set_segment_get by done.
    destruct (decide (i = j)) as [<-|]; [|by rewrite decide_False by tauto].
    rewrite Hfr. destruct (decide (page = k)) as [<-|].
    - rewrite aget_aset_eq by lia. by rewrite decide_True by done.
    - rewrite aget_aset_ne by lia. by rewrite decide_False by tauto. }
  assert (forall j k, 0 <= j < SHM_MAX_SEGMENTS -> 0 <= k < SHM_MAX_PAGES ->
    (frames (seg s j)).[k] <> frame) as Hfresh.
  { intros j k Hj Hk E. apply Hnh. rewrite <- E. apply Hheld; try done. by rewrite E. }
  constructor; cbn [shm_segments shm_frames].
  - done.
  - by rewrite aset_length.
  - intros j Hj. rewrite set_segment_get by done. case_decide; [|by apply Hfl].
    rewrite Hfr, aset_length. done.
  - intros j k Hj Hk. rewrite Hcell by done. case_decide as E.
    + destruct E as [<- <-]. intros _. rewrite set_segment_get, decide_True by done.
      split_and!; [done|lia|]. apply Hh. by left.
    + intros Hnz. destruct (Hheld j k Hj Hk Hnz) as (Huj & Hkj & Hhj).
      rewrite set_segment_get by done. split_and!.
      * case_decide; done.
      * case_decide; [|done]. subst. by rewrite Hpc'.
      * apply Hh. by right.
  - intros j1 j2 k l Hj1 Hj2 Hk Hl. rewrite !Hcell by done.
    repeat case_decide; intros Hnz E.
    + split; intuition congruence.
    + exfalso. by apply (Hfresh j2 l).
    + exfalso. by apply (Hfresh j1 k).
    + by apply Hinj.
Qed.

Lemma create_frames_spec n s0 s i sid sz pc page :
  creating s0 s i sid sz pc page -> 0 <= i < SHM_MAX_SEGMENTS -> 0 <= page ->
  page + Z.of_nat n = pc -> 1 <= pc <= SHM_MAX_PAGES ->
  (forall k, page <= k < SHM_MAX_PAGES -> (frames (seg s i)).[k] = 0) ->
  let '(s', ok) := create_frames n s i page in
  if ok then creating s0 s' i sid sz pc pc
  else frames_ok s' /\ shm_next_id s' = shm_next_id s0 + 1 /\ used (seg s' i) = false /\
       (forall j, 0 <= j < SHM_MAX_SEGMENTS -> j <> i -> seg s' j = seg s0 j) /\
       (forall b, fa_held (shm_frames s') b <-> fa_held (shm_frames s0) b).
Proof.
  revert s page. induction n as [|n IH]; intros s page Hc Hi Hp Hpn Hpc Hz; cbn [create_frames].
  { assert (pc = page) as -> by lia. done. }
  destruct Hc as [Hf Hnx Hrest (mk & fr & Hseg & Hnz & Hh & Hnew)].
  pose proof (f_segs _ Hf) as Hlen. pose proof (f_len _ Hf i Hi) as Hli. rewrite Hseg in Hli. simpl in Hli.
  destruct (fa_alloc (shm_frames s)) as [fa frame] eqn:Ha. cbn [shm_segments shm_next_id shm_frames shm_pages].
  case_if.
  - subst frame. pose proof (fa_alloc_none _ _ (f_inv _ Hf) Ha) as ->.
    rewrite Hseg. cbn [used id size page_count ref_count frames].
    set (s1 := set_segment _ i _).
    assert (seg s1 i = ShmSegment true sid sz pc 0 true fr) as E1
      by (cbn [s1 set_segment shm_segments]; by rewrite set_segment_get, decide_True by done).
    assert (forall j, 0 <= j < SHM_MAX_SEGMENTS -> frames (seg s1 j) = frames (seg s j) /\
      used (seg s1 j) = used (seg s j) /\ page_count (seg s1 j) = page_count (seg s j)) as Hsame.
    { intros j Hj. cbn [s1 set_segment shm_segments]. rewrite set_segment_get by done.
      case_decide; [subst; by rewrite Hseg|done]. }
    assert (frames_ok s1) as Hf1.
    { destruct Hf as [H1f H2f H3f H4f H5f].
      constructor; [done|unfold s1; cbn [set_segment shm_segments]; by rewrite aset_length|..].
      - intros j Hj. destruct (Hsame j Hj) as (-> & _). by apply H3f.
      - intros j k Hj Hk. destruct (Hsame j Hj) as (-> & -> & ->). by apply H4f.
      - intros j1 j2 k l Hj1 Hj2 Hk Hl. destruct (Hsame j1 Hj1) as (-> & _).
        destruct (Hsame j2 Hj2) as (-> & _). by apply H5f. }
    destruct (release_segment_frames s1 i Hf1 Hi) as (Hf2 & Hn2 & Hu2 & Hr2 & Hh2);
      try (rewrite E1; done || simpl; lia).
    split_and!; [done|rewrite Hn2; done|done| |].
    + intros j Hj Hne. rewrite Hr2 by done. cbn [s1 set_segment shm_segments].
      rewrite set_segment_get, decide_False by done. by apply Hrest.
    + intros b. rewrite Hh2, E1. cbn [frames page_count s1 set_segment shm_frames]. rewrite Hh. split.
      * intros [[?|(k & Hk & <-)] Hno]; [done|]. exfalso. apply (Hno k); [lia|by apply Hnz|done].
      * intros Hb. split; [by left|]. intros k Hk Hkz E. subst b.
        destruct (decide (k < page)); [by apply (Hnew k); [lia|]|].
        specialize (Hz k ltac:(lia)). rewrite Hseg in Hz. done.
  - destruct (fa_alloc_fresh _ _ _ (f_inv _ Hf) Ha ltac:(done)) as (_ & _ & _ & Hnh & Hhn).
    apply IH; try lia.
    + constructor; cbn [shm_next_id]; [|done| |].
      * eapply add_frame_ok; try done; rewrite Hseg; try done; [simpl; lia..|].
        specialize (Hz page ltac:(lia)). by rewrite Hseg in Hz.
      * intros j Hj Hne. cbn [shm_segments]. rewrite set_segment_get, decide_False by done.
        by apply Hrest.
      * exists mk, fr.[page <- frame]. cbn [shm_segments shm_frames].
        rewrite set_segment_get, decide_True by done. rewrite Hseg. split; [done|].
        assert (forall k, 0 <= k < page -> fr.[page <- frame].[k] = fr.[k]) as Hold
          by (intros; apply aget_aset_ne; lia).
        assert (fr.[page <- frame].[page] = frame) as Hpg by (apply aget_aset_eq; lia).
        split_and!.
        { intros k Hk. destruct (decide (k = page)) as [->|]; [by rewrite Hpg|].
          rewrite Hold by lia. apply Hnz. lia. }
        { intros b. rewrite Hhn, Hh. split.
          - intros [->|[Hb|(k & Hk & <-)]].
            + right. exists page. split; [lia|done].
            + by left.
            + right. exists k. split; [lia|]. apply Hold. lia.
          - intros [Hb|(k & Hk & <-)]; [by right; left|].
            destruct (decide (k = page)) as [->|]; [by left|].
            right; right. exists k. split; [lia|]. symmetry. apply Hold. lia. }
        { intros k Hk. destruct (decide (k = page)) as [->|].
          - rewrite Hpg. intros Hb. apply Hnh. apply Hh. by left.
          - rewrite Hold by lia. apply Hnew. lia. }
    + intros k Hk. cbn [shm_segments]. rewrite set_segment_get, decide_True by done. cbn [frames].
      rewrite aget_aset_ne by lia. apply Hz. lia.
Qed.

(** A table that agrees with a well-formed one outside slot [i], where it has
    a fresh identifier or nothing. *)
Lemma shm_ok_slot s s' refs i :
  shm_ok s refs -> frames_ok s' -> 0 <= i < SHM_MAX_SEGMENTS -> used (seg s i) = false ->
  shm_next_id s' = shm_next_id s + 1 ->
  (forall j, 0 <= j < SHM_MAX_SEGMENTS -> j <> i -> seg s' j = seg s j) ->
  (used (seg s' i) = true ->
     id (seg s' i) = shm_next_id s /\ ref_count (seg s' i) = 0 /\
     1 <= size (seg s' i) <= PAGING_USER_SHM_SIZE /\ page_count (seg s' i) = pages (size (seg s' i)) /\
     forall k, 0 <= k < page_count (seg s' i) -> (frames (seg s' i)).[k] <> 0) ->
  shm_ok s' refs.
Proof.
  intros Hok Hf' Hi Hu Hn Hrest Hnew.
  assert (refs (shm_next_id s) = 0) as Hr0.
  { destruct (decide (refs (shm_next_id s) = 0)) as [|Hne]; [done|].
    destruct (s_live _ _ Hok _ Hne) as (j & Hj & Huj & Hidj).
    pose proof (s_ids _ _ Hok j Hj Huj). lia. }
  destruct Hok as [Hf Hfull Hgeom Hids Huniq Hrefs Hlive Hpos Hnext].
  constructor; try done; rewrite ?Hn; try lia.
  - intros j k Hj Huj. destruct (decide (j = i)) as [->|].
    + destruct (Hnew Huj) as (_ & _ & _ & _ & Hk). apply Hk.
    + rewrite Hrest in Huj |- * by done. by apply Hfull.
  - intros j Hj Huj. destruct (decide (j = i)) as [->|].
    + destruct (Hnew Huj) as (_ & _ & ? & ? & _). done.
    + rewrite Hrest in Huj |- * by done. by apply Hgeom.
  - intros j Hj Huj. destruct (decide (j = i)) as [->|].
    + destruct (Hnew Huj) as (-> & _). lia.
    + rewrite Hrest in Huj |- * by done. pose proof (Hids j Hj Huj). lia.
  - intros j1 j2 Hj1 Hj2 H1u H2u E.
    destruct (decide (j1 = i)) as [->|], (decide (j2 = i)) as [->|]; try done.
    + destruct (Hnew H1u) as (E1 & _). rewrite (Hrest j2) in H2u, E by done.
      pose proof (Hids j2 Hj2 H2u). lia.
    + destruct (Hnew H2u) as (E1 & _). rewrite (Hrest j1) in H1u, E by done.
      pose proof (Hids j1 Hj1 H1u). lia.
    + rewrite (Hrest j1) in H1u, E by done. rewrite (Hrest j2) in H2u, E by done. by apply Huniq.
  - intros j Hj Huj. destruct (decide (j = i)) as [->|].
    + destruct (Hnew Huj) as (-> & -> & _). done.
    + rewrite Hrest in Huj |- * by done. by apply Hrefs.
  - intros sid Hs. destruct (Hlive sid Hs) as (j & Hj & Huj & Hidj). exists j.
    assert (j <> i) by (intros ->; congruence). rewrite Hrest by done. done.
Qed.

Lemma create_ok s refs sz :
  shm_ok s refs -> 0 <= sz < 4294967296 ->
  let '(s', r) := shm_create s sz in
  shm_ok s' refs /\
  (forall i, 0 <= i < SHM_MAX_SEGMENTS -> used (seg s' i) = true ->
     (used (seg s i) = true /\ id (seg s' i) = id (seg s i) /\ size (seg s' i) = size (seg s i)) \/
     id (seg s' i) = shm_next_id s) /\
  ((r = -1 /\ forall b, fa_held (shm_frames s') b <-> fa_held (shm_frames s) b) \/
   (r = shm_next_id s /\ exists i, 0 <= i < SHM_MAX_SEGMENTS /\ used (seg s' i) = true /\
      id (seg s' i) = r /\ size (seg s' i) = sz /\
      (forall b, fa_held (shm_frames s') b <-> fa_held (shm_frames s) b \/
         exists k, 0 <= k < page_count (seg s' i) /\ (frames (seg s' i)).[k] = b) /\
      forall k, 0 <= k < page_count (seg s' i) -> ~ fa_held (shm_frames s) (frames (seg s' i)).[k])).
Proof.
  intros Hok Hsz. unfold shm_create. rewrite shm_page_count_eq by done.
  destruct (decide (1 <= sz <= PAGING_USER_SHM_SIZE)) as [Hs|Hs].
  2: { simpl. split_and!; [done| |]; [intros; by left|]. by left. }
  pose proof (pages_bound sz Hs) as Hpb. rewrite (proj2 (Z.leb_gt _ 0)) by lia.
  destruct (find_first _ _ _) as [i|] eqn:Hff.
  2: { split_and!; [done| |]; [intros; by left|]. by left. }
  apply find_first_Some in Hff as (Hi & Hu & _). bool_to_prop.
  change (0 + Z.of_nat (Z.to_nat SHM_MAX_SEGMENTS)) with SHM_MAX_SEGMENTS in Hi.
  pose proof (s_frames _ _ Hok) as Hf. pose proof (f_segs _ Hf) as Hlen.
  assert (forall k, 0 <= k < SHM_MAX_PAGES -> (frames (seg s i)).[k] = 0) as Hz.
  { intros k Hk. destruct (decide ((frames (seg s i)).[k] = 0)) as [|Hne]; [done|].
    apply (f_held _ Hf) in Hne as [? _]; congruence || done. }
  set (s1 := Shms _ _ _ _).
  set (g1 := ShmSegment true (shm_next_id s) sz (pages sz) 0 false (frames (seg s i))) in s1.
  assert (forall j, 0 <= j < SHM_MAX_SEGMENTS -> seg s1 j = if decide (i = j) then g1 else seg s j) as Hg1
    by (intros; by apply set_segment_get).
  assert (frames_ok s1) as Hf1.
  { destruct Hf as [H1f H2f H3f H4f H5f]. constructor; [done|cbn [s1 shm_segments]; by rewrite aset_length|..].
    - intros j Hj. rewrite Hg1 by done. case_decide; subst; by apply H3f.
    - intros j k Hj Hk. rewrite Hg1 by done. case_decide; [subst; cbn [g1 frames]; by rewrite Hz|by apply H4f].
    - intros j1 j2 k l Hj1 Hj2 Hk Hl. rewrite !Hg1 by done.
      repeat case_decide; subst; cbn [g1 frames]; by apply H5f. }
  pose proof (create_frames_spec (Z.to_nat (pages sz)) s s1 i (shm_next_id s) sz (pages sz) 0) as Hc.
  destruct (create_frames _ s1 i 0) as [s' ok].
  assert (creating s s1 i (shm_next_id s) sz (pages sz) 0) as Hcr.
  { constructor; [done|done| |].
    - intros j Hj Hne. rewrite Hg1 by done. by rewrite decide_False by done.
    - exists false, (frames (seg s i)). rewrite Hg1, decide_True by done.
      split_and!; [done|intros; lia| |intros; lia].
      intros b. split; [by left|]. intros [?|(k & ? & _)]; [done|lia]. }
  assert (forall k, 0 <= k < SHM_MAX_PAGES -> (frames (seg s1 i)).[k] = 0) as Hz1
    by (intros; rewrite Hg1, decide_True by done; by apply Hz).
  specialize (Hc Hcr Hi ltac:(lia) ltac:(lia) ltac:(change SHM_MAX_PAGES with 16; lia) Hz1) as Hc'.
  clear Hc. destruct ok.
  - destruct Hc' as [Hf' Hn' Hrest (mk & fr & Hseg & Hnz & Hh & Hnew)].
    split_and!.
    + apply (shm_ok_slot s s' refs i); try done. rewrite Hseg. done.
    + intros j Hj Huj. destruct (decide (j = i)) as [->|]; [right; by rewrite Hseg|].
      left. rewrite Hrest in * by done. done.
    + right. rewrite Hseg. cbn [id]. split; [done|]. exists i. rewrite Hseg. done.
  - destruct Hc' as (Hf' & Hn' & Hu' & Hrest & Hh). split_and!.
    + apply (shm_ok_slot s s' refs i); try done. congruence.
    + intros j Hj Huj. destruct (decide (j = i)) as [->|]; [congruence|].
      left. rewrite Hrest in * by done. done.
    + by left.
Qed.

Lemma create_task_ok s s' slots other :
  shm_ok s (plus (cnt slots) other) -> (forall x, 0 <= other x) -> task_ok s slots ->
  (forall i, 0 <= i < SHM_MAX_SEGMENTS -> used (seg s' i) = true ->
     (used (seg s i) = true /\ id (seg s' i) = id (seg s i) /\ size (seg s' i) = size (seg s i)) \/
     id (seg s' i) = shm_next_id s) -> task_ok s' slots.
Proof.
  intros Hok Hoth [Hs Hz Hd] Hnew. constructor; try done. intros k i Hk Hi Hm Hu Hid.
  destruct (Hnew i Hi Hu) as [(Hu' & E1 & ->)|En]; [apply Hz; congruence|].
  destruct Hs as [Hl _]. pose proof (cnt_pos slots k ltac:(lia) Hm). specialize (Hoth (segment_id slots.[k])).
  destruct (s_live _ _ Hok (segment_id slots.[k])) as (j & Hj & Huj & Hidj); [unfold plus; lia|].
  pose proof (s_ids _ _ Hok j Hj Huj). lia.
Qed.

(** ** All tasks *)

Record task := Task { t_dir : option D; t_slots : list shm_mapping }.
Record sys := Sys { sys_shm : shms F; sys_tasks : list task }.

(** The mappings of segment [x] over all tasks. *)
Definition total (ts : list task) (x : Z) : Z := foldr (fun t a => cnt (t_slots t) x + a) 0 ts.

Lemma total_refs_nonneg ts x : 0 <= total ts x.
Proof.
  induction ts as [|t ts IH]; simpl; [lia|]. pose proof (cnt_nonneg (t_slots t) x). lia.
Qed.

Lemma total_ge ts n t x : ts !! n = Some t -> cnt (t_slots t) x <= total ts x.
Proof.
  revert n. induction ts as [|t' ts IH]; intros [|n] E; simpl in *; try done.
  - simplify_eq. pose proof (total_refs_nonneg ts x). lia.
  - specialize (IH n E). pose proof (cnt_nonneg (t_slots t') x). lia.
Qed.

Lemma total_insert ts n t t' x :
  ts !! n = Some t ->
  total (<[n := t']> ts) x = total ts x - cnt (t_slots t) x + cnt (t_slots t') x.
Proof.
  revert n. induction ts as [|t0 ts IH]; intros [|n] E; simpl in *; try done; simplify_eq; [lia|].
  rewrite (IH n) by done. lia.
Qed.

Definition sys_ok (y : sys) : Prop :=
  shm_ok (sys_shm y) (total (sys_tasks y)) /\
  Forall (fun t => task_ok (sys_shm y) (t_slots t)) (sys_tasks y).

(** The references of the tasks other than [t]. *)
Definition others (ts : list task) (t : task) : Z -> Z := fun x => total ts x - cnt (t_slots t) x.

Lemma others_pos ts n t : ts !! n = Some t -> forall x, 0 <= others ts t x.
Proof. intros E x. unfold others. pose proof (total_ge ts n t x E). lia. Qed.

Lemma sys_focus s ts n t :
  sys_ok (Sys s ts) -> ts !! n = Some t ->
  shm_ok s (plus (cnt (t_slots t)) (others ts t)) /\ task_ok s (t_slots t).
Proof.
  intros [Hok Hall] E. split; [|exact (Forall_lookup_1 _ _ _ _ Hall E)].
  eapply shm_ok_ext; [|exact Hok]. intros x. unfold plus, others. simpl. lia.
Qed.

Lemma sys_update s ts n t s' d' slots' :
  sys_ok (Sys s ts) -> ts !! n = Some t ->
  shm_ok s' (plus (cnt slots') (others ts t)) -> task_ok s' slots' -> seg_sub s s' ->
  sys_ok (Sys s' (<[n := Task d' slots']> ts)).
Proof.
  intros [Hok Hall] E Hok' Ht' Hsub. split; simpl.
  - eapply shm_ok_ext; [|exact Hok']. intros x. rewrite (total_insert _ _ t) by done.
    unfold plus, others. simpl. lia.
  - apply Forall_insert; [|done]. eapply Forall_impl; [exact Hall|].
    intros t0 Ht0. by eapply task_ok_sub.
Qed.

(** The calls of the kernel: creation and unlinking, and per task attach,
    detach, exit and fork into a task with no mapping. *)
Inductive sys_step : sys -> sys -> Prop :=
| SysCreate s ts sz : 0 <= sz < 4294967296 -> sys_step (Sys s ts) (Sys (shm_create s sz).1 ts)
| SysUnlink s ts sid : sys_step (Sys s ts) (Sys (shm_unlink s sid).1 ts)
| SysAttach s ts n t sid s' d' sl' r :
    ts !! n = Some t -> shm_attach s (t_dir t) (t_slots t) SHM_MAX_MAPPINGS sid = (s', d', sl', r) ->
    sys_step (Sys s ts) (Sys s' (<[n := Task d' sl']> ts))
| SysDetach s ts n t addr s' d' sl' r :
    ts !! n = Some t -> shm_detach s (t_dir t) (t_slots t) SHM_MAX_MAPPINGS addr = (s', d', sl', r) ->
    sys_step (Sys s ts) (Sys s' (<[n := Task d' sl']> ts))
| SysExit s ts n t s' d' sl' :
    ts !! n = Some t -> shm_detach_all s (t_dir t) (t_slots t) SHM_MAX_MAPPINGS = (s', d', sl') ->
    sys_step (Sys s ts) (Sys s' (<[n := Task d' sl']> ts))
| SysFork s ts n p m c s' d' sl' r :
    ts !! n = Some p -> ts !! m = Some c ->
    (forall k, 0 <= k < SHM_MAX_MAPPINGS -> m_used (t_slots c).[k] = false) ->
    shm_clone_mappings s (t_dir c) (t_slots c) SHM_MAX_MAPPINGS (t_slots p) SHM_MAX_MAPPINGS
      = (s', d', sl', r) ->
    sys_step (Sys s ts) (Sys s' (<[m := Task d' sl']> ts)).

Lemma cnt_zero slots x :
  (forall k, 0 <= k < Z.of_nat (length slots) -> m_used slots.[k] = false) -> cnt slots x = 0.
Proof.
  induction slots as [|m l IH]; intros Hall; simpl; [done|].
  pose proof (Hall 0 ltac:(simpl; lia)) as H0m. unfold aget in H0m. simpl in H0m.
  unfold maps_to. rewrite H0m. simpl. apply IH. intros k Hk.
  specialize (Hall (k + 1) ltac:(simpl; lia)). unfold aget in *.
  replace (Z.to_nat (k + 1)) with (S (Z.to_nat k)) in Hall by lia. exact Hall.
Qed.

Lemma clone_mappings_ok s dir cslots other pslots :
  shm_ok s (plus (cnt cslots) other) -> (forall x, 0 <= other x) -> task_ok s cslots ->
  task_ok s pslots -> (forall k, 0 <= k < SHM_MAX_MAPPINGS -> m_used cslots.[k] = false) ->
  let '(s', dir', slots', r) :=
    shm_clone_mappings s dir cslots SHM_MAX_MAPPINGS pslots SHM_MAX_MAPPINGS in
  shm_ok s' (plus (cnt slots') other) /\ task_ok s' slots' /\ seg_sub s s'.
Proof.
  intros Hok Hoth Htc Htp Hfree. unfold shm_clone_mappings. destruct dir as [d|]; [|done].
  pose proof (proj1 (t_slots_ok _ _ Htc)) as Hl.
  set (sl := blit _ _ _ _).
  assert (length sl = length cslots) as Hlen by apply blit_length.
  assert (forall k, 0 <= k < SHM_MAX_MAPPINGS -> sl.[k] = free_mapping) as Hsl.
  { intros k Hk. unfold sl. rewrite blit_get by (done || lia). by rewrite decide_True by lia. }
  apply clone_loop_ok; try done.
  - eapply shm_ok_ext; [|exact Hok]. intros x. unfold plus.
    rewrite (cnt_zero cslots), (cnt_zero sl); [done| |]; intros k Hk; [rewrite Hsl by lia; done|].
    apply Hfree. lia.
  - constructor; [split; [by rewrite Hlen|]|..].
    + intros k Hk. by rewrite Hsl.
    + intros k i Hk Hi. by rewrite Hsl.
    + intros k l q Hk Hl'. rewrite Hsl by done. intros _ [[? _] _]. done.
  - intros k Hk. by rewrite Hsl.
Qed.

Lemma sys_step_ok y y' : sys_step y y' -> sys_ok y -> sys_ok y'.
Proof.
  intros Hst Hok. destruct Hst as [s ts sz Hsz|s ts sid|s ts n t sid s' d' sl' r E Ho
    |s ts n t addr s' d' sl' r E Ho|s ts n t s' d' sl' E Ho|s ts n p m c s' d' sl' r Ep Ec Hfree Ho].
  - destruct Hok as [Hok Hall]. pose proof (create_ok s _ sz Hok Hsz) as Hc.
    destruct (shm_create s sz) as [s' r]. destruct Hc as (Hok' & Hnew & _).
    split; [done|]. apply Forall_lookup_2. intros n t E.
    destruct (sys_focus s ts n t (conj Hok Hall) E) as [Hf Ht].
    eapply create_task_ok; [exact Hf|by eapply others_pos|done|done].
  - destruct Hok as [Hok Hall]. destruct (unlink_ok s _ sid Hok) as [Hok' Hsub]. split; [done|].
    eapply Forall_impl; [exact Hall|]. intros t Ht. by eapply task_ok_sub.
  - destruct (sys_focus s ts n t Hok E) as [Hf Ht].
    pose proof (attach_ok s (t_dir t) (t_slots t) _ sid Hf (others_pos _ _ _ E) Ht) as Ha.
    rewrite Ho in Ha. destruct Ha as (? & ? & ?). by eapply sys_update.
  - destruct (sys_focus s ts n t Hok E) as [Hf Ht]. unfold shm_detach in Ho.
    destruct (find_first _ _ _) as [k|] eqn:Hff.
    + apply find_first_Some in Hff as (Hk & _ & _).
      pose proof (detach_slot_ok s (t_dir t) (t_slots t) _ k Hf (others_pos _ _ _ E) Ht Hk) as Hd.
      rewrite Ho in Hd. destruct Hd as (? & ? & ? & _). by eapply sys_update.
    + simplify_eq. by eapply sys_update.
  - destruct (sys_focus s ts n t Hok E) as [Hf Ht].
    pose proof (detach_all_ok s (t_dir t) (t_slots t) _ Hf (others_pos _ _ _ E) Ht) as Hd.
    rewrite Ho in Hd. destruct Hd as (? & ? & ? & _). by eapply sys_update.
  - destruct (sys_focus s ts m c Hok Ec) as [Hf Ht]. destruct (sys_focus s ts n p Hok Ep) as [_ Htp].
    pose proof (clone_mappings_ok s (t_dir c) (t_slots c) _ (t_slots p) Hf (others_pos _ _ _ Ec) Ht Htp Hfree)
      as Hcl.
    rewrite Ho in Hcl. destruct Hcl as (? & ? & ?). by eapply sys_update.
Qed.

Lemma shm_init_ok s refs :
  fa_inv (shm_frames s) -> Z.of_nat (length (shm_segments s)) = SHM_MAX_SEGMENTS ->
  (forall i, 0 <= i < SHM_MAX_SEGMENTS -> Z.of_nat (length (frames (seg s i))) = SHM_MAX_PAGES) ->
  (forall x, refs x = 0) -> shm_ok (shm_init s) refs.
Proof.
  intros Hinv Hlen Hfl Hr.
  pose (clr := fun g => ShmSegment false 0 0 0 0 false (blit (fun _ => 0) 0 SHM_MAX_PAGES (frames g))).
  pose (I := fun (n : Z) (gs : list shm_segment) => length gs = length (shm_segments s) /\
    forall j, 0 <= j < SHM_MAX_SEGMENTS -> gs.[j] = if decide (j < n) then clr (seg s j) else seg s j).
  assert (I SHM_MAX_SEGMENTS (shm_segments (shm_init s))) as [Hl Hg].
  { unfold shm_init; cbn [shm_segments].
    change SHM_MAX_SEGMENTS with (0 + Z.of_nat (Z.to_nat SHM_MAX_SEGMENTS)) at 1.
    apply (for_loop_ind I); unfold I.
    - split; [done|]. intros j Hj. by rewrite decide_False by lia.
    - intros n gs Hn [Hl Hgs].
      change (0 + Z.of_nat (Z.to_nat SHM_MAX_SEGMENTS)) with SHM_MAX_SEGMENTS in Hn.
      split; [by rewrite aset_length|]. intros j Hj. destruct (decide (n = j)) as [<-|].
      + rewrite aget_aset_eq, decide_True by lia. unfold clr. rewrite Hgs by done.
        by rewrite decide_False by lia.
      + rewrite aget_aset_ne, Hgs by lia. repeat case_decide; done || lia. }
  assert (forall j, 0 <= j < SHM_MAX_SEGMENTS -> seg (shm_init s) j = clr (seg s j)) as Hseg.
  { intros j Hj. rewrite Hg by done. by rewrite decide_True by lia. }
  assert (forall j k, 0 <= j < SHM_MAX_SEGMENTS -> 0 <= k < SHM_MAX_PAGES ->
    (frames (seg (shm_init s) j)).[k] = 0) as Hz.
  { intros j k Hj Hk. rewrite Hseg by done. cbn [clr frames].
    rewrite blit_get by (rewrite ?Hfl by done; done || lia). by rewrite decide_True by lia. }
  constructor; [constructor|..].
  - done.
  - by rewrite Hl.
  - intros j Hj. rewrite Hseg by done. cbn [clr frames]. rewrite blit_length. by apply Hfl.
  - intros j k Hj Hk. by rewrite Hz.
  - intros j1 j2 k l Hj1 Hj2 Hk Hl'. by rewrite Hz.
  - intros j k Hj. by rewrite Hseg.
  - intros j Hj. by rewrite Hseg.
  - intros j Hj. by rewrite Hseg.
  - intros j1 j2 Hj1 Hj2. by rewrite Hseg.
  - intros j Hj. by rewrite Hseg.
  - intros sid Hs. by rewrite Hr in Hs.
  - intros sid. by rewrite Hr.
  - done.
Qed.

(** The system after [shm_init], with tasks that map nothing. *)
Definition sys_initial (y : sys) : Prop :=
  exists s, sys_shm y = shm_init s /\ fa_inv (shm_frames s) /\
    Z.of_nat (length (shm_segments s)) = SHM_MAX_SEGMENTS /\
    (forall i, 0 <= i < SHM_MAX_SEGMENTS -> Z.of_nat (length (frames (seg s i))) = SHM_MAX_PAGES) /\
    Forall (fun t => t_slots t = repeat free_mapping (Z.to_nat SHM_MAX_MAPPINGS)) (sys_tasks y).

Lemma repeat_get k : 0 <= k < SHM_MAX_MAPPINGS ->
  (repeat free_mapping (Z.to_nat SHM_MAX_MAPPINGS)).[k] = free_mapping.
Proof.
  intros Hk. unfold aget. rewrite list_lookup_total_alt.
  change (Z.to_nat SHM_MAX_MAPPINGS) with 8%nat. unfold SHM_MAX_MAPPINGS in *.
  by rewrite (lookup_replicate_2 8 free_mapping) by lia.
Qed.

Lemma sys_initial_ok y : sys_initial y -> sys_ok y.
Proof.
  intros (s & E & Hinv & Hlen & Hfl & Hall). destruct y as [ss ts]. simpl in *. subst ss. split.
  - apply shm_init_ok; try done. intros x. simpl. induction Hall as [|t ts Ht _ IH]; simpl; [done|].
    rewrite IH, Ht. done.
  - simpl. eapply Forall_impl; [exact Hall|]. intros t Ht. simpl in Ht. rewrite Ht.
    constructor; [split; [done|]|..].
    + intros k Hk. by rewrite repeat_get.
    + intros k i Hk Hi. by rewrite repeat_get.
    + intros k l q Hk Hl. rewrite repeat_get by done. intros _ [[? _] _]. done.
Qed.

(** C12: Whatever sequence of create, attach, detach, exit, fork and unlink
    calls the tasks make, every mapping of every task refers to a live segment
    of the size it mapped, the segment's reference count is the number of its
    mappings over all tasks, all its frames are still held from the frame
    allocator, and no window page of a task is mapped twice. *)
Theorem shm_mappings_never_dangle y y' n t k :
  sys_initial y -> rtc sys_step y y' -> sys_tasks y' !! n = Some t ->
  0 <= k < SHM_MAX_MAPPINGS -> m_used (t_slots t).[k] = true ->
  let s := sys_shm y' in
  (exists i, 0 <= i < SHM_MAX_SEGMENTS /\ used (seg s i) = true /\
    id (seg s i) = segment_id (t_slots t).[k] /\ size (seg s i) = m_size (t_slots t).[k] /\
    ref_count (seg s i) = total (sys_tasks y') (id (seg s i)) /\ 0 < ref_count (seg s i) /\
    forall q, 0 <= q < page_count (seg s i) -> fa_held (shm_frames s) (frames (seg s i)).[q]) /\
  (forall l p, 0 <= l < SHM_MAX_MAPPINGS -> k <> l ->
    ~ (covers (t_slots t).[k] p /\ covers (t_slots t).[l] p)).
Proof.
  intros Hini Hrun En Hk Hu.
  assert (sys_ok y') as [Hok Hall]
    by (eapply rtc_invariant; [apply sys_step_ok|done|by apply sys_initial_ok]).
  pose proof (Forall_lookup_1 _ _ _ _ Hall En) as Ht. simpl in Ht.
  pose proof (proj1 (t_slots_ok _ _ Ht)) as Hl.
  pose proof (cnt_pos (t_slots t) k ltac:(lia) Hu) as Hcp.
  pose proof (total_ge _ _ _ (segment_id (t_slots t).[k]) En) as Htot.
  split; [|intros; by apply (t_disj _ _ Ht)].
  destruct (s_live _ _ Hok (segment_id (t_slots t).[k])) as (i & Hi & Hui & Hid); [lia|].
  exists i. pose proof (s_refs _ _ Hok i Hi Hui) as Hr.
  split_and!; try done; try lia.
  - by apply (t_sizes _ _ Ht).
  - rewrite Hr, Hid. lia.
  - intros q Hq. destruct (s_geom _ _ Hok i Hi Hui) as [Hsz Hpc]. pose proof (pages_bound _ Hsz).
    apply (f_held _ (s_frames _ _ Hok)); [done|change SHM_MAX_PAGES with 16; lia|].
    by apply (s_full _ _ Hok).
Qed.

(** [shm_find_free_base] returns a page-aligned run of the window that no
    mapping of the task covers, and returns 0 only when every run of that
    length is blocked, although its search skips ahead. *)
Theorem shm_find_free_base_correct slots pc :
  slots_ok slots -> 1 <= pc <= 16 ->
  let b := shm_find_free_base slots SHM_MAX_MAPPINGS pc in
  (b = 0 /\ forall r, 0 <= r -> r + pc <= 16 ->
     exists k i, r <= k < r + pc /\ 0 <= i < SHM_MAX_MAPPINGS /\ covers slots.[i] k) \/
  (exists r, 0 <= r /\ r + pc <= 16 /\ b = PAGING_USER_SHM_BASE + 4096 * r /\
     forall k i, r <= k < r + pc -> 0 <= i < SHM_MAX_MAPPINGS -> ~ covers slots.[i] k).
Proof. apply find_free_base_spec. Qed.

(** A segment that was created and never attached gives back exactly its
    frames when it is unlinked: the frames held afterwards are those held
    before the creation, and the identifier is dead. *)
Theorem shm_create_unlink_roundtrip s refs sz s' r :
  shm_ok s refs -> 0 <= sz < 4294967296 -> shm_create s sz = (s', r) -> r <> -1 ->
  (shm_unlink s' r).2 = 0 /\
  (forall b, fa_held (shm_frames (shm_unlink s' r).1) b <-> fa_held (shm_frames s) b) /\
  shm_find_segment (shm_unlink s' r).1 r = None.
Proof.
  intros Hok Hsz E Hr. pose proof (create_ok s refs sz Hok Hsz) as Hc. rewrite E in Hc.
  destruct Hc as (Hok' & _ & [[? _]|(-> & i & Hi & Hu & Hid & Hsize & Hheld & Hfresh)]); [done|].
  assert (ref_count (seg s' i) = 0) as Hrc.
  { rewrite (s_refs _ _ Hok' i Hi Hu), Hid. destruct (decide (refs (shm_next_id s) = 0)) as [|Hne]; [done|].
    destruct (s_live _ _ Hok _ Hne) as (j & Hj & Huj & Hidj).
    pose proof (s_ids _ _ Hok j Hj Huj). lia. }
  pose proof (f_segs _ (s_frames _ _ Hok')) as Hlen.
  destruct (s_geom _ _ Hok' i Hi Hu) as [Hgz Hpc]. pose proof (pages_bound _ Hgz) as Hpb.
  pose proof (unlink_ok s' refs (shm_next_id s) Hok') as [Hun _]. revert Hun.
  unfold shm_unlink. rewrite (proj2 (find_segment_spec s' refs _ i Hok')) by done.
  rewrite Hrc. cbn [fst snd]. rewrite Z.eqb_refl.
  set (s1 := set_segment s' i _). intros Hun.
  assert (seg s1 i = ShmSegment (used (seg s' i)) (id (seg s' i)) (size (seg s' i))
    (page_count (seg s' i)) 0 true (frames (seg s' i))) as E1
    by (cbn [s1 set_segment shm_segments]; by rewrite set_segment_get, decide_True by done).
  pose proof (bump_ok s' refs i 0 true Hok' Hi Hu) as Hb. unfold bump in Hb. rewrite Hrc in Hb.
  assert (frames_ok s1) as Hf1.
  { apply (s_frames _ _ (Hb ltac:(pose proof (s_pos _ _ Hok' (id (seg s' i))); lia))). }
  destruct (release_segment_frames s1 i Hf1 Hi) as (_ & _ & Hu2 & Hr2 & Hh2).
  { by rewrite E1. } { by rewrite E1. } { rewrite E1. change SHM_MAX_PAGES with 16. simpl. lia. }
  split_and!; [done| |].
  - intros b. rewrite Hh2, E1. cbn [frames page_count s1 set_segment shm_frames]. rewrite Hheld. split.
    + intros [[?|(k & Hk & <-)] Hno]; [done|]. exfalso.
      apply (Hno k); [done|by apply (s_full _ _ Hok')|done].
    + intros Hb0. split; [by left|]. intros k Hk _ Ek. subst b. by apply (Hfresh k).
  - destruct (shm_find_segment (shm_release_segment s1 i) (shm_next_id s)) as [j|] eqn:Hf; [|done].
    apply (find_segment_spec _ _ _ j Hun) in Hf as (Hj & Huj & Hidj).
    destruct (decide (j = i)) as [->|Hne]; [congruence|].
    rewrite Hr2 in Huj, Hidj by done. cbn [s1 set_segment shm_segments] in Huj, Hidj.
    rewrite set_segment_get, decide_False in Huj, Hidj by done.
    exfalso. apply Hne. apply (s_uniq _ _ Hok'); congruence || done.
Qed.

Lemma map_pages_lookup n d bs fr page d' :
  map_pages n d bs fr page = (d', true) ->
  (forall k, page <= k < page + Z.of_nat n -> up_lookup d' (bs + k * PAGING_PAGE_SIZE) = Some fr.[k]) /\
  (forall v, (forall k, page <= k < page + Z.of_nat n -> v <> bs + k * PAGING_PAGE_SIZE) ->
     up_lookup d' v = up_lookup d v).
Proof.
  revert d page. induction n as [|n IH]; intros d page; cbn [map_pages].
  { intros [= <-]. split; [intros; lia|done]. }
  destruct (up_map d (bs + page * PAGING_PAGE_SIZE) fr.[page]) as [d1 ok] eqn:Em.
  destruct ok; [|done]. intros Hmp. destruct (IH d1 (page + 1) Hmp) as [IH1 IH2].
  pose proof (up_map_lookup d _ _ d1 Em) as Hl. split.
  - intros k Hk. destruct (decide (k = page)) as [->|]; [|apply IH1; lia].
    rewrite IH2 by (unfold PAGING_PAGE_SIZE; lia). rewrite Hl. by rewrite decide_True by done.
  - intros v Hv. rewrite IH2 by (intros; apply Hv; lia). rewrite Hl.
    rewrite decide_False; [done|]. apply Hv. lia.
Qed.

(** When [shm_attach] returns an address, the directory maps every page of
    the segment there, in order, to the segment's frames, and translates every
    other address as before. *)
Theorem shm_attach_maps_segment s refs d slots sid s' d' slots' r :
  shm_ok s refs ->
  shm_attach s (Some d) slots SHM_MAX_MAPPINGS sid = (s', d', slots', r) -> r <> 0 ->
  exists i dd, 0 <= i < SHM_MAX_SEGMENTS /\ used (seg s i) = true /\ id (seg s i) = sid /\
    marked_for_delete (seg s i) = false /\ d' = Some dd /\
    (forall k, 0 <= k < page_count (seg s i) -> up_lookup dd (r + k * 4096) = Some (frames (seg s i)).[k]) /\
    (forall v, (forall k, 0 <= k < page_count (seg s i) -> v <> r + k * 4096) ->
       up_lookup dd v = up_lookup d v).
Proof.
  intros Hok. unfold shm_attach. destruct (shm_find_segment s sid) as [i|] eqn:Hf; [|by intros [= ]].
  apply (find_segment_spec s _ sid i Hok) in Hf as (Hi & Hu & Hid).
  case_if; [by intros [= ]|]. case_if; [by intros [= ]|].
  destruct (s_geom _ _ Hok i Hi Hu) as [Hsz Hpc]. pose proof (pages_bound _ Hsz).
  unfold shm_attach_at. rewrite Hu. simpl negb. cbv iota.
  destruct (shm_slot_find_free _ _) as [q|]; [|by intros [= ]].
  destruct (map_pages _ _ _ _ _) as [dd ok] eqn:Em. destruct ok; simpl negb; cbv iota; [|by intros [= ]].
  intros [= <- <- <- <-] _. exists i, dd. split_and!; try done; try lia.
  - intros k Hk. eapply map_pages_lookup in Em as [Em _]. apply Em. lia.
  - intros v Hv. eapply map_pages_lookup in Em as [_ Em]. apply Em.
    intros k Hk. apply Hv. lia.
Qed.

End props.

(** * Concrete runs *)

(** A directory as a finite map. *)
#[export] Instance map_directory : UserPaging (gmap Z Z) := {
  up_map d va pa := (<[va := pa]> d, true);
  up_unmap d va := delete va d;
  up_lookup d va := d !! va }.

#[export] Instance map_directory_laws : UserPagingLaws (gmap Z Z).
Proof.
  constructor; simpl.
  - intros d va pa d' [= <-] v. case_decide; [subst; by rewrite lookup_insert_eq|].
    by rewrite lookup_insert_ne.
  - done.
  - intros d va v Hne. by rewrite lookup_delete_ne.
Qed.

Definition demo_shm0 : shms frame_pool :=
  Shms (repeat free_segment 16) 0 (FramePool 256 ∅) ∅.

Definition demo_slots : list shm_mapping := repeat free_mapping 8.
Definition demo_dir : gmap Z Z := ∅.
Definition demo_task : @task (gmap Z Z) := Task (Some demo_dir) demo_slots.
Definition demo_sys0 : @sys frame_pool (gmap Z Z) := Sys (shm_init demo_shm0) [demo_task; demo_task].

Lemma demo_lengths i :
  0 <= i < SHM_MAX_SEGMENTS ->
  Z.of_nat (length (frames (shm_segments demo_shm0).[i])) = SHM_MAX_PAGES.
Proof.
  intros Hi. cbn [demo_shm0 shm_segments]. unfold aget. rewrite list_lookup_total_alt.
  unfold SHM_MAX_SEGMENTS in Hi. by rewrite (lookup_replicate_2 16 free_segment) by lia.
Qed.

Lemma demo_fa_inv : fa_inv (FramePool 256 ∅).
Proof. intros a Ha. set_solver. Qed.

Lemma demo_sys0_initial : sys_initial demo_sys0.
Proof.
  exists demo_shm0. split_and!; [reflexivity|exact demo_fa_inv|reflexivity|apply demo_lengths|].
  repeat constructor.
Qed.

Lemma demo_shm_ok : shm_ok (shm_init demo_shm0) (fun _ => 0).
Proof. apply shm_init_ok; [exact demo_fa_inv|reflexivity|apply demo_lengths|done]. Qed.

#[local] Notation demo_shm1 := ((shm_create (shm_init demo_shm0) 5000).1).


Lemma shm_find_free_base_correct_witness :
  exists r, 0 <= r /\ r + 2 <= 16 /\
    shm_find_free_base (repeat free_mapping 8) 8 2 = PAGING_USER_SHM_BASE + 4096 * r.
Proof.
  assert (slots_ok (repeat free_mapping 8)) as Hs.
  { split; [reflexivity|]. intros k Hk. by rewrite repeat_get. }
  destruct (shm_find_free_base_correct (repeat free_mapping 8) 2 Hs ltac:(lia))
    as [[E _]|(r & H1 & H2 & H3 & _)]; [vm_compute in E; discriminate|by exists r].
Defined.

Lemma shm_create_unlink_roundtrip_witness :
  (shm_unlink demo_shm1 1).2 = 0 /\ shm_find_segment (shm_unlink demo_shm1 1).1 1 = None.
Proof.
  assert (shm_create (shm_init demo_shm0) 5000 = (demo_shm1, 1)) as E
    by (vm_compute; reflexivity).
  destruct (shm_create_unlink_roundtrip (shm_init demo_shm0) (fun _ => 0) 5000 demo_shm1 1
    demo_shm_ok ltac:(lia) E ltac:(lia)) as (H1 & _ & H2). split; [exact H1|exact H2].
Defined.

Lemma demo_shm1_ok : shm_ok demo_shm1 (fun _ => 0).
Proof.
  pose proof (create_ok (shm_init demo_shm0) (fun _ => 0) 5000 demo_shm_ok ltac:(lia)) as Hc.
  destruct (shm_create (shm_init demo_shm0) 5000) as [s' r]. exact (proj1 Hc).
Qed.

Lemma demo_attach_eq : exists s' d' sl', 
  shm_attach demo_shm1 (Some demo_dir) demo_slots SHM_MAX_MAPPINGS 1 = (s', d', sl', 20897792) /\
  m_used sl'.[0] = true /\ segment_id sl'.[0] = 1.
Proof.
  assert ((shm_attach demo_shm1 (Some demo_dir) demo_slots SHM_MAX_MAPPINGS 1).2 = 20897792) as Er by (vm_compute; reflexivity).
  assert (m_used (shm_attach demo_shm1 (Some demo_dir) demo_slots SHM_MAX_MAPPINGS 1).1.2.[0] = true) as Eu by (vm_compute; reflexivity).
  assert (segment_id (shm_attach demo_shm1 (Some demo_dir) demo_slots SHM_MAX_MAPPINGS 1).1.2.[0] = 1) as Es by (vm_compute; reflexivity).
  destruct (shm_attach _ _ _ _ _) as [[[s' d'] sl'] r]. simpl in Er, Eu, Es. subst r.
  exists s', d', sl'. split_and!; [reflexivity|exact Eu|exact Es].
Qed.

Lemma shm_attach_maps_segment_witness :
  exists s' (dd : gmap Z Z) sl',
    shm_attach demo_shm1 (Some demo_dir) demo_slots SHM_MAX_MAPPINGS 1 = (s', Some dd, sl', 20897792) /\
    is_Some (dd !! 20897792).
Proof.
  destruct demo_attach_eq as (s' & d' & sl' & E & _).
  destruct (shm_attach_maps_segment demo_shm1 (fun _ => 0) demo_dir demo_slots 1 s' d' sl' 20897792
    demo_shm1_ok E ltac:(lia)) as (i & dd & Hi & Hu & _ & _ & -> & Hmap & _).
  exists s', dd, sl'. split; [exact E|]. specialize (Hmap 0). rewrite Z.add_0_r in Hmap.
  destruct (s_geom _ _ demo_shm1_ok i Hi Hu) as [Hsz Hpc]. pose proof (pages_bound _ Hsz).
  unfold up_lookup in Hmap; simpl in Hmap. rewrite Hmap by lia. eauto.
Defined.

Lemma shm_mappings_never_dangle_witness :
  exists y', rtc sys_step demo_sys0 y' /\
  exists i, used (shm_segments (sys_shm y')).[i] = true /\
    ref_count (shm_segments (sys_shm y')).[i] = total (sys_tasks y') 1.
Proof.
  destruct demo_attach_eq as (s' & d' & sl' & E & Hu & Hs).
  set (y' := Sys s' (<[0%nat := Task d' sl']> [demo_task; demo_task])).
  assert (rtc sys_step demo_sys0 y') as Hrun.
  { eapply rtc_l; [apply (SysCreate _ _ 5000); lia|]. apply rtc_once.
    eapply (SysAttach _ _ 0 demo_task 1); [reflexivity|exact E]. }
  exists y'. split; [exact Hrun|].
  destruct (shm_mappings_never_dangle demo_sys0 y' 0 (Task d' sl') 0 demo_sys0_initial Hrun eq_refl
    ltac:(unfold SHM_MAX_MAPPINGS; lia) Hu) as [(i & _ & Hui & Hid & _ & Hr & _) _].
  exists i. split; [exact Hui|]. rewrite Hr, Hid. cbn [t_slots]. by rewrite Hs.
Defined.
