(* ===== verification/Slab.v ===== *)
(** Slab allocator for small objects: [kernel/mem/slab.c].

    The intrusive lists of the code (a cache's partial and full pages, a page's
    free objects) are lists of addresses, first element at the head.  Pages
    come from the frame-allocator interface.  The theorems show that an
    allocation returns an object of its size class that was free, aligned and
    inside a slab page, that freeing undoes it, and that the page accounting is
    exact. *)
From S2P Require Import Prelude.
From S2P Require Import Interfaces.
From Stdlib Require Import ZArith Lia.
From stdpp Require Import base numbers list gmap relations.

Open Scope Z_scope.
Open Scope lyth_scope.

Definition SLAB_MAGIC : Z := 1397506370.
Definition SLAB_NUM_CACHES : Z := 8.
Definition SLAB_MAX_OBJ : Z := 2048.
Definition SLAB_PAGE_SIZE : Z := 4096.
Definition sizeof_slab_page : Z := 32.

Definition cache_sizes : list Z := [16; 32; 64; 128; 256; 512; 1024; 2048].

(** The header of a page with [magic = SLAB_MAGIC]; the [next] link is the
    page's position in its cache list. *)
Record slab_page := SlabPage {
  obj_size : Z;
  capacity : Z;
  free_count : Z;
  cache_idx : Z;
  free_list : list Z;
}.

Record slab_cache := SlabCache { partial : list Z; full : list Z; c_obj_size : Z }.

#[export] Instance slab_cache_inhabited : Inhabited slab_cache := populate (SlabCache [] [] 0).
#[export] Instance slab_page_inhabited : Inhabited slab_page := populate (SlabPage 0 0 0 0 []).

Definition cache_index_for_size (size : Z) : option Z :=
  find_first (fun i => size <=? cache_sizes.[i]) (Z.to_nat SLAB_NUM_CACHES) 0.

Definition header_size_aligned (osz : Z) : Z :=
  let hdr := sizeof_slab_page in
  let mask := u32 (osz - 1) in
  Z.land (u32 (hdr + mask)) (not32 mask).

(** The page header of an address: [ptr & ~(SLAB_PAGE_SIZE - 1U)]. *)
Definition page_of (ptr : Z) : Z := Z.land ptr (not32 (SLAB_PAGE_SIZE - 1)).

(** Lines 184-188: unlink a page from a list. *)
Fixpoint unlink_page (page : Z) (l : list Z) : list Z :=
  match l with
  | [] => []
  | p :: l' => if p =? page then l' else p :: unlink_page page l'
  end.

Section slab.
Context {F : Type} `{FrameAllocator F}.

Record slabs := Slabs {
  slab_caches : list slab_cache;
  slab_ready : bool;
  slab_pages : gmap Z slab_page;
  slab_frames : F;
}.

Definition set_cache (s : slabs) (ci : Z) (c : slab_cache) : slabs :=
  Slabs (slab_caches s).[ci <- c] (slab_ready s) (slab_pages s) (slab_frames s).
Definition set_page (s : slabs) (a : Z) (p : slab_page) : slabs :=
  Slabs (slab_caches s) (slab_ready s) (<[a := p]> (slab_pages s)) (slab_frames s).

Definition slab_page_create (s : slabs) (ci : Z) : slabs * Z :=
  let '(fa, phys) := fa_alloc (slab_frames s) in
  let s := Slabs (slab_caches s) (slab_ready s) (slab_pages s) fa in
  if phys =? 0 then (s, 0)
  else
    let osz := cache_sizes.[ci] in
    let hdr_end := header_size_aligned osz in
    let usable := u32 (SLAB_PAGE_SIZE - hdr_end) in
    let cap := u16 (usable / osz) in
    let base := phys + hdr_end in
    let fl := for_loop (fun i fl => base + i * osz :: fl) (Z.to_nat cap) 0 [] in
    (set_page s phys (SlabPage osz cap cap (u8 ci) fl), phys).

Definition slab_init (s : slabs) : slabs :=
  Slabs (for_loop (fun i cs => cs.[i <- SlabCache [] [] cache_sizes.[i]])
           (Z.to_nat SLAB_NUM_CACHES) 0 (slab_caches s))
        true (slab_pages s) (slab_frames s).

(** Lines 143-156: pop an object of [page], the head of the partial list. *)
Definition slab_pop (s : slabs) (ci page : Z) : slabs * Z :=
  let p := default inhabitant (slab_pages s !! page) in
  let c := (slab_caches s).[ci] in
  let obj := hd 0 (free_list p) in
  let p := SlabPage (obj_size p) (capacity p) (u16 (free_count p - 1)) (cache_idx p) (tl (free_list p)) in
  let s := set_page s page p in
  if free_count p =? 0
  then (set_cache s ci (SlabCache (tl (partial c)) (page :: full c) (c_obj_size c)), obj)
  else (s, obj).

Definition slab_alloc (s : slabs) (size : Z) : slabs * Z :=
  if negb (slab_ready s) || (size =? 0) || (SLAB_MAX_OBJ <? size) then (s, 0)
  else match cache_index_for_size size with
       | None => (s, 0)
       | Some ci =>
           let c := (slab_caches s).[ci] in
           match partial c with
           | page :: _ => slab_pop s ci page
           | [] =>
               let '(s, page) := slab_page_create s ci in
               if page =? 0 then (s, 0)
               else
                 let s := set_cache s ci (SlabCache [page] (full c) (c_obj_size c)) in
                 slab_pop s ci page
           end
       end.

Definition slab_free (s : slabs) (ptr : Z) : slabs :=
  if ptr =? 0 then s
  else
    let page := page_of ptr in
    match slab_pages s !! page with
    | None => s
    | Some p =>
        let c := (slab_caches s).[cache_idx p] in
        let was_full := free_count p =? 0 in
        let s := set_page s page (SlabPage (obj_size p) (capacity p) (u16 (free_count p + 1))
                   (cache_idx p) (ptr :: free_list p)) in
        if was_full
        then set_cache s (cache_idx p)
               (SlabCache (page :: partial c) (unlink_page page (full c)) (c_obj_size c))
        else s
    end.

(** [slab_owns]; [word] is the first word of a page that is not a slab page. *)
Definition slab_owns (s : slabs) (word : Z -> Z) (ptr : Z) : bool :=
  if ptr =? 0 then false
  else match slab_pages s !! page_of ptr with
       | Some _ => true
       | None => word (page_of ptr) =? SLAB_MAGIC
       end.

Record cache_stats := CacheStats { cs_obj_size : Z; cs_total : Z; cs_free : Z; cs_pages : Z }.

Definition slab_cache_stats (s : slabs) (i : Z) : cache_stats :=
  let c := (slab_caches s).[i] in
  let page a := default inhabitant (slab_pages s !! a) in
  let '(pages, total, free_o) :=
    foldl (fun '(pages, total, free_o) a =>
      (u32 (pages + 1), u32 (total + capacity (page a)), u32 (free_o + free_count (page a))))
      (0, 0, 0) (partial c) in
  let '(pages, total) :=
    foldl (fun '(pages, total) a => (u32 (pages + 1), u32 (total + capacity (page a))))
      (pages, total) (full c) in
  CacheStats cache_sizes.[i] total free_o pages.

(** The per-cache figures, the page total and the byte total. *)
Definition slab_get_stats (s : slabs) : list cache_stats * Z * Z :=
  let cs := slab_cache_stats s <$> seqZ 0 SLAB_NUM_CACHES in
  let total_pages := foldl (fun t c => u32 (t + cs_pages c)) 0 cs in
  (cs, total_pages, u32 (total_pages * SLAB_PAGE_SIZE)).

End slab.
Arguments slabs : clear implicits.

(** * Geometry of the size classes *)

Definition osize (ci : Z) : Z := cache_sizes.[ci].
Definition hdr (ci : Z) : Z := header_size_aligned (osize ci).
Definition cap (ci : Z) : Z := u16 (u32 (SLAB_PAGE_SIZE - hdr ci) / osize ci).

Ltac each_class ci :=
  let Hc := fresh in
  assert (ci = 0 \/ ci = 1 \/ ci = 2 \/ ci = 3 \/ ci = 4 \/ ci = 5 \/ ci = 6 \/ ci = 7) as Hc by lia;
  destruct Hc as [->|[->|[->|[->|[->|[->|[->| ->]]]]]]].

Lemma class_geometry ci :
  0 <= ci < 8 ->
  16 <= osize ci <= 2048 /\ 32 <= hdr ci /\ 1 <= cap ci <= 254 /\
  hdr ci + cap ci * osize ci <= 4096 /\ hdr ci mod osize ci = 0 /\ 4096 mod osize ci = 0.
Proof. intros Hci. each_class ci; vm_compute; repeat split; intros; discriminate. Qed.

Lemma cache_index_spec size :
  1 <= size <= SLAB_MAX_OBJ ->
  exists ci, cache_index_for_size size = Some ci /\ 0 <= ci < 8 /\ size <= osize ci.
Proof.
  unfold SLAB_MAX_OBJ. intros Hs. unfold cache_index_for_size.
  destruct (find_first_exists (fun i => size <=? cache_sizes.[i]) (Z.to_nat SLAB_NUM_CACHES) 0 7)
    as (ci & E & Hci); [unfold SLAB_NUM_CACHES; lia|change (cache_sizes.[7]) with 2048; apply Z.leb_le; lia|].
  exists ci. split; [done|]. apply find_first_Some in E as (Hr & Hle & _). bool_to_prop.
  unfold SLAB_NUM_CACHES in Hr. split; [lia|done].
Qed.

(** Object [k] of the page at [a]. *)
Definition slot (a ci k : Z) : Z := a + hdr ci + k * osize ci.
Definition is_slot (a ci o : Z) : Prop := exists k, 0 <= k < cap ci /\ o = slot a ci k.

Lemma slot_bounds a ci o :
  0 <= ci < 8 -> is_slot a ci o -> a + 32 <= o /\ o + osize ci <= a + 4096.
Proof.
  intros Hci (k & Hk & ->). destruct (class_geometry ci Hci) as (? & ? & ? & ? & _).
  unfold slot. nia.
Qed.

Lemma slot_aligned a ci o :
  0 <= ci < 8 -> a mod 4096 = 0 -> is_slot a ci o -> o mod osize ci = 0.
Proof.
  intros Hci Ha (k & Hk & ->). destruct (class_geometry ci Hci) as (Hs & _ & _ & _ & Hh & Hp).
  apply Z.mod_divide in Ha; [|done]. apply Z.mod_divide in Hh; [|lia]. apply Z.mod_divide in Hp; [|lia].
  apply Z.mod_divide; [lia|]. unfold slot. apply Z.divide_add_r; [apply Z.divide_add_r|].
  - by etrans.
  - done.
  - by apply Z.divide_factor_r.
Qed.

Lemma page_of_spec a o :
  a mod 4096 = 0 -> 0 <= a -> a + 4096 <= 4294967296 -> a <= o < a + 4096 -> page_of o = a.
Proof.
  intros Ha H0 H1 Ho. unfold page_of, SLAB_PAGE_SIZE.
  change (4096 - 1) with (2 ^ 12 - 1). rewrite land_not32_pow2 by lia.
  change (2 ^ 12) with 4096. zlia.
Qed.

Definition slots (a ci : Z) : list Z := (fun k => slot a ci k) <$> seqZ 0 (cap ci).

Lemma elem_slots a ci o : o ∈ slots a ci <-> is_slot a ci o.
Proof.
  unfold slots, is_slot. rewrite list_elem_of_fmap. setoid_rewrite elem_of_seqZ.
  split; intros (k & ? & ?); exists k; (split; [|done]); first [done|lia].
Qed.

Lemma slots_NoDup a ci : 0 <= ci < 8 -> NoDup (slots a ci).
Proof.
  intros Hci. destruct (class_geometry ci Hci) as (? & _). apply NoDup_fmap_2_strong; [|apply NoDup_seqZ].
  intros x y _ _. unfold slot. nia.
Qed.

Lemma slots_length a ci : 0 <= ci < 8 -> Z.of_nat (length (slots a ci)) = cap ci.
Proof.
  intros Hci. destruct (class_geometry ci Hci) as (_ & _ & ? & _).
  unfold slots. rewrite length_fmap, length_seqZ. lia.
Qed.

(** The free list of a new page holds every object once. *)
Lemma carve_spec base osz (n : nat) lo acc :
  for_loop (fun i fl => base + i * osz :: fl) n lo acc
  = reverse ((fun k => base + k * osz) <$> seqZ lo (Z.of_nat n)) ++ acc.
Proof.
  revert lo acc. induction n as [|n IH]; intros lo acc; [done|]. cbn [for_loop]. rewrite IH.
  rewrite (seqZ_cons lo) by lia. rewrite fmap_cons, reverse_cons, <- app_assoc.
  do 4 f_equal; lia.
Qed.

Lemma carve_slots a ci :
  0 <= ci < 8 ->
  for_loop (fun i fl => a + hdr ci + i * osize ci :: fl) (Z.to_nat (cap ci)) 0 []
  = reverse (slots a ci).
Proof.
  intros Hci. destruct (class_geometry ci Hci) as (_ & _ & ? & _).
  rewrite carve_spec, app_nil_r. unfold slots, slot. do 3 f_equal. lia.
Qed.

(** * Invariant *)

Section props.
Context {F : Type} `{FrameAllocatorLaws F}.
Implicit Types (s : slabs F) (a : Z) (p : slab_page).

Record page_ok s a p : Prop := PageOk {
  p_ci : 0 <= cache_idx p < 8;
  p_osz : obj_size p = osize (cache_idx p);
  p_cap : capacity p = cap (cache_idx p);
  p_align : a mod 4096 = 0;
  p_range : 0 < a /\ a + 4096 <= 4294967296;
  p_held : fa_held (slab_frames s) a;
  p_nodup : NoDup (free_list p);
  p_slots : Forall (is_slot a (cache_idx p)) (free_list p);
  p_count : Z.of_nat (length (free_list p)) = free_count p;
}.

(** Membership in the lists of a cache is determined by the page headers. *)
Definition on_partial s ci a : Prop :=
  exists p, slab_pages s !! a = Some p /\ cache_idx p = ci /\ 0 < free_count p.
Definition on_full s ci a : Prop :=
  exists p, slab_pages s !! a = Some p /\ cache_idx p = ci /\ free_count p = 0.

Record slab_ok s : Prop := SlabOk {
  sl_inv : fa_inv (slab_frames s);
  sl_ready : slab_ready s = true;
  sl_len : Z.of_nat (length (slab_caches s)) = 8;
  sl_pages : forall a p, slab_pages s !! a = Some p -> page_ok s a p;
  sl_nodup : forall ci, 0 <= ci < 8 ->
    NoDup (partial (slab_caches s).[ci]) /\ NoDup (full (slab_caches s).[ci]);
  sl_partial : forall ci a, 0 <= ci < 8 -> a ∈ partial (slab_caches s).[ci] <-> on_partial s ci a;
  sl_full : forall ci a, 0 <= ci < 8 -> a ∈ full (slab_caches s).[ci] <-> on_full s ci a;
}.

(** An object handed out and not freed. *)
Definition allocated s (o : Z) : Prop :=
  exists a p, slab_pages s !! a = Some p /\ is_slot a (cache_idx p) o /\ o ∉ free_list p.

Lemma free_le_cap s a p : page_ok s a p -> free_count p <= cap (cache_idx p).
Proof.
  intros Hp. rewrite <- (p_count _ _ _ Hp), <- (slots_length a) by apply Hp.
  apply inj_le, submseteq_length, NoDup_submseteq; [apply Hp|]. intros o Ho.
  apply elem_slots. exact (proj1 (Forall_forall _ _) (p_slots _ _ _ Hp) o Ho).
Qed.

Lemma free_lt_cap s a p o :
  page_ok s a p -> is_slot a (cache_idx p) o -> o ∉ free_list p -> free_count p < cap (cache_idx p).
Proof.
  intros Hp Ho Hn. rewrite <- (p_count _ _ _ Hp), <- (slots_length a) by apply Hp.
  enough (length (o :: free_list p) <= length (slots a (cache_idx p)))%nat by (simpl in *; lia).
  apply submseteq_length, NoDup_submseteq; [constructor; [done|apply Hp]|].
  intros o' [->|Ho']%elem_of_cons; apply elem_slots; [done|].
  exact (proj1 (Forall_forall _ _) (p_slots _ _ _ Hp) o' Ho').
Qed.

(** An object determines its page. *)
Lemma slot_page s a p o :
  page_ok s a p -> is_slot a (cache_idx p) o -> page_of o = a /\ o <> 0.
Proof.
  intros Hp Ho. destruct (p_range _ _ _ Hp). pose proof (slot_bounds _ _ _ (p_ci _ _ _ Hp) Ho).
  destruct (class_geometry _ (p_ci _ _ _ Hp)) as (? & _).
  split; [|lia]. apply page_of_spec; [apply Hp|lia|lia|lia].
Qed.

Lemma page_ok_frames s s' a p :
  slab_frames s' = slab_frames s -> page_ok s a p -> page_ok s' a p.
Proof. intros E []. constructor; try done. by rewrite E. Qed.

Lemma aget_cache s ci c j :
  Z.of_nat (length (slab_caches s)) = 8 -> 0 <= ci < 8 -> 0 <= j < 8 ->
  (slab_caches s).[ci <- c].[j] = if decide (ci = j) then c else (slab_caches s).[j].
Proof. intros. case_decide; [subst; apply aget_aset_eq; lia|apply aget_aset_ne; lia]. Qed.

(** Replacing the header of [page] and the lists of its cache. *)
Lemma update_page_ok s page p p' c' :
  slab_ok s -> slab_pages s !! page = Some p -> page_ok s page p' -> cache_idx p' = cache_idx p ->
  let c := (slab_caches s).[cache_idx p] in
  NoDup (partial c') -> NoDup (full c') ->
  (forall a, a ∈ partial c' <-> if decide (a = page) then 0 < free_count p' else a ∈ partial c) ->
  (forall a, a ∈ full c' <-> if decide (a = page) then free_count p' = 0 else a ∈ full c) ->
  slab_ok (set_cache (set_page s page p') (cache_idx p) c').
Proof.
  intros [Hinv Hrd Hlen Hpg Hnodup Hpa Hfu] Ep Hp' Hci c Hnp Hnf Hmp Hmf.
  pose proof (p_ci _ _ _ (Hpg _ _ Ep)) as Hcr.
  assert (forall j, 0 <= j < 8 -> j <> cache_idx p -> forall (P : slab_page -> Prop),
    (exists q, <[page := p']> (slab_pages s) !! page = Some q /\ cache_idx q = j /\ P q) -> False) as Hother.
  { intros j Hj Hne P (q & Eq & Ej & _). rewrite lookup_insert_eq in Eq. simplify_eq. }
  constructor; cbn [set_cache set_page slab_frames slab_ready slab_caches slab_pages]; try done.
  - by rewrite aset_length.
  - intros a q Ea. destruct (decide (a = page)) as [->|].
    + rewrite lookup_insert_eq in Ea. simplify_eq. eapply page_ok_frames; [|exact Hp']. done.
    + rewrite lookup_insert_ne in Ea by done. eapply page_ok_frames; [|by apply Hpg]. done.
  - intros j Hj. rewrite aget_cache by done. case_decide; [done|]. by apply Hnodup.
  - intros j a Hj. rewrite aget_cache by done. unfold on_partial.
    cbn [set_cache set_page slab_pages]. destruct (decide (cache_idx p = j)) as [<-|Hne].
    + rewrite Hmp. destruct (decide (a = page)) as [->|Ha].
      * rewrite lookup_insert_eq. split; [intros; by exists p'|]. intros (q & ? & _ & ?). by simplify_eq.
      * rewrite lookup_insert_ne by done. by apply Hpa.
    + rewrite Hpa by done. unfold on_partial. destruct (decide (a = page)) as [->|Ha].
      * split; [intros (q & ? & ? & _); congruence|]. intros Hq. exfalso.
        refine (Hother j Hj _ _ Hq). congruence.
      * by rewrite lookup_insert_ne by done.
  - intros j a Hj. rewrite aget_cache by done. unfold on_full.
    cbn [set_cache set_page slab_pages]. destruct (decide (cache_idx p = j)) as [<-|Hne].
    + rewrite Hmf. destruct (decide (a = page)) as [->|Ha].
      * rewrite lookup_insert_eq. split; [intros; by exists p'|]. intros (q & ? & _ & ?). by simplify_eq.
      * rewrite lookup_insert_ne by done. by apply Hfu.
    + rewrite Hfu by done. unfold on_full. destruct (decide (a = page)) as [->|Ha].
      * split; [intros (q & ? & ? & _); congruence|]. intros Hq. exfalso.
        refine (Hother j Hj _ _ Hq). congruence.
      * by rewrite lookup_insert_ne by done.
Qed.

(** Writing a cache back unchanged. *)
Lemma set_cache_same s ci :
  0 <= ci < 8 -> Z.of_nat (length (slab_caches s)) = 8 -> set_cache s ci (slab_caches s).[ci] = s.
Proof.
  intros Hci Hl. unfold set_cache. destruct s as [cs r pg fa]; cbn in *. f_equal.
  unfold aset, aget. apply list_insert_id. apply list_lookup_lookup_total_lt. lia.
Qed.

(** The objects in use after the free list of [page] changed. *)
Lemma allocated_update s s' page p p' o :
  slab_ok s -> slab_pages s !! page = Some p -> cache_idx p' = cache_idx p ->
  slab_pages s' = <[page := p']> (slab_pages s) ->
  allocated s' o <->
  if decide (is_Some (slab_pages s !! page_of o) /\ page_of o = page) then
    is_slot page (cache_idx p) o /\ o ∉ free_list p' else allocated s o.
Proof.
  intros Hok Ep Hci Es. pose proof (sl_pages _ Hok _ _ Ep) as Hp. unfold allocated. rewrite Es. split.
  - intros (a & q & Ea & Hs & Hn). destruct (decide (a = page)) as [->|Ha].
    + rewrite lookup_insert_eq in Ea. simplify_eq. rewrite Hci in Hs.
      pose proof (proj1 (slot_page _ _ _ _ Hp Hs)) as E. rewrite decide_True; [done|].
      rewrite E, Ep. eauto.
    + rewrite lookup_insert_ne in Ea by done. pose proof (sl_pages _ Hok _ _ Ea) as Hq.
      pose proof (proj1 (slot_page _ _ _ _ Hq Hs)) as E. rewrite decide_False by (intros [_ ?]; congruence).
      by exists a, q.
  - case_decide as Hd.
    + intros [Hs Hn]. exists page, p'. rewrite lookup_insert_eq, Hci. done.
    + intros (a & q & Ea & Hs & Hn). exists a, q. pose proof (sl_pages _ Hok _ _ Ea) as Hq.
      pose proof (proj1 (slot_page _ _ _ _ Hq Hs)) as E.
      rewrite lookup_insert_ne; [done|]. intros <-. apply Hd. rewrite E, Ea. eauto.
Qed.

(** Taking the head object of the first partial page of a cache. *)
Lemma slab_pop_spec s ci page rest :
  slab_ok s -> 0 <= ci < 8 -> partial (slab_caches s).[ci] = page :: rest ->
  let '(s', o) := slab_pop s ci page in
  slab_ok s' /\ o <> 0 /\ ~ allocated s o /\ is_slot page ci o /\ page_of o = page /\
  is_Some (slab_pages s !! page) /\ (forall x, allocated s' x <-> x = o \/ allocated s x).
Proof.
  intros Hok Hci Hpart.
  assert (on_partial s ci page) as (p & Ep & Hcip & Hpos)
    by (apply (sl_partial _ Hok); [done|]; rewrite Hpart; left).
  pose proof (sl_pages _ Hok _ _ Ep) as Hp. pose proof (p_count _ _ _ Hp) as Hcnt.
  destruct (free_list p) as [|o fl] eqn:Efl; [simpl in Hcnt; lia|]. simpl in Hcnt.
  pose proof (p_nodup _ _ _ Hp) as Hnd. pose proof (p_slots _ _ _ Hp) as Hsl.
  rewrite Efl in Hnd, Hsl. apply NoDup_cons in Hnd as [Hno Hnd]. apply Forall_cons in Hsl as [Ho Hsl].
  pose proof (free_le_cap _ _ _ Hp) as Hle. destruct (class_geometry ci Hci) as (_ & _ & Hcap & _).
  destruct (slot_page _ _ _ _ Hp Ho) as [Epo Ho0]. subst ci.
  unfold slab_pop. rewrite Ep. change (default inhabitant (Some p)) with p. cbv zeta. rewrite Efl.
  cbn [hd tl free_count]. rewrite u16_small by lia.
  set (p' := SlabPage (obj_size p) (capacity p) (free_count p - 1) (cache_idx p) fl).
  assert (page_ok s page p') as Hp' by (destruct Hp; constructor; cbn; done || lia).
  destruct (sl_nodup _ Hok _ Hci) as [Hnp Hnf]. rewrite Hpart in Hnp.
  pose proof Hnp as [Hnpage Hnp']%NoDup_cons.
  assert (page ∉ full (slab_caches s).[cache_idx p]) as Hnfull.
  { rewrite (sl_full _ Hok) by done. intros (q & ? & _ & ?). simplify_eq. lia. }
  assert (forall s' : slabs F, slab_pages s' = <[page := p']> (slab_pages s) -> forall x,
    allocated s' x <-> x = o \/ allocated s x) as Halloc.
  { intros s' Es x. rewrite (allocated_update s s' page p p') by done. case_decide as Hd.
    - destruct Hd as [_ Hd]. split.
      + intros [Hs Hn]. destruct (decide (x = o)) as [->|]; [by left|]. right. exists page, p.
        split_and!; [done|done|]. rewrite Efl. by intros [?|?]%elem_of_cons.
      + intros [->|(a & q & Ea & Hs & Hn)]; [done|]. pose proof (sl_pages _ Hok _ _ Ea) as Hq.
        pose proof (proj1 (slot_page _ _ _ _ Hq Hs)). assert (a = page) as -> by congruence. simplify_eq.
        split; [done|]. intros Hin. apply Hn. rewrite Efl. by right.
    - split; [by right|]. intros [->|?]; [|done]. exfalso. apply Hd. rewrite Epo, Ep. eauto. }
  assert (~ allocated s o) as Hnew.
  { intros (a & q & Ea & Hs & Hn). pose proof (sl_pages _ Hok _ _ Ea) as Hq.
    pose proof (proj1 (slot_page _ _ _ _ Hq Hs)). assert (a = page) as -> by congruence.
    simplify_eq. apply Hn. rewrite Efl. left. }
  case_if.
  - split_and!; try done; [|by apply Halloc].
    apply (update_page_ok s page p p'); try done; cbn [partial full].
    + by rewrite Hpart.
    + by constructor.
    + intros a. rewrite Hpart. cbn [tl free_count p']. case_decide as Ha; [subst; split; [done|lia]|].
      rewrite elem_of_cons. tauto.
    + intros a. rewrite elem_of_cons. case_decide; [|tauto]. cbn [free_count p']. tauto.
  - split_and!; try done; [|by apply Halloc].
    rewrite <- (set_cache_same (set_page s page p') (cache_idx p)); [|done|apply Hok].
    cbn [set_page slab_caches]. apply (update_page_ok s page p p'); try done.
    + by rewrite Hpart.
    + intros a. case_decide as Ha; [|done]. subst. rewrite Hpart. cbn [free_count p'].
      split; [lia|]. intros _. left.
    + intros a. case_decide as Ha; [|done]. subst. cbn [free_count p']. split; [done|lia].
Qed.

(** A fresh page for an empty partial list. *)
Lemma slab_create_spec s ci :
  slab_ok s -> 0 <= ci < 8 -> partial (slab_caches s).[ci] = [] ->
  let '(s1, page) := slab_page_create s ci in
  (page = 0 /\ s1 = s) \/
  (page <> 0 /\ slab_pages s !! page = None /\
   let s2 := set_cache s1 ci (SlabCache [page] (full (slab_caches s).[ci]) (c_obj_size (slab_caches s).[ci])) in
   slab_ok s2 /\ forall x, allocated s2 x <-> allocated s x).
Proof.
  intros Hok Hci Hpart. destruct (class_geometry ci Hci) as (Hos & Hhd & Hcap & Hfit & _).
  unfold slab_page_create. destruct (fa_alloc (slab_frames s)) as [fa a] eqn:Ea.
  case_if.
  { subst a. left. split; [done|]. pose proof (fa_alloc_none _ _ (sl_inv _ Hok) Ea) as ->. by destruct s. }
  right. split; [done|].
  destruct (fa_alloc_fresh _ _ _ (sl_inv _ Hok) Ea ltac:(done)) as (Hal & Hlo & Hhi & Hnh & Hh).
  pose proof (fa_alloc_inv _ (sl_inv _ Hok)) as Hinv'. rewrite Ea in Hinv'. cbn in Hinv'.
  assert (slab_pages s !! a = None) as Hna.
  { destruct (slab_pages s !! a) as [q|] eqn:Eq; [|done]. exfalso. apply Hnh.
    apply (p_held _ _ _ (sl_pages _ Hok _ _ Eq)). }
  split; [done|]. cbv zeta. fold (osize ci). fold (hdr ci).
  change (u16 (u32 (SLAB_PAGE_SIZE - hdr ci) / osize ci)) with (cap ci).
  rewrite carve_slots by done. rewrite (u8_small ci) by lia.
  set (p := SlabPage (osize ci) (cap ci) (cap ci) ci (reverse (slots a ci))).
  assert (forall s', fa_held (slab_frames s') a -> page_ok s' a p) as Hp.
  { intros s' Hh'. constructor; cbn; try done; try lia.
    - rewrite reverse_Permutation. by apply slots_NoDup.
    - apply Forall_reverse, Forall_forall. intros o Ho. by apply elem_slots.
    - rewrite length_reverse. by apply slots_length. }
  destruct Hok as [Hinv Hrd Hlen Hpg Hnodup Hpa Hfu]. split.
  - constructor; cbn [set_cache set_page slab_frames slab_ready slab_caches slab_pages]; try done.
    + by rewrite aset_length.
    + intros b q Eb. destruct (decide (b = a)) as [->|].
      * rewrite lookup_insert_eq in Eb. simplify_eq. apply Hp. cbn. apply Hh. by left.
      * rewrite lookup_insert_ne in Eb by done. destruct (Hpg _ _ Eb). constructor; try done.
        cbn. apply Hh. by right.
    + intros j Hj. rewrite aget_cache by done. case_decide; [|by apply Hnodup]. cbn.
      split; [apply NoDup_singleton|]. subst. by apply Hnodup.
    + intros j b Hj. rewrite aget_cache by done. unfold on_partial. cbn. destruct (decide (b = a)) as [->|Hb].
      * rewrite lookup_insert_eq. case_decide as Ej; cbn.
        { rewrite list_elem_of_singleton. split; [|done]. intros _. exists p. subst. split_and!; [done|done|cbn; lia]. }
        rewrite Hpa by done. unfold on_partial. rewrite Hna. split; intros (q & ? & ? & ?); simplify_eq; done.
      * rewrite lookup_insert_ne by done. case_decide as Ej; cbn; [|by apply Hpa]. subst j.
        rewrite list_elem_of_singleton. split; [done|]. intros Hq.
        assert (b ∈ partial (slab_caches s).[ci]) as Hin by by apply Hpa. rewrite Hpart in Hin. set_solver.
    + intros j b Hj. rewrite aget_cache by done. unfold on_full. cbn.
      assert ((if decide (ci = j) then SlabCache [a] (full (slab_caches s).[ci]) (c_obj_size (slab_caches s).[ci])
        else (slab_caches s).[j]).(full) = full (slab_caches s).[j]) as -> by (case_decide; by subst).
      rewrite Hfu by done. unfold on_full. destruct (decide (b = a)) as [->|Hb].
      * rewrite lookup_insert_eq, Hna. split; intros (q & ? & ? & ?); simplify_eq. cbn in *. lia.
      * by rewrite lookup_insert_ne by done.
  - intros x. unfold allocated. cbn. split; intros (b & q & Eb & Hs & Hn).
    + destruct (decide (b = a)) as [->|].
      * rewrite lookup_insert_eq in Eb. simplify_eq. exfalso. apply Hn. cbn.
        rewrite elem_of_reverse. by apply elem_slots.
      * rewrite lookup_insert_ne in Eb by done. by exists b, q.
    + exists b, q. rewrite lookup_insert_ne; [done|]. intros ->. congruence.
Qed.

(** Objects of one page, or of two, do not overlap. *)
Lemma slots_disjoint s a b p q x y :
  page_ok s a p -> page_ok s b q -> is_slot a (cache_idx p) x -> is_slot b (cache_idx q) y ->
  (a = b -> p = q) -> x <> y -> x + osize (cache_idx p) <= y \/ y + osize (cache_idx q) <= x.
Proof.
  intros Hp Hq Hx Hy Hab Hne.
  pose proof (slot_bounds _ _ _ (p_ci _ _ _ Hp) Hx) as Bx.
  pose proof (slot_bounds _ _ _ (p_ci _ _ _ Hq) Hy) as By.
  destruct (decide (a = b)) as [->|Hn].
  - rewrite <- (Hab eq_refl) in *. destruct Hx as (k & Hk & ->), Hy as (l & Hl & ->).
    destruct (class_geometry _ (p_ci _ _ _ Hp)) as (Ho & _). unfold slot in *.
    destruct (Z.lt_trichotomy k l) as [?|[->|?]]; [left; nia|done|right; nia].
  - pose proof (p_align _ _ _ Hp). pose proof (p_align _ _ _ Hq). zlia.
Qed.

Lemma allocated_page s x :
  slab_ok s -> allocated s x ->
  exists p, slab_pages s !! page_of x = Some p /\ page_ok s (page_of x) p /\
    is_slot (page_of x) (cache_idx p) x /\ x ∉ free_list p.
Proof.
  intros Hok (a & p & Ea & Hs & Hn). pose proof (sl_pages _ Hok _ _ Ea) as Hp.
  destruct (slot_page _ _ _ _ Hp Hs) as [E _]. exists p. rewrite E. done.
Qed.

(** What a successful allocation of [size] bytes at [o] promises. *)
Definition alloc_post s s' (size o : Z) : Prop :=
  o <> 0 /\ ~ allocated s o /\ (forall x, allocated s' x <-> x = o \/ allocated s x) /\
  exists osz, size <= osz /\ osz ∈ cache_sizes /\ o mod osz = 0 /\
    page_of o + 32 <= o /\ o + osz <= page_of o + 4096 /\
    forall x p, allocated s x -> slab_pages s !! page_of x = Some p ->
      x + obj_size p <= o \/ o + osz <= x.

Lemma osize_elem ci : 0 <= ci < 8 -> osize ci ∈ cache_sizes.
Proof. intros. apply aget_elem. simpl. lia. Qed.

Lemma pop_post s s0 ci page rest size :
  slab_ok s -> 0 <= ci < 8 -> size <= osize ci -> partial (slab_caches s).[ci] = page :: rest ->
  (forall x, allocated s x <-> allocated s0 x) ->
  (forall x p, allocated s0 x -> slab_pages s0 !! page_of x = Some p -> slab_pages s !! page_of x = Some p) ->
  let '(s', o) := slab_pop s ci page in slab_ok s' /\ alloc_post s0 s' size o.
Proof.
  intros Hok Hci Hsz Hpart Hsame Hpages. pose proof (slab_pop_spec s ci page rest Hok Hci Hpart) as Hpop.
  destruct (slab_pop s ci page) as [s' o].
  destruct Hpop as (Hok' & Ho & Hnew & Hs & Hpo & [p Ep] & Hall).
  assert (on_partial s ci page) as (p0 & Ep0 & Hcip & _)
    by (apply (sl_partial _ Hok); [done|]; rewrite Hpart; left).
  assert (p0 = p) as -> by congruence. pose proof (sl_pages _ Hok _ _ Ep) as Hp.
  pose proof (slot_bounds _ _ _ Hci Hs) as Hb.
  split; [done|]. split_and!; [done|by rewrite <- Hsame| |].
  - intros x. rewrite Hall. by rewrite Hsame.
  - exists (osize ci). rewrite Hpo. split_and!; try done; try lia.
    + by apply osize_elem.
    + eapply slot_aligned; [done|apply Hp|done].
    + intros x q Hx Hq. specialize (Hpages x q Hx Hq). rewrite <- Hsame in Hx.
      destruct (allocated_page s x Hok Hx) as (q' & Eq' & Hq' & Hsx & _).
      assert (q' = q) as -> by congruence.
      assert (is_slot page (cache_idx p) o) as Hs' by by rewrite Hcip.
      destruct (slots_disjoint s (page_of x) page q p x o Hq' Hp Hsx Hs') as [?|?];
        [intros E; rewrite E in *; congruence|intros ->; by apply Hnew| |].
      * left. by rewrite (p_osz _ _ _ Hq').
      * right. by rewrite <- Hcip.
Qed.

Lemma slab_alloc_ok s size :
  slab_ok s -> 1 <= size <= SLAB_MAX_OBJ ->
  let '(s', o) := slab_alloc s size in
  slab_ok s' /\ ((o = 0 /\ s' = s) \/ alloc_post s s' size o).
Proof.
  intros Hok Hsz. unfold slab_alloc. rewrite (sl_ready _ Hok), (proj2 (Z.eqb_neq size 0)) by lia.
  rewrite (proj2 (Z.ltb_ge SLAB_MAX_OBJ size)) by lia. cbn [negb orb].
  destruct (cache_index_spec size Hsz) as (ci & -> & Hci & Hfit).
  destruct (partial (slab_caches s).[ci]) as [|page rest] eqn:Hpart.
  - pose proof (slab_create_spec s ci Hok Hci Hpart) as Hcr.
    destruct (slab_page_create s ci) as [s1 page] eqn:Ecr.
    destruct Hcr as [[-> ->]|(Hne & Hnone & Hok2 & Hsame)]; [cbn; auto|].
    rewrite (proj2 (Z.eqb_neq page 0)) by done.
    set (s2 := set_cache s1 ci _) in *.
    pose proof (pop_post s2 s ci page [] size Hok2 Hci Hfit) as Hpp.
    destruct (slab_pop s2 ci page) as [s' o].
    destruct Hpp as [? ?]; [|done| |by auto].
    + cbn [s2 set_cache slab_caches]. unfold slab_page_create in Ecr.
      destruct (fa_alloc (slab_frames s)) as [fa a]. pose proof (sl_len _ Hok).
      case_if_in Ecr; simplify_eq; cbn [set_page slab_caches]; by rewrite aget_aset_eq by lia.
    + intros x p Hx Hq. unfold s2, slab_page_create in *.
      destruct (fa_alloc (slab_frames s)) as [fa a].
      case_if_in Ecr; simplify_eq; cbn. rewrite lookup_insert_ne; [done|]. intros E. congruence.
  - pose proof (pop_post s s ci page rest size Hok Hci Hfit Hpart) as Hpp.
    destruct (slab_pop s ci page) as [s' o]. destruct Hpp as [? ?]; [done|done|by auto].
Qed.

(** C25: [slab_alloc] of a size up to 2048 either finds no frame and changes
    nothing, or returns a fresh object: of a size class that fits,
    aligned to it, inside one slab page past its header, overlapping no object
    in use; the invariant is kept and exactly that object becomes in use. *)
Theorem slab_alloc_spec s size :
  slab_ok s -> 1 <= size <= SLAB_MAX_OBJ ->
  let '(s', o) := slab_alloc s size in
  slab_ok s' /\ ((o = 0 /\ s' = s) \/ alloc_post s s' size o).
Proof. apply slab_alloc_ok. Qed.

Lemma unlink_page_spec page l :
  NoDup l -> NoDup (unlink_page page l) /\ forall a, a ∈ unlink_page page l <-> a <> page /\ a ∈ l.
Proof.
  induction 1 as [|x l Hx Hnd [IHn IHe]]; simpl.
  - split; [constructor|]. set_solver.
  - case_if.
    + subst. split; [done|]. intros a. rewrite elem_of_cons. split; [|tauto].
      intros Ha. split; [congruence|by right].
    + split.
      * constructor; [|done]. rewrite IHe. tauto.
      * intros a. rewrite !elem_of_cons, IHe. split; [intros [->|]; tauto|tauto].
Qed.

(** [slab_free] of an object in use puts exactly it back: the invariant
    holds, every other object stays in use, and [slab_owns] routed the pointer
    here whatever foreign pages contain. *)
Theorem slab_free_spec s o word :
  slab_ok s -> allocated s o ->
  slab_ok (slab_free s o) /\ slab_owns s word o = true /\
  (forall x, allocated (slab_free s o) x <-> x <> o /\ allocated s x).
Proof.
  intros Hok Ho. destruct (allocated_page s o Hok Ho) as (p & Ep & Hp & Hs & Hn).
  destruct (slot_page _ _ _ _ Hp Hs) as [_ Ho0]. set (page := page_of o) in *.
  pose proof (free_lt_cap _ _ _ _ Hp Hs Hn) as Hlt.
  destruct (class_geometry _ (p_ci _ _ _ Hp)) as (_ & _ & Hcap & _).
  pose proof (p_count _ _ _ Hp) as Hcnt.
  unfold slab_owns, slab_free. rewrite (proj2 (Z.eqb_neq o 0)) by done. fold page. rewrite Ep.
  rewrite u16_small by lia. cbv zeta.
  set (p' := SlabPage (obj_size p) (capacity p) (free_count p + 1) (cache_idx p) (o :: free_list p)).
  assert (page_ok s page p') as Hp'.
  { destruct Hp. constructor; cbn; try done; [by constructor|by constructor|lia]. }
  destruct (sl_nodup _ Hok _ (p_ci _ _ _ Hp)) as [Hnp Hnf].
  destruct (unlink_page_spec page _ Hnf) as [Hun Hue].
  assert (forall s' : slabs F, slab_pages s' = <[page := p']> (slab_pages s) -> forall x,
    allocated s' x <-> x <> o /\ allocated s x) as Halloc.
  { intros s' Es x. rewrite (allocated_update s s' page p p') by done. case_decide as Hd.
    - destruct Hd as [_ Hd]. cbn [free_list p']. rewrite not_elem_of_cons. split.
      + intros (Hsx & Hxo & Hxn). split; [done|]. by exists page, p.
      + intros (Hxo & Hx). destruct (allocated_page s x Hok Hx) as (q & Eq & _ & Hsx & Hxn).
        rewrite Hd in *. simplify_eq. done.
    - split; [|tauto]. intros Hx. split; [|done]. intros ->. apply Hd. fold page. rewrite Ep. eauto. }
  split_and!; [|done|].
  - case_if.
    + apply (update_page_ok s page p p'); try done; cbn [partial full].
      * constructor; [|done]. rewrite (sl_partial _ Hok) by apply Hp.
        intros (q & ? & _ & ?). simplify_eq. lia.
      * intros a. rewrite elem_of_cons. cbn [free_count p']. case_decide; [|tauto].
        split; [lia|by left].
      * intros a. rewrite Hue. cbn [free_count p']. case_decide; [|tauto]. split; [tauto|lia].
    + rewrite <- (set_cache_same (set_page s page p') (cache_idx p)); [|apply Hp|apply Hok].
      cbn [set_page slab_caches]. apply (update_page_ok s page p p'); try done.
      * intros a. case_decide as Ha; [|done]. subst. cbn [free_count p'].
        rewrite (sl_partial _ Hok) by apply Hp. split; [lia|]. intros _. exists p. split_and!; try done. lia.
      * intros a. case_decide as Ha; [|done]. subst. cbn [free_count p'].
        rewrite (sl_full _ Hok) by apply Hp. split; [|lia]. intros (q & ? & _ & ?). simplify_eq; lia.
  - intros x. apply Halloc. by case_if.
Qed.

Lemma slab_init_ok s :
  fa_inv (slab_frames s) -> Z.of_nat (length (slab_caches s)) = 8 -> slab_pages s = ∅ ->
  slab_ok (slab_init s).
Proof.
  intros Hinv Hlen Hpg.
  pose (I := fun (n : Z) (cs : list slab_cache) => Z.of_nat (length cs) = 8 /\
    forall j, 0 <= j < n -> cs.[j] = SlabCache [] [] cache_sizes.[j]).
  assert (I 8 (slab_caches (slab_init s))) as [Hl Hg].
  { unfold slab_init; cbn [slab_caches].
    change 8 with (0 + Z.of_nat (Z.to_nat SLAB_NUM_CACHES)) at 1. apply (for_loop_ind I); unfold I.
    - split; [done|]. intros; lia.
    - intros n cs Hn [Hl Hcs]. split; [by rewrite aset_length|]. unfold SLAB_NUM_CACHES in Hn.
      intros j Hj. destruct (decide (n = j)) as [->|]; [by rewrite aget_aset_eq by lia|].
      rewrite aget_aset_ne by lia. apply Hcs. lia. }
  assert (forall ci a, ~ on_partial (slab_init s) ci a /\ ~ on_full (slab_init s) ci a) as Hno.
  { intros ci a. unfold on_partial, on_full. cbn [slab_init slab_pages]. rewrite Hpg.
    split; intros (q & Eq & _); by rewrite lookup_empty in Eq. }
  constructor; try done.
  - intros a p Ea. cbn [slab_init slab_pages] in Ea. by rewrite Hpg, lookup_empty in Ea.
  - intros ci Hci. rewrite Hg by done. split; constructor.
  - intros ci a Hci. rewrite Hg by done. cbn. split; [set_solver|]. intros Hq. by apply Hno in Hq.
  - intros ci a Hci. rewrite Hg by done. cbn. split; [set_solver|]. intros Hq. by apply Hno in Hq.
Qed.

End props.

(** * Concrete runs *)

Definition demo_slab : slabs frame_pool :=
  slab_init (Slabs (repeat (SlabCache [] [] 0) 8) false ∅ (FramePool 256 ∅)).

Lemma demo_slab_ok : slab_ok demo_slab.
Proof. apply slab_init_ok; [intros a Ha; set_solver|reflexivity|reflexivity]. Qed.

Lemma slab_alloc_spec_witness :
  (slab_alloc demo_slab 20).2 = 1052640 /\
  alloc_post demo_slab (slab_alloc demo_slab 20).1 20 1052640.
Proof.
  assert ((slab_alloc demo_slab 20).2 = 1052640) as E by (vm_compute; reflexivity).
  split; [exact E|].
  pose proof (slab_alloc_spec demo_slab 20 demo_slab_ok ltac:(unfold SLAB_MAX_OBJ; lia)) as Hs.
  destruct (slab_alloc demo_slab 20) as [s' o]. simpl in E. subst o.
  destruct Hs as (_ & [[? _]|Hp]); [discriminate|exact Hp].
Defined.

Lemma slab_free_spec_witness :
  exists s : slabs frame_pool, allocated s 1052640 /\ ~ allocated (slab_free s 1052640) 1052640.
Proof.
  pose proof (slab_alloc_ok demo_slab 20 demo_slab_ok ltac:(unfold SLAB_MAX_OBJ; lia)) as Hs.
  assert ((slab_alloc demo_slab 20).2 = 1052640) as E by (vm_compute; reflexivity).
  destruct (slab_alloc demo_slab 20) as [s' o]. simpl in E. subst o.
  destruct Hs as (Hok & [[? _]|(_ & _ & Hall & _)]); [discriminate|].
  assert (allocated s' 1052640) as Ha by (apply Hall; by left).
  exists s'. split; [exact Ha|].
  destruct (slab_free_spec s' 1052640 (fun _ => 0) Hok Ha) as (_ & _ & Hf).
  rewrite Hf. tauto.
Defined.
