(* ===== verification/Heap.v ===== *)
(** Kernel heap: [kernel/mem/heap.c].

    Block headers live in memory and are linked by address, so the model is a
    finite map from addresses to headers with the code's pointer loops on it.
    The theorems relate the linked headers to the list of blocks that tiles a
    region: coalescing is merging of neighbours, an allocation carves the first
    block that fits, and freeing undoes it; a client that makes any sequence of
    requests on the initial region gets disjoint blocks.  Two theorems show where the code
    leaves that discipline: growing the heap merges blocks that are not
    adjacent in memory, and rounding a size up can wrap to zero. *)
From S2P Require Import Prelude.
From Stdlib Require Import ZArith Lia.
From stdpp Require Import base numbers list gmap.

Open Scope Z_scope.
Open Scope lyth_scope.

Definition HEAP_INITIAL_SIZE : Z := 4 * 1024 * 1024.
Definition HEAP_GROW_SIZE : Z := 2 * 1024 * 1024.
Definition HEAP_MAX_REGIONS : Z := 32.
Definition HEAP_ALIGNMENT : Z := 16.
Definition HEAP_BLOCK_MAGIC : Z := 1263027536.
Definition sizeof_heap_block : Z := 24.
Definition SLAB_MAX_OBJ : Z := 2048.

(** The layers the heap calls: [physmem_alloc_region] and the slab allocator. *)
Class HeapEnv (E : Type) := {
  he_alloc_region : E -> Z -> Z -> E * Z;
  he_slab_init : E -> E;
  he_slab_alloc : E -> Z -> E * Z;
  he_slab_owns : E -> Z -> bool;
  he_slab_free : E -> Z -> E;
}.

Record heap_block := HeapBlock { magic : Z; size : Z; free : bool; next : Z }.

Record heap_region := HeapRegion { phys_addr : Z; r_size : Z }.
#[export] Instance heap_region_inhabited : Inhabited heap_region := populate (HeapRegion 0 0).

Notation hmem := (gmap Z heap_block).

Definition align_up (sz : Z) : Z :=
  let mask := HEAP_ALIGNMENT - 1 in
  Z.land (u32 (sz + mask)) (not32 mask).

Definition split_block (m : hmem) (block sz : Z) : hmem :=
  let min_split := u32 (sizeof_heap_block + HEAP_ALIGNMENT) in
  if block =? 0 then m
  else match m !! block with
       | None => m
       | Some b =>
           if size b <=? u32 (sz + min_split) then m
           else
             let remaining := u32 (size b - sz - sizeof_heap_block) in
             let next_block := block + sizeof_heap_block + sz in
             let m := <[next_block := HeapBlock HEAP_BLOCK_MAGIC remaining true (next b)]> m in
             <[block := HeapBlock (magic b) sz (free b) next_block]> m
       end.

(** A walk visits each header at most once, or merges one away. *)
Definition heap_fuel (m : hmem) : nat := S (base.size m).

Fixpoint coalesce_loop (fuel : nat) (m : hmem) (block : Z) : hmem :=
  match fuel with
  | O => m
  | S f =>
      if block =? 0 then m
      else match m !! block with
           | None => m
           | Some b =>
               if next b =? 0 then m
               else match m !! next b with
                    | None => m
                    | Some n =>
                        if free b && free n
                        then coalesce_loop f
                               (<[block := HeapBlock (magic b) (u32 (size b + (sizeof_heap_block + size n)))
                                    (free b) (next n)]> m) block
                        else coalesce_loop f m (next b)
                    end
           end
  end.

Fixpoint find_last (fuel : nat) (m : hmem) (block : Z) : Z :=
  match fuel with
  | O => block
  | S f => match m !! block with
           | None => block
           | Some b => if next b =? 0 then block else find_last f m (next b)
           end
  end.

(** The first-fit search. *)
Fixpoint find_fit (fuel : nat) (m : hmem) (block sz : Z) : option Z :=
  match fuel with
  | O => None
  | S f =>
      if block =? 0 then None
      else match m !! block with
           | None => None
           | Some b => if free b && (sz <=? size b) then Some block else find_fit f m (next b) sz
           end
  end.

Section heap.
Context {E : Type} `{HeapEnv E}.

Record heap := Heap {
  blocks : hmem;
  heap_head : Z;
  regions : list heap_region;
  region_count : Z;
  heap_total_size : Z;
  henv : E;
}.

Definition set_blocks (s : heap) (m : hmem) : heap :=
  Heap m (heap_head s) (regions s) (region_count s) (heap_total_size s) (henv s).
Definition set_env (s : heap) (e : E) : heap :=
  Heap (blocks s) (heap_head s) (regions s) (region_count s) (heap_total_size s) e.

Definition coalesce_blocks (s : heap) : heap :=
  set_blocks s (coalesce_loop (heap_fuel (blocks s)) (blocks s) (heap_head s)).

Definition heap_add_region (s : heap) (phys sz : Z) : heap * bool :=
  if (HEAP_MAX_REGIONS <=? region_count s) || (sz <=? sizeof_heap_block) then (s, false)
  else
    let rs := (regions s).[region_count s <- HeapRegion phys sz] in
    let m := <[phys := HeapBlock HEAP_BLOCK_MAGIC (u32 (sz - sizeof_heap_block)) true 0]> (blocks s) in
    let total := u32 (heap_total_size s + sz) in
    let s := Heap m (heap_head s) rs (region_count s + 1) total (henv s) in
    if heap_head s =? 0
    then (Heap (blocks s) phys (regions s) (region_count s) (heap_total_size s) (henv s), true)
    else
      let last := find_last (heap_fuel (blocks s)) (blocks s) (heap_head s) in
      let m := alter (fun b => HeapBlock (magic b) (size b) (free b) phys) last (blocks s) in
      (coalesce_blocks (set_blocks s m), true).

Definition heap_grow (s : heap) : heap * bool :=
  let '(e, phys) := he_alloc_region (henv s) HEAP_GROW_SIZE 4096 in
  let s := set_env s e in
  if phys =? 0 then (s, false) else heap_add_region s phys HEAP_GROW_SIZE.

Definition heap_init (s : heap) : heap :=
  let s := Heap (blocks s) 0 (regions s) 0 0 (henv s) in
  let '(e, phys) := he_alloc_region (henv s) HEAP_INITIAL_SIZE 4096 in
  let s := set_env s e in
  if phys =? 0 then s
  else
    let s := (heap_add_region s phys HEAP_INITIAL_SIZE).1 in
    set_env s (he_slab_init (henv s)).

(** Lines 158-167, once before and once after growing. *)
Definition take_fit (s : heap) (sz : Z) : heap * Z :=
  match find_fit (heap_fuel (blocks s)) (blocks s) (heap_head s) sz with
  | None => (s, 0)
  | Some block =>
      let m := split_block (blocks s) block sz in
      let m := alter (fun b => HeapBlock (magic b) (size b) false (next b)) block m in
      (set_blocks s m, block + sizeof_heap_block)
  end.

Definition kmalloc (s : heap) (sz : Z) : heap * Z :=
  if (sz =? 0) || (heap_head s =? 0) then (s, 0)
  else
    let '(s, result) :=
      if sz <=? SLAB_MAX_OBJ
      then let '(e, r) := he_slab_alloc (henv s) sz in (set_env s e, r)
      else (s, 0) in
    if negb (result =? 0) then (s, result)
    else
      let sz := align_up sz in
      let '(s, result) := take_fit s sz in
      if negb (result =? 0) then (s, result)
      else
        let '(s, grown) := heap_grow s in
        if grown then take_fit s sz else (s, 0).

Definition kfree (s : heap) (ptr : Z) : heap :=
  if ptr =? 0 then s
  else if he_slab_owns (henv s) ptr then set_env s (he_slab_free (henv s) ptr)
  else
    let block := ptr - sizeof_heap_block in
    match blocks s !! block with
    | None => s
    | Some b =>
        if negb (magic b =? HEAP_BLOCK_MAGIC) then s
        else coalesce_blocks
               (set_blocks s (<[block := HeapBlock (magic b) (size b) true (next b)]> (blocks s)))
    end.

Record heap_stats := HeapStats {
  total_size : Z; used_size : Z; free_size : Z; block_count : Z; free_block_count : Z }.

Fixpoint stats_loop (fuel : nat) (m : hmem) (block : Z) (st : heap_stats) : heap_stats :=
  match fuel with
  | O => st
  | S f =>
      if block =? 0 then st
      else match m !! block with
           | None => st
           | Some b =>
               let st :=
                 if free b
                 then HeapStats (total_size st) (used_size st) (u32 (free_size st + size b))
                        (u32 (block_count st + 1)) (u32 (free_block_count st + 1))
                 else HeapStats (total_size st) (u32 (used_size st + size b)) (free_size st)
                        (u32 (block_count st + 1)) (free_block_count st) in
               stats_loop f m (next b) st
           end
  end.

Definition heap_get_stats (s : heap) : heap_stats :=
  stats_loop (heap_fuel (blocks s)) (blocks s) (heap_head s)
    (HeapStats (heap_total_size s) 0 0 0 0).

End heap.
Arguments heap : clear implicits.

(** * Blocks as a list *)

Record blk := Blk { b_addr : Z; b_size : Z; b_free : bool }.

Definition b_end (b : blk) : Z := b_addr b + 24 + b_size b.

(** The headers linked from [p] are the blocks of [l]. *)
Fixpoint chain (m : hmem) (p : Z) (l : list blk) : Prop :=
  match l with
  | [] => p = 0
  | b :: l' =>
      p = b_addr b /\ p <> 0 /\
      exists nx, m !! p = Some (HeapBlock HEAP_BLOCK_MAGIC (b_size b) (b_free b) nx) /\ chain m nx l'
  end.

(** The blocks of [l] cover [lo, hi) without gap or overlap. *)
Fixpoint tile (lo hi : Z) (l : list blk) : Prop :=
  match l with
  | [] => lo = hi
  | b :: l' => b_addr b = lo /\ 0 <= b_size b /\ tile (b_end b) hi l'
  end.

(** No two neighbours are both free. *)
Fixpoint coalesced (l : list blk) : Prop :=
  match l with
  | b :: (n :: _) as l' => (b_free b && b_free n)%bool = false /\ coalesced l'
  | _ => True
  end.

Definition join (b n : blk) : blk := Blk (b_addr b) (b_size b + (24 + b_size n)) (b_free b).

Fixpoint merge_from (b : blk) (l : list blk) : list blk :=
  match l with
  | [] => [b]
  | n :: l' => if b_free b && b_free n then merge_from (join b n) l' else b :: merge_from n l'
  end.

Definition merge (l : list blk) : list blk :=
  match l with [] => [] | b :: l' => merge_from b l' end.

Lemma tile_bounds lo hi l :
  tile lo hi l -> lo <= hi /\ forall b, b ∈ l -> lo <= b_addr b /\ b_end b <= hi /\ 0 <= b_size b.
Proof.
  revert lo. induction l as [|b l IH]; intros lo; simpl.
  - intros ->. split; [lia|]. intros b Hb. set_solver.
  - intros (Ha & Hs & Ht). destruct (IH _ Ht) as [Hle Hall]. unfold b_end in *.
    split; [lia|]. intros c [->|Hc]%elem_of_cons; [lia|]. specialize (Hall c Hc). lia.
Qed.

Lemma tile_head lo hi b l n : tile lo hi (b :: l) -> n ∈ l -> b_addr b + 24 <= b_addr n.
Proof.
  intros (Ha & Hs & Ht) Hn. destruct (tile_bounds _ _ _ Ht) as [_ Hall].
  specialize (Hall n Hn). unfold b_end in *. lia.
Qed.

Lemma tile_app lo hi l1 l2 :
  tile lo hi (l1 ++ l2) <-> exists mid, tile lo mid l1 /\ tile mid hi l2.
Proof.
  revert lo. induction l1 as [|b l1 IH]; intros lo; simpl.
  - split; [intros; by exists lo|]. by intros (? & <- & ?).
  - rewrite IH. split.
    + intros (? & ? & mid & ? & ?). exists mid. done.
    + intros (mid & (? & ? & ?) & ?). split_and!; try done. by exists mid.
Qed.

Lemma chain_frame m p l a x :
  chain m p l -> (forall b, b ∈ l -> b_addr b <> a) -> chain (<[a := x]> m) p l.
Proof.
  revert p. induction l as [|b l IH]; intros p; simpl; [done|].
  intros (Ep & Hp & nx & Hm & Hc) Hfr. split_and!; try done. exists nx. split.
  - rewrite lookup_insert_ne; [done|]. intros ->. apply (Hfr b); [left|done].
  - apply IH; [done|]. intros c Hin. apply Hfr. by right.
Qed.

Lemma chain_ext m m' p l :
  chain m p l -> (forall b, b ∈ l -> m' !! b_addr b = m !! b_addr b) -> chain m' p l.
Proof.
  revert p. induction l as [|b l IH]; intros p; simpl; [done|].
  intros (-> & Hp & nx & Hm & Hc) Hsame. split_and!; try done. exists nx. split.
  - rewrite Hsame by left. done.
  - apply IH; [done|]. intros c Hin. apply Hsame. by right.
Qed.

Lemma tile_NoDup lo hi l : tile lo hi l -> NoDup (b_addr <$> l).
Proof.
  revert lo. induction l as [|b l IH]; intros lo Ht; [constructor|].
  rewrite fmap_cons. constructor.
  - rewrite list_elem_of_fmap. intros (n & E & Hn). pose proof (tile_head _ _ _ _ _ Ht Hn). lia.
  - destruct Ht as (_ & _ & Ht). by eapply IH.
Qed.

(** Bytes taken by the blocks of a list, headers included. *)
Definition total_bytes (l : list blk) : Z := foldr (fun b a => 24 + b_size b + a) 0 l.

Lemma tile_total lo hi l : tile lo hi l -> total_bytes l = hi - lo.
Proof.
  revert lo. induction l as [|b l IH]; intros lo; simpl; [lia|]. intros (Ha & _ & Ht).
  rewrite (IH _ Ht). unfold b_end. lia.
Qed.

Lemma tile_sizes lo hi l : tile lo hi l -> Forall (fun b => 0 <= b_size b) l.
Proof.
  revert lo. induction l as [|b l IH]; intros lo; simpl; [done|]. intros (_ & ? & Ht).
  constructor; [done|]. by eapply IH.
Qed.

Lemma total_nonneg l : Forall (fun b => 0 <= b_size b) l -> 0 <= total_bytes l.
Proof. induction 1; simpl; lia. Qed.

Lemma total_app l1 l2 : total_bytes (l1 ++ l2) = total_bytes l1 + total_bytes l2.
Proof.
  induction l1 as [|b l1 IH]; [done|]. cbn [app total_bytes foldr].
  fold (total_bytes (l1 ++ l2)). fold (total_bytes l1). lia.
Qed.

(** Distinct linked blocks are distinct keys of the map. *)
Lemma chain_size m p l : chain m p l -> NoDup (b_addr <$> l) -> (length l <= base.size m)%nat.
Proof.
  intros Hc Hnd.
  assert (list_to_set (b_addr <$> l) ⊆@{gset Z} dom m) as Hsub.
  { clear Hnd. revert p Hc. induction l as [|b l IH]; intros p Hc; [set_solver|].
    destruct Hc as (-> & _ & nx & Hm & Hc). specialize (IH _ Hc). rewrite fmap_cons. cbn [list_to_set].
    apply union_subseteq. split; [|done]. apply singleton_subseteq_l. by eapply elem_of_dom_2. }
  apply subseteq_size in Hsub. rewrite size_list_to_set, length_fmap, size_dom in Hsub by done. done.
Qed.

(** ** Merging *)

Lemma merge_from_tile lo hi b l : tile lo hi (b :: l) -> tile lo hi (merge_from b l).
Proof.
  revert lo b. induction l as [|n l IH]; intros lo b Ht; simpl; [done|].
  destruct Ht as (Ha & Hs & Hn & Hsn & Ht). case_if.
  - apply IH. split_and!; [done|simpl; lia|].
    unfold b_end, join in *; simpl. rewrite Hn in Ht. by replace (b_addr b + 24 + (b_size b + (24 + b_size n))) with
      (b_addr b + 24 + b_size b + 24 + b_size n) by lia.
  - split_and!; [done|done|]. apply IH. done.
Qed.

Lemma merge_from_head b l :
  exists b' l', merge_from b l = b' :: l' /\ b_free b' = b_free b /\ b_addr b' = b_addr b.
Proof.
  revert b. induction l as [|n l IH]; intros b; simpl; [by eexists _, _|].
  case_if; [|by eexists _, _]. destruct (IH (join b n)) as (b' & l' & -> & E1 & E2). by eexists _, _.
Qed.

Lemma merge_from_coalesced b l : coalesced (merge_from b l).
Proof.
  revert b. induction l as [|n l IH]; intros b; simpl; [done|]. case_if; [apply IH|].
  destruct (merge_from_head n l) as (n' & l' & E & Ef & _). specialize (IH n). rewrite E in *.
  simpl. split; [by rewrite Ef|done].
Qed.

(** Blocks in use survive a merge unchanged, and no others appear. *)
Lemma merge_from_used b l x :
  b_free x = false -> x ∈ merge_from b l <-> x ∈ b :: l.
Proof.
  intros Hx. revert b. induction l as [|n l IH]; intros b; simpl; [done|]. case_if.
  - rewrite IH, !elem_of_cons. split.
    + intros [->|?]; [|tauto]. simpl in Hx. congruence.
    + intros [->|[->|?]]; [congruence|congruence|tauto].
  - rewrite elem_of_cons, IH. set_solver.
Qed.

Lemma merge_from_id b l : coalesced (b :: l) -> merge_from b l = b :: l.
Proof.
  revert b. induction l as [|n l IH]; intros b Hc; [done|]. simpl.
  destruct Hc as [Hf Hc]. rewrite Hf. f_equal. by apply IH.
Qed.

(** Merging a list whose part up to [b] is coalesced only concerns [b] on. *)
Lemma merge_app l1 b l2 :
  coalesced (l1 ++ [b]) -> merge (l1 ++ b :: l2) = l1 ++ merge_from b l2.
Proof.
  destruct l1 as [|c l1]; [done|]. simpl merge. revert c.
  induction l1 as [|d l1 IH]; intros c Hc; simpl in *.
  - destruct Hc as [-> _]. done.
  - destruct Hc as [-> Hc]. f_equal. by apply IH.
Qed.

(** [coalesce_blocks] on linked headers is [merge] on the list they spell. *)
Lemma coalesce_refines f m p b l :
  chain m p (b :: l) -> NoDup (b_addr <$> b :: l) -> Forall (fun c => 0 <= b_size c) (b :: l) ->
  total_bytes (b :: l) < 4294967296 -> (length l < f)%nat ->
  chain (coalesce_loop f m p) p (merge_from b l) /\
  (forall a, a ∉ b_addr <$> (b :: l) -> coalesce_loop f m p !! a = m !! a).
Proof.
  revert b m p f. induction l as [|n l IH]; intros b m p f Hc Hnd Hs Htot Hf;
    (destruct f as [|f]; [simpl in Hf; lia|]).
  - destruct Hc as (-> & Hp & nx & Hm & Hc). simpl in Hc. subst nx. cbn [coalesce_loop merge_from].
    rewrite (proj2 (Z.eqb_neq _ 0)) by done. rewrite Hm. simpl. split; [|done].
    split_and!; [done|done|]. by exists 0.
  - destruct Hc as (-> & Hp & nx & Hm & Hcn). pose proof Hcn as (-> & Hn0 & nx' & Hmn & Hcl).
    rewrite fmap_cons in Hnd. pose proof Hnd as [Hnb Hndn]%NoDup_cons.
    apply Forall_cons in Hs as [Hsb Hsn]. pose proof Hsn as [Hs1 Hs2]%Forall_cons.
    pose proof (total_nonneg _ Hs2) as Htl. cbn [total_bytes foldr] in Htot. fold (total_bytes l) in Htot.
    cbn [coalesce_loop merge_from]. rewrite (proj2 (Z.eqb_neq _ 0)) by done. rewrite Hm. cbn [next free size].
    rewrite (proj2 (Z.eqb_neq _ 0)) by done. rewrite Hmn. cbn [next free size]. case_if.
    + unfold sizeof_heap_block. rewrite u32_small by lia. set (m' := <[b_addr b := _]> m).
      rewrite fmap_cons, not_elem_of_cons in Hnb. rewrite fmap_cons, NoDup_cons in Hndn.
      assert (chain m' (b_addr b) (join b n :: l)) as Hc'.
      { split_and!; [done|done|]. exists nx'. split; [unfold m'; by rewrite lookup_insert_eq|].
        apply chain_frame; [done|]. intros c Hin E. destruct Hnb as [_ Hnb]. apply Hnb.
        rewrite list_elem_of_fmap. by exists c. }
      destruct (IH (join b n) m' (b_addr b) f Hc') as [IHc IHo].
      { rewrite fmap_cons. constructor; [apply Hnb|apply Hndn]. }
      { constructor; [simpl; lia|done]. }
      { cbn [total_bytes foldr join b_size]. fold (total_bytes l). lia. }
      { simpl in Hf. lia. }
      split; [exact IHc|]. intros a Hna. rewrite !fmap_cons, !not_elem_of_cons in Hna.
      rewrite IHo; [|rewrite fmap_cons, not_elem_of_cons; tauto]. unfold m'.
      rewrite lookup_insert_ne; [done|]. intros E. destruct Hna as [Hna _]. congruence.
    + destruct (IH n m (b_addr n) f Hcn Hndn Hsn) as [IHc IHo];
        [cbn [total_bytes foldr]; fold (total_bytes l); lia|simpl in Hf; lia|].
      split.
      * split_and!; [done|done|]. exists (b_addr n). split; [|exact IHc]. by rewrite IHo.
      * intros a Hna. apply IHo. rewrite fmap_cons, not_elem_of_cons in Hna. apply Hna.
Qed.

(** ** Allocation *)

Definition fits (sz : Z) (b : blk) : bool := b_free b && (sz <=? b_size b).

Lemma find_fit_spec f m p l sz :
  chain m p l -> (length l < f)%nat ->
  match find_fit f m p sz with
  | Some a => exists l1 b l2, l = l1 ++ b :: l2 /\ a = b_addr b /\ fits sz b = true /\
      (forall c, c ∈ l1 -> fits sz c = false)
  | None => forall c, c ∈ l -> fits sz c = false
  end.
Proof.
  revert p f. induction l as [|b l IH]; intros p f Hc Hf; (destruct f as [|f]; [simpl in Hf; lia|]).
  - simpl in Hc. subst p. simpl. intros c Hin. set_solver.
  - destruct Hc as (-> & Hp & nx & Hm & Hc). cbn [find_fit].
    rewrite (proj2 (Z.eqb_neq _ 0)) by done. rewrite Hm. cbn [free size next].
    fold (fits sz b). destruct (fits sz b) eqn:Hb.
    + exists [], b, l. split_and!; try done. intros c Hin. set_solver.
    + specialize (IH nx f Hc ltac:(simpl in Hf; lia)). destruct (find_fit f m nx sz) as [a|].
      * destruct IH as (l1 & b' & l2 & -> & -> & Hb' & Hl1). exists (b :: l1), b', l2.
        split_and!; try done. intros c [->|Hin]%elem_of_cons; [done|by apply Hl1].
      * intros c [->|Hin]%elem_of_cons; [done|by apply IH].
Qed.

Lemma chain_split m p l1 b l2 :
  chain m p (l1 ++ b :: l2) ->
  chain m (b_addr b) (b :: l2) /\
  forall m' l2', chain m' (b_addr b) l2' -> (forall c, c ∈ l1 -> m' !! b_addr c = m !! b_addr c) ->
    chain m' p (l1 ++ l2').
Proof.
  revert p. induction l1 as [|c l1 IH]; intros p Hc; simpl in Hc.
  - pose proof Hc as (-> & _). split; [exact Hc|]. intros m' l2' Hc' _. exact Hc'.
  - destruct Hc as (-> & Hp & nx & Hm & Hc). destruct (IH nx Hc) as [Hb Hrest]. split; [done|].
    intros m' l2' Hc' Hsame. split_and!; [done|done|]. exists nx. split.
    + rewrite Hsame by left. done.
    + apply Hrest; [done|]. intros d Hd. apply Hsame. by right.
Qed.

(** The block an allocation of [sz] bytes leaves, and the remainder. *)
Definition carve (b : blk) (sz : Z) : list blk :=
  if b_size b <=? sz + 40 then [Blk (b_addr b) (b_size b) false]
  else [Blk (b_addr b) sz false; Blk (b_addr b + 24 + sz) (b_size b - sz - 24) true].

(** The headers of a heap that owns one region [lo, hi). *)
Record list_ok (m : hmem) (p lo hi : Z) (l : list blk) : Prop := ListOk {
  l_chain : chain m p l;
  l_tile : tile lo hi l;
  l_lo : 0 < lo;
  l_small : hi - lo <= 4294967232;
  l_coal : coalesced l;
}.

Lemma coalesced_app_used l1 b l2 :
  b_free b = false -> coalesced (l1 ++ b :: l2) <-> coalesced l1 /\ coalesced l2.
Proof.
  intros Hb. induction l1 as [|c l1 IH]; simpl.
  - destruct l2; simpl; rewrite ?Hb; simpl; tauto.
  - destruct l1 as [|d l1]; simpl in *.
    + rewrite Hb, andb_false_r. destruct l2; simpl in *; rewrite ?Hb; simpl; tauto.
    + rewrite IH. tauto.
Qed.

Lemma coalesced_app l1 l2 : coalesced (l1 ++ l2) -> coalesced l1 /\ coalesced l2.
Proof.
  induction l1 as [|c l1 IH]; simpl; [done|]. destruct l1 as [|d l1]; simpl in *.
  - destruct l2; simpl; tauto.
  - intros [? Hc]. destruct (IH Hc). tauto.
Qed.

Lemma coalesced_free_next b l n :
  coalesced (b :: l) -> b_free b = true -> head l = Some n -> b_free n = false.
Proof. destruct l; simpl; [done|]. intros [Hc _] Hb [= <-]. by rewrite Hb in Hc. Qed.

Lemma coalesced_carve l1 b l2 sz :
  coalesced (l1 ++ b :: l2) -> b_free b = true -> coalesced (l1 ++ carve b sz ++ l2).
Proof.
  intros Hc Hb. destruct (coalesced_app _ _ Hc) as [H1c H2c].
  assert (coalesced l2) by (destruct l2; [done|apply H2c]).
  unfold carve. case_if; simpl; apply coalesced_app_used; try done.
  split; [done|]. destruct l2 as [|n l2]; [done|]. simpl. split; [|done].
  apply (coalesced_free_next _ _ n H2c Hb). done.
Qed.

Lemma tile_carve lo hi l1 b l2 sz :
  tile lo hi (l1 ++ b :: l2) -> 0 <= sz -> tile lo hi (l1 ++ carve b sz ++ l2).
Proof.
  rewrite !tile_app. intros (mid & H1t & Ha & Hs & H2t) Hsz. exists mid. split; [done|].
  unfold carve. case_if; simpl; unfold b_end in *; simpl.
  - done.
  - split_and!; try done; try lia.
    by replace (b_addr b + 24 + sz + 24 + (b_size b - sz - 24)) with (b_addr b + 24 + b_size b) by lia.
Qed.

(** A free block taken for [sz] bytes: the header updates of [take_fit]. *)
Lemma take_block_ok m p lo hi l1 b l2 sz :
  list_ok m p lo hi (l1 ++ b :: l2) -> b_free b = true -> 0 <= sz <= b_size b ->
  list_ok (alter (fun x => HeapBlock (magic x) (size x) false (next x)) (b_addr b)
             (split_block m (b_addr b) sz)) p lo hi (l1 ++ carve b sz ++ l2).
Proof.
  intros [Hc Ht Hlo Hsm Hco] Hb Hsz.
  destruct (chain_split _ _ _ _ _ Hc) as [Hcb Hrest]. destruct Hcb as (_ & Hp & nx & Hm & Hcl).
  destruct (proj1 (tile_app _ _ _ _) Ht) as (mid & Ht1 & Ht2).
  destruct (tile_bounds _ _ _ Ht1) as [_ Hb1].
  destruct (tile_bounds _ _ _ Ht2) as [_ Hb2]. pose proof Ht2 as (Hab & Hsb & Htl).
  destruct (tile_bounds _ _ _ Htl) as [Hle Hbl]. destruct (tile_bounds _ _ _ Ht) as [_ Hball].
  destruct (Hball b ltac:(set_solver)) as (? & ? & ?). unfold b_end in *.
  constructor; try done; [|by apply tile_carve; [|lia]|by apply coalesced_carve].
  unfold split_block. rewrite (proj2 (Z.eqb_neq _ 0)) by done. rewrite Hm. cbn [size magic free next].
  unfold sizeof_heap_block, HEAP_ALIGNMENT, carve. change (u32 (24 + 16)) with 40.
  rewrite (u32_small (sz + 40)) by lia.
  assert (forall c, c ∈ l1 -> b_addr c < b_addr b) as Hl1 by (intros c Hin; specialize (Hb1 c Hin); lia).
  assert (forall c, c ∈ l2 -> b_addr b + 24 + b_size b <= b_addr c) as Hl2
    by (intros c Hin; specialize (Hbl c Hin); lia).
  case_if.
  - apply Hrest; [|intros c Hin; specialize (Hl1 c Hin); by rewrite lookup_alter_ne by lia].
    split_and!; [done|done|]. exists nx. rewrite lookup_alter_eq, Hm. split; [done|].
    apply (chain_ext m); [done|]. intros c Hin. specialize (Hl2 c Hin). by rewrite lookup_alter_ne by lia.
  - rewrite (u32_small (b_size b - sz - 24)) by lia.
    apply Hrest.
    2: { intros c Hin. specialize (Hl1 c Hin).
         rewrite lookup_alter_ne, !lookup_insert_ne by lia. done. }
    split_and!; [done|done|]. exists (b_addr b + 24 + sz).
    rewrite lookup_alter_eq, lookup_insert_eq. split; [done|].
    split_and!; [done|simpl; lia|]. exists nx. cbn [b_addr b_size b_free].
    rewrite lookup_alter_ne, lookup_insert_ne, lookup_insert_eq by lia. split; [done|].
    apply (chain_ext m); [done|]. intros c Hin. specialize (Hl2 c Hin).
    rewrite lookup_alter_ne, !lookup_insert_ne by lia. done.
Qed.

(** ** Freeing *)

Lemma tile_free lo hi l1 a sz f f' l2 :
  tile lo hi (l1 ++ Blk a sz f :: l2) -> tile lo hi (l1 ++ Blk a sz f' :: l2).
Proof. rewrite !tile_app. intros (mid & ? & ?). by exists mid. Qed.

(** Merging all of a tiled, linked list. *)
Lemma coalesce_all_ok m p lo hi l :
  chain m p l -> tile lo hi l -> 0 < lo -> hi - lo <= 4294967232 -> l <> [] ->
  list_ok (coalesce_loop (heap_fuel m) m p) p lo hi (merge l).
Proof.
  intros Hc Ht Hlo Hsm Hne. destruct l as [|b l]; [done|].
  pose proof (tile_NoDup _ _ _ Ht) as Hnd. pose proof (chain_size _ _ _ Hc Hnd) as Hsz. simpl in Hsz.
  destruct (coalesce_refines (heap_fuel m) m p b l Hc Hnd) as [Hc' _];
    [by eapply tile_sizes|rewrite (tile_total _ _ _ Ht); lia|unfold heap_fuel; lia|].
  constructor; try done; [by apply merge_from_tile|apply merge_from_coalesced].
Qed.

Lemma free_block_ok m p lo hi l1 b l2 :
  list_ok m p lo hi (l1 ++ b :: l2) ->
  exists nx, m !! b_addr b = Some (HeapBlock HEAP_BLOCK_MAGIC (b_size b) (b_free b) nx) /\
  let m' := <[b_addr b := HeapBlock HEAP_BLOCK_MAGIC (b_size b) true nx]> m in
  list_ok (coalesce_loop (heap_fuel m') m' p) p lo hi (merge (l1 ++ Blk (b_addr b) (b_size b) true :: l2)).
Proof.
  intros [Hc Ht Hlo Hsm Hco]. destruct (chain_split _ _ _ _ _ Hc) as [Hcb Hrest].
  destruct Hcb as (_ & Hp & nx & Hm & Hcl). exists nx. split; [done|]. cbv zeta.
  destruct (proj1 (tile_app _ _ _ _) Ht) as (mid & Ht1 & Ht2).
  destruct (tile_bounds _ _ _ Ht1) as [_ Hb1]. pose proof Ht2 as (Hab & _ & _).
  apply coalesce_all_ok; try done.
  - apply Hrest.
    + split_and!; [done|done|]. exists nx. cbn [b_addr b_size b_free].
      rewrite lookup_insert_eq. split; [done|]. apply chain_frame; [done|].
      intros c Hin. pose proof (tile_head _ _ _ _ c Ht2 Hin). lia.
    + intros c Hin. destruct (Hb1 c Hin) as (? & ? & ?). unfold b_end in *.
      rewrite lookup_insert_ne by lia. done.
  - destruct b. by eapply tile_free.
  - by destruct l1.
Qed.

(** Freeing what an allocation carved merges back to the block it came from. *)
Lemma merge_carve l1 b l2 sz :
  coalesced (l1 ++ b :: l2) -> b_free b = true -> 0 <= sz ->
  exists b' rest, carve b sz = b' :: rest /\
    merge (l1 ++ Blk (b_addr b') (b_size b') true :: rest ++ l2) = l1 ++ b :: l2.
Proof.
  intros Hc Hb Hsz. destruct (coalesced_app l1 (b :: l2) Hc) as [_ Hc2].
  assert (forall x, b_free x = true -> coalesced (l1 ++ [x])) as Hpre.
  { intros x Hx. clear Hc2. induction l1 as [|c l1 IH]; [done|]. destruct l1 as [|d l1]; simpl in *.
    - destruct Hc as [Hc _]. rewrite Hb in Hc. by rewrite Hx.
    - destruct Hc as [? Hc]. split; [done|]. by apply IH. }
  unfold carve. case_if; eexists _, _; (split; [done|]); cbn [app b_addr b_size];
    rewrite merge_app by (by apply Hpre); f_equal.
  - destruct b as [a z f]; simpl in *. subst f. by apply merge_from_id.
  - simpl. unfold join; simpl. replace (sz + (24 + (b_size b - sz - 24))) with (b_size b) by lia.
    destruct b as [a z f]; simpl in *. subst f. by apply merge_from_id.
Qed.

Lemma align_up_eq n : 0 <= n <= 4294967280 -> align_up n = 16 * ((n + 15) / 16).
Proof.
  intros Hn. unfold align_up, HEAP_ALIGNMENT. rewrite u32_small by lia.
  change (16 - 1) with (2 ^ 4 - 1). rewrite land_not32_pow2 by lia. change (2 ^ 4) with 16. done.
Qed.

(** * Operations *)

Section props.
Context {E : Type} `{HeapEnv E}.
Implicit Types (s : heap E).

Definition heap_ok s (lo hi : Z) (l : list blk) : Prop := list_ok (blocks s) (heap_head s) lo hi l.

Lemma heap_ok_fuel s lo hi l :
  heap_ok s lo hi l -> (length l < heap_fuel (blocks s))%nat.
Proof.
  intros [Hc Ht _ _ _]. pose proof (chain_size _ _ _ Hc (tile_NoDup _ _ _ Ht)). unfold heap_fuel. lia.
Qed.

(** [coalesce_blocks], a loop over linked headers, merges exactly the runs
    of neighbouring free blocks: the headers still tile the region, no two
    neighbours are free, and the blocks in use are the same as before. *)
Theorem coalesce_blocks_correct s lo hi b l :
  chain (blocks s) (heap_head s) (b :: l) -> tile lo hi (b :: l) -> 0 < lo -> hi - lo <= 4294967232 ->
  heap_ok (coalesce_blocks s) lo hi (merge_from b l) /\
  forall x, b_free x = false -> x ∈ merge_from b l <-> x ∈ b :: l.
Proof.
  intros Hc Ht Hlo Hsm. split; [|intros; by apply merge_from_used].
  by apply (coalesce_all_ok (blocks s) (heap_head s) lo hi (b :: l)).
Qed.

Lemma take_fit_spec s lo hi l sz :
  heap_ok s lo hi l -> 0 <= sz ->
  let '(s', r) := take_fit s sz in
  (r = 0 /\ s' = s /\ forall c, c ∈ l -> fits sz c = false) \/
  (exists l1 b l2, l = l1 ++ b :: l2 /\ fits sz b = true /\ (forall c, c ∈ l1 -> fits sz c = false) /\
     r = b_addr b + 24 /\ r <> 0 /\ henv s' = henv s /\ heap_ok s' lo hi (l1 ++ carve b sz ++ l2)).
Proof.
  intros Hok Hsz. unfold take_fit.
  pose proof (find_fit_spec _ _ _ _ sz (l_chain _ _ _ _ _ Hok) (heap_ok_fuel _ _ _ _ Hok)) as Hf.
  destruct (find_fit _ _ _ sz) as [a|]; [|by left]. right.
  destruct Hf as (l1 & b & l2 & -> & -> & Hfit & Hl1). exists l1, b, l2.
  pose proof Hfit as Hfit'. unfold fits in Hfit'. bool_to_prop.
  assert (0 < b_addr b).
  { destruct (tile_bounds _ _ _ (l_tile _ _ _ _ _ Hok)) as [_ Hall].
    destruct (Hall b ltac:(set_solver)) as (? & _). pose proof (l_lo _ _ _ _ _ Hok). lia. }
  split_and!; try done; [unfold sizeof_heap_block; lia|].
  apply take_block_ok; [exact Hok|done|lia].
Qed.

(** A large allocation that finds a block does not touch the other layers. *)
Lemma kmalloc_large s lo hi l n :
  heap_ok s lo hi l -> SLAB_MAX_OBJ < n <= 4294967280 ->
  let sz := 16 * ((n + 15) / 16) in
  (exists c, c ∈ l /\ fits sz c = true) ->
  exists l1 b l2 s', l = l1 ++ b :: l2 /\ fits sz b = true /\ (forall c, c ∈ l1 -> fits sz c = false) /\
    kmalloc s n = (s', b_addr b + 24) /\ b_addr b + 24 <> 0 /\ heap_ok s' lo hi (l1 ++ carve b sz ++ l2).
Proof.
  intros Hok Hn sz (c & Hc & Hfit). unfold SLAB_MAX_OBJ in Hn.
  assert (n <= sz) as Hsz by (unfold sz; zlia).
  pose proof (take_fit_spec s lo hi l sz Hok ltac:(lia)) as Ht.
  unfold kmalloc. rewrite (proj2 (Z.eqb_neq n 0)) by lia.
  assert (heap_head s <> 0) as Hh.
  { destruct l as [|x l]; [set_solver|]. destruct (l_chain _ _ _ _ _ Hok) as (_ & ? & _). done. }
  rewrite (proj2 (Z.eqb_neq (heap_head s) 0)) by done. simpl orb. cbv iota.
  unfold SLAB_MAX_OBJ. rewrite (proj2 (Z.leb_gt n 2048)) by lia. simpl negb. cbv iota.
  rewrite align_up_eq by lia. fold sz. destruct (take_fit s sz) as [s' r].
  destruct Ht as [(_ & _ & Hno)|(l1 & b & l2 & -> & Hb & Hl1 & -> & Hr & _ & Hok')].
  { rewrite Hno in Hfit by done. done. }
  rewrite (proj2 (Z.eqb_neq _ 0)) by done. simpl. by exists l1, b, l2, s'.
Qed.

(** [kmalloc] of a size above the slab limit on a heap of one region takes
    the first block that fits: it returns a payload of at least the size asked
    inside the region, splits off the rest as a free block, keeps every other
    block and the tiling of the region, and leaves no two free neighbours. *)
Theorem kmalloc_first_fit s lo hi l n :
  heap_ok s lo hi l -> SLAB_MAX_OBJ < n <= 4294967280 ->
  (exists c, c ∈ l /\ fits (16 * ((n + 15) / 16)) c = true) ->
  exists l1 b l2 s', let sz := 16 * ((n + 15) / 16) in
    l = l1 ++ b :: l2 /\ fits sz b = true /\ (forall c, c ∈ l1 -> fits sz c = false) /\
    kmalloc s n = (s', b_addr b + 24) /\ lo < b_addr b + 24 /\ b_addr b + 24 + n <= hi /\
    heap_ok s' lo hi (l1 ++ carve b sz ++ l2).
Proof.
  intros Hok Hn Hex. cbv zeta.
  destruct (kmalloc_large s lo hi l n Hok Hn Hex) as (l1 & b & l2 & s' & -> & Hb & Hl1 & Ek & _ & Hok').
  set (sz := 16 * ((n + 15) / 16)) in *. assert (n <= sz) as Hsz by (unfold sz; zlia).
  exists l1, b, l2, s'. pose proof (l_lo _ _ _ _ _ Hok).
  destruct (tile_bounds _ _ _ (l_tile _ _ _ _ _ Hok)) as [_ Hall].
  destruct (Hall b ltac:(set_solver)) as (? & He & _). unfold b_end in He.
  pose proof Hb as Hb'. unfold fits in Hb'. bool_to_prop.
  split_and!; try done; lia.
Qed.

Lemma kfree_spec s lo hi l1 b l2 :
  heap_ok s lo hi (l1 ++ b :: l2) -> he_slab_owns (henv s) (b_addr b + 24) = false ->
  heap_ok (kfree s (b_addr b + 24)) lo hi (merge (l1 ++ Blk (b_addr b) (b_size b) true :: l2)).
Proof.
  intros Hok Hs. unfold kfree, sizeof_heap_block.
  assert (0 < b_addr b).
  { destruct (tile_bounds _ _ _ (l_tile _ _ _ _ _ Hok)) as [_ Hall].
    destruct (Hall b ltac:(set_solver)) as (? & _). pose proof (l_lo _ _ _ _ _ Hok). lia. }
  rewrite (proj2 (Z.eqb_neq _ 0)) by lia. rewrite Hs.
  replace (b_addr b + 24 - 24) with (b_addr b) by lia.
  destruct (free_block_ok _ _ _ _ _ _ _ Hok) as (nx & Hm & Hok'). rewrite Hm.
  cbn [magic size free next]. rewrite Z.eqb_refl. exact Hok'.
Qed.

(** [kfree] of a block in use makes it free and merges it with its free
    neighbours: the region stays tiled and coalesced, and exactly the other
    blocks in use remain. *)
Theorem kfree_correct s lo hi l1 b l2 :
  heap_ok s lo hi (l1 ++ b :: l2) -> b_free b = false ->
  he_slab_owns (henv s) (b_addr b + 24) = false ->
  exists l', heap_ok (kfree s (b_addr b + 24)) lo hi l' /\
    forall x, b_free x = false -> x ∈ l' <-> x ∈ l1 ++ b :: l2 /\ x <> b.
Proof.
  intros Hok Hb Hs. eexists. split; [by apply kfree_spec|]. intros x Hx.
  assert (x ∈ merge (l1 ++ Blk (b_addr b) (b_size b) true :: l2) <->
          x ∈ l1 ++ Blk (b_addr b) (b_size b) true :: l2) as ->.
  { destruct l1 as [|c l1]; simpl; by apply merge_from_used. }
  destruct (proj1 (tile_app _ _ _ _) (l_tile _ _ _ _ _ Hok)) as (mid & Ht1 & Ht2).
  destruct (tile_bounds _ _ _ Ht1) as [_ Hb1]. pose proof Ht2 as (Hab & _ & _).
  rewrite !elem_of_app, !elem_of_cons. split.
  - intros [Hin|[->|Hin]]; [|done|].
    + split; [by left|]. intros ->. destruct (Hb1 b Hin) as (? & ? & ?). unfold b_end in *. lia.
    + split; [by right; right|]. intros ->. pose proof (tile_head _ _ _ _ b Ht2 Hin). lia.
  - intros [[Hin|[->|Hin]] Hne]; [by left|done|by right; right].
Qed.

(** Freeing at once what [kmalloc] carved from a block of the only region
    restores the list of blocks exactly. *)
Theorem kmalloc_kfree_roundtrip s lo hi l n s' p :
  heap_ok s lo hi l -> SLAB_MAX_OBJ < n <= 4294967280 ->
  (exists c, c ∈ l /\ fits (16 * ((n + 15) / 16)) c = true) ->
  kmalloc s n = (s', p) -> he_slab_owns (henv s') p = false ->
  p <> 0 /\ heap_ok (kfree s' p) lo hi l.
Proof.
  intros Hok Hn Hex Hk Hown.
  destruct (kmalloc_large s lo hi l n Hok Hn Hex) as (l1 & b & l2 & s1 & -> & Hb & Hl1 & Ek & Hr & Hok').
  rewrite Ek in Hk. injection Hk as <- <-. split; [done|].
  set (sz := 16 * ((n + 15) / 16)) in *.
  assert (n <= sz) by (unfold sz; zlia). unfold SLAB_MAX_OBJ in Hn.
  unfold fits in Hb. bool_to_prop.
  destruct (merge_carve l1 b l2 sz (l_coal _ _ _ _ _ Hok) ltac:(done) ltac:(lia)) as (b' & rest & Ec & Em).
  rewrite Ec in Hok'. cbn [app] in Hok'.
  assert (b_addr b' = b_addr b) as Ea.
  { unfold carve in Ec. case_if_in Ec; by simplify_eq. }
  pose proof (kfree_spec s1 lo hi l1 b' (rest ++ l2) Hok') as Hkf. rewrite Ea in Hkf.
  rewrite Ea in Em. rewrite Em in Hkf. by apply Hkf.
Qed.

(** ** Growing *)

Lemma find_last_spec f m p l b :
  chain m p (l ++ [b]) -> (length l < f)%nat -> find_last f m p = b_addr b.
Proof.
  revert p f. induction l as [|c l IH]; intros p f Hc Hf; (destruct f as [|f]; [simpl in Hf; lia|]).
  - destruct Hc as (-> & _ & nx & Hm & Hc). simpl in Hc. subst nx. cbn [find_last]. by rewrite Hm.
  - destruct Hc as (-> & Hp & nx & Hm & Hc). cbn [find_last]. rewrite Hm. cbn [next].
    assert (nx <> 0) as Hn0 by (destruct l; destruct Hc as (_ & ? & _); done).
    rewrite (proj2 (Z.eqb_neq nx 0)) by done. apply IH; [done|simpl in Hf; lia].
Qed.

(** The list after a region was linked behind a free last block: the two are
    merged whatever lies between them. *)
Lemma add_region_merges s lo hi l a sz phys rsz :
  heap_ok s lo hi (l ++ [Blk a sz true]) -> 0 <= region_count s < HEAP_MAX_REGIONS ->
  24 < rsz -> hi < phys -> hi - lo + rsz < 4294967296 ->
  (heap_add_region s phys rsz).2 = true /\
  heap_head (heap_add_region s phys rsz).1 = heap_head s /\
  chain (blocks (heap_add_region s phys rsz).1) (heap_head s) (l ++ [Blk a (sz + rsz) true]).
Proof.
  intros [Hc Ht Hlo Hsm Hco] Hrc Hrs Hph Htot.
  set (b := Blk a sz true) in *. set (g := Blk phys (rsz - 24) true).
  destruct (tile_bounds _ _ _ Ht) as [Hle Hall].
  assert (forall c, c ∈ l ++ [b] -> b_addr c <> phys) as Hfresh.
  { intros c Hin. destruct (Hall c Hin) as (? & ? & ?). unfold b_end in *. lia. }
  pose proof (tile_NoDup _ _ _ Ht) as Hnd. pose proof (tile_sizes _ _ _ Ht) as Hs.
  pose proof (tile_total _ _ _ Ht) as Htt.
  assert (heap_head s <> 0) as Hh by (destruct l; destruct Hc as (_ & ? & _); done).
  unfold heap_add_region. rewrite (proj2 (Z.leb_gt _ (region_count s))) by lia.
  unfold sizeof_heap_block. rewrite (proj2 (Z.leb_gt rsz 24)) by lia. cbn [orb heap_head blocks].
  rewrite (proj2 (Z.eqb_neq (heap_head s) 0)) by done. rewrite (u32_small (rsz - 24)) by lia.
  set (m1 := <[phys := _]> (blocks s)).
  assert (chain m1 (heap_head s) (l ++ [b])) as Hc1 by (apply chain_frame; [done|by apply Hfresh]).
  pose proof (chain_size _ _ _ Hc1 Hnd) as Hsz1. rewrite length_app in Hsz1. simpl in Hsz1.
  rewrite (find_last_spec (heap_fuel m1) m1 (heap_head s) l b Hc1) by (unfold heap_fuel; lia).
  set (m2 := alter _ (b_addr b) m1).
  assert (chain m2 (heap_head s) (l ++ [b; g])) as Hc2.
  { destruct (chain_split _ _ _ _ _ Hc1) as [(_ & Hb0 & nx & Hmb & _) Hrest]. apply Hrest.
    - split_and!; [done|done|]. exists phys. unfold m2. rewrite lookup_alter_eq, Hmb. split; [done|].
      split_and!; [done|simpl; lia|]. exists 0. split; [|done].
      rewrite lookup_alter_ne by (simpl; specialize (Hfresh b ltac:(set_solver)); done).
      unfold m1. by rewrite lookup_insert_eq.
    - intros c Hin. unfold m2. rewrite lookup_alter_ne; [done|]. intros Ec.
      rewrite fmap_app in Hnd. apply NoDup_app in Hnd as (_ & Hd & _).
      apply (Hd (b_addr c)); [by apply list_elem_of_fmap_2|rewrite <- Ec; left]. }
  assert (NoDup (b_addr <$> l ++ [b; g])) as Hnd2.
  { replace (l ++ [b; g]) with ((l ++ [b]) ++ [g]) by (by rewrite <- app_assoc).
    rewrite fmap_app. apply NoDup_app. split_and!; [done| |apply NoDup_singleton].
    intros x Hx Hg%list_elem_of_singleton. apply list_elem_of_fmap in Hx as (c & -> & Hin).
    by apply (Hfresh c). }
  pose proof (chain_size _ _ _ Hc2 Hnd2) as Hsz2. rewrite length_app in Hsz2. simpl in Hsz2.
  split_and!; [done|done|]. cbn [fst coalesce_blocks set_blocks blocks heap_head].
  assert (merge (l ++ [b; g]) = l ++ [Blk a (sz + rsz) true]) as Em.
  { rewrite merge_app by done. simpl. unfold join; simpl. do 4 f_equal. lia. }
  rewrite <- Em. destruct (l ++ [b; g]) as [|x xs] eqn:Ex; [by destruct l|].
  apply coalesce_refines; try done.
  - rewrite <- Ex. apply Forall_app in Hs as [Hs1 Hs2]. apply Forall_app. split; [done|].
    apply Forall_cons in Hs2 as [? _]. rewrite !Forall_cons. split_and!; [done|simpl; lia|done].
  - rewrite <- Ex. replace (l ++ [b; g]) with ((l ++ [b]) ++ [g]) by (by rewrite <- app_assoc).
    rewrite total_app, Htt. simpl. lia.
  - assert (length (l ++ [b; g]) = S (length xs)) as El by (by rewrite Ex).
    rewrite length_app in El. simpl in El. unfold heap_fuel. lia.
Qed.

(** C39: When the last block is free but too small, growing the heap merges it
    with the new region although memory that is not the heap's lies between
    them: the next [kmalloc] returns a payload that runs past the end of the
    first region. *)
Theorem kmalloc_grow_crosses_gap s lo hi l a sz n e phys :
  heap_ok s lo hi (l ++ [Blk a sz true]) -> 0 <= region_count s < HEAP_MAX_REGIONS ->
  SLAB_MAX_OBJ < n -> n mod 16 = 0 -> sz < n <= sz + HEAP_GROW_SIZE ->
  (forall c, c ∈ l -> fits n c = false) -> hi - lo + HEAP_GROW_SIZE < 4294967296 ->
  he_alloc_region (henv s) HEAP_GROW_SIZE 4096 = (e, phys) -> hi < phys ->
  (kmalloc s n).2 = a + 24 /\ a + 24 <= hi < (kmalloc s n).2 + n.
Proof.
  intros Hok Hrc Hn Hal Hsz Hno Htot Hr Hph. unfold SLAB_MAX_OBJ in Hn.
  unfold HEAP_GROW_SIZE in Hsz, Htot. pose proof (l_lo _ _ _ _ _ Hok).
  set (b := Blk a sz true) in *.
  destruct (proj1 (tile_app _ _ _ _) (l_tile _ _ _ _ _ Hok)) as (mid & _ & Ha & Hs & He).
  unfold b_end in He. simpl in Ha, Hs, He. destruct (tile_bounds _ _ _ (l_tile _ _ _ _ _ Hok)) as [_ Hall].
  destruct (Hall b ltac:(set_solver)) as (? & ? & ?). unfold b_end in *. simpl in *.
  assert (align_up n = n) as Eal by (rewrite align_up_eq by (pose proof (l_small _ _ _ _ _ Hok); lia); zlia).
  assert (heap_head s <> 0) as Hh.
  { pose proof (l_chain _ _ _ _ _ Hok) as Hc. destruct l; destruct Hc as (_ & ? & _); done. }
  enough ((kmalloc s n).2 = a + 24) as -> by lia.
  pose proof (take_fit_spec s lo hi _ n Hok ltac:(lia)) as Ht.
  unfold kmalloc. rewrite (proj2 (Z.eqb_neq n 0)) by lia.
  rewrite (proj2 (Z.eqb_neq (heap_head s) 0)) by done. cbn [orb].
  unfold SLAB_MAX_OBJ. rewrite (proj2 (Z.leb_gt n 2048)) by lia. cbn [negb Z.eqb].
  rewrite Eal. destruct (take_fit s n) as [s1 r1].
  destruct Ht as [(-> & -> & _)|(l1 & b0 & l2 & El & Hb0 & _)].
  2: { exfalso. assert (b0 ∈ l ++ [b]) as Hin by (rewrite El; set_solver).
       apply elem_of_app in Hin as [Hin|Hin%list_elem_of_singleton]; [by rewrite Hno in Hb0|].
       subst b0. unfold fits in Hb0. simpl in Hb0. bool_to_prop. lia. }
  cbn [negb Z.eqb]. unfold heap_grow. rewrite Hr. rewrite (proj2 (Z.eqb_neq phys 0)) by lia.
  destruct (add_region_merges (set_env s e) lo hi l a sz phys HEAP_GROW_SIZE) as (Hg & Hhd & Hc);
    [exact Hok|exact Hrc|unfold HEAP_GROW_SIZE; lia..|].
  destruct (heap_add_region (set_env s e) phys HEAP_GROW_SIZE) as [s2 ok]. cbn [fst snd] in *. subst ok.
  unfold take_fit. rewrite Hhd.
  assert (NoDup (b_addr <$> l ++ [Blk a (sz + HEAP_GROW_SIZE) true])) as Hnd.
  { pose proof (tile_NoDup _ _ _ (l_tile _ _ _ _ _ Hok)) as Hnd. by rewrite fmap_app in *. }
  pose proof (chain_size _ _ _ Hc Hnd) as Hsz2.
  pose proof (find_fit_spec (heap_fuel (blocks s2)) _ _ _ n Hc ltac:(unfold heap_fuel; lia)) as Hf.
  cbn [set_env heap_head] in *.
  destruct (find_fit _ _ _ n) as [x|].
  - destruct Hf as (l1 & b0 & l2 & El & -> & Hb0 & _). cbn [snd]. unfold sizeof_heap_block. f_equal.
    assert (b0 ∈ l ++ [Blk a (sz + HEAP_GROW_SIZE) true]) as Hin by (rewrite El; set_solver).
    apply elem_of_app in Hin as [Hin|Hin%list_elem_of_singleton]; [by rewrite Hno in Hb0|by subst].
  - exfalso. specialize (Hf (Blk a (sz + HEAP_GROW_SIZE) true) ltac:(set_solver)).
    unfold fits, HEAP_GROW_SIZE in Hf. simpl in Hf. bool_to_prop. lia.
Qed.

(** A request within 15 bytes of 4 GiB wraps to zero when it is rounded
    up: [kmalloc] succeeds with the first free block, and hands out a payload
    of no bytes when that block can be split. *)
Theorem kmalloc_size_wraps s lo hi l1 b l2 n :
  heap_ok s lo hi (l1 ++ b :: l2) -> b_free b = true -> (forall c, c ∈ l1 -> b_free c = false) ->
  40 < b_size b -> 4294967281 <= n < 4294967296 ->
  (kmalloc s n).2 = b_addr b + 24 /\
  heap_ok (kmalloc s n).1 lo hi
    (l1 ++ Blk (b_addr b) 0 false :: Blk (b_addr b + 24) (b_size b - 24) true :: l2).
Proof.
  intros Hok Hb Hl1 Hsz Hn.
  assert (align_up n = 0) as Eal.
  { unfold align_up, HEAP_ALIGNMENT. replace (u32 (n + (16 - 1))) with (n + 15 - 4294967296)
      by (unfold u32; zlia).
    change (16 - 1) with (2 ^ 4 - 1). rewrite land_not32_pow2 by lia. change (2 ^ 4) with 16. zlia. }
  assert (heap_head s <> 0) as Hh.
  { pose proof (l_chain _ _ _ _ _ Hok) as Hc. destruct l1; destruct Hc as (_ & ? & _); done. }
  pose proof (take_fit_spec s lo hi _ 0 Hok ltac:(lia)) as Ht.
  unfold kmalloc. rewrite (proj2 (Z.eqb_neq n 0)) by lia.
  rewrite (proj2 (Z.eqb_neq (heap_head s) 0)) by done. cbn [orb].
  unfold SLAB_MAX_OBJ. rewrite (proj2 (Z.leb_gt n 2048)) by lia. cbn [negb Z.eqb].
  rewrite Eal. destruct (take_fit s 0) as [s1 r1].
  assert (fits 0 b = true) as Hfb by (unfold fits; rewrite Hb; apply Z.leb_le; lia).
  destruct Ht as [(_ & _ & Hno)|(k1 & b0 & k2 & El & Hb0 & Hk1 & -> & Hr & _ & Hok')].
  { rewrite Hno in Hfb by set_solver. done. }
  rewrite (proj2 (Z.eqb_neq _ 0)) by done. cbn [negb fst snd].
  assert (k1 = l1 /\ b0 = b /\ k2 = l2) as (-> & -> & ->).
  { clear -El Hl1 Hk1 Hb0 Hfb. revert k1 El Hk1.
    induction l1 as [|c l1 IH]; intros [|d k1] El Hk1; simpl in El; injection El as E1 E2; subst.
    - done.
    - by rewrite Hk1 in Hfb by left.
    - unfold fits in Hb0. by rewrite Hl1 in Hb0 by left.
    - destruct (IH ltac:(intros; apply Hl1; by right) k1 E2 ltac:(intros; apply Hk1; by right))
        as (-> & -> & ->). done. }
  split; [done|]. unfold carve in Hok'. rewrite (proj2 (Z.leb_gt _ _)) in Hok' by lia.
  rewrite Z.add_0_r, Z.sub_0_r in Hok'. exact Hok'.
Qed.

End props.

(** ** Start-up *)

Lemma heap_init_ok {E} `{HeapEnv E} (s : heap E) e phys :
  he_alloc_region (henv s) HEAP_INITIAL_SIZE 4096 = (e, phys) -> 0 < phys ->
  heap_ok (heap_init s) phys (phys + HEAP_INITIAL_SIZE)
    [Blk phys (HEAP_INITIAL_SIZE - 24) true].
Proof.
  intros Hr Hp. unfold heap_init. cbn [henv]. rewrite Hr. rewrite (proj2 (Z.eqb_neq phys 0)) by lia.
  unfold heap_add_region. cbn [set_env region_count heap_head blocks fst].
  change ((HEAP_MAX_REGIONS <=? 0) || (HEAP_INITIAL_SIZE <=? sizeof_heap_block)) with false.
  change (0 =? 0) with true. cbv iota.
  constructor; cbn [blocks heap_head fst heap_ok set_env]; try (done || lia).
  - split_and!; [done|simpl; lia|]. exists 0. split; [|done].
    cbn [b_size b_free]. change (u32 (HEAP_INITIAL_SIZE - sizeof_heap_block)) with (HEAP_INITIAL_SIZE - 24).
    by rewrite lookup_insert_eq.
  - cbn. unfold b_end. simpl. unfold HEAP_INITIAL_SIZE. lia.
  - unfold HEAP_INITIAL_SIZE. lia.
Qed.

(** ** A client *)

(** The calls of a client that asks for more than the slab gives, and the
    pointers it holds with the sizes it asked for. *)
Inductive request := Kmalloc (n : Z) | Kfree (p : Z).

Section client.
Context {E : Type} `{HeapEnv E}.
Implicit Types (s : heap E) (live : list (Z * Z)).

Definition serve (r : request) (st : heap E * list (Z * Z)) : heap E * list (Z * Z) :=
  let '(s, live) := st in
  match r with
  | Kmalloc n => let '(s, p) := kmalloc s n in (s, if p =? 0 then live else (p, n) :: live)
  | Kfree p => (kfree s p, filter (fun x => x.1 <> p) live)
  end.

(** The requests of the theorem: sizes above the slab limit whose rounding does
    not wrap, answered from the region or refused because the heap cannot grow,
    and frees of pointers the client holds. *)
Definition contained (r : request) (st : heap E * list (Z * Z)) : bool :=
  let '(s, live) := st in
  match r with
  | Kmalloc n =>
      (SLAB_MAX_OBJ <? n) && (n <=? 4294967280) &&
      (bool_decide (is_Some (find_fit (heap_fuel (blocks s)) (blocks s) (heap_head s) (align_up n))) ||
       negb (heap_grow s).2)
  | Kfree p => bool_decide (p ∈ live.*1)
  end.

Fixpoint serve_all (rs : list request) (st : heap E * list (Z * Z)) : heap E * list (Z * Z) :=
  match rs with [] => st | r :: rs => serve_all rs (serve r st) end.

Fixpoint contained_all (rs : list request) (st : heap E * list (Z * Z)) : bool :=
  match rs with [] => true | r :: rs => contained r st && contained_all rs (serve r st) end.

(** The blocks in use are the pointers of the client. *)
Record client_ok s live (lo hi : Z) (l : list blk) : Prop := ClientOk {
  c_heap : heap_ok s lo hi l;
  c_live p n : (p, n) ∈ live -> exists b, b ∈ l /\ b_free b = false /\ p = b_addr b + 24 /\ 0 < n <= b_size b;
  c_used b : b ∈ l -> b_free b = false -> b_addr b + 24 ∈ live.*1;
  c_nodup : NoDup live.*1;
}.

(** A heap that cannot grow refuses and keeps its blocks. *)
Lemma grow_refused s : (heap_grow s).2 = false ->
  blocks (heap_grow s).1 = blocks s /\ heap_head (heap_grow s).1 = heap_head s.
Proof.
  unfold heap_grow. destruct (he_alloc_region _ _ _) as [e phys]. cbv zeta.
  destruct (phys =? 0); [done|]. unfold heap_add_region.
  destruct (_ || _); [done|]. cbv zeta. case_match; done.
Qed.

Lemma kmalloc_refused s lo hi l n :
  heap_ok s lo hi l -> lo < hi -> SLAB_MAX_OBJ < n <= 4294967280 ->
  (forall c, c ∈ l -> fits (16 * ((n + 15) / 16)) c = false) -> (heap_grow s).2 = false ->
  (kmalloc s n).2 = 0 /\ heap_ok (kmalloc s n).1 lo hi l.
Proof.
  intros Hok Hl Hn Hno Hg. unfold SLAB_MAX_OBJ in Hn.
  assert (0 <= 16 * ((n + 15) / 16)) as Hsz by zlia.
  pose proof (take_fit_spec s lo hi l _ Hok Hsz) as Ht. unfold kmalloc.
  rewrite (proj2 (Z.eqb_neq n 0)) by lia.
  assert (heap_head s <> 0) as Hh.
  { destruct l as [|x l]; [pose proof (l_tile _ _ _ _ _ Hok); simpl in *; lia|]. by destruct (l_chain _ _ _ _ _ Hok) as (_ & ? & _). }
  rewrite (proj2 (Z.eqb_neq _ _) Hh). unfold SLAB_MAX_OBJ. rewrite (proj2 (Z.leb_gt n 2048)) by lia.
  cbn [orb negb Z.eqb]. rewrite align_up_eq by lia.
  destruct (take_fit s _) as [s1 r]. destruct Ht as [(-> & -> & _)|(l1 & b & l2 & -> & Hb & _)].
  2: { rewrite Hno in Hb by set_solver. done. }
  cbn [negb Z.eqb]. destruct (grow_refused s Hg) as [E1 E2].
  destruct (heap_grow s) as [s2 g]. cbn [fst snd] in *. subst g. split; [done|].
  unfold heap_ok. cbn [fst]. by rewrite E1, E2.
Qed.

(** What the blocks in use are after an allocation. *)
Lemma carve_used l1 b l2 sz x :
  b_free b = true -> sz <= b_size b -> b_free x = false ->
  x ∈ l1 ++ carve b sz ++ l2 <->
  x ∈ l1 ++ b :: l2 \/ x = Blk (b_addr b) (if b_size b <=? sz + 40 then b_size b else sz) false.
Proof.
  intros Hb Hsz Hx. unfold carve.
  assert (x <> b) as Hxb by (intros ->; congruence).
  assert (forall a z, x <> Blk a z true) as Hxt by (intros a z ->; done).
  rewrite !elem_of_app, elem_of_cons. destruct (b_size b <=? sz + 40).
  - rewrite list_elem_of_singleton. tauto.
  - rewrite elem_of_cons, list_elem_of_singleton. pose proof (Hxt (b_addr b + 24 + sz) (b_size b - sz - 24)). tauto.
Qed.

Lemma tile_same_addr lo hi l x y : tile lo hi l -> x ∈ l -> y ∈ l -> b_addr x = b_addr y -> x = y.
Proof.
  intros Ht Hx Hy Ea. apply tile_NoDup in Ht.
  apply list_elem_of_lookup in Hx as [i Hi], Hy as [j Hj].
  assert (i = j) as ->; [|congruence].
  eapply NoDup_lookup; [exact Ht|by rewrite list_lookup_fmap, Hi|by rewrite list_lookup_fmap, Hj; cbn; rewrite Ea].
Qed.

Lemma serve_kmalloc s live lo hi l n :
  client_ok s live lo hi l -> lo < hi -> contained (Kmalloc n) (s, live) = true ->
  exists l', client_ok (serve (Kmalloc n) (s, live)).1 (serve (Kmalloc n) (s, live)).2 lo hi l'.
Proof.
  intros [Hok Hlive Hused Hnd] Hl Hc. cbn [contained] in Hc.
  apply andb_prop in Hc as [[Hn1%Z.ltb_lt Hn2%Z.leb_le]%andb_prop Hfit].
  set (sz := 16 * ((n + 15) / 16)) in *. assert (n <= sz) as Hsz by (unfold sz; zlia).
  assert (SLAB_MAX_OBJ < n <= 4294967280) as Hn by done. unfold SLAB_MAX_OBJ in Hn1.
  destruct (decide (Exists (fun c => fits sz c = true) l)) as [Hex|Hno].
  - apply Exists_exists in Hex.
    destruct (kmalloc_large s lo hi l n Hok Hn Hex) as (l1 & b & l2 & s' & -> & Hb & _ & Ek & Hr & Hok').
    fold sz in Hb, Hok'. unfold fits in Hb. apply andb_prop in Hb as [Hb Hbs%Z.leb_le].
    cbn [serve]. rewrite Ek, (proj2 (Z.eqb_neq _ _) Hr). cbn [fst snd].
    exists (l1 ++ carve b sz ++ l2).
    pose proof (fun x => carve_used l1 b l2 sz x Hb Hbs) as Hcv.
    split; [exact Hok'| | |].
    + intros p m [[= -> ->]|Hin]%elem_of_cons.
      * eexists. split; [apply Hcv; [|by right]; done|]. cbn [b_free b_addr b_size].
        split_and!; [done|done|lia|]. case_match; lia.
      * destruct (Hlive p m Hin) as (c & Hc & Hcf & -> & Hm). exists c. split; [|done].
        apply Hcv; [done|by left].
    + intros x Hx Hxf. cbn [fmap list_fmap fst]. apply Hcv in Hx as [Hx| ->]; [|by left|done].
      right. by apply Hused.
    + cbn [fmap list_fmap fst]. apply NoDup_cons. split; [|done]. intros Hin.
      apply list_elem_of_fmap in Hin as ([p m] & Ep & Hin). cbn [fst] in Ep. subst p.
      destruct (Hlive _ _ Hin) as (c & Hc & Hcf & Ea & _).
      assert (b = c) as <-; [|congruence].
      apply (tile_same_addr lo hi (l1 ++ b :: l2)); [apply Hok|set_solver|done|lia].
  - assert (forall c, c ∈ l -> fits sz c = false) as Hno'.
    { intros c Hc. apply not_true_is_false. intros Hf. apply Hno, Exists_exists. by exists c. }
    rewrite align_up_eq in Hfit by lia. fold sz in Hfit.
    pose proof (find_fit_spec _ _ _ _ sz (l_chain _ _ _ _ _ Hok) (heap_ok_fuel _ _ _ _ Hok)) as Hf.
    destruct (find_fit _ _ _ sz) as [a|].
    { destruct Hf as (l1 & b & l2 & -> & _ & Hb & _). rewrite Hno' in Hb by set_solver. done. }
    rewrite bool_decide_false in Hfit by (by intros [? ?]). cbn [orb] in Hfit. apply negb_true_iff in Hfit.
    destruct (kmalloc_refused s lo hi l n Hok Hl Hn Hno' Hfit) as [E0 Hok'].
    cbn [serve]. destruct (kmalloc s n) as [s' p]. cbn [fst snd] in *. subst p. by exists l.
Qed.

Lemma serve_kfree s live lo hi l p :
  client_ok s live lo hi l -> contained (Kfree p) (s, live) = true ->
  (forall e a, lo <= a < hi -> he_slab_owns e a = false) ->
  exists l', client_ok (serve (Kfree p) (s, live)).1 (serve (Kfree p) (s, live)).2 lo hi l'.
Proof.
  intros [Hok Hlive Hused Hnd] Hc Hslab. apply bool_decide_eq_true in Hc.
  apply list_elem_of_fmap in Hc as ([p' n] & -> & Hin). cbn [fst] in *.
  destruct (Hlive _ _ Hin) as (b & Hb & Hbf & -> & Hbn).
  assert (he_slab_owns (henv s) (b_addr b + 24) = false) as Hown.
  { apply Hslab. destruct (tile_bounds _ _ _ (l_tile _ _ _ _ _ Hok)) as [_ Hall].
    destruct (Hall b Hb) as (? & He & _). unfold b_end in He. lia. }
  apply list_elem_of_split in Hb as (l1 & l2 & ->).
  destruct (kfree_correct s lo hi l1 b l2 Hok Hbf Hown) as (l' & Hok' & Hl').
  assert (forall c, c ∈ l1 ++ b :: l2 -> b_addr c = b_addr b -> c = b) as Hinj.
  { intros c Hc. apply (tile_same_addr lo hi (l1 ++ b :: l2)); [apply Hok|done|set_solver]. }
  exists l'. cbn [serve fst snd]. split; [done| | |].
  - intros q m [Hq Hqm]%list_elem_of_filter. cbn [fst] in Hq.
    destruct (Hlive q m Hqm) as (c & Hc & Hcf & -> & Hm). exists c. split; [|done].
    apply Hl'; [done|]. split; [done|]. intros ->. done.
  - intros c Hc Hcf. apply Hl' in Hc as [Hc Hcb]; [|done]. pose proof (Hused c Hc Hcf) as Hu.
    apply list_elem_of_fmap in Hu as ([q m] & Eq & Hq). cbn [fst] in Eq.
    apply list_elem_of_fmap. exists (q, m). split; [done|]. apply list_elem_of_filter.
    split; [|done]. cbn [fst]. intros ->. apply Hcb, Hinj; [done|lia].
  - eapply sublist_NoDup; [exact Hnd|]. apply fmap_sublist, sublist_filter.
Qed.

Lemma serve_all_ok rs s live lo hi l :
  lo < hi -> (forall e a, lo <= a < hi -> he_slab_owns e a = false) ->
  client_ok s live lo hi l -> contained_all rs (s, live) = true ->
  exists l', client_ok (serve_all rs (s, live)).1 (serve_all rs (s, live)).2 lo hi l'.
Proof.
  intros Hlt Hslab. revert s live l. induction rs as [|r rs IH]; intros s live l Hc Hr; [by exists l|].
  cbn [contained_all serve_all] in *. apply andb_prop in Hr as [Hr Hrs].
  assert (exists l', client_ok (serve r (s, live)).1 (serve r (s, live)).2 lo hi l') as (l' & Hl').
  { destruct r as [n|p]; [by eapply serve_kmalloc|by eapply serve_kfree]. }
  destruct (serve r (s, live)) as [s' live']. by eapply IH.
Qed.

(** With no block in use the region is one free block again. *)
Lemma all_free_one lo hi l :
  lo < hi -> tile lo hi l -> coalesced l -> (forall b, b ∈ l -> b_free b = true) ->
  l = [Blk lo (hi - lo - 24) true].
Proof.
  intros Hlt Ht Hc Hf. destruct l as [|b [|c l]]; simpl in Ht; [lia| |].
  - destruct Ht as (Ha & _ & He). unfold b_end in He. pose proof (Hf b ltac:(by left)).
    destruct b as [a z f]; simpl in *. subst. do 2 f_equal. lia.
  - destruct Hc as [Hc _]. rewrite (Hf b), (Hf c) in Hc by set_solver. done.
Qed.

(** Two pointers of the client have disjoint payloads inside the region. *)
Lemma client_disjoint s live lo hi l p n q m :
  client_ok s live lo hi l -> (p, n) ∈ live -> (q, m) ∈ live ->
  lo < p /\ p + n <= hi /\ (p <> q -> p + n <= q \/ q + m <= p).
Proof.
  intros [Hok Hlive _ _] Hp Hq. destruct (Hlive p n Hp) as (b & Hb & _ & -> & Hn).
  destruct (Hlive q m Hq) as (c & Hc & _ & -> & Hm). pose proof (l_tile _ _ _ _ _ Hok) as Ht.
  destruct (tile_bounds _ _ _ Ht) as [_ Hall].
  destruct (Hall b Hb) as (B1 & B2 & _). unfold b_end in B2. split; [lia|]. split; [lia|]. intros Hne.
  enough (b_end b <= b_addr c \/ b_end c <= b_addr b) by (unfold b_end in *; lia).
  assert (b_addr b <> b_addr c) as Hbc by lia. clear - Ht Hb Hc Hbc. revert lo Ht.
  induction l as [|x l IH]; intros lo Ht; [by apply elem_of_nil in Hb|].
  destruct Ht as (_ & _ & Ht). destruct (tile_bounds _ _ _ Ht) as [_ Hall].
  apply elem_of_cons in Hb as [-> |Hb], Hc as [-> |Hc]; [done| | |by eapply IH].
  - left. by apply Hall.
  - right. by apply Hall.
Qed.

(** C24: What a client gets from the heap of one region that [heap_init] made.
    Let it make any sequence of requests: [kmalloc] of sizes above the slab
    limit (2048) whose rounding does not wrap, each answered from the region or
    refused when the heap cannot grow, and [kfree] of pointers it holds.  The
    slab owns no address of the region.  Then its pointers are distinct, their
    payloads have the sizes asked for, lie in the region and do not overlap;
    the headers tile the region with no two free neighbours, and the blocks in
    use are exactly the client's.  When everything was freed, in whatever
    order, the region is one free block again. *)
Theorem heap_client_sound (s : heap E) e phys rs :
  he_alloc_region (henv s) HEAP_INITIAL_SIZE 4096 = (e, phys) -> 0 < phys ->
  let hi := phys + HEAP_INITIAL_SIZE in
  (forall e a, phys <= a < hi -> he_slab_owns e a = false) ->
  contained_all rs (heap_init s, []) = true ->
  let '(s', live) := serve_all rs (heap_init s, []) in
  NoDup live.*1 /\
  (forall p n q m, (p, n) ∈ live -> (q, m) ∈ live ->
     phys < p /\ p + n <= hi /\ (p <> q -> p + n <= q \/ q + m <= p)) /\
  exists l, heap_ok s' phys hi l /\
    (forall p, p ∈ live.*1 <-> exists b, b ∈ l /\ b_free b = false /\ p = b_addr b + 24) /\
    (live = [] -> l = [Blk phys (HEAP_INITIAL_SIZE - 24) true]).
Proof.
  intros Hr Hp hi Hslab Hc. pose proof (heap_init_ok s e phys Hr Hp) as Hok. fold hi in Hok.
  assert (phys < hi) as Hlt by (unfold hi, HEAP_INITIAL_SIZE; lia).
  assert (client_ok (heap_init s) [] phys hi [Blk phys (HEAP_INITIAL_SIZE - 24) true]) as H0.
  { split; [exact Hok| | |constructor].
    - intros p n Hin. by apply elem_of_nil in Hin.
    - intros b Hb%list_elem_of_singleton. by subst b. }
  destruct (serve_all_ok rs _ _ _ _ _ Hlt Hslab H0 Hc) as (l & Hl).
  destruct (serve_all rs (heap_init s, [])) as [s' live]. cbn [fst snd] in Hl.
  split; [apply Hl|]. split; [intros p n q m; by eapply client_disjoint|].
  pose proof Hl as [Hok' Hlive Hused _]. exists l. split; [done|]. split.
  - intros p. split.
    + intros ([q n] & -> & Hin)%list_elem_of_fmap. destruct (Hlive q n Hin) as (b & ? & ? & ? & _). by exists b.
    + intros (b & Hb & Hf & ->). by apply Hused.
  - intros ->. rewrite (all_free_one phys hi l Hlt (l_tile _ _ _ _ _ Hok') (l_coal _ _ _ _ _ Hok')).
    + do 2 f_equal. unfold hi. lia.
    + intros b Hb. apply not_false_iff_true. intros Hf. pose proof (Hused b Hb Hf) as Hn. by apply elem_of_nil in Hn.
Qed.

End client.

(** * Concrete runs *)

(** An environment that grants one region at 1 MiB and has no slab. *)
#[local] Instance demo_env : HeapEnv unit := {
  he_alloc_region e n al := (e, 1048576);
  he_slab_init e := e;
  he_slab_alloc e n := (e, 0);
  he_slab_owns e p := false;
  he_slab_free e p := e }.

Definition demo_heap (m : hmem) : heap unit := Heap m 4096 (repeat (HeapRegion 0 0) 32) 1 0 tt.

Definition demo_free : heap unit :=
  demo_heap {[4096 := HeapBlock HEAP_BLOCK_MAGIC 3000 true 0]}.
Definition demo_pair (f1 f2 : bool) : heap unit :=
  demo_heap (<[4096 := HeapBlock HEAP_BLOCK_MAGIC 3000 f1 7120]>
             {[7120 := HeapBlock HEAP_BLOCK_MAGIC 40 f2 0]}).

Lemma demo_free_ok : heap_ok demo_free 4096 7120 [Blk 4096 3000 true].
Proof.
  constructor; [|done|done|done|done]. split_and!; [done|done|]. by exists 0.
Qed.

Lemma demo_pair_chain f1 f2 :
  chain (blocks (demo_pair f1 f2)) 4096 [Blk 4096 3000 f1; Blk 7120 40 f2].
Proof.
  split_and!; [done|done|]. exists 7120. split; [by destruct f1, f2|].
  split_and!; [done|done|]. exists 0. split; [by destruct f1, f2|done].
Qed.

Lemma demo_pair_ok : heap_ok (demo_pair false true) 4096 7184 [Blk 4096 3000 false; Blk 7120 40 true].
Proof. constructor; [apply demo_pair_chain|done..]. Qed.

Lemma coalesce_blocks_correct_witness :
  heap_ok (coalesce_blocks (demo_pair true true)) 4096 7184 [Blk 4096 3064 true].
Proof.
  exact (proj1 (coalesce_blocks_correct (demo_pair true true) 4096 7184 (Blk 4096 3000 true)
    [Blk 7120 40 true] (demo_pair_chain true true) ltac:(done) ltac:(lia) ltac:(lia))).
Defined.

Lemma kmalloc_first_fit_witness :
  exists s', kmalloc demo_free 2100 = (s', 4120) /\
    heap_ok s' 4096 7120 [Blk 4096 2112 false; Blk 6232 864 true].
Proof.
  destruct (kmalloc_first_fit demo_free 4096 7120 [Blk 4096 3000 true] 2100 demo_free_ok
    ltac:(unfold SLAB_MAX_OBJ; lia)
    ltac:(exists (Blk 4096 3000 true); split; [left|reflexivity]))
    as ([|c l1] & b & l2 & s' & El & _ & _ & Ek & _ & _ & Hok); simpl in El; simplify_eq.
  - exists s'. split; [exact Ek|exact Hok].
  - destruct l1; discriminate.
Defined.

Lemma kfree_correct_witness :
  exists l', heap_ok (kfree (demo_pair false true) 4120) 4096 7184 l' /\ Blk 4096 3000 false ∉ l'.
Proof.
  destruct (kfree_correct (demo_pair false true) 4096 7184 [] (Blk 4096 3000 false) [Blk 7120 40 true]
    demo_pair_ok) as (l' & Hok & Hx); [reflexivity|reflexivity|].
  exists l'. split; [exact Hok|]. rewrite (Hx (Blk 4096 3000 false) eq_refl). tauto.
Defined.

(** An environment with one region to give, and two requests that fit, one that
    is refused, and the frees in the order of the allocations. *)
#[local] Instance one_region_env : HeapEnv bool := {
  he_alloc_region e n al := if e then (false, 1048576) else (e, 0);
  he_slab_init e := e;
  he_slab_alloc e n := (e, 0);
  he_slab_owns e p := false;
  he_slab_free e p := e }.

Definition demo_unset : heap bool := Heap ∅ 0 (repeat (HeapRegion 0 0) 32) 0 0 true.
Definition demo_requests : list request := [Kmalloc 3000; Kmalloc 5000000; Kmalloc 2500].

Lemma heap_client_sound_witness :
  (serve_all demo_requests (heap_init demo_unset, [])).2 = [(1051632, 2500); (1048600, 3000)] /\
  (exists l, heap_ok (serve_all demo_requests (heap_init demo_unset, [])).1 1048576 5242880 l /\
     exists b, b ∈ l /\ b_free b = false /\ 1051632 = b_addr b + 24) /\
  heap_ok (serve_all (demo_requests ++ [Kfree 1048600; Kfree 1051632]) (heap_init demo_unset, [])).1
    1048576 5242880 [Blk 1048576 4194280 true].
Proof.
  pose proof (fun rs => heap_client_sound demo_unset false 1048576 rs eq_refl ltac:(lia)
    ltac:(intros; reflexivity)) as H.
  pose proof (H demo_requests ltac:(vm_compute; reflexivity)) as H1.
  pose proof (H (demo_requests ++ [Kfree 1048600; Kfree 1051632]) ltac:(vm_compute; reflexivity)) as H2.
  assert ((serve_all demo_requests (heap_init demo_unset, [])).2 = [(1051632, 2500); (1048600, 3000)]) as E1
    by (vm_compute; reflexivity).
  assert ((serve_all (demo_requests ++ [Kfree 1048600; Kfree 1051632]) (heap_init demo_unset, [])).2 = []) as E2
    by (vm_compute; reflexivity).
  destruct (serve_all demo_requests _) as [s1 live1]. destruct (serve_all (demo_requests ++ _) _) as [s2 live2].
  cbn [fst snd] in *. subst live1 live2. split; [reflexivity|]. split.
  - destruct H1 as (_ & _ & l & Hok & Hb & _). exists l. split; [exact Hok|]. apply Hb. by left.
  - destruct H2 as (_ & _ & l & Hok & _ & Hl). rewrite (Hl eq_refl) in Hok. exact Hok.
Defined.

Lemma kmalloc_kfree_roundtrip_witness :
  heap_ok (kfree (kmalloc demo_free 2100).1 4120) 4096 7120 [Blk 4096 3000 true].
Proof.
  refine (proj2 (kmalloc_kfree_roundtrip demo_free 4096 7120 [Blk 4096 3000 true] 2100
    (kmalloc demo_free 2100).1 4120 demo_free_ok _ _ _ _)).
  - unfold SLAB_MAX_OBJ. lia.
  - exists (Blk 4096 3000 true). split; [left|reflexivity].
  - vm_compute. reflexivity.
  - reflexivity.
Defined.

Lemma kmalloc_grow_crosses_gap_witness :
  (kmalloc demo_free 3008).2 = 4120 /\ 7120 < 4120 + 3008.
Proof.
  assert (forall c : blk, c ∈ [] -> fits 3008 c = false) as Hno by (intros c Hc; set_solver).
  destruct (kmalloc_grow_crosses_gap demo_free 4096 7120 [] 4096 3000 3008 tt 1048576
    demo_free_ok ltac:(unfold HEAP_MAX_REGIONS; simpl; lia) ltac:(unfold SLAB_MAX_OBJ; lia)
    ltac:(reflexivity) ltac:(unfold HEAP_GROW_SIZE; lia) Hno ltac:(unfold HEAP_GROW_SIZE; lia)
    ltac:(reflexivity) ltac:(lia)) as [H1 H2].
  split; [exact H1|lia].
Defined.

Lemma kmalloc_size_wraps_witness : (kmalloc demo_free 4294967295).2 = 4120.
Proof.
  refine (proj1 (kmalloc_size_wraps demo_free 4096 7120 [] (Blk 4096 3000 true) [] 4294967295
    demo_free_ok eq_refl _ ltac:(simpl; lia) ltac:(lia))).
  intros c Hc. set_solver.
Defined.
