(* ===== verification/Net.v ===== *)
(** Network link layer: [include/net/endian.h], [net/netif.c] and the
    transmit half of [net/ethernet.c].

    A packet in memory is the list of the bytes from its pointer to the end of
    the buffer that holds it, with its length beside it as in the code.  Copies
    whose size comes from a packet or from a caller are checked against the
    buffers they touch: the operation yields [None] when the C code would
    access memory outside a buffer.  Frames handed to a driver are recorded on
    the [wire]. *)
From S2P Require Import Prelude.
From S2P Require Import KString.
From Stdlib Require Import ZArith Lia.
From stdpp Require Import base numbers list.

Open Scope Z_scope.
Open Scope lyth_scope.

(** * Byte order *)

Definition htons (h : Z) : Z := u16 (Z.lor (Z.shiftr h 8) (Z.shiftl h 8)).
Definition ntohs (n : Z) : Z := htons n.

Definition htonl (h : Z) : Z :=
  Z.lor (Z.lor (Z.lor (Z.shiftr (Z.land h 4278190080) 24)
                      (Z.shiftr (Z.land h 16711680) 8))
               (u32 (Z.shiftl (Z.land h 65280) 8)))
        (u32 (Z.shiftl (Z.land h 255) 24)).
Definition ntohl (n : Z) : Z := htonl n.

(** Little-endian loads and stores of packed fields. *)
Definition ld16 (m : list Z) (o : Z) : Z := m.[o] + 256 * m.[o + 1].
Definition ld32 (m : list Z) (o : Z) : Z := ld16 m o + 65536 * ld16 m (o + 2).
Definition le16 (v : Z) : list Z := [v mod 256; v / 256 mod 256].
Definition le32 (v : Z) : list Z := le16 (v mod 65536) ++ le16 (v / 65536).

(** * Checked block copies *)

Definition load (m : list Z) (off n : Z) : option (list Z) :=
  if (0 <=? off) && (off + n <=? Z.of_nat (length m)) then Some (slice m off n) else None.

Definition store (m : list Z) (off : Z) (bs : list Z) : option (list Z) :=
  if (0 <=? off) && (off + Z.of_nat (length bs) <=? Z.of_nat (length m))
  then Some (take (Z.to_nat off) m ++ bs ++ drop (Z.to_nat off + length bs) m)
  else None.

(** * Data *)

Definition NETIF_NAME_MAX : Z := 8.
Definition NETIF_MAX : Z := 4.
Definition ETH_HDR_LEN : Z := 14.
Definition ETH_MTU : Z := 1500.
Definition ETH_FRAME_MAX : Z := ETH_HDR_LEN + ETH_MTU.
Definition ETHERTYPE_IPV4 : Z := 2048.
Definition ETHERTYPE_ARP : Z := 2054.
Definition ETH_BROADCAST : list Z := [255; 255; 255; 255; 255; 255].
Definition ARP_CACHE_SIZE : Z := 32.
Definition ROUTE_MAX : Z := 8.

(** [has_send]: the driver's transmit hook is set. *)
Record netif := Netif {
  name : list Z; mac : list Z; ip_addr : Z; netmask : Z; gateway : Z; dns_server : Z;
  up : Z; has_send : bool }.

Definition blank_netif : netif := Netif (repeat 0 8) (repeat 0 6) 0 0 0 0 0 false.
#[export] Instance netif_inhabited : Inhabited netif := populate blank_netif.

Record arp_entry := ArpEntry { arp_ip : Z; arp_mac : list Z; timestamp : Z; valid : bool }.
Definition blank_arp : arp_entry := ArpEntry 0 (repeat 0 6) 0 false.
#[export] Instance arp_entry_inhabited : Inhabited arp_entry := populate blank_arp.

Record route_entry := RouteEntry {
  r_network : Z; r_netmask : Z; r_gateway : Z; r_iface : option Z }.
Definition blank_route : route_entry := RouteEntry 0 0 0 None.
#[export] Instance route_entry_inhabited : Inhabited route_entry := populate blank_route.

(** The statics of [netif.c], [arp.c] and [ipv4.c]; an interface pointer is an
    index of [interfaces], and NULL is [None]. *)
Record netstk := Netstk {
  interfaces : list netif; iface_count : Z; default_iface : option Z;
  arp_cache : list arp_entry;
  ip_id_counter : Z; routes : list route_entry; route_count : Z;
  wire : list (Z * list Z) }.

Definition set_netifs (s : netstk) l n d : netstk :=
  Netstk l n d (arp_cache s) (ip_id_counter s) (routes s) (route_count s) (wire s).
Definition set_arp_cache (s : netstk) c : netstk :=
  Netstk (interfaces s) (iface_count s) (default_iface s) c (ip_id_counter s)
    (routes s) (route_count s) (wire s).
Definition set_ip (s : netstk) id rs rc : netstk :=
  Netstk (interfaces s) (iface_count s) (default_iface s) (arp_cache s) id rs rc (wire s).
Definition transmit (s : netstk) (i : Z) (frame : list Z) : netstk :=
  Netstk (interfaces s) (iface_count s) (default_iface s) (arp_cache s) (ip_id_counter s)
    (routes s) (route_count s) (wire s ++ [(i, frame)]).

(** The network card driver: the result of its transmit routine, and the
    effect on these layers of the frames it receives when polled. *)
Class NetDriver := {
  drv_send : netif -> list Z -> Z;
  e1000_poll_rx : netstk -> netstk;
}.

(** * Interfaces *)

Definition netif_init (s : netstk) : netstk :=
  set_netifs s (repeat blank_netif (Z.to_nat NETIF_MAX)) 0 None.

Definition netif_register (s : netstk) (nm mac6 : list Z) (send_fn : bool) : netstk * option Z :=
  if NETIF_MAX <=? iface_count s then (s, None)
  else
    let i := iface_count s in
    let '(buf, k) := copy_str (Z.to_nat NETIF_NAME_MAX) (name blank_netif) 0 nm (NETIF_NAME_MAX - 1) 0 in
    let ifc := Netif buf.[k <- 0] (slice mac6 0 6) 0 0 0 0 1 send_fn in
    let d := match default_iface s with None => Some i | d => d end in
    (set_netifs s (interfaces s).[i <- ifc] (i + 1) d, Some i).

Definition netif_get_default (s : netstk) : option Z := default_iface s.

Definition netif_find (s : netstk) (nm : list Z) : option Z :=
  find_first (fun i => strcmp (name (interfaces s).[i]) nm =? 0) (Z.to_nat (iface_count s)) 0.

Definition netif_count (s : netstk) : Z := iface_count s.

Definition netif_get (s : netstk) (index : Z) : option Z :=
  if (index <? 0) || (iface_count s <=? index) then None else Some index.

Definition netif_set_addr (s : netstk) (iface : option Z) (ip mask gw : Z) : netstk :=
  match iface with
  | None => s
  | Some i =>
      let f := (interfaces s).[i] in
      set_netifs s
        (interfaces s).[i <- Netif (name f) (mac f) ip mask gw (dns_server f) (up f) (has_send f)]
        (iface_count s) (default_iface s)
  end.

(** * Ethernet transmit *)

Section driver.
Context {DRV : NetDriver}.

Definition eth_send (s : netstk) (iface : option Z) (dst_mac : list Z) (ethertype : Z)
    (payload : list Z) (payload_len : Z) : option (netstk * Z) :=
  match iface with
  | None => Some (s, -1)
  | Some i =>
      let ifc := (interfaces s).[i] in
      if negb (has_send ifc) then Some (s, -1)
      else if ETH_MTU <? payload_len then Some (s, -1)
      else
        let frame := repeat 0 (Z.to_nat ETH_FRAME_MAX) in
        frame ← store frame 0 (slice dst_mac 0 6 ++ slice (mac ifc) 0 6 ++ le16 (htons ethertype));
        bytes ← load payload 0 payload_len;
        frame ← store frame ETH_HDR_LEN bytes;
        out ← load frame 0 (u16 (ETH_HDR_LEN + payload_len));
        Some (transmit s i out, drv_send ifc out)
  end.

End driver.

(** * Lemmas *)

Definition bytes (l : list Z) : Prop := Forall (fun b => 0 <= b < 256) l.

Lemma land_field h k : 0 <= k -> Z.land h (Z.shiftl 255 k) = h / 2 ^ k mod 256 * 2 ^ k.
Proof.
  intros Hk. rewrite <- Z.shiftl_mul_pow2, <- Z.shiftr_div_pow2 by done.
  change 256 with (2 ^ 8). rewrite <- Z.land_ones by lia.
  rewrite Z.shiftl_land, <- Z.ldiff_ones_r by done. change (Z.ones 8) with 255.
  apply Z.bits_inj'. intros n Hn.
  rewrite !Z.land_spec, Z.ldiff_spec, Z.shiftl_spec, Z.testbit_ones_nonneg by done.
  destruct (Z.ltb_spec n k); [rewrite (Z.testbit_neg_r 255) by lia|]; simpl;
    rewrite ?andb_false_r, ?andb_true_r; done.
Qed.

Lemma htons_arith h : 0 <= h < 65536 -> htons h = h / 256 + 256 * (h mod 256).
Proof.
  intros Hh. unfold htons. rewrite Z.shiftr_div_pow2, Z.shiftl_mul_pow2 by lia.
  rewrite lor_add by (change (2 ^ 8) with 256; split; [apply Z.div_pos|apply Z.div_lt_upper_bound]; lia).
  unfold u16. change (2 ^ 8) with 256.
  rewrite <- (Z.mod_unique (h / 256 + h * 256) 65536 (h / 256) (h / 256 + 256 * (h mod 256))); [done|left|];
    pose proof (Z.div_mod h 256); pose proof (Z.mod_pos_bound h 256);
    pose proof (Z.div_pos h 256); pose proof (Z.div_lt_upper_bound h 256 256); lia.
Qed.

Lemma htons_bound h : 0 <= htons h < 65536.
Proof. apply u16_bound. Qed.

Lemma htons_involutive h : 0 <= h < 65536 -> htons (htons h) = h.
Proof.
  intros Hh. pose proof (htons_bound h). rewrite (htons_arith (htons h)) by done.
  rewrite htons_arith by done. zlia.
Qed.

Lemma htonl_arith h :
  0 <= h < 4294967296 ->
  htonl h = h / 16777216 + 256 * (h / 65536 mod 256) + 65536 * (h / 256 mod 256)
            + 16777216 * (h mod 256).
Proof.
  intros Hh. unfold htonl.
  change 4278190080 with (Z.shiftl 255 24). change 16711680 with (Z.shiftl 255 16).
  change 65280 with (Z.shiftl 255 8). change (Z.land h 255) with (Z.land h (Z.shiftl 255 0)).
  rewrite !land_field, !Z.shiftr_div_pow2, !Z.shiftl_mul_pow2 by lia.
  set (a := h / 2 ^ 24 mod 256 * 2 ^ 24 / 2 ^ 24).
  set (b := h / 2 ^ 16 mod 256 * 2 ^ 16 / 2 ^ 8).
  set (c := u32 _). set (d := u32 _).
  assert (a = h / 16777216 /\ 0 <= a < 256) as [Ea Ha] by (unfold a; zlia).
  assert (b = h / 65536 mod 256 * 2 ^ 8) as Eb by (unfold b; zlia).
  assert (c = h / 256 mod 256 * 2 ^ 16) as Ec by (unfold c, u32; zlia).
  assert (d = h mod 256 * 2 ^ 24) as Ed by (unfold d, u32; zlia).
  clearbody a b c d. rewrite Eb, Ec, Ed.
  pose proof (Z.mod_pos_bound (h / 65536) 256). pose proof (Z.mod_pos_bound (h / 256) 256).
  rewrite (lor_add a), (lor_add (a + _)), (lor_add (a + _ + _)) by lia. lia.
Qed.

Lemma htonl_bound h : 0 <= h < 4294967296 -> 0 <= htonl h < 4294967296.
Proof.
  intros. rewrite htonl_arith by done.
  pose proof (Z.mod_pos_bound (h / 65536) 256). pose proof (Z.mod_pos_bound (h / 256) 256).
  pose proof (Z.mod_pos_bound h 256). zlia.
Qed.

Lemma htonl_word a b c d :
  0 <= a < 256 -> 0 <= b < 256 -> 0 <= c < 256 -> 0 <= d < 256 ->
  htonl (a + 256 * b + 65536 * c + 16777216 * d) = d + 256 * c + 65536 * b + 16777216 * a.
Proof.
  intros. rewrite htonl_arith by lia.
  set (h := a + 256 * b + 65536 * c + 16777216 * d).
  assert (h / 16777216 = d) as -> by (symmetry; apply (Z.div_unique _ _ _ (h - 16777216 * d)); lia).
  assert (h / 65536 = c + 256 * d) as ->
    by (symmetry; apply (Z.div_unique _ _ _ (h - 65536 * (c + 256 * d))); lia).
  assert (h / 256 = b + 256 * (c + 256 * d)) as ->
    by (symmetry; apply (Z.div_unique _ _ _ (h - 256 * (b + 256 * (c + 256 * d)))); lia).
  assert (h mod 256 = a) as -> by (symmetry; apply (Z.mod_unique _ _ (b + 256 * (c + 256 * d))); lia).
  rewrite <- (Z.mod_unique (c + 256 * d) 256 d c), <- (Z.mod_unique (b + 256 * (c + 256 * d)) 256 (c + 256 * d) b)
    by lia. lia.
Qed.

Lemma word_bytes h : 0 <= h < 4294967296 -> exists a b c d,
  0 <= a < 256 /\ 0 <= b < 256 /\ 0 <= c < 256 /\ 0 <= d < 256 /\
  h = a + 256 * b + 65536 * c + 16777216 * d.
Proof.
  intros. exists (h mod 256), (h / 256 mod 256), (h / 65536 mod 256), (h / 16777216).
  pose proof (Z.mod_pos_bound h 256). pose proof (Z.mod_pos_bound (h / 256) 256).
  pose proof (Z.mod_pos_bound (h / 65536) 256).
  split_and!; try lia; zlia.
Qed.

Lemma htonl_involutive h : 0 <= h < 4294967296 -> htonl (htonl h) = h.
Proof.
  intros Hh. destruct (word_bytes h Hh) as (a & b & c & d & ? & ? & ? & ? & ->).
  rewrite htonl_word, htonl_word by done. done.
Qed.

(** ** Packed fields *)

Lemma le16_length v : length (le16 v) = 2%nat. Proof. done. Qed.
Lemma le32_length v : length (le32 v) = 4%nat. Proof. done. Qed.

Lemma le16_value v : 0 <= v < 65536 -> v mod 256 + 256 * (v / 256 mod 256) = v.
Proof. intros. zlia. Qed.

Lemma le16_bytes v : bytes (le16 v).
Proof. repeat constructor; zlia. Qed.

Lemma le32_bytes v : bytes (le32 v).
Proof. repeat constructor; zlia. Qed.

(** ** Checked copies *)

Lemma slice_app_l {A} `{Inhabited A} (l1 l2 : list A) n :
  0 <= n <= Z.of_nat (length l1) -> slice (l1 ++ l2) 0 n = take (Z.to_nat n) l1.
Proof.
  intros Hn. apply list_eq. intros i. destruct (decide (i < Z.to_nat n)%nat) as [Hi|Hi].
  - rewrite <- (Nat2Z.id i), slice_lookup by lia.
    rewrite lookup_take_lt by lia. unfold aget.
    rewrite lookup_total_app_l by lia. by rewrite <- list_lookup_lookup_total_lt by lia.
  - rewrite !lookup_ge_None_2; [done| |].
    + rewrite length_take. lia.
    + unfold slice. rewrite length_fmap, length_seqZ. lia.
Qed.

Lemma slice_take {A} `{Inhabited A} (l : list A) n :
  0 <= n <= Z.of_nat (length l) -> slice l 0 n = take (Z.to_nat n) l.
Proof. intros. by rewrite <- (app_nil_r l) at 1; rewrite slice_app_l. Qed.

Lemma slice_drop {A} `{Inhabited A} (l : list A) o n :
  0 <= o -> slice l o n = slice (drop (Z.to_nat o) l) 0 n.
Proof.
  intros Ho. apply slice_ext. intros i Hi. unfold aget.
  rewrite !list_lookup_total_alt, lookup_drop. do 2 f_equal. lia.
Qed.

Lemma load_Some m off n :
  0 <= off -> 0 <= n -> off + n <= Z.of_nat (length m) ->
  load m off n = Some (take (Z.to_nat n) (drop (Z.to_nat off) m)).
Proof.
  intros Ho Hn Hl. unfold load. rewrite (proj2 (Z.leb_le 0 off)), (proj2 (Z.leb_le _ _)) by lia.
  simpl. rewrite slice_drop, slice_take by (rewrite ?length_drop; lia). done.
Qed.

Lemma load_None m off n : Z.of_nat (length m) < off + n -> load m off n = None.
Proof.
  intros. unfold load. rewrite (proj2 (Z.leb_gt (off + n) _)) by lia. by rewrite andb_false_r.
Qed.

Lemma store_Some m off bs :
  0 <= off -> off + Z.of_nat (length bs) <= Z.of_nat (length m) ->
  store m off bs = Some (take (Z.to_nat off) m ++ bs ++ drop (Z.to_nat off + length bs) m).
Proof.
  intros Ho Hl. unfold store. by rewrite (proj2 (Z.leb_le 0 off)), (proj2 (Z.leb_le _ _)) by lia.
Qed.

Lemma store_None m off bs :
  Z.of_nat (length m) < off + Z.of_nat (length bs) -> store m off bs = None.
Proof.
  intros. unfold store.
  rewrite (proj2 (Z.leb_gt (off + Z.of_nat (length bs)) _)) by lia. by rewrite andb_false_r.
Qed.

(** A header and a payload written one after the other in a buffer are read
    back as their concatenation. *)
Lemma store_header_payload buf hdr pay n :
  n = Z.of_nat (length hdr) ->
  Z.of_nat (length hdr) + Z.of_nat (length pay) <= Z.of_nat (length buf) ->
  exists b1 b2, store buf 0 hdr = Some b1 /\ store b1 n pay = Some b2 /\
    length b2 = length buf /\ exists rest, b2 = hdr ++ pay ++ rest.
Proof.
  intros -> Hl. exists (hdr ++ drop (length hdr) buf).
  assert (length (hdr ++ drop (length hdr) buf) = length buf) as Hlen
    by (rewrite length_app, length_drop; lia).
  eexists. rewrite (store_Some buf), (store_Some (hdr ++ _)) by lia. split_and!; [done|done| |].
  - rewrite !length_app, length_take, length_drop. lia.
  - rewrite take_app_length' by lia. eexists. done.
Qed.

(** ** Frames *)

Definition eth_frame (dst src : list Z) (ethertype : Z) (payload : list Z) : list Z :=
  slice dst 0 6 ++ slice src 0 6 ++ le16 (htons ethertype) ++ payload.

(** Whatever the arguments, [eth_send] stays inside its frame buffer; a
    payload that fits is transmitted after the 14-byte header. *)
Lemma eth_send_spec `{NetDriver} s i dst et payload n :
  has_send (interfaces s).[i] = true ->
  0 <= n <= ETH_MTU -> n <= Z.of_nat (length payload) ->
  let frame := eth_frame dst (mac (interfaces s).[i]) et (take (Z.to_nat n) payload) in
  eth_send s (Some i) dst et payload n = Some (transmit s i frame, drv_send (interfaces s).[i] frame).
Proof.
  intros Hs Hn Hl. unfold eth_send. rewrite Hs. simpl negb. cbv iota.
  rewrite (proj2 (Z.ltb_ge ETH_MTU n)) by lia. cbv zeta.
  set (hdr := slice dst 0 6 ++ slice (mac _) 0 6 ++ le16 (htons et)).
  assert (length hdr = 14%nat) as Hh by done.
  set (pay := take (Z.to_nat n) payload).
  assert (Z.of_nat (length pay) = n) as Hp by (unfold pay; rewrite length_take; lia).
  set (buf := repeat 0 (Z.to_nat ETH_FRAME_MAX)).
  assert (Z.of_nat (length buf) = 1514) as Hb by done. unfold ETH_MTU in *.
  destruct (store_header_payload buf hdr pay ETH_HDR_LEN) as (b1 & b2 & E1 & E2 & Hl2 & rest & E3);
    [by rewrite Hh|lia|].
  rewrite E1. cbn [mbind option_bind]. rewrite load_Some by lia. cbn [mbind option_bind].
  change (Z.to_nat 0) with 0%nat. rewrite drop_0. fold pay. rewrite E2. cbn [mbind option_bind].
  unfold ETH_HDR_LEN. rewrite u16_small by lia. rewrite load_Some by lia. cbn [mbind option_bind].
  rewrite E3. change (Z.to_nat 0) with 0%nat. rewrite drop_0, app_assoc.
  rewrite take_app_length' by (rewrite length_app; lia).
  unfold eth_frame, hdr. by rewrite <- !app_assoc.
Qed.

Lemma eth_send_fails `{NetDriver} s iface dst et payload n :
  match iface with Some i => has_send (interfaces s).[i] = false \/ ETH_MTU < n | None => True end ->
  eth_send s iface dst et payload n = Some (s, -1).
Proof.
  destruct iface as [i|]; [|done]. unfold eth_send. destruct (has_send _); simpl; [|done].
  intros [?|Hn]; [done|]. by rewrite (proj2 (Z.ltb_lt ETH_MTU n)).
Qed.

(** The four bytes of a 32-bit field put together again. *)
Lemma le32_value v : 0 <= v < 4294967296 ->
  v mod 65536 mod 256 + 256 * (v mod 65536 / 256 mod 256) +
  65536 * (v / 65536 mod 256 + 256 * (v / 65536 / 256 mod 256)) = v.
Proof.
  intros Hv. pose proof (Z.div_mod v 65536 ltac:(lia)). pose proof (Z.mod_pos_bound v 65536 ltac:(lia)).
  rewrite le16_value by done. rewrite le16_value by zlia. lia.
Qed.

(** No argument whose payload is in memory makes [eth_send] leave its frame. *)
Lemma eth_send_total `{NetDriver} s iface dst et payload n :
  0 <= n -> n <= Z.of_nat (length payload) -> is_Some (eth_send s iface dst et payload n).
Proof.
  intros Hn Hl. destruct iface as [i|]; [|by eexists].
  destruct (has_send (interfaces s).[i]) eqn:Hs; [|rewrite eth_send_fails by auto; by eexists].
  destruct (decide (n <= ETH_MTU)).
  - rewrite eth_send_spec by done. by eexists.
  - rewrite eth_send_fails by (right; lia). by eexists.
Qed.
