(* ===== verification/Arp.v ===== *)
(** Address resolution: [net/arp.c].

    The cache has 32 entries; an address is learned from every ARP packet
    received.  The theorems show that no address is cached twice, that what was
    learned last is what is resolved, and that only the entry reused for a new
    address is forgotten. *)
From S2P Require Import Prelude.
From S2P Require Import KString.
From S2P Require Import Net.
From Stdlib Require Import ZArith Lia.
From stdpp Require Import base numbers list.

Open Scope Z_scope.
Open Scope lyth_scope.

Definition ARP_HW_ETHERNET : Z := 1.
Definition ARP_OP_REQUEST : Z := 1.
Definition ARP_OP_REPLY : Z := 2.

(** [arp_packet_t] *)
Record arp_packet := ArpPacket {
  hw_type : Z; proto_type : Z; hw_len : Z; proto_len : Z; opcode : Z;
  sender_mac : list Z; sender_ip : Z; target_mac : list Z; target_ip : Z }.
Definition sizeof_arp_packet : Z := 28.

Definition arp_packet_bytes (p : arp_packet) : list Z :=
  le16 (hw_type p) ++ le16 (proto_type p) ++ [hw_len p; proto_len p] ++ le16 (opcode p) ++
  sender_mac p ++ le32 (sender_ip p) ++ target_mac p ++ le32 (target_ip p).

Definition arp_packet_at (data : list Z) : arp_packet :=
  ArpPacket (ld16 data 0) (ld16 data 2) data.[4] data.[5] (ld16 data 6)
    (slice data 8 6) (ld32 data 14) (slice data 18 6) (ld32 data 24).

Definition arp_init (s : netstk) : netstk :=
  set_arp_cache s (repeat blank_arp (Z.to_nat ARP_CACHE_SIZE)).

(** The eviction scan: index and time of the oldest entry. *)
Definition oldest_entry (c : list arp_entry) : Z * Z :=
  for_loop (fun i '(oldest, oldest_tick) =>
    if timestamp c.[i] <? oldest_tick then (i, timestamp c.[i]) else (oldest, oldest_tick))
    (Z.to_nat (ARP_CACHE_SIZE - 1)) 1 (0, timestamp c.[0]).

(** [arp_cache_add] at time [now] ([timer_get_ticks()]). *)
Definition arp_cache_add (c : list arp_entry) (now ip : Z) (m : list Z) : list arp_entry :=
  match find_first (fun i => valid c.[i] && (arp_ip c.[i] =? ip)) (Z.to_nat ARP_CACHE_SIZE) 0 with
  | Some i => c.[i <- ArpEntry (arp_ip c.[i]) m now (valid c.[i])]
  | None =>
      match find_first (fun i => negb (valid c.[i])) (Z.to_nat ARP_CACHE_SIZE) 0 with
      | Some i => c.[i <- ArpEntry ip m now true]
      | None => let '(oldest, _) := oldest_entry c in c.[oldest <- ArpEntry ip m now true]
      end
  end.

Section driver.
Context {DRV : NetDriver}.

Definition arp_rx (s : netstk) (now iface : Z) (data : list Z) (len : Z) : option netstk :=
  if len <? sizeof_arp_packet then Some s
  else
    let pkt := arp_packet_at data in
    let op := ntohs (opcode pkt) in
    let s := set_arp_cache s (arp_cache_add (arp_cache s) now (sender_ip pkt) (sender_mac pkt)) in
    let ifc := (interfaces s).[iface] in
    if op =? ARP_OP_REQUEST then
      if (target_ip pkt =? ip_addr ifc) && negb (ip_addr ifc =? 0) then
        let reply := ArpPacket (htons ARP_HW_ETHERNET) (htons ETHERTYPE_IPV4) 6 4 (htons ARP_OP_REPLY)
                       (slice (mac ifc) 0 6) (ip_addr ifc) (sender_mac pkt) (sender_ip pkt) in
        '(s, _) ← eth_send s (Some iface) (sender_mac pkt) ETHERTYPE_ARP
                    (arp_packet_bytes reply) sizeof_arp_packet;
        Some s
      else Some s
    else Some s.

Definition arp_request (s : netstk) (iface ip : Z) : option netstk :=
  let ifc := (interfaces s).[iface] in
  let req := ArpPacket (htons ARP_HW_ETHERNET) (htons ETHERTYPE_IPV4) 6 4 (htons ARP_OP_REQUEST)
               (slice (mac ifc) 0 6) (ip_addr ifc) (repeat 0 6) ip in
  '(s, _) ← eth_send s (Some iface) ETH_BROADCAST ETHERTYPE_ARP
              (arp_packet_bytes req) sizeof_arp_packet;
  Some s.

(** [Some mac] is result 0 with [mac_out] written, [None] result -1. *)
Definition arp_resolve (s : netstk) (iface ip : Z) : option (netstk * option (list Z)) :=
  let m := not32 (netmask (interfaces s).[iface]) in
  if (ip =? 4294967295) || (Z.land ip m =? m) then Some (s, Some ETH_BROADCAST)
  else
    match find_first (fun i => valid (arp_cache s).[i] && (arp_ip (arp_cache s).[i] =? ip))
            (Z.to_nat ARP_CACHE_SIZE) 0 with
    | Some i => Some (s, Some (arp_mac (arp_cache s).[i]))
    | None => s ← arp_request s iface ip; Some (s, None)
    end.

End driver.

Definition arp_cache_get (s : netstk) (index : Z) : option arp_entry :=
  if (index <? 0) || (ARP_CACHE_SIZE <=? index) then None else Some (arp_cache s).[index].

(** * The cache as a partial map *)

Definition cached (c : list arp_entry) (ip : Z) : option (list Z) :=
  match find_first (fun i => valid c.[i] && (arp_ip c.[i] =? ip)) (Z.to_nat ARP_CACHE_SIZE) 0 with
  | Some i => Some (arp_mac c.[i])
  | None => None
  end.

Definition holds (c : list arp_entry) (i ip : Z) : Prop :=
  0 <= i < ARP_CACHE_SIZE /\ valid c.[i] = true /\ arp_ip c.[i] = ip.

(** Every address is cached in at most one entry. *)
Record arp_wf (c : list arp_entry) : Prop := ArpWf {
  arp_len : Z.of_nat (length c) = ARP_CACHE_SIZE;
  arp_unique : forall i j ip, holds c i ip -> holds c j ip -> i = j;
}.

Lemma arp_init_wf s : arp_wf (arp_cache (arp_init s)).
Proof.
  constructor; [done|]. intros i j ip (Hi & Hv & _). exfalso. revert Hv. simpl.
  unfold ARP_CACHE_SIZE in *. unfold aget. rewrite list_lookup_total_alt.
  change (blank_arp :: _) with (replicate 32 blank_arp).
  by rewrite lookup_replicate_2 by lia.
Qed.

Lemma cached_holds c i ip : arp_wf c -> holds c i ip -> cached c ip = Some (arp_mac c.[i]).
Proof.
  intros Hw (Hi & Hv & Hip). unfold cached.
  destruct (find_first_exists (fun i => valid c.[i] && (arp_ip c.[i] =? ip)) (Z.to_nat ARP_CACHE_SIZE) 0 i)
    as (k & E & _); [lia|by rewrite Hv, (proj2 (Z.eqb_eq _ _) Hip)|].
  rewrite E. apply find_first_Some in E as (Hk & HP & _). bool_to_prop.
  assert (k = i) as -> by (apply (arp_unique c Hw k i ip); (split; [lia|done])). done.
Qed.

Lemma cached_absent c ip : (forall i, ~ holds c i ip) -> cached c ip = None.
Proof.
  intros Hno. unfold cached. destruct (find_first _ _ _) as [k|] eqn:E; [|done].
  apply find_first_Some in E as (Hk & HP & _). bool_to_prop. exfalso.
  apply (Hno k). split; [lia|done].
Qed.

Lemma cached_inv c ip m : cached c ip = Some m -> exists i, holds c i ip /\ arp_mac c.[i] = m.
Proof.
  unfold cached. destruct (find_first _ _ _) as [k|] eqn:E; [|done]. intros [= <-].
  apply find_first_Some in E as (Hk & HP & _). bool_to_prop. exists k. split; [split; [lia|done]|done].
Qed.

Lemma cached_ext c c' ip :
  arp_wf c -> arp_wf c' -> (forall i, holds c i ip <-> holds c' i ip) ->
  (forall i, holds c i ip -> arp_mac c.[i] = arp_mac c'.[i]) -> cached c' ip = cached c ip.
Proof.
  intros Hw Hw' Hh Hm. destruct (cached c ip) as [m|] eqn:E.
  - apply cached_inv in E as (i & Hi & <-). rewrite Hm by done. apply cached_holds; [done|by apply Hh].
  - apply cached_absent. intros i Hi. apply Hh in Hi. by rewrite (cached_holds c i ip) in E.
Qed.

(** Writing one entry with an address that no other entry holds. *)
Lemma arp_write_wf c k ip m now :
  arp_wf c -> 0 <= k < ARP_CACHE_SIZE -> (forall i, holds c i ip -> i = k) ->
  let c' := c.[k <- ArpEntry ip m now true] in
  arp_wf c' /\ cached c' ip = Some m /\
  (forall ip', ip' <> ip -> ~ holds c k ip' -> cached c' ip' = cached c ip').
Proof.
  intros Hw Hk Hip c'. pose proof (arp_len c Hw) as Hl.
  assert (c'.[k] = ArpEntry ip m now true) as Hck by (apply aget_aset_eq; lia).
  assert (forall i, 0 <= i -> i <> k -> c'.[i] = c.[i]) as Hci by (intros; apply aget_aset_ne; lia).
  assert (forall i a, holds c' i a <-> (i = k /\ a = ip) \/ (i <> k /\ holds c i a)) as Hh.
  { intros i a. unfold holds. destruct (decide (i = k)) as [->|Hne].
    - rewrite Hck. simpl. naive_solver.
    - split; [intros (Hi & ?)|intros [?|(_ & Hi & ?)]; [lia|]]; rewrite Hci in * by lia; naive_solver. }
  assert (arp_wf c') as Hw'.
  { constructor; [unfold c'; by rewrite aset_length|].
    intros i j a [[-> ->]|[? Hi]]%Hh [[-> ?]|[? Hj]]%Hh; try done.
    - by apply Hip in Hj.
    - subst a. by apply Hip in Hi.
    - by apply (arp_unique c Hw i j a). }
  split_and!; [done| |].
  - rewrite (cached_holds c' k ip Hw') by (apply Hh; by left). by rewrite Hck.
  - intros a Ha Hka. apply cached_ext; [done|done| |].
    + intros i. rewrite Hh. split; [intros Hi; right; split; [by intros ->|done]|naive_solver].
    + intros i Hi. rewrite Hci; [done|destruct Hi; lia|by intros ->].
Qed.

Lemma oldest_entry_spec c :
  0 <= (oldest_entry c).1 < ARP_CACHE_SIZE /\
  forall j, 0 <= j < ARP_CACHE_SIZE -> timestamp c.[(oldest_entry c).1] <= timestamp c.[j].
Proof.
  unfold oldest_entry.
  pose (I := fun (k : Z) (p : Z * Z) => 0 <= p.1 < k /\ p.2 = timestamp c.[p.1] /\
    forall j, 0 <= j < k -> timestamp c.[p.1] <= timestamp c.[j]).
  enough (I (1 + Z.of_nat (Z.to_nat (ARP_CACHE_SIZE - 1))) (oldest_entry c)) as (? & _ & ?) by done.
  apply (for_loop_ind I); unfold I; simpl.
  - split_and!; [lia|lia|done|]. intros j Hj. by replace j with 0 by lia.
  - intros k [o t] Hk (Ho & Ht & Hmin). simpl in *. case_if; simpl.
    + split_and!; [lia|lia|done|]. intros j Hj. destruct (decide (j = k)) as [->|]; [done|].
      specialize (Hmin j). lia.
    + split_and!; [lia|lia|done|]. intros j Hj. destruct (decide (j = k)) as [->|]; [lia|].
      apply Hmin. lia.
Qed.

(** The entry that [arp_cache_add] writes: that of the address, a free one, or
    the oldest of a full cache. *)
Lemma arp_cache_add_write c now ip m :
  exists k, arp_cache_add c now ip m = c.[k <- ArpEntry ip m now true] /\
    0 <= k < ARP_CACHE_SIZE /\
    (holds c k ip \/
     (forall i, ~ holds c i ip) /\
     (valid c.[k] = false \/
      (forall i, 0 <= i < ARP_CACHE_SIZE -> valid c.[i] = true) /\
      (forall j, 0 <= j < ARP_CACHE_SIZE -> timestamp c.[k] <= timestamp c.[j]))).
Proof.
  unfold arp_cache_add.
  destruct (find_first (fun i => valid c.[i] && _) _ _) as [k|] eqn:E.
  { apply find_first_Some in E as (Hk & HP & _). bool_to_prop. exists k.
    match goal with Hv : valid _ = true |- _ => rewrite Hv end.
    split_and!; [by f_equal; f_equal|lia|lia|]. left. split; [lia|done]. }
  assert (forall i, ~ holds c i ip) as Habs.
  { intros i (Hi & Hv & Ha). rewrite find_first_None in E. specialize (E i ltac:(lia)). simpl in E.
    rewrite Hv, (proj2 (Z.eqb_eq _ _) Ha) in E. done. }
  destruct (find_first (fun i => negb _) _ _) as [k|] eqn:E2.
  - apply find_first_Some in E2 as (Hk & HP & _). bool_to_prop. exists k.
    split_and!; [done|lia|lia|]. right. by auto.
  - destruct (oldest_entry_spec c) as [Hr Hmin]. destruct (oldest_entry c) as [k t] eqn:Eo. simpl in Hr, Hmin.
    exists k. split_and!; [done|lia|lia|]. right. split; [done|]. right. split; [|done].
    intros i Hi. rewrite find_first_None in E2. specialize (E2 i ltac:(lia)). by bool_to_prop.
Qed.

Lemma arp_learn c now ip m :
  arp_wf c -> arp_wf (arp_cache_add c now ip m) /\ cached (arp_cache_add c now ip m) ip = Some m.
Proof.
  intros Hw. destruct (arp_cache_add_write c now ip m) as (k & -> & Hk & Hcase).
  destruct (arp_write_wf c k ip m now Hw Hk) as (? & ? & _); [|done].
  intros i Hi. destruct Hcase as [Hc|[Hno _]]; [by apply (arp_unique c Hw i k ip)|by apply Hno in Hi].
Qed.

(** Learning an address keeps the cache free of duplicates and makes the
    address resolve to the MAC just learned; every other address keeps its
    MAC, except that of the entry with the oldest timestamp when the address
    is new and all 32 entries are in use. *)
Theorem arp_cache_add_spec c now ip m :
  arp_wf c ->
  let c' := arp_cache_add c now ip m in
  arp_wf c' /\ cached c' ip = Some m /\
  exists victim : option Z,
    (forall ip', ip' <> ip -> Some ip' <> victim -> cached c' ip' = cached c ip') /\
    match victim with
    | None => True
    | Some v => cached c ip = None /\ (forall i, 0 <= i < ARP_CACHE_SIZE -> valid c.[i] = true) /\
        exists k, holds c k v /\
          forall j, 0 <= j < ARP_CACHE_SIZE -> timestamp c.[k] <= timestamp c.[j]
    end.
Proof.
  intros Hw c'. destruct (arp_learn c now ip m Hw) as [Hw' Hc']. split_and!; [done|done|].
  unfold c' in *. clear c'.
  destruct (arp_cache_add_write c now ip m) as (k & E & Hk & Hcase). rewrite E in *.
  destruct (arp_write_wf c k ip m now Hw Hk) as (_ & _ & Hrest).
  { intros i Hi. destruct Hcase as [Hc|[Hno _]]; [by apply (arp_unique c Hw i k ip)|by apply Hno in Hi]. }
  destruct Hcase as [Hc|[Hno [Hfree|[Hfull Hmin]]]].
  - exists None. split; [|done]. intros a Ha _. apply Hrest; [done|]. intros (_ & _ & Hka).
    destruct Hc as (_ & _ & ?). congruence.
  - exists None. split; [|done]. intros a Ha _. apply Hrest; [done|]. intros (_ & Hv & _). congruence.
  - exists (Some (arp_ip c.[k])). split.
    + intros a Ha Hne. apply Hrest; [done|]. intros (_ & _ & <-). done.
    + split_and!; [by apply cached_absent|done|]. exists k. split; [|done].
      split; [lia|split; [by apply Hfull|done]].
Qed.

Lemma arp_cache_add_spec_witness :
  exists c', arp_cache_add (repeat blank_arp 32) 7 100 [1; 2; 3; 4; 5; 6] = c' /\
    cached c' 100 = Some [1; 2; 3; 4; 5; 6].
Proof.
  eexists. split; [reflexivity|]. apply arp_cache_add_spec.
  exact (arp_init_wf (Netstk [] 0 None [] 0 [] 0 [])).
Defined.

(** * The request and reply exchange *)

Record packet_ok (p : arp_packet) : Prop := PacketOk {
  pk_fields : 0 <= hw_type p < 65536 /\ 0 <= proto_type p < 65536 /\ 0 <= opcode p < 65536 /\
              0 <= sender_ip p < 4294967296 /\ 0 <= target_ip p < 4294967296;
  pk_macs : length (sender_mac p) = 6%nat /\ length (target_mac p) = 6%nat;
}.

Lemma arp_packet_bytes_length p : packet_ok p -> length (arp_packet_bytes p) = 28%nat.
Proof. intros [_ [H1 H2]]. unfold arp_packet_bytes. rewrite !length_app, H1, H2. done. Qed.

Lemma arp_packet_at_bytes x0 x1 x2 x3 x4 x5 x6 x7 x8 x9 x10 x11 x12 x13 x14 x15 x16 x17 x18 x19 x20 x21 x22 x23 x24 x25 x26 x27 rest :
  arp_packet_at ([x0; x1; x2; x3; x4; x5; x6; x7; x8; x9; x10; x11; x12; x13; x14; x15; x16; x17; x18; x19; x20; x21; x22; x23; x24; x25; x26; x27] ++ rest)
  = ArpPacket (x0 + 256 * x1) (x2 + 256 * x3) x4 x5 (x6 + 256 * x7)
      [x8; x9; x10; x11; x12; x13] (x14 + 256 * x15 + 65536 * (x16 + 256 * x17))
      [x18; x19; x20; x21; x22; x23] (x24 + 256 * x25 + 65536 * (x26 + 256 * x27)).
Proof. reflexivity. Qed.

Lemma arp_packet_roundtrip p rest : packet_ok p -> arp_packet_at (arp_packet_bytes p ++ rest) = p.
Proof.
  destruct p as [a b c d e m1 ip1 m2 ip2]. intros [(Ha & Hb & He & H1 & H2) [Hm1 Hm2]]. simpl in *.
  destruct m1 as [|? [|? [|? [|? [|? [|? [|??]]]]]]]; try done.
  destruct m2 as [|? [|? [|? [|? [|? [|? [|??]]]]]]]; try done.
  etransitivity; [apply arp_packet_at_bytes|].
  rewrite !le32_value, !le16_value by done. done.
Qed.

(** What a host learns and sends when it receives an ARP packet. *)
Lemma arp_rx_spec `{NetDriver} s now i p rest len :
  packet_ok p -> 28 <= len -> has_send (interfaces s).[i] = true ->
  0 <= ip_addr (interfaces s).[i] < 4294967296 ->
  let ifc := (interfaces s).[i] in
  let s1 := set_arp_cache s (arp_cache_add (arp_cache s) now (sender_ip p) (sender_mac p)) in
  let reply := ArpPacket (htons ARP_HW_ETHERNET) (htons ETHERTYPE_IPV4) 6 4 (htons ARP_OP_REPLY)
                 (slice (mac ifc) 0 6) (ip_addr ifc) (sender_mac p) (sender_ip p) in
  arp_rx s now i (arp_packet_bytes p ++ rest) len
  = Some (if (ntohs (opcode p) =? ARP_OP_REQUEST) && (target_ip p =? ip_addr ifc) && negb (ip_addr ifc =? 0)
          then transmit s1 i (eth_frame (sender_mac p) (mac ifc) ETHERTYPE_ARP (arp_packet_bytes reply))
          else s1).
Proof.
  intros Hp Hlen Hs Hip ifc s1 reply. unfold arp_rx.
  rewrite (proj2 (Z.ltb_ge len sizeof_arp_packet)) by (unfold sizeof_arp_packet; lia). cbv zeta.
  rewrite arp_packet_roundtrip by done. cbn [interfaces set_arp_cache]. fold ifc. fold s1. fold reply.
  destruct (ntohs (opcode p) =? ARP_OP_REQUEST); [|done]. simpl andb.
  destruct ((target_ip p =? ip_addr ifc) && negb (ip_addr ifc =? 0)); [|done].
  assert (packet_ok reply) as Hr.
  { destruct Hp as [(?&?&?&?&?) [Hm ?]]. constructor; simpl; [|done].
    pose proof (htons_bound 1). pose proof (htons_bound 2048). pose proof (htons_bound 2).
    unfold ARP_HW_ETHERNET, ARP_OP_REPLY, ETHERTYPE_IPV4. done. }
  pose proof (arp_packet_bytes_length reply Hr) as Hl.
  rewrite (eth_send_spec s1) by (unfold sizeof_arp_packet, ETH_MTU; rewrite ?Hl; done).
  cbn [mbind option_bind]. rewrite take_ge by (rewrite Hl; done). done.
Qed.

Lemma arp_request_spec `{NetDriver} s i ip :
  0 <= ip < 4294967296 -> has_send (interfaces s).[i] = true ->
  0 <= ip_addr (interfaces s).[i] < 4294967296 ->
  let ifc := (interfaces s).[i] in
  let req := ArpPacket (htons ARP_HW_ETHERNET) (htons ETHERTYPE_IPV4) 6 4 (htons ARP_OP_REQUEST)
               (slice (mac ifc) 0 6) (ip_addr ifc) (repeat 0 6) ip in
  packet_ok req /\
  arp_request s i ip
  = Some (transmit s i (eth_frame ETH_BROADCAST (mac ifc) ETHERTYPE_ARP (arp_packet_bytes req))).
Proof.
  intros Hip Hs Hif ifc req.
  assert (packet_ok req) as Hr.
  { constructor; simpl; [|done].
    pose proof (htons_bound 1). pose proof (htons_bound 2048).
    unfold ARP_HW_ETHERNET, ARP_OP_REQUEST, ETHERTYPE_IPV4. done. }
  split; [done|]. unfold arp_request. cbv zeta. fold ifc. fold req.
  pose proof (arp_packet_bytes_length req Hr) as Hl.
  rewrite eth_send_spec by (unfold sizeof_arp_packet, ETH_MTU; rewrite ?Hl; done).
  cbn [mbind option_bind]. rewrite take_ge by (rewrite Hl; done). done.
Qed.

(** A configured interface with a driver. *)
Record host_ok (s : netstk) (i : Z) : Prop := HostOk {
  h_arp : arp_wf (arp_cache s);
  h_send : has_send (interfaces s).[i] = true;
  h_ip : 0 < ip_addr (interfaces s).[i] < 4294967296;
  h_mac : length (mac (interfaces s).[i]) = 6%nat;
}.

(** [ip] is a broadcast address of the interface. *)
Definition broadcast (s : netstk) (i ip : Z) : bool :=
  let m := not32 (netmask (interfaces s).[i]) in (ip =? 4294967295) || (Z.land ip m =? m).

Lemma arp_resolve_cached `{NetDriver} s i ip m :
  broadcast s i ip = false -> cached (arp_cache s) ip = Some m ->
  arp_resolve s i ip = Some (s, Some m).
Proof.
  unfold broadcast, arp_resolve, cached. intros ->. by destruct (find_first _ _ _); intros [= <-].
Qed.

Lemma arp_resolve_unknown `{NetDriver} s i ip :
  broadcast s i ip = false -> cached (arp_cache s) ip = None ->
  arp_resolve s i ip = (s ← arp_request s i ip; Some (s, None)).
Proof.
  unfold broadcast, arp_resolve, cached. intros ->. by destruct (find_first _ _ _).
Qed.

Lemma mac_slice s i : host_ok s i -> slice (mac (interfaces s).[i]) 0 6 = mac (interfaces s).[i].
Proof.
  intros Hh. pose proof (h_mac s i Hh) as Hm. rewrite slice_take by lia. by apply take_ge; lia.
Qed.

(** The request that one host sends for an uncached address, received by
    the host that owns it, makes that host learn the asker's address and reply;
    the reply, received by the asker, makes the address resolve to the owner's
    MAC. *)
Theorem arp_exchange `{NetDriver} a i b j t1 t2 :
  host_ok a i -> host_ok b j ->
  let ipA := ip_addr (interfaces a).[i] in
  let ipB := ip_addr (interfaces b).[j] in
  broadcast a i ipB = false -> cached (arp_cache a) ipB = None ->
  exists a1 request b1 reply a2,
    arp_resolve a i ipB = Some (a1, None) /\ wire a1 = wire a ++ [(i, request)] /\
    arp_rx b t1 j (drop 14 request) (Z.of_nat (length request) - 14) = Some b1 /\
    wire b1 = wire b ++ [(j, reply)] /\
    cached (arp_cache b1) ipA = Some (mac (interfaces a).[i]) /\
    arp_rx a1 t2 i (drop 14 reply) (Z.of_nat (length reply) - 14) = Some a2 /\
    wire a2 = wire a1 /\
    arp_resolve a2 i ipB = Some (a2, Some (mac (interfaces b).[j])).
Proof.
  intros Ha Hb ipA ipB Hbc Hc. pose proof (h_ip a i Ha). pose proof (h_ip b j Hb).
  fold ipA in H0. fold ipB in H1.
  rewrite arp_resolve_unknown by done.
  destruct (arp_request_spec a i ipB) as [Hreq ->]; [lia|apply Ha|fold ipA; lia|].
  cbn [mbind option_bind]. fold ipA in Hreq |- *. rewrite (mac_slice a i Ha) in Hreq |- *.
  set (req := ArpPacket _ _ _ _ _ _ _ _ _) in Hreq |- *.
  set (fr := eth_frame ETH_BROADCAST (mac (interfaces a).[i]) ETHERTYPE_ARP (arp_packet_bytes req)).
  exists (transmit a i fr), fr.
  assert (forall p d m t, packet_ok p ->
    drop 14 (eth_frame d m t (arp_packet_bytes p)) = arp_packet_bytes p ++ [] /\
    Z.of_nat (length (eth_frame d m t (arp_packet_bytes p))) - 14 = 28) as Hframe.
  { intros p d m t Hp. split; [by rewrite app_nil_r|]. unfold eth_frame. rewrite !length_app.
    rewrite arp_packet_bytes_length by done. done. }
  destruct (Hframe req ETH_BROADCAST (mac (interfaces a).[i]) ETHERTYPE_ARP Hreq) as [Ed El].
  fold fr in Ed, El. rewrite Ed, El.
  rewrite (arp_rx_spec b) by (first [done|apply Hb|fold ipB; lia]). fold ipB.
  rewrite (mac_slice b j Hb).
  assert ((ntohs (opcode req) =? ARP_OP_REQUEST) && (target_ip req =? ipB) && negb (ipB =? 0) = true) as ->.
  { change (target_ip req) with ipB. rewrite (Z.eqb_refl ipB), (proj2 (Z.eqb_neq ipB 0)) by lia. reflexivity. }
  set (rep := ArpPacket _ _ _ _ _ (mac (interfaces b).[j]) _ _ _).
  assert (packet_ok rep) as Hrep.
  { constructor; [|split; [apply Hb|apply Ha]]. cbn. split_and!; done || lia. }
  eexists _, (eth_frame (sender_mac req) (mac (interfaces b).[j]) ETHERTYPE_ARP (arp_packet_bytes rep)).
  destruct (Hframe rep (sender_mac req) (mac (interfaces b).[j]) ETHERTYPE_ARP Hrep) as [-> ->].
  destruct (arp_learn (arp_cache b) t1 (sender_ip req) (sender_mac req) (h_arp b j Hb)) as [_ HcB].
  rewrite (arp_rx_spec (transmit a i fr)) by (first [done|apply Ha|fold ipA; cbn; lia]).
  replace ((ntohs (opcode rep) =? ARP_OP_REQUEST)) with false by reflexivity. cbn [andb].
  eexists. split_and!; try done.
  apply arp_resolve_cached; [exact Hbc|].
  apply (arp_learn (arp_cache a) t2 (sender_ip rep) (sender_mac rep) (h_arp a i Ha)).
Qed.

(** A driver that accepts every frame and receives none. *)
Definition quiet_driver : NetDriver := {| drv_send := fun _ _ => 0; e1000_poll_rx := fun s => s |}.

Definition example_host (last : Z) : netstk :=
  Netstk [Netif [] [2; 0; 0; 0; 0; last] (192 + 256 * 168 + 65536 * 1 + 16777216 * last)
            16777215 0 0 1 true]
    1 (Some 0) (repeat blank_arp 32) 1 (repeat blank_route 8) 0 [].

Lemma arp_exchange_witness :
  exists a1 a2, arp_resolve (DRV := quiet_driver) (example_host 10) 0 (ip_addr (interfaces (example_host 20)).[0]) = Some (a1, None) /\
    arp_resolve (DRV := quiet_driver) a2 0 (ip_addr (interfaces (example_host 20)).[0]) = Some (a2, Some [2; 0; 0; 0; 0; 20]).
Proof.
  destruct (arp_exchange (H := quiet_driver) (example_host 10) 0 (example_host 20) 0 5 6)
    as (a1 & req & b1 & rep & a2 & H1 & _ & _ & _ & _ & _ & _ & H2).
  - constructor; [exact (arp_init_wf (example_host 10))|reflexivity|vm_compute; done|reflexivity].
  - constructor; [exact (arp_init_wf (example_host 20))|reflexivity|vm_compute; done|reflexivity].
  - vm_compute. reflexivity.
  - vm_compute. reflexivity.
  - exists a1, a2. split; [exact H1|exact H2].
Defined.
