(* ===== verification/Ipv4.v ===== *)
(** Internet protocol: [net/ipv4.c].

    The header checksum, the acceptance test of received packets, the transmit
    path with address resolution, and the routing table.  Delivery to the
    transport protocols is in [NetStack]. *)
From S2P Require Import Prelude.
From S2P Require Import Net.
From S2P Require Import Arp.
From Stdlib Require Import ZArith Lia.
From stdpp Require Import base numbers list.

Open Scope Z_scope.
Open Scope lyth_scope.

Definition IP_PROTO_ICMP : Z := 1.
Definition IP_PROTO_TCP : Z := 6.
Definition IP_PROTO_UDP : Z := 17.
Definition IP_HDR_MIN_LEN : Z := 20.

(** * Checksum *)

(** The 16-bit words of the first [len] bytes added to [sum]. *)
Definition sum_words (data : list Z) (len sum : Z) : Z :=
  let sum := for_loop (fun i sum => u32 (sum + ld16 data (2 * i))) (Z.to_nat (len / 2)) 0 sum in
  if len mod 2 =? 1 then u32 (sum + data.[len - 1]) else sum.

(** [while (sum >> 16) sum = (sum & 0xFFFF) + (sum >> 16);] *)
Fixpoint fold_carry (fuel : nat) (sum : Z) : Z :=
  match fuel with
  | O => sum
  | S f => if Z.shiftr sum 16 =? 0 then sum
           else fold_carry f (u32 (Z.land sum 65535 + Z.shiftr sum 16))
  end.

(** Three rounds end the loop for every 32-bit sum ([fold_carry_done]). *)
Definition finish_sum (sum : Z) : Z := u16 (Z.lnot (fold_carry 3 sum)).

Definition ipv4_checksum (data : list Z) (len : Z) : Z := finish_sum (sum_words data len 0).

(** * Header *)

Record ipv4_header := Ipv4Header {
  version_ihl : Z; tos : Z; total_length : Z; identification : Z; flags_fragment : Z;
  ttl : Z; protocol : Z; checksum : Z; src_ip : Z; dst_ip : Z }.

Definition ipv4_header_bytes (h : ipv4_header) : list Z :=
  [version_ihl h; tos h] ++ le16 (total_length h) ++ le16 (identification h) ++
  le16 (flags_fragment h) ++ [ttl h; protocol h] ++ le16 (checksum h) ++
  le32 (src_ip h) ++ le32 (dst_ip h).

Definition ipv4_header_at (data : list Z) : ipv4_header :=
  Ipv4Header data.[0] data.[1] (ld16 data 2) (ld16 data 4) (ld16 data 6) data.[8] data.[9]
    (ld16 data 10) (ld32 data 12) (ld32 data 16).

Definition with_checksum (h : ipv4_header) (c : Z) : ipv4_header :=
  Ipv4Header (version_ihl h) (tos h) (total_length h) (identification h) (flags_fragment h)
    (ttl h) (protocol h) c (src_ip h) (dst_ip h).

(** * Initialisation and routes *)

Definition ipv4_init (s : netstk) : netstk :=
  set_ip s 1 (repeat blank_route (Z.to_nat ROUTE_MAX)) 0.

Definition route_add (s : netstk) (network mask gw : Z) (iface : option Z) : netstk :=
  if ROUTE_MAX <=? route_count s then s
  else set_ip s (ip_id_counter s)
         (routes s).[route_count s <- RouteEntry network mask gw iface] (route_count s + 1).

(** The interface and [*next_hop_out]. *)
Definition route_lookup (s : netstk) (dst : Z) : option Z * Z :=
  let '(best, _, best_gw) :=
    for_loop (fun i '(best, best_mask, best_gw) =>
      let r := (routes s).[i] in
      if Z.land dst (r_netmask r) =? r_network r then
        if best_mask <=? r_netmask r then (r_iface r, r_netmask r, r_gateway r)
        else (best, best_mask, best_gw)
      else (best, best_mask, best_gw))
      (Z.to_nat (route_count s)) 0 (None, 0, 0) in
  (best, if best_gw =? 0 then dst else best_gw).

(** * Receive *)

(** What is handed to a transport protocol. *)
Record datagram := Datagram {
  d_proto : Z; d_src : Z; d_dst : Z; d_payload : list Z; d_len : Z }.

(** [ipv4_rx] up to the dispatch: [Some None] drops the packet; [None] is a
    read outside the packet's buffer. *)
Definition ipv4_input (s : netstk) (iface : Z) (data : list Z) (len : Z) : option (option datagram) :=
  if len <? IP_HDR_MIN_LEN then Some None
  else
    let hdr := ipv4_header_at data in
    let version := Z.land (Z.shiftr (version_ihl hdr) 4) 15 in
    let ihl := u8 (Z.land (version_ihl hdr) 15 * 4) in
    if negb (version =? 4) || (ihl <? IP_HDR_MIN_LEN) then Some None
    else
      let total_len := ntohs (total_length hdr) in
      if len <? total_len then Some None
      else
        h ← load data 0 ihl;
        if negb (ipv4_checksum h ihl =? 0) then Some None
        else
          let ifc := (interfaces s).[iface] in
          let dst := dst_ip hdr in
          let m := not32 (netmask ifc) in
          if negb (dst =? ip_addr ifc) && negb (dst =? 4294967295) && negb (Z.land dst m =? m)
          then Some None
          else Some (Some (Datagram (protocol hdr) (src_ip hdr) dst
                             (drop (Z.to_nat ihl) data) (u16 (total_len - ihl)))).

(** * Transmit *)

Section driver.
Context {DRV : NetDriver}.

(** The delay loop polls the card at the multiples of 65536 below 500000. *)
Definition poll_delay (s : netstk) : netstk := Nat.iter 8 e1000_poll_rx s.

Fixpoint resolve_retry (n : nat) (s : netstk) (iface next_hop : Z)
    : option (netstk * option (list Z)) :=
  match n with
  | O => Some (s, None)
  | S n' =>
      '(s, r) ← arp_resolve (poll_delay s) iface next_hop;
      match r with
      | Some m => Some (s, Some m)
      | None => resolve_retry n' s iface next_hop
      end
  end.

Definition ipv4_send (s : netstk) (iface : option Z) (dst proto : Z)
    (payload : list Z) (payload_len : Z) : option (netstk * Z) :=
  let iface := match iface with
               | Some i => Some i
               | None => match (route_lookup s dst).1 with
                         | Some i => Some i
                         | None => netif_get_default s
                         end
               end in
  match iface with
  | None => Some (s, -1)
  | Some i =>
      let ifc := (interfaces s).[i] in
      let total_len := u16 (IP_HDR_MIN_LEN + payload_len) in
      if ETH_MTU <? total_len then Some (s, -1)
      else
        let packet := repeat 0 (Z.to_nat ETH_MTU) in
        let hdr := Ipv4Header 69 0 (htons total_len) (htons (ip_id_counter s)) 0 64 proto 0
                     (ip_addr ifc) dst in
        let s := set_ip s (u16 (ip_id_counter s + 1)) (routes s) (route_count s) in
        let hdr := with_checksum hdr (ipv4_checksum (ipv4_header_bytes hdr) IP_HDR_MIN_LEN) in
        packet ← store packet 0 (ipv4_header_bytes hdr);
        bytes ← load payload 0 payload_len;
        packet ← store packet IP_HDR_MIN_LEN bytes;
        let next_hop :=
          if negb (gateway ifc =? 0)
             && negb (Z.land dst (netmask ifc) =? Z.land (ip_addr ifc) (netmask ifc))
          then gateway ifc else dst in
        '(s, r) ← arp_resolve s i next_hop;
        '(s, r) ← match r with
                  | Some m => Some (s, Some m)
                  | None => resolve_retry 3 s i next_hop
                  end;
        match r with
        | Some dst_mac => eth_send s (Some i) dst_mac ETHERTYPE_IPV4 packet total_len
        | None => Some (s, -1)
        end
  end.

End driver.

(** * Printing *)

Definition ip4_addr (a b c d : Z) : Z :=
  Z.lor (Z.lor (Z.lor a (Z.shiftl b 8)) (Z.shiftl c 16)) (Z.shiftl d 24).

(** [buf[pos++] = c] *)
Definition put (c : Z) '(buf, pos) : list Z * Z := (buf.[pos <- c], pos + 1).

Definition ip4_to_str (ip : Z) (buf : list Z) : list Z :=
  let parts := [u8 ip; u8 (Z.shiftr ip 8); u8 (Z.shiftr ip 16); u8 (Z.shiftr ip 24)] in
  let '(buf, pos) :=
    for_loop (fun p bp =>
      let v := parts.[p] in
      let bp := if 100 <=? v then put (48 + v / 100) bp else bp in
      let bp := if 10 <=? v then put (48 + v / 10 mod 10) bp else bp in
      let bp := put (48 + v mod 10) bp in
      if p <? 3 then put 46 bp else bp) 4 0 (buf, 0) in
  buf.[pos <- 0].

(** * Checksum arithmetic *)

(** The sum of the little-endian 16-bit words of a byte string, an odd last
    byte counting as a word. *)
Fixpoint wsum (l : list Z) : Z :=
  match l with
  | [] => 0
  | [a] => a
  | a :: b :: l' => a + 256 * b + wsum l'
  end.

Lemma wsum_bound l : bytes l -> 0 <= wsum l <= 65535 * Z.of_nat ((length l + 1) / 2).
Proof.
  remember (length l) as n eqn:E. revert l E. induction (lt_wf n) as [n _ IH]. intros l -> Hb.
  destruct l as [|a [|b l]]; cbn [wsum length].
  - done.
  - inversion Hb; subst. change ((1 + 1) / 2)%nat with 1%nat. lia.
  - inversion Hb as [|? ? Ha Hb']; subst. inversion Hb' as [|? ? Hbb Hb'']; subst.
    specialize (IH (length l) ltac:(simpl; lia) l eq_refl Hb'').
    replace (S (S (length l)) + 1)%nat with (length l + 1 + 1 * 2)%nat by lia.
    rewrite Nat.div_add by lia. lia.
Qed.

Lemma wsum_app l1 l2 : Nat.even (length l1) = true -> wsum (l1 ++ l2) = wsum l1 + wsum l2.
Proof.
  remember (length l1) as n eqn:E. revert l1 E. induction (lt_wf n) as [n _ IH]. intros l1 -> He.
  destruct l1 as [|a [|b l]]; [done|done|]. cbn [wsum app].
  rewrite (IH (length l) ltac:(simpl; lia) l eq_refl He). lia.
Qed.

Lemma sum_loop_wsum data (k : nat) lo sum :
  bytes data -> 0 <= lo -> 2 * (lo + Z.of_nat k) <= Z.of_nat (length data) ->
  0 <= sum -> sum + 65535 * Z.of_nat k < 4294967296 ->
  for_loop (fun i sum => u32 (sum + ld16 data (2 * i))) k lo sum
  = sum + wsum (take (2 * k) (drop (Z.to_nat (2 * lo)) data)).
Proof.
  intros Hd. revert lo sum. induction k as [|k IH]; intros lo sum Hlo Hk Hs Hb; simpl for_loop.
  { rewrite take_0. simpl. lia. }
  assert (exists a b rest, drop (Z.to_nat (2 * lo)) data = a :: b :: rest /\
    ld16 data (2 * lo) = a + 256 * b /\ drop (Z.to_nat (2 * (lo + 1))) data = rest /\
    0 <= a < 256 /\ 0 <= b < 256) as (a & b & rest & E1 & E2 & E3 & Ha & Hbb).
  { pose proof (aget_lookup data (2 * lo) ltac:(lia)) as La.
    pose proof (aget_lookup data (2 * lo + 1) ltac:(lia)) as Lb.
    exists data.[2 * lo], data.[2 * lo + 1], (drop (Z.to_nat (2 * (lo + 1))) data). split_and!; try done.
    - rewrite (drop_S data data.[2 * lo]) by done. f_equal.
      replace (S (Z.to_nat (2 * lo))) with (Z.to_nat (2 * lo + 1)) by lia.
      rewrite (drop_S data data.[2 * lo + 1]) by done. do 2 f_equal. lia.
    - eapply (Forall_lookup_1 _ _ _ _ Hd La).
    - eapply (Forall_lookup_1 _ _ _ _ Hd La).
    - eapply (Forall_lookup_1 _ _ _ _ Hd Lb).
    - eapply (Forall_lookup_1 _ _ _ _ Hd Lb). }
  rewrite E2, u32_small by lia. rewrite IH by lia. rewrite E1, E3.
  replace (2 * S k)%nat with (S (S (2 * k))) by lia. cbn [take wsum]. lia.
Qed.

Lemma sum_words_wsum data len sum :
  bytes data -> 0 <= len <= 65535 -> len <= Z.of_nat (length data) ->
  0 <= sum < 2147483648 ->
  sum_words data len sum = sum + wsum (take (Z.to_nat len) data).
Proof.
  intros Hd Hlen Hl Hs. unfold sum_words. cbv zeta.
  assert (0 <= len / 2 <= 32767 /\ len = 2 * (len / 2) + len mod 2 /\ 0 <= len mod 2 < 2) as (Hq & Hm & Hr)
    by zlia.
  rewrite sum_loop_wsum by (done || lia). change (Z.to_nat (2 * 0)) with 0%nat. rewrite drop_0.
  case_if.
  - set (k := Z.to_nat (len / 2)).
    assert (length (take (2 * k) data) = (2 * k)%nat) as Ht by (rewrite length_take; lia).
    assert (0 <= wsum (take (2 * k) data) <= 65535 * 32767) as Hw.
    { pose proof (wsum_bound (take (2 * k) data) (Forall_take _ _ _ Hd)) as Hw. rewrite Ht in Hw.
      replace (2 * k + 1)%nat with (1 + k * 2)%nat in Hw by lia. rewrite Nat.div_add in Hw by lia.
      change (1 / 2)%nat with 0%nat in Hw. lia. }
    pose proof (aget_lookup data (len - 1) ltac:(lia)) as La.
    pose proof (Forall_lookup_1 _ _ _ _ Hd La) as Ha. simpl in Ha.
    rewrite u32_small by lia.
    replace (Z.to_nat len) with (S (2 * k)) by lia.
    rewrite (take_S_r data (2 * k) data.[len - 1]) by (rewrite <- La; f_equal; lia).
    rewrite wsum_app by (rewrite Ht; apply Nat.even_spec; by exists k). simpl. lia.
  - do 3 f_equal. lia.
Qed.

Lemma fold_step sum :
  0 <= sum < 4294967296 ->
  let t := u32 (Z.land sum 65535 + Z.shiftr sum 16) in
  t = sum - 65535 * (sum / 65536) /\ 0 <= t <= 65535 + sum / 65536 /\ (0 < sum -> 0 < t).
Proof.
  intros Hs. change 65535 with (Z.ones 16) at 1.
  rewrite Z.land_ones, Z.shiftr_div_pow2 by lia. change (2 ^ 16) with 65536.
  assert (0 <= sum / 65536 < 65536) by zlia. assert (0 <= sum mod 65536 < 65536) by zlia.
  rewrite u32_small by lia. cbv zeta.
  pose proof (Z.div_mod sum 65536 ltac:(lia)). lia.
Qed.

(** Three rounds leave a 16-bit value congruent to the sum modulo 65535. *)
Lemma fold_carry_done sum :
  0 <= sum < 4294967296 ->
  0 <= fold_carry 3 sum < 65536 /\ (exists q, 0 <= q /\ fold_carry 3 sum = sum - 65535 * q) /\
  (0 < sum -> 0 < fold_carry 3 sum).
Proof.
  intros Hs.
  assert (forall s, 0 <= s -> (Z.shiftr s 16 =? 0) = (s <? 65536)) as Hend.
  { intros s Hr. rewrite Z.shiftr_div_pow2 by lia. change (2 ^ 16) with 65536.
    destruct (Z.ltb_spec s 65536); [by rewrite Z.div_small by lia|]. apply Z.eqb_neq. zlia. }
  assert (forall f s, fold_carry (S f) s =
    if Z.shiftr s 16 =? 0 then s else fold_carry f (u32 (Z.land s 65535 + Z.shiftr s 16))) as Hf by done.
  destruct (fold_step sum Hs) as (C1 & B1 & P1).
  set (t1 := u32 (Z.land sum 65535 + Z.shiftr sum 16)) in *.
  assert (sum / 65536 < 65536) as Hd1 by (apply Z.div_lt_upper_bound; lia).
  rewrite Hf, Hend by lia. destruct (Z.ltb_spec sum 65536).
  { split_and!; [lia|lia|by exists 0; lia|done]. }
  destruct (fold_step t1 ltac:(lia)) as (C2 & B2 & P2). fold t1.
  set (t2 := u32 (Z.land t1 65535 + Z.shiftr t1 16)) in *.
  assert (t1 / 65536 < 2) as Hd2 by (apply Z.div_lt_upper_bound; lia).
  rewrite Hf, Hend by lia. destruct (Z.ltb_spec t1 65536).
  { split_and!; [lia|lia|exists (sum / 65536); lia|lia]. }
  destruct (fold_step t2 ltac:(lia)) as (C3 & B3 & P3). fold t2.
  set (t3 := u32 (Z.land t2 65535 + Z.shiftr t2 16)) in *.
  rewrite Hf, Hend by lia. destruct (Z.ltb_spec t2 65536).
  { split_and!; [lia|lia|by exists (sum / 65536 + t1 / 65536); lia|lia]. }
  assert (t2 = 65536) as E by lia. rewrite E in C3. change (65536 / 65536) with 1 in C3.
  fold t3. simpl fold_carry. split_and!; [lia|lia|by exists (sum / 65536 + t1 / 65536 + 1); lia|lia].
Qed.

(** The complement stored in the checksum field makes the sum verify. *)
Lemma finish_sum_verifies sum :
  0 <= sum < 2147483648 ->
  0 <= finish_sum sum < 65536 /\ finish_sum (sum + finish_sum sum) = 0.
Proof.
  intros Hs. destruct (fold_carry_done sum ltac:(lia)) as (B1 & (q1 & Q1 & E1) & P1).
  assert (forall f, 0 <= f < 65536 -> u16 (Z.lnot f) = 65535 - f) as Hnot.
  { intros f Hf. unfold u16, Z.lnot. rewrite <- (Z.mod_unique (Z.pred (- f)) 65536 (-1) (65535 - f)); lia. }
  unfold finish_sum at 1 2 4. rewrite (Hnot _ B1). split; [lia|].
  set (f := fold_carry 3 sum) in *.
  destruct (fold_carry_done (sum + (65535 - f)) ltac:(lia)) as (B2 & (q2 & Q2 & E2) & P2).
  unfold finish_sum. rewrite (Hnot _ B2). destruct (decide (sum = 0)) as [Ez|]; [|lia].
  assert (f = 0) by (unfold f; rewrite Ez; reflexivity). lia.
Qed.

(** * Headers *)

Record header_ok (h : ipv4_header) : Prop := HeaderOk {
  hd_bytes : 0 <= version_ihl h < 256 /\ 0 <= tos h < 256 /\ 0 <= ttl h < 256 /\ 0 <= protocol h < 256;
  hd_words : 0 <= total_length h < 65536 /\ 0 <= identification h < 65536 /\
             0 <= flags_fragment h < 65536 /\ 0 <= checksum h < 65536;
  hd_ips : 0 <= src_ip h < 4294967296 /\ 0 <= dst_ip h < 4294967296;
}.

Lemma ipv4_header_at_bytes x0 x1 x2 x3 x4 x5 x6 x7 x8 x9 x10 x11 x12 x13 x14 x15 x16 x17 x18 x19 rest :
  ipv4_header_at ([x0; x1; x2; x3; x4; x5; x6; x7; x8; x9; x10; x11; x12; x13; x14; x15; x16; x17; x18; x19] ++ rest)
  = Ipv4Header x0 x1 (x2 + 256 * x3) (x4 + 256 * x5) (x6 + 256 * x7) x8 x9 (x10 + 256 * x11)
      (x12 + 256 * x13 + 65536 * (x14 + 256 * x15)) (x16 + 256 * x17 + 65536 * (x18 + 256 * x19)).
Proof. reflexivity. Qed.

Lemma ipv4_header_length h : length (ipv4_header_bytes h) = 20%nat.
Proof. done. Qed.

Lemma ipv4_header_roundtrip h rest :
  header_ok h -> ipv4_header_at (ipv4_header_bytes h ++ rest) = h.
Proof.
  destruct h. intros [(?&?&?&?) (?&?&?&?) (?&?)]. simpl in *.
  etransitivity; [apply ipv4_header_at_bytes|].
  rewrite !le32_value, !le16_value by done. done.
Qed.

Lemma ipv4_header_are_bytes h : header_ok h -> bytes (ipv4_header_bytes h).
Proof.
  intros [(?&?&?&?) _ _]. unfold ipv4_header_bytes.
  repeat (apply Forall_app; split); repeat constructor; try lia; zlia.
Qed.

Lemma with_checksum_ok h c : header_ok h -> 0 <= c < 65536 -> header_ok (with_checksum h c).
Proof. intros [? (?&?&?&?) ?] Hc. by constructor. Qed.

Lemma header_wsum h c :
  checksum h = 0 -> 0 <= c < 65536 ->
  wsum (ipv4_header_bytes (with_checksum h c)) = wsum (ipv4_header_bytes h) + c.
Proof.
  intros H0 Hc. destruct h. simpl in H0. subst. unfold ipv4_header_bytes, with_checksum.
  cbn [app le16 le32 wsum version_ihl tos total_length identification flags_fragment ttl protocol
    checksum src_ip dst_ip].
  pose proof (le16_value c Hc). change (0 mod 256) with 0. change (0 / 256 mod 256) with 0. lia.
Qed.

(** The checksum stored in a header makes the header verify. *)
Lemma header_checksum_verifies h :
  header_ok h -> checksum h = 0 ->
  let c := ipv4_checksum (ipv4_header_bytes h) IP_HDR_MIN_LEN in
  0 <= c < 65536 /\ ipv4_checksum (ipv4_header_bytes (with_checksum h c)) IP_HDR_MIN_LEN = 0.
Proof.
  intros Hh H0 c.
  assert (0 <= wsum (ipv4_header_bytes h) < 2147483648) as Hw.
  { pose proof (wsum_bound _ (ipv4_header_are_bytes h Hh)) as Hw.
    rewrite ipv4_header_length in Hw. change ((20 + 1) / 2)%nat with 10%nat in Hw. lia. }
  assert (c = finish_sum (wsum (ipv4_header_bytes h))) as Ec.
  { unfold c, ipv4_checksum. rewrite sum_words_wsum; [|by apply ipv4_header_are_bytes|done|done|done].
    by rewrite take_ge. }
  destruct (finish_sum_verifies _ Hw) as [Hc Hv]. rewrite <- Ec in Hc, Hv. split; [done|].
  unfold ipv4_checksum.
  rewrite sum_words_wsum;
    [|by apply ipv4_header_are_bytes, with_checksum_ok|done|done|done].
  rewrite take_ge by done. rewrite header_wsum by done. exact Hv.
Qed.

(** * Transmission *)

Section transmit.
Context {DRV : NetDriver}.
Implicit Types (s : netstk) (payload : list Z).

(** The header that [ipv4_send] builds for a payload of [n] bytes. *)
Definition sent_header s (i dst proto n : Z) : ipv4_header :=
  let h := Ipv4Header 69 0 (htons (20 + n)) (htons (ip_id_counter s)) 0 64 proto 0
             (ip_addr (interfaces s).[i]) dst in
  with_checksum h (ipv4_checksum (ipv4_header_bytes h) IP_HDR_MIN_LEN).

Definition next_hop s (i dst : Z) : Z :=
  let ifc := (interfaces s).[i] in
  if negb (gateway ifc =? 0) && negb (Z.land dst (netmask ifc) =? Z.land (ip_addr ifc) (netmask ifc))
  then gateway ifc else dst.

Lemma sent_header_ok s i dst proto n :
  0 <= proto < 256 -> 0 <= dst < 4294967296 -> 0 <= ip_addr (interfaces s).[i] < 4294967296 ->
  header_ok (sent_header s i dst proto n) /\
  ipv4_checksum (ipv4_header_bytes (sent_header s i dst proto n)) IP_HDR_MIN_LEN = 0.
Proof.
  intros Hp Hd Hi. unfold sent_header. set (h := Ipv4Header _ _ _ _ _ _ _ _ _ _).
  assert (header_ok h) as Hh.
  { constructor; simpl; [lia| |lia]. pose proof (htons_bound (20 + n)).
    pose proof (htons_bound (ip_id_counter s)). lia. }
  destruct (header_checksum_verifies h Hh eq_refl) as [Hc Hv]. split; [by apply with_checksum_ok|done].
Qed.

(** A payload that fits in one frame goes out behind the header when the next
    hop resolves. *)
Lemma ipv4_send_resolved s i dst proto payload n m :
  0 <= n <= 1480 -> n <= Z.of_nat (length payload) ->
  has_send (interfaces s).[i] = true ->
  broadcast s i (next_hop s i dst) = false -> cached (arp_cache s) (next_hop s i dst) = Some m ->
  let s1 := set_ip s (u16 (ip_id_counter s + 1)) (routes s) (route_count s) in
  let frame := eth_frame m (mac (interfaces s).[i]) ETHERTYPE_IPV4
                 (ipv4_header_bytes (sent_header s i dst proto n) ++ take (Z.to_nat n) payload) in
  ipv4_send s (Some i) dst proto payload n
  = Some (transmit s1 i frame, drv_send (interfaces s).[i] frame).
Proof.
  intros Hn Hl Hs Hb Hc s1 frame. unfold ipv4_send. cbv zeta. unfold IP_HDR_MIN_LEN.
  rewrite (u16_small (20 + n)) by lia.
  rewrite (proj2 (Z.ltb_ge ETH_MTU (20 + n))) by (unfold ETH_MTU; lia).
  fold s1. set (packet := repeat 0 _).
  change (with_checksum _ _) with (sent_header s i dst proto n).
  set (hdr := ipv4_header_bytes _). set (pay := take (Z.to_nat n) payload).
  assert (Z.of_nat (length pay) = n) as Hp by (unfold pay; rewrite length_take; lia).
  assert (Z.of_nat (length packet) = 1500) as Hk by done.
  assert (Z.of_nat (length hdr) = 20) as Hh by done.
  destruct (store_header_payload packet hdr pay 20) as (b1 & b2 & E1 & E2 & Hl2 & rest & E3);
    [by rewrite Hh|lia|].
  rewrite E1. cbn [mbind option_bind]. rewrite load_Some by lia. cbn [mbind option_bind].
  change (Z.to_nat 0) with 0%nat. rewrite drop_0. fold pay. rewrite E2. cbn [mbind option_bind].
  fold (next_hop s i dst). rewrite (arp_resolve_cached s1 i (next_hop s i dst) m) by done.
  cbn [mbind option_bind]. rewrite (eth_send_spec s1) by (unfold ETH_MTU; first [done|lia]).
  do 3 f_equal; unfold frame, eth_frame; do 3 f_equal; rewrite E3, app_assoc;
    rewrite take_app_length'; try done; rewrite length_app; lia.
Qed.

End transmit.

(** * Reception *)

(** The test on the destination address. *)
Definition for_us (r : netstk) (j dst : Z) : bool :=
  let ifc := (interfaces r).[j] in
  let m := not32 (netmask ifc) in
  (dst =? ip_addr ifc) || (dst =? 4294967295) || (Z.land dst m =? m).

(** A packet without options whose header verifies is accepted. *)
Lemma ipv4_input_accepts r j h body len n :
  header_ok h -> version_ihl h = 69 -> ntohs (total_length h) = 20 + n -> 0 <= n -> 20 + n < 65536 ->
  20 + n <= len -> ipv4_checksum (ipv4_header_bytes h) IP_HDR_MIN_LEN = 0 ->
  ipv4_input r j (ipv4_header_bytes h ++ body) len
  = Some (if for_us r j (dst_ip h) then Some (Datagram (protocol h) (src_ip h) (dst_ip h) body n)
          else None).
Proof.
  intros Hh Hv Ht Hn Hmax Hlen Hc. unfold ipv4_input.
  rewrite (proj2 (Z.ltb_ge len IP_HDR_MIN_LEN)) by (unfold IP_HDR_MIN_LEN; lia). cbv zeta.
  rewrite ipv4_header_roundtrip by done. rewrite Hv, Ht.
  change (u8 (Z.land 69 15 * 4)) with 20. change (Z.land (Z.shiftr 69 4) 15) with 4.
  change (negb (4 =? 4) || (20 <? IP_HDR_MIN_LEN)) with false. cbv iota.
  rewrite (proj2 (Z.ltb_ge len (20 + n))) by lia.
  rewrite load_Some by (rewrite ?length_app, ?ipv4_header_length; lia).
  change (Z.to_nat 0) with 0%nat. change (Z.to_nat 20) with 20%nat. rewrite drop_0.
  rewrite take_app_length' by done. cbn [mbind option_bind].
  change (ipv4_checksum (ipv4_header_bytes h) 20) with (ipv4_checksum (ipv4_header_bytes h) IP_HDR_MIN_LEN).
  rewrite Hc. change (negb (0 =? 0)) with false. cbv iota.
  rewrite drop_app_length' by done. rewrite u16_small by lia. replace (20 + n - 20) with n by lia.
  unfold for_us. destruct (_ =? ip_addr _), (_ =? 4294967295), (_ =? not32 _); done.
Qed.

Section roundtrip.
Context {DRV : NetDriver}.

(** A payload of up to 1480 bytes sent to a resolved next hop leaves as one
    frame, and every host whose interface has the destination address accepts
    the packet in it, padded or not: the header checksum verifies, and the
    protocol, both addresses, the length and the payload are those sent. *)
Theorem ipv4_send_receive_roundtrip s i dst proto payload n m r j pad len :
  0 <= n <= 1480 -> n <= Z.of_nat (length payload) -> 0 <= proto < 256 -> 0 <= dst < 4294967296 ->
  host_ok s i -> broadcast s i (next_hop s i dst) = false ->
  cached (arp_cache s) (next_hop s i dst) = Some m ->
  ip_addr (interfaces r).[j] = dst ->
  20 + n <= len ->
  exists s' frame,
    ipv4_send s (Some i) dst proto payload n = Some (s', drv_send (interfaces s).[i] frame) /\
    wire s' = wire s ++ [(i, frame)] /\
    ipv4_input r j (drop 14 frame ++ pad) len
    = Some (Some (Datagram proto (ip_addr (interfaces s).[i]) dst (take (Z.to_nat n) payload ++ pad) n)).
Proof.
  intros Hn Hl Hp Hd Hh Hb Hc Hr Hlen. pose proof (h_ip s i Hh).
  rewrite (ipv4_send_resolved s i dst proto payload n m) by (done || apply Hh).
  eexists _, _. split; [done|]. split; [done|].
  destruct (sent_header_ok s i dst proto n) as [Hok Hv]; [done|done|lia|].
  change (drop 14 (eth_frame m _ _ ?l)) with l. rewrite <- app_assoc.
  rewrite (ipv4_input_accepts r j (sent_header s i dst proto n) _ len n); try done; try lia.
  - unfold for_us. change (dst_ip _) with dst. rewrite Hr, Z.eqb_refl. done.
  - change (total_length _) with (htons (20 + n)). apply htons_involutive. lia.
Qed.

(** A packet whose total length is smaller than its header length passes
    every test of [ipv4_rx], and the payload length wraps to almost 64 KiB. *)
Theorem ipv4_rx_length_wraps :
  exists r j data, Z.of_nat (length data) = 20 /\ bytes data /\
    ipv4_input r j data 20 = Some (Some (Datagram IP_PROTO_UDP 5 7 [] 65516)).
Proof.
  exists (Netstk [Netif [] (repeat 0 6) 7 16777215 0 0 1 true] 1 (Some 0) [] 0 [] 0 []), 0,
    (ipv4_header_bytes (Ipv4Header 69 0 0 0 0 64 17 (ipv4_checksum
       (ipv4_header_bytes (Ipv4Header 69 0 0 0 0 64 17 0 5 7)) 20) 5 7)).
  split_and!; [done| |vm_compute; reflexivity].
  apply ipv4_header_are_bytes. constructor; vm_compute; done.
Qed.

(** A payload length near 64 KiB wraps the total length past the size check,
    and the copy overruns the packet buffer. *)
Lemma ipv4_send_overruns s i dst proto payload n :
  65516 <= n <= 65535 -> n <= Z.of_nat (length payload) ->
  ipv4_send s (Some i) dst proto payload n = None.
Proof.
  intros Hn Hl. unfold ipv4_send. cbv zeta.
  assert (u16 (IP_HDR_MIN_LEN + n) = n - 65516) as E
    by (unfold u16, IP_HDR_MIN_LEN; symmetry; apply (Z.mod_unique _ _ 1); lia).
  rewrite E, (proj2 (Z.ltb_ge ETH_MTU (n - 65516))) by (unfold ETH_MTU; lia).
  rewrite store_Some by done. cbn [mbind option_bind]. rewrite load_Some by lia. cbn [mbind option_bind].
  set (hdr := ipv4_header_bytes _). assert (length hdr = 20%nat) as Hh by done. clearbody hdr.
  rewrite store_None; [done|]. change (Z.to_nat ETH_MTU) with 1500%nat. unfold IP_HDR_MIN_LEN.
  rewrite !length_app, !length_take, !length_drop, !repeat_length, Hh. lia.
Qed.

End roundtrip.

Lemma ipv4_send_receive_roundtrip_witness :
  let s := set_arp_cache (example_host 10)
             (arp_cache_add (repeat blank_arp 32) 1 (ip_addr (interfaces (example_host 20)).[0]) [2; 0; 0; 0; 0; 20]) in
  exists s' frame,
    ipv4_send (DRV := quiet_driver) s (Some 0) (ip_addr (interfaces (example_host 20)).[0]) 17 [1; 2; 3] 3
    = Some (s', 0) /\
    ipv4_input (example_host 20) 0 (drop 14 frame ++ [0; 0]) 25
    = Some (Some (Datagram 17 (ip_addr (interfaces s).[0])
                    (ip_addr (interfaces (example_host 20)).[0]) [1; 2; 3; 0; 0] 3)).
Proof.
  intros s.
  destruct (ipv4_send_receive_roundtrip (DRV := quiet_driver) s 0
              (ip_addr (interfaces (example_host 20)).[0]) 17 [1; 2; 3] 3 [2; 0; 0; 0; 0; 20]
              (example_host 20) 0 [0; 0] 25) as (s' & fr & H1 & _ & H2).
  - lia.
  - simpl; lia.
  - lia.
  - vm_compute. done.
  - constructor; [|reflexivity|vm_compute; done|reflexivity].
    apply arp_learn. exact (arp_init_wf (example_host 10)).
  - vm_compute. reflexivity.
  - vm_compute. reflexivity.
  - reflexivity.
  - lia.
  - exists s', fr. split; [exact H1|exact H2].
Defined.

(** * Memory safety of the transmit path *)

Section total.
Context {DRV : NetDriver}.

Lemma arp_request_total s i ip : is_Some (arp_request s i ip).
Proof.
  unfold arp_request. cbv zeta. set (b := arp_packet_bytes _).
  assert (length b = 28%nat) as Hb by done. clearbody b.
  destruct (eth_send_total s (Some i) ETH_BROADCAST ETHERTYPE_ARP b sizeof_arp_packet) as [[s' r] E];
    [done|rewrite Hb; done|]. rewrite E. by eexists.
Qed.

Lemma arp_resolve_total s i ip : is_Some (arp_resolve s i ip).
Proof.
  unfold arp_resolve. cbv zeta. case_if; [by eexists|]. destruct (find_first _ _ _); [by eexists|].
  destruct (arp_request_total s i ip) as [s' E]. rewrite E. by eexists.
Qed.

Lemma resolve_retry_total n s i ip : is_Some (resolve_retry n s i ip).
Proof.
  revert s. induction n as [|n IH]; intros s; cbn [resolve_retry]; [by eexists|].
  destruct (arp_resolve_total (poll_delay s) i ip) as [[s' r] E]. rewrite E. cbn [mbind option_bind].
  destruct r; [by eexists|apply IH].
Qed.

(** With a payload in memory, [ipv4_send] stays inside its packet buffer unless
    the total length wraps. *)
Lemma ipv4_send_total s iface dst proto payload n :
  0 <= n <= 65515 -> n <= Z.of_nat (length payload) -> is_Some (ipv4_send s iface dst proto payload n).
Proof.
  intros Hn Hl. unfold ipv4_send. cbv zeta.
  destruct (match iface with Some i => Some i | None =>
    match (route_lookup s dst).1 with Some i => Some i | None => netif_get_default s end end) as [i|];
    [|by eexists].
  unfold IP_HDR_MIN_LEN. rewrite u16_small by lia.
  destruct (Z.ltb_spec ETH_MTU (20 + n)) as [|Hm]; [by eexists|]. unfold ETH_MTU in Hm.
  set (hdr := ipv4_header_bytes (with_checksum _ _)). assert (Z.of_nat (length hdr) = 20) as Hh by done.
  clearbody hdr. set (packet := repeat 0 _). assert (Z.of_nat (length packet) = 1500) as Hp by done.
  clearbody packet. set (pay := take (Z.to_nat n) payload).
  assert (Z.of_nat (length pay) = n) as Hpay by (unfold pay; rewrite length_take; lia).
  destruct (store_header_payload packet hdr pay 20) as (b1 & b2 & E1 & E2 & Hl2 & _); [lia|lia|].
  rewrite E1. cbn [mbind option_bind]. rewrite load_Some by lia. cbn [mbind option_bind].
  change (Z.to_nat 0) with 0%nat. rewrite drop_0. fold pay. rewrite E2. cbn [mbind option_bind].
  fold (next_hop s i dst). set (hop := next_hop s i dst). set (s1 := set_ip _ _ _ _). clearbody s1 hop.
  destruct (arp_resolve_total s1 i hop) as [[s2 r] E]. rewrite E. cbn [mbind option_bind].
  assert (forall s3 m, is_Some (eth_send s3 (Some i) m ETHERTYPE_IPV4 b2 (20 + n))) as Hsend
    by (intros; apply eth_send_total; lia).
  destruct r as [m|]; cbn [mbind option_bind]; [apply Hsend|].
  destruct (resolve_retry_total 3 s2 i hop) as [[s3 r] E3]. rewrite E3. cbn [mbind option_bind].
  destruct r as [m|]; [apply Hsend|by eexists].
Qed.

End total.

(** * Routing *)

(** The network-order mask of a prefix of [p] bits. *)
Definition prefix_mask (p : Z) : Z := htonl (4294967296 - 2 ^ (32 - p)).

(** Network-order masks, compared as little-endian integers, are ordered by
    prefix length. *)
Lemma prefix_mask_mono p q : 0 <= p <= 32 -> 0 <= q <= 32 -> (prefix_mask p <= prefix_mask q <-> p <= q).
Proof.
  intros Hp Hq.
  assert (forallb (fun p => forallb (fun q => Bool.eqb (prefix_mask p <=? prefix_mask q) (p <=? q))
    (seqZ 0 33)) (seqZ 0 33) = true) as Hall by (vm_compute; reflexivity).
  rewrite forallb_forall in Hall. specialize (Hall p). rewrite forallb_forall in Hall.
  assert (forall r, 0 <= r <= 32 -> In r (seqZ 0 33)) as Hin
    by (intros r Hr; apply list_elem_of_In, elem_of_seqZ; lia).
  specialize (Hall (Hin p Hp) q (Hin q Hq)). apply eqb_prop in Hall.
  rewrite <- !Z.leb_le. by rewrite Hall.
Qed.

Definition matches (s : netstk) (dst i : Z) : Prop :=
  Z.land dst (r_netmask (routes s).[i]) = r_network (routes s).[i].

(** The scan keeps the last matching route among those with the largest mask. *)
Lemma route_scan s dst n :
  (forall i, 0 <= i < Z.of_nat n -> 0 <= r_netmask (routes s).[i]) ->
  let '(best, best_mask, best_gw) :=
    for_loop (fun i '(best, best_mask, best_gw) =>
      let r := (routes s).[i] in
      if Z.land dst (r_netmask r) =? r_network r then
        if best_mask <=? r_netmask r then (r_iface r, r_netmask r, r_gateway r)
        else (best, best_mask, best_gw)
      else (best, best_mask, best_gw)) n 0 (None, 0, 0) in
  (best = None /\ best_mask = 0 /\ best_gw = 0 /\ forall i, 0 <= i < Z.of_nat n -> ~ matches s dst i) \/
  exists k, 0 <= k < Z.of_nat n /\ matches s dst k /\
    best = r_iface (routes s).[k] /\ best_mask = r_netmask (routes s).[k] /\
    best_gw = r_gateway (routes s).[k] /\
    forall i, 0 <= i < Z.of_nat n -> matches s dst i ->
      r_netmask (routes s).[i] < r_netmask (routes s).[k] \/
      r_netmask (routes s).[i] = r_netmask (routes s).[k] /\ i <= k.
Proof.
  intros Hm. set (body := fun (i : Z) _ => _).
  pose (I := fun (m : Z) (st : option Z * Z * Z) => let '(best, best_mask, best_gw) := st in
    (best = None /\ best_mask = 0 /\ best_gw = 0 /\ forall i, 0 <= i < m -> ~ matches s dst i) \/
    exists k, 0 <= k < m /\ matches s dst k /\
      best = r_iface (routes s).[k] /\ best_mask = r_netmask (routes s).[k] /\
      best_gw = r_gateway (routes s).[k] /\
      forall i, 0 <= i < m -> matches s dst i ->
        r_netmask (routes s).[i] < r_netmask (routes s).[k] \/
        r_netmask (routes s).[i] = r_netmask (routes s).[k] /\ i <= k).
  enough (I (0 + Z.of_nat n) (for_loop body n 0 (None, 0, 0))) as HI
    by (unfold I in HI; rewrite Z.add_0_l in HI; exact HI).
  apply (for_loop_ind I).
  - unfold I. left. split_and!; [done..|]. intros i Hi. lia.
  - intros j [[b bm] bg] Hj HI. unfold body, I in *. cbv zeta.
    destruct (Z.eqb_spec (Z.land dst (r_netmask (routes s).[j])) (r_network (routes s).[j])) as [Em|Em].
    + assert (forall i, 0 <= i < j + 1 -> i = j \/ 0 <= i < j) as Hs by lia.
      destruct (Z.leb_spec bm (r_netmask (routes s).[j])) as [Hle|Hlt].
      * right. exists j. split_and!; try done; try lia. intros i Hi Hmi.
        destruct (Hs i Hi) as [->|Hi']; [right; lia|].
        destruct HI as [(_ & _ & _ & Hno)|(k & _ & _ & _ & -> & _ & Hmax)]; [by apply Hno in Hmi|].
        specialize (Hmax i Hi' Hmi). lia.
      * right. destruct HI as [(-> & -> & -> & _)|(k & ? & ? & -> & -> & -> & Hmax)];
          [specialize (Hm j ltac:(lia)); lia|].
        exists k. split_and!; try done; try lia. intros i Hi Hmi.
        destruct (Hs i Hi) as [->|Hi']; [by left|by apply Hmax].
    + assert (~ matches s dst j) as Hnj by done.
      destruct HI as [(-> & -> & -> & Hno)|(k & ? & ? & -> & -> & -> & Hmax)].
      * left. split_and!; [done..|]. intros i Hi.
        destruct (decide (i = j)) as [->|]; [done|apply Hno; lia].
      * right. exists k. split_and!; try done; try lia. intros i Hi Hmi.
        destruct (decide (i = j)) as [->|]; [done|apply Hmax; [lia|done]].
Qed.

(** When the masks of the table are prefix masks, [route_lookup] is a
    longest-prefix match: no interface when no route matches, and otherwise the
    interface and gateway of a matching route of the longest prefix, the most
    recently added of those; without a gateway the next hop is the destination
    itself. *)
Theorem route_lookup_longest_prefix s dst (plen : Z -> Z) :
  0 <= route_count s ->
  (forall i, 0 <= i < route_count s ->
     0 <= plen i <= 32 /\ r_netmask (routes s).[i] = prefix_mask (plen i)) ->
  (forall i, 0 <= i < route_count s -> ~ matches s dst i) /\ route_lookup s dst = (None, dst) \/
  exists k, 0 <= k < route_count s /\ matches s dst k /\
    (forall i, 0 <= i < route_count s -> matches s dst i ->
       plen i < plen k \/ plen i = plen k /\ i <= k) /\
    route_lookup s dst = (r_iface (routes s).[k],
      if r_gateway (routes s).[k] =? 0 then dst else r_gateway (routes s).[k]).
Proof.
  intros Hc Hp. pose proof (route_scan s dst (Z.to_nat (route_count s))) as Hscan.
  rewrite Z2Nat.id in Hscan by done. unfold route_lookup.
  destruct (for_loop _ _ _ _) as [[b bm] bg] eqn:E.
  destruct Hscan as [(-> & -> & -> & Hno)|(k & Hk & Hmk & -> & -> & -> & Hmax)].
  - intros i Hi. destruct (Hp i Hi) as [_ ->].
    assert (0 <= plen i <= 32) by apply Hp, Hi.
    assert (prefix_mask 0 <= prefix_mask (plen i)) by (apply prefix_mask_mono; lia).
    change (prefix_mask 0) with 0 in *. done.
  - left. done.
  - right. exists k. split_and!; try done; try lia. intros i Hi Hmi.
    destruct (Hp i Hi) as [Hpi Ei], (Hp k Hk) as [Hpk Ek].
    specialize (Hmax i Hi Hmi). rewrite Ei, Ek in Hmax.
    pose proof (prefix_mask_mono (plen i) (plen k) Hpi Hpk) as M1.
    pose proof (prefix_mask_mono (plen k) (plen i) Hpk Hpi) as M2. lia.
Qed.

Lemma route_lookup_longest_prefix_witness :
  exists k : Z, 0 <= k < 2 /\
    route_lookup (Netstk [] 0 None [] 1
      [RouteEntry 0 0 99 (Some 0); RouteEntry (ip4_addr 10 0 0 0) (prefix_mask 8) 0 (Some 1)] 2 [])
      (ip4_addr 10 1 2 3) = (Some 1, ip4_addr 10 1 2 3).
Proof.
  set (s := Netstk _ _ _ _ _ _ _ _).
  destruct (route_lookup_longest_prefix s (ip4_addr 10 1 2 3) (fun i => if i =? 0 then 0 else 8))
    as [[Hno _]|(k & Hk & Hm & _ & E)].
  - simpl; lia.
  - intros i Hi. change (route_count s) with 2 in Hi.
    assert (i = 0 \/ i = 1) as [->| ->] by lia; split; try (vm_compute; done); done.
  - exfalso. apply (Hno 1); [simpl; lia|vm_compute; reflexivity].
  - exists k. split; [exact Hk|]. vm_compute. reflexivity.
Defined.
