(* ===== verification/Tcp.v ===== *)
(** Transmission control protocol: [net/tcp.c].

    Sixteen sockets with a fixed receive buffer, the receive-side state
    machine, segment construction, and the socket calls.  [switch (sk->state)]
    is [sk_rx], a function of one socket that also says which segment is sent
    back; [tcp_rx] finds the socket and sends.  The busy-waiting calls take the
    interrupts that arrive while they wait as an explicit sequence. *)
From S2P Require Import Prelude.
From S2P Require Import KString.
From S2P Require Import Net.
From S2P Require Import Arp.
From S2P Require Import Ipv4.
From Stdlib Require Import ZArith Lia.
From stdpp Require Import base numbers list.

Open Scope Z_scope.
Open Scope lyth_scope.

Definition TCP_HDR_MIN_LEN : Z := 20.
Definition TCP_MAX_SOCKETS : Z := 16.
Definition TCP_RX_BUF_SIZE : Z := 8192.
Definition TCP_MSS : Z := 1460.
Definition TCP_WINDOW_SIZE : Z := 8192.

Definition TCP_FIN : Z := 1.
Definition TCP_SYN : Z := 2.
Definition TCP_RST : Z := 4.
Definition TCP_PSH : Z := 8.
Definition TCP_ACK : Z := 16.

Inductive tcp_state :=
| TCP_CLOSED | TCP_LISTEN | TCP_SYN_SENT | TCP_SYN_RECEIVED | TCP_ESTABLISHED
| TCP_FIN_WAIT_1 | TCP_FIN_WAIT_2 | TCP_CLOSE_WAIT | TCP_CLOSING | TCP_LAST_ACK | TCP_TIME_WAIT.

#[export] Instance tcp_state_eq_dec : EqDecision tcp_state.
Proof. solve_decision. Defined.

Record tcp_socket := TcpSocket {
  used : bool; state : tcp_state; local_port : Z; remote_ip : Z; remote_port : Z;
  snd_una : Z; snd_nxt : Z; rcv_nxt : Z; rcv_wnd : Z;
  rx_buf : list Z; rx_len : Z; rx_ready : bool;
  last_ack_tick : Z; retransmit_count : Z }.

Definition blank_socket : tcp_socket :=
  TcpSocket false TCP_CLOSED 0 0 0 0 0 0 0 (repeat 0 (Z.to_nat TCP_RX_BUF_SIZE)) 0 false 0 0.
#[export] Instance tcp_socket_inhabited : Inhabited tcp_socket := populate blank_socket.

(** Field updates. *)
Definition set_state (sk : tcp_socket) (st : tcp_state) : tcp_socket :=
  TcpSocket (used sk) st (local_port sk) (remote_ip sk) (remote_port sk) (snd_una sk) (snd_nxt sk)
    (rcv_nxt sk) (rcv_wnd sk) (rx_buf sk) (rx_len sk) (rx_ready sk) (last_ack_tick sk) (retransmit_count sk).
Definition set_used (sk : tcp_socket) (u : bool) : tcp_socket :=
  TcpSocket u (state sk) (local_port sk) (remote_ip sk) (remote_port sk) (snd_una sk) (snd_nxt sk)
    (rcv_nxt sk) (rcv_wnd sk) (rx_buf sk) (rx_len sk) (rx_ready sk) (last_ack_tick sk) (retransmit_count sk).
Definition set_remote (sk : tcp_socket) (ip port : Z) : tcp_socket :=
  TcpSocket (used sk) (state sk) (local_port sk) ip port (snd_una sk) (snd_nxt sk)
    (rcv_nxt sk) (rcv_wnd sk) (rx_buf sk) (rx_len sk) (rx_ready sk) (last_ack_tick sk) (retransmit_count sk).
Definition set_local (sk : tcp_socket) (port : Z) : tcp_socket :=
  TcpSocket (used sk) (state sk) port (remote_ip sk) (remote_port sk) (snd_una sk) (snd_nxt sk)
    (rcv_nxt sk) (rcv_wnd sk) (rx_buf sk) (rx_len sk) (rx_ready sk) (last_ack_tick sk) (retransmit_count sk).
Definition set_snd (sk : tcp_socket) (una nxt : Z) : tcp_socket :=
  TcpSocket (used sk) (state sk) (local_port sk) (remote_ip sk) (remote_port sk) una nxt
    (rcv_nxt sk) (rcv_wnd sk) (rx_buf sk) (rx_len sk) (rx_ready sk) (last_ack_tick sk) (retransmit_count sk).
Definition set_rcv (sk : tcp_socket) (nxt : Z) : tcp_socket :=
  TcpSocket (used sk) (state sk) (local_port sk) (remote_ip sk) (remote_port sk) (snd_una sk) (snd_nxt sk)
    nxt (rcv_wnd sk) (rx_buf sk) (rx_len sk) (rx_ready sk) (last_ack_tick sk) (retransmit_count sk).
Definition set_rx (sk : tcp_socket) (buf : list Z) (len : Z) (ready : bool) : tcp_socket :=
  TcpSocket (used sk) (state sk) (local_port sk) (remote_ip sk) (remote_port sk) (snd_una sk) (snd_nxt sk)
    (rcv_nxt sk) (rcv_wnd sk) buf len ready (last_ack_tick sk) (retransmit_count sk).
Definition set_tick (sk : tcp_socket) (t : Z) : tcp_socket :=
  TcpSocket (used sk) (state sk) (local_port sk) (remote_ip sk) (remote_port sk) (snd_una sk) (snd_nxt sk)
    (rcv_nxt sk) (rcv_wnd sk) (rx_buf sk) (rx_len sk) (rx_ready sk) t (retransmit_count sk).

(** The statics of [tcp.c] over the lower layers. *)
Record tcp := Tcp { sockets : list tcp_socket; tcp_isn : Z; net : netstk }.

Definition set_sock (t : tcp) (k : Z) (sk : tcp_socket) : tcp := Tcp (sockets t).[k <- sk] (tcp_isn t) (net t).

(** * Segments *)

Record tcp_header := TcpHeader {
  src_port : Z; dst_port : Z; seq_num : Z; ack_num : Z; data_off : Z; flags : Z;
  window : Z; t_checksum : Z; urgent : Z }.

Definition tcp_header_bytes (h : tcp_header) : list Z :=
  le16 (src_port h) ++ le16 (dst_port h) ++ le32 (seq_num h) ++ le32 (ack_num h) ++
  [data_off h; flags h] ++ le16 (window h) ++ le16 (t_checksum h) ++ le16 (urgent h).

Definition tcp_header_at (data : list Z) : tcp_header :=
  TcpHeader (ld16 data 0) (ld16 data 2) (ld32 data 4) (ld32 data 8) data.[12] data.[13]
    (ld16 data 14) (ld16 data 16) (ld16 data 18).

Definition tcp_pseudo_bytes (src dst len : Z) : list Z :=
  le32 src ++ le32 dst ++ [0; IP_PROTO_TCP] ++ le16 (htons len).

Definition tcp_checksum (src dst : Z) (tcp_seg : list Z) (tcp_len : Z) : Z :=
  let sum := sum_words (tcp_pseudo_bytes src dst tcp_len) 12 0 in
  finish_sum (sum_words tcp_seg tcp_len sum).

(** What the state machine asks to send (always without payload). *)
Record segment := Segment {
  g_dst : Z; g_sport : Z; g_dport : Z; g_seq : Z; g_ack : Z; g_flags : Z; g_window : Z }.

Definition segment_header (g : segment) (c : Z) : tcp_header :=
  TcpHeader (htons (g_sport g)) (htons (g_dport g)) (htonl (g_seq g)) (htonl (g_ack g))
    (Z.shiftl (TCP_HDR_MIN_LEN / 4) 4) (g_flags g) (htons (g_window g)) c 0.

Section driver.
Context {DRV : NetDriver}.

(** [payload = None] is NULL. *)
Definition tcp_send_segment (s : netstk) (iface : option Z) (g : segment)
    (payload : option (list Z)) (payload_len : Z) : option (netstk * Z) :=
  let tcp_len := u16 (TCP_HDR_MIN_LEN + payload_len) in
  if ETH_MTU - 20 <? tcp_len then Some (s, -1)
  else
    let buf := repeat 0 (Z.to_nat ETH_MTU) in
    buf ← store buf 0 (tcp_header_bytes (segment_header g 0));
    buf ← match payload with
          | Some p => if 0 <? payload_len
                      then bs ← load p 0 payload_len; store buf TCP_HDR_MIN_LEN bs
                      else Some buf
          | None => Some buf
          end;
    let out_iface := match iface with Some i => Some i | None => netif_get_default s end in
    let src := match out_iface with Some i => ip_addr (interfaces s).[i] | None => 0 end in
    buf ← store buf 0 (tcp_header_bytes (segment_header g (tcp_checksum src (g_dst g) buf tcp_len)));
    ipv4_send s out_iface (g_dst g) IP_PROTO_TCP buf tcp_len.

End driver.

(** [tcp_init] at time [now]. *)
Definition tcp_init (t : tcp) (now : Z) : tcp :=
  Tcp (repeat blank_socket (Z.to_nat TCP_MAX_SOCKETS)) (u32 (u32 (now * 12345) + 67890)) (net t).

(** * Receive *)

Definition has (f bit : Z) : bool := negb (Z.land f bit =? 0).

(** The tests of the three lookup loops. *)
Definition exact_match (src_ip sport dport : Z) (sk : tcp_socket) : bool :=
  used sk && ((local_port sk =? dport) && (remote_port sk =? sport) && (remote_ip sk =? src_ip)).
Definition listen_match (dport : Z) (sk : tcp_socket) : bool :=
  used sk && (bool_decide (state sk = TCP_LISTEN) && (local_port sk =? dport)).
Definition syn_sent_match (src_ip sport : Z) (sk : tcp_socket) : bool :=
  used sk && (bool_decide (state sk = TCP_SYN_SENT) && (remote_ip sk =? src_ip) && (remote_port sk =? sport)).

(** The socket a segment belongs to: exact match, listener, [SYN_SENT]. *)
Definition tcp_lookup (l : list tcp_socket) (src_ip sport dport : Z) : option Z :=
  let n := Z.to_nat TCP_MAX_SOCKETS in
  match find_first (fun i => exact_match src_ip sport dport l.[i]) n 0 with
  | Some i => Some i
  | None =>
    match find_first (fun i => listen_match dport l.[i]) n 0 with
    | Some i => Some i
    | None => find_first (fun i => syn_sent_match src_ip sport l.[i]) n 0
    end
  end.

(** A received segment as [tcp_rx] sees it: [i_payload] is the memory from
    [data + data_off] on, [i_len] the computed payload length. *)
Record input := Input {
  i_src : Z; i_sport : Z; i_dport : Z; i_seq : Z; i_ack : Z; i_flags : Z;
  i_payload : list Z; i_len : Z }.

(** Reply segment of a socket with the given flags and window. *)
Definition reply_segment (sk : tcp_socket) (p : input) (f w : Z) : segment :=
  Segment (i_src p) (local_port sk) (i_sport p) (snd_nxt sk) (rcv_nxt sk) f w.

(** The data branch of [TCP_ESTABLISHED]. *)
Definition sk_data (sk : tcp_socket) (p : input) : option tcp_socket :=
  if i_seq p =? rcv_nxt sk then
    let space := u16 (TCP_RX_BUF_SIZE - rx_len sk) in
    let copy := if i_len p <? space then i_len p else space in
    sk ← (if 0 <? copy then
            bs ← load (i_payload p) 0 copy;
            buf ← store (rx_buf sk) (rx_len sk) bs;
            Some (set_rx sk buf (u16 (rx_len sk + copy)) true)
          else Some sk);
    Some (set_rcv sk (u32 (rcv_nxt sk + i_len p)))
  else Some sk.

Definition close_socket (sk : tcp_socket) : tcp_socket := set_used (set_state sk TCP_CLOSED) false.

(** [switch (sk->state)]: the socket and the sequence counter after the
    segment, and the segment sent in response. *)
Definition sk_rx (isn now : Z) (sk : tcp_socket) (p : input)
    : option (tcp_socket * Z * option segment) :=
  let f := i_flags p in
  match state sk with
  | TCP_LISTEN =>
      if has f TCP_SYN then
        let sk := set_rcv (set_remote sk (i_src p) (i_sport p)) (u32 (i_seq p + 1)) in
        let sk := set_state (set_snd sk isn isn) TCP_SYN_RECEIVED in
        let g := reply_segment sk p (Z.lor TCP_SYN TCP_ACK) TCP_WINDOW_SIZE in
        Some (set_snd sk (snd_una sk) (u32 (snd_nxt sk + 1)), u32 (isn + 1), Some g)
      else Some (sk, isn, None)
  | TCP_SYN_SENT =>
      if Z.land f (Z.lor TCP_SYN TCP_ACK) =? Z.lor TCP_SYN TCP_ACK then
        let sk := set_state (set_snd (set_rcv sk (u32 (i_seq p + 1))) (i_ack p) (snd_nxt sk)) TCP_ESTABLISHED in
        Some (sk, isn, Some (reply_segment sk p TCP_ACK TCP_WINDOW_SIZE))
      else Some (sk, isn, None)
  | TCP_SYN_RECEIVED =>
      if has f TCP_ACK
      then Some (set_state (set_snd sk (i_ack p) (snd_nxt sk)) TCP_ESTABLISHED, isn, None)
      else Some (sk, isn, None)
  | TCP_ESTABLISHED =>
      '(sk, g) ←
        (if has f TCP_FIN then
           let sk := set_state (set_rcv sk (u32 (i_seq p + i_len p + 1))) TCP_CLOSE_WAIT in
           Some (sk, Some (reply_segment sk p TCP_ACK TCP_WINDOW_SIZE))
         else if 0 <? i_len p then
           sk ← sk_data sk p;
           Some (sk, Some (reply_segment sk p TCP_ACK TCP_WINDOW_SIZE))
         else if has f TCP_ACK then Some (set_snd sk (i_ack p) (snd_nxt sk), None)
         else Some (sk, None));
      Some (if has f TCP_RST then close_socket sk else sk, isn, g)
  | TCP_FIN_WAIT_1 =>
      if has f TCP_ACK && has f TCP_FIN then
        let sk := set_state (set_rcv sk (u32 (i_seq p + 1))) TCP_TIME_WAIT in
        Some (sk, isn, Some (reply_segment sk p TCP_ACK 0))
      else if has f TCP_ACK then
        Some (set_state (set_snd sk (i_ack p) (snd_nxt sk)) TCP_FIN_WAIT_2, isn, None)
      else if has f TCP_FIN then
        let sk := set_state (set_rcv sk (u32 (i_seq p + 1))) TCP_CLOSING in
        Some (sk, isn, Some (reply_segment sk p TCP_ACK 0))
      else Some (sk, isn, None)
  | TCP_FIN_WAIT_2 =>
      if has f TCP_FIN then
        let sk := set_state (set_rcv sk (u32 (i_seq p + 1))) TCP_TIME_WAIT in
        Some (sk, isn, Some (reply_segment sk p TCP_ACK 0))
      else Some (sk, isn, None)
  | TCP_CLOSING =>
      if has f TCP_ACK then Some (set_state sk TCP_TIME_WAIT, isn, None) else Some (sk, isn, None)
  | TCP_LAST_ACK =>
      if has f TCP_ACK then Some (close_socket sk, isn, None) else Some (sk, isn, None)
  | TCP_CLOSE_WAIT => Some (sk, isn, None)
  | TCP_TIME_WAIT => Some (set_tick sk now, isn, None)
  | TCP_CLOSED => Some (sk, isn, None)
  end.

(** The header fields, the payload pointer and the payload length. *)
Definition tcp_parse (src_ip : Z) (data : list Z) (len : Z) : input :=
  let hdr := tcp_header_at data in
  let off := u8 (Z.shiftr (data_off hdr) 4 * 4) in
  Input src_ip (ntohs (src_port hdr)) (ntohs (dst_port hdr)) (ntohl (seq_num hdr)) (ntohl (ack_num hdr))
    (flags hdr) (drop (Z.to_nat off) data) (u16 (len - off)).

Section receive.
Context {DRV : NetDriver}.

(** The socket lookup and the dispatch. *)
Definition tcp_input (t : tcp) (now : Z) (iface : option Z) (p : input) : option tcp :=
  match tcp_lookup (sockets t) (i_src p) (i_sport p) (i_dport p) with
  | None =>
      if negb (has (i_flags p) TCP_RST) then
        '(s, _) ← tcp_send_segment (net t) iface
                    (Segment (i_src p) (i_dport p) (i_sport p) 0 (u32 (i_seq p + 1))
                       (Z.lor TCP_RST TCP_ACK) 0) None 0;
        Some (Tcp (sockets t) (tcp_isn t) s)
      else Some t
  | Some k =>
      '(sk, isn, g) ← sk_rx (tcp_isn t) now (sockets t).[k] p;
      s ← match g with
          | Some g => '(s, _) ← tcp_send_segment (net t) iface g None 0; Some s
          | None => Some (net t)
          end;
      Some (Tcp (sockets t).[k <- sk] isn s)
  end.

Definition tcp_rx (t : tcp) (now : Z) (iface : option Z) (src_ip : Z) (data : list Z) (len : Z)
    : option tcp :=
  if len <? TCP_HDR_MIN_LEN then Some t
  else tcp_input t now iface (tcp_parse src_ip data len).

End receive.

Definition tcp_tick (t : tcp) (now : Z) : tcp :=
  for_loop (fun i t =>
    let sk := (sockets t).[i] in
    if used sk && (bool_decide (state sk = TCP_TIME_WAIT) && (200 <? u32 (now - last_ack_tick sk)))
    then set_sock t i (close_socket sk) else t) (Z.to_nat TCP_MAX_SOCKETS) 0 t.

(** * Socket calls *)

Definition bad_sock (t : tcp) (sock : Z) : bool :=
  (sock <? 0) || (TCP_MAX_SOCKETS <=? sock) || negb (used (sockets t).[sock]).

Definition tcp_socket_open (t : tcp) : tcp * Z :=
  match find_first (fun i => negb (used (sockets t).[i])) (Z.to_nat TCP_MAX_SOCKETS) 0 with
  | Some i =>
      (set_sock t i (TcpSocket true TCP_CLOSED 0 0 0 0 0 0 TCP_WINDOW_SIZE
                       (repeat 0 (Z.to_nat TCP_RX_BUF_SIZE)) 0 false 0 0), i)
  | None => (t, -1)
  end.

Section calls.
Context {DRV : NetDriver}.

(** Interrupts that arrive while a call busy-waits. *)
Inductive irq :=
| IrqRx (iface : option Z) (src_ip : Z) (data : list Z) (len : Z)
| IrqTick.

Definition run_irq (now : Z) (e : irq) (t : tcp) : option tcp :=
  match e with
  | IrqRx iface src data len => tcp_rx t now iface src data len
  | IrqTick => Some (tcp_tick t now)
  end.

Fixpoint run_irqs (now : Z) (es : list irq) (t : tcp) : option tcp :=
  match es with
  | [] => Some t
  | e :: es => t ← run_irq now e t; run_irqs now es t
  end.

(** [while (cond(state) && ticks - start < limit);] one element of [env] per
    iteration: the time read and the interrupts taken before it.  The result
    says whether the loop was left before [env] ended. *)
Fixpoint spin (env : list (Z * list irq)) (sock : Z) (cond : tcp_state -> bool) (start limit : Z) (t : tcp)
    : option (tcp * list (Z * list irq) * bool) :=
  match env with
  | [] => Some (t, [], false)
  | (now, es) :: env =>
      t ← run_irqs now es t;
      if cond (state (sockets t).[sock]) && (u32 (now - start) <? limit)
      then spin env sock cond start limit t
      else Some (t, env, true)
  end.

(** [None] as a result code: still waiting when [env] ended. *)
Definition tcp_socket_connect (t : tcp) (sock dst_ip dst_port : Z) (start : Z) (env : list (Z * list irq))
    : option (tcp * option Z) :=
  if bad_sock t sock then Some (t, Some (-1))
  else
    let sk := set_remote (sockets t).[sock] dst_ip dst_port in
    let sk := set_local sk (u16 (49152 + tcp_isn t mod 16384)) in
    let isn := u32 (tcp_isn t + 1) in
    let sk := set_state (set_snd sk isn isn) TCP_SYN_SENT in
    let isn := u32 (isn + 1) in
    '(s, _) ← tcp_send_segment (net t) None
                (Segment dst_ip (local_port sk) dst_port (snd_nxt sk) 0 TCP_SYN TCP_WINDOW_SIZE) None 0;
    let sk := set_snd sk (snd_una sk) (u32 (snd_nxt sk + 1)) in
    '(t, _, done_) ← spin env sock (fun st => bool_decide (st = TCP_SYN_SENT)) start 500
                      (Tcp (sockets t).[sock <- sk] isn s);
    Some (t, if (done_ : bool) then Some (if bool_decide (state (sockets t).[sock] = TCP_ESTABLISHED) then 0 else -1)
             else None).

Definition tcp_socket_listen (t : tcp) (sock port : Z) : tcp * Z :=
  if bad_sock t sock then (t, -1)
  else (set_sock t sock (set_state (set_local (sockets t).[sock] port) TCP_LISTEN), 0).

Definition tcp_socket_accept (t : tcp) (sock start : Z) (env : list (Z * list irq))
    : option (tcp * option Z) :=
  if bad_sock t sock then Some (t, Some (-1))
  else if negb (bool_decide (state (sockets t).[sock] = TCP_LISTEN)) then Some (t, Some (-1))
  else
    '(t, env, done_) ← spin env sock
        (fun st => negb (bool_decide (st = TCP_ESTABLISHED)) && negb (bool_decide (st = TCP_SYN_RECEIVED)))
        start 3000 t;
    if negb (done_ : bool) then Some (t, None)
    else
      '(t, _, done_) ←
        (if bool_decide (state (sockets t).[sock] = TCP_SYN_RECEIVED)
         then spin env sock (fun st => bool_decide (st = TCP_SYN_RECEIVED)) start 3000 t
         else Some (t, env, true));
      Some (t, if negb (done_ : bool) then None
               else Some (if bool_decide (state (sockets t).[sock] = TCP_ESTABLISHED) then sock else -1)).

Fixpoint send_loop (fuel : nat) (s : netstk) (sk : tcp_socket) (data : list Z) (len sent : Z)
    : option (netstk * tcp_socket * Z) :=
  match fuel with
  | O => Some (s, sk, sent)
  | S fuel =>
      if sent <? len then
        let chunk := u16 (len - sent) in
        let chunk := if TCP_MSS <? chunk then TCP_MSS else chunk in
        '(s, _) ← tcp_send_segment s None
                    (Segment (remote_ip sk) (local_port sk) (remote_port sk) (snd_nxt sk) (rcv_nxt sk)
                       (Z.lor TCP_ACK TCP_PSH) TCP_WINDOW_SIZE)
                    (Some (drop (Z.to_nat sent) data)) chunk;
        send_loop fuel s (set_snd sk (snd_una sk) (u32 (snd_nxt sk + chunk))) data len (u16 (sent + chunk))
      else Some (s, sk, sent)
  end.

Definition tcp_socket_send (t : tcp) (sock : Z) (data : list Z) (len : Z) : option (tcp * Z) :=
  if bad_sock t sock then Some (t, -1)
  else if negb (bool_decide (state (sockets t).[sock] = TCP_ESTABLISHED))
          && negb (bool_decide (state (sockets t).[sock] = TCP_CLOSE_WAIT)) then Some (t, -1)
  else
    '(s, sk, sent) ← send_loop (S (Z.to_nat len)) (net t) (sockets t).[sock] data len 0;
    Some (Tcp (sockets t).[sock <- sk] (tcp_isn t) s, sent).

(** The result code and the caller's buffer. *)
Definition tcp_socket_recv (t : tcp) (sock : Z) (buf : list Z) (buf_len : Z)
    : option (tcp * Z * list Z) :=
  if bad_sock t sock then Some (t, -1, buf)
  else
    let sk := (sockets t).[sock] in
    if negb (rx_ready sk) && negb (bool_decide (state sk = TCP_ESTABLISHED))
       && negb (bool_decide (state sk = TCP_CLOSE_WAIT)) then Some (t, -1, buf)
    else if negb (rx_ready sk) then Some (t, 0, buf)
    else
      let copy := if buf_len <? rx_len sk then buf_len else rx_len sk in
      bs ← load (rx_buf sk) 0 copy;
      buf ← store buf 0 bs;
      let remaining := u16 (rx_len sk - copy) in
      let rx := if 0 <? remaining then memmove (rx_buf sk) 0 copy remaining else rx_buf sk in
      let sk := set_rx sk rx remaining (if remaining =? 0 then false else rx_ready sk) in
      Some (set_sock t sock sk, copy, buf).

Definition tcp_socket_close (t : tcp) (sock : Z) : option (tcp * Z) :=
  if bad_sock t sock then Some (t, -1)
  else
    let sk := (sockets t).[sock] in
    let fin st :=
      let sk := set_state sk st in
      '(s, _) ← tcp_send_segment (net t) None
                  (Segment (remote_ip sk) (local_port sk) (remote_port sk) (snd_nxt sk) (rcv_nxt sk)
                     (Z.lor TCP_FIN TCP_ACK) 0) None 0;
      Some (Tcp (sockets t).[sock <- set_snd sk (snd_una sk) (u32 (snd_nxt sk + 1))] (tcp_isn t) s, 0) in
    match state sk with
    | TCP_ESTABLISHED => fin TCP_FIN_WAIT_1
    | TCP_CLOSE_WAIT => fin TCP_LAST_ACK
    | _ => Some (set_sock t sock (close_socket sk), 0)
    end.

End calls.

Definition tcp_socket_state (t : tcp) (sock : Z) : tcp_state :=
  if bad_sock t sock then TCP_CLOSED else state (sockets t).[sock].

(** * The receive buffer *)

Record sock_ok (sk : tcp_socket) : Prop := SockOk {
  sk_buf : Z.of_nat (length (rx_buf sk)) = TCP_RX_BUF_SIZE;
  sk_len : 0 <= rx_len sk <= TCP_RX_BUF_SIZE;
  sk_rdy : rx_ready sk = true <-> 0 < rx_len sk;
}.

(** The bytes waiting to be read. *)
Definition rx_data (sk : tcp_socket) : list Z := take (Z.to_nat (rx_len sk)) (rx_buf sk).

(** A received segment whose payload lies inside its buffer. *)
Definition input_ok (p : input) : Prop := 0 <= i_len p < 65536 /\ i_len p <= Z.of_nat (length (i_payload p)).

(** The part of an in-order payload that fits in the receive buffer. *)
Definition accepted (sk : tcp_socket) (p : input) : list Z :=
  if i_seq p =? rcv_nxt sk
  then take (Z.to_nat (Z.min (i_len p) (TCP_RX_BUF_SIZE - rx_len sk))) (i_payload p) else [].

Lemma rx_data_length sk : sock_ok sk -> Z.of_nat (length (rx_data sk)) = rx_len sk.
Proof. intros [? ? _]. unfold rx_data. rewrite length_take. lia. Qed.

(** Everything but the receive buffer and the acknowledgement number. *)
Definition same_but_rx (sk sk' : tcp_socket) : Prop :=
  used sk' = used sk /\ state sk' = state sk /\ local_port sk' = local_port sk /\
  remote_ip sk' = remote_ip sk /\ remote_port sk' = remote_port sk /\ snd_una sk' = snd_una sk /\
  snd_nxt sk' = snd_nxt sk /\ last_ack_tick sk' = last_ack_tick sk.

Lemma sk_data_spec sk p :
  sock_ok sk -> input_ok p ->
  exists sk', sk_data sk p = Some sk' /\ sock_ok sk' /\ same_but_rx sk sk' /\
    rx_data sk' = rx_data sk ++ accepted sk p /\
    rcv_nxt sk' = if i_seq p =? rcv_nxt sk then u32 (rcv_nxt sk + i_len p) else rcv_nxt sk.
Proof.
  intros Hok [Hl Hp]. pose proof (sk_buf sk Hok) as Hb. pose proof (sk_len sk Hok) as Hn.
  unfold sk_data, accepted. destruct (i_seq p =? rcv_nxt sk).
  2:{ exists sk. rewrite app_nil_r. repeat split; done || apply Hok. }
  unfold TCP_RX_BUF_SIZE in *. cbv zeta. rewrite (u16_small (8192 - rx_len sk)) by lia.
  set (copy := if i_len p <? 8192 - rx_len sk then _ else _).
  assert (copy = Z.min (i_len p) (8192 - rx_len sk)) as Ec.
  { unfold copy. destruct (Z.ltb_spec (i_len p) (8192 - rx_len sk)); lia. }
  rewrite <- Ec. clearbody copy. destruct (Z.ltb_spec 0 copy) as [Hc|Hc].
  - rewrite load_Some by lia. cbn [mbind option_bind]. change (Z.to_nat 0) with 0%nat. rewrite drop_0.
    set (bs := take (Z.to_nat copy) (i_payload p)).
    assert (length bs = Z.to_nat copy) as Hbs by (unfold bs; rewrite length_take; lia).
    rewrite store_Some by lia. cbn [mbind option_bind].
    set (buf := take _ (rx_buf sk) ++ bs ++ _).
    assert (length buf = length (rx_buf sk)) as Hbuf
      by (unfold buf; rewrite !length_app, length_take, length_drop; lia).
    eexists. split; [done|]. rewrite (u16_small (rx_len sk + copy)) by lia. split_and!.
    + constructor; cbn [set_rcv set_rx rx_buf rx_len rx_ready]; unfold TCP_RX_BUF_SIZE; [lia|lia|].
      split; [lia|done].
    + done.
    + unfold rx_data. cbn [set_rcv set_rx rx_buf rx_len]. unfold buf.
      rewrite app_assoc, take_app_length'; [done|]. rewrite length_app, length_take. lia.
    + done.
  - cbn [mbind option_bind]. eexists. split; [done|].
    assert (copy = 0) as -> by lia. rewrite take_0, app_nil_r. split_and!; try done.
    destruct Hok. by constructor.
Qed.

(** ** The state machine *)

(** One transition of a used socket on a segment with flags [f]; the last
    argument says whether the socket stays in use. *)
Inductive rx_edge (f : Z) : tcp_state -> tcp_state -> bool -> Prop :=
| edge_passive_open : has f TCP_SYN = true -> rx_edge f TCP_LISTEN TCP_SYN_RECEIVED true
| edge_active_open : has f TCP_SYN = true -> has f TCP_ACK = true ->
    rx_edge f TCP_SYN_SENT TCP_ESTABLISHED true
| edge_opened : has f TCP_ACK = true -> rx_edge f TCP_SYN_RECEIVED TCP_ESTABLISHED true
| edge_data : has f TCP_FIN = false -> has f TCP_RST = false ->
    rx_edge f TCP_ESTABLISHED TCP_ESTABLISHED true
| edge_peer_close : has f TCP_FIN = true -> has f TCP_RST = false ->
    rx_edge f TCP_ESTABLISHED TCP_CLOSE_WAIT true
| edge_reset : has f TCP_RST = true -> rx_edge f TCP_ESTABLISHED TCP_CLOSED false
| edge_fin_acked : has f TCP_ACK = true -> has f TCP_FIN = false ->
    rx_edge f TCP_FIN_WAIT_1 TCP_FIN_WAIT_2 true
| edge_both_fin : has f TCP_ACK = true -> has f TCP_FIN = true ->
    rx_edge f TCP_FIN_WAIT_1 TCP_TIME_WAIT true
| edge_simultaneous : has f TCP_FIN = true -> has f TCP_ACK = false ->
    rx_edge f TCP_FIN_WAIT_1 TCP_CLOSING true
| edge_peer_fin : has f TCP_FIN = true -> rx_edge f TCP_FIN_WAIT_2 TCP_TIME_WAIT true
| edge_closing : has f TCP_ACK = true -> rx_edge f TCP_CLOSING TCP_TIME_WAIT true
| edge_last_ack : has f TCP_ACK = true -> rx_edge f TCP_LAST_ACK TCP_CLOSED false
| edge_wait : rx_edge f TCP_TIME_WAIT TCP_TIME_WAIT true.

Lemma land_syn_ack f :
  (Z.land f (Z.lor TCP_SYN TCP_ACK) =? Z.lor TCP_SYN TCP_ACK) = has f TCP_SYN && has f TCP_ACK.
Proof.
  unfold has. change (Z.lor TCP_SYN TCP_ACK) with 18. change TCP_SYN with (2 ^ 1). change TCP_ACK with (2 ^ 4).
  assert (forall k, 0 <= k -> negb (Z.land f (2 ^ k) =? 0) = Z.testbit f k) as Hbit.
  { intros k Hk. destruct (Z.testbit f k) eqn:E.
    - apply negb_true_iff, Z.eqb_neq. intros Hz. apply (f_equal (fun z => Z.testbit z k)) in Hz.
      rewrite Z.land_spec, E, Z.pow2_bits_true, Z.bits_0 in Hz by done. done.
    - apply negb_false_iff, Z.eqb_eq. apply Z.bits_inj'. intros n Hn.
      rewrite Z.land_spec, Z.bits_0, Z.pow2_bits_eqb by done.
      destruct (Z.eqb_spec k n) as [<-|]; [by rewrite E|apply andb_false_r]. }
  rewrite !Hbit by lia. apply eq_true_iff_eq. rewrite Z.eqb_eq, andb_true_iff. split.
  - intros E. assert (forall k, Z.testbit 18 k = true -> Z.testbit f k = true) as Hs.
    { intros k Hk. rewrite <- E, Z.land_spec in Hk. by apply andb_prop in Hk as [? _]. }
    split; by apply Hs.
  - intros [H1 H4]. apply Z.bits_inj'. intros n Hn. rewrite Z.land_spec.
    destruct (decide (n = 1)) as [->|]; [by rewrite H1|].
    destruct (decide (n = 4)) as [->|]; [by rewrite H4|].
    assert (Z.testbit 18 n = false) as ->; [|apply andb_false_r].
    change 18 with (Z.lor (2 ^ 1) (2 ^ 4)).
    rewrite Z.lor_spec, !Z.pow2_bits_eqb by lia.
    destruct (Z.eqb_spec 1 n), (Z.eqb_spec 4 n); done || lia.
Qed.

(** The bytes a segment adds to the receive buffer. *)
Definition taken (sk : tcp_socket) (p : input) : list Z :=
  if bool_decide (state sk = TCP_ESTABLISHED) && negb (has (i_flags p) TCP_FIN) && (0 <? i_len p)
  then accepted sk p else [].

(** What one segment does to a used socket. *)
Record rx_post (sk sk' : tcp_socket) (p : input) : Prop := RxPost {
  rp_ok : sock_ok sk';
  rp_data : rx_data sk' = rx_data sk ++ taken sk p;
  rp_edge : sk' = sk \/ rx_edge (i_flags p) (state sk) (state sk') (used sk');
  rp_port : local_port sk' = local_port sk;
  rp_peer : remote_ip sk' = remote_ip sk /\ remote_port sk' = remote_port sk \/
            state sk = TCP_LISTEN /\ remote_ip sk' = i_src p /\ remote_port sk' = i_sport p;
}.

(** Branches that do not touch the receive buffer. *)
Lemma rx_post_frame sk sk' p :
  sock_ok sk -> rx_buf sk' = rx_buf sk -> rx_len sk' = rx_len sk -> rx_ready sk' = rx_ready sk ->
  taken sk p = [] -> local_port sk' = local_port sk ->
  (remote_ip sk' = remote_ip sk /\ remote_port sk' = remote_port sk \/
   state sk = TCP_LISTEN /\ remote_ip sk' = i_src p /\ remote_port sk' = i_sport p) ->
  sk' = sk \/ rx_edge (i_flags p) (state sk) (state sk') (used sk') -> rx_post sk sk' p.
Proof.
  intros [H1 H2 H3] Eb El Er Et Hport Hpeer Hedge. constructor; try done.
  - constructor; by rewrite ?Eb, ?El, ?Er.
  - by rewrite Et, app_nil_r; unfold rx_data; rewrite Eb, El.
Qed.

Lemma sk_rx_established isn now sk p :
  sock_ok sk -> input_ok p -> used sk = true -> state sk = TCP_ESTABLISHED ->
  exists sk' g, sk_rx isn now sk p = Some (sk', isn, g) /\ rx_post sk sk' p.
Proof.
  intros Hok Hp Hu Hs. unfold sk_rx. rewrite Hs. cbv zeta.
  assert (forall s1 : tcp_socket, used s1 = true -> state s1 = TCP_ESTABLISHED -> has (i_flags p) TCP_FIN = false ->
    let s2 := if has (i_flags p) TCP_RST then close_socket s1 else s1 in
    rx_edge (i_flags p) TCP_ESTABLISHED (state s2) (used s2)) as Hedge.
  { intros s1 H1 H2 H3. destruct (has (i_flags p) TCP_RST) eqn:Hr; cbn; [by constructor|].
    rewrite H1, H2. by constructor. }
  unfold taken in *. destruct (has (i_flags p) TCP_FIN) eqn:Hf.
  { cbn [mbind option_bind]. eexists _, _. split; [done|].
    apply rx_post_frame; try done.
    - by destruct (has _ TCP_RST).
    - by destruct (has _ TCP_RST).
    - by destruct (has _ TCP_RST).
    - unfold taken. by rewrite Hf, andb_false_r.
    - by destruct (has _ TCP_RST).
    - left. by destruct (has _ TCP_RST).
    - right. rewrite Hs. destruct (has _ TCP_RST) eqn:Hr; cbn; rewrite ?Hu; by constructor. }
  destruct (Z.ltb_spec 0 (i_len p)) as [Hl|Hl].
  - destruct (sk_data_spec sk p Hok Hp) as (s1 & -> & Hok1 & Hsame & Hd & _).
    destruct Hsame as (Hu1 & Hs1 & Hp1 & Hr1 & Hr2 & _).
    cbn [mbind option_bind]. eexists _, _. split; [done|]. constructor.
    + destruct Hok1. destruct (has _ TCP_RST); by constructor.
    + unfold taken. rewrite bool_decide_true, Hf, (proj2 (Z.ltb_lt 0 _)) by done.
      cbn [andb negb]. rewrite <- Hd. by destruct (has _ TCP_RST).
    + right. rewrite Hs. apply Hedge; [by rewrite Hu1|by rewrite Hs1|done].
    + by destruct (has _ TCP_RST).
    + left. by destruct (has _ TCP_RST).
  - assert (taken sk p = []) as Ht.
    { unfold taken. rewrite (proj2 (Z.ltb_ge 0 (i_len p))) by lia. by rewrite andb_false_r. }
    destruct (has (i_flags p) TCP_ACK); cbn [mbind option_bind]; eexists _, _; (split; [done|]);
      (apply rx_post_frame; [done| | | |done| | |]); try (by destruct (has _ TCP_RST));
      try (left; by destruct (has _ TCP_RST)); right; rewrite Hs; by apply Hedge.
Qed.

Ltac rx_edge_tac :=
  first [ constructor; assumption
        | constructor; try done;
          match goal with H : _ && _ = false |- _ => apply andb_false_iff in H; naive_solver congruence end ].

(** A segment inside its buffer is processed without leaving the receive
    buffer, and does to the socket what the protocol allows. *)
Lemma sk_rx_spec isn now sk p :
  sock_ok sk -> input_ok p -> used sk = true ->
  exists sk' isn' g, sk_rx isn now sk p = Some (sk', isn', g) /\ rx_post sk sk' p.
Proof.
  intros Hok Hp Hu. destruct (decide (state sk = TCP_ESTABLISHED)) as [He|Hne].
  { destruct (sk_rx_established isn now sk p Hok Hp Hu He) as (sk' & g & E & Hpost). eauto. }
  assert (taken sk p = []) as Ht by (unfold taken; by rewrite bool_decide_false).
  unfold sk_rx. rewrite land_syn_ack. destruct (state sk) eqn:Es; try done; cbv zeta;
    repeat case_if; eexists _, _, _; (split; [reflexivity|]);
    (apply rx_post_frame; [done|done|done|done|done|done| |]); rewrite ?Es;
    try (by left); try (by right); cbn; rewrite ?Hu, ?Es; right; rx_edge_tac.
Qed.

(** ** Segments on the wire *)

Lemma tcp_header_length h : length (tcp_header_bytes h) = 20%nat.
Proof. done. Qed.

Section safety.
Context {DRV : NetDriver}.

Lemma tcp_send_total s iface g payload n :
  0 <= n <= 65515 -> match payload with Some p => n <= Z.of_nat (length p) | None => True end ->
  is_Some (tcp_send_segment s iface g payload n).
Proof.
  intros Hn Hp. unfold tcp_send_segment. cbv zeta. unfold TCP_HDR_MIN_LEN.
  rewrite (u16_small (20 + n)) by lia.
  destruct (Z.ltb_spec (ETH_MTU - 20) (20 + n)) as [|Hm]; [by eexists|]. unfold ETH_MTU in Hm.
  set (buf := repeat 0 _). assert (length buf = 1500%nat) as Hb by done. clearbody buf.
  set (h0 := tcp_header_bytes (segment_header g 0)). assert (length h0 = 20%nat) as H0 by done. clearbody h0.
  rewrite (store_Some buf 0 h0) by lia. cbn [mbind option_bind].
  set (b1 := _ ++ h0 ++ _). assert (length b1 = 1500%nat) as Hb1
    by (unfold b1; rewrite !length_app, length_take, length_drop; lia). clearbody b1.
  set (m := match payload with Some p => _ | None => _ end).
  assert (exists b2, m = Some b2 /\ length b2 = 1500%nat) as (b2 & -> & Hb2).
  { unfold m. destruct payload as [p|]; [|by eauto]. destruct (Z.ltb_spec 0 n); [|by eauto].
    rewrite load_Some by lia. cbn [mbind option_bind]. rewrite store_Some.
    - eexists. split; [done|]. rewrite !length_app, length_drop, !length_take, length_drop. lia.
    - done.
    - rewrite length_take, length_drop. lia. }
  cbn [mbind option_bind]. set (h1 := tcp_header_bytes _). assert (length h1 = 20%nat) as H1 by done.
  clearbody h1. rewrite (store_Some b2 0 h1) by lia. cbn [mbind option_bind].
  apply ipv4_send_total; [lia|]. rewrite !length_app, length_take, length_drop. lia.
Qed.

(** ** Connections *)

Record tcp_ok (t : tcp) : Prop := TcpOk {
  tk_len : Z.of_nat (length (sockets t)) = TCP_MAX_SOCKETS;
  tk_socks : forall k, 0 <= k < TCP_MAX_SOCKETS -> sock_ok (sockets t).[k];
}.

(** The segment names the socket: its port and its peer, or the port it listens
    on. *)
Definition addressed (sk : tcp_socket) (p : input) : Prop :=
  local_port sk = i_dport p /\
  (remote_port sk = i_sport p /\ remote_ip sk = i_src p \/ state sk = TCP_LISTEN).

(** The segment comes from the peer of a socket that is connecting, but is for
    another local port. *)
Definition misdirected (sk : tcp_socket) (p : input) : Prop :=
  state sk = TCP_SYN_SENT /\ remote_ip sk = i_src p /\ remote_port sk = i_sport p /\ local_port sk <> i_dport p.

Definition unclaimed (l : list tcp_socket) (p : input) : Prop :=
  forall j, 0 <= j < TCP_MAX_SOCKETS -> used l.[j] = true -> ~ addressed l.[j] p.

Lemma tcp_lookup_spec l p k :
  tcp_lookup l (i_src p) (i_sport p) (i_dport p) = Some k ->
  0 <= k < TCP_MAX_SOCKETS /\ used l.[k] = true /\
  (addressed l.[k] p \/ misdirected l.[k] p /\ unclaimed l p).
Proof.
  unfold tcp_lookup, addressed, misdirected, unclaimed, TCP_MAX_SOCKETS. cbv zeta.
  destruct (find_first (fun i => exact_match _ _ _ _) _ _) as [i|] eqn:E1.
  { intros [= <-]. apply find_first_Some in E1 as (Hi & HP & _). unfold exact_match in HP. bool_to_prop.
    split_and!; [lia|lia|done|]. left. auto. }
  destruct (find_first (fun i => listen_match _ _) _ _) as [i|] eqn:E2.
  { intros [= <-]. apply find_first_Some in E2 as (Hi & HP & _). unfold listen_match in HP. bool_to_prop.
    split_and!; [lia|lia|done|]. left. rewrite bool_decide_eq_true in *. auto. }
  intros E3. apply find_first_Some in E3 as (Hi & HP & _). unfold syn_sent_match in HP. bool_to_prop.
  rewrite bool_decide_eq_true in *.
  rewrite find_first_None in E1, E2.
  assert (forall j, 0 <= j < 16 -> used l.[j] = true ->
    ~ (local_port l.[j] = i_dport p /\
       (remote_port l.[j] = i_sport p /\ remote_ip l.[j] = i_src p \/ state l.[j] = TCP_LISTEN))) as Hun.
  { intros j Hj Hu [Hl Hr]. specialize (E1 j ltac:(lia)). specialize (E2 j ltac:(lia)).
    unfold exact_match in E1. unfold listen_match in E2. rewrite Hu, Hl, Z.eqb_refl in *. cbn [andb] in *.
    destruct Hr as [[Hp Hi']|Hs]; [rewrite Hp, Hi', !Z.eqb_refl in E1; done|].
    rewrite bool_decide_true in E2 by done. done. }
  split_and!; [lia|lia|done|]. right. split; [|done]. split_and!; try done.
  intros Hp. apply (Hun k); [lia|done|]. auto.
Qed.

Lemma tcp_ok_set t k sk isn s :
  tcp_ok t -> sock_ok sk -> tcp_ok (Tcp (sockets t).[k <- sk] isn s).
Proof.
  intros [Hl Hs] Hk. constructor; cbn [sockets]; [by rewrite aset_length|].
  intros j Hj. destruct (decide (k = j)) as [<-|Hne].
  - by rewrite aget_aset_eq by lia.
  - destruct (decide (0 <= k)).
    + rewrite aget_aset_ne by lia. by apply Hs.
    + assert (exists x, (sockets t).[k <- sk].[j] = x /\ sock_ok x) as (x & -> & ?); [|done].
      unfold aset, aget. replace (Z.to_nat k) with 0%nat by lia. destruct (decide (Z.to_nat j = 0%nat)) as [->|].
      * rewrite list_lookup_total_insert_eq by lia. eauto.
      * rewrite list_lookup_total_insert_ne by lia. eexists. split; [done|]. by apply Hs.
Qed.

(** One segment, delivered. *)
Lemma tcp_input_spec t now iface p :
  tcp_ok t -> input_ok p ->
  exists t', tcp_input t now iface p = Some t' /\ tcp_ok t' /\
    match tcp_lookup (sockets t) (i_src p) (i_sport p) (i_dport p) with
    | None => sockets t' = sockets t
    | Some k => exists sk', rx_post (sockets t).[k] sk' p /\ sockets t' = (sockets t).[k <- sk']
    end.
Proof.
  intros Hok Hp. unfold tcp_input.
  destruct (tcp_lookup _ _ _ _) as [k|] eqn:Ek.
  - apply tcp_lookup_spec in Ek as (Hk & Hu & Ha).
    destruct (sk_rx_spec (tcp_isn t) now (sockets t).[k] p (tk_socks t Hok k Hk) Hp Hu)
      as (sk' & isn' & g & -> & Hpost).
    cbn [mbind option_bind].
    assert (exists s', match g with
      | Some g => '(s, _) ← tcp_send_segment (net t) iface g None 0; Some s
      | None => Some (net t) end = Some s') as (s' & ->).
    { destruct g as [g|]; [|by eauto].
      destruct (tcp_send_total (net t) iface g None 0) as [[s' r] E]; [lia|done|]. rewrite E. by eauto. }
    cbn [mbind option_bind]. eexists. split; [done|]. split; [apply tcp_ok_set; [done|apply Hpost]|].
    eauto.
  - destruct (negb _); [|by eauto].
    set (g := Segment _ _ _ _ _ _ _).
    destruct (tcp_send_total (net t) iface g None 0) as [[s' r] E]; [lia|done|]. rewrite E.
    cbn [mbind option_bind]. eexists. split; [done|]. split; [|done]. by destruct Hok.
Qed.

(** C29: a segment whose payload lies inside its buffer is processed without
    touching memory outside the receive buffers, and changes at most one socket,
    one in use, along one edge of the connection state machine that the segment's
    flags allow; the socket keeps its port, and its peer too unless it was
    listening.  The segment is addressed to that socket: it names its port and
    its peer, or the port it listens on.  There is one exception, a missing
    comparison of the port: when no socket is addressed, a connecting socket
    takes a segment of its peer for another local port. *)
Theorem tcp_rx_connection_safety t now iface src data len :
  tcp_ok t -> input_ok (tcp_parse src data len) ->
  exists t' k0, tcp_rx t now iface src data len = Some t' /\ tcp_ok t' /\
    forall k, 0 <= k < TCP_MAX_SOCKETS ->
      let p := tcp_parse src data len in
      let sk := (sockets t).[k] in
      let sk' := (sockets t').[k] in
      sk' = sk \/
      k = k0 /\ used sk = true /\
      (addressed sk p \/ misdirected sk p /\ unclaimed (sockets t) p) /\
      rx_edge (i_flags p) (state sk) (state sk') (used sk') /\ local_port sk' = local_port sk /\
      (state sk = TCP_LISTEN \/ remote_ip sk' = remote_ip sk /\ remote_port sk' = remote_port sk).
Proof.
  intros Hok Hp. unfold tcp_rx. case_if; [exists t, 0; eauto|].
  destruct (tcp_input_spec t now iface _ Hok Hp) as (t' & -> & Hok' & Hpost).
  destruct (tcp_lookup _ _ _ _) as [k0|] eqn:Ek.
  - destruct Hpost as (sk' & Hpost & Es). apply tcp_lookup_spec in Ek as (Hk & Hu & Ha).
    exists t', k0. split_and!; [done|done|]. intros k Hkr. cbv zeta. rewrite Es.
    pose proof (tk_len t Hok). destruct (decide (k = k0)) as [->|Hne].
    + rewrite aget_aset_eq by lia. destruct (rp_edge _ _ _ Hpost) as [->|He]; [by left|]. right.
      destruct (rp_peer _ _ _ Hpost) as [?|(? & _)]; split_and!; try done; try apply Hpost; auto.
    + left. apply aget_aset_ne; lia.
  - exists t', 0. split_and!; [done|done|]. intros k Hkr. left. by rewrite Hpost.
Qed.

(** ** Reading *)

(** Moving the unread bytes to the front of the buffer. *)
Lemma shift_front l n r :
  0 <= n -> 0 <= r -> n + r <= Z.of_nat (length l) ->
  take (Z.to_nat r) (memmove l 0 n r) = take (Z.to_nat r) (drop (Z.to_nat n) l).
Proof.
  intros Hn Hr Hl. pose proof (memmove_length l 0 n r) as Hlen.
  apply list_eq. intros i. destruct (decide (i < Z.to_nat r)%nat) as [Hi|Hi].
  - rewrite !lookup_take_lt, lookup_drop by done.
    rewrite <- (Nat2Z.id i), aget_lookup by lia. rewrite memmove_correct by lia.
    unfold copied. rewrite decide_True by lia. rewrite <- aget_lookup by lia. f_equal. lia.
  - rewrite !lookup_take_ge by lia. done.
Qed.

(** [tcp_socket_recv] hands out the oldest bytes and keeps the others. *)
Lemma tcp_recv_spec t k buf n :
  tcp_ok t -> 0 <= k < TCP_MAX_SOCKETS -> used (sockets t).[k] = true ->
  0 <= n <= Z.of_nat (length buf) ->
  let sk := (sockets t).[k] in
  exists t' r buf' sk', tcp_socket_recv t k buf n = Some (t', r, buf') /\ tcp_ok t' /\
    sockets t' = (sockets t).[k <- sk'] /\ same_but_rx sk sk' /\ rcv_nxt sk' = rcv_nxt sk /\
    rx_data sk = take (Z.to_nat r) buf' ++ rx_data sk' /\ length buf' = length buf /\
    (rx_len sk = 0 -> r <= 0) /\
    (0 < rx_len sk -> r = Z.min n (rx_len sk)).
Proof.
  intros Hok Hk Hu Hn sk. pose proof (tk_socks t Hok k Hk) as Hs. fold sk in Hs, Hu.
  pose proof (sk_buf sk Hs) as Hb. pose proof (sk_len sk Hs) as Hl. pose proof (sk_rdy sk Hs) as Hr.
  pose proof (tk_len t Hok) as Ht. unfold TCP_RX_BUF_SIZE, TCP_MAX_SOCKETS in *.
  assert (forall r, r <= 0 -> rx_len sk = 0 -> exists t' r' buf' sk', Some (t, r, buf) = Some (t', r', buf') /\ tcp_ok t' /\
    sockets t' = (sockets t).[k <- sk'] /\ same_but_rx sk sk' /\ rcv_nxt sk' = rcv_nxt sk /\
    rx_data sk = take (Z.to_nat r') buf' ++ rx_data sk' /\ length buf' = length buf /\
    (rx_len sk = 0 -> r' <= 0) /\ (0 < rx_len sk -> r' = Z.min n (rx_len sk))) as Hnone.
  { intros r Hr0 Hz. exists t, r, buf, sk. replace (Z.to_nat r) with 0%nat by lia.
    split_and!; try done; try lia.
    unfold sk, aset, aget. rewrite list_insert_id; [done|]. apply list_lookup_lookup_total_lt. lia. }
  unfold tcp_socket_recv, bad_sock, TCP_MAX_SOCKETS. fold sk.
  rewrite Hu, (proj2 (Z.ltb_ge k 0)), (proj2 (Z.leb_gt 16 k)) by lia. cbn [orb negb]. cbv zeta.
  destruct (rx_ready sk) eqn:Er; cbn [negb andb].
  2:{ assert (rx_len sk = 0) by (destruct Hr as [_ Hr]; destruct (decide (0 < rx_len sk)); [by apply Hr in l|lia]).
      case_if; apply Hnone; done || lia. }
  assert (0 < rx_len sk) as Hpos by by apply Hr.
  set (copy := if n <? rx_len sk then n else rx_len sk).
  assert (copy = Z.min n (rx_len sk)) as Ec by (unfold copy; destruct (Z.ltb_spec n (rx_len sk)); lia).
  clearbody copy. rewrite load_Some by lia. cbn [mbind option_bind].
  change (Z.to_nat 0) with 0%nat. rewrite drop_0. set (bs := take (Z.to_nat copy) (rx_buf sk)).
  assert (length bs = Z.to_nat copy) as Hbs by (unfold bs; rewrite length_take; lia).
  rewrite store_Some by lia. cbn [mbind option_bind]. rewrite (u16_small (rx_len sk - copy)) by lia.
  set (rx := if 0 <? rx_len sk - copy then _ else _).
  assert (length rx = length (rx_buf sk) /\
    take (Z.to_nat (rx_len sk - copy)) rx = take (Z.to_nat (rx_len sk - copy)) (drop (Z.to_nat copy) (rx_buf sk)))
    as [Hrl Hrd].
  { unfold rx. destruct (Z.ltb_spec 0 (rx_len sk - copy)).
    - by rewrite memmove_length, shift_front by lia.
    - replace (Z.to_nat (rx_len sk - copy)) with 0%nat by lia. by rewrite !take_0. }
  clearbody rx. set (sk' := set_rx sk rx (rx_len sk - copy) _).
  assert (sock_ok sk') as Hok'.
  { constructor; cbn [sk' set_rx rx_buf rx_len rx_ready]; unfold TCP_RX_BUF_SIZE; [lia|lia|].
    destruct (Z.eqb_spec (rx_len sk - copy) 0); split; done || lia. }
  exists (set_sock t k sk'), copy, (take 0 buf ++ bs ++ drop (0 + length bs) buf), sk'.
  split; [done|]. split; [by apply tcp_ok_set|]. split_and!; try done; try lia.
  - unfold rx_data, sk'. cbn [set_rx rx_buf rx_len]. rewrite Hrd. rewrite take_0, app_nil_l.
    rewrite (take_app_length' bs) by lia. unfold bs.
    rewrite take_drop_commute. replace (Z.to_nat copy + Z.to_nat (rx_len sk - copy))%nat with (Z.to_nat (rx_len sk)) by lia.
    rewrite <- (take_drop (Z.to_nat copy) (take (Z.to_nat (rx_len sk)) (rx_buf sk))) at 1.
    rewrite take_take. do 2 f_equal. lia.
  - rewrite take_0, app_nil_l, length_app, length_drop. lia.
Qed.

(** ** Sending *)

Lemma send_loop_total fuel s sk data len sent :
  0 <= sent -> len <= 65535 -> len <= Z.of_nat (length data) ->
  exists s' nxt r, send_loop fuel s sk data len sent = Some (s', set_snd sk (snd_una sk) nxt, r).
Proof.
  intros Hs Hlen Hd. revert s sk sent Hs. induction fuel as [|f IH]; intros s sk sent Hs; cbn [send_loop].
  { eexists _, (snd_nxt sk), _. by destruct sk. }
  destruct (Z.ltb_spec sent len) as [Hlt|Hge]; [|eexists _, (snd_nxt sk), _; by destruct sk].
  rewrite (u16_small (len - sent)) by lia.
  set (chunk := if TCP_MSS <? len - sent then TCP_MSS else len - sent).
  assert (0 < chunk <= len - sent /\ chunk <= 1460) as Hc.
  { unfold chunk, TCP_MSS. destruct (Z.ltb_spec 1460 (len - sent)); lia. }
  clearbody chunk. set (g := Segment _ _ _ _ _ _ _).
  destruct (tcp_send_total s None g (Some (drop (Z.to_nat sent) data)) chunk) as [[s' r] E];
    [lia|rewrite length_drop; lia|]. cbv zeta. rewrite E. cbn [mbind option_bind].
  rewrite (u16_small (sent + chunk)) by lia.
  destruct (IH s' (set_snd sk (snd_una sk) (u32 (snd_nxt sk + chunk))) (sent + chunk)) as (s2 & nxt & r2 & ->);
    [lia|]. eexists _, nxt, _. done.
Qed.

(** ** The byte stream of a connection

    [stream_step k t inp out t']: an operation that takes [t] to [t'], brings
    the bytes [inp] into the receive buffer of socket [k] and hands the bytes
    [out] of it to the reader. *)
Inductive stream_step (k : Z) : tcp -> list Z -> list Z -> tcp -> Prop :=
| st_rx t now iface src data len t' :
    input_ok (tcp_parse src data len) -> tcp_rx t now iface src data len = Some t' ->
    let p := tcp_parse src data len in
    stream_step k t
      (if TCP_HDR_MIN_LEN <=? len
       then if bool_decide (tcp_lookup (sockets t) (i_src p) (i_sport p) (i_dport p) = Some k)
            then taken (sockets t).[k] p else []
       else []) [] t'
| st_recv t buf n t' r buf' :
    0 <= n <= Z.of_nat (length buf) -> used (sockets t).[k] = true ->
    tcp_socket_recv t k buf n = Some (t', r, buf') ->
    stream_step k t [] (take (Z.to_nat r) buf') t'
| st_recv_other t j buf n t' r buf' :
    j <> k -> 0 <= j < TCP_MAX_SOCKETS -> used (sockets t).[j] = true ->
    0 <= n <= Z.of_nat (length buf) -> tcp_socket_recv t j buf n = Some (t', r, buf') ->
    stream_step k t [] [] t'
| st_send t j data len t' r :
    len <= 65535 -> len <= Z.of_nat (length data) ->
    tcp_socket_send t j data len = Some (t', r) -> stream_step k t [] [] t'
| st_close t j t' r : tcp_socket_close t j = Some (t', r) -> stream_step k t [] [] t'
| st_tick t now : stream_step k t [] [] (tcp_tick t now).

Inductive stream_run (k : Z) : tcp -> list Z -> list Z -> tcp -> Prop :=
| sr_nil t : stream_run k t [] [] t
| sr_step t1 i1 o1 t2 i2 o2 t3 :
    stream_step k t1 i1 o1 t2 -> stream_run k t2 i2 o2 t3 -> stream_run k t1 (i1 ++ i2) (o1 ++ o2) t3.

(** Writing back a socket with the same receive buffer. *)
Definition same_rx (sk sk' : tcp_socket) : Prop :=
  rx_buf sk' = rx_buf sk /\ rx_len sk' = rx_len sk /\ rx_ready sk' = rx_ready sk.

Lemma same_rx_ok sk sk' : same_rx sk sk' -> sock_ok sk -> sock_ok sk'.
Proof. intros (E1 & E2 & E3) [H1 H2 H3]. constructor; by rewrite ?E1, ?E2, ?E3. Qed.

Lemma same_rx_write t j sk' isn s k :
  tcp_ok t -> 0 <= j < TCP_MAX_SOCKETS -> same_rx (sockets t).[j] sk' -> 0 <= k ->
  let t' := Tcp (sockets t).[j <- sk'] isn s in
  tcp_ok t' /\ rx_data (sockets t').[k] = rx_data (sockets t).[k].
Proof.
  intros Hok Hj Hs Hk. split.
  - apply tcp_ok_set; [done|]. eapply same_rx_ok; [done|]. by apply Hok.
  - cbn [sockets]. pose proof (tk_len t Hok). destruct (decide (j = k)) as [<-|].
    + rewrite aget_aset_eq by lia. destruct Hs as (E1 & E2 & _). unfold rx_data. by rewrite E1, E2.
    + by rewrite aget_aset_ne by lia.
Qed.

Lemma bad_sock_false t j :
  bad_sock t j = false -> 0 <= j < TCP_MAX_SOCKETS /\ used (sockets t).[j] = true.
Proof. unfold bad_sock. intros. bool_to_prop. split; [lia|done]. Qed.

Lemma tcp_tick_stream t now k :
  tcp_ok t -> 0 <= k -> tcp_ok (tcp_tick t now) /\
  rx_data (sockets (tcp_tick t now)).[k] = rx_data (sockets t).[k].
Proof.
  intros Hok Hk. unfold tcp_tick.
  apply (for_loop_ind (fun _ u => tcp_ok u /\ rx_data (sockets u).[k] = rx_data (sockets t).[k])); [done|].
  intros j u Hj [Hu Hd]. cbv zeta. case_if; [|done]. rewrite <- Hd.
  apply same_rx_write; [done|unfold TCP_MAX_SOCKETS in *; lia|done|done].
Qed.

Lemma stream_step_spec k t i o t' :
  tcp_ok t -> 0 <= k < TCP_MAX_SOCKETS -> stream_step k t i o t' ->
  tcp_ok t' /\ rx_data (sockets t).[k] ++ i = o ++ rx_data (sockets t').[k].
Proof.
  intros Hok Hk Hstep. pose proof (tk_len t Hok) as Hlen.
  destruct Hstep as [t now iface src data len t' Hp E p|t buf n t' r buf' Hn Hu E
    |t j buf n t' r buf' Hne Hj Hu Hn E|t j data len t' r Hl Hd E|t j t' r E|t now].
  - unfold tcp_rx in E. destruct (Z.ltb_spec len TCP_HDR_MIN_LEN) as [Hs|Hs].
    { injection E as <-. rewrite (proj2 (Z.leb_gt _ _)), app_nil_r by lia. done. }
    rewrite (proj2 (Z.leb_le _ _)) by lia.
    destruct (tcp_input_spec t now iface _ Hok Hp) as (t2 & E2 & Hok2 & Hpost). rewrite E2 in E.
    injection E as <-. split; [done|]. cbn [app]. fold p in Hpost.
    destruct (tcp_lookup _ _ _ _) as [k0|] eqn:Ek.
    + destruct Hpost as (sk' & Hpost & ->). apply tcp_lookup_spec in Ek as (Hk0 & _ & _).
      case_bool_decide as Hkk.
      * simplify_eq. rewrite aget_aset_eq by lia. symmetry. apply Hpost.
      * rewrite app_nil_r, aget_aset_ne; [done|lia|lia|]. intros ->. done.
    + rewrite bool_decide_false by done. by rewrite app_nil_r, Hpost.
  - destruct (tcp_recv_spec t k buf n Hok Hk Hu Hn) as (t2 & r2 & b2 & sk' & E2 & Hok2 & Es & _ & _ & Hd & _).
    rewrite E2 in E. injection E as <- <- <-. split; [done|].
    rewrite app_nil_r, Es, aget_aset_eq by lia. done.
  - destruct (tcp_recv_spec t j buf n Hok Hj Hu Hn) as (t2 & r2 & b2 & sk' & E2 & Hok2 & Es & _).
    rewrite E2 in E. injection E as <- <- <-. split; [done|].
    rewrite app_nil_r, Es, aget_aset_ne by lia. done.
  - rewrite app_nil_r. cbn [app]. unfold tcp_socket_send in E.
    destruct (bad_sock t j) eqn:Eb; [by injection E as <- <-|].
    apply bad_sock_false in Eb as [Hj _]. case_if_in E; [by injection E as <- <-|].
    destruct (send_loop_total (S (Z.to_nat len)) (net t) (sockets t).[j] data len 0) as (s' & nxt & r' & E2);
      [lia|done|done|]. rewrite E2 in E. cbn [mbind option_bind] in E. injection E as <- <-.
    destruct (same_rx_write t j (set_snd (sockets t).[j] (snd_una (sockets t).[j]) nxt) (tcp_isn t) s' k Hok Hj)
      as [? ->]; done || lia.
  - rewrite app_nil_r. cbn [app]. unfold tcp_socket_close in E.
    destruct (bad_sock t j) eqn:Eb; [by injection E as <- <-|].
    apply bad_sock_false in Eb as [Hj _]. cbv zeta in E.
    assert (forall sk' isn s, same_rx (sockets t).[j] sk' ->
      tcp_ok (Tcp (sockets t).[j <- sk'] isn s) /\
      rx_data (sockets t).[k] = rx_data (sockets (Tcp (sockets t).[j <- sk'] isn s)).[k]) as Hw.
    { intros sk' isn s Hs. destruct (same_rx_write t j sk' isn s k Hok Hj Hs) as [? ->]; done || lia. }
    assert (forall g x, ('(s, _) ← tcp_send_segment (net t) None g None 0; Some (x s, 0)) = Some (t', r) ->
      exists s, t' = x s) as Hsend.
    { intros g x Ex. destruct (tcp_send_total (net t) None g None 0) as [[s z] Eg]; [lia|done|].
      rewrite Eg in Ex. injection Ex as <- _. eauto. }
    destruct (state (sockets t).[j]) eqn:Est; try (injection E as <- <-; by apply Hw);
      apply (Hsend _ (fun s => Tcp _ _ s)) in E as [s ->]; by apply Hw.
  - rewrite app_nil_r. cbn [app]. destruct (tcp_tick_stream t now k Hok ltac:(lia)) as [? ->]. done.
Qed.

(** C10: over any sequence of received segments, reads, sends, closes and timer
    ticks, what the reader of a socket gets, followed by what still waits in
    its buffer, is what waited before followed by the in-order payloads that
    were accepted: the receive path neither loses, duplicates nor reorders a
    byte it accepted. *)
Theorem tcp_receive_stream k t i o t' :
  tcp_ok t -> 0 <= k < TCP_MAX_SOCKETS -> stream_run k t i o t' ->
  tcp_ok t' /\ rx_data (sockets t).[k] ++ i = o ++ rx_data (sockets t').[k].
Proof.
  intros Hok Hk Hrun. induction Hrun as [t|t1 i1 o1 t2 i2 o2 t3 Hstep Hrun IH].
  - by rewrite app_nil_r.
  - destruct (stream_step_spec k t1 i1 o1 t2 Hok Hk Hstep) as [Hok2 E1].
    destruct (IH Hok2) as [Hok3 E2]. split; [done|].
    by rewrite app_assoc, E1, <- !app_assoc, E2.
Qed.

End safety.

(** * What the receive path gets wrong *)

(** C40: a segment larger than the free space of the receive buffer is
    acknowledged in full: [rcv_nxt], and the acknowledgement sent back, advance
    by the whole payload although only the part that fits was stored, so the
    peer never sends the rest again. *)
Theorem tcp_acks_dropped_bytes isn now sk p :
  sock_ok sk -> input_ok p -> state sk = TCP_ESTABLISHED ->
  has (i_flags p) TCP_FIN = false -> has (i_flags p) TCP_RST = false ->
  i_seq p = rcv_nxt sk -> TCP_RX_BUF_SIZE - rx_len sk < i_len p ->
  exists sk' g, sk_rx isn now sk p = Some (sk', isn, Some g) /\
    rx_data sk' = rx_data sk ++ take (Z.to_nat (TCP_RX_BUF_SIZE - rx_len sk)) (i_payload p) /\
    g_ack g = u32 (rcv_nxt sk + i_len p) /\ rcv_nxt sk' = u32 (rcv_nxt sk + i_len p).
Proof.
  intros Hok Hp He Hf Hr Hs Hl. pose proof (sk_len sk Hok).
  unfold sk_rx. rewrite He, Hf, Hr. cbv zeta. rewrite (proj2 (Z.ltb_lt 0 (i_len p))) by lia.
  destruct (sk_data_spec sk p Hok Hp) as (sk' & -> & _ & _ & Hd & Hn). cbn [mbind option_bind].
  eexists _, _. split; [done|]. rewrite Hs, Z.eqb_refl in Hn. split_and!; [|exact Hn|exact Hn].
  rewrite Hd. f_equal. unfold accepted. rewrite Hs, Z.eqb_refl. do 2 f_equal. lia.
Qed.

(** The data offset of a TCP header is not compared with the segment
    length: an in-order 20-byte segment that claims a longer header makes the
    payload length wrap, and [tcp_rx] copies from memory outside the packet. *)
Theorem tcp_rx_overreads `{NetDriver} t now iface src data k :
  let p := tcp_parse src data 20 in
  let off := u8 (Z.shiftr (data_off (tcp_header_at data)) 4 * 4) in
  Z.of_nat (length data) = 20 -> 20 < off <= 60 ->
  tcp_ok t -> tcp_lookup (sockets t) src (i_sport p) (i_dport p) = Some k ->
  state (sockets t).[k] = TCP_ESTABLISHED -> has (i_flags p) TCP_FIN = false ->
  i_seq p = rcv_nxt (sockets t).[k] -> rx_len (sockets t).[k] < TCP_RX_BUF_SIZE ->
  tcp_rx t now iface src data 20 = None.
Proof.
  intros p off Hd Ho Hok Hk He Hf Hs Hl. unfold tcp_rx, TCP_HDR_MIN_LEN.
  rewrite (proj2 (Z.ltb_ge 20 20)) by done. fold p. unfold tcp_input. change (i_src p) with src. rewrite Hk.
  apply (tcp_lookup_spec _ p) in Hk as (Hkr & _ & _).
  unfold sk_rx. rewrite He, Hf. cbv zeta.
  assert (i_len p = 65556 - off) as El.
  { change (i_len p) with (u16 (20 - off)). unfold u16. symmetry. apply (Z.mod_unique _ _ (-1)); lia. }
  rewrite (proj2 (Z.ltb_lt 0 (i_len p))) by lia.
  unfold sk_data. rewrite Hs, Z.eqb_refl. cbv zeta.
  destruct (tk_socks t Hok k Hkr) as [_ Hn _]. unfold TCP_RX_BUF_SIZE in *.
  rewrite (u16_small (8192 - _)) by lia. rewrite (proj2 (Z.ltb_ge (i_len p) _)) by lia.
  rewrite (proj2 (Z.ltb_lt 0 (8192 - _))) by lia.
  rewrite load_None; [done|]. change (i_payload p) with (drop (Z.to_nat off) data).
  rewrite length_drop. lia.
Qed.

(** Entering TIME_WAIT does not start its timer ([last_ack_tick] keeps its
    old value), so a connection closed more than 200 ticks after that value is
    freed by the next tick instead of lingering. *)
Theorem tcp_time_wait_skipped isn now sk p sk' isn' g :
  state sk = TCP_FIN_WAIT_2 -> has (i_flags p) TCP_FIN = true ->
  sk_rx isn now sk p = Some (sk', isn', g) ->
  state sk' = TCP_TIME_WAIT /\ last_ack_tick sk' = last_ack_tick sk /\
  forall t k, tcp_ok t -> 0 <= k < TCP_MAX_SOCKETS -> (sockets t).[k] = sk' -> used sk = true ->
    200 < u32 (now - last_ack_tick sk) -> used (sockets (tcp_tick t now)).[k] = false.
Proof.
  intros He Hf. unfold sk_rx. rewrite He, Hf. cbv zeta. intros [= <- <- <-]. split; [done|]. split; [done|].
  intros t k Hok Hk Ek Hu Ht. unfold tcp_tick.
  set (sk1 := set_state _ _) in Ek.
  pose (I := fun (n : Z) (u : tcp) => Z.of_nat (length (sockets u)) = TCP_MAX_SOCKETS /\
    (n <= k -> (sockets u).[k] = sk1) /\ (k < n -> used (sockets u).[k] = false)).
  enough (I (0 + Z.of_nat (Z.to_nat TCP_MAX_SOCKETS)) (for_loop (fun i t =>
    let sk := (sockets t).[i] in
    if used sk && (bool_decide (state sk = TCP_TIME_WAIT) && (200 <? u32 (now - last_ack_tick sk)))
    then set_sock t i (close_socket sk) else t) (Z.to_nat TCP_MAX_SOCKETS) 0 t)) as (_ & _ & HI).
  { apply HI. unfold TCP_MAX_SOCKETS in *. lia. }
  apply (for_loop_ind I).
  - split_and!; [apply Hok|done|lia].
  - unfold TCP_MAX_SOCKETS in Hk. change (0 + Z.of_nat (Z.to_nat TCP_MAX_SOCKETS)) with 16.
    unfold I, TCP_MAX_SOCKETS. intros n u Hn (Hl & H1 & H2). cbv zeta.
    destruct (decide (n = k)) as [->|Hne].
    + rewrite H1 by lia. change (used sk1) with (used sk). change (state sk1) with TCP_TIME_WAIT.
      change (last_ack_tick sk1) with (last_ack_tick sk).
      rewrite Hu, bool_decide_true, (proj2 (Z.ltb_lt 200 _)) by done. cbn [andb].
      cbn [set_sock sockets]. rewrite aset_length. split_and!; [done|lia|]. intros _.
      by rewrite aget_aset_eq by lia.
    + case_if; cbn [set_sock sockets]; [rewrite aset_length, aget_aset_ne by lia|];
        (split_and!; [done| |]); intros; first [apply H1; lia|apply H2; lia].
Qed.

(** * Examples *)

Definition est_socket (lport rip rport snd rcv : Z) : tcp_socket :=
  TcpSocket true TCP_ESTABLISHED lport rip rport snd snd rcv TCP_WINDOW_SIZE
    (repeat 0 (Z.to_nat TCP_RX_BUF_SIZE)) 0 false 0 0.

Definition one_socket (sk : tcp_socket) (s : netstk) : tcp :=
  Tcp (repeat blank_socket (Z.to_nat TCP_MAX_SOCKETS)).[0 <- sk] 7 s.

Lemma blank_rx_ok sk :
  rx_buf sk = repeat 0 (Z.to_nat TCP_RX_BUF_SIZE) -> rx_len sk = 0 -> rx_ready sk = false -> sock_ok sk.
Proof.
  intros E1 E2 E3. constructor; rewrite ?E1, ?E2, ?E3.
  - rewrite repeat_length. done.
  - done.
  - split; done || lia.
Qed.

Lemma tcp_init_ok t now : tcp_ok (tcp_init t now).
Proof.
  constructor; cbn [tcp_init sockets].
  - by rewrite repeat_length.
  - intros k Hk. unfold TCP_MAX_SOCKETS, aget in *. rewrite list_lookup_total_alt.
    rewrite (lookup_replicate_2 16 blank_socket) by lia. by apply blank_rx_ok.
Qed.

Lemma one_socket_ok sk s : sock_ok sk -> tcp_ok (one_socket sk s).
Proof. intros. apply (tcp_ok_set (tcp_init (Tcp [] 0 s) 0)); [apply tcp_init_ok|done]. Qed.

(** A bare segment from 10.0.0.9 with the given data offset byte and flags. *)
Definition bare_segment (off f : Z) : list Z :=
  tcp_header_bytes (TcpHeader (htons 80) (htons 5000) (htonl 33) (htonl 0) off f 0 0 0).

(** A socket that connects from port 5001 takes the answer of its peer that is for
    port 5000. *)
Definition connecting_socket : tcp_socket :=
  set_state (est_socket 5001 9 80 1 33) TCP_SYN_SENT.

Lemma tcp_rx_connection_safety_witness :
  exists t', tcp_rx (DRV := quiet_driver) (one_socket connecting_socket (example_host 1)) 0 (Some 0) 9
      (bare_segment 80 (Z.lor TCP_SYN TCP_ACK)) 20 = Some t' /\
    (sockets t').[0] <> connecting_socket /\
    misdirected connecting_socket (tcp_parse 9 (bare_segment 80 (Z.lor TCP_SYN TCP_ACK)) 20).
Proof.
  destruct (tcp_rx_connection_safety (DRV := quiet_driver)
    (one_socket connecting_socket (example_host 1)) 0 (Some 0) 9 (bare_segment 80 (Z.lor TCP_SYN TCP_ACK)) 20)
    as (t' & k0 & E & Hok & H).
  - apply one_socket_ok, blank_rx_ok; reflexivity.
  - vm_compute. repeat split; discriminate.
  - exists t'. split; [exact E|].
    assert ((sockets t').[0] <> connecting_socket) as Hne.
    { assert (fmap (fun t => state (sockets t).[0]) (tcp_rx (DRV := quiet_driver) (one_socket connecting_socket (example_host 1)) 0
        (Some 0) 9 (bare_segment 80 (Z.lor TCP_SYN TCP_ACK)) 20) = Some TCP_ESTABLISHED) as Es
        by (vm_compute; reflexivity).
      rewrite E in Es. injection Es as Es. intros E0. rewrite E0 in Es. discriminate Es. }
    split; [exact Hne|].
    assert (0 <= 0 < TCP_MAX_SOCKETS) as H0 by (split; [discriminate|reflexivity]).
    destruct (H 0 H0) as [E0|(_ & _ & [[Ha _]|[Hm _]] & _)].
    + destruct (Hne E0).
    + vm_compute in Ha. discriminate Ha.
    + exact Hm.
Defined.

(** Three bytes received, two of them read. *)
Lemma tcp_receive_stream_witness :
  exists t' rest, stream_run (DRV := quiet_driver) 0 (one_socket (est_socket 5000 9 80 1 33) (example_host 1))
      [1; 2; 3] [1; 2] t' /\
    rx_data (sockets t').[0] = rest /\ [1; 2; 3] = [1; 2] ++ rest.
Proof.
  set (t := one_socket _ _).
  assert (tcp_ok t) as Hok by (apply one_socket_ok, blank_rx_ok; reflexivity).
  set (data := bare_segment 80 TCP_ACK ++ [1; 2; 3]).
  assert (input_ok (tcp_parse 9 data 23)) as Hp by (vm_compute; repeat split; discriminate).
  destruct (tcp_input_spec (DRV := quiet_driver) t 0 (Some 0) (tcp_parse 9 data 23) Hok Hp) as (t1 & E & Hok1 & Hpost).
  change (tcp_lookup _ _ _ _) with (Some 0) in Hpost.
  destruct Hpost as (sk1 & Hpost & Es).
  assert (rx_data (sockets t1).[0] = [1; 2; 3]) as Hd.
  { rewrite Es, aget_aset_eq by (rewrite (tk_len t Hok); unfold TCP_MAX_SOCKETS; lia).
    rewrite (rp_data _ _ _ Hpost). reflexivity. }
  assert (used (sockets t1).[0] = true) as Hu.
  { rewrite Es, aget_aset_eq by (rewrite (tk_len t Hok); unfold TCP_MAX_SOCKETS; lia).
    destruct (rp_edge _ _ _ Hpost) as [->|He]; [reflexivity|].
    change (state _) with TCP_ESTABLISHED in He at 1. by inversion He. }
  destruct (tcp_recv_spec t1 0 [0; 0] 2 Hok1 ltac:(unfold TCP_MAX_SOCKETS; lia) Hu ltac:(simpl; lia))
    as (t2 & r & buf & sk2 & E2 & _ & Es2 & _ & _ & Hd2 & Hb & _ & Hr).
  assert (rx_len (sockets t1).[0] = 3) as Hl.
  { rewrite <- rx_data_length, Hd by (apply Hok1; unfold TCP_MAX_SOCKETS; lia). reflexivity. }
  rewrite Hl in Hr. specialize (Hr ltac:(lia)). rewrite Hd, Hr in Hd2. rewrite Hr in E2.
  change (Z.to_nat (Z.min 2 3)) with 2%nat in Hd2.
  destruct buf as [|b0 [|b1 [|]]]; try discriminate Hb. cbn [take app] in Hd2. injection Hd2 as <- <- Hrest.
  exists t2, (rx_data (sockets t2).[0]).
  assert (stream_run (DRV := quiet_driver) 0 t [1; 2; 3] [1; 2] t2) as Hrun.
  { apply (sr_step 0 t [1; 2; 3] [] t1 [] [1; 2] t2).
    - exact (st_rx 0 t 0 (Some 0) 9 data 23 t1 Hp E).
    - apply (sr_step 0 t1 [] [1; 2] t2 [] [] t2); [|apply sr_nil].
      apply (st_recv 0 t1 [0; 0] 2 t2 2 [1; 2]); [simpl; lia|exact Hu|exact E2]. }
  split; [exact Hrun|]. split; [reflexivity|].
  apply (tcp_receive_stream (DRV := quiet_driver) 0 t [1; 2; 3] [1; 2] t2 Hok); [unfold TCP_MAX_SOCKETS; lia|exact Hrun].
Defined.

Lemma tcp_acks_dropped_bytes_witness :
  exists sk' g, sk_rx 7 0 (est_socket 5000 9 80 1 33) (Input 9 80 5000 33 1 TCP_ACK (repeat 5 9000) 9000)
    = Some (sk', 7, Some g) /\ g_ack g = 9033.
Proof.
  destruct (tcp_acks_dropped_bytes 7 0 (est_socket 5000 9 80 1 33)
    (Input 9 80 5000 33 1 TCP_ACK (repeat 5 9000) 9000)) as (sk' & g & E & _ & Ha & _).
  - apply blank_rx_ok; reflexivity.
  - vm_compute. repeat split; discriminate.
  - reflexivity.
  - reflexivity.
  - reflexivity.
  - reflexivity.
  - reflexivity.
  - exists sk', g. split; [exact E|exact Ha].
Defined.

Lemma tcp_rx_overreads_witness :
  tcp_rx (DRV := quiet_driver) (one_socket (est_socket 5000 9 80 1 33) (example_host 1)) 0 (Some 0) 9
    (bare_segment 240 TCP_ACK) 20 = None.
Proof.
  apply (tcp_rx_overreads (H := quiet_driver) (one_socket (est_socket 5000 9 80 1 33) (example_host 1)) 0 (Some 0) 9
    (bare_segment 240 TCP_ACK) 0).
  - reflexivity.
  - vm_compute. split; [reflexivity|discriminate].
  - apply one_socket_ok, blank_rx_ok; reflexivity.
  - vm_compute. reflexivity.
  - vm_compute. reflexivity.
  - vm_compute. reflexivity.
  - vm_compute. reflexivity.
  - vm_compute. reflexivity.
Defined.

Lemma tcp_time_wait_skipped_witness :
  exists sk', sk_rx 7 1000 (set_state (est_socket 5000 9 80 1 33) TCP_FIN_WAIT_2)
    (Input 9 80 5000 33 1 TCP_FIN [] 0) = Some (sk', 7, Some (Segment 9 5000 80 1 34 TCP_ACK 0)) /\
    state sk' = TCP_TIME_WAIT /\ used (sockets (tcp_tick (one_socket sk' (example_host 1)) 1000)).[0] = false.
Proof.
  eexists. split; [reflexivity|].
  destruct (tcp_time_wait_skipped 7 1000 (set_state (est_socket 5000 9 80 1 33) TCP_FIN_WAIT_2)
    (Input 9 80 5000 33 1 TCP_FIN [] 0) _ 7 (Some (Segment 9 5000 80 1 34 TCP_ACK 0)) eq_refl eq_refl eq_refl)
    as (Hs & _ & Hfree).
  split; [exact Hs|]. apply Hfree.
  - apply one_socket_ok, blank_rx_ok; reflexivity.
  - unfold TCP_MAX_SOCKETS. lia.
  - reflexivity.
  - reflexivity.
  - vm_compute. reflexivity.
Defined.
