(* ===== verification/Udp.v ===== *)
(** Datagrams and echo: [net/udp.c] and [net/icmp.c].

    A UDP socket holds the last datagram received.  The theorems give the
    round trip of a datagram, the delivery rule, and two length computations
    that wrap. *)
From S2P Require Import Prelude.
From S2P Require Import Net.
From S2P Require Import Arp.
From S2P Require Import Ipv4.
From Stdlib Require Import ZArith Lia.
From stdpp Require Import base numbers list.

Open Scope Z_scope.
Open Scope lyth_scope.

Definition UDP_HDR_LEN : Z := 8.
Definition UDP_MAX_SOCKETS : Z := 16.
Definition UDP_RX_BUF_SIZE : Z := 4096.
Definition DHCP_CLIENT_PORT : Z := 68.
Definition DNS_PORT : Z := 53.

Record udp_socket := UdpSocket {
  u_used : bool; u_local_port : Z; u_remote_ip : Z; u_remote_port : Z;
  u_rx_buf : list Z; u_rx_len : Z; u_rx_from_ip : Z; u_rx_from_port : Z; u_rx_ready : bool }.

Definition blank_udp : udp_socket :=
  UdpSocket false 0 0 0 (repeat 0 (Z.to_nat UDP_RX_BUF_SIZE)) 0 0 0 false.
#[export] Instance udp_socket_inhabited : Inhabited udp_socket := populate blank_udp.

Definition udp_init : list udp_socket := repeat blank_udp (Z.to_nat UDP_MAX_SOCKETS).

(** [udp_header_t] *)
Record udp_header := UdpHeader { u_src_port : Z; u_dst_port : Z; u_length : Z; u_checksum : Z }.

Definition udp_header_bytes (h : udp_header) : list Z :=
  le16 (u_src_port h) ++ le16 (u_dst_port h) ++ le16 (u_length h) ++ le16 (u_checksum h).

Definition udp_header_at (data : list Z) : udp_header :=
  UdpHeader (ld16 data 0) (ld16 data 2) (ld16 data 4) (ld16 data 6).

(** Where a received datagram goes: the DHCP client, the DNS resolver, or the
    sockets. *)
Inductive udp_delivery :=
| ToDhcp (payload : list Z) (len : Z)
| ToDns (payload : list Z) (len : Z)
| ToSockets (socks : list udp_socket).

(** The first bound socket whose filters match. *)
Definition udp_match (socks : list udp_socket) (src_ip sport dport : Z) : option Z :=
  find_first (fun i =>
    let sk := socks.[i] in
    u_used sk && (u_local_port sk =? dport)
    && ((u_remote_ip sk =? 0) || (u_remote_ip sk =? src_ip))
    && ((u_remote_port sk =? 0) || (u_remote_port sk =? sport))) (Z.to_nat UDP_MAX_SOCKETS) 0.

Definition udp_rx (socks : list udp_socket) (src_ip : Z) (data : list Z) (len : Z)
    : option udp_delivery :=
  if len <? UDP_HDR_LEN then Some (ToSockets socks)
  else
    let hdr := udp_header_at data in
    let sport := ntohs (u_src_port hdr) in
    let dport := ntohs (u_dst_port hdr) in
    let udp_len := ntohs (u_length hdr) in
    let payload_len := u16 (udp_len - UDP_HDR_LEN) in
    let payload := drop (Z.to_nat UDP_HDR_LEN) data in
    if dport =? DHCP_CLIENT_PORT then Some (ToDhcp payload payload_len)
    else if sport =? DNS_PORT then Some (ToDns payload payload_len)
    else
      match udp_match socks src_ip sport dport with
      | None => Some (ToSockets socks)
      | Some i =>
          let sk := socks.[i] in
          let copy_len := if UDP_RX_BUF_SIZE <? payload_len then UDP_RX_BUF_SIZE else payload_len in
          bs ← load payload 0 copy_len;
          buf ← store (u_rx_buf sk) 0 bs;
          Some (ToSockets socks.[i <- UdpSocket (u_used sk) (u_local_port sk) (u_remote_ip sk)
                                       (u_remote_port sk) buf copy_len src_ip sport true])
      end.

Section driver.
Context {DRV : NetDriver}.

Definition udp_send (s : netstk) (iface : option Z) (dst sport dport : Z)
    (payload : list Z) (payload_len : Z) : option (netstk * Z) :=
  let udp_total := u16 (UDP_HDR_LEN + payload_len) in
  if ETH_MTU - 20 <? udp_total then Some (s, -1)
  else
    let buf := repeat 0 (Z.to_nat ETH_MTU) in
    buf ← store buf 0 (udp_header_bytes (UdpHeader (htons sport) (htons dport) (htons udp_total) 0));
    bs ← load payload 0 payload_len;
    buf ← store buf UDP_HDR_LEN bs;
    ipv4_send s iface dst IP_PROTO_UDP buf udp_total.

End driver.

(** * Socket calls *)

Definition udp_bad (socks : list udp_socket) (sock : Z) : bool :=
  (sock <? 0) || (UDP_MAX_SOCKETS <=? sock) || negb (u_used socks.[sock]).

Definition udp_socket_open (socks : list udp_socket) (port : Z) : list udp_socket * Z :=
  match find_first (fun i => negb (u_used socks.[i])) (Z.to_nat UDP_MAX_SOCKETS) 0 with
  | Some i => (socks.[i <- UdpSocket true port 0 0 (u_rx_buf blank_udp) 0 0 0 false], i)
  | None => (socks, -1)
  end.

Definition udp_socket_close (socks : list udp_socket) (sock : Z) : list udp_socket * Z :=
  if (sock <? 0) || (UDP_MAX_SOCKETS <=? sock) then (socks, -1)
  else
    let sk := socks.[sock] in
    (socks.[sock <- UdpSocket false (u_local_port sk) (u_remote_ip sk) (u_remote_port sk) (u_rx_buf sk)
                      (u_rx_len sk) (u_rx_from_ip sk) (u_rx_from_port sk) (u_rx_ready sk)], 0).

Definition udp_socket_sendto `{NetDriver} (socks : list udp_socket) (s : netstk) (sock dst dport : Z)
    (data : list Z) (len : Z) : option (netstk * Z) :=
  if udp_bad socks sock then Some (s, -1)
  else udp_send s (netif_get_default s) dst (u_local_port socks.[sock]) dport data len.

(** The sockets, the result, the caller's buffer and the sender's address and
    port when they are reported. *)
Definition udp_socket_recvfrom (socks : list udp_socket) (sock : Z) (buf : list Z) (buf_len : Z)
    : option (list udp_socket * Z * list Z * option (Z * Z)) :=
  if udp_bad socks sock then Some (socks, -1, buf, None)
  else
    let sk := socks.[sock] in
    if negb (u_rx_ready sk) then Some (socks, 0, buf, None)
    else
      let copy := if buf_len <? u_rx_len sk then buf_len else u_rx_len sk in
      bs ← load (u_rx_buf sk) 0 copy;
      buf ← store buf 0 bs;
      Some (socks.[sock <- UdpSocket (u_used sk) (u_local_port sk) (u_remote_ip sk) (u_remote_port sk)
                             (u_rx_buf sk) (u_rx_len sk) (u_rx_from_ip sk) (u_rx_from_port sk) false],
            copy, buf, Some (u_rx_from_ip sk, u_rx_from_port sk)).

Definition udp_socket_bind (socks : list udp_socket) (sock remote_ip remote_port : Z)
    : list udp_socket * Z :=
  if udp_bad socks sock then (socks, -1)
  else
    let sk := socks.[sock] in
    (socks.[sock <- UdpSocket (u_used sk) (u_local_port sk) remote_ip remote_port (u_rx_buf sk)
                      (u_rx_len sk) (u_rx_from_ip sk) (u_rx_from_port sk) (u_rx_ready sk)], 0).

(** * Echo *)

Definition ICMP_ECHO_REPLY : Z := 0.
Definition ICMP_ECHO_REQUEST : Z := 8.
Definition sizeof_icmp_header : Z := 8.

(** [icmp_header_t] *)
Record icmp_header := IcmpHeader { i_type : Z; i_code : Z; i_checksum : Z; i_id : Z; i_seqno : Z }.

Definition icmp_header_bytes (h : icmp_header) : list Z :=
  [i_type h; i_code h] ++ le16 (i_checksum h) ++ le16 (i_id h) ++ le16 (i_seqno h).

Definition icmp_header_at (data : list Z) : icmp_header :=
  IcmpHeader data.[0] data.[1] (ld16 data 2) (ld16 data 4) (ld16 data 6).

(** A call of the ping callback. *)
Record ping_reply := PingReply { p_src : Z; p_id : Z; p_seq : Z; p_len : Z }.

Section icmp.
Context {DRV : NetDriver}.

(** [callback]: a reply callback is installed. *)
Definition icmp_rx (s : netstk) (callback : bool) (iface : option Z) (src_ip : Z) (data : list Z) (len : Z)
    : option (netstk * option ping_reply) :=
  if len <? sizeof_icmp_header then Some (s, None)
  else
    let hdr := icmp_header_at data in
    if i_type hdr =? ICMP_ECHO_REQUEST then
      if ETH_MTU - 20 <? len then Some (s, None)
      else
        bs ← load data 0 len;
        reply ← store (repeat 0 (Z.to_nat ETH_MTU)) 0 bs;
        let reply := reply.[0 <- ICMP_ECHO_REPLY] in
        reply ← store reply 2 (le16 0);
        let c := ipv4_checksum reply len in
        reply ← store reply 2 (le16 c);
        '(s, _) ← ipv4_send s iface src_ip IP_PROTO_ICMP reply len;
        Some (s, None)
    else if i_type hdr =? ICMP_ECHO_REPLY then
      if callback
      then Some (s, Some (PingReply src_ip (ntohs (i_id hdr)) (ntohs (i_seqno hdr))
                            (u16 (len - sizeof_icmp_header))))
      else Some (s, None)
    else Some (s, None).

Definition icmp_send_echo (s : netstk) (iface : option Z) (dst id seq : Z)
    (payload : option (list Z)) (payload_len : Z) : option (netstk * Z) :=
  let total := u16 (sizeof_icmp_header + payload_len) in
  if ETH_MTU - 20 <? total then Some (s, -1)
  else
    let buf := repeat 0 (Z.to_nat ETH_MTU) in
    buf ← store buf 0 (icmp_header_bytes (IcmpHeader ICMP_ECHO_REQUEST 0 0 (htons id) (htons seq)));
    buf ← match payload with
          | Some p => if 0 <? payload_len
                      then bs ← load p 0 payload_len; store buf sizeof_icmp_header bs
                      else Some buf
          | None => Some buf
          end;
    buf ← store buf 2 (le16 (ipv4_checksum buf total));
    ipv4_send s iface dst IP_PROTO_ICMP buf total.

End icmp.

(** * Lemmas *)

Lemma udp_header_roundtrip h rest :
  0 <= u_src_port h < 65536 -> 0 <= u_dst_port h < 65536 -> 0 <= u_length h < 65536 ->
  0 <= u_checksum h < 65536 -> udp_header_at (udp_header_bytes h ++ rest) = h.
Proof.
  destruct h as [a b c d]. cbn [u_src_port u_dst_port u_length u_checksum]. intros Ha Hb Hc Hd.
  change (udp_header_at _) with
    (UdpHeader (a mod 256 + 256 * (a / 256 mod 256)) (b mod 256 + 256 * (b / 256 mod 256))
       (c mod 256 + 256 * (c / 256 mod 256)) (d mod 256 + 256 * (d / 256 mod 256))).
  by rewrite !le16_value.
Qed.

(** The bytes [udp_send] hands to the IP layer. *)
Definition udp_bytes (sport dport : Z) (payload : list Z) : list Z :=
  udp_header_bytes (UdpHeader (htons sport) (htons dport)
                      (htons (UDP_HDR_LEN + Z.of_nat (length payload))) 0) ++ payload.

Lemma udp_bytes_length sport dport pay : length (udp_bytes sport dport pay) = (8 + length pay)%nat.
Proof. done. Qed.

Lemma udp_send_spec `{NetDriver} s iface dst sport dport payload n :
  0 <= n <= 1472 -> n <= Z.of_nat (length payload) ->
  exists rest,
    udp_send s iface dst sport dport payload n
    = ipv4_send s iface dst IP_PROTO_UDP
        (udp_bytes sport dport (take (Z.to_nat n) payload) ++ rest) (8 + n).
Proof.
  intros Hn Hl. unfold udp_send, UDP_HDR_LEN. cbv zeta. rewrite (u16_small (8 + n)) by lia.
  rewrite (proj2 (Z.ltb_ge (ETH_MTU - 20) (8 + n))) by (unfold ETH_MTU; lia).
  set (buf := repeat 0 _). assert (Z.of_nat (length buf) = 1500) as Hb by done. clearbody buf.
  set (hdr := udp_header_bytes _). assert (Z.of_nat (length hdr) = 8) as Hh by done.
  set (pay := take (Z.to_nat n) payload).
  assert (Z.of_nat (length pay) = n) as Hp by (unfold pay; rewrite length_take; lia).
  destruct (store_header_payload buf hdr pay 8) as (b1 & b2 & E1 & E2 & _ & rest & E3); [lia|lia|].
  rewrite E1. cbn [mbind option_bind]. rewrite load_Some by lia. cbn [mbind option_bind].
  change (Z.to_nat 0) with 0%nat. rewrite drop_0. fold pay. rewrite E2. cbn [mbind option_bind].
  exists rest. rewrite E3. unfold udp_bytes, UDP_HDR_LEN. rewrite Hp. fold hdr. by rewrite app_assoc.
Qed.

(** A datagram for a matching socket replaces what the socket held. *)
Lemma udp_rx_spec socks src sport dport pay rest i :
  0 <= sport < 65536 -> 0 <= dport < 65536 -> Z.of_nat (length pay) <= 1472 ->
  dport <> DHCP_CLIENT_PORT -> sport <> DNS_PORT ->
  udp_match socks src sport dport = Some i -> Z.of_nat (length (u_rx_buf socks.[i])) = UDP_RX_BUF_SIZE ->
  let sk := socks.[i] in
  exists buf, take (length pay) buf = pay /\ Z.of_nat (length buf) = UDP_RX_BUF_SIZE /\
  udp_rx socks src (udp_bytes sport dport pay ++ rest) (8 + Z.of_nat (length pay))
  = Some (ToSockets socks.[i <- UdpSocket (u_used sk) (u_local_port sk) (u_remote_ip sk)
            (u_remote_port sk) buf (Z.of_nat (length pay)) src sport true]).
Proof.
  intros Hs Hd Hl H68 H53 Hm Hb sk. unfold udp_rx.
  rewrite (proj2 (Z.ltb_ge _ UDP_HDR_LEN)) by (unfold UDP_HDR_LEN; lia). cbv zeta.
  assert (udp_header_at (udp_bytes sport dport pay ++ rest)
    = UdpHeader (htons sport) (htons dport) (htons (UDP_HDR_LEN + Z.of_nat (length pay))) 0) as ->.
  { unfold udp_bytes. rewrite <- app_assoc.
    apply udp_header_roundtrip; first [apply htons_bound|done]. }
  cbn [u_src_port u_dst_port u_length]. unfold ntohs. rewrite !htons_involutive by (unfold UDP_HDR_LEN; lia).
  rewrite (proj2 (Z.eqb_neq dport DHCP_CLIENT_PORT)), (proj2 (Z.eqb_neq sport DNS_PORT)) by done.
  rewrite Hm. replace (UDP_HDR_LEN + Z.of_nat (length pay) - UDP_HDR_LEN) with (Z.of_nat (length pay)) by lia.
  rewrite u16_small by lia.
  rewrite (proj2 (Z.ltb_ge UDP_RX_BUF_SIZE _)) by (unfold UDP_RX_BUF_SIZE; lia).
  change (Z.to_nat UDP_HDR_LEN) with 8%nat. unfold udp_bytes. rewrite <- app_assoc.
  rewrite (drop_app_length' (udp_header_bytes _)) by done.
  unfold UDP_RX_BUF_SIZE in *. fold sk in Hb.
  rewrite load_Some by (rewrite ?length_app; lia). cbn [mbind option_bind].
  change (Z.to_nat 0) with 0%nat. rewrite drop_0, Nat2Z.id, take_app_length. fold sk.
  rewrite store_Some by lia. cbn [mbind option_bind]. change (Z.to_nat 0) with 0%nat.
  exists (take 0 (u_rx_buf sk) ++ pay ++ drop (0 + length pay) (u_rx_buf sk)).
  rewrite take_0, app_nil_l, take_app_length, length_app, length_drop. split_and!; [done|lia|done].
Qed.

(** A datagram length close to 64 KiB wraps [udp_total], passes the size
    check of [udp_send], and the payload is copied over the end of the
    1500-byte stack buffer. *)
Theorem udp_send_overruns `{NetDriver} s iface dst sport dport payload n :
  65528 <= n <= 65535 -> n <= Z.of_nat (length payload) ->
  udp_send s iface dst sport dport payload n = None.
Proof.
  intros Hn Hl. unfold udp_send. cbv zeta.
  assert (u16 (UDP_HDR_LEN + n) = n - 65528) as E
    by (unfold u16, UDP_HDR_LEN; symmetry; apply (Z.mod_unique _ _ 1); lia).
  rewrite E, (proj2 (Z.ltb_ge (ETH_MTU - 20) (n - 65528))) by (unfold ETH_MTU; lia).
  rewrite store_Some by done. cbn [mbind option_bind]. rewrite load_Some by lia. cbn [mbind option_bind].
  set (hdr := udp_header_bytes _). assert (length hdr = 8%nat) as Hh by done. clearbody hdr.
  rewrite store_None; [done|]. change (Z.to_nat ETH_MTU) with 1500%nat. unfold UDP_HDR_LEN.
  rewrite !length_app, !length_take, !length_drop, !repeat_length, Hh. lia.
Qed.

(** The length field of a UDP header is not compared with the datagram: one
    below 8 makes the payload length wrap, and delivery to a socket copies
    4096 bytes from a packet that ends after the header. *)
Theorem udp_rx_overreads socks src sport dport ulen i :
  0 <= sport < 65536 -> 0 <= dport < 65536 -> 0 <= ulen < 8 ->
  dport <> DHCP_CLIENT_PORT -> sport <> DNS_PORT -> udp_match socks src sport dport = Some i ->
  let packet := udp_header_bytes (UdpHeader (htons sport) (htons dport) (htons ulen) 0) in
  Z.of_nat (length packet) = 8 /\ udp_rx socks src packet 8 = None.
Proof.
  intros Hs Hd Hu H68 H53 Hm packet. split; [done|]. unfold udp_rx.
  rewrite (proj2 (Z.ltb_ge 8 UDP_HDR_LEN)) by done. cbv zeta.
  assert (udp_header_at packet = UdpHeader (htons sport) (htons dport) (htons ulen) 0) as ->.
  { unfold packet. rewrite <- (app_nil_r (udp_header_bytes _)).
    apply udp_header_roundtrip; first [apply htons_bound|done]. }
  cbn [u_src_port u_dst_port u_length]. unfold ntohs. rewrite !htons_involutive by lia.
  rewrite (proj2 (Z.eqb_neq dport DHCP_CLIENT_PORT)), (proj2 (Z.eqb_neq sport DNS_PORT)) by done.
  rewrite Hm.
  assert (u16 (ulen - UDP_HDR_LEN) = ulen + 65528) as ->
    by (unfold u16, UDP_HDR_LEN; symmetry; apply (Z.mod_unique _ _ (-1)); lia).
  rewrite (proj2 (Z.ltb_lt UDP_RX_BUF_SIZE _)) by (unfold UDP_RX_BUF_SIZE; lia).
  by rewrite load_None.
Qed.

Lemma udp_send_overruns_witness :
  udp_send (DRV := quiet_driver) (example_host 1) (Some 0) 1 2 3 (repeat 7 65530) 65530 = None.
Proof.
  apply (udp_send_overruns (H := quiet_driver) (example_host 1) (Some 0) 1 2 3 (repeat 7 65530) 65530).
  - lia.
  - vm_compute. discriminate.
Defined.

Lemma udp_rx_overreads_witness :
  udp_rx [UdpSocket true 9 0 0 [] 0 0 0 false] 5
    (udp_header_bytes (UdpHeader (htons 1000) (htons 9) (htons 3) 0)) 8 = None.
Proof.
  apply (udp_rx_overreads [UdpSocket true 9 0 0 [] 0 0 0 false] 5 1000 9 3 0); try lia;
    vm_compute; done.
Defined.
