(* ===== verification/Dns.v ===== *)
(** The resolver of host names: [net/dns.c].

    A buffer is the list of its bytes, and an access outside it makes the whole
    call [None], as do the checked copies of [Net].  A host name is the list of its
    bytes up to the terminator.  The datagrams that arrive while a query waits are
    an argument, and so is the time. *)
From S2P Require Import Prelude.
From S2P Require Import KString.
From S2P Require Import Net.
From S2P Require Import Arp.
From S2P Require Import Ipv4.
From S2P Require Import Udp.
From Stdlib Require Import ZArith Lia.
From stdpp Require Import base numbers list.

Open Scope Z_scope.
Open Scope lyth_scope.

Definition DNS_MAX_NAME : Z := 128.
Definition DNS_CACHE_SIZE : Z := 16.
Definition DNS_QR : Z := Z.shiftl 1 15.
Definition DNS_TYPE_A : Z := 1.
Definition DNS_CLASS_IN : Z := 1.
Definition sizeof_dns_header : Z := 12.
Definition DOT : Z := 46.

Record dns_cache_entry := DnsEntry { c_name : list Z; c_ip : Z; c_timestamp : Z; c_valid : bool }.
#[export] Instance dns_cache_entry_inhabited : Inhabited dns_cache_entry := populate (DnsEntry [] 0 0 false).

(** [dns_header_t] *)
Record dns_header := DnsHeader { h_id : Z; h_flags : Z; h_qdcount : Z; h_ancount : Z; h_nscount : Z; h_arcount : Z }.

Definition dns_header_bytes (h : dns_header) : list Z :=
  le16 (h_id h) ++ le16 (h_flags h) ++ le16 (h_qdcount h) ++ le16 (h_ancount h) ++ le16 (h_nscount h) ++ le16 (h_arcount h).

Definition dns_header_at (data : list Z) : dns_header :=
  DnsHeader (ld16 data 0) (ld16 data 2) (ld16 data 4) (ld16 data 6) (ld16 data 8) (ld16 data 10).

(** The statics of the file. *)
Record dns := Dns {
  cache : list dns_cache_entry; dns_server_ip : Z; dns_next_id : Z;
  pending_id : Z; pending_result : Z; pending_done : bool }.
#[export] Instance dns_fields : Fields dns :=
  fun s => Dns (cache s) (dns_server_ip s) (dns_next_id s) (pending_id s) (pending_result s) (pending_done s).

Definition dns_init (s : dns) : dns :=
  Dns (repeat (DnsEntry [] 0 0 false) (Z.to_nat DNS_CACHE_SIZE)) 0 1 (pending_id s) 0 false.

Definition dns_set_server (server_ip : Z) (s : dns) : dns := s <| dns_server_ip := server_ip |>.

(** * Names *)

(** The text up to the next dot, and what follows it. *)
Fixpoint take_label (name : list Z) : list Z * list Z :=
  match name with
  | [] => ([], [])
  | c :: rest => if c =? DOT then ([], rest) else let '(l, r) := take_label rest in (c :: l, r)
  end.

(** The name is stored at [off] of the buffer, in at most [max] bytes. *)
Fixpoint encode_loop (fuel : nat) (name buf : list Z) (off pos max : Z) : option (list Z * Z) :=
  match fuel with
  | O => None
  | S fuel' =>
      if bool_decide (name = []) then
        if max <=? pos + 1 then Some (buf, -1)
        else buf ← store buf (off + pos) [0]; Some (buf, pos + 1)
      else
        let '(label, rest) := take_label name in
        let label_len := Z.of_nat (length label) in
        if (label_len <=? 0) || (63 <? label_len) then Some (buf, -1)
        else if max <=? pos + 1 + label_len then Some (buf, -1)
        else
          buf ← store buf (off + pos) [u8 label_len];
          buf ← store buf (off + (pos + 1)) label;
          encode_loop fuel' rest buf off (pos + 1 + label_len) max
  end.

Definition dns_encode_name (name buf : list Z) (off max : Z) : option (list Z * Z) :=
  encode_loop (S (length name)) name buf off 0 max.

Definition byte_at (data : list Z) (pos : Z) : option Z := if pos <? 0 then None else data !! Z.to_nat pos.

Fixpoint skip_loop (fuel : nat) (data : list Z) (pos max : Z) : option Z :=
  match fuel with
  | O => None
  | S fuel' =>
      if pos <? max then
        b ← byte_at data pos;
        if b =? 0 then Some (pos + 1)
        else if Z.land b 192 =? 192 then Some (pos + 2)
        else skip_loop fuel' data (pos + (1 + b)) max
      else Some max
  end.

Definition dns_skip_name (data : list Z) (pos max : Z) : option Z := skip_loop (S (Z.to_nat max)) data pos max.

(** * Responses *)

(** The position after the questions. *)
Fixpoint skip_questions (n : nat) (data : list Z) (pos len : Z) : option Z :=
  match n with
  | O => Some pos
  | S n' => pos ← dns_skip_name data pos len; skip_questions n' data (pos + 4) len
  end.

(** The address of the first answer that has one. *)
Fixpoint find_answer (n : nat) (data : list Z) (pos len : Z) : option (option Z) :=
  match n with
  | O => Some None
  | S n' =>
      if pos <? len then
        pos ← dns_skip_name data pos len;
        if len <? pos + 10 then Some None
        else
          t1 ← byte_at data pos;
          t2 ← byte_at data (pos + 1);
          l1 ← byte_at data (pos + 8);
          l2 ← byte_at data (pos + 9);
          let rtype := u16 (Z.lor (Z.shiftl t1 8) t2) in
          let rdlen := u16 (Z.lor (Z.shiftl l1 8) l2) in
          let pos := pos + 10 in
          if (rtype =? DNS_TYPE_A) && (rdlen =? 4) && (pos + 4 <=? len) then
            ip ← load data pos 4; Some (Some (ld32 ip 0))
          else find_answer n' data (pos + rdlen) len
      else Some None
  end.

Definition dns_rx (data : list Z) (len : Z) (s : dns) : option dns :=
  if len <? sizeof_dns_header then Some s
  else
    hb ← load data 0 sizeof_dns_header;
    let hdr := dns_header_at hb in
    if negb (ntohs (h_id hdr) =? pending_id s) then Some s
    else if Z.land (ntohs (h_flags hdr)) DNS_QR =? 0 then Some s
    else
      let ancount := ntohs (h_ancount hdr) in
      let qdcount := ntohs (h_qdcount hdr) in
      pos ← skip_questions (Z.to_nat qdcount) data sizeof_dns_header len;
      r ← find_answer (Z.to_nat ancount) data pos len;
      Some (match r with
            | Some ip => s <| pending_result := ip |> <| pending_done := true |>
            | None => s
            end).

(** * Queries *)

Definition find_cached (hostname : list Z) (s : dns) : option Z :=
  find_first (fun i => c_valid (cache s).[i] && (strcmp (c_name (cache s).[i]) hostname =? 0)) (Z.to_nat DNS_CACHE_SIZE) 0.

(** The packet of a query in its buffer of 512 bytes, with its length; the length
    is negative when the name is refused. *)
Definition dns_query (hostname : list Z) (id : Z) : option (list Z * Z) :=
  let buf := repeat 0 512 in
  buf ← store buf 0 (dns_header_bytes (DnsHeader (htons id) (htons 256) (htons 1) 0 0 0));
  let pos := sizeof_dns_header in
  '(buf, name_len) ← dns_encode_name hostname buf pos (512 - pos);
  if name_len <? 0 then Some (buf, -1)
  else
    let pos := pos + name_len in
    buf ← store buf pos [0];
    buf ← store buf (pos + 1) [DNS_TYPE_A];
    buf ← store buf (pos + 2) [0];
    buf ← store buf (pos + 3) [DNS_CLASS_IN];
    Some (buf, pos + 4).

(** The datagrams received until the query is answered. *)
Fixpoint await (replies : list (list Z * Z)) (s : dns) : option dns :=
  match replies with
  | [] => Some s
  | (data, len) :: rest =>
      if pending_done s then Some s else s ← dns_rx data len s; await rest s
  end.

Definition cache_result (hostname : list Z) (now : Z) (s : dns) : dns :=
  match find_first (fun i => negb (c_valid (cache s).[i])) (Z.to_nat DNS_CACHE_SIZE) 0 with
  | Some i =>
      s <| cache := (cache s).[i <- DnsEntry (take (Z.to_nat (DNS_MAX_NAME - 1)) hostname) (pending_result s) now true] |>
  | None => s
  end.

Section driver.
Context {DRV : NetDriver}.

Definition dns_resolve (hostname : list Z) (replies : list (list Z * Z)) (now : Z) (s : dns) (net : netstk)
    : option (dns * netstk * Z) :=
  if dns_server_ip s =? 0 then Some (s, net, 0)
  else
    match find_cached hostname s with
    | Some i => Some (s, net, c_ip (cache s).[i])
    | None =>
        let s := s <| pending_id := dns_next_id s |> <| dns_next_id := u16 (dns_next_id s + 1) |> in
        '(buf, pos) ← dns_query hostname (pending_id s);
        if pos <? 0 then Some (s, net, 0)
        else
          let s := s <| pending_done := false |> <| pending_result := 0 |> in
          '(net, _) ← udp_send net (netif_get_default net) (dns_server_ip s) 53 DNS_PORT buf (u16 pos);
          s ← await replies s;
          if pending_done s && negb (pending_result s =? 0)
          then Some (cache_result hostname now s, net, pending_result s)
          else Some (s, net, 0)
    end.
End driver.

(** * Safety of responses *)

Lemma byte_at_Some data pos : bytes data -> 0 <= pos < Z.of_nat (length data) ->
  exists b, byte_at data pos = Some b /\ 0 <= b < 256.
Proof.
  intros Hd Hp. unfold byte_at. rewrite (proj2 (Z.ltb_ge pos 0)) by lia.
  destruct (lookup_lt_is_Some_2 data (Z.to_nat pos)) as [b Hb]; [lia|]. exists b. split; [done|].
  unfold bytes in Hd. rewrite Forall_lookup in Hd. by apply (Hd (Z.to_nat pos)).
Qed.

(** The layout of a message as relations, after RFC 1035: [name_end p e], a name
    from [p] ends before [e] (a name that runs over the end ends there); a message
    is a header, its questions, and its answer records. *)
Section message.
Context (data : list Z) (len : Z).

Inductive name_end : Z -> Z -> Prop :=
  | NameOver p : len <= p -> name_end p len
  | NameZero p : p < len -> data.[p] = 0 -> name_end p (p + 1)
  | NamePointer p : p < len -> 192 <= data.[p] -> name_end p (p + 2)
  | NameLabel p e : p < len -> 0 < data.[p] < 192 -> name_end (p + 1 + data.[p]) e -> name_end p e.

(** [n] questions from [p] end before [e]. *)
Inductive questions : nat -> Z -> Z -> Prop :=
  | NoQuestion p : questions 0 p p
  | Question n p q e : name_end p q -> questions n (q + 4) e -> questions (S n) p e.

(** Fields of the record whose name ends before [q]. *)
Definition record_type (q : Z) : Z := 256 * data.[q] + data.[q + 1].
Definition record_length (q : Z) : Z := 256 * data.[q + 8] + data.[q + 9].

(** The record holds an address. *)
Definition has_address (q : Z) : Prop := record_type q = DNS_TYPE_A /\ record_length q = 4 /\ q + 14 <= len.

(** The first address among at most [n] records from [p], all inside the message,
    is [ip]. *)
Inductive first_address : nat -> Z -> Z -> Prop :=
  | AddressHere n p q : p < len -> name_end p q -> q + 10 <= len -> has_address q ->
      first_address (S n) p (ld32 data (q + 10))
  | AddressLater n p q ip : p < len -> name_end p q -> q + 10 <= len -> ~ has_address q ->
      first_address n (q + 10 + record_length q) ip -> first_address (S n) p ip.

(** The message answers with the address [ip]. *)
Definition answers_with (ip : Z) : Prop :=
  exists p, questions (Z.to_nat (ntohs (ld16 data 4))) sizeof_dns_header p /\
    first_address (Z.to_nat (ntohs (ld16 data 6))) p ip.

(** The message is a response to the query [id]. *)
Definition responds_to (id : Z) : Prop :=
  sizeof_dns_header <= len /\ ntohs (ld16 data 0) = id /\ Z.testbit (ntohs (ld16 data 2)) 15 = true.

Lemma name_end_fun p e e' : name_end p e -> name_end p e' -> e = e'.
Proof. intros H. revert e'. induction H; intros e' H'; inversion H'; subst; auto; lia. Qed.

Lemma questions_fun n p e e' : questions n p e -> questions n p e' -> e = e'.
Proof.
  intros H. revert e'. induction H; intros e' H'; inversion H'; subst; [done|].
  match goal with Ha : name_end p ?a, Hb : name_end p ?b |- _ => pose proof (name_end_fun p a b Ha Hb); subst end.
  auto.
Qed.

Lemma first_address_fun n p i i' : first_address n p i -> first_address n p i' -> i = i'.
Proof.
  intros H. revert i'. induction H; intros i' H'; inversion H'; subst;
    match goal with Ha : name_end p ?a, Hb : name_end p ?b |- _ => pose proof (name_end_fun p a b Ha Hb); subst end;
    by auto.
Qed.

(** ** The parser follows the layout *)

Context (Hd : bytes data) (Hl : 0 <= len <= Z.of_nat (length data)).

Lemma byte_at_aget pos : 0 <= pos < len -> byte_at data pos = Some data.[pos] /\ 0 <= data.[pos] < 256.
Proof.
  intros Hp. destruct (byte_at_Some data pos Hd ltac:(lia)) as (b & E & Hb). unfold byte_at in *.
  rewrite (proj2 (Z.ltb_ge pos 0)) in * by lia. unfold aget. by rewrite (list_lookup_total_correct _ _ _ E).
Qed.

Lemma pointer_byte b : 0 <= b < 256 -> (Z.land b 192 =? 192) = (192 <=? b).
Proof.
  intros Hb. assert (Forall (fun b => (Z.land b 192 =? 192) = (192 <=? b)) (seqZ 0 256)) as H.
  { apply Forall_forall. intros x Hx. apply elem_of_seqZ in Hx.
    assert (x ∈ map Z.of_nat (seq 0 256)) as Hx'.
    { apply list_elem_of_fmap. exists (Z.to_nat x). split; [lia|]. apply elem_of_seq. lia. }
    revert x Hx' Hx. apply (Forall_forall (fun x => 0 <= x < 0 + 256 -> _)). by repeat constructor. }
  rewrite Forall_forall in H. apply H, elem_of_seqZ. lia.
Qed.

Lemma skip_loop_spec fuel : forall pos,
  0 <= pos -> Z.max 0 (len - pos) < Z.of_nat fuel ->
  exists p, skip_loop fuel data pos len = Some p /\ name_end pos p /\ (pos < p \/ p = len).
Proof.
  induction fuel as [|fuel IH]; intros pos Hp Hf; [exfalso; lia|].
  cbn [skip_loop]. destruct (Z.ltb_spec pos len) as [Hlt|Hge].
  2: { exists len. split; [done|]. split; [by constructor|by right]. }
  destruct (byte_at_aget pos ltac:(lia)) as [-> Hb]. cbn [mbind option_bind].
  destruct (Z.eqb_spec data.[pos] 0) as [E0|E0].
  { exists (pos + 1). split; [done|]. split; [by constructor|lia]. }
  rewrite pointer_byte by done. destruct (Z.leb_spec 192 data.[pos]) as [E1|E1].
  { exists (pos + 2). split; [done|]. split; [by constructor|lia]. }
  destruct (IH (pos + (1 + data.[pos]))) as (p & -> & Hn & H'); [lia..|]. exists p. split; [done|].
  split; [|lia]. apply NameLabel; [done|lia|]. by replace (pos + 1 + data.[pos]) with (pos + (1 + data.[pos])) by lia.
Qed.

Lemma dns_skip_name_spec pos :
  0 <= pos -> exists p, dns_skip_name data pos len = Some p /\ name_end pos p /\ (pos < p \/ p = len).
Proof. intros Hp. apply skip_loop_spec; lia. Qed.

Context (H12 : 12 <= len).

Lemma skip_questions_spec n : forall pos, 12 <= pos ->
  exists p, skip_questions n data pos len = Some p /\ questions n pos p /\ 12 <= p.
Proof.
  induction n as [|n IH]; intros pos Hp; [exists pos; repeat split; [constructor|done]|]. cbn [skip_questions].
  destruct (dns_skip_name_spec pos ltac:(lia)) as (p & -> & Hn & Hpp). cbn [mbind option_bind].
  destruct (IH (p + 4)) as (q & -> & Hq & ?); [lia|]. exists q. split; [done|]. split; [by econstructor|done].
Qed.

Lemma be16_value b1 b2 : 0 <= b1 < 256 -> 0 <= b2 < 256 -> u16 (Z.lor (Z.shiftl b1 8) b2) = 256 * b1 + b2.
Proof.
  intros H1 H2. rewrite Z.shiftl_mul_pow2, Z.lor_comm by lia. rewrite lor_add by (change (2 ^ 8) with 256; lia).
  change (2 ^ 8) with 256. unfold u16. rewrite Z.mod_small; lia.
Qed.

(** The parser finds the first address, or there is none. *)
Lemma find_answer_spec n : forall pos, 12 <= pos ->
  exists r, find_answer n data pos len = Some r /\
    match r with Some ip => first_address n pos ip | None => forall ip, ~ first_address n pos ip end.
Proof.
  induction n as [|n IH]; intros pos Hp; [exists None; split; [done|]; intros ip H; inversion H|].
  cbn [find_answer]. destruct (Z.ltb_spec pos len) as [Hlt|Hge].
  2: { exists None. split; [done|]. intros ip H. inversion H; lia. }
  destruct (dns_skip_name_spec pos ltac:(lia)) as (p & -> & Hn & Hpp). cbn [mbind option_bind].
  assert (forall q, name_end pos q -> q = p) as Hfun by (intros q Hq; by eapply name_end_fun).
  destruct (Z.ltb_spec len (p + 10)) as [|Hp10].
  { exists None. split; [done|]. intros ip H'. inversion H'; subst;
      match goal with Hq : name_end pos ?q |- _ => apply Hfun in Hq; subst end; lia. }
  destruct (byte_at_aget p ltac:(lia)) as [-> B1]. destruct (byte_at_aget (p + 1) ltac:(lia)) as [-> B2].
  destruct (byte_at_aget (p + 8) ltac:(lia)) as [-> B3]. destruct (byte_at_aget (p + 9) ltac:(lia)) as [-> B4].
  cbn [mbind option_bind]. cbv zeta. rewrite !be16_value by done. fold (record_type p) (record_length p).
  assert ((record_type p =? DNS_TYPE_A) && (record_length p =? 4) && (p + 10 + 4 <=? len) = true <-> has_address p) as Eb.
  { unfold has_address. rewrite !andb_true_iff, !Z.eqb_eq, Z.leb_le. intuition lia. }
  destruct (_ && _ && _) eqn:E.
  - apply proj1 in Eb. specialize (Eb eq_refl). pose proof Eb as (_ & _ & H14).
    rewrite load_Some by lia. cbn [mbind option_bind]. eexists. split; [done|]. cbv iota.
    replace (ld32 (take (Z.to_nat 4) (drop (Z.to_nat (p + 10)) data)) 0) with (ld32 data (p + 10)).
    { by apply (AddressHere n pos p). }
    unfold ld32, ld16, aget. rewrite !list_lookup_total_alt, !lookup_take_lt, !lookup_drop by lia.
    by rewrite <- !Z2Nat.inj_add by lia; rewrite !Z.add_0_r, <- !Z.add_assoc.
  - assert (~ has_address p) as Hna by (intros H'%Eb; done).
    destruct (IH (p + 10 + record_length p)) as (r & -> & Hr); [unfold record_length in *; lia|].
    exists r. split; [done|]. destruct r as [ip|]; [by apply (AddressLater n pos p)|].
    intros ip H'. inversion H'; subst; match goal with Hq : name_end pos ?q |- _ => apply Hfun in Hq; subst end;
      [done|by eapply Hr].
Qed.

End message.

Lemma land_bit_zero v : (Z.land v DNS_QR =? 0) = negb (Z.testbit v 15).
Proof.
  unfold DNS_QR. destruct (Z.testbit v 15) eqn:E; cbn [negb].
  - apply Z.eqb_neq. intros H. apply (f_equal (fun x => Z.testbit x 15)) in H.
    rewrite Z.land_spec, E, Z.testbit_0_l in H. discriminate H.
  - apply Z.eqb_eq, Z.bits_inj'. intros n Hn. rewrite Z.land_spec, Z.testbit_0_l, Z.shiftl_1_l, Z.pow2_bits_eqb by done.
    destruct (Z.eqb_spec 15 n) as [<-|_]; [by rewrite E|by rewrite andb_false_r].
Qed.

(** C32: [dns_rx] reads inside the datagram only, whatever it holds, and ends; and
    it does what a resolver has to do.  A datagram that is too short, is not a
    response or has another identifier than the pending query changes nothing.
    A response to the query is answered with the address in the first answer
    record of type A with four bytes of data, found behind the questions by
    walking the records, and changes nothing when there is no such record. *)
Theorem dns_rx_safe (s : dns) data len :
  bytes data -> 0 <= len <= Z.of_nat (length data) ->
  exists s', dns_rx data len s = Some s' /\
    (~ responds_to data len (pending_id s) -> s' = s) /\
    (responds_to data len (pending_id s) ->
       (forall ip, answers_with data len ip -> s' = s <| pending_result := ip |> <| pending_done := true |>) /\
       ((forall ip, ~ answers_with data len ip) -> s' = s)).
Proof.
  intros Hd Hl. unfold dns_rx, responds_to, answers_with.
  destruct (Z.ltb_spec len sizeof_dns_header) as [|H12]; [exists s; split; [done|]; split; [done|]; intros (? & _); lia|].
  unfold sizeof_dns_header in *. rewrite load_Some by lia. cbn [mbind option_bind].
  assert (forall o, 0 <= o < 11 -> ld16 (take (Z.to_nat 12) (drop (Z.to_nat 0) data)) o = ld16 data o) as Eh.
  { intros o Ho. unfold ld16, aget. rewrite !list_lookup_total_alt, !lookup_take_lt by lia. done. }
  unfold dns_header_at. cbn [h_id h_flags h_qdcount h_ancount]. rewrite !Eh by lia. clear Eh.
  destruct (Z.eqb_spec (ntohs (ld16 data 0)) (pending_id s)) as [Ei|Ei]; cbn [negb].
  2: { exists s. split; [done|]. split; [done|]. intros (_ & ? & _). done. }
  assert ((Z.land (ntohs (ld16 data 2)) DNS_QR =? 0) = negb (Z.testbit (ntohs (ld16 data 2)) 15)) as ->
    by apply land_bit_zero.
  destruct (Z.testbit (ntohs (ld16 data 2)) 15); cbn [negb].
  2: { exists s. split; [done|]. split; [done|]. intros (_ & _ & ?). done. }
  destruct (skip_questions_spec data len Hd Hl ltac:(lia) (Z.to_nat (ntohs (ld16 data 4))) 12 ltac:(lia)) as (p & -> & Hq & Hp).
  cbn [mbind option_bind].
  destruct (find_answer_spec data len Hd Hl (Z.to_nat (ntohs (ld16 data 6))) p Hp) as (r & -> & Hr).
  cbn [mbind option_bind]. eexists. split; [done|]. split; [intros H; by destruct H|]. intros _.
  split.
  - intros ip (p' & Hq' & Ha). pose proof (questions_fun _ _ _ _ _ _ Hq Hq') as <-.
    destruct r as [ip'|]; [by rewrite (first_address_fun _ _ _ _ _ _ Hr Ha)|by destruct (Hr ip)].
  - intros Hno. destruct r as [ip|]; [|done]. destruct (Hno ip). by exists p.
Qed.

(** * The packet of a query *)

(** A host name of labels, and its wire format. *)
Fixpoint host_name (labels : list (list Z)) : list Z :=
  match labels with
  | [] => []
  | [l] => l
  | l :: rest => l ++ DOT :: host_name rest
  end.

Definition wire_name (labels : list (list Z)) : list Z :=
  (labels ≫= fun l => Z.of_nat (length l) :: l) ++ [0].

Definition label_ok (l : list Z) : Prop := 0 < Z.of_nat (length l) <= 63 /\ DOT ∉ l.

Lemma take_label_spec l r : DOT ∉ l -> take_label (l ++ DOT :: r) = (l, r) /\ take_label l = (l, []).
Proof.
  induction l as [|c l IH]; intros Hl; [done|]. apply not_elem_of_cons in Hl as [Hc Hl]. cbn [app take_label].
  rewrite (proj2 (Z.eqb_neq c DOT)) by congruence. destruct (IH Hl) as [-> ->]. done.
Qed.

Lemma host_name_step l labels : label_ok l -> take_label (host_name (l :: labels)) = (l, host_name labels).
Proof.
  intros [_ Hl]. destruct (take_label_spec l (host_name labels) Hl) as [E1 E2]. by destruct labels.
Qed.

Lemma host_name_nil labels : Forall label_ok labels -> host_name labels = [] -> labels = [].
Proof.
  destruct labels as [|l [|l2 rest]]; [done|..]; intros [[Hl _] _]%Forall_cons E; cbn in E.
  - subst l. cbn in Hl. lia.
  - by apply app_eq_nil in E as [_ ?].
Qed.

Lemma labels_length labels : Forall label_ok labels -> (length labels <= length (host_name labels))%nat.
Proof.
  induction labels as [|l labels IH]; [done|]. intros [[Hl _] Hls]%Forall_cons. specialize (IH Hls).
  destruct labels; cbn [host_name length] in *; rewrite ?length_app; cbn [length]; lia.
Qed.

(** [bs] put at [o] of a buffer. *)
Definition put (m : list Z) (o : Z) (bs : list Z) : list Z :=
  take (Z.to_nat o) m ++ bs ++ drop (Z.to_nat o + length bs) m.

Lemma put_length m o bs : 0 <= o -> o + Z.of_nat (length bs) <= Z.of_nat (length m) -> length (put m o bs) = length m.
Proof. intros. unfold put. rewrite !length_app, length_take, length_drop. lia. Qed.

Lemma put_put m o a b :
  0 <= o -> o + Z.of_nat (length a) <= Z.of_nat (length m) ->
  put (put m o a) (o + Z.of_nat (length a)) b = put m o (a ++ b).
Proof.
  intros Ho Hl. unfold put. replace (Z.to_nat (o + Z.of_nat (length a))) with (Z.to_nat o + length a)%nat by lia.
  set (n := Z.to_nat o). assert (length (take n m) = n) as Hn by (rewrite length_take; lia).
  assert (forall r, take (n + length a) (take n m ++ a ++ r) = take n m ++ a) as Ht.
  { intros r. rewrite app_assoc. apply take_app_length'. rewrite length_app. lia. }
  rewrite Ht. rewrite !app_assoc. f_equal.
  rewrite <- (app_assoc (take n m)), drop_app_ge by lia. rewrite drop_app_ge by lia.
  rewrite drop_drop, length_app. f_equal. lia.
Qed.

Lemma encode_loop_spec labels off max : Forall label_ok labels -> 0 <= off -> forall fuel buf pos,
  (length labels < fuel)%nat -> 0 <= pos -> off + max <= Z.of_nat (length buf) ->
  let w := wire_name labels in
  if pos + Z.of_nat (length w) <? max then
    encode_loop fuel (host_name labels) buf off pos max = Some (put buf (off + pos) w, pos + Z.of_nat (length w))
  else exists buf', encode_loop fuel (host_name labels) buf off pos max = Some (buf', -1).
Proof.
  intros Hls Ho. induction Hls as [|l labels Hl Hls IH]; intros [|fuel] buf pos Hf Hp Hbuf; [lia| |lia|];
    cbn [encode_loop]; cbv zeta.
  - change (wire_name []) with [0]. cbn [length].
    destruct (Z.ltb_spec (pos + Z.of_nat 1) max), (Z.leb_spec max (pos + 1)); try lia; [|by eexists].
    rewrite store_Some by (cbn [length]; lia). done.
  - rewrite bool_decide_false by (intros E%host_name_nil; [done|by constructor]).
    rewrite host_name_step by done. destruct Hl as [Hl Hdot].
    rewrite (proj2 (Z.leb_gt _ 0)), (proj2 (Z.ltb_ge 63 _)) by lia. cbn [orb].
    assert (wire_name (l :: labels) = (Z.of_nat (length l) :: l) ++ wire_name labels) as Ew by (unfold wire_name; cbn; by rewrite <- app_assoc).
    assert (0 < length (wire_name labels))%nat as Hpos by (unfold wire_name; rewrite length_app; cbn; lia).
    assert (Z.of_nat (length (wire_name (l :: labels))) = 1 + Z.of_nat (length l) + Z.of_nat (length (wire_name labels))) as Elen
      by (rewrite Ew, length_app; cbn [length]; lia).
    destruct (Z.leb_spec max (pos + 1 + Z.of_nat (length l))) as [Hfull|Hroom].
    { rewrite (proj2 (Z.ltb_ge _ max)) by lia. by eexists. }
    assert (u8 (Z.of_nat (length l)) = Z.of_nat (length l)) as -> by (apply u8_small; lia).
    rewrite store_Some by (cbn [length]; lia). cbn [mbind option_bind].
    fold (put buf (off + pos) [Z.of_nat (length l)]).
    assert (length (put buf (off + pos) [Z.of_nat (length l)]) = length buf) as El1 by (apply put_length; cbn [length]; lia).
    rewrite store_Some by (rewrite ?El1; lia). cbn [mbind option_bind].
    fold (put (put buf (off + pos) [Z.of_nat (length l)]) (off + (pos + 1)) l).
    replace (off + (pos + 1)) with (off + pos + Z.of_nat (length [Z.of_nat (length l)])) by (cbn; lia).
    rewrite put_put by (cbn [length]; lia). cbn [app]. set (buf1 := put buf (off + pos) _).
    assert (length buf1 = length buf) as El2 by (apply put_length; cbn [length]; lia).
    specialize (IH fuel buf1 (pos + 1 + Z.of_nat (length l)) ltac:(cbn in Hf; lia) ltac:(lia) ltac:(lia)). cbv zeta in IH.
    replace (pos + 1 + Z.of_nat (length l) + Z.of_nat (length (wire_name labels)))
      with (pos + Z.of_nat (length (wire_name (l :: labels)))) in IH by lia.
    destruct (_ <? max); [|exact IH]. rewrite IH, Ew. f_equal. f_equal.
    replace (off + (pos + 1 + Z.of_nat (length l))) with (off + pos + Z.of_nat (length (Z.of_nat (length l) :: l))) by (cbn [length]; lia).
    unfold buf1. apply put_put; cbn [length]; lia.
Qed.

Lemma put_take m o bs : 0 <= o -> o + Z.of_nat (length bs) <= Z.of_nat (length m) ->
  take (Z.to_nat o + length bs) (put m o bs) = take (Z.to_nat o) m ++ bs.
Proof.
  intros Ho Hl. unfold put. rewrite app_assoc. apply take_app_length'. rewrite length_app, length_take. lia.
Qed.

Lemma store_put m o bs : 0 <= o -> o + Z.of_nat (length bs) <= Z.of_nat (length m) -> store m o bs = Some (put m o bs).
Proof. apply store_Some. Qed.

Lemma put_next m o o' a b :
  o' = o + Z.of_nat (length a) -> 0 <= o -> o + Z.of_nat (length a) <= Z.of_nat (length m) ->
  put (put m o a) o' b = put m o (a ++ b).
Proof. intros ->. apply put_put. Qed.

(** The four bytes after the name. *)
Lemma store_tail buf pos : 0 <= pos -> Z.of_nat (length buf) = 512 ->
  (b1 ← store buf pos [0]; b2 ← store b1 (pos + 1) [DNS_TYPE_A]; b3 ← store b2 (pos + 2) [0];
   b4 ← store b3 (pos + 3) [DNS_CLASS_IN]; Some (b4, pos + 4)) =
  if 508 <? pos then None else Some (put buf pos [0; 1; 0; 1], pos + 4).
Proof.
  intros Hp Hl. destruct (Z.ltb_spec 508 pos) as [Hbig|Hfit].
  - destruct (decide (pos + 1 <= 512)); [|by rewrite store_None by (rewrite ?Hl; cbn [length]; lia)].
    rewrite store_put by (rewrite ?Hl; cbn [length]; lia). cbn [mbind option_bind]. set (m1 := put buf pos [0]).
    assert (Z.of_nat (length m1) = 512) as L1 by (unfold m1; rewrite put_length by (cbn [length]; lia); done).
    destruct (decide (pos + 2 <= 512)); [|by rewrite store_None by (rewrite ?Hl; cbn [length]; lia)].
    rewrite store_put by (rewrite ?Hl; cbn [length]; lia). cbn [mbind option_bind]. set (m2 := put m1 (pos + 1) [DNS_TYPE_A]).
    assert (Z.of_nat (length m2) = 512) as L2 by (unfold m2; rewrite put_length by (cbn [length]; lia); done).
    destruct (decide (pos + 3 <= 512)); [|by rewrite store_None by (rewrite ?Hl; cbn [length]; lia)].
    rewrite store_put by (rewrite ?Hl; cbn [length]; lia). cbn [mbind option_bind]. set (m3 := put m2 (pos + 2) [0]).
    assert (Z.of_nat (length m3) = 512) as L3 by (unfold m3; rewrite put_length by (cbn [length]; lia); done).
    by rewrite store_None by (cbn [length]; lia).
  - assert (forall m a, Z.of_nat (length m) = 512 -> pos <= a <= pos + 3 -> Z.of_nat (length (put m a [0])) = 512 /\
      forall x, Z.of_nat (length (put m a [x])) = 512) as Hlen.
    { intros m a Hm Ha. split; [|intros x]; rewrite put_length by (cbn [length]; lia); done. }
    rewrite store_put by (cbn [length]; lia). cbn [mbind option_bind].
    rewrite store_put by (rewrite ?(proj1 (Hlen buf pos Hl ltac:(lia))); cbn [length]; lia). cbn [mbind option_bind].
    rewrite (put_next buf pos (pos + 1) [0] [DNS_TYPE_A]) by (cbn [length]; lia). cbn [app].
    set (m2 := put buf pos _). assert (Z.of_nat (length m2) = 512) as L2 by (unfold m2; rewrite put_length by (cbn [length]; lia); done).
    rewrite store_put by (rewrite ?L2; cbn [length]; lia). cbn [mbind option_bind]. unfold m2.
    rewrite (put_next buf pos (pos + 2) [0; DNS_TYPE_A] [0]) by (cbn [length]; lia). cbn [app].
    set (m3 := put buf pos _). assert (Z.of_nat (length m3) = 512) as L3 by (unfold m3; rewrite put_length by (cbn [length]; lia); done).
    rewrite store_put by (rewrite ?L3; cbn [length]; lia). cbn [mbind option_bind]. unfold m3.
    by rewrite (put_next buf pos (pos + 3) [0; DNS_TYPE_A; 0] [DNS_CLASS_IN]) by (cbn [length]; lia).
Qed.

(** C33: for a host name of labels of 1 to 63 bytes, of which the wire format has [n]
    bytes: up to 496 the query is its header, the name and the question; from 500 on
    it is refused; and from 497 to 499 the question is written past the end of the
    buffer of 512 bytes (which also shows that no other name overruns it). *)
Theorem dns_query_bounds labels id :
  Forall label_ok labels ->
  let w := wire_name labels in
  let n := Z.of_nat (length w) in
  match dns_query (host_name labels) id with
  | Some (buf, len) =>
      if len <? 0 then 500 <= n
      else n <= 496 /\ len = 16 + n /\ length buf = 512%nat /\
           take (Z.to_nat len) buf =
             dns_header_bytes (DnsHeader (htons id) (htons 256) (htons 1) 0 0 0) ++ w ++ [0; 1; 0; 1]
  | None => 497 <= n <= 499
  end.
Proof.
  intros Hls. cbv zeta. set (w := wire_name labels). unfold dns_query. set (hdr := dns_header_bytes _). set (buf0 := repeat 0 512).
  assert (length buf0 = 512%nat) as L0 by done. assert (length hdr = 12%nat) as Lh by done. clearbody buf0 hdr.
  cbv zeta. rewrite store_put by lia. cbn [mbind option_bind]. unfold sizeof_dns_header.
  assert (length (put buf0 0 hdr) = 512%nat) as L1 by (rewrite put_length by lia; done).
  pose proof (encode_loop_spec labels 12 500 Hls ltac:(lia) (S (length (host_name labels))) (put buf0 0 hdr) 0) as He.
  specialize (He ltac:(pose proof (labels_length labels Hls); lia) ltac:(lia) ltac:(lia)). cbv zeta in He. fold w in He.
  unfold dns_encode_name. change (512 - 12) with 500. rewrite Z.add_0_l in He.
  destruct (Z.ltb_spec (Z.of_nat (length w)) 500) as [Hw|Hw]; [|destruct He as [buf' ->]; cbn; lia].
  rewrite He. cbn [mbind option_bind]. rewrite (proj2 (Z.ltb_ge _ 0)) by lia.
  assert (put (put buf0 0 hdr) (12 + 0) w = put buf0 0 (hdr ++ w)) as ->.
  { replace (12 + 0) with (0 + Z.of_nat (length hdr)) by lia. apply put_put; lia. }
  set (buf1 := put buf0 0 (hdr ++ w)).
  assert (Z.of_nat (length buf1) = 512) as L2 by (unfold buf1; rewrite put_length by (rewrite ?length_app; lia); lia).
  pose proof (store_tail buf1 (12 + Z.of_nat (length w)) ltac:(lia) L2) as ->.
  destruct (Z.ltb_spec 508 (12 + Z.of_nat (length w))); [lia|]. rewrite (proj2 (Z.ltb_ge _ 0)) by lia.
  assert (put buf1 (12 + Z.of_nat (length w)) [0; 1; 0; 1] = put buf0 0 ((hdr ++ w) ++ [0; 1; 0; 1])) as ->.
  { replace (12 + Z.of_nat (length w)) with (0 + Z.of_nat (length (hdr ++ w))) by (rewrite length_app; lia).
    apply put_put; rewrite ?length_app; lia. }
  split; [lia|]. split; [lia|]. set (all := (hdr ++ w) ++ _).
  assert (length all = (16 + length w)%nat) as La by (unfold all; rewrite !length_app; cbn [length]; lia).
  split; [rewrite put_length by lia; done|].
  replace (Z.to_nat (12 + Z.of_nat (length w) + 4)) with (Z.to_nat 0 + length all)%nat by lia.
  rewrite put_take by lia. unfold all. by rewrite <- app_assoc.
Qed.

(** * Examples *)

(** A response to query 7 with one question and one answer. *)
Definition demo_response (flags : Z) : list Z :=
  [0; 7; flags; 128; 0; 1; 0; 1; 0; 0; 0; 0; 1; 97; 0; 0; 1; 0; 1; 192; 12; 0; 1; 0; 1; 0; 0; 0; 60; 0; 4; 10; 0; 2; 15].

Lemma demo_bytes flags : 0 <= flags < 256 -> bytes (demo_response flags).
Proof. intros H. unfold demo_response, bytes. repeat constructor; lia. Qed.

Lemma demo_answers : answers_with (demo_response 129) 35 251789322.
Proof.
  exists 19. split.
  - apply (Question _ _ 0 12 15 19); [|apply (NoQuestion _ _ 19)].
    apply (NameLabel _ _ 12 15); [lia|vm_compute; by split|]. apply (NameZero _ _ 14); [lia|reflexivity].
  - change (first_address (demo_response 129) 35 1 19 (ld32 (demo_response 129) 31)).
    apply (AddressHere _ _ 0 19 21); [lia|apply (NamePointer _ _ 19); [lia|vm_compute; discriminate]|lia|].
    split_and!; [reflexivity|reflexivity|lia].
Qed.

(** The answer of the query is taken; the same message without the flag of a
    response is not. *)
Lemma dns_rx_safe_witness :
  let s := Dns [] 1 8 7 0 false in
  dns_rx (demo_response 129) 35 s = Some (s <| pending_result := 251789322 |> <| pending_done := true |>) /\
  dns_rx (demo_response 1) 35 s = Some s.
Proof.
  cbv zeta. split.
  - destruct (dns_rx_safe (Dns [] 1 8 7 0 false) (demo_response 129) 35) as (s' & E & _ & H).
    + apply demo_bytes. lia.
    + cbn. lia.
    + rewrite E. f_equal. apply H; [|exact demo_answers]. split_and!; [vm_compute; discriminate|reflexivity|reflexivity].
  - destruct (dns_rx_safe (Dns [] 1 8 7 0 false) (demo_response 1) 35) as (s' & E & H & _).
    + apply demo_bytes. lia.
    + cbn. lia.
    + rewrite E. f_equal. apply H. intros (_ & _ & Hf). vm_compute in Hf. discriminate Hf.
Defined.

(** Seven labels of 63 bytes and one of 47. *)
Definition long_host : list (list Z) := repeat (repeat 97 63) 7 ++ [repeat 97 47].

Lemma dns_query_bounds_witness :
  length (wire_name long_host) = 497%nat /\ dns_query (host_name long_host) 1 = None /\
  exists buf, dns_query (host_name [[97]; [98; 99]]) 1 = Some (buf, 22).
Proof.
  assert (label_ok (repeat 97 63) /\ label_ok (repeat 97 47)) as [H1 H2].
  { split; (split; [cbn; lia|]); by apply (bool_decide_unpack _). }
  pose proof (dns_query_bounds long_host 1) as Hl. cbv zeta in Hl.
  assert (length (wire_name long_host) = 497%nat) as E by (vm_compute; reflexivity). rewrite E in Hl.
  split; [exact E|]. split.
  - destruct (dns_query (host_name long_host) 1) as [[buf len]|]; [|done]. exfalso.
    assert (Forall label_ok long_host) as Hls.
    { unfold long_host. apply Forall_app. split; [|by apply Forall_singleton]. apply Forall_forall. intros x Hx%list_elem_of_In%repeat_spec. by subst. }
    specialize (Hl Hls). destruct (len <? 0); lia.
  - eexists. vm_compute. reflexivity.
Defined.
