(* ===== verification/Dhcp.v ===== *)
(** The DHCP client: [net/dhcp.c].

    As in [Dns], an access outside a buffer makes the call [None].  Its messages to
    the log are left out. *)
From S2P Require Import Prelude.
From S2P Require Import Net.
From S2P Require Import Arp.
From S2P Require Import Ipv4.
From S2P Require Import Udp.
From S2P Require Import Dns.
From Stdlib Require Import ZArith Lia.
From stdpp Require Import base numbers list.

Open Scope Z_scope.
Open Scope lyth_scope.

Definition DHCP_DISCOVER : Z := 1.
Definition DHCP_OFFER : Z := 2.
Definition DHCP_REQUEST : Z := 3.
Definition DHCP_ACK : Z := 5.
Definition DHCP_SERVER_PORT : Z := 67.
Definition DHCP_MAGIC_COOKIE : Z := 1669485411.
Definition OPTIONS_MAX : Z := 312.
Definition sizeof_dhcp_packet : Z := 552.

Record dhcp_result := DhcpResult {
  d_ip_addr : Z; d_netmask : Z; d_gateway : Z; d_dns_server : Z; d_lease_time : Z; d_ok : bool }.

(** The state: 0 idle, 1 discover sent, 2 request sent, 3 done. *)
Record dhcp := Dhcp { last_result : dhcp_result; dhcp_xid : Z; dhcp_state : Z }.

(** * Options *)

Definition dhcp_add_option (opts : list Z) (pos code len : Z) (data : list Z) : option (list Z * Z) :=
  opts ← store opts pos [code];
  opts ← store opts (pos + 1) [len];
  bs ← load data 0 len;
  opts ← store opts (pos + 2) bs;
  Some (opts, pos + 2 + len).

(** What the parser collects. *)
Record options := Options { o_type : Z; o_mask : Z; o_router : Z; o_dns : Z; o_lease : Z }.

Definition take_option (opts : list Z) (code olen at_ : Z) (o : options) : option options :=
  if code =? 53 then b ← byte_at opts at_; Some (Options b (o_mask o) (o_router o) (o_dns o) (o_lease o))
  else if (code =? 1) && (4 <=? olen) then
    v ← load opts at_ 4; Some (Options (o_type o) (ld32 v 0) (o_router o) (o_dns o) (o_lease o))
  else if (code =? 3) && (4 <=? olen) then
    v ← load opts at_ 4; Some (Options (o_type o) (o_mask o) (ld32 v 0) (o_dns o) (o_lease o))
  else if (code =? 6) && (4 <=? olen) then
    v ← load opts at_ 4; Some (Options (o_type o) (o_mask o) (o_router o) (ld32 v 0) (o_lease o))
  else if (code =? 51) && (4 <=? olen) then
    v ← load opts at_ 4; Some (Options (o_type o) (o_mask o) (o_router o) (o_dns o) (ld32 v 0))
  else Some o.

Fixpoint parse_options (fuel : nat) (opts : list Z) (max_opts i : Z) (o : options) : option options :=
  match fuel with
  | O => None
  | S fuel' =>
      if max_opts <=? i then Some o
      else
        code ← byte_at opts i;
        if code =? 255 then Some o
        else if code =? 0 then parse_options fuel' opts max_opts (i + 1) o
        else
          olen ← byte_at opts (i + 1);
          o ← take_option opts code olen (i + 2) o;
          parse_options fuel' opts max_opts (i + (2 + olen)) o
  end.

(** * Messages *)

(** The packet up to its options: a broadcast request of the interface. *)
Definition request_header (xid : Z) (mac6 : list Z) : list Z :=
  [1; 1; 6; 0] ++ le32 (htonl xid) ++ le16 0 ++ le16 (htons 32768) ++ le32 0 ++ le32 0 ++ le32 0 ++ le32 0 ++
  (slice mac6 0 6 ++ repeat 0 10) ++ repeat 0 64 ++ repeat 0 128 ++ le32 (htonl DHCP_MAGIC_COOKIE).

Definition blank_options : list Z := repeat 0 (Z.to_nat OPTIONS_MAX).

Section driver.
Context {DRV : NetDriver}.

Definition set_iface_ip (i ip : Z) (net : netstk) : netstk :=
  let f := (interfaces net).[i] in
  set_netifs net (interfaces net).[i <- Netif (name f) (mac f) ip (netmask f) (gateway f) (dns_server f) (up f) (has_send f)]
    (iface_count net) (default_iface net).

Definition set_iface_dns (i d : Z) (net : netstk) : netstk :=
  let f := (interfaces net).[i] in
  set_netifs net (interfaces net).[i <- Netif (name f) (mac f) (ip_addr f) (netmask f) (gateway f) d (up f) (has_send f)]
    (iface_count net) (default_iface net).

Definition dhcp_discover (iface : option Z) (s : dhcp) (net : netstk) : option (dhcp * netstk * Z) :=
  match iface with
  | None => Some (s, net, -1)
  | Some i =>
      let s := Dhcp (DhcpResult 0 0 0 0 0 false) 305419896 1 in
      '(opts, pos) ← dhcp_add_option blank_options 0 53 1 [DHCP_DISCOVER];
      '(opts, pos) ← dhcp_add_option opts pos 55 3 [1; 3; 6];
      opts ← store opts pos [255];
      let pos := pos + 1 in
      let saved_ip := ip_addr (interfaces net).[i] in
      let net := set_iface_ip i 0 net in
      let pkt := request_header (dhcp_xid s) (mac (interfaces net).[i]) ++ opts in
      let pkt_len := u16 (sizeof_dhcp_packet - OPTIONS_MAX + pos) in
      '(net, _) ← udp_send net iface 4294967295 DHCP_CLIENT_PORT DHCP_SERVER_PORT pkt pkt_len;
      Some (s, set_iface_ip i saved_ip net, 0)
  end.

(** The request that answers an offer. *)
Definition send_request (i offered_ip server_ip : Z) (s : dhcp) (net : netstk) : option (dhcp * netstk) :=
  let s := Dhcp (last_result s) (dhcp_xid s) 2 in
  '(opts, pos) ← dhcp_add_option blank_options 0 53 1 [DHCP_REQUEST];
  '(opts, pos) ← dhcp_add_option opts pos 50 4 (le32 offered_ip);
  '(opts, pos) ← dhcp_add_option opts pos 54 4 (le32 server_ip);
  opts ← store opts pos [255];
  let pos := pos + 1 in
  let req := request_header (dhcp_xid s) (mac (interfaces net).[i]) ++ opts in
  let req_len := u16 (sizeof_dhcp_packet - OPTIONS_MAX + pos) in
  '(net, _) ← udp_send net (Some i) 4294967295 DHCP_CLIENT_PORT DHCP_SERVER_PORT req req_len;
  Some (s, net).

(** The configuration of an acknowledged lease. *)
Definition apply_lease (i offered_ip : Z) (o : options) (s : dhcp) (d : dns) (net : netstk) : dhcp * dns * netstk :=
  let s := Dhcp (DhcpResult offered_ip (o_mask o) (o_router o) (o_dns o) (ntohl (o_lease o)) true) (dhcp_xid s) 3 in
  let net := netif_set_addr net (Some i) offered_ip (o_mask o) (o_router o) in
  let net := set_iface_dns i (o_dns o) net in
  let net := if o_router o =? 0 then net else route_add net 0 0 (o_router o) (Some i) in
  let net := route_add net (Z.land offered_ip (o_mask o)) (o_mask o) 0 (Some i) in
  (s, dns_set_server (o_dns o) d, net).

Definition dhcp_handle_reply (i : Z) (data : list Z) (len : Z) (s : dhcp) (d : dns) (net : netstk)
    : option (dhcp * dns * netstk) :=
  if len <? sizeof_dhcp_packet - OPTIONS_MAX then Some (s, d, net)
  else
    hdr ← load data 0 (sizeof_dhcp_packet - OPTIONS_MAX);
    if negb (hdr.[0] =? 2) then Some (s, d, net)
    else if negb (ntohl (ld32 hdr 4) =? dhcp_xid s) then Some (s, d, net)
    else
      let offered_ip := ld32 hdr 16 in
      let server_ip := ld32 hdr 20 in
      let avail := len - (sizeof_dhcp_packet - OPTIONS_MAX) in
      let max_opts := if OPTIONS_MAX <? avail then OPTIONS_MAX else avail in
      o ← parse_options (S (Z.to_nat max_opts)) (drop 240 data) max_opts 0 (Options 0 0 0 0 0);
      if (o_type o =? DHCP_OFFER) && (dhcp_state s =? 1) then
        '(s, net) ← send_request i offered_ip server_ip s net; Some (s, d, net)
      else if (o_type o =? DHCP_ACK) && (dhcp_state s =? 2) then Some (apply_lease i offered_ip o s d net)
      else Some (s, d, net).
End driver.

Definition dhcp_get_result (s : dhcp) : dhcp_result := last_result s.

(** * The parser *)

(** An option is a code and its value. *)
Definition option_ok (e : Z * list Z) : Prop :=
  0 < e.1 < 255 /\ Z.of_nat (length e.2) < 256 /\ (e.1 = 53 -> e.2 <> []).

Definition option_bytes (e : Z * list Z) : list Z := e.1 :: Z.of_nat (length e.2) :: e.2.

(** What an option with its value stands for. *)
Definition read_option (o : options) (e : Z * list Z) : options :=
  let '(code, v) := e in
  if code =? 53 then Options v.[0] (o_mask o) (o_router o) (o_dns o) (o_lease o)
  else if Z.of_nat (length v) <? 4 then o
  else if code =? 1 then Options (o_type o) (ld32 v 0) (o_router o) (o_dns o) (o_lease o)
  else if code =? 3 then Options (o_type o) (o_mask o) (ld32 v 0) (o_dns o) (o_lease o)
  else if code =? 6 then Options (o_type o) (o_mask o) (o_router o) (ld32 v 0) (o_lease o)
  else if code =? 51 then Options (o_type o) (o_mask o) (o_router o) (o_dns o) (ld32 v 0)
  else o.

Lemma byte_at_app pre b rest i : i = Z.of_nat (length pre) -> byte_at (pre ++ b :: rest) i = Some b.
Proof.
  intros ->. unfold byte_at. rewrite (proj2 (Z.ltb_ge _ 0)), Nat2Z.id by lia. by apply list_lookup_middle.
Qed.

Lemma load_value pre v rest at_ : at_ = Z.of_nat (length pre) -> 4 <= Z.of_nat (length v) ->
  exists w, load (pre ++ v ++ rest) at_ 4 = Some w /\ ld32 w 0 = ld32 v 0.
Proof.
  intros -> Hv. rewrite load_Some by (rewrite ?length_app; lia). eexists. split; [done|].
  rewrite Nat2Z.id, drop_app_length. change (Z.to_nat 4) with 4%nat.
  destruct v as [|a [|b [|c [|d v]]]]; cbn [length] in Hv; try lia. done.
Qed.

Lemma take_option_spec pre e rest o :
  option_ok e ->
  take_option (pre ++ e.2 ++ rest) e.1 (Z.of_nat (length e.2)) (Z.of_nat (length pre)) o = Some (read_option o e).
Proof.
  destruct e as [code v]. intros (Hc & Hl & Hv). cbn [fst snd] in *. unfold take_option, read_option.
  destruct (Z.eqb_spec code 53) as [->|].
  { destruct v as [|b v]; [by specialize (Hv eq_refl)|]. cbn [app]. by rewrite byte_at_app. }
  destruct (Z.ltb_spec (Z.of_nat (length v)) 4) as [Hs|Hs].
  { rewrite (proj2 (Z.leb_gt 4 _)) by lia. by rewrite !andb_false_r. }
  rewrite (proj2 (Z.leb_le 4 _)), !andb_true_r by lia.
  destruct (load_value pre v rest _ eq_refl Hs) as (w & E & <-). rewrite !E. cbn [mbind option_bind].
  by destruct (code =? 1), (code =? 3), (code =? 6), (code =? 51).
Qed.

(** Options one after the other, up to the end mark, are read one after the other. *)
Lemma parse_options_spec l max_opts rest : Forall option_ok l -> forall pre o fuel,
  (length l < fuel)%nat -> Z.of_nat (length pre) + Z.of_nat (length (l ≫= option_bytes)) < max_opts ->
  parse_options fuel (pre ++ (l ≫= option_bytes) ++ 255 :: rest) max_opts (Z.of_nat (length pre)) o =
    Some (foldl read_option o l).
Proof.
  induction 1 as [|e l He Hl IH]; intros pre o [|fuel] Hf Hm; [lia| |cbn in Hf; lia|]; cbn [parse_options].
  - cbn in Hm. rewrite (proj2 (Z.leb_gt max_opts _)) by lia.
    change ([] ≫= option_bytes) with (@nil Z). cbn [app]. by rewrite (byte_at_app pre 255 rest _ eq_refl).
  - rewrite bind_cons, length_app in Hm. change (length (option_bytes e)) with (S (S (length e.2))) in Hm.
    set (tl := (l ≫= option_bytes) ++ 255 :: rest).
    assert (((e :: l) ≫= option_bytes) ++ 255 :: rest = e.1 :: Z.of_nat (length e.2) :: e.2 ++ tl) as ->
      by (rewrite bind_cons, <- app_assoc; done).
    rewrite (proj2 (Z.leb_gt max_opts _)) by lia. rewrite (byte_at_app pre e.1 _ _ eq_refl). cbn [mbind option_bind].
    pose proof He as (Hc & Hlen & Hv). rewrite (proj2 (Z.eqb_neq e.1 255)), (proj2 (Z.eqb_neq e.1 0)) by lia.
    replace (pre ++ e.1 :: Z.of_nat (length e.2) :: e.2 ++ tl)
      with ((pre ++ [e.1]) ++ Z.of_nat (length e.2) :: e.2 ++ tl) by (by rewrite <- app_assoc).
    rewrite byte_at_app by (rewrite length_app; cbn; lia). cbn [mbind option_bind].
    replace ((pre ++ [e.1]) ++ Z.of_nat (length e.2) :: e.2 ++ tl)
      with ((pre ++ [e.1; Z.of_nat (length e.2)]) ++ e.2 ++ tl) by (by rewrite <- !app_assoc).
    replace (Z.of_nat (length pre) + 2) with (Z.of_nat (length (pre ++ [e.1; Z.of_nat (length e.2)]))) by (rewrite length_app; cbn; lia).
    rewrite take_option_spec by done. cbn [mbind option_bind foldl].
    rewrite app_assoc. set (pre' := (pre ++ _) ++ e.2).
    replace (Z.of_nat (length pre) + (2 + Z.of_nat (length e.2))) with (Z.of_nat (length pre'))
      by (unfold pre'; rewrite !length_app; cbn; lia).
    apply IH; [cbn in Hf; lia|]. unfold pre'. rewrite !length_app. cbn. lia.
Qed.

(** A well-formed reply is understood: its options are read in order, an offer is
    answered by a request, and an acknowledgement of a request applies the lease. *)
Theorem dhcp_reply_understood {DRV : NetDriver} i hdr l rest len (s : dhcp) (d : dns) (net : netstk) :
  length hdr = 240%nat -> hdr.[0] = 2 -> ntohl (ld32 hdr 4) = dhcp_xid s -> Forall option_ok l ->
  let data := hdr ++ (l ≫= option_bytes) ++ 255 :: rest in
  let o := foldl read_option (Options 0 0 0 0 0) l in
  240 <= len <= Z.of_nat (length data) ->
  Z.of_nat (length (l ≫= option_bytes)) < Z.min 312 (len - 240) ->
  dhcp_handle_reply i data len s d net =
    if (o_type o =? DHCP_OFFER) && (dhcp_state s =? 1) then
      '(s, net) ← send_request i (ld32 hdr 16) (ld32 hdr 20) s net; Some (s, d, net)
    else if (o_type o =? DHCP_ACK) && (dhcp_state s =? 2) then Some (apply_lease i (ld32 hdr 16) o s d net)
    else Some (s, d, net).
Proof.
  intros Hh H0 Hx Hl data o Hlen Hopts. unfold dhcp_handle_reply. change (sizeof_dhcp_packet - OPTIONS_MAX) with 240.
  rewrite (proj2 (Z.ltb_ge len 240)) by lia. rewrite load_Some by (unfold data; rewrite ?length_app in *; lia).
  cbn [mbind option_bind]. change (Z.to_nat 240) with 240%nat. change (Z.to_nat 0) with 0%nat.
  assert (take 240 (drop 0 data) = hdr) as -> by (unfold data; rewrite drop_0, <- Hh; apply take_app_length).
  rewrite H0, Hx, !Z.eqb_refl. cbn [negb]. cbv zeta.
  set (max_opts := if _ <? _ then _ else _).
  assert (max_opts = Z.min 312 (len - 240)) as Em by (unfold max_opts, OPTIONS_MAX; case_match; bool_to_prop; lia).
  assert (drop 240 data = [] ++ (l ≫= option_bytes) ++ 255 :: rest) as -> by (unfold data; rewrite <- Hh; apply drop_app_length).
  rewrite (parse_options_spec l max_opts rest Hl [] (Options 0 0 0 0 0)); [done| |cbn [length]; lia].
  assert (length l <= length (l ≫= option_bytes))%nat by (clear; induction l; [done|]; rewrite bind_cons, length_app; cbn; lia).
  lia.
Qed.

(** An option cut off at the end of the datagram is read past it. *)
Example dhcp_reply_overreads {DRV : NetDriver} (d : dns) (net : netstk) :
  let hdr := [2; 1; 6; 0] ++ le32 (htonl 305419896) ++ repeat 0 232 in
  dhcp_handle_reply 0 (hdr ++ [1]) 241 (Dhcp (DhcpResult 0 0 0 0 0 false) 305419896 1) d net = None.
Proof. reflexivity. Qed.
