(* ===== verification/NetStack.v ===== *)
(** The network stack put together: the receive path of [net/ethernet.c] and
    [net/ipv4.c] ([netif_rx] down to the transports) and the socket layer of
    [net/socket.c].

    The end-to-end theorems run a sender and a receiver against each other over
    the frames on the wire. *)
From S2P Require Import Prelude.
From S2P Require Import Net.
From S2P Require Import Arp.
From S2P Require Import Ipv4.
From S2P Require Import Tcp.
From S2P Require Import Udp.
From Stdlib Require Import ZArith Lia.
From stdpp Require Import base numbers list.

Open Scope Z_scope.
Open Scope lyth_scope.

(** Calls out of the modelled part: the DHCP client, the DNS resolver and the
    ping callback. *)
Inductive upcall :=
| DhcpReply (iface : Z) (payload : list Z) (len : Z)
| DnsReply (payload : list Z) (len : Z)
| Ping (r : ping_reply).

(** All the protocol state; the lower layers are [net] of [st_tcp]. *)
Record stack := Stack {
  st_tcp : tcp; st_udp : list udp_socket; reply_callback : bool; upcalls : list upcall }.

Definition st_net (k : stack) : netstk := net (st_tcp k).
Definition set_net (k : stack) (s : netstk) : stack :=
  Stack (Tcp (sockets (st_tcp k)) (tcp_isn (st_tcp k)) s) (st_udp k) (reply_callback k) (upcalls k).
Definition set_tcp (k : stack) (t : tcp) : stack := Stack t (st_udp k) (reply_callback k) (upcalls k).
Definition set_udp (k : stack) (u : list udp_socket) : stack :=
  Stack (st_tcp k) u (reply_callback k) (upcalls k).
Definition call_up (k : stack) (c : upcall) : stack :=
  Stack (st_tcp k) (st_udp k) (reply_callback k) (upcalls k ++ [c]).

Definition icmp_set_reply_callback (k : stack) (cb : bool) : stack :=
  Stack (st_tcp k) (st_udp k) cb (upcalls k).

Section stack.
Context {DRV : NetDriver}.

(** [switch (hdr->protocol)] *)
Definition ipv4_dispatch (k : stack) (now iface : Z) (d : datagram) : option stack :=
  if d_proto d =? IP_PROTO_ICMP then
    '(s, r) ← icmp_rx (st_net k) (reply_callback k) (Some iface) (d_src d) (d_payload d) (d_len d);
    let k := set_net k s in
    Some (match r with Some r => call_up k (Ping r) | None => k end)
  else if d_proto d =? IP_PROTO_UDP then
    r ← udp_rx (st_udp k) (d_src d) (d_payload d) (d_len d);
    Some (match r with
          | ToDhcp p n => call_up k (DhcpReply iface p n)
          | ToDns p n => call_up k (DnsReply p n)
          | ToSockets u => set_udp k u
          end)
  else if d_proto d =? IP_PROTO_TCP then
    t ← tcp_rx (st_tcp k) now (Some iface) (d_src d) (d_payload d) (d_len d);
    Some (set_tcp k t)
  else Some k.

Definition ipv4_rx (k : stack) (now iface : Z) (data : list Z) (len : Z) : option stack :=
  r ← ipv4_input (st_net k) iface data len;
  match r with
  | None => Some k
  | Some d => ipv4_dispatch k now iface d
  end.

Definition eth_rx (k : stack) (now iface : Z) (frame : list Z) (len : Z) : option stack :=
  if len <? ETH_HDR_LEN then Some k
  else
    let ethertype := ntohs (ld16 frame 12) in
    let payload := drop (Z.to_nat ETH_HDR_LEN) frame in
    let payload_len := u16 (len - ETH_HDR_LEN) in
    if ethertype =? ETHERTYPE_ARP then
      s ← arp_rx (st_net k) now iface payload payload_len;
      Some (set_net k s)
    else if ethertype =? ETHERTYPE_IPV4 then ipv4_rx k now iface payload payload_len
    else Some k.

Definition netif_rx (k : stack) (now iface : Z) (data : list Z) (len : Z) : option stack :=
  eth_rx k now iface data len.


End stack.

(** * Socket layer *)

Definition AF_INET : Z := 2.
Definition SOCK_STREAM : Z := 1.
Definition SOCK_DGRAM : Z := 2.
Definition NET_MAX_SOCKETS : Z := 32.

Record ksocket := KSocket { k_used : bool; k_domain : Z; k_type : Z; k_fd : Z }.
Definition blank_ksocket : ksocket := KSocket false 0 0 0.
#[export] Instance ksocket_inhabited : Inhabited ksocket := populate blank_ksocket.

(** The socket table over the protocols. *)
Record sys := Sys { ksocks : list ksocket; stk : stack }.

Definition set_stk (y : sys) (k : stack) : sys := Sys (ksocks y) k.
Definition bad_fd (y : sys) (fd : Z) : bool :=
  (fd <? 0) || (NET_MAX_SOCKETS <=? fd) || negb (k_used (ksocks y).[fd]).

(** [net_init] at time [now], less the DNS resolver's own statics. *)
Definition net_init (y : sys) (now : Z) : sys :=
  let s := ipv4_init (arp_init (netif_init (st_net (stk y)))) in
  let k := set_udp (set_net (stk y) s) udp_init in
  Sys (repeat blank_ksocket (Z.to_nat NET_MAX_SOCKETS)) (set_tcp k (tcp_init (st_tcp k) now)).

Definition net_socket (y : sys) (domain type : Z) : sys * Z :=
  if negb (domain =? AF_INET) then (y, -1)
  else
    match find_first (fun i => negb (k_used (ksocks y).[i])) (Z.to_nat NET_MAX_SOCKETS) 0 with
    | None => (y, -1)
    | Some i =>
        let '(k, proto_fd) :=
          if type =? SOCK_DGRAM then
            let '(u, fd) := udp_socket_open (st_udp (stk y)) 0 in (set_udp (stk y) u, fd)
          else if type =? SOCK_STREAM then
            let '(t, fd) := tcp_socket_open (st_tcp (stk y)) in (set_tcp (stk y) t, fd)
          else (stk y, -1) in
        if proto_fd <? 0 then (set_stk y k, -1)
        else (Sys (ksocks y).[i <- KSocket true domain type proto_fd] k, i)
    end.

Definition net_bind (y : sys) (fd port : Z) : sys * Z :=
  if bad_fd y fd then (y, -1)
  else
    let ks := (ksocks y).[fd] in
    if k_type ks =? SOCK_DGRAM then
      let '(u, _) := udp_socket_close (st_udp (stk y)) (k_fd ks) in
      let '(u, pfd) := udp_socket_open u port in
      (Sys (ksocks y).[fd <- KSocket (k_used ks) (k_domain ks) (k_type ks) pfd] (set_udp (stk y) u),
       if 0 <=? pfd then 0 else -1)
    else (y, -1).

Section calls.
Context {DRV : NetDriver}.

Definition net_connect (y : sys) (fd addr port : Z) (start : Z) (env : list (Z * list irq))
    : option (sys * option Z) :=
  if bad_fd y fd then Some (y, Some (-1))
  else
    let ks := (ksocks y).[fd] in
    if k_type ks =? SOCK_STREAM then
      '(t, r) ← tcp_socket_connect (st_tcp (stk y)) (k_fd ks) addr port start env;
      Some (set_stk y (set_tcp (stk y) t), r)
    else if k_type ks =? SOCK_DGRAM then
      let '(u, r) := udp_socket_bind (st_udp (stk y)) (k_fd ks) addr port in
      Some (set_stk y (set_udp (stk y) u), Some r)
    else Some (y, Some (-1)).

Definition net_listen (y : sys) (fd : Z) : sys * Z :=
  if bad_fd y fd then (y, -1)
  else
    let ks := (ksocks y).[fd] in
    if negb (k_type ks =? SOCK_STREAM) then (y, -1)
    else let '(t, r) := tcp_socket_listen (st_tcp (stk y)) (k_fd ks) 0 in
         (set_stk y (set_tcp (stk y) t), r).

Definition net_accept (y : sys) (fd start : Z) (env : list (Z * list irq)) : option (sys * option Z) :=
  if bad_fd y fd then Some (y, Some (-1))
  else
    let ks := (ksocks y).[fd] in
    if negb (k_type ks =? SOCK_STREAM) then Some (y, Some (-1))
    else '(t, r) ← tcp_socket_accept (st_tcp (stk y)) (k_fd ks) start env;
         Some (set_stk y (set_tcp (stk y) t), r).

(** [len > 0xFFFF ? 0xFFFF : (uint16_t)len] *)
Definition clamp16 (len : Z) : Z := if 65535 <? len then 65535 else u16 len.

Definition net_send (y : sys) (fd : Z) (buf : list Z) (len : Z) : option (sys * Z) :=
  if bad_fd y fd then Some (y, -1)
  else
    let ks := (ksocks y).[fd] in
    if k_type ks =? SOCK_STREAM then
      '(t, r) ← tcp_socket_send (st_tcp (stk y)) (k_fd ks) buf (clamp16 len);
      Some (set_stk y (set_tcp (stk y) t), r)
    else Some (y, -1).

Definition net_recv (y : sys) (fd : Z) (buf : list Z) (len : Z) : option (sys * Z * list Z) :=
  if bad_fd y fd then Some (y, -1, buf)
  else
    let ks := (ksocks y).[fd] in
    if k_type ks =? SOCK_STREAM then
      '(t, r, buf) ← tcp_socket_recv (st_tcp (stk y)) (k_fd ks) buf (clamp16 len);
      Some (set_stk y (set_tcp (stk y) t), r, buf)
    else Some (y, -1, buf).

Definition net_sendto (y : sys) (fd : Z) (buf : list Z) (len addr port : Z) : option (sys * Z) :=
  if bad_fd y fd then Some (y, -1)
  else
    let ks := (ksocks y).[fd] in
    if negb (k_type ks =? SOCK_DGRAM) then Some (y, -1)
    else
      '(s, r) ← udp_socket_sendto (st_udp (stk y)) (st_net (stk y)) (k_fd ks) addr port buf (clamp16 len);
      Some (set_stk y (set_net (stk y) s), r).

Definition net_recvfrom (y : sys) (fd : Z) (buf : list Z) (len : Z)
    : option (sys * Z * list Z * option (Z * Z)) :=
  if bad_fd y fd then Some (y, -1, buf, None)
  else
    let ks := (ksocks y).[fd] in
    if negb (k_type ks =? SOCK_DGRAM) then Some (y, -1, buf, None)
    else
      '(u, r, buf, from) ← udp_socket_recvfrom (st_udp (stk y)) (k_fd ks) buf (clamp16 len);
      Some (set_stk y (set_udp (stk y) u), r, buf, from).

Definition net_close (y : sys) (fd : Z) : option (sys * Z) :=
  if bad_fd y fd then Some (y, -1)
  else
    let ks := (ksocks y).[fd] in
    k ← (if k_type ks =? SOCK_DGRAM then
           Some (set_udp (stk y) (udp_socket_close (st_udp (stk y)) (k_fd ks)).1)
         else if k_type ks =? SOCK_STREAM then
           '(t, _) ← tcp_socket_close (st_tcp (stk y)) (k_fd ks);
           Some (set_tcp (stk y) t)
         else Some (stk y));
    Some (Sys (ksocks y).[fd <- KSocket false (k_domain ks) (k_type ks) (k_fd ks)] k, 0).

End calls.

(** * Frames of a sender at a receiver *)

(** [s] can send IP packets to [dst] through interface [i]: the next hop's MAC
    [m] is cached. *)
Record can_reach (s : netstk) (i dst : Z) (m : list Z) : Prop := CanReach {
  cr_host : host_ok s i;
  cr_dst : 0 <= dst < 4294967296;
  cr_unicast : broadcast s i (next_hop s i dst) = false;
  cr_mac : cached (arp_cache s) (next_hop s i dst) = Some m;
}.

Lemma eth_frame_type d src et p :
  0 <= et < 65536 -> ntohs (ld16 (eth_frame d src et p) 12) = et.
Proof.
  intros Het. change (ld16 _ 12) with (htons et mod 256 + 256 * (htons et / 256 mod 256)).
  rewrite le16_value by apply htons_bound. by apply htons_involutive.
Qed.

Lemma eth_frame_length d src et p : length (eth_frame d src et p) = (14 + length p)%nat.
Proof. done. Qed.

Section end_to_end.
Context {DRV : NetDriver}.

(** A frame that [ipv4_send] builds reaches the transport of the host it is
    addressed to. *)
Lemma netif_rx_sent k now j s i dst proto n body m :
  can_reach s i dst m -> 0 <= proto < 256 -> Z.of_nat (length body) = n -> n <= 1480 ->
  ip_addr (interfaces (st_net k)).[j] = dst ->
  let frame := eth_frame m (mac (interfaces s).[i]) ETHERTYPE_IPV4
                 (ipv4_header_bytes (sent_header s i dst proto n) ++ body) in
  netif_rx k now j frame (Z.of_nat (length frame))
  = ipv4_dispatch k now j (Datagram proto (ip_addr (interfaces s).[i]) dst body n).
Proof.
  intros Hr Hp Hb Hn Hj frame. unfold netif_rx, eth_rx.
  set (ip := ipv4_header_bytes _ ++ body) in frame.
  assert (Z.of_nat (length ip) = 20 + n) as Hip by (unfold ip; rewrite length_app, ipv4_header_length; lia).
  assert (Z.of_nat (length frame) = 34 + n) as Hf by (unfold frame; rewrite eth_frame_length; lia).
  rewrite Hf. unfold ETH_HDR_LEN. rewrite (proj2 (Z.ltb_ge (34 + n) 14)) by lia. cbv zeta.
  unfold frame. rewrite eth_frame_type by done.
  change (ETHERTYPE_IPV4 =? ETHERTYPE_ARP) with false. change (ETHERTYPE_IPV4 =? ETHERTYPE_IPV4) with true.
  cbv iota. change (drop (Z.to_nat 14) (eth_frame m _ _ ip)) with ip.
  replace (34 + n - 14) with (20 + n) by lia. rewrite u16_small by lia.
  unfold ipv4_rx, ip. pose proof (h_ip s i (cr_host _ _ _ _ Hr)) as Hsip.
  destruct (sent_header_ok s i dst proto n) as [Hok Hv]; [done|apply Hr|lia|].
  rewrite (ipv4_input_accepts (st_net k) j (sent_header s i dst proto n) body (20 + n) n); try done; try lia.
  - cbn [mbind option_bind]. unfold for_us. change (dst_ip _) with dst. rewrite Hj, Z.eqb_refl. done.
  - change (total_length _) with (htons (20 + n)). apply htons_involutive. lia.
Qed.

(** C31: a UDP datagram of up to 1472 bytes, sent to a host with a matching
    socket, is read there by [udp_socket_recvfrom] byte for byte, with the
    sender's address and port. *)
Theorem udp_end_to_end s i m k now j q sport dport payload n buf :
  let dst := ip_addr (interfaces (st_net k)).[j] in
  let src := ip_addr (interfaces s).[i] in
  can_reach s i dst m -> 0 <= sport < 65536 -> 0 <= dport < 65536 ->
  sport <> DNS_PORT -> dport <> DHCP_CLIENT_PORT ->
  0 <= n <= 1472 -> n <= Z.of_nat (length payload) -> n <= Z.of_nat (length buf) ->
  0 <= q < UDP_MAX_SOCKETS -> Z.of_nat (length (st_udp k)) = UDP_MAX_SOCKETS ->
  udp_match (st_udp k) src sport dport = Some q ->
  Z.of_nat (length (u_rx_buf (st_udp k).[q])) = UDP_RX_BUF_SIZE ->
  exists s' frame k' socks buf',
    udp_send s (Some i) dst sport dport payload n = Some (s', drv_send (interfaces s).[i] frame) /\
    wire s' = wire s ++ [(i, frame)] /\
    netif_rx k now j frame (Z.of_nat (length frame)) = Some k' /\
    udp_socket_recvfrom (st_udp k') q buf (Z.of_nat (length buf)) = Some (socks, n, buf', Some (src, sport)) /\
    take (Z.to_nat n) buf' = take (Z.to_nat n) payload.
Proof.
  intros dst src Hr Hsp Hdp H53 H68 Hn Hl Hbl Hq Hsl Hm Hb.
  destruct (udp_send_spec s (Some i) dst sport dport payload n Hn Hl) as [rest ->].
  set (pay := take (Z.to_nat n) payload).
  assert (Z.of_nat (length pay) = n) as Hp by (unfold pay; rewrite length_take; lia).
  pose proof (udp_bytes_length sport dport pay) as Hul.
  rewrite (ipv4_send_resolved s i dst IP_PROTO_UDP _ (8 + n) m) by
    (first [lia|rewrite length_app, Hul; lia|apply (cr_host _ _ _ _ Hr)|apply Hr]).
  rewrite (take_app_length' (udp_bytes sport dport pay)) by lia.
  eexists _, _. destruct (udp_rx_spec (st_udp k) src sport dport pay [] q) as (b & Hbt & Hbb & Erx);
    try done; [lia|].
  rewrite app_nil_r in Erx.
  eexists _, _, _. split; [done|]. split; [done|].
  rewrite (netif_rx_sent k now j s i dst IP_PROTO_UDP (8 + n) (udp_bytes sport dport pay) m) by
    (first [done|lia]).
  unfold ipv4_dispatch. cbn [d_proto d_src d_payload d_len].
  change (IP_PROTO_UDP =? IP_PROTO_ICMP) with false. change (IP_PROTO_UDP =? IP_PROTO_UDP) with true. cbv iota.
  fold src. rewrite <- Hp, Erx. split; [done|]. cbn [mbind option_bind set_udp st_udp].
  apply find_first_Some in Hm as (_ & Hmm & _). cbv beta zeta in Hmm. bool_to_prop.
  unfold udp_socket_recvfrom, udp_bad. rewrite (aget_aset_eq (st_udp k) q) by lia. cbn [u_used].
  match goal with Hu : u_used _ = true |- _ => rewrite Hu end.
  rewrite (proj2 (Z.ltb_ge q 0)), (proj2 (Z.leb_gt UDP_MAX_SOCKETS q)) by lia. cbn [orb negb u_rx_ready u_rx_len u_rx_buf].
  cbv zeta iota. rewrite (proj2 (Z.ltb_ge _ (Z.of_nat (length pay)))) by lia.
  rewrite load_Some by (unfold UDP_RX_BUF_SIZE in Hbb; lia). cbn [mbind option_bind].
  change (Z.to_nat 0) with 0%nat. rewrite drop_0, Nat2Z.id, Hbt.
  rewrite store_Some by lia. cbn [mbind option_bind]. change (Z.to_nat 0) with 0%nat.
  split; [done|]. by rewrite take_0, app_nil_l, take_app_length.
Qed.

(** ** TCP segments *)

Record segment_ok (g : segment) : Prop := SegmentOk {
  so_dst : 0 <= g_dst g < 4294967296;
  so_ports : 0 <= g_sport g < 65536 /\ 0 <= g_dport g < 65536;
  so_seqs : 0 <= g_seq g < 4294967296 /\ 0 <= g_ack g < 4294967296;
  so_window : 0 <= g_window g < 65536;
}.

(** What the receiver of a segment sees. *)
Definition segment_input (src : Z) (g : segment) (pay : list Z) : input :=
  Input src (g_sport g) (g_dport g) (g_seq g) (g_ack g) (g_flags g) pay (Z.of_nat (length pay)).

Lemma tcp_header_at_bytes x0 x1 x2 x3 x4 x5 x6 x7 x8 x9 x10 x11 x12 x13 x14 x15 x16 x17 x18 x19 rest :
  tcp_header_at ([x0; x1; x2; x3; x4; x5; x6; x7; x8; x9; x10; x11; x12; x13; x14; x15; x16; x17; x18; x19] ++ rest)
  = TcpHeader (x0 + 256 * x1) (x2 + 256 * x3)
      (x4 + 256 * x5 + 65536 * (x6 + 256 * x7)) (x8 + 256 * x9 + 65536 * (x10 + 256 * x11))
      x12 x13 (x14 + 256 * x15) (x16 + 256 * x17) (x18 + 256 * x19).
Proof. reflexivity. Qed.

Lemma tcp_parse_segment src g c pay :
  segment_ok g -> 0 <= c < 65536 -> Z.of_nat (length pay) <= 65000 ->
  tcp_parse src (tcp_header_bytes (segment_header g c) ++ pay) (20 + Z.of_nat (length pay))
  = segment_input src g pay.
Proof.
  intros [Hd [Hs Hp] [Hq Ha] Hw] Hc Hl. unfold tcp_parse.
  assert (tcp_header_at (tcp_header_bytes (segment_header g c) ++ pay) = segment_header g c) as ->.
  { etransitivity; [apply tcp_header_at_bytes|].
    pose proof (htons_bound (g_sport g)). pose proof (htons_bound (g_dport g)).
    pose proof (htons_bound (g_window g)). pose proof (htonl_bound _ Hq). pose proof (htonl_bound _ Ha).
    cbn [segment_header src_port dst_port seq_num ack_num data_off flags window t_checksum urgent].
    rewrite !le32_value, !le16_value by done. done. }
  cbv zeta. change (u8 (Z.shiftr (data_off (segment_header g c)) 4 * 4)) with 20.
  cbn [segment_header src_port dst_port seq_num ack_num flags]. unfold ntohs, ntohl.
  rewrite !htons_involutive, !htonl_involutive by done.
  replace (20 + Z.of_nat (length pay) - 20) with (Z.of_nat (length pay)) by lia. rewrite u16_small by lia.
  change (Z.to_nat 20) with 20%nat. by rewrite (drop_app_length' (tcp_header_bytes _)) by done.
Qed.

(** The state after [ipv4_send] through interface [i]. *)
Definition sent (s : netstk) (i : Z) (frame : list Z) : netstk :=
  transmit (set_ip s (u16 (ip_id_counter s + 1)) (routes s) (route_count s)) i frame.

Definition tcp_frame (s : netstk) (i : Z) (m : list Z) (g : segment) (c : Z) (pay : list Z) : list Z :=
  eth_frame m (mac (interfaces s).[i]) ETHERTYPE_IPV4
    (ipv4_header_bytes (sent_header s i (g_dst g) IP_PROTO_TCP (20 + Z.of_nat (length pay))) ++
     (tcp_header_bytes (segment_header g c) ++ pay)).

(** A segment to a host whose next hop is resolved leaves as one frame. *)
Lemma tcp_send_resolved s iface i g p n m :
  match iface with Some x => x = i | None => default_iface s = Some i end ->
  can_reach s i (g_dst g) m -> 0 <= n <= 1460 -> n <= Z.of_nat (length p) ->
  exists c, 0 <= c < 65536 /\
    let frame := tcp_frame s i m g c (take (Z.to_nat n) p) in
    tcp_send_segment s iface g (Some p) n = Some (sent s i frame, drv_send (interfaces s).[i] frame).
Proof.
  intros Hi Hr Hn Hl. unfold tcp_send_segment, TCP_HDR_MIN_LEN. cbv zeta. rewrite (u16_small (20 + n)) by lia.
  rewrite (proj2 (Z.ltb_ge (ETH_MTU - 20) (20 + n))) by (unfold ETH_MTU; lia).
  set (buf := repeat 0 _). assert (Z.of_nat (length buf) = 1500) as Hb by done. clearbody buf.
  set (h0 := tcp_header_bytes (segment_header g 0)). assert (Z.of_nat (length h0) = 20) as H0 by done.
  clearbody h0. set (pay := take (Z.to_nat n) p).
  assert (Z.of_nat (length pay) = n) as Hp by (unfold pay; rewrite length_take; lia).
  destruct (store_header_payload buf h0 pay 20) as (b1 & b2 & E1 & E2 & Hl2 & rest & E3); [lia|lia|].
  rewrite E1. cbn [mbind option_bind].
  assert (exists rest2, (if 0 <? n then bs ← load p 0 n; store b1 20 bs else Some b1) = Some (h0 ++ pay ++ rest2)
    /\ length (h0 ++ pay ++ rest2) = 1500%nat) as (rest2 & -> & Hl3).
  { destruct (Z.ltb_spec 0 n).
    - rewrite load_Some by lia. cbn [mbind option_bind]. change (Z.to_nat 0) with 0%nat. rewrite drop_0.
      fold pay. rewrite E2, E3. exists rest. split; [done|]. rewrite <- E3. lia.
    - assert (pay = []) as -> by (apply length_zero_iff_nil; lia).
      rewrite store_Some in E1 by lia. change (Z.to_nat 0) with 0%nat in E1.
      rewrite take_0, app_nil_l in E1. injection E1 as <-.
      exists (drop (length h0) buf). split; [done|]. rewrite app_nil_l, length_app, length_drop. lia. }
  cbn [mbind option_bind].
  assert (match iface with Some i => Some i | None => netif_get_default s end = Some i) as ->
    by (destruct iface; [by rewrite Hi|done]).
  set (c := tcp_checksum _ _ _ _). assert (0 <= c < 65536) as Hc by apply u16_bound. clearbody c.
  exists c. split; [done|].
  set (h1 := tcp_header_bytes (segment_header g c)). assert (length h1 = 20%nat) as H1 by done.
  rewrite store_Some by (rewrite ?length_app in *; lia). cbn [mbind option_bind].
  change (Z.to_nat 0) with 0%nat. rewrite take_0, app_nil_l.
  rewrite (drop_app_length' h0) by lia. rewrite app_assoc.
  rewrite (ipv4_send_resolved s i (g_dst g) IP_PROTO_TCP _ (20 + n) m) by
    (first [lia|apply (cr_host _ _ _ _ Hr)|apply Hr|rewrite !length_app; lia]).
  rewrite (take_app_length' (h1 ++ pay)) by (rewrite length_app; lia).
  unfold tcp_frame. rewrite Hp. done.
Qed.

Lemma tcp_send_none s iface g : tcp_send_segment s iface g None 0 = tcp_send_segment s iface g (Some []) 0.
Proof. done. Qed.

Lemma can_reach_sent s i x dst m frame : can_reach s i dst m -> can_reach (sent s x frame) i dst m.
Proof.
  intros [[H1 H2 H3 H4] H5 H6 H7]. constructor; [|exact H5|exact H6|exact H7].
  constructor; [exact H1|exact H2|exact H3|exact H4].
Qed.

(** ** A connection between two hosts *)

(** Frames delivered one after the other. *)
Fixpoint rx_all (k : stack) (now j : Z) (frames : list (list Z)) : option stack :=
  match frames with
  | [] => Some k
  | f :: fs => k ← netif_rx k now j f (Z.of_nat (length f)); rx_all k now j fs
  end.

(** Socket [q] of the receiver is the established end of the connection that
    carries segments from [src], port [sport] to port [dport], and expects
    sequence number [seq]. *)
Record receives (k : stack) (j q src : Z) (sport dport seq : Z) (m : list Z) : Prop := Receives {
  rv_ok : tcp_ok (st_tcp k);
  rv_idx : 0 <= q < TCP_MAX_SOCKETS;
  rv_est : state (sockets (st_tcp k)).[q] = TCP_ESTABLISHED;
  rv_look : tcp_lookup (sockets (st_tcp k)) src sport dport = Some q;
  rv_exact : local_port (sockets (st_tcp k)).[q] = dport /\ remote_port (sockets (st_tcp k)).[q] = sport /\
             remote_ip (sockets (st_tcp k)).[q] = src;
  rv_seq : rcv_nxt (sockets (st_tcp k)).[q] = seq;
  rv_reach : can_reach (st_net k) j src m;
}.

(** The lookup is not affected by data received on the connection. *)
Lemma tcp_lookup_stable l q sk' src sport dport :
  0 <= q < TCP_MAX_SOCKETS -> Z.of_nat (length l) = TCP_MAX_SOCKETS -> same_but_rx l.[q] sk' ->
  tcp_lookup l.[q <- sk'] src sport dport = tcp_lookup l src sport dport.
Proof.
  intros Hq Hl (H1 & H2 & H3 & H4 & H5 & _). unfold tcp_lookup. cbv zeta.
  assert (forall (P : tcp_socket -> bool),
    P sk' = P l.[q] -> find_first (fun i => P l.[q <- sk'].[i]) (Z.to_nat TCP_MAX_SOCKETS) 0
    = find_first (fun i => P l.[i]) (Z.to_nat TCP_MAX_SOCKETS) 0) as Hext.
  { intros P HP. apply find_first_ext. intros i Hi. destruct (decide (i = q)) as [->|].
    - rewrite aget_aset_eq by lia. done.
    - rewrite aget_aset_ne by lia. done. }
  rewrite (Hext (exact_match src sport dport)) by (unfold exact_match; by rewrite H1, H3, H4, H5).
  rewrite (Hext (listen_match dport)) by (unfold listen_match; by rewrite H1, H2, H3).
  rewrite (Hext (syn_sent_match src sport)) by (unfold syn_sent_match; by rewrite H1, H2, H4, H5).
  done.
Qed.

(** One data segment of the expected sequence number, delivered. *)
Lemma netif_rx_data k now j q s i m m' g c pay :
  receives k j q (ip_addr (interfaces s).[i]) (g_sport g) (g_dport g) (g_seq g) m' ->
  can_reach s i (g_dst g) m -> ip_addr (interfaces (st_net k)).[j] = g_dst g ->
  segment_ok g -> 0 <= c < 65536 -> g_flags g = Z.lor TCP_ACK TCP_PSH ->
  0 < Z.of_nat (length pay) <= 1460 ->
  rx_len (sockets (st_tcp k)).[q] + Z.of_nat (length pay) <= TCP_RX_BUF_SIZE ->
  let frame := tcp_frame s i m g c pay in
  exists k', netif_rx k now j frame (Z.of_nat (length frame)) = Some k' /\
    receives k' j q (ip_addr (interfaces s).[i]) (g_sport g) (g_dport g)
      (u32 (g_seq g + Z.of_nat (length pay))) m' /\
    ip_addr (interfaces (st_net k')).[j] = g_dst g /\
    rx_data (sockets (st_tcp k')).[q] = rx_data (sockets (st_tcp k)).[q] ++ pay.
Proof.
  intros [Hok Hq He Hlook Hex Hseq Hreach] Hr Hj Hg Hc Hf Hp Hfit frame.
  set (src := ip_addr (interfaces s).[i]) in *. unfold frame, tcp_frame.
  rewrite (netif_rx_sent k now j s i (g_dst g) IP_PROTO_TCP (20 + Z.of_nat (length pay))
             (tcp_header_bytes (segment_header g c) ++ pay) m); [|done|done| |lia|done].
  2:{ rewrite length_app, tcp_header_length. lia. }
  unfold ipv4_dispatch. cbn [d_proto d_src d_payload d_len].
  change (IP_PROTO_TCP =? IP_PROTO_ICMP) with false. change (IP_PROTO_TCP =? IP_PROTO_UDP) with false.
  change (IP_PROTO_TCP =? IP_PROTO_TCP) with true. cbv iota. fold src.
  unfold tcp_rx, TCP_HDR_MIN_LEN. rewrite (proj2 (Z.ltb_ge (20 + _) 20)) by lia.
  rewrite tcp_parse_segment by (first [done|lia]). set (p := segment_input src g pay).
  unfold tcp_input. change (i_src p) with src. change (i_sport p) with (g_sport g).
  change (i_dport p) with (g_dport g). rewrite Hlook.
  set (sk := (sockets (st_tcp k)).[q]) in *. unfold sk_rx. rewrite He. cbv zeta.
  change (i_flags p) with (g_flags g). rewrite Hf.
  change (has (Z.lor TCP_ACK TCP_PSH) TCP_FIN) with false. change (has (Z.lor TCP_ACK TCP_PSH) TCP_RST) with false.
  cbv iota. change (i_len p) with (Z.of_nat (length pay)). rewrite (proj2 (Z.ltb_lt 0 _)) by lia.
  pose proof (tk_socks _ Hok q Hq) as Hsk. fold sk in Hsk.
  destruct (sk_data_spec sk p Hsk) as (sk' & -> & Hok' & Hsame & Hd & Hrn); [split; cbn; lia|].
  cbn [mbind option_bind]. pose proof (h_ip _ _ (cr_host _ _ _ _ Hr)) as Hsip. fold src in Hsip.
  change (i_seq p) with (g_seq g) in Hrn. rewrite Hseq, Z.eqb_refl in Hrn.
  set (a := reply_segment sk' p TCP_ACK TCP_WINDOW_SIZE).
  rewrite tcp_send_none.
  destruct (tcp_send_resolved (net (st_tcp k)) (Some j) j a [] 0 m') as (c2 & _ & E2);
    [done|exact Hreach|lia|done|].
  rewrite E2. cbn [mbind option_bind]. eexists. split; [done|].
  pose proof (tk_len _ Hok) as Hlen.
  assert ((sockets (st_tcp k)).[q <- sk'].[q] = sk') as Eq by (apply aget_aset_eq; lia).
  pose proof Hsame as (Hu & Hst & Hlp & Hri & Hrp & _).
  split; [|split].
  - constructor; cbn [set_tcp st_tcp sockets st_net net]; rewrite ?Eq.
    + by apply tcp_ok_set.
    + done.
    + by rewrite Hst.
    + rewrite tcp_lookup_stable; done.
    + by rewrite Hlp, Hri, Hrp.
    + exact Hrn.
    + by apply can_reach_sent.
  - exact Hj.
  - cbn [set_tcp st_tcp sockets]. rewrite Eq, Hd. f_equal. unfold accepted.
    change (i_seq p) with (g_seq g). rewrite Hseq, Z.eqb_refl. change (i_len p) with (Z.of_nat (length pay)).
    change (i_payload p) with pay. apply take_ge. unfold TCP_RX_BUF_SIZE in *. lia.
Qed.

(** The sending end of a connection. *)
Record sends (s : netstk) (i : Z) (sk : tcp_socket) (m : list Z) : Prop := Sends {
  sd_iface : default_iface s = Some i;
  sd_reach : can_reach s i (remote_ip sk) m;
  sd_ports : 0 <= local_port sk < 65536 /\ 0 <= remote_port sk < 65536;
  sd_seqs : 0 <= snd_nxt sk < 4294967296 /\ 0 <= rcv_nxt sk < 4294967296;
}.

Lemma sends_sent s i sk m x frame nxt :
  sends s i sk m -> 0 <= nxt < 4294967296 ->
  sends (sent s x frame) i (set_snd sk (snd_una sk) nxt) m.
Proof.
  intros [H1 H2 H3 [H4 H5]] Hn. constructor; [exact H1|by apply can_reach_sent|exact H3|done].
Qed.

(** The segments of one [tcp_socket_send], delivered in order. *)
Lemma send_loop_delivers fuel s sk data len sent_ k now i j q m m' :
  sends s i sk m -> len <= 65535 -> len <= Z.of_nat (length data) -> 0 <= sent_ <= len ->
  len - sent_ < Z.of_nat fuel ->
  receives k j q (ip_addr (interfaces s).[i]) (local_port sk) (remote_port sk) (snd_nxt sk) m' ->
  ip_addr (interfaces (st_net k)).[j] = remote_ip sk ->
  rx_len (sockets (st_tcp k)).[q] + (len - sent_) <= TCP_RX_BUF_SIZE ->
  exists s' nxt frames k',
    send_loop fuel s sk data len sent_ = Some (s', set_snd sk (snd_una sk) nxt, len) /\
    wire s' = wire s ++ ((fun f => (i, f)) <$> frames) /\
    rx_all k now j frames = Some k' /\
    receives k' j q (ip_addr (interfaces s).[i]) (local_port sk) (remote_port sk) nxt m' /\
    rx_data (sockets (st_tcp k')).[q]
    = rx_data (sockets (st_tcp k)).[q] ++ take (Z.to_nat (len - sent_)) (drop (Z.to_nat sent_) data).
Proof.
  revert s sk sent_ k. induction fuel as [|f IH]; intros s sk sent_ k Hs Hlen Hd Hsent Hfuel Hrv Hip Hfit; [lia|].
  cbn [send_loop]. destruct (Z.ltb_spec sent_ len) as [Hlt|Hge].
  2:{ exists s, (snd_nxt sk), [], k. assert (sent_ = len) as -> by lia.
      rewrite Z.sub_diag. change (Z.to_nat 0) with 0%nat. rewrite take_0, !app_nil_r.
      split_and!; try done. by destruct sk. }
  rewrite (u16_small (len - sent_)) by lia.
  set (chunk := if TCP_MSS <? len - sent_ then TCP_MSS else len - sent_).
  assert (0 < chunk <= len - sent_ /\ chunk <= 1460) as Hc.
  { unfold chunk, TCP_MSS. destruct (Z.ltb_spec 1460 (len - sent_)); lia. }
  clearbody chunk. cbv zeta. set (g := Segment _ _ _ _ _ _ _). set (p := drop (Z.to_nat sent_) data).
  assert (Z.of_nat (length p) = Z.of_nat (length data) - sent_) as Hp by (unfold p; rewrite length_drop; lia).
  destruct (tcp_send_resolved s None i g p chunk m) as (c & Hcr & E); [apply Hs|apply Hs|lia|lia|].
  rewrite E. cbn [mbind option_bind]. rewrite (u16_small (sent_ + chunk)) by lia.
  set (pay := take (Z.to_nat chunk) p).
  assert (Z.of_nat (length pay) = chunk) as Hpay by (unfold pay; rewrite length_take; lia).
  destruct (sd_ports _ _ _ _ Hs), (sd_seqs _ _ _ _ Hs).
  destruct (netif_rx_data k now j q s i m m' g c pay) as (k1 & Erx & Hrv1 & Hip1 & Hd1);
    [done|apply Hs|done| |done|done|lia|lia|].
  { constructor; cbn; [apply Hs|done|done|done]. }
  change (g_seq g) with (snd_nxt sk) in Hrv1. rewrite Hpay in Hrv1. fold p pay.
  set (frame := tcp_frame s i m g c pay) in *.
  set (sk1 := set_snd sk (snd_una sk) (u32 (snd_nxt sk + chunk))).
  assert (rx_len (sockets (st_tcp k1)).[q] = rx_len (sockets (st_tcp k)).[q] + chunk) as Hrl.
  { rewrite <- !rx_data_length by
      (first [apply (rv_ok _ _ _ _ _ _ _ _ Hrv), (rv_idx _ _ _ _ _ _ _ _ Hrv)
             |apply (rv_ok _ _ _ _ _ _ _ _ Hrv1), (rv_idx _ _ _ _ _ _ _ _ Hrv1)]).
    rewrite Hd1, length_app. lia. }
  destruct (IH (sent s i frame) sk1 (sent_ + chunk) k1) as (s' & nxt & fs & k' & E' & Hw & Erx' & Hrv' & Hd');
    try done; try lia.
  { apply sends_sent; [done|apply u32_bound]. }
  exists s', nxt, (frame :: fs), k'. split_and!.
  - rewrite E'. done.
  - rewrite Hw. cbn [sent transmit set_ip wire fmap list_fmap]. by rewrite <- app_assoc.
  - cbn [rx_all]. rewrite Erx. cbn [mbind option_bind]. exact Erx'.
  - exact Hrv'.
  - rewrite Hd', Hd1, <- app_assoc. f_equal. unfold pay, p.
    replace (Z.to_nat (sent_ + chunk)) with (Z.to_nat sent_ + Z.to_nat chunk)%nat by lia.
    rewrite <- drop_drop.
    rewrite <- (take_drop (Z.to_nat chunk) (take (Z.to_nat (len - sent_)) (drop (Z.to_nat sent_) data))).
    rewrite take_take, skipn_firstn_comm. f_equal; [f_equal; lia|f_equal; lia].
Qed.

(** C9: over an established connection between two hosts that know each
    other's MAC, [tcp_socket_send] cuts the data into segments that, received
    in order through [netif_rx], put exactly that data at the end of the
    receiver's buffer, and the sender's next sequence number is again the one
    the receiver expects. *)
Theorem tcp_end_to_end t a data len k now i j q m m' :
  let sk := (sockets t).[a] in
  0 <= a < TCP_MAX_SOCKETS -> Z.of_nat (length (sockets t)) = TCP_MAX_SOCKETS ->
  used sk = true -> state sk = TCP_ESTABLISHED -> sends (net t) i sk m ->
  receives k j q (ip_addr (interfaces (net t)).[i]) (local_port sk) (remote_port sk) (snd_nxt sk) m' ->
  ip_addr (interfaces (st_net k)).[j] = remote_ip sk ->
  0 <= len <= 65535 -> len <= Z.of_nat (length data) ->
  rx_len (sockets (st_tcp k)).[q] + len <= TCP_RX_BUF_SIZE ->
  exists t' frames k',
    tcp_socket_send t a data len = Some (t', len) /\
    wire (net t') = wire (net t) ++ ((fun f => (i, f)) <$> frames) /\
    rx_all k now j frames = Some k' /\
    rx_data (sockets (st_tcp k')).[q] = rx_data (sockets (st_tcp k)).[q] ++ take (Z.to_nat len) data /\
    rcv_nxt (sockets (st_tcp k')).[q] = snd_nxt (sockets t').[a].
Proof.
  intros sk Ha Hl Hu He Hs Hrv Hip Hlen Hd Hfit. unfold tcp_socket_send, bad_sock. fold sk.
  rewrite Hu, (proj2 (Z.ltb_ge a 0)), (proj2 (Z.leb_gt TCP_MAX_SOCKETS a)) by lia. cbn [orb negb].
  rewrite (bool_decide_true (state sk = TCP_ESTABLISHED)) by done. cbn [negb andb].
  destruct (send_loop_delivers (S (Z.to_nat len)) (net t) sk data len 0 k now i j q m m')
    as (s' & nxt & fs & k' & E & Hw & Erx & Hrv' & Hd'); try done; try lia.
  rewrite E. cbn [mbind option_bind].
  eexists _, fs, k'. split; [done|]. split_and!; try done.
  - rewrite Z.sub_0_r in Hd'. exact Hd'.
  - cbn [sockets]. rewrite aget_aset_eq by lia. apply Hrv'.
Qed.

End end_to_end.

(** ** Opening a connection *)

(** C30: the three-way handshake synchronises both ends: the SYN of a connecting
    socket makes a listening socket its peer and answer SYN+ACK, which brings
    the connecting socket to ESTABLISHED and makes it answer ACK, which brings
    the listener to ESTABLISHED; each answer is addressed to the other socket,
    and each end expects exactly the next sequence number of the other. *)
Theorem tcp_handshake isnA isnB now A B ipA ipB x :
  used A = true -> used B = true -> state A = TCP_SYN_SENT -> state B = TCP_LISTEN ->
  remote_ip A = ipB -> remote_port A = local_port B -> snd_nxt A = u32 (x + 1) ->
  let syn := Segment ipB (local_port A) (remote_port A) x 0 TCP_SYN TCP_WINDOW_SIZE in
  addressed B (segment_input ipA syn []) /\
  exists B1 isnB1 synack A1 ack B2,
    sk_rx isnB now B (segment_input ipA syn []) = Some (B1, isnB1, Some synack) /\
    state B1 = TCP_SYN_RECEIVED /\ g_dst synack = ipA /\ addressed A (segment_input ipB synack []) /\
    sk_rx isnA now A (segment_input ipB synack []) = Some (A1, isnA, Some ack) /\
    g_dst ack = ipB /\ addressed B1 (segment_input ipA ack []) /\
    sk_rx isnB1 now B1 (segment_input ipA ack []) = Some (B2, isnB1, None) /\
    state A1 = TCP_ESTABLISHED /\ state B2 = TCP_ESTABLISHED /\
    remote_ip B2 = ipA /\ remote_port B2 = local_port A /\
    rcv_nxt B2 = snd_nxt A1 /\ rcv_nxt A1 = snd_nxt B2.
Proof.
  intros HuA HuB HA HB Hip Hport Hnxt syn. split; [split; [by cbn|by right]|].
  set (p1 := segment_input ipA syn []).
  set (B0 := set_state (set_snd (set_rcv (set_remote B ipA (local_port A)) (u32 (x + 1))) isnB isnB)
               TCP_SYN_RECEIVED).
  set (synack := reply_segment B0 p1 (Z.lor TCP_SYN TCP_ACK) TCP_WINDOW_SIZE).
  set (B1 := set_snd B0 isnB (u32 (isnB + 1))).
  set (p2 := segment_input ipB synack []).
  set (A1 := set_state (set_snd (set_rcv A (u32 (isnB + 1))) (u32 (x + 1)) (snd_nxt A)) TCP_ESTABLISHED).
  set (ack := reply_segment A1 p2 TCP_ACK TCP_WINDOW_SIZE).
  set (p3 := segment_input ipA ack []).
  exists B1, (u32 (isnB + 1)), synack, A1, ack, (set_state (set_snd B1 (i_ack p3) (snd_nxt B1)) TCP_ESTABLISHED).
  split; [unfold sk_rx; rewrite HB; reflexivity|]. split; [done|]. split; [done|].
  split; [split; [done|by left]|].
  split; [unfold sk_rx; rewrite HA; reflexivity|]. split; [done|].
  split; [split; [done|by left]|]. split; [reflexivity|]. split_and!; done.
Qed.

(** * Stale socket handles *)

Lemma sk_rx_reset isn now sk p :
  sock_ok sk -> input_ok p -> state sk = TCP_ESTABLISHED -> has (i_flags p) TCP_RST = true ->
  exists sk' g, sk_rx isn now sk p = Some (sk', isn, g) /\ used sk' = false /\ sock_ok sk'.
Proof.
  intros Hok Hp He Hr. unfold sk_rx. rewrite He, Hr. cbv zeta.
  destruct (has (i_flags p) TCP_FIN); [eexists _, _; split; [done|]; split; [done|]; by destruct Hok|].
  destruct (0 <? i_len p).
  - destruct (sk_data_spec sk p Hok Hp) as (s1 & -> & Hok1 & _). cbn [mbind option_bind].
    eexists _, _; split; [done|]; split; [done|]; by destruct Hok1.
  - destruct (has (i_flags p) TCP_ACK); cbn [mbind option_bind]; eexists _, _; (split; [done|]);
      split; [done| |done|]; by destruct Hok.
Qed.

(** A reset frees the TCP socket under an open descriptor but not the
    descriptor; the next [net_socket] then takes the same TCP socket, and two
    open descriptors share one connection. *)
Theorem net_socket_aliases `{NetDriver} y fd now iface src data len f :
  let q := k_fd (ksocks y).[fd] in
  let t := st_tcp (stk y) in
  let p := tcp_parse src data len in
  Z.of_nat (length (ksocks y)) = NET_MAX_SOCKETS ->
  bad_fd y fd = false -> k_type (ksocks y).[fd] = SOCK_STREAM ->
  tcp_ok t -> TCP_HDR_MIN_LEN <= len -> input_ok p ->
  tcp_lookup (sockets t) src (i_sport p) (i_dport p) = Some q ->
  state (sockets t).[q] = TCP_ESTABLISHED -> has (i_flags p) TCP_RST = true ->
  (forall i, 0 <= i < q -> used (sockets t).[i] = true) ->
  0 <= f < NET_MAX_SOCKETS -> k_used (ksocks y).[f] = false ->
  (forall i, 0 <= i < f -> k_used (ksocks y).[i] = true) ->
  exists t1 y', tcp_rx t now iface src data len = Some t1 /\
    net_socket (set_stk y (set_tcp (stk y) t1)) AF_INET SOCK_STREAM = (y', f) /\
    f <> fd /\ bad_fd y' fd = false /\ bad_fd y' f = false /\
    k_fd (ksocks y').[f] = q /\ k_fd (ksocks y').[fd] = q.
Proof.
  intros q t p Hl Hfd Hty Hok Hlen Hp Hlook He Hr Hbelow Hf Hfree Hfull.
  unfold tcp_rx. rewrite (proj2 (Z.ltb_ge len TCP_HDR_MIN_LEN)) by lia. fold p.
  unfold tcp_input. change (i_src p) with src. rewrite Hlook.
  apply (tcp_lookup_spec _ p) in Hlook as (Hq & Hu & _).
  destruct (sk_rx_reset (tcp_isn t) now (sockets t).[q] p) as (sk' & g & -> & Hu' & _);
    [by apply Hok|done|done|done|]. cbn [mbind option_bind].
  assert (exists s', match g with
    | Some g => '(s, _) ← tcp_send_segment (net t) iface g None 0; Some s
    | None => Some (net t) end = Some s') as (s' & ->).
  { destruct g as [g|]; [|by eauto].
    destruct (tcp_send_total (net t) iface g None 0) as [[s' r] E]; [lia|done|]. rewrite E. by eauto. }
  cbn [mbind option_bind]. eexists _, _. split; [done|].
  assert (f <> fd) as Hne.
  { intros ->. unfold bad_fd in Hfd. rewrite Hfree in Hfd. by rewrite orb_true_r in Hfd. }
  unfold net_socket. change (negb (AF_INET =? AF_INET)) with false. cbv iota.
  cbn [ksocks set_stk].
  rewrite (find_first_intro _ _ 0 f); [|lia|by rewrite Hfree|intros i Hi; rewrite Hfull by lia; done].
  change (SOCK_STREAM =? SOCK_DGRAM) with false. change (SOCK_STREAM =? SOCK_STREAM) with true. cbv iota.
  cbn [stk st_tcp set_tcp]. unfold tcp_socket_open. cbn [sockets].
  pose proof (tk_len t Hok) as Htl.
  rewrite (find_first_intro _ _ 0 q).
  - rewrite (proj2 (Z.ltb_ge q 0)) by lia. split; [done|]. split; [done|].
    unfold bad_fd in *. cbn [ksocks]. rewrite aget_aset_eq by lia. rewrite !aget_aset_ne by (bool_to_prop; lia).
    split_and!; try done. by rewrite (proj2 (Z.ltb_ge f 0)), (proj2 (Z.leb_gt NET_MAX_SOCKETS f)) by lia.
  - lia.
  - cbn [set_stk stk set_tcp st_tcp sockets]. rewrite aget_aset_eq by lia. by rewrite Hu'.
  - intros i Hi. cbn [set_stk stk set_tcp st_tcp sockets]. rewrite aget_aset_ne by lia. by rewrite Hbelow by lia.
Qed.

(** * Examples *)

Definition host_ip (last : Z) : Z := ip_addr (interfaces (example_host last)).[0].

(** A host that has learned the address of another. *)
Definition knows (a b : Z) : netstk :=
  set_arp_cache (example_host a) (arp_cache_add (repeat blank_arp 32) 1 (host_ip b) [2; 0; 0; 0; 0; b]).

Lemma knows_10_20 : can_reach (knows 10 20) 0 (host_ip 20) [2; 0; 0; 0; 0; 20].
Proof.
  constructor; [|vm_compute; split; [discriminate|reflexivity]|vm_compute; reflexivity|vm_compute; reflexivity].
  constructor; [|reflexivity|vm_compute; split; reflexivity|reflexivity].
  apply arp_learn. exact (arp_init_wf (example_host 10)).
Qed.

Lemma knows_20_10 : can_reach (knows 20 10) 0 (host_ip 10) [2; 0; 0; 0; 0; 10].
Proof.
  constructor; [|vm_compute; split; [discriminate|reflexivity]|vm_compute; reflexivity|vm_compute; reflexivity].
  constructor; [|reflexivity|vm_compute; split; reflexivity|reflexivity].
  apply arp_learn. exact (arp_init_wf (example_host 20)).
Qed.

Lemma udp_end_to_end_witness :
  exists s' frame k' socks buf',
    let k := Stack (tcp_init (Tcp [] 0 (knows 20 10)) 0) (udp_socket_open udp_init 7).1 false [] in
    udp_send (DRV := quiet_driver) (knows 10 20) (Some 0) (host_ip 20) 1000 7 [65; 66; 67] 3 = Some (s', 0) /\
    netif_rx (DRV := quiet_driver) k 0 0 frame (Z.of_nat (length frame)) = Some k' /\
    udp_socket_recvfrom (st_udp k') 0 [0; 0; 0; 0] 4 = Some (socks, 3, buf', Some (host_ip 10, 1000)) /\
    take 3 buf' = [65; 66; 67].
Proof.
  destruct (udp_end_to_end (DRV := quiet_driver) (knows 10 20) 0 [2; 0; 0; 0; 0; 20]
    (Stack (tcp_init (Tcp [] 0 (knows 20 10)) 0) (udp_socket_open udp_init 7).1 false []) 0 0 0
    1000 7 [65; 66; 67] 3 [0; 0; 0; 0]) as (s' & fr & k' & socks & buf' & H1 & _ & H2 & H3 & H4).
  - exact knows_10_20.
  - lia.
  - lia.
  - unfold DNS_PORT. lia.
  - unfold DHCP_CLIENT_PORT. lia.
  - lia.
  - simpl. lia.
  - simpl. lia.
  - unfold UDP_MAX_SOCKETS. lia.
  - vm_compute. reflexivity.
  - vm_compute. reflexivity.
  - vm_compute. reflexivity.
  - exists s', fr, k', socks, buf'. split; [exact H1|]. split; [exact H2|]. split; [exact H3|exact H4].
Defined.

Lemma tcp_end_to_end_witness :
  exists t' frames k',
    let t := one_socket (est_socket 5000 (host_ip 20) 80 100 200) (knows 10 20) in
    let k := Stack (one_socket (est_socket 80 (host_ip 10) 5000 200 100) (knows 20 10)) [] false [] in
    tcp_socket_send (DRV := quiet_driver) t 0 [9; 8; 7] 3 = Some (t', 3) /\
    rx_all (DRV := quiet_driver) k 0 0 frames = Some k' /\
    rx_data (sockets (st_tcp k')).[0] = [9; 8; 7].
Proof.
  destruct (tcp_end_to_end (DRV := quiet_driver)
    (one_socket (est_socket 5000 (host_ip 20) 80 100 200) (knows 10 20)) 0 [9; 8; 7] 3
    (Stack (one_socket (est_socket 80 (host_ip 10) 5000 200 100) (knows 20 10)) [] false []) 0 0 0 0
    [2; 0; 0; 0; 0; 20] [2; 0; 0; 0; 0; 10]) as (t' & fs & k' & H1 & _ & H2 & H3 & _).
  - unfold TCP_MAX_SOCKETS. lia.
  - reflexivity.
  - reflexivity.
  - reflexivity.
  - constructor; [reflexivity|exact knows_10_20|split; split; vm_compute; done|split; split; vm_compute; done].
  - constructor.
    + apply one_socket_ok, blank_rx_ok; reflexivity.
    + unfold TCP_MAX_SOCKETS. lia.
    + reflexivity.
    + vm_compute. reflexivity.
    + repeat split; reflexivity.
    + reflexivity.
    + exact knows_20_10.
  - reflexivity.
  - lia.
  - simpl. lia.
  - vm_compute. discriminate.
  - exists t', fs, k'. split; [exact H1|]. split; [exact H2|exact H3].
Defined.

Lemma tcp_handshake_witness :
  exists A1 ack B1 isn1 synack,
    let A := set_state (est_socket 5000 20 80 101 0) TCP_SYN_SENT in
    let B := set_state (est_socket 80 0 0 0 0) TCP_LISTEN in
    sk_rx 7 0 A (segment_input 20 synack []) = Some (A1, 7, Some ack) /\ state A1 = TCP_ESTABLISHED /\
    sk_rx 50 0 B (segment_input 10 (Segment 20 5000 80 100 0 TCP_SYN TCP_WINDOW_SIZE) [])
    = Some (B1, isn1, Some synack).
Proof.
  destruct (tcp_handshake 7 50 0 (set_state (est_socket 5000 20 80 101 0) TCP_SYN_SENT)
    (set_state (est_socket 80 0 0 0 0) TCP_LISTEN) 10 20 100 eq_refl eq_refl eq_refl eq_refl eq_refl eq_refl eq_refl)
    as (_ & B1 & isn1 & synack & A1 & ack & B2 & H1 & _ & _ & _ & H2 & _ & _ & _ & H3 & _).
  exists A1, ack, B1, isn1, synack. split; [exact H2|]. split; [exact H3|exact H1].
Defined.

Lemma net_socket_aliases_witness :
  exists t1 y',
    let t := one_socket (est_socket 5000 9 80 1 33) (example_host 1) in
    let y := Sys ((repeat blank_ksocket 32).[0 <- KSocket true AF_INET SOCK_STREAM 0]) (Stack t [] false []) in
    tcp_rx (DRV := quiet_driver) t 0 (Some 0) 9 (bare_segment 80 TCP_RST) 20 = Some t1 /\
    net_socket (set_stk y (set_tcp (stk y) t1)) AF_INET SOCK_STREAM = (y', 1) /\
    k_fd (ksocks y').[1] = k_fd (ksocks y').[0].
Proof.
  set (t := one_socket _ _). 
  set (y := Sys ((repeat blank_ksocket 32).[0 <- KSocket true AF_INET SOCK_STREAM 0]) (Stack t [] false [])).
  destruct (net_socket_aliases (H := quiet_driver) y 0 0 (Some 0) 9 (bare_segment 80 TCP_RST) 20 1)
    as (t1 & y' & H1 & H2 & _ & _ & _ & H3 & H4).
  - reflexivity.
  - reflexivity.
  - reflexivity.
  - apply one_socket_ok, blank_rx_ok; reflexivity.
  - unfold TCP_HDR_MIN_LEN. lia.
  - vm_compute. repeat split; discriminate.
  - vm_compute. reflexivity.
  - reflexivity.
  - vm_compute. reflexivity.
  - intros i Hi. exfalso. change (k_fd (ksocks y).[0]) with 0 in Hi. lia.
  - unfold NET_MAX_SOCKETS. lia.
  - reflexivity.
  - intros i Hi. assert (i = 0) as -> by lia. reflexivity.
  - exists t1, y'. split; [exact H1|]. split; [exact H2|]. rewrite H3, H4. reflexivity.
Defined.
